(* ===== verification/_CoqProject ===== *)
-Q . S2P
Prelude.v
Bitmap.v
Array.v
Queue.v
Thread.v
ThreadSpec.v
ThreadInv.v
Synch.v
SynchSpec.v
Machine.v
Pool.v
PoolSim.v
PoolLogic.v
Bar.v
BarSpec.v
Ram.v
Kheap.v
KheapPages.v
KheapSpec.v
Mem.v
Cstring.v
CstringTerm.v
CopyInOut.v
Uio.v
BlockDev.v
Lhd.v
SfsDisk.v
Vnode.v
Device.v
Vfs.v
VfsList.v
VfsNames.v
VfsPath.v
VfsBalance.v
SfsIo.v
SfsTree.v
SfsBmap.v
SfsFile.v
SfsRw.v
SfsTrunc.v
SfsDir.v
SfsDirSpec.v
SfsFs.v
System.v
VfsSpec.v
Mksfs.v
MksfsSpec.v
Printf.v
PrintfSpec.v
FileTable.v
FileSpec.v
AddrSpace.v
AddrSpaceSpec.v
Trap.v
TrapSpec.v
LoadElf.v
LoadElfSpec.v
Emu.v
EmuSpec.v
EmuTable.v
