(* ===== verification/Prelude.v ===== *)
(** * OS/161: a verification library for the kernel and its file system tools.

    The program is the teaching kernel OS/161 with the solutions of its three
    assignments: synchronization (src/assignment1), system calls on files
    (src/assignment2, extended in src/assignment3) and an SFS with directories and
    indirect blocks (src/assignment3); everything else is the base kernel under
    src/completeCode/os_161/src. Where a file exists in several versions the model
    follows the latest student version.

    ** How the program hangs together, and where it is modelled

    Libraries: bitmaps ([Bitmap]: kern/lib/bitmap.c), arrays of pointers ([Array]:
    array.c), ring-buffer queues ([Queue]: queue.c), memory blocks and strings ([Mem],
    [Cstring], [CstringTerm]: lib/libc), formatted output ([Printf], [PrintfSpec]: __printf.c and
    snprintf.c, against a specification of what each conversion renders).

    Memory: physical pages ([Ram]: ram.c, dumbvm.c) and on them the kernel heap
    ([Kheap]: kheap.c, with its proofs in [KheapPages] and [KheapSpec]); address spaces
    and page faults ([AddrSpace], [AddrSpaceSpec]: dumbvm.c); traps, and with them the
    accesses to user memory ([Trap], [TrapSpec]: trap.c); executables and the start of a
    program ([LoadElf], [LoadElfSpec]: loadelf.c, assignment 2's runprogram.c).

    Threads: thread.c and scheduler.c ([Thread], over any FIFO queue), promised to be an
    abstract system of places ([ThreadSpec], [ThreadInv]); semaphores, locks and
    condition variables with the machine that interleaves threads and interrupts
    ([Synch], [SynchSpec]); booting and the properties of all executions ([Machine]).
    To the programs that use the primitives the machine is a pool that interleaves them
    ([Pool], with the proof in [PoolSim]), for which [PoolLogic] is a separation logic
    (in Iris): the client of assignment 1, customers and bartenders ([Bar]: bar.c,
    bar_driver.c), is proved in it ([BarSpec]).

    Input and output: copies across the user boundary with trap recovery ([CopyInOut]:
    copyinout.c), transfer requests ([Uio]: uio.c), the interface of a block device
    ([BlockDev]: dev.h) and the disk driver that implements it ([Lhd]: lhd.c).

    SFS: on-disk format ([SfsDisk]: sfs.h), block I/O ([SfsIo]: sfs_io.c), block map
    ([SfsTree], [SfsBmap]), file I/O ([SfsFile], [SfsRw]), truncation ([SfsTrunc]),
    directories and vnode operations ([SfsDir], [SfsDirSpec]: sfs_vnode.c), mounting
    ([SfsFs]: sfs_fs.c); and the program that makes a volume ([Mksfs], [MksfsSpec]:
    sbin/mksfs).

    The VFS layer: vnodes ([Vnode]: vnode.c), devices as files ([Device]: device.c), the
    interface [FileLayer] of what lies below ([Vfs]), named devices ([VfsList],
    [VfsNames]: vfslist.c), pathnames ([VfsPath]: vfslookup.c, vfscwd.c, vfspath.c),
    reference balance ([VfsBalance]), properties ([VfsSpec]). [System] puts devices,
    disks and SFS volumes under it. The other file system is the emulator's, which passes
    the files of the host through a card ([Emu]: emu.c): [EmuSpec] has the laws of the
    card and of reading and writing, [EmuTable] those of its handles and vnodes. On top are open files and the system calls
    ([FileTable], [FileSpec]: assignment 3's file.c and syscall.c).

    ** How code becomes definitions

    A C function is a computation [M S A] over a state [S]: it returns, panics (a failed
    [assert] or [panic]), is undefined (an access out of bounds, signed overflow, an
    uninitialised variable), or runs out of the fuel of one of its loops. [E S A] adds
    the error number of a function that returns one. A part of the state is reached by
    [zoom]. C integers are [Z], wrapped by [u8], [u16], [u32] and [s32] where the code
    wraps; [int_of] makes signed overflow undefined. Pointers are addresses, positions in
    a list, or keys of a map, as the state of the component says. Definitions carry the
    names of the code; a part of a function that has a definition of its own is a loop,
    a branch or a nested function. [wp] is total and [wlp] partial correctness.

    Concurrency is modelled where it is the subject: in [Thread], [Synch] and [Machine]
    every interleaving allowed by interrupts and blocking is an execution of a step
    relation. A thread is a program of calls and of single accesses to shared memory,
    written with what comes next as the last argument; loops that end are unrolled
    ([Pool.loop]), the others are [p_loop], a round at a time. The heap, the file systems and the VFS layer run one operation at a time.
    What the code cannot decide is an argument or a class: whether [kmalloc] succeeds,
    the disk card ([LhdCard]), the emulator's ([EmuCard]), the page layer ([PageLayer]), the system calls of a user
    program ([DiskFile]); each class of laws has an instance, and every property that
    needs one is evaluated on it.

    ** What is shown

    Files: reading and writing an SFS file act on its bytes alone; truncation keeps what
    it should (and frees too little); directories keep unique names; sync and mount, and
    mksfs and mount, are round trips. Vnodes: every reference and open that any history
    of VFS or system calls takes is accounted for. Names and paths lead where the
    comments say. Memory: blocks of the heap never overlap; copies to user space stay
    there, and reach what the TLB, the trap handler and the page fault handler provide;
    copies of address spaces share nothing; a loaded program is what its file says.
    Threads: each is in one place, no wakeup is lost, locks are exclusive, the
    scheduler is fair; every execution is one of interleaved programs. The bar: no call
    of any thread is a mistake and everybody gets what was ordered, but the evening may
    end in a deadlock. Libraries refine lists and bit sets, formatted output equals the
    rendering its format specifies, and the string functions stop on every memory. The
    properties of kind error
    and bounds say what the code does where it does not do what it means to.

    ** Bounds and fuel

    A [for] loop runs its body as often as its bounds say. Scans of memory have the
    number of mapped bytes as fuel ([Cstring]), free lists the number of blocks of a
    page, the scheduler's idle loop ends when an interrupt makes a thread runnable (a
    hypothesis on the interrupts that come), [Mksfs.write_all] 512 rounds, one for each
    byte of a block. Proofs that need it bound the number of threads by [2^20] and the
    size of a disk by [2^22 - 1] blocks, where offsets still fit an [off_t].

    ** Not modelled

    Console, clock, random and serial devices and bus probing (kern/dev): register access, and no state the modelled parts use. kprintf and the
    kernel menu: output. Trap entry and context switch in assembly. While a program is
    loaded its pages are assumed to fit the TLB, since [vm_fault] gives up when all 64
    entries are valid. The base kernel's own sfs_vnode.c, syscall.c and synch.c stubs,
    assignment 2's file.c and the copies under tmp/: superseded by the versions
    modelled. Test programs and the other user programs: not part of the system. *)

From stdpp Require Import base numbers list gmap strings.
From Stdlib Require Import ZArith Lia.

(** ** Machine integers (MIPS-I: 32-bit int, long, pointer and size_t). *)

Declare Scope os_scope.
Delimit Scope os_scope with os.
Open Scope Z_scope.

#[global] Arguments Z.lnot : simpl never.
#[global] Arguments Z.pow : simpl never.
#[global] Arguments Z.modulo : simpl never.
#[global] Arguments Z.div : simpl never.
#[global] Arguments Z.mul : simpl never.
#[global] Arguments Z.sub : simpl never.
#[global] Arguments Z.add : simpl never.
#[global] Arguments Z.of_nat : simpl never.
#[global] Arguments Z.to_nat : simpl never.
#[global] Arguments Z.eqb : simpl never.
#[global] Arguments Z.ltb : simpl never.
#[global] Arguments Z.leb : simpl never.

Definition u8 (z : Z) : Z := z mod 2 ^ 8.
Definition u16 (z : Z) : Z := z mod 2 ^ 16.
Definition u32 (z : Z) : Z := z mod 2 ^ 32.
(** Two's-complement reading of a 32-bit word. *)
Definition s32 (z : Z) : Z := (z + 2 ^ 31) mod 2 ^ 32 - 2 ^ 31.

Definition is_u8 (z : Z) : Prop := 0 <= z < 2 ^ 8.
Definition is_u32 (z : Z) : Prop := 0 <= z < 2 ^ 32.
Definition is_s32 (z : Z) : Prop := - 2 ^ 31 <= z < 2 ^ 31.

Lemma u32_range z : is_u32 (u32 z).
Proof. apply Z.mod_pos_bound; lia. Qed.

Lemma u32_id z : is_u32 z -> u32 z = z.
Proof. intros H. apply Z.mod_small, H. Qed.

Lemma u8_id z : is_u8 z -> u8 z = z.
Proof. intros H. apply Z.mod_small, H. Qed.

Lemma s32_id z : is_s32 z -> s32 z = z.
Proof. unfold is_s32, s32. intros H. rewrite Z.mod_small; lia. Qed.

Lemma s32_range z : is_s32 (s32 z).
Proof.
  unfold is_s32, s32. pose proof (Z.mod_pos_bound (z + 2 ^ 31) (2 ^ 32)). lia.
Qed.

Lemma s32_u32 z : s32 (u32 z) = s32 z.
Proof. unfold s32, u32. by rewrite Z.add_mod_idemp_l. Qed.

(** ** Error numbers (kern/errno.h). *)

Inductive errno : Type :=
| EINVAL | EFAULT | ENAMETOOLONG | ENOMEM | EIO | ENOENT | ENOTDIR | EISDIR
| EEXIST | EXDEV | EAGAIN | ESPIPE | EUNIMP | ENXIO | ENODEV | EBUSY | EIOCTL
| ENOTEMPTY | ERANGE | ENOSPC | EMFILE | ENFILE | ENOSYS | ENOEXEC | E2BIG
| EBADF.

#[export] Instance errno_eq_dec : EqDecision errno.
Proof. solve_decision. Defined.

Definition errno_code (e : errno) : Z :=
  match e with
  | EINVAL => 1 | EFAULT => 2 | ENAMETOOLONG => 3 | ENOMEM => 4 | EIO => 5
  | ENOENT => 6 | ENOTDIR => 7 | EISDIR => 8 | EEXIST => 9 | EXDEV => 10
  | EAGAIN => 11 | ESPIPE => 12 | EUNIMP => 13 | ENXIO => 14 | ENODEV => 15
  | EBUSY => 16 | EIOCTL => 17 | ENOTEMPTY => 18 | ERANGE => 19 | ENOSPC => 20
  | EMFILE => 21 | ENFILE => 22 | ENOSYS => 23 | ENOEXEC => 24 | E2BIG => 25
  | EBADF => 26
  end.

(** ** Kernel computations

    A C function that reads and writes a state of type [S] is a function from
    the state to an outcome: it returns, it stops the machine ([panic] or a
    failed [assert]), it does something C gives no meaning to (an access out of
    bounds, a signed overflow, reading an uninitialised variable), or the fuel
    of one of its loops ran out. *)

Inductive outcome (S A : Type) : Type :=
| Done (a : A) (s : S)
| Panic
| Undef
| OutOfFuel.
Arguments Done {S A} a s.
Arguments Panic {S A}.
Arguments Undef {S A}.
Arguments OutOfFuel {S A}.

Definition M (S A : Type) : Type := S -> outcome S A.

(** A function returning an error code, and its out-parameter on success. *)
Definition E (S A : Type) : Type := M S (errno + A).

Definition ret {S A} (a : A) : M S A := fun s => Done a s.
Definition bind {S A B} (m : M S A) (f : A -> M S B) : M S B :=
  fun s =>
    match m s with
    | Done a s' => f a s'
    | Panic => Panic
    | Undef => Undef
    | OutOfFuel => OutOfFuel
    end.
Definition get {S} : M S S := fun s => Done s s.
Definition put {S} (s : S) : M S unit := fun _ => Done tt s.
Definition panic {S A} : M S A := fun _ => Panic.
Definition undef {S A} : M S A := fun _ => Undef.
Definition out_of_fuel {S A} : M S A := fun _ => OutOfFuel.
Definition assert_ {S} (b : bool) : M S unit := if b then ret tt else panic.

Definition ok {S A} (a : A) : E S A := ret (inr a).
Definition fail {S A} (e : errno) : E S A := ret (inl e).
(** [if (result) return result;] *)
Definition tbind {S A B} (m : E S A) (f : A -> E S B) : E S B :=
  bind m (fun r => match r with inl e => fail e | inr a => f a end).

Notation "'let!' x ':=' m 'in' k" := (bind m (fun x => k))
  (at level 10, x pattern, m at level 100, k at level 200) : os_scope.
Notation "'do!' m 'in' k" := (bind m (fun _ => k))
  (at level 10, m at level 100, k at level 200) : os_scope.
Notation "'try!' x ':=' m 'in' k" := (tbind m (fun x => k))
  (at level 10, x pattern, m at level 100, k at level 200) : os_scope.
Open Scope os_scope.

(** The bytes of a string constant, without the final NUL. *)
Definition str (s : string) : list Z := map (fun c => Z.of_N (Ascii.N_of_ascii c)) (String.list_ascii_of_string s).
Arguments str s%_string.

(** Running a computation over a part of a larger state. *)
Definition zoom {S T A} (g : S -> T) (p : T -> S -> S) (m : M T A) : M S A :=
  fun s =>
    match m (g s) with
    | Done a t => Done a (p t s)
    | Panic => Panic
    | Undef => Undef
    | OutOfFuel => OutOfFuel
    end.

(** A computation over a local variable of its own. *)
Definition local {S T A} (t : T) (m : M T A) : M S A := zoom (fun _ => t) (fun _ s => s) m.

(** Signed [int] arithmetic: a result out of range is undefined. *)
Definition int_of {S} (z : Z) : M S Z :=
  if bool_decide (- 2 ^ 31 <= z < 2 ^ 31) then ret z else undef.

(** C arrays indexed by C integers: an index out of bounds has no value. *)
Definition nthZ {A} (l : list A) (i : Z) : option A :=
  if decide (0 <= i) then l !! Z.to_nat i else None.
Definition setZ {A} (l : list A) (i : Z) (x : A) : list A :=
  if decide (0 <= i) then <[Z.to_nat i := x]> l else l.
Definition lenZ {A} (l : list A) : Z := Z.of_nat (length l).

Definition of_option {S A} (o : option A) : M S A :=
  match o with Some a => ret a | None => undef end.

(** [for (k = i; k < i+n; k++) body], [Some r] leaving the loop with [r]. *)
Fixpoint iterate {S R} (n : nat) (i : Z) (body : Z -> M S (option R))
  : M S (option R) :=
  match n with
  | O => ret None
  | S n' =>
      let! r := body i in
      match r with
      | Some r => ret (Some r)
      | None => iterate n' (i + 1) body
      end
  end.

(** [for (k = i; k < i+n; k++) body], the first error leaving the function. *)
Fixpoint for_ {S} (n : nat) (i : Z) (body : Z -> E S unit) : E S unit :=
  match n with
  | O => ok tt
  | S n' => try! _ := body i in for_ n' (i + 1) body
  end.

(** ** Postconditions: [wp m Q s] says [m] returns from [s], without panic or
    undefined behaviour, in a state where [Q] holds. *)

Definition wp {S A} (m : M S A) (Q : A -> S -> Prop) (s : S) : Prop :=
  match m s with Done a s' => Q a s' | _ => False end.

Create HintDb os.

Section wp_rules.
Context {S : Type}.

Lemma wp_ret {A} (a : A) (Q : A -> S -> Prop) s : wp (ret a) Q s <-> Q a s.
Proof. done. Qed.

Lemma wp_bind {A B} (m : M S A) (f : A -> M S B) Q s :
    wp (bind m f) Q s <-> wp m (fun a => wp (f a) Q) s.
Proof. unfold wp, bind. by destruct (m s). Qed.

Lemma wp_mono {A} (m : M S A) (Q Q' : A -> S -> Prop) s :
    wp m Q s -> (forall a s', Q a s' -> Q' a s') -> wp m Q' s.
Proof. unfold wp. destruct (m s); naive_solver. Qed.

Lemma wp_done {A} (m : M S A) (Q : A -> S -> Prop) s :
    wp m Q s -> exists a s', m s = Done a s' /\ Q a s'.
Proof. unfold wp. destruct (m s); naive_solver. Qed.

Lemma wp_of_eq {A} (m : M S A) (Q : A -> S -> Prop) s a s' :
    m s = Done a s' -> Q a s' -> wp m Q s.
Proof. unfold wp. by intros ->. Qed.

Lemma wp_tbind {A B} (m : E S A) (f : A -> E S B) Q s :
    wp (tbind m f) Q s <->
    wp m (fun r s' => match r with
                      | inl e => Q (inl e) s'
                      | inr a => wp (f a) Q s'
                      end) s.
Proof.
    unfold tbind. rewrite wp_bind. unfold wp. destruct (m s) as [[e|a] s'| | |]; done.
Qed.

Lemma wp_assert b (Q : unit -> S -> Prop) s :
    wp (assert_ b) Q s <-> b = true /\ Q tt s.
Proof. destruct b; unfold wp; simpl; naive_solver. Qed.

Lemma wp_get (Q : S -> S -> Prop) s : wp get Q s <-> Q s s.
Proof. done. Qed.

Lemma wp_put t (Q : unit -> S -> Prop) s : wp (put t) Q s <-> Q tt t.
Proof. done. Qed.

Lemma wp_of_option {A} (o : option A) (Q : A -> S -> Prop) s :
    wp (of_option o) Q s <-> exists a, o = Some a /\ Q a s.
Proof. destruct o; unfold wp; simpl; naive_solver. Qed.

Lemma wp_int_of z (Q : Z -> S -> Prop) s :
    wp (int_of z) Q s <-> is_s32 z /\ Q z s.
Proof. unfold int_of, is_s32. case_bool_decide; unfold wp; simpl; naive_solver. Qed.

Lemma wp_local {T A} (t : T) (m : M T A) (Q : A -> S -> Prop) s :
    wp (local t m) Q s <-> wp m (fun a _ => Q a s) t.
Proof. unfold wp, local, zoom. by destruct (m t). Qed.

Lemma wp_zoom {T A} g (p : T -> S -> S) (m : M T A) (Q : A -> S -> Prop) s :
    wp (zoom g p m) Q s <-> wp m (fun a t => Q a (p t s)) (g s).
Proof. unfold wp, zoom. by destruct (m (g s)). Qed.

Lemma wp_iterate {R} (I : Z -> S -> Prop) (Q : option R -> S -> Prop)
      n i (body : Z -> M S (option R)) s :
    I i s ->
    (forall k t, i <= k < i + Z.of_nat n -> I k t ->
       wp (body k) (fun r t' => match r with
                                | None => I (k + 1) t'
                                | Some r => Q (Some r) t'
                                end) t) ->
    (forall t, I (i + Z.of_nat n) t -> Q None t) ->
    wp (iterate n i body) Q s.
Proof.
    revert i s. induction n as [|n IH]; intros i s HI Hb HQ; simpl.
    - apply HQ. by rewrite Z.add_0_r.
    - apply wp_bind. eapply wp_mono; [apply Hb; [lia|done]|].
      intros [r|] t Ht; [done|].
      apply IH; [done| |].
      + intros k t' Hk. apply Hb. lia.
      + intros t'. replace (i + 1 + Z.of_nat n) with (i + Z.of_nat (Datatypes.S n)) by lia.
        apply HQ.
Qed.

Lemma wp_for (I : Z -> S -> Prop) (Q : errno + unit -> S -> Prop)
      n i (body : Z -> E S unit) s :
    I i s ->
    (forall k t, i <= k < i + Z.of_nat n -> I k t ->
       wp (body k) (fun r t' => match r with
                                | inr _ => I (k + 1) t'
                                | inl e => Q (inl e) t'
                                end) t) ->
    (forall t, I (i + Z.of_nat n) t -> Q (inr tt) t) ->
    wp (for_ n i body) Q s.
Proof.
    revert i s. induction n as [|n IH]; intros i s HI Hb HQ; simpl.
    - apply HQ. by rewrite Z.add_0_r.
    - apply wp_tbind. eapply wp_mono; [apply Hb; [lia|done]|].
      intros [e|[]] t Ht; [done|].
      apply IH; [done| |].
      + intros k t' Hk. apply Hb. lia.
      + intros t'. replace (i + 1 + Z.of_nat n) with (i + Z.of_nat (Datatypes.S n)) by lia.
        apply HQ.
Qed.
End wp_rules.

(** ** Partial correctness *)

(** If [m] returns from [s], then [Q] holds. *)
Definition wlp {S A} (m : M S A) (Q : A -> S -> Prop) (s : S) : Prop :=
  forall a s', m s = Done a s' -> Q a s'.

Section wlp_rules.
Context {S : Type}.

Lemma wlp_ret {A} (a : A) (Q : A -> S -> Prop) s : wlp (ret a) Q s <-> Q a s.
Proof. unfold wlp, ret. naive_solver. Qed.

Lemma wlp_bind {A B} (m : M S A) (f : A -> M S B) Q s :
  wlp (bind m f) Q s <-> wlp m (fun a => wlp (f a) Q) s.
Proof. unfold wlp, bind. destruct (m s); naive_solver. Qed.

Lemma wlp_tbind {A B} (m : E S A) (f : A -> E S B) Q s :
  wlp (tbind m f) Q s <->
  wlp m (fun r s' => match r with inl e => Q (inl e) s' | inr a => wlp (f a) Q s' end) s.
Proof.
  unfold tbind. rewrite wlp_bind.
  split; intros Hm r s' Hrun; specialize (Hm r s' Hrun); destruct r; try done; by apply wlp_ret.
Qed.

Lemma wlp_mono {A} (m : M S A) (Q Q' : A -> S -> Prop) s :
  wlp m Q s -> (forall a s', Q a s' -> Q' a s') -> wlp m Q' s.
Proof. unfold wlp. naive_solver. Qed.

Lemma wlp_get (Q : S -> S -> Prop) s : wlp get Q s <-> Q s s.
Proof. unfold wlp, get. naive_solver. Qed.

Lemma wlp_put t (Q : unit -> S -> Prop) s : wlp (put t) Q s <-> Q tt t.
Proof. unfold wlp, put. naive_solver. Qed.

Lemma wlp_assert b (Q : unit -> S -> Prop) s : wlp (assert_ b) Q s <-> (b = true -> Q tt s).
Proof. unfold wlp. destruct b; simpl; unfold ret, panic; naive_solver. Qed.

Lemma wlp_panic {A} (Q : A -> S -> Prop) s : wlp panic Q s.
Proof. unfold wlp, panic. done. Qed.

Lemma wlp_of_option {A} (o : option A) (Q : A -> S -> Prop) s :
  wlp (of_option o) Q s <-> forall a, o = Some a -> Q a s.
Proof. unfold wlp. destruct o; simpl; unfold ret, undef; naive_solver. Qed.

Lemma wlp_zoom {T A} g (p : T -> S -> S) (m : M T A) (Q : A -> S -> Prop) s :
  wlp (zoom g p m) Q s <-> wlp m (fun a t => Q a (p t s)) (g s).
Proof. unfold wlp, zoom. destruct (m (g s)); naive_solver. Qed.

Lemma wlp_iterate {R} (I : S -> Prop) (Q : option R -> S -> Prop) n i (body : Z -> M S (option R)) s :
  I s ->
  (forall k t, I t -> wlp (body k) (fun r t' => match r with None => I t' | Some r => Q (Some r) t' end) t) ->
  (forall t, I t -> Q None t) ->
  wlp (iterate n i body) Q s.
Proof.
  intros HI Hb HQ. revert i s HI. induction n as [|n IH]; intros i s HI; simpl.
  - apply wlp_ret. by apply HQ.
  - apply wlp_bind. eapply wlp_mono; [by apply Hb|]. intros [r|] t Ht; [by apply wlp_ret|by apply IH].
Qed.

Lemma wlp_local {T A} (t : T) (m : M T A) (Q : A -> S -> Prop) s :
  wlp (local t m) Q s <-> wlp m (fun a _ => Q a s) t.
Proof. unfold local. apply wlp_zoom. Qed.

Lemma wlp_int_of z (Q : Z -> S -> Prop) s : wlp (int_of z) Q s <-> (is_s32 z -> Q z s).
Proof. unfold int_of, is_s32, wlp. case_bool_decide; unfold ret, undef; naive_solver. Qed.

Lemma wlp_undef {A} (Q : A -> S -> Prop) s : wlp undef Q s.
Proof. unfold wlp, undef. done. Qed.

Lemma wlp_and {A} (m : M S A) (Q Q' : A -> S -> Prop) s :
  wlp m Q s -> wlp m Q' s -> wlp m (fun a s' => Q a s' /\ Q' a s') s.
Proof. unfold wlp. naive_solver. Qed.

Lemma wlp_of_wp {A} (m : M S A) (Q : A -> S -> Prop) s : wp m Q s -> wlp m Q s.
Proof. unfold wp, wlp. intros Hw a s' Hr. by rewrite Hr in Hw. Qed.
End wlp_rules.

(** Steps through the primitive computations of a [wlp] goal. *)
Ltac wlp_step :=
  lazymatch goal with
  | |- wlp (bind _ _) _ _ => apply wlp_bind
  | |- wlp (tbind _ _) _ _ => apply wlp_tbind
  | |- wlp (ret _) _ _ => apply wlp_ret
  | |- wlp (ok _) _ _ => apply wlp_ret
  | |- wlp (fail _) _ _ => apply wlp_ret
  | |- wlp get _ _ => apply wlp_get
  | |- wlp (put _) _ _ => apply wlp_put
  | |- wlp (assert_ _) _ _ => apply wlp_assert
  | |- wlp (of_option _) _ _ => apply wlp_of_option
  | |- wlp (int_of _) _ _ => apply wlp_int_of
  | |- wlp (zoom _ _ _) _ _ => apply wlp_zoom
  | |- wlp panic _ _ => apply wlp_panic
  | |- wlp undef _ _ => apply wlp_undef
  end.
Ltac wlp_steps := repeat (wlp_step; cbv beta).

(** Running the first part of a computation whose outcome is known. *)
Lemma bind_done {S A B} (m : M S A) (f : A -> M S B) s a s' :
  m s = Done a s' -> bind m f s = f a s'.
Proof. unfold bind. by intros ->. Qed.

(** The first position from the start that [P] holds at. *)
Definition first_at {A} (P : A -> Prop) (l : list A) (i : Z) : Prop :=
  (exists a, nthZ l i = Some a /\ P a) /\ forall j a, 0 <= j < i -> nthZ l j = Some a -> ~ P a.
Definition nowhere {A} (P : A -> Prop) (l : list A) : Prop := forall j a, nthZ l j = Some a -> ~ P a.

(** A loop that leaves at its first success, or at none. *)
Lemma iterate_first {S R} n i k (body : Z -> M S (option R)) s r s' :
  i <= k < i + Z.of_nat n -> (forall j, i <= j < k -> body j s = Done None s) -> body k s = Done (Some r) s' ->
  iterate n i body s = Done (Some r) s'.
Proof.
  revert i. induction n as [|n IH]; intros i Hk Hb Hr; simpl; [lia|].
  destruct (decide (i = k)) as [->|Hne]; [by rewrite (bind_done _ _ _ _ _ Hr)|].
  rewrite (bind_done _ _ _ _ _ (Hb i ltac:(lia))). apply IH; [lia| |done]. intros j Hj. apply Hb. lia.
Qed.

Lemma iterate_none {S R} n i (body : Z -> M S (option R)) s :
  (forall j, i <= j < i + Z.of_nat n -> body j s = Done None s) -> iterate n i body s = Done None s.
Proof.
  revert i. induction n as [|n IH]; intros i Hb; simpl; [done|].
  rewrite (bind_done _ _ _ _ _ (Hb i ltac:(lia))). apply IH. intros j Hj. apply Hb. lia.
Qed.

Lemma tbind_done {S A B} (m : E S A) (f : A -> E S B) s a s' :
  m s = Done (inr a) s' -> tbind m f s = f a s'.
Proof. unfold tbind, bind. by intros ->. Qed.

Lemma tbind_ok {S A B} (a : A) (f : A -> E S B) s : tbind (ok a) f s = f a s.
Proof. done. Qed.

Lemma tbind_fail {S A B} (m : E S A) (f : A -> E S B) s e s' :
  m s = Done (inl e) s' -> tbind m f s = Done (inl e) s'.
Proof. unfold tbind, bind. by intros ->. Qed.

(** Steps through the primitive computations of a [wp] goal. *)
Ltac wp_step :=
  lazymatch goal with
  | |- wp (bind _ _) _ _ => apply wp_bind
  | |- wp (tbind _ _) _ _ => apply wp_tbind
  | |- wp (ret _) _ _ => apply wp_ret
  | |- wp (ok _) _ _ => apply wp_ret
  | |- wp (fail _) _ _ => apply wp_ret
  | |- wp get _ _ => apply wp_get
  | |- wp (put _) _ _ => apply wp_put
  | |- wp (assert_ _) _ _ => apply wp_assert
  | |- wp (of_option _) _ _ => apply wp_of_option
  | |- wp (int_of _) _ _ => apply wp_int_of
  | |- wp (local _ _) _ _ => apply wp_local
  | |- wp (zoom _ _ _) _ _ => apply wp_zoom
  end.
Ltac wp_steps := repeat (wp_step; cbv beta).

Ltac inv H := inversion H; subst; clear H.
Ltac simpl_m := unfold assert_, tbind, bind, ok, fail, ret, get, put in *; simpl in *.

Section Zlists.
Context {A : Type}.
  Implicit Types (l : list A) (i j : Z) (x : A).

Lemma nthZ_to_nat l i : 0 <= i -> nthZ l i = l !! Z.to_nat i.
Proof. intros. unfold nthZ. by rewrite decide_True. Qed.

Lemma nthZ_Some_lt l i x : nthZ l i = Some x -> 0 <= i < lenZ l.
Proof.
    unfold nthZ, lenZ. case_decide; [|done]. intros ?%lookup_lt_Some. lia.
Qed.

Lemma nthZ_is_Some l i : 0 <= i < lenZ l -> exists x, nthZ l i = Some x.
Proof.
    intros H. rewrite nthZ_to_nat by lia.
    destruct (lookup_lt_is_Some_2 l (Z.to_nat i)) as [x Hx]; [unfold lenZ in H; lia|eauto].
Qed.

Lemma nthZ_None l i : nthZ l i = None <-> i < 0 \/ lenZ l <= i.
Proof.
    unfold nthZ, lenZ. case_decide; [|naive_solver lia].
    rewrite lookup_ge_None. lia.
Qed.

Lemma lenZ_setZ l i x : lenZ (setZ l i x) = lenZ l.
Proof. unfold lenZ, setZ. case_decide; [|done]. by rewrite length_insert. Qed.

Lemma nthZ_setZ_eq l i x : 0 <= i < lenZ l -> nthZ (setZ l i x) i = Some x.
Proof.
    intros H. unfold lenZ in H. rewrite nthZ_to_nat by lia. unfold setZ. rewrite decide_True by lia.
    apply list_lookup_insert_eq. lia.
Qed.

Lemma nthZ_setZ_ne l i j x : i <> j -> nthZ (setZ l i x) j = nthZ l j.
Proof.
    intros H. unfold setZ, nthZ. repeat case_decide; try done.
    apply list_lookup_insert_ne. lia.
Qed.

Lemma setZ_setZ l i x y : setZ (setZ l i x) i y = setZ l i y.
Proof. unfold setZ. case_decide; [|done]. apply list_insert_insert_eq. Qed.

Lemma setZ_id l i x : nthZ l i = Some x -> setZ l i x = l.
Proof.
    unfold nthZ, setZ. case_decide; [|done]. apply list_insert_id.
Qed.

Lemma lenZ_nonneg l : 0 <= lenZ l.
Proof. unfold lenZ. lia. Qed.

Lemma lenZ_app l1 l2 : lenZ (l1 ++ l2) = lenZ l1 + lenZ l2.
Proof. unfold lenZ. rewrite length_app. lia. Qed.

Lemma nthZ_app_l l1 l2 i : i < lenZ l1 -> nthZ (l1 ++ l2) i = nthZ l1 i.
Proof.
    unfold nthZ, lenZ. intros. case_decide; [|done]. apply lookup_app_l. lia.
Qed.

Lemma nthZ_replicate n x i : 0 <= i < Z.of_nat n -> nthZ (replicate n x) i = Some x.
Proof. intros. rewrite nthZ_to_nat by lia. apply lookup_replicate_2. lia. Qed.

Lemma lenZ_replicate n x : lenZ (replicate n x) = Z.of_nat n.
Proof. unfold lenZ. by rewrite length_replicate. Qed.

Lemma nthZ_ext l1 l2 :
    lenZ l1 = lenZ l2 -> (forall i, 0 <= i < lenZ l1 -> nthZ l1 i = nthZ l2 i) -> l1 = l2.
Proof.
    intros Hl H. apply list_eq_same_length with (n := length l1); [unfold lenZ in *; lia|done|].
    intros i x y Hi Hx Hy. specialize (H (Z.of_nat i)). unfold lenZ, nthZ in H.
    rewrite !decide_True in H by lia. rewrite Nat2Z.id in H. specialize (H ltac:(lia)). congruence.
Qed.
End Zlists.

#[export] Hint Resolve u32_range s32_range lenZ_nonneg : os.
#[export] Hint Rewrite @lenZ_setZ @lenZ_app @lenZ_replicate : os.

(** ** Single bits of a word. *)

Section bits.
Lemma land_bit_0 w k : 0 <= k -> Z.land w (2 ^ k) = 0 <-> Z.testbit w k = false.
Proof.
    intros Hk. split.
    - intros H. assert (Z.testbit (Z.land w (2 ^ k)) k = false) as Hb by (rewrite H; apply Z.bits_0).
      rewrite Z.land_spec, Z.pow2_bits_true, andb_true_r in Hb by done. done.
    - intros H. apply Z.bits_inj'. intros n Hn.
      rewrite Z.land_spec, Z.bits_0, Z.pow2_bits_eqb by done.
      destruct (Z.eqb_spec k n); subst; [by rewrite H|apply andb_false_r].
Qed.

Lemma testbit_lor_pow2 w k n :
    0 <= k -> Z.testbit (Z.lor w (2 ^ k)) n = Z.testbit w n || (k =? n).
Proof. intros. by rewrite Z.lor_spec, Z.pow2_bits_eqb. Qed.

Lemma testbit_ldiff_pow2 w k n :
    0 <= k -> Z.testbit (Z.ldiff w (2 ^ k)) n = Z.testbit w n && negb (k =? n).
Proof. intros. by rewrite Z.ldiff_spec, Z.pow2_bits_eqb. Qed.

(** A word of [n] bits is one whose bits from [n] on are clear. *)
Lemma bits_bound n z :
    0 <= n -> 0 <= z -> (forall k, n <= k -> Z.testbit z k = false) -> z < 2 ^ n.
Proof.
    intros Hn Hz H. destruct (Z.eq_dec z 0) as [->|Hz0]; [lia|].
    apply Z.log2_lt_pow2; [lia|].
    destruct (Z.lt_ge_cases (Z.log2 z) n) as [|Hge]; [done|].
    specialize (H _ Hge). rewrite Z.bit_log2 in H by lia. done.
Qed.

Lemma bits_above n z k : 0 <= z < 2 ^ n -> n <= k -> Z.testbit z k = false.
Proof.
    intros Hz Hk. destruct (Z.lt_ge_cases n 0) as [Hn|Hn].
    - rewrite Z.pow_neg_r in Hz by done. lia.
    - destruct (Z.eq_dec z 0) as [->|]; [apply Z.bits_0|].
      apply Z.bits_above_log2; [lia|]. assert (Z.log2 z < n) by (apply Z.log2_lt_pow2; lia). lia.
Qed.

Lemma lor_pow2_bound n w k : 0 <= k < n -> 0 <= w < 2 ^ n -> 0 <= Z.lor w (2 ^ k) < 2 ^ n.
Proof.
    intros Hk Hw. assert (0 <= Z.lor w (2 ^ k)) by (apply Z.lor_nonneg; lia).
    split; [done|]. apply bits_bound; [lia|done|]. intros j Hj.
    rewrite testbit_lor_pow2 by lia. rewrite (bits_above n w j) by done. lia.
Qed.

Lemma ldiff_pow2_bound n w k : 0 <= k < n -> 0 <= w < 2 ^ n -> 0 <= Z.ldiff w (2 ^ k) < 2 ^ n.
Proof.
    intros Hk Hw. assert (0 <= Z.ldiff w (2 ^ k)) by (apply Z.ldiff_nonneg; lia).
    split; [done|]. apply bits_bound; [lia|done|]. intros j Hj.
    rewrite testbit_ldiff_pow2 by lia. rewrite (bits_above n w j) by done. done.
Qed.

(** [x &= ~(1 << k)] on an [n]-bit word [x]. *)
Lemma land_lnot_pow2 w k : Z.land w (Z.lnot (2 ^ k)) = Z.ldiff w (2 ^ k).
Proof. symmetry. apply Z.ldiff_land. Qed.

Lemma word_all_ones n w :
    0 <= w < 2 ^ n -> (forall k, 0 <= k < n -> Z.testbit w k = true) -> w = Z.ones n.
Proof.
    intros Hw H. apply Z.bits_inj'. intros k Hk.
    destruct (Z.lt_ge_cases k n).
    - rewrite H by lia. symmetry. apply Z.ones_spec_low. lia.
    - rewrite (bits_above n w) by done. destruct (Z.lt_ge_cases n 0).
      + rewrite Z.pow_neg_r in Hw by done. lia.
      + symmetry. apply Z.ones_spec_high. lia.
Qed.
End bits.

(** ** Slices of a C array: [n] elements from index [o] on. *)

Definition slice {A} (l : list A) (o n : Z) : list A := take (Z.to_nat n) (drop (Z.to_nat o) l).

(** [l] with the elements from index [o] on replaced by [xs]. *)
Definition splice {A} (l : list A) (o : Z) (xs : list A) : list A :=
  take (Z.to_nat o) l ++ xs ++ drop (Z.to_nat o + length xs) l.

Section slices.
Context {A : Type}.
Implicit Types (l xs : list A).

Lemma lenZ_slice l o n : 0 <= o -> 0 <= n -> o + n <= lenZ l -> lenZ (slice l o n) = n.
Proof. unfold slice, lenZ. intros. rewrite length_take, length_drop. lia. Qed.

Lemma nthZ_slice l o n i : 0 <= o -> 0 <= i < n -> nthZ (slice l o n) i = nthZ l (o + i).
Proof.
  intros Ho Hi. unfold slice. rewrite !nthZ_to_nat by lia.
  rewrite lookup_take_lt by lia. rewrite lookup_drop. f_equal. lia.
Qed.

Lemma lenZ_splice l o xs : 0 <= o -> o + lenZ xs <= lenZ l -> lenZ (splice l o xs) = lenZ l.
Proof. unfold splice, lenZ. intros. rewrite !length_app, length_take, length_drop. lia. Qed.

Lemma nthZ_splice l o xs i : 0 <= o -> o + lenZ xs <= lenZ l ->
  nthZ (splice l o xs) i = if bool_decide (o <= i < o + lenZ xs) then nthZ xs (i - o) else nthZ l i.
Proof.
  unfold splice, lenZ. intros Ho Hl. destruct (Z.lt_ge_cases i 0) as [Hi|Hi].
  - rewrite bool_decide_false by lia. unfold nthZ. by rewrite !decide_False by lia.
  - rewrite (nthZ_to_nat (_ ++ _)) by done. case_bool_decide as Hr.
    + rewrite lookup_app_r by (rewrite length_take; lia). rewrite length_take.
      rewrite lookup_app_l by lia. rewrite nthZ_to_nat by lia. f_equal. lia.
    + rewrite nthZ_to_nat by done. destruct (Z.lt_ge_cases i o).
      * rewrite lookup_app_l by (rewrite length_take; lia). by rewrite lookup_take_lt by lia.
      * rewrite lookup_app_r by (rewrite length_take; lia). rewrite length_take.
        rewrite lookup_app_r by lia. rewrite lookup_drop. f_equal. lia.
Qed.

Lemma slice_full l : slice l 0 (lenZ l) = l.
Proof. unfold slice, lenZ. rewrite Nat2Z.id. simpl. by rewrite firstn_all. Qed.

Lemma splice_full l xs : lenZ xs = lenZ l -> splice l 0 xs = xs.
Proof.
  intros H. apply nthZ_ext.
  - rewrite lenZ_splice; lia.
  - intros i. rewrite lenZ_splice by lia. intros Hi. rewrite nthZ_splice, bool_decide_true by lia.
    f_equal. lia.
Qed.

Lemma splice_nil l o : splice l o [] = l.
Proof. unfold splice. simpl. rewrite Nat.add_0_r. apply take_drop. Qed.

Lemma slice_nil l o : slice l o 0 = [].
Proof. by unfold slice. Qed.

Lemma splice_splice l o xs ys : 0 <= o -> o + lenZ xs + lenZ ys <= lenZ l ->
  splice (splice l o xs) (o + lenZ xs) ys = splice l o (xs ++ ys).
Proof.
  intros Ho Hl. pose proof (lenZ_nonneg xs). pose proof (lenZ_nonneg ys). apply nthZ_ext.
  - rewrite !lenZ_splice; rewrite ?lenZ_splice, ?lenZ_app; lia.
  - intros i Hi. rewrite !lenZ_splice in Hi; rewrite ?lenZ_splice; try lia.
    rewrite !nthZ_splice; rewrite ?lenZ_splice, ?lenZ_app; try lia.
    destruct (Z.lt_ge_cases i (o + lenZ xs)).
    + rewrite (bool_decide_false (o + lenZ xs <= i < _)) by lia.
      destruct (Z.lt_ge_cases i o).
      * by rewrite !bool_decide_false by lia.
      * rewrite !bool_decide_true by lia. by rewrite nthZ_app_l by lia.
    + rewrite (bool_decide_false (o <= i < o + lenZ xs)) by lia.
      destruct (Z.lt_ge_cases i (o + lenZ xs + lenZ ys)).
      * rewrite !bool_decide_true by lia. rewrite !nthZ_to_nat by lia.
        rewrite lookup_app_r by (unfold lenZ in *; lia). f_equal. unfold lenZ. lia.
      * by rewrite !bool_decide_false by lia.
Qed.

Lemma slice_app l o n k : 0 <= o -> 0 <= n -> 0 <= k -> o + n + k <= lenZ l ->
  slice l o n ++ slice l (o + n) k = slice l o (n + k).
Proof.
  intros. apply nthZ_ext.
  - rewrite lenZ_app, !lenZ_slice; lia.
  - intros i Hi. rewrite lenZ_app, !lenZ_slice in Hi by lia. rewrite (nthZ_slice l o (n + k)) by lia.
    destruct (Z.lt_ge_cases i n).
    + rewrite nthZ_app_l by (rewrite lenZ_slice; lia). by rewrite nthZ_slice by lia.
    + rewrite nthZ_to_nat by lia. rewrite lookup_app_r;
        assert (length (slice l o n) = Z.to_nat n) as Hs;
        try (pose proof (lenZ_slice l o n); unfold lenZ in *; lia).
      replace (Z.to_nat i - length (slice l o n))%nat with (Z.to_nat (i - n)) by lia.
      rewrite <- nthZ_to_nat by lia. rewrite nthZ_slice by lia. f_equal. lia.
Qed.
End slices.
