(* ===== verification/Bitmap.v ===== *)
(** * Bitmaps (kern/lib/bitmap.c, kern/include/bitmap.h).

    The bitmap that the file system keeps its free blocks in. The state is the
    C structure; [bit] reads it as a function from indices to booleans, and every
    operation is specified through [bit]. *)

From stdpp Require Import base numbers list.
From Stdlib Require Import ZArith Lia.
From S2P Require Import Prelude.

Definition CHAR_BIT : Z := 8.
Definition BITS_PER_WORD : Z := CHAR_BIT.
Definition WORD_ALLBITS : Z := 0xff.

(** [DIVROUNDUP(a,b)] (kern/include/lib.h) on an unsigned 32-bit [a]. *)
Definition DIVROUNDUP (a b : Z) : Z := u32 (a + b - 1) / b.

Record bitmap : Type := mk_bitmap { nbits : Z; v : list Z }.

Definition set_v (b : bitmap) (w : list Z) : bitmap := mk_bitmap (nbits b) w.

(** Storing [w] into [b->v[ix]]. *)
Definition store_word (ix w : Z) : M bitmap unit :=
  let! b := get in
  do! of_option (nthZ (v b) ix) in
  put (set_v b (setZ (v b) ix (u8 w))).

Definition load_word (ix : Z) : M bitmap Z :=
  let! b := get in of_option (nthZ (v b) ix).

(** [bitmap_create]: [m1] and [m2] say whether the two allocations succeed. *)
Definition bitmap_create {S} (m1 m2 : bool) (n : Z) : M S (option bitmap) :=
  let words := DIVROUNDUP n BITS_PER_WORD in
  if negb m1 then ret None
  else if negb m2 then ret None
  else
    let b := mk_bitmap n (replicate (Z.to_nat words) 0) in
    if n / BITS_PER_WORD <? words then
      let ix := u32 (words - 1) in
      let overbits := u32 (n - u32 (ix * BITS_PER_WORD)) in
      do! assert_ (n / BITS_PER_WORD =? u32 (words - 1)) in
      do! assert_ ((0 <? overbits) && (overbits <? BITS_PER_WORD)) in
      zoom (fun _ => b) (fun _ s => s)
        (do! iterate (Z.to_nat (BITS_PER_WORD - overbits)) overbits
           (fun j =>
              let! w := load_word ix in
              do! store_word ix (Z.lor w (u8 (Z.shiftl 1 j))) in
              ret (None (A := unit)))
         in let! b := get in ret (Some b))
    else ret (Some b).

Definition bitmap_getdata : M bitmap (list Z) := let! b := get in ret (v b).

Definition bitmap_alloc : E bitmap Z :=
  let! b := get in
  let maxix := DIVROUNDUP (nbits b) BITS_PER_WORD in
  let! r := iterate (Z.to_nat maxix) 0 (fun ix =>
    let! w := load_word ix in
    if w =? WORD_ALLBITS then ret None
    else
      let! r := iterate (Z.to_nat BITS_PER_WORD) 0 (fun offset =>
        let mask := u8 (Z.shiftl 1 offset) in
        let! w := load_word ix in
        if Z.land w mask =? 0 then
          do! store_word ix (Z.lor w mask) in
          let index := u32 (ix * BITS_PER_WORD + offset) in
          let! b := get in
          do! assert_ (index <? nbits b) in
          ret (Some index)
        else ret None) in
      match r with Some index => ret (Some index) | None => panic end) in
  match r with Some index => ok index | None => fail ENOSPC end.

Definition bitmap_translate (bitno : Z) : Z * Z :=
  (bitno / BITS_PER_WORD, u8 (Z.shiftl 1 (bitno mod BITS_PER_WORD))).

Definition bitmap_mark (index : Z) : M bitmap unit :=
  let! b := get in
  do! assert_ (index <? nbits b) in
  let '(ix, mask) := bitmap_translate index in
  let! w := load_word ix in
  do! assert_ (Z.land w mask =? 0) in
  store_word ix (Z.lor w mask).

Definition bitmap_unmark (index : Z) : M bitmap unit :=
  let! b := get in
  do! assert_ (index <? nbits b) in
  let '(ix, mask) := bitmap_translate index in
  let! w := load_word ix in
  do! assert_ (negb (Z.land w mask =? 0)) in
  store_word ix (Z.land w (Z.lnot mask)).

(** The C function returns the masked word itself, not 0 or 1. *)
Definition bitmap_isset (index : Z) : M bitmap Z :=
  let '(ix, mask) := bitmap_translate index in
  let! w := load_word ix in
  ret (Z.land w mask).

(** ** The bits a bitmap holds *)

Definition bit (b : bitmap) (i : Z) : bool :=
  match nthZ (v b) (i / BITS_PER_WORD) with
  | Some w => Z.testbit w (i mod BITS_PER_WORD)
  | None => false
  end.

Definition set_bit (b : bitmap) (i : Z) (x : bool) : bitmap :=
  match nthZ (v b) (i / BITS_PER_WORD) with
  | Some w =>
      let m := 2 ^ (i mod BITS_PER_WORD) in
      set_v b (setZ (v b) (i / BITS_PER_WORD) (if x then Z.lor w m else Z.ldiff w m))
  | None => b
  end.

(** The largest size for which [DIVROUNDUP] does not wrap around. *)
Definition max_nbits : Z := 2 ^ 32 - BITS_PER_WORD.

Record wf (b : bitmap) : Prop := {
  wf_nbits : 0 <= nbits b <= max_nbits;
  wf_len : lenZ (v b) = (nbits b + 7) / 8;
  wf_u8 : forall i w, nthZ (v b) i = Some w -> is_u8 w;
  wf_tail : forall i, nbits b <= i < 8 * lenZ (v b) -> bit b i = true;
}.

Lemma divroundup_8 n : 0 <= n <= max_nbits -> DIVROUNDUP n BITS_PER_WORD = (n + 7) / 8.
Proof.
  unfold DIVROUNDUP, max_nbits, BITS_PER_WORD, CHAR_BIT. intros.
  rewrite u32_id by (unfold is_u32; lia). f_equal; lia.
Qed.

Lemma index_in_words b i : wf b -> 0 <= i < nbits b -> 0 <= i / 8 < lenZ (v b).
Proof.
  intros [] Hi. rewrite wf_len0. split; [apply Z.div_pos; lia|].
  apply Z.div_lt_upper_bound; [lia|]. pose proof (Z.div_mod (nbits b + 7) 8).
  pose proof (Z.mod_pos_bound (nbits b + 7) 8). lia.
Qed.

Lemma mask_pow2 k : 0 <= k < 8 -> u8 (Z.shiftl 1 k) = 2 ^ k.
Proof.
  intros. rewrite Z.shiftl_1_l. apply u8_id. split; [lia|].
  apply Z.pow_lt_mono_r; lia.
Qed.

Lemma mod8_range i : 0 <= i mod 8 < 8.
Proof. apply Z.mod_pos_bound; lia. Qed.

Lemma translate_eq i : bitmap_translate i = (i / 8, 2 ^ (i mod 8)).
Proof. unfold bitmap_translate. by rewrite mask_pow2 by apply mod8_range. Qed.

Lemma nbits_set_bit b i x : nbits (set_bit b i x) = nbits b.
Proof. unfold set_bit. by destruct (nthZ (v b) _). Qed.

Lemma lenZ_set_bit b i x : lenZ (v (set_bit b i x)) = lenZ (v b).
Proof. unfold set_bit. destruct (nthZ (v b) _); [apply lenZ_setZ|done]. Qed.

(** Setting one bit sets that bit and no other. *)
Lemma bit_set_bit b i j x :
  0 <= i / 8 < lenZ (v b) -> bit (set_bit b i x) j = if decide (i = j) then x else bit b j.
Proof.
  intros Hi. destruct (nthZ_is_Some _ _ Hi) as [w Hw].
  unfold bit, set_bit, BITS_PER_WORD, CHAR_BIT. rewrite Hw. simpl.
  destruct (decide (i / 8 = j / 8)) as [Hq|Hq].
  - rewrite <- Hq, nthZ_setZ_eq, Hw by done.
    pose proof (mod8_range i). pose proof (mod8_range j).
    assert (i = j <-> i mod 8 = j mod 8) as Hij.
    { split; [by intros ->|]. intros Hm. rewrite (Z.div_mod i 8), (Z.div_mod j 8) by lia. lia. }
    destruct x; [rewrite testbit_lor_pow2|rewrite testbit_ldiff_pow2]; try lia;
      case_decide as Hd; destruct (Z.eqb_spec (i mod 8) (j mod 8)); try tauto;
      rewrite ?orb_true_r, ?orb_false_r, ?andb_true_r, ?andb_false_r; congruence.
  - rewrite nthZ_setZ_ne by done. by rewrite decide_False by congruence.
Qed.

Lemma wf_set_bit b i x : wf b -> 0 <= i < nbits b -> wf (set_bit b i x).
Proof.
  intros Hwf Hi. pose proof (index_in_words b i Hwf Hi) as Hq. destruct Hwf as [Hn Hl Hu Ht].
  split.
  - by rewrite nbits_set_bit.
  - by rewrite nbits_set_bit, lenZ_set_bit.
  - intros j w'. destruct (nthZ_is_Some _ _ Hq) as [w Hw]. unfold set_bit, BITS_PER_WORD, CHAR_BIT.
    rewrite Hw. simpl. destruct (decide (i / 8 = j)) as [<-|Hj].
    + rewrite nthZ_setZ_eq by done. intros [= <-]. pose proof (Hu _ _ Hw). pose proof (mod8_range i).
      destruct x; [apply lor_pow2_bound|apply ldiff_pow2_bound]; done.
    + rewrite nthZ_setZ_ne by done. apply Hu.
  - intros j. rewrite nbits_set_bit, lenZ_set_bit. intros Hj. rewrite bit_set_bit by done.
    rewrite decide_False by lia. by apply Ht.
Qed.

#[export] Hint Resolve wf_set_bit : os.

(** The two C expressions that store a bit. *)
Lemma store_set_bit b ix k w x :
  nthZ (v b) ix = Some w -> is_u8 w -> 0 <= k < 8 ->
  store_word ix (if x : bool then Z.lor w (2 ^ k) else Z.land w (Z.lnot (2 ^ k))) b
  = Done tt (set_bit b (ix * 8 + k) x).
Proof.
  intros Hw Hu Hk. pose proof (nthZ_Some_lt _ _ _ Hw). unfold store_word. simpl_m. rewrite Hw. simpl.
  unfold set_bit, BITS_PER_WORD, CHAR_BIT.
  assert ((ix * 8 + k) / 8 = ix) as Hd by (rewrite Z.add_comm, Z.div_add, Z.div_small; lia).
  assert ((ix * 8 + k) mod 8 = k) as Hm by (rewrite Z.add_comm, Z.mod_add, Z.mod_small; lia).
  rewrite Hd, Hm, Hw, land_lnot_pow2. do 3 f_equal.
  destruct x; apply u8_id; [apply lor_pow2_bound|apply ldiff_pow2_bound]; done.
Qed.

Lemma bit_word b ix k w : nthZ (v b) ix = Some w -> 0 <= k < 8 -> bit b (ix * 8 + k) = Z.testbit w k.
Proof.
  intros Hw Hk. unfold bit, BITS_PER_WORD, CHAR_BIT.
  rewrite (Z.add_comm (ix * 8)), Z.div_add, Z.div_small, Z.add_0_l, Hw, Z.mod_add, Z.mod_small by lia.
  done.
Qed.

(** ** The operations *)

Lemma load_word_wp b ix (Q : Z -> bitmap -> Prop) w :
  nthZ (v b) ix = Some w -> Q w b -> wp (load_word ix) Q b.
Proof. intros Hw HQ. unfold wp, load_word. simpl_m. by rewrite Hw. Qed.

Lemma index_decomp i : i = i / 8 * 8 + i mod 8.
Proof. pose proof (Z.div_mod i 8). lia. Qed.

Lemma bit_at b i w : nthZ (v b) (i / 8) = Some w -> bit b i = Z.testbit w (i mod 8).
Proof. intros Hw. unfold bit, BITS_PER_WORD, CHAR_BIT. by rewrite Hw. Qed.

Lemma isset_run b i w : nthZ (v b) (i / 8) = Some w ->
  bitmap_isset i b = Done (Z.land w (2 ^ (i mod 8))) b.
Proof. intros Hw. unfold bitmap_isset. rewrite translate_eq. unfold load_word. simpl_m. by rewrite Hw. Qed.

(** C1-style contract of [bitmap_isset]: nonzero exactly when the bit is set. *)
Lemma isset_bit b i : wf b -> 0 <= i < nbits b ->
  exists z, bitmap_isset i b = Done z b /\ (z <> 0 <-> bit b i = true).
Proof.
  intros Hwf Hi. destruct (nthZ_is_Some _ _ (index_in_words b i Hwf Hi)) as [w Hw].
  exists (Z.land w (2 ^ (i mod 8))). split; [by apply isset_run|].
  pose proof (mod8_range i). rewrite land_bit_0 by lia.
  rewrite (bit_at _ _ _ Hw).
  destruct (Z.testbit w (i mod 8)); naive_solver.
Qed.

Lemma mark_run b i : wf b -> 0 <= i < nbits b ->
  bitmap_mark i b = if bit b i then Panic else Done tt (set_bit b i true).
Proof.
  intros Hwf Hi. destruct (nthZ_is_Some _ _ (index_in_words b i Hwf Hi)) as [w Hw].
  pose proof (mod8_range i) as Hm. unfold bitmap_mark. rewrite translate_eq. simpl_m.
  destruct (Z.ltb_spec i (nbits b)); [|lia]. unfold load_word. simpl_m. rewrite Hw. simpl.
  rewrite (bit_at _ _ _ Hw).
  destruct (Z.eqb_spec (Z.land w (2 ^ (i mod 8))) 0) as [E|E];
    [apply land_bit_0 in E as ->; [|lia]|].
  - pose proof (store_set_bit b (i / 8) (i mod 8) w true Hw (wf_u8 _ Hwf _ _ Hw) Hm) as Hs.
    rewrite <- index_decomp in Hs. simpl in Hs |- *. by rewrite Hs.
  - destruct (Z.testbit w (i mod 8)) eqn:Ht; [done|]. destruct E. apply land_bit_0; [lia|done].
Qed.

Lemma unmark_run b i : wf b -> 0 <= i < nbits b ->
  bitmap_unmark i b = if bit b i then Done tt (set_bit b i false) else Panic.
Proof.
  intros Hwf Hi. destruct (nthZ_is_Some _ _ (index_in_words b i Hwf Hi)) as [w Hw].
  pose proof (mod8_range i) as Hm. unfold bitmap_unmark. rewrite translate_eq. simpl_m.
  destruct (Z.ltb_spec i (nbits b)); [|lia]. unfold load_word. simpl_m. rewrite Hw. simpl.
  rewrite (bit_at _ _ _ Hw).
  destruct (Z.eqb_spec (Z.land w (2 ^ (i mod 8))) 0) as [E|E];
    [apply land_bit_0 in E as ->; [done|lia]|].
  destruct (Z.testbit w (i mod 8)) eqn:Ht.
  - pose proof (store_set_bit b (i / 8) (i mod 8) w false Hw (wf_u8 _ Hwf _ _ Hw) Hm) as Hs.
    rewrite <- index_decomp in Hs. simpl in Hs |- *. by rewrite Hs.
  - destruct E. apply land_bit_0; [lia|done].
Qed.

(** The bits below [i] are set. *)
Definition full_below (b : bitmap) (i : Z) : Prop := forall j, 0 <= j < i -> bit b j = true.

(** What [bitmap_alloc] promises: the lowest clear bit, set and handed back, or
    ENOSPC with the bitmap as it was. *)
Definition alloc_post (b : bitmap) (r : errno + Z) (b' : bitmap) : Prop :=
  match r with
  | inr i => 0 <= i < nbits b /\ bit b i = false /\ full_below b i /\ b' = set_bit b i true
  | inl e => e = ENOSPC /\ b' = b /\ full_below b (nbits b)
  end.

(** The scan of one word. *)
Lemma alloc_word b ix w :
  wf b -> nthZ (v b) ix = Some w -> full_below b (ix * 8) -> w <> WORD_ALLBITS ->
  wp (iterate (Z.to_nat BITS_PER_WORD) 0 (fun offset =>
        let mask := u8 (Z.shiftl 1 offset) in
        let! w := load_word ix in
        if Z.land w mask =? 0 then
          do! store_word ix (Z.lor w mask) in
          let index := u32 (ix * BITS_PER_WORD + offset) in
          let! b := get in
          do! assert_ (index <? nbits b) in
          ret (Some index)
        else ret None))
     (fun r b' => exists i, r = Some i /\ alloc_post b (inr i) b') b.
Proof.
  intros Hwf Hw Hfull Hne. pose proof (nthZ_Some_lt _ _ _ Hw) as Hix.
  pose proof (wf_u8 _ Hwf _ _ Hw) as Hu8.
  apply wp_iterate with (I := fun k b' => b' = b /\ forall j, 0 <= j < k -> Z.testbit w j = true).
  - split; [done|]. intros; lia.
  - intros k t Hk [-> Hlow]. change (0 + Z.of_nat (Z.to_nat BITS_PER_WORD)) with 8 in Hk.
    apply wp_bind. eapply load_word_wp; [done|]. rewrite mask_pow2 by lia.
    destruct (Z.eqb_spec (Z.land w (2 ^ k)) 0) as [E|E].
    + apply land_bit_0 in E; [|lia].
      assert (bit b (ix * 8 + k) = false) as Hb by (by rewrite (bit_word _ _ _ _ Hw) by lia).
      assert (ix * 8 + k < nbits b) as Hlt.
      { destruct (Z.lt_ge_cases (ix * 8 + k) (nbits b)) as [|Hge]; [done|].
        rewrite (wf_tail _ Hwf) in Hb; [done|lia]. }
      pose proof (wf_nbits _ Hwf). unfold max_nbits, BITS_PER_WORD, CHAR_BIT in *.
      apply wp_bind. unfold wp at 1. rewrite (store_set_bit b ix k w true) by (done || lia).
      unfold wp. simpl_m. rewrite u32_id by (unfold is_u32; lia). rewrite nbits_set_bit.
      destruct (Z.ltb_spec (ix * 8 + k) (nbits b)); [|lia]. simpl.
      eexists. split; [done|]. split; [lia|]. split; [done|]. split; [|done].
      intros j Hj. destruct (Z.lt_ge_cases j (ix * 8)); [apply Hfull; lia|].
      replace j with (ix * 8 + (j - ix * 8)) by lia. rewrite (bit_word _ _ _ _ Hw) by lia.
      apply Hlow. lia.
    + apply wp_ret. split; [done|]. intros j Hj. destruct (decide (j = k)) as [->|]; [|apply Hlow; lia].
      destruct (Z.testbit w k) eqn:Ht; [done|]. destruct E. by apply land_bit_0; [lia|].
  - intros t [-> Hall]. destruct Hne. apply (word_all_ones 8 w); [done|].
    intros k Hk. apply Hall. change (0 + Z.of_nat (Z.to_nat BITS_PER_WORD)) with 8. lia.
Qed.

Lemma alloc_correct b : wf b -> wp bitmap_alloc (alloc_post b) b.
Proof.
  intros Hwf. unfold bitmap_alloc. apply wp_bind. unfold wp at 1, get.
  pose proof (wf_nbits _ Hwf). rewrite divroundup_8 by done. rewrite <- (wf_len _ Hwf).
  apply wp_bind.
  apply wp_iterate with (I := fun k b' => b' = b /\ full_below b (k * 8)).
  - split; [done|]. intros j Hj. lia.
  - intros ix t Hix [-> Hfull]. rewrite Z2Nat.id in Hix by apply lenZ_nonneg.
    destruct (nthZ_is_Some (v b) ix ltac:(lia)) as [w Hw].
    apply wp_bind. eapply load_word_wp; [done|].
    destruct (Z.eqb_spec w WORD_ALLBITS) as [->|Hne].
    + apply wp_ret. split; [done|]. intros j Hj.
      destruct (Z.lt_ge_cases j (ix * 8)); [apply Hfull; lia|].
      replace j with (ix * 8 + (j - ix * 8)) by lia. rewrite (bit_word _ _ _ _ Hw) by lia.
      apply (Z.ones_spec_low 8 (j - ix * 8)). lia.
    + apply wp_bind. eapply wp_mono; [by apply (alloc_word b ix w)|].
      intros r b' (i & -> & Hpost). by apply wp_ret, wp_ret.
  - intros t [-> Hfull]. apply wp_ret. split; [done|]. split; [done|].
    intros j Hj. apply Hfull. rewrite Z2Nat.id by apply lenZ_nonneg.
    rewrite (wf_len _ Hwf). pose proof (Z.div_mod (nbits b + 7) 8).
    pose proof (Z.mod_pos_bound (nbits b + 7) 8). lia.
Qed.

(** The loop of [bitmap_create] that marks the bits past the end. *)
Definition create_inv (n words lo j : Z) (b : bitmap) : Prop :=
  exists w, is_u8 w /\ b = mk_bitmap n (setZ (replicate (Z.to_nat words) 0) (words - 1) w) /\
  forall k, 0 <= k < 8 -> Z.testbit w k = (lo <=? k) && (k <? j).

Lemma create_loop n words lo s (Q : option unit -> bitmap -> Prop) :
  0 < words < 2 ^ 32 -> 0 < lo < 8 -> create_inv n words lo lo s ->
  (forall b, create_inv n words lo 8 b -> Q None b) ->
  wp (iterate (Z.to_nat (BITS_PER_WORD - lo)) lo
        (fun j => let! w := load_word (u32 (words - 1)) in
                  do! store_word (u32 (words - 1)) (Z.lor w (u8 (Z.shiftl 1 j))) in
                  ret (None (A := unit)))) Q s.
Proof.
  intros Hw Hlo Hinv HQ. rewrite u32_id by (unfold is_u32; lia).
  apply wp_iterate with (I := create_inv n words lo); [done| |].
  - intros j b Hj (w & Hu & -> & Ht). unfold BITS_PER_WORD, CHAR_BIT in Hj.
    set (l := replicate (Z.to_nat words) 0).
    assert (0 <= words - 1 < lenZ l) as Hix by (unfold l; rewrite lenZ_replicate; lia).
    apply wp_bind. eapply load_word_wp; [simpl; by apply nthZ_setZ_eq|].
    apply wp_bind. unfold wp at 1, store_word. simpl_m. rewrite nthZ_setZ_eq by done. simpl.
    rewrite mask_pow2 by lia. apply wp_ret. exists (Z.lor w (2 ^ j)).
    assert (is_u8 (Z.lor w (2 ^ j))) by (apply lor_pow2_bound; [lia|done]).
    split; [done|]. split.
    + unfold set_v. simpl. by rewrite setZ_setZ, u8_id.
    + intros k Hk. rewrite testbit_lor_pow2, Ht by lia. lia.
  - intros b Hb. apply HQ. unfold BITS_PER_WORD, CHAR_BIT in Hb.
    by replace (lo + Z.of_nat (Z.to_nat (8 - lo))) with 8 in Hb by lia.
Qed.

Lemma bit_replicate0 n k i : bit (mk_bitmap n (replicate k 0)) i = false.
Proof.
  unfold bit. simpl. destruct (nthZ (replicate k 0) (i / BITS_PER_WORD)) as [w|] eqn:Hw; [|done].
  pose proof (nthZ_Some_lt _ _ _ Hw) as Hl. rewrite lenZ_replicate in Hl.
  rewrite nthZ_replicate in Hw by done. injection Hw as <-. apply Z.bits_0.
Qed.

(** The bitmap [bitmap_create] leaves: well formed, every index in range clear. *)
Definition fresh (n : Z) (b : bitmap) : Prop :=
  wf b /\ nbits b = n /\ forall i, 0 <= i < n -> bit b i = false.

Lemma fresh_aligned n : 0 <= n <= max_nbits -> n mod 8 = 0 ->
  fresh n (mk_bitmap n (replicate (Z.to_nat (n / 8)) 0)).
Proof.
  intros Hn Hm. pose proof (Z.div_mod n 8).
  assert ((n + 7) / 8 = n / 8) as Hd.
  { symmetry. apply Z.div_unique with (r := 7); lia. }
  assert (0 <= n / 8) by (apply Z.div_pos; lia).
  split; [|split; [done|intros; apply bit_replicate0]].
  split; simpl.
  - done.
  - rewrite lenZ_replicate. lia.
  - intros i w Hw. pose proof (nthZ_Some_lt _ _ _ Hw) as Hl. rewrite lenZ_replicate in Hl.
    rewrite nthZ_replicate in Hw by done. injection Hw as <-. unfold is_u8. lia.
  - rewrite lenZ_replicate. intros. lia.
Qed.

Lemma fresh_overbits n b : 0 <= n <= max_nbits -> n mod 8 <> 0 ->
  create_inv n ((n + 7) / 8) (n mod 8) 8 b -> fresh n b.
Proof.
  intros Hn Hm (w & Hu & -> & Ht). pose proof (Z.div_mod n 8). pose proof (mod8_range n).
  assert ((n + 7) / 8 = n / 8 + 1) as Hd.
  { symmetry. apply Z.div_unique with (r := n mod 8 - 1); lia. }
  assert (0 <= n / 8) by (apply Z.div_pos; lia). rewrite Hd in *.
  set (l := replicate (Z.to_nat (n / 8 + 1)) 0).
  assert (lenZ l = n / 8 + 1) as Hl by (unfold l; rewrite lenZ_replicate; lia).
  replace (n / 8 + 1 - 1) with (n / 8) by lia.
  assert (forall i, 0 <= i -> bit (mk_bitmap n (setZ l (n / 8) w)) i
                    = (n <=? i) && (i <? 8 * lenZ l)) as Hbit.
  { intros i Hi. pose proof (Z.div_mod i 8). pose proof (mod8_range i).
    unfold bit, BITS_PER_WORD, CHAR_BIT. simpl.
    destruct (decide (n / 8 = i / 8)) as [Hq|Hq].
    - rewrite <- Hq, nthZ_setZ_eq by lia. rewrite Ht by done. lia.
    - rewrite nthZ_setZ_ne by done. pose proof (bit_replicate0 n (Z.to_nat (n / 8 + 1)) i) as Hr.
      unfold bit, BITS_PER_WORD, CHAR_BIT in Hr. simpl in Hr. fold l in Hr. rewrite Hr. symmetry. apply andb_false_iff.
      rewrite !Z.leb_gt, Z.ltb_ge. lia. }
  split; [split; simpl|split; [done|]].
  - done.
  - by rewrite lenZ_setZ, Hd.
  - intros i w' Hw'. destruct (decide (n / 8 = i)) as [<-|Hi].
    + rewrite nthZ_setZ_eq in Hw' by lia. by injection Hw' as <-.
    + rewrite nthZ_setZ_ne in Hw' by done. pose proof (nthZ_Some_lt _ _ _ Hw').
      unfold l in Hw'. rewrite nthZ_replicate in Hw' by lia. injection Hw' as <-. unfold is_u8. lia.
  - rewrite lenZ_setZ. intros i Hi. rewrite Hbit by lia. lia.
  - intros i Hi. rewrite Hbit by lia. lia.
Qed.

Lemma create_loop_run n : 0 <= n <= max_nbits -> n mod 8 <> 0 ->
  exists b,
    iterate (Z.to_nat (8 - n mod 8)) (n mod 8)
      (fun j => let! w := load_word (u32 ((n + 7) / 8 - 1)) in
                do! store_word (u32 ((n + 7) / 8 - 1)) (Z.lor w (u8 (Z.shiftl 1 j))) in
                ret (None (A := unit)))
      (mk_bitmap n (replicate (Z.to_nat ((n + 7) / 8)) 0)) = Done None b /\ fresh n b.
Proof.
  intros Hn Hm. pose proof (Z.div_mod n 8). pose proof (mod8_range n).
  assert (0 <= n / 8) by (apply Z.div_pos; lia).
  assert ((n + 7) / 8 = n / 8 + 1) as Hd.
  { symmetry. apply Z.div_unique with (r := n mod 8 - 1); lia. }
  assert (n <= 2 ^ 32 - 8) as Hle by apply Hn.
  pose proof (create_loop n ((n + 7) / 8) (n mod 8)
                (mk_bitmap n (replicate (Z.to_nat ((n + 7) / 8)) 0))
                (fun r b => r = None /\ fresh n b)) as Hwp.
  apply wp_done in Hwp as (r & b & Hrun & -> & Hf); [by exists b|lia|lia| |].
  - exists 0. split; [unfold is_u8; lia|]. split.
    + f_equal. symmetry. apply setZ_id, nthZ_replicate. lia.
    + intros k _. rewrite Z.bits_0. symmetry. apply andb_false_iff. lia.
  - intros b Hb. split; [done|]. by apply fresh_overbits.
Qed.

Lemma create_correct {S} n (s : S) : 0 <= n <= max_nbits ->
  exists b, bitmap_create true true n s = Done (Some b) s /\ fresh n b.
Proof.
  intros Hn. pose proof (Z.div_mod n 8). pose proof (mod8_range n).
  assert (0 <= n / 8) by (apply Z.div_pos; lia).
  unfold bitmap_create. rewrite divroundup_8 by done. simpl.
  change BITS_PER_WORD with 8. unfold max_nbits, BITS_PER_WORD, CHAR_BIT in Hn.
  destruct (Z.ltb_spec (n / 8) ((n + 7) / 8)) as [Hlt|Hge].
  - assert (n mod 8 <> 0) as Hm.
    { intros Hm. assert (n / 8 = (n + 7) / 8) by (apply Z.div_unique with (r := 7); lia). lia. }
    assert ((n + 7) / 8 = n / 8 + 1) as Hd.
    { symmetry. apply Z.div_unique with (r := n mod 8 - 1); lia. }
    assert (u32 (n - u32 (u32 ((n + 7) / 8 - 1) * 8)) = n mod 8) as Hob.
    { rewrite Hd. replace (n / 8 + 1 - 1) with (n / 8) by lia.
      rewrite (u32_id (n / 8)), (u32_id (n / 8 * 8)), u32_id by (unfold is_u32; lia). lia. }
    rewrite Hob.
    destruct (create_loop_run n) as (b & Hrun & Hf); [done|lia|].
    exists b. split; [|done].
      simpl_m. rewrite u32_id by (unfold is_u32; lia).
      destruct (Z.eqb_spec (n / 8) ((n + 7) / 8 - 1)) as [_|]; [|lia].
      destruct (Z.ltb_spec 0 (n mod 8)); [|lia]. destruct (Z.ltb_spec (n mod 8) 8); [|lia].
      simpl. unfold zoom, bind. rewrite u32_id in Hrun by (unfold is_u32; lia).
      unfold BITS_PER_WORD in Hrun. unfold bind in Hrun.
      change CHAR_BIT with 8 in Hrun. by rewrite Hrun.
  - assert (n mod 8 = 0) as Hm.
    { destruct (Z.eq_dec (n mod 8) 0) as [|Hne]; [done|].
      assert (n / 8 + 1 = (n + 7) / 8) by (apply Z.div_unique with (r := n mod 8 - 1); lia). lia. }
    assert (n / 8 = (n + 7) / 8) as <- by (apply Z.div_unique with (r := 7); lia).
    eexists. split; [done|]. apply fresh_aligned; [|done].
    unfold max_nbits, BITS_PER_WORD, CHAR_BIT. lia.
Qed.

(** ** Properties *)

(** C36. [bitmap_alloc] on a well-formed bitmap never panics. It hands back the
    lowest clear index, which is in range, and changes that bit only; when it
    fails the error is ENOSPC, every index is in use and the bitmap is untouched. *)
Theorem bitmap_alloc_lowest_free (b : bitmap) :
  wf b ->
  exists r b', bitmap_alloc b = Done r b' /\ wf b' /\
  match r with
  | inr i => 0 <= i < nbits b /\ bit b i = false /\ (forall j, 0 <= j < i -> bit b j = true) /\
             forall j, bit b' j = if decide (i = j) then true else bit b j
  | inl e => e = ENOSPC /\ b' = b /\ forall j, 0 <= j < nbits b -> bit b j = true
  end.
Proof.
  intros Hwf. destruct (wp_done _ _ _ (alloc_correct b Hwf)) as ([e|i] & b' & Hrun & Hpost).
  - destruct Hpost as (-> & -> & Hf). by exists (inl ENOSPC), b.
  - destruct Hpost as (Hi & Hc & Hf & ->). exists (inr i), (set_bit b i true).
    split; [done|]. split; [by apply wf_set_bit|]. split_and!; [lia|lia|done|done|].
    intros j. apply bit_set_bit, index_in_words; done.
Qed.

Definition demo_bitmap : bitmap := mk_bitmap 10 [255; 252].

Lemma demo_bitmap_wf : wf demo_bitmap.
Proof.
  split; simpl; [done|done| |].
  - intros i w. unfold nthZ. case_decide; [|done].
    destruct (Z.to_nat i) as [|[|?]]; simpl; intros Hw; simplify_eq; unfold is_u8; lia.
  - intros i Hi. change (lenZ [255; 252]) with 2 in Hi.
    assert (i = 10 \/ i = 11 \/ i = 12 \/ i = 13 \/ i = 14 \/ i = 15) as Hc by lia.
    naive_solver.
Defined.

Lemma bitmap_alloc_lowest_free_witness :
  exists r b', bitmap_alloc demo_bitmap = Done r b' /\ wf b' /\ r = inr 8.
Proof.
  destruct (bitmap_alloc_lowest_free demo_bitmap demo_bitmap_wf) as (r & b' & Hrun & Hwf & _).
  exists r, b'. split; [exact Hrun|]. split; [exact Hwf|].
  vm_compute in Hrun. congruence.
Defined.

(** [bitmap_create n] with both allocations succeeding passes its assertions
    and makes a well-formed bitmap with [n] clear bits, the bits that pad the last
    byte being marked in use. *)
Theorem bitmap_create_all_clear {S} (n : Z) (s : S) :
  0 <= n <= max_nbits ->
  exists b, bitmap_create true true n s = Done (Some b) s /\ wf b /\ nbits b = n /\
            (forall i, 0 <= i < n -> bit b i = false) /\
            (forall i, n <= i < 8 * lenZ (v b) -> bit b i = true).
Proof.
  intros Hn. destruct (create_correct n s Hn) as (b & Hrun & Hwf & Hnb & Hc).
  exists b. split_and!; try done. intros i Hi. apply (wf_tail b Hwf). lia.
Qed.

Lemma bitmap_create_all_clear_witness :
  exists b, bitmap_create true true 13 tt = Done (Some b) tt /\ bit b 12 = false /\ bit b 13 = true.
Proof.
  destruct (bitmap_create_all_clear 13 tt) as (b & Hrun & _ & _ & Hc & _);
    [unfold max_nbits, BITS_PER_WORD, CHAR_BIT; lia|].
  exists b. split; [exact Hrun|]. split; [apply Hc; lia|]. vm_compute in Hrun.
  injection Hrun as <-. reflexivity.
Defined.

(** Marking and unmarking are the two inverse single-bit updates: each panics
    exactly when its bit is already in the requested state, changes no other bit,
    keeps the bitmap well formed, and unmarking what was marked restores the
    bitmap's bits. *)
Theorem bitmap_mark_unmark (b : bitmap) (i : Z) :
  wf b -> 0 <= i < nbits b ->
  (bit b i = true -> bitmap_mark i b = Panic) /\
  (bit b i = false -> bitmap_unmark i b = Panic) /\
  (bit b i = false ->
     exists b1 b2, bitmap_mark i b = Done tt b1 /\ wf b1 /\
       (forall j, bit b1 j = if decide (i = j) then true else bit b j) /\
       bitmap_unmark i b1 = Done tt b2 /\ wf b2 /\ forall j, bit b2 j = bit b j).
Proof.
  intros Hwf Hi. pose proof (index_in_words b i Hwf Hi) as Hq.
  rewrite mark_run, unmark_run by done. split; [by intros ->|]. split; [by intros ->|].
  intros Hc. rewrite Hc. exists (set_bit b i true), (set_bit (set_bit b i true) i false).
  assert (wf (set_bit b i true)) by auto with os.
  assert (0 <= i < nbits (set_bit b i true)) by (by rewrite nbits_set_bit).
  split; [done|]. split; [done|]. split; [intros; by apply bit_set_bit|].
  rewrite unmark_run, bit_set_bit, decide_True by done.
  split; [done|]. split; [auto with os|].
  intros j. rewrite !bit_set_bit by (by rewrite ?lenZ_set_bit). repeat case_decide; congruence.
Qed.

Lemma bitmap_mark_unmark_witness :
  exists b1 b2, bitmap_mark 9 demo_bitmap = Done tt b1 /\ bitmap_unmark 9 b1 = Done tt b2.
Proof.
  destruct (bitmap_mark_unmark demo_bitmap 9 demo_bitmap_wf) as (_ & _ & H); [simpl; lia|].
  destruct H as (b1 & b2 & H1 & _ & _ & H2 & _); [reflexivity|]. exists b1, b2. split; [exact H1|exact H2].
Defined.
