(* ===== verification/Array.v ===== *)
(** * Resizeable arrays of pointers (kern/lib/array.c, kern/include/array.h).

    The thread system keeps its sleepers and zombies in these arrays, the VFS
    layer its devices and SFS its loaded vnodes. A cell holds [None] until it is
    written: [kmalloc] does not clear memory. Whether the allocation of a call
    succeeds is an argument. *)

From stdpp Require Import base numbers list.
From Stdlib Require Import ZArith Lia.
From S2P Require Import Prelude.

Section array.
Context {A : Type}.

Record array : Type := mk_array { num : Z; max : Z; av : option (list (option A)) }.

Definition array_create {S} (mem : bool) : M S (option array) :=
  ret (if mem then Some (mk_array 0 0 None) else None).

Definition array_getnum : M array Z := let! a := get in ret (num a).

(** [a->v[i]], where [a->v] may be NULL. *)
Definition cells (a : array) : list (option A) := default [] (av a).

Definition array_getguy (index : Z) : M array A :=
  let! a := get in
  do! assert_ (num a <=? max a) in
  do! assert_ ((0 <=? index) && (index <? num a)) in
  let! c := of_option (nthZ (cells a) index) in
  of_option c.

(** [while (nguys > newmax) newmax = (newmax+1)*2;] *)
Fixpoint grow_max {S} (fuel : nat) (nguys newmax : Z) : M S Z :=
  if newmax <? nguys then
    match fuel with
    | O => out_of_fuel
    | S fuel => let! m := int_of ((newmax + 1) * 2) in grow_max fuel nguys m
    end
  else ret newmax.

(** Every round at least doubles [newmax + 2]: an [int] allows 31 of them. *)
Definition grow_fuel : nat := 32.

Definition sizeof_ptr : Z := 4.

Definition array_preallocate (mem : bool) (nguys : Z) : E array unit :=
  let! a := get in
  do! assert_ ((0 <=? num a) && (num a <=? max a)) in
  let! newmax := grow_max grow_fuel nguys (max a) in
  if negb mem then fail ENOMEM
  else
    let ncells := u32 (newmax * sizeof_ptr) / sizeof_ptr in
    let! newv := local (replicate (Z.to_nat ncells) None)
      (do! iterate (Z.to_nat (num a)) 0 (fun i =>
         let! c := of_option (nthZ (cells a) i) in
         let! nv := get in
         do! of_option (nthZ nv i) in
         do! put (setZ nv i c) in
         ret (None (A := unit))) in get) in
    do! put (mk_array (num a) newmax (Some newv)) in
    ok tt.

Definition array_setsize (mem : bool) (nguys : Z) : E array unit :=
  let! a := get in
  do! assert_ ((0 <=? num a) && (num a <=? max a)) in
  try! _ :=
    (if max a <? nguys then array_preallocate mem nguys
     else if (nguys =? 0) && (16 <? max a) then
       do! assert_ (bool_decide (is_Some (av a))) in
       do! put (mk_array (num a) 0 None) in ok tt
     else ok tt) in
  let! a := get in
  do! put (mk_array nguys (max a) (av a)) in
  ok tt.

(** Writing [a->v[index]]. *)
Definition store_cell (index : Z) (c : option A) : M array unit :=
  let! a := get in
  do! of_option (nthZ (cells a) index) in
  put (mk_array (num a) (max a) (Some (setZ (cells a) index c))).

Definition array_setguy (index : Z) (ptr : A) : M array unit :=
  let! a := get in
  do! assert_ (num a <=? max a) in
  do! assert_ ((0 <=? index) && (index <? num a)) in
  store_cell index (Some ptr).

Definition array_add (mem : bool) (guy : A) : E array unit :=
  let! a := get in
  let ix := num a in
  let! n := int_of (ix + 1) in
  try! _ := array_setsize mem n in
  do! store_cell ix (Some guy) in
  ok tt.

(** [memmove(v+dst, v+src, n*sizeof(void * ))] inside one array. *)
Definition memmove_cells (l : list (option A)) (dst src n : Z) : list (option A) :=
  take (Z.to_nat dst) l ++ take (Z.to_nat n) (drop (Z.to_nat src) l)
  ++ drop (Z.to_nat (dst + n)) l.

Definition array_remove (index : Z) : M array unit :=
  let! a := get in
  do! assert_ (num a <=? max a) in
  do! assert_ ((0 <=? index) && (index <? num a)) in
  let nmove := num a - (index + 1) in
  do! (if num a <=? lenZ (cells a) then ret tt else undef) in
  put (mk_array (num a - 1) (max a)
         (Some (memmove_cells (cells a) index (index + 1) nmove))).

(** ** The list of cells an array stands for *)

(** Sizes below this bound keep the doubling and the byte count in range. *)
Definition max_guys : Z := 2 ^ 28.

Record repr (a : array) (cs : list (option A)) : Prop := {
  repr_num : num a = lenZ cs;
  repr_max : lenZ (cells a) = max a;
  repr_bound : max a <= 2 * max_guys;
  repr_cells : take (length cs) (cells a) = cs;
  repr_null : max a <> 0 -> is_Some (av a);
}.

Lemma repr_le a cs : repr a cs -> 0 <= num a <= max a.
Proof.
  intros [Hn Hm _ Hc _]. split; [rewrite Hn; apply lenZ_nonneg|].
  apply (f_equal length) in Hc. rewrite length_take in Hc. unfold lenZ in *. lia.
Qed.

Lemma nthZ_take (l : list (option A)) n i : i < Z.of_nat n -> nthZ (take n l) i = nthZ l i.
Proof.
  intros Hi. unfold nthZ. case_decide; [|done]. apply lookup_take_lt. lia.
Qed.

Lemma repr_lookup a cs i : repr a cs -> i < num a -> nthZ (cells a) i = nthZ cs i.
Proof.
  intros Hr Hi. rewrite <- (repr_cells _ _ Hr) at 1. symmetry. rewrite nthZ_take; [done|].
  rewrite (repr_num _ _ Hr) in Hi. exact Hi.
Qed.

Lemma grow_max_spec {S} fuel n m (s : S) :
  0 <= m -> n <= max_guys -> m <= 2 * max_guys -> n + 2 <= 2 ^ Z.of_nat fuel * (m + 2) ->
  exists m', grow_max fuel n m s = Done m' s /\ n <= m' /\ m <= m' <= Z.max m (2 * n) /\
             (n <= m -> m' = m).
Proof.
  unfold max_guys. revert m. induction fuel as [|f IH]; intros m Hm Hn Hm2 Hf; simpl;
    destruct (Z.ltb_spec m n) as [Hlt|Hge]; try (exists m; split; [done|lia]).
  - change (2 ^ Z.of_nat 0) with 1 in Hf. lia.
  - replace (Z.of_nat (Datatypes.S f)) with (Z.succ (Z.of_nat f)) in Hf by lia.
    rewrite Z.pow_succ_r in Hf by lia.
    destruct (IH ((m + 1) * 2)) as (m' & Hrun & H); [lia|lia|lia|lia|].
    exists m'. unfold int_of, bind. rewrite bool_decide_true by lia. simpl.
    split; [done|]. lia.
Qed.

(** The copying loop fills the new cells with the old ones. *)
Lemma copy_cells {S} (old : list (option A)) n k (s : S) :
  0 <= n <= lenZ old -> n <= Z.of_nat k ->
  wp (local (replicate k None)
      (do! iterate (Z.to_nat n) 0 (fun i =>
         let! c := of_option (nthZ old i) in
         let! nv := get in
         do! of_option (nthZ nv i) in
         do! put (setZ nv i c) in
         ret (None (A := unit))) in get))
     (fun nv s' => s' = s /\ lenZ nv = Z.of_nat k /\
                   take (Z.to_nat n) nv = take (Z.to_nat n) old) s.
Proof.
  intros Hn Hk. wp_steps.
  apply wp_iterate with (I := fun i nv => lenZ nv = Z.of_nat k /\
     forall j, 0 <= j < i -> nthZ nv j = nthZ old j).
  - rewrite lenZ_replicate. split; [done|]. intros; lia.
  - intros i nv Hi [Hl Hc]. wp_steps.
    destruct (nthZ_is_Some old i ltac:(lia)) as [c Hc'].
    destruct (nthZ_is_Some nv i ltac:(lia)) as [c0 Hc0].
    exists c. split; [done|]. wp_steps. exists c0. split; [done|]. wp_steps.
    rewrite lenZ_setZ. split; [done|]. intros j Hj. destruct (decide (j = i)) as [->|].
    + by rewrite nthZ_setZ_eq by lia.
    + rewrite nthZ_setZ_ne by done. apply Hc. lia.
  - intros nv [Hl Hc]. wp_steps. split; [done|]. split; [done|].
    apply nthZ_ext; unfold lenZ in *; rewrite !length_take; [lia|].
    intros i Hi. rewrite !nthZ_take by lia. apply Hc. lia.
Qed.

(** What holds after [array_preallocate]: room, and the same contents. *)
Lemma preallocate_correct a cs mem n :
  repr a cs -> n <= max_guys ->
  wp (array_preallocate mem n)
     (fun r a' => match r with
                  | inl e => e = ENOMEM /\ mem = false /\ a' = a
                  | inr _ => mem = true /\ repr a' cs /\ n <= max a' /\
                             max a <= max a' /\ (n <= max a -> max a' = max a)
                  end) a.
Proof.
  intros Hr Hn. pose proof (repr_le _ _ Hr) as Hle. pose proof (repr_bound _ _ Hr) as Hb.
  unfold array_preallocate. wp_steps. split; [lia|]. wp_steps.
  destruct (grow_max_spec grow_fuel n (max a) a) as (m' & Hrun & Hm); [lia|done|done| |].
  { unfold max_guys in Hn. change (2 ^ Z.of_nat grow_fuel) with (2 ^ 32). lia. }
  unfold wp at 1. rewrite Hrun. destruct mem; simpl; [|by wp_steps].
  unfold max_guys, sizeof_ptr in *. rewrite u32_id by (unfold is_u32; lia).
  rewrite Z.div_mul by done. wp_step.
  eapply wp_mono; [apply copy_cells; [rewrite (repr_max _ _ Hr); lia|lia]|].
  intros nv s' (-> & Hl & Ht). wp_steps. split; [done|]. split; [|simpl; lia].
  pose proof (repr_num _ _ Hr) as Hnum.
  split; simpl; [done|unfold cells; simpl; lia|unfold max_guys; lia| |done].
  unfold cells at 1. simpl. rewrite Hnum in Ht. unfold lenZ in Ht. rewrite Nat2Z.id in Ht.
  rewrite Ht. apply (repr_cells _ _ Hr).
Qed.

(** The list of cells after resizing to [n]: cut, or extended with cells that
    hold nothing in particular. *)
Definition resized (cs cs' : list (option A)) (n : Z) : Prop :=
  lenZ cs' = n /\ take (Z.to_nat (Z.min n (lenZ cs))) cs' = take (Z.to_nat (Z.min n (lenZ cs))) cs.

Lemma cells_firstn a cs n :
  repr a cs -> 0 <= n <= max a ->
  exists cs', resized cs cs' n /\ repr (mk_array n (max a) (av a)) cs'.
Proof.
  intros Hr Hn. pose proof (repr_le _ _ Hr). pose proof (repr_max _ _ Hr) as Hm.
  pose proof (repr_num _ _ Hr) as Hnum. unfold lenZ in Hm, Hnum.
  exists (take (Z.to_nat n) (cells a)).
  assert (length (take (Z.to_nat n) (cells a)) = Z.to_nat n) as Hl by (rewrite length_take; lia).
  split.
  - split; [unfold lenZ; rewrite Hl; lia|]. rewrite take_take.
    transitivity (take (Z.to_nat (n `min` lenZ cs)) (take (length cs) (cells a)));
      [|by rewrite (repr_cells _ _ Hr)].
    rewrite take_take. f_equal. unfold lenZ. lia.
  - split; simpl.
    + unfold lenZ. rewrite Hl. lia.
    + apply (repr_max _ _ Hr).
    + apply (repr_bound _ _ Hr).
    + by rewrite Hl.
    + apply (repr_null _ _ Hr).
Qed.

Definition setsize_frees (a : array) (n : Z) : bool := (n =? 0) && (16 <? max a).

Lemma setsize_correct a cs mem n :
  repr a cs -> 0 <= n <= max_guys ->
  wp (array_setsize mem n)
     (fun r a' => match r with
                  | inl e => e = ENOMEM /\ mem = false /\ max a < n /\ a' = a
                  | inr _ => (exists cs', resized cs cs' n /\ repr a' cs') /\
                             (setsize_frees a n = false -> max a <= max a')
                  end) a.
Proof.
  intros Hr Hn. pose proof (repr_le _ _ Hr) as Hle. unfold array_setsize, setsize_frees.
  wp_steps. split; [lia|]. wp_steps. destruct (Z.ltb_spec (max a) n) as [Hgt|Hge].
  - eapply wp_mono; [apply preallocate_correct; [done|lia]|].
    intros [e|u] a'; [naive_solver lia|]. intros (_ & Hr' & Hmax & Hmono & _). wp_steps.
    split; [apply cells_firstn; [done|lia]|]. simpl. lia.
  - destruct (Z.eqb_spec n 0) as [->|Hn0]; [destruct (Z.ltb_spec 16 (max a)) as [H16|H16]|]; simpl.
    + wp_steps. split; [apply bool_decide_true, (repr_null _ _ Hr); lia|]. wp_steps.
      split; [|done]. exists []. split; [split; [done|]|].
      * rewrite Z.min_l by apply lenZ_nonneg. done.
      * split; simpl; [done|done|unfold max_guys; lia|done|done].
    + wp_steps. split; [by apply cells_firstn|]. simpl. lia.
    + wp_steps. split; [apply cells_firstn; [done|lia]|]. simpl. lia.
Qed.

Lemma store_cell_correct a cs i c :
  repr a cs -> 0 <= i < num a ->
  wp (store_cell i c) (fun _ a' => repr a' (setZ cs i c) /\ max a' = max a) a.
Proof.
  intros Hr Hi. pose proof (repr_le _ _ Hr). pose proof (repr_max _ _ Hr) as Hm.
  unfold store_cell. wp_steps. destruct (nthZ_is_Some (cells a) i) as [x Hx]; [lia|].
  exists x. split; [done|]. wp_steps. split; [|done].
  pose proof (repr_num _ _ Hr) as Hnum. split; simpl.
  - by rewrite lenZ_setZ.
  - unfold cells at 1. simpl. by rewrite lenZ_setZ.
  - apply (repr_bound _ _ Hr).
  - unfold cells at 1. simpl. assert (length (setZ cs i c) = length cs) as ->.
    { pose proof (lenZ_setZ cs i c). unfold lenZ in *. lia. }
    unfold setZ. rewrite !decide_True by lia.
    rewrite take_insert_lt by (unfold lenZ in Hnum; lia). by rewrite (repr_cells _ _ Hr).
  - intros _. by eexists.
Qed.

Lemma resized_last cs cs' x :
  resized cs cs' (lenZ cs + 1) -> setZ cs' (lenZ cs) x = cs ++ [x].
Proof.
  intros [Hl Ht]. rewrite Z.min_r in Ht by lia. unfold lenZ in *. rewrite Nat2Z.id in Ht.
  rewrite (take_ge cs) in Ht by lia. unfold setZ. rewrite decide_True by lia. rewrite Nat2Z.id.
  assert (exists y, cs' = cs ++ [y]) as [y ->].
  { rewrite <- (take_drop (length cs) cs'), Ht.
    assert (length (drop (length cs) cs') = 1%nat) as H1 by (rewrite length_drop; lia).
    destruct (drop (length cs) cs') as [|y [|]]; simpl in H1; try lia. by exists y. }
  by rewrite insert_app_r_alt, Nat.sub_diag by lia.
Qed.

Lemma add_correct a cs mem x :
  repr a cs -> num a < max_guys ->
  wp (array_add mem x)
     (fun r a' => match r with
                  | inl e => e = ENOMEM /\ mem = false /\ num a = max a /\ a' = a
                  | inr _ => repr a' (cs ++ [Some x]) /\ max a <= max a'
                  end) a.
Proof.
  intros Hr Hn. pose proof (repr_le _ _ Hr). unfold max_guys in Hn.
  unfold array_add. wp_steps. split; [unfold is_s32; lia|]. wp_steps.
  eapply wp_mono; [apply setsize_correct; [done|unfold max_guys; lia]|].
  intros [e|u] a'; [naive_solver lia|].
  intros [(cs' & Hres & Hr') Hmono]. unfold setsize_frees in Hmono.
  rewrite (repr_num _ _ Hr) in *. wp_steps.
  eapply wp_mono; [apply store_cell_correct; [done|]|].
  - rewrite (repr_num _ _ Hr'), (proj1 Hres). lia.
  - intros [] a'' [Hr'' Hm]. wp_steps. rewrite (resized_last _ _ _ Hres) in Hr''.
    split; [done|]. rewrite Hm. apply Hmono. lia.
Qed.

Lemma take_memmove_cells (l : list (option A)) n i :
  (i < n <= length l)%nat ->
  take (n - 1) (memmove_cells l (Z.of_nat i) (Z.of_nat i + 1) (Z.of_nat n - (Z.of_nat i + 1)))
  = delete i (take n l).
Proof.
  intros Hi. unfold memmove_cells.
  replace (Z.to_nat (Z.of_nat i)) with i by lia.
  replace (Z.to_nat (Z.of_nat i + 1)) with (S i) by lia.
  replace (Z.to_nat (Z.of_nat n - (Z.of_nat i + 1))) with (n - S i)%nat by lia.
  rewrite delete_take_drop, take_take, Nat.min_l, skipn_firstn_comm by lia.
  rewrite take_app_ge by (rewrite length_take; lia). f_equal. rewrite length_take, Nat.min_l by lia.
  rewrite take_app_le by (rewrite length_take, length_drop; lia).
  rewrite take_take. f_equal. lia.
Qed.

Lemma length_memmove_cells (l : list (option A)) i n :
  (i < n <= length l)%nat ->
  length (memmove_cells l (Z.of_nat i) (Z.of_nat i + 1) (Z.of_nat n - (Z.of_nat i + 1))) = length l.
Proof.
  intros Hi. unfold memmove_cells. rewrite !length_app, !length_take, !length_drop. lia.
Qed.

Lemma remove_correct a cs i :
  repr a cs -> 0 <= i < num a ->
  wp (array_remove i) (fun _ a' => repr a' (delete (Z.to_nat i) cs) /\ max a' = max a) a.
Proof.
  intros Hr Hi. pose proof (repr_le _ _ Hr). pose proof (repr_max _ _ Hr) as Hm.
  pose proof (repr_num _ _ Hr) as Hnum. unfold lenZ in Hm, Hnum.
  unfold array_remove. wp_steps. split; [lia|]. wp_steps. split; [lia|]. wp_steps.
  unfold lenZ. destruct (Z.leb_spec (num a) (Z.of_nat (length (cells a)))); [|lia].
  wp_steps. split; [|done].
  assert (i = Z.of_nat (Z.to_nat i)) as Hi' by lia.
  pose proof (take_memmove_cells (cells a) (length cs) (Z.to_nat i) ltac:(lia)) as Ht.
  pose proof (length_memmove_cells (cells a) (Z.to_nat i) (length cs) ltac:(lia)) as Hl.
  rewrite <- Hi', <- Hnum in Ht, Hl.
  split; simpl.
  - unfold lenZ. rewrite length_delete by (apply lookup_lt_is_Some_2; lia). lia.
  - unfold cells at 1, lenZ. simpl. lia.
  - apply (repr_bound _ _ Hr).
  - unfold cells at 1. simpl. rewrite length_delete by (apply lookup_lt_is_Some_2; lia).
    rewrite Ht. by rewrite (repr_cells _ _ Hr).
  - intros _. by eexists.
Qed.

Lemma getguy_correct a cs i x :
  repr a cs -> nthZ cs i = Some (Some x) -> array_getguy i a = Done x a.
Proof.
  intros Hr Hx. pose proof (repr_le _ _ Hr). pose proof (nthZ_Some_lt _ _ _ Hx) as Hi.
  rewrite <- (repr_num _ _ Hr) in Hi. rewrite <- (repr_lookup _ _ _ Hr) in Hx by lia.
  unfold array_getguy. simpl_m. destruct (Z.leb_spec (num a) (max a)); [|lia].
  destruct (Z.leb_spec 0 i); [|lia]. destruct (Z.ltb_spec i (num a)); [|lia]. simpl.
  by rewrite Hx.
Qed.

Lemma setguy_correct a cs i x :
  repr a cs -> 0 <= i < num a ->
  wp (array_setguy i x) (fun _ a' => repr a' (setZ cs i (Some x)) /\ max a' = max a) a.
Proof.
  intros Hr Hi. pose proof (repr_le _ _ Hr). unfold array_setguy. wp_steps. split; [lia|].
  wp_steps. split; [lia|]. by apply store_cell_correct.
Qed.

Lemma repr_empty : repr (mk_array 0 0 None) [].
Proof. split; simpl; done. Qed.
End array.
Arguments array : clear implicits.

(** ** Properties *)

(** Adding to an array appends: on success the array stands for the old list
    followed by the new pointer and its capacity has not shrunk; the only error is
    ENOMEM, which needs a failed allocation and a full array and changes nothing. *)
Theorem array_add_appends {A} (a : array A) (cs : list (option A)) (mem : bool) (x : A) :
  repr a cs -> num a < max_guys ->
  exists r a', array_add mem x a = Done r a' /\
  match r with
  | inr _ => repr a' (cs ++ [Some x]) /\ max a <= max a'
  | inl e => e = ENOMEM /\ mem = false /\ num a = max a /\ a' = a
  end.
Proof.
  intros Hr Hn. destruct (wp_done _ _ _ (add_correct a cs mem x Hr Hn)) as (r & a' & Hrun & H).
  exists r, a'. split; [done|]. by destruct r.
Qed.

Lemma array_add_appends_witness :
  exists a', array_add true 7%nat (mk_array 0 0 None) = Done (inr tt) a' /\ repr a' [Some 7%nat].
Proof.
  destruct (array_add_appends (mk_array 0 0 None) [] true 7%nat repr_empty)
    as (r & a' & Hrun & H); [reflexivity|].
  vm_compute in Hrun. destruct r as [e|[]]; [discriminate|]. exists a'.
  split; [exact Hrun|exact (proj1 H)].
Defined.

(** [array_preallocate] keeps its promise until the array is emptied: after
    preallocating for [n] pointers, as many [array_add]s as fit in [n] succeed even
    when every allocation fails, and build the list in order. *)
Theorem array_preallocate_reserves {A} (a a' : array A) (cs : list (option A)) (n : Z) (xs : list A) :
  repr a cs -> n <= max_guys -> array_preallocate true n a = Done (inr tt) a' ->
  lenZ cs + lenZ xs <= n ->
  exists a'', foldl (fun m x => try! _ := m in array_add false x) (ok tt) xs a' = Done (inr tt) a'' /\
              repr a'' (cs ++ (Some <$> xs)).
Proof.
  intros Hr Hn Hrun Hlen.
  pose proof (preallocate_correct a cs true n Hr Hn) as Hpre. unfold wp in Hpre. rewrite Hrun in Hpre.
  destruct Hpre as (_ & Hr' & Hmax & _). clear Hrun Hr.
  assert (forall m, m a' = Done (inr tt) a' ->
    exists a'', foldl (fun m x => try! _ := m in array_add false x) m xs a' = Done (inr tt) a'' /\
              repr a'' (cs ++ (Some <$> xs)) /\ n <= max a'') as Hgen; last first.
  { destruct (Hgen (ok tt) eq_refl) as (a'' & ? & ? & _). by exists a''. }
  intros m Hm. revert Hlen. induction xs as [|x xs IH] using rev_ind; intros Hlen.
  - exists a'. by rewrite app_nil_r.
  - rewrite lenZ_app in Hlen. change (lenZ [x]) with 1 in Hlen.
    destruct IH as (a1 & Hrun & Hr1 & Hm1); [lia|].
    rewrite foldl_app. simpl. unfold tbind at 1, bind. rewrite Hrun.
    pose proof (repr_num _ _ Hr1) as Hnum. rewrite lenZ_app in Hnum.
    assert (lenZ (Some <$> xs) = lenZ xs) as Hl by (unfold lenZ; by rewrite length_fmap).
    destruct (wp_done _ _ _ (add_correct a1 _ false x Hr1 ltac:(lia))) as ([e|[]] & a2 & Hrun2 & H).
    + lia.
    + exists a2. split; [done|]. rewrite fmap_app, app_assoc. simpl. split; [apply H|lia].
Qed.

Lemma array_preallocate_reserves_witness :
  exists a' a'', array_preallocate true 3 (mk_array (A := nat) 0 0 None) = Done (inr tt) a' /\
    repr a'' [Some 1%nat; Some 2%nat; Some 3%nat].
Proof.
  exists (mk_array 0 6 (Some (replicate 6 None))).
  destruct (array_preallocate_reserves (mk_array (A := nat) 0 0 None)
    (mk_array 0 6 (Some (replicate 6 None))) [] 3 [1%nat; 2%nat; 3%nat] repr_empty)
    as (a'' & _ & Hr); [unfold max_guys; lia|reflexivity|unfold lenZ; simpl; lia|].
  exists a''. split; [reflexivity|exact Hr].
Defined.

(** Emptying an array throws the reservation away once it holds more than
    sixteen pointers: [exorcise] resizes [zombies] to zero after every context
    switch, and from then on an [array_add] can fail although [array_preallocate]
    had succeeded for that many pointers. *)
Theorem array_setsize_zero_drops_reservation {A} (a : array A) (cs : list (option A)) (x : A) :
  repr a cs -> 16 < max a ->
  exists a', array_setsize false 0 a = Done (inr tt) a' /\ max a' = 0 /\
             array_add false x a' = Done (inl ENOMEM) a'.
Proof.
  intros Hr Hm. pose proof (repr_le _ _ Hr). destruct (repr_null _ _ Hr) as [l Hl]; [lia|].
  exists (mk_array 0 0 None). split; [|done].
  unfold array_setsize. simpl_m. destruct (Z.leb_spec 0 (num a)); [|lia].
  destruct (Z.leb_spec (num a) (max a)); [|lia]. destruct (Z.ltb_spec (max a) 0); [lia|].
  destruct (Z.ltb_spec 16 (max a)); [|lia]. simpl. by rewrite Hl.
Qed.

Lemma array_setsize_zero_drops_reservation_witness :
  exists a', array_setsize false 0 (mk_array (A := nat) 0 30 (Some (replicate 30 None))) =
             Done (inr tt) a' /\ array_add false 5%nat a' = Done (inl ENOMEM) a'.
Proof.
  destruct (array_setsize_zero_drops_reservation
              (mk_array (A := nat) 0 30 (Some (replicate 30 None))) [] 5%nat) as (a' & H1 & _ & H2).
  - by split.
  - reflexivity.
  - exists a'. split; [exact H1|exact H2].
Defined.
