(* ===== verification/Queue.v ===== *)
(** * Queues of pointers (kern/lib/queue.c, kern/include/queue.h).

    The scheduler's run queue: a ring buffer of [size] slots that holds at most
    [size - 1] pointers and doubles when it overflows. *)

From stdpp Require Import base numbers list.
From Stdlib Require Import ZArith Lia.
From S2P Require Import Prelude.

(** What a client of a queue may rely on: an object of type [Q] that stands for a
    list, with operations that act on that list. *)
Class FifoQueue (Q A : Type) : Type := {
  fq_model : Q -> list A -> Prop;
  fq_empty : M Q bool;
  fq_addtail : bool -> A -> E Q unit;
  fq_remhead : M Q A;
  fq_room : Q -> Z;   (* pointers that can be added without allocating *)
  fq_create : bool -> bool -> Z -> option Q;
  fq_preallocate : bool -> Z -> E Q unit;
}.

Class FifoLaws {Q A : Type} (F : FifoQueue Q A) : Prop := {
  fq_empty_law q xs : fq_model q xs ->
    fq_empty q = Done (bool_decide (length xs = 0%nat)) q;
  fq_addtail_law q xs mem x : fq_model q xs -> lenZ xs < 2 ^ 26 ->
    exists r q', fq_addtail mem x q = Done r q' /\
    match r with
    | inr _ => fq_model q' (xs ++ [x])
    | inl e => e = ENOMEM /\ mem = false /\ fq_room q <= 0 /\ q' = q
    end;
  fq_remhead_law q x xs : fq_model q (x :: xs) ->
    exists q', fq_remhead q = Done x q' /\ fq_model q' xs /\ fq_room q' = fq_room q + 1;
  fq_create_law n : 0 < n <= 2 ^ 28 -> exists q, fq_create true true n = Some q /\ fq_model q [];
  fq_preallocate_law q xs mem n : fq_model q xs -> n <= 2 ^ 27 ->
    exists r q', fq_preallocate mem n q = Done r q' /\
    match r with
    | inr _ => fq_model q' xs /\ n - 1 - lenZ xs <= fq_room q' /\ fq_room q <= fq_room q'
    | inl e => e = ENOMEM /\ mem = false /\ q' = q
    end;
}.

Section queue.
Context {A : Type}.

Record queue : Type :=
  mk_queue { size : Z; nextwrite : Z; nextread : Z; data : list (option A) }.

Definition q_empty : M queue bool :=
  let! q := get in ret (nextwrite q =? nextread q).

(** Body of [q_addtail], given the [q_grow] it calls. *)
Definition q_addtail_with (grow : Z -> E queue unit) (ptr : A) : E queue unit :=
  let! q := get in
  do! assert_ (0 <? size q) in
  let nextnext := Z.rem (nextwrite q + 1) (size q) in
  try! nextnext :=
    (if nextnext =? nextread q then
       try! _ := grow (size q + 1) in
       let! q := get in
       ok (Z.rem (nextwrite q + 1) (size q))
     else ok nextnext) in
  let! q := get in
  do! of_option (nthZ (data q) (nextwrite q)) in
  do! put (mk_queue (size q) nextnext (nextread q)
             (setZ (data q) (nextwrite q) (Some ptr))) in
  ok tt.

(** [while (nsize < targetsize) { nsize *= 2; assert(nsize > 0); }] *)
Fixpoint grow_size {S} (fuel : nat) (target nsize : Z) : M S Z :=
  if nsize <? target then
    match fuel with
    | O => out_of_fuel
    | S fuel =>
        let! n := int_of (nsize * 2) in
        do! assert_ (0 <? n) in
        grow_size fuel target n
    end
  else ret nsize.

(** [for (i=onr; i!=onw; i = (i+1)%osize)]: at most [osize] rounds. *)
Fixpoint copy_ring (addtail : A -> E queue unit) (fuel : nat)
    (olddata : list (option A)) (osize onw i : Z) : M queue unit :=
  if i =? onw then ret tt
  else
    match fuel with
    | O => out_of_fuel
    | S fuel =>
        let! c := of_option (nthZ olddata i) in
        let! x := of_option c in
        let! r := addtail x in
        do! assert_ (match r with inr _ => true | inl _ => false end) in
        copy_ring addtail fuel olddata osize onw (Z.rem (i + 1) osize)
    end.

(** Body of [q_grow], given the [q_addtail] it calls. *)
Definition q_grow_with (mem : bool) (addtail : A -> E queue unit) (targetsize : Z)
  : E queue unit :=
  let! q := get in
  let olddata := data q in
  let onr := nextread q in
  let onw := nextwrite q in
  let osize := size q in
  let! nsize := grow_size 32 targetsize (size q) in
  if negb mem then fail ENOMEM
  else
    let ncells := u32 (nsize * 4) / 4 in
    do! put (mk_queue nsize 0 0 (replicate (Z.to_nat ncells) None)) in
    do! copy_ring addtail (Z.to_nat osize) olddata osize onw onr in
    ok tt.

(** [q_grow] and [q_addtail] call each other; [depth] bounds the recursion. *)
Fixpoint q_grow_upto (depth : nat) (mem : bool) (targetsize : Z) : E queue unit :=
  match depth with
  | O => out_of_fuel
  | S depth => q_grow_with mem (q_addtail_with (q_grow_upto depth mem)) targetsize
  end.

(** A grown queue has room for what is copied into it: the recursion stops at once. *)
Definition q_grow (mem : bool) (targetsize : Z) : E queue unit := q_grow_upto 1 mem targetsize.
Arguments q_grow : simpl never.
Definition q_addtail (mem : bool) (ptr : A) : E queue unit := q_addtail_with (q_grow mem) ptr.

Definition q_create (m1 m2 : bool) (n : Z) : option queue :=
  if negb m1 then None
  else if negb m2 then None
  else Some (mk_queue n 0 0 (replicate (Z.to_nat (u32 (n * 4) / 4)) None)).

Definition q_preallocate (mem : bool) (n : Z) : E queue unit :=
  let! q := get in
  do! assert_ (0 <? size q) in
  if size q <? n then q_grow mem n else ok tt.

Definition q_remhead : M queue A :=
  let! q := get in
  do! assert_ (0 <? size q) in
  let! e := q_empty in
  do! assert_ (negb e) in
  let! c := of_option (nthZ (data q) (nextread q)) in
  let! x := of_option c in
  do! put (mk_queue (size q) (nextwrite q) (Z.rem (nextread q + 1) (size q)) (data q)) in
  ret x.

Definition q_destroy : M queue unit := let! e := q_empty in assert_ e.

Definition q_getstart : M queue Z := let! q := get in ret (nextread q).
Definition q_getend : M queue Z := let! q := get in ret (nextwrite q).
Definition q_getsize : M queue Z := let! q := get in ret (size q).
Definition q_getguy (index : Z) : M queue (option A) :=
  let! q := get in
  do! assert_ ((0 <=? index) && (index <? size q)) in
  of_option (nthZ (data q) index).

(** ** The list a ring buffer stands for *)

Record model (q : queue) (xs : list A) : Prop := {
  model_size : 0 < size q <= 2 ^ 28;
  model_data : lenZ (data q) = size q;
  model_read : 0 <= nextread q < size q;
  model_write : nextwrite q = (nextread q + lenZ xs) mod size q;
  model_room : lenZ xs < size q;
  model_cells : forall i x, nthZ xs i = Some x ->
    nthZ (data q) ((nextread q + i) mod size q) = Some (Some x);
}.

Definition room (q : queue) : Z := size q - 1 - (nextwrite q - nextread q) mod size q.

(** ** Ring arithmetic *)

Lemma ring_mod r i n : 0 <= r < n -> 0 <= i <= n ->
  (r + i) mod n = if r + i <? n then r + i else r + i - n.
Proof.
  intros Hr Hi. destruct (Z.ltb_spec (r + i) n).
  - apply Z.mod_small. lia.
  - symmetry. apply Z.mod_unique with (q := 1); lia.
Qed.

Lemma rem_mod i n : 0 <= i -> 0 < n -> Z.rem i n = i mod n.
Proof. intros. apply Z.rem_mod_nonneg; lia. Qed.

Lemma next_index r k n : 0 <= r < n -> 0 <= k < n ->
  Z.rem ((r + k) mod n + 1) n = (r + (k + 1)) mod n.
Proof.
  intros. pose proof (Z.mod_pos_bound (r + k) n). rewrite rem_mod by lia.
  rewrite Z.add_mod_idemp_l by lia. f_equal. lia.
Qed.

Lemma lenZ_nil_iff (xs : list A) : lenZ xs = 0 <-> xs = [].
Proof. unfold lenZ. destruct xs; simpl; [done|split; [lia|done]]. Qed.

Lemma empty_correct q xs : model q xs -> q_empty q = Done (bool_decide (length xs = 0%nat)) q.
Proof.
  intros []. unfold q_empty. simpl_m. f_equal. rewrite model_write0.
  pose proof (lenZ_nonneg xs). rewrite ring_mod by lia. unfold lenZ in *.
  case_bool_decide; repeat case_match; lia.
Qed.

Lemma room_model q xs : model q xs -> room q = size q - 1 - lenZ xs.
Proof.
  intros []. unfold room. rewrite model_write0. pose proof (lenZ_nonneg xs).
  rewrite Zminus_mod_idemp_l. rewrite Z.add_simpl_l, Z.mod_small by lia. done.
Qed.

(** Writing at the tail of a ring with a free slot. *)
Lemma model_push q xs x :
  model q xs -> lenZ xs < size q - 1 ->
  model (mk_queue (size q) (Z.rem (nextwrite q + 1) (size q)) (nextread q)
           (setZ (data q) (nextwrite q) (Some x))) (xs ++ [x]).
Proof.
  intros [] Hl. pose proof (lenZ_nonneg xs). split; simpl.
  - done.
  - by rewrite lenZ_setZ.
  - done.
  - rewrite model_write0, next_index, lenZ_app by lia. done.
  - rewrite lenZ_app. change (lenZ [x]) with 1. lia.
  - intros i y Hy. pose proof (nthZ_Some_lt _ _ _ Hy) as Hi. rewrite lenZ_app in Hi.
    change (lenZ [x]) with 1 in Hi. rewrite model_write0.
    destruct (decide (i = lenZ xs)) as [->|Hne].
    + rewrite nthZ_setZ_eq; [|rewrite model_data0, ring_mod by lia; case_match; lia].
      rewrite nthZ_to_nat in Hy by lia. unfold lenZ in Hy. rewrite Nat2Z.id in Hy.
      rewrite lookup_app_r, Nat.sub_diag in Hy by lia. simpl in Hy. congruence.
    + rewrite nthZ_setZ_ne.
      * apply model_cells0. rewrite nthZ_app_l in Hy by lia. done.
      * rewrite !ring_mod by lia. repeat case_match; lia.
Qed.

Lemma addtail_room grow q xs x :
  model q xs -> lenZ xs < size q - 1 ->
  exists q', q_addtail_with grow x q = Done (inr tt) q' /\ model q' (xs ++ [x]) /\ size q' = size q.
Proof.
  intros Hm Hl. eexists. split; [|split; [apply (model_push q xs x Hm Hl)|done]].
  destruct Hm. pose proof (lenZ_nonneg xs). unfold q_addtail_with. simpl_m.
  destruct (Z.ltb_spec 0 (size q)); [|lia].
  destruct (Z.eqb_spec (Z.rem (nextwrite q + 1) (size q)) (nextread q)) as [He|_].
  - rewrite model_write0, next_index, ring_mod in He by lia. case_match; lia.
  - simpl. destruct (nthZ_is_Some (data q) (nextwrite q)) as [c Hc].
    + rewrite model_data0, model_write0, ring_mod by lia. case_match; lia.
    + by rewrite Hc.
Qed.

(** The old elements from the [k]th on, copied one by one. *)
Lemma copy_ring_correct grow q (xs : list A) : model q xs ->
  forall zs ys t fuel, xs = ys ++ zs -> model t ys -> size q < size t ->
  (length zs <= fuel)%nat ->
  exists t', copy_ring (q_addtail_with grow) fuel (data q) (size q) (nextwrite q)
               ((nextread q + lenZ ys) mod size q) t = Done tt t' /\
             model t' xs /\ size t' = size t.
Proof.
  intros Hm. induction zs as [|z zs IH]; intros ys t fuel Hxs Ht Hsz Hf.
  - rewrite app_nil_r in Hxs. subst ys. exists t. rewrite <- (model_write _ _ Hm).
    destruct fuel; simpl; by rewrite Z.eqb_refl.
  - destruct fuel as [|fuel]; simpl in Hf; [lia|]. simpl.
    pose proof (lenZ_nonneg ys). pose proof (lenZ_nonneg zs).
    assert (lenZ xs = lenZ ys + 1 + lenZ zs) as Hlen.
    { rewrite Hxs, lenZ_app. unfold lenZ. simpl. lia. }
    pose proof (model_room _ _ Hm). pose proof (model_read _ _ Hm).
    destruct (Z.eqb_spec ((nextread q + lenZ ys) mod size q) (nextwrite q)) as [He|_].
    { rewrite (model_write _ _ Hm), !ring_mod in He by lia. repeat case_match; lia. }
    assert (nthZ xs (lenZ ys) = Some z) as Hz.
    { rewrite nthZ_to_nat by lia. unfold lenZ. rewrite Nat2Z.id, Hxs.
      rewrite lookup_app_r, Nat.sub_diag by lia. done. }
    unfold bind at 1. rewrite (model_cells _ _ Hm _ _ Hz). simpl.
    unfold bind at 1. simpl. destruct (addtail_room grow t ys z Ht ltac:(lia)) as (t1 & Hrun & Ht1 & Hs1).
    unfold bind at 1. rewrite Hrun. unfold bind at 1. simpl. rewrite next_index by lia.
    destruct (IH (ys ++ [z]) t1 fuel) as (t' & Hrun' & Hm' & Hs'); [by rewrite <- app_assoc|done|lia|lia|].
    rewrite lenZ_app in Hrun'. change (lenZ [z]) with 1 in Hrun'.
    exists t'. split; [exact Hrun'|]. split; [done|lia].
Qed.

Lemma grow_size_spec {S} fuel target n (s : S) :
  0 < n <= 2 ^ 28 -> target <= 2 ^ 27 -> target <= 2 ^ Z.of_nat fuel * n ->
  exists n', grow_size fuel target n s = Done n' s /\ target <= n' /\ n <= n' <= 2 ^ 28 /\
             (n < target -> 2 * n <= n').
Proof.
  revert n. induction fuel as [|f IH]; intros n Hn Ht Hf; simpl;
    destruct (Z.ltb_spec n target) as [Hlt|Hge]; try (exists n; split; [done|lia]).
  - change (2 ^ Z.of_nat 0) with 1 in Hf. lia.
  - replace (Z.of_nat (Datatypes.S f)) with (Z.succ (Z.of_nat f)) in Hf by lia.
    rewrite Z.pow_succ_r in Hf by lia.
    destruct (IH (n * 2)) as (n' & Hrun & H); [lia|lia|lia|].
    exists n'. unfold int_of. rewrite bool_decide_true by lia. unfold bind at 1. simpl.
    unfold bind. destruct (Z.ltb_spec 0 (n * 2)); [|lia]. simpl. split; [done|]. lia.
Qed.

Lemma model_fresh n : 0 < n <= 2 ^ 28 ->
  model (mk_queue n 0 0 (replicate (Z.to_nat (u32 (n * 4) / 4)) None)) [].
Proof.
  intros Hn. rewrite u32_id by (unfold is_u32; lia). rewrite Z.div_mul by done.
  split; simpl; try lia.
  - rewrite lenZ_replicate. lia.
  - by rewrite Z.mod_0_l by lia.
  - change (lenZ (@nil A)) with 0. lia.
  - intros i x Hx. apply nthZ_Some_lt in Hx. change (lenZ (@nil A)) with 0 in Hx. lia.
Qed.

Lemma grow_correct mem target q xs :
  model q xs -> size q < target <= 2 ^ 27 ->
  exists r q', q_grow mem target q = Done r q' /\
  match r with
  | inr _ => model q' xs /\ target <= size q' /\ 2 * size q <= size q'
  | inl e => e = ENOMEM /\ mem = false /\ q' = q
  end.
Proof.
  intros Hm Ht. pose proof (model_size _ _ Hm). pose proof (model_room _ _ Hm).
  pose proof (lenZ_nonneg xs). unfold q_grow. cbn [q_grow_upto]. unfold q_grow_with.
  unfold bind at 1. unfold get at 1.
  destruct (grow_size_spec 32 target (size q) q) as (n & Hrun & Hn & Hn2 & Hn3); [done|lia| |].
  { change (2 ^ Z.of_nat 32) with (2 ^ 32). lia. }
  unfold bind at 1. rewrite Hrun. destruct mem; [|by eexists _, _].
  destruct (copy_ring_correct (q_grow_upto 0 true) q xs Hm xs []
    (mk_queue n 0 0 (replicate (Z.to_nat (u32 (n * 4) / 4)) None)) (Z.to_nat (size q)))
    as (t' & Hrun' & Hm' & Hs'); [done|apply model_fresh; lia|simpl; lia|unfold lenZ in *; lia|].
  change (lenZ (@nil A)) with 0 in Hrun'. rewrite Z.add_0_r, Z.mod_small in Hrun' by apply Hm.
  simpl_m. rewrite Hrun'. eexists _, _. split; [done|]. simpl in Hs'. split; [done|lia].
Qed.

Lemma addtail_correct q xs mem x : model q xs -> lenZ xs < 2 ^ 26 ->
  exists r q', q_addtail mem x q = Done r q' /\
  match r with
  | inr _ => model q' (xs ++ [x])
  | inl e => e = ENOMEM /\ mem = false /\ room q <= 0 /\ q' = q
  end.
Proof.
  intros Hm Hl. pose proof (lenZ_nonneg xs). pose proof (model_room _ _ Hm).
  destruct (Z.lt_ge_cases (lenZ xs) (size q - 1)) as [Hr|Hfull].
  { destruct (addtail_room (q_grow mem) q xs x Hm Hr) as (q' & Hrun & Hm' & _).
    exists (inr tt), q'. split; [done|done]. }
  assert (Z.rem (nextwrite q + 1) (size q) = nextread q) as Hnext.
  { rewrite (model_write _ _ Hm), next_index by (apply Hm || lia). pose proof (model_read _ _ Hm).
    rewrite ring_mod by lia. case_match; lia. }
  destruct (grow_correct mem (size q + 1) q xs Hm ltac:(lia)) as (r & q1 & Hrun & Hr).
  unfold q_addtail, q_addtail_with. simpl_m.
  destruct (Z.ltb_spec 0 (size q)); [|lia]. rewrite Hnext, Z.eqb_refl. simpl.
  rewrite Hrun. destruct r as [e|[]].
  - destruct Hr as (-> & -> & ->). eexists _, _. split; [done|]. split_and!; try done.
    rewrite (room_model _ _ Hm). lia.
  - destruct Hr as (Hm1 & Hs1 & Hs2).
    pose proof (model_push q1 xs x Hm1 ltac:(lia)) as Hp.
    eexists (inr tt), _. split; [|exact Hp]. simpl. destruct Hm1. destruct (nthZ_is_Some (data q1) (nextwrite q1)) as [c Hc]; [|by rewrite Hc].
    rewrite model_data0, model_write0, ring_mod by lia. case_match; lia.
Qed.

Lemma remhead_correct q x xs : model q (x :: xs) ->
  exists q', q_remhead q = Done x q' /\ model q' xs /\ room q' = room q + 1 /\ size q' = size q.
Proof.
  intros Hm. pose proof (empty_correct q _ Hm) as He. rewrite bool_decide_false in He by done.
  assert (lenZ (x :: xs) = lenZ xs + 1) as Hlen by (unfold lenZ; simpl; lia).
  pose proof (lenZ_nonneg xs).
  assert (model (mk_queue (size q) (nextwrite q) (Z.rem (nextread q + 1) (size q)) (data q)) xs) as Hm'.
  { destruct Hm. rewrite rem_mod by lia. pose proof (Z.mod_pos_bound (nextread q + 1) (size q)).
    split; simpl; try done; try lia.
    - rewrite model_write0, Z.add_mod_idemp_l, Hlen by lia. f_equal. lia.
    - intros i y Hy. rewrite Z.add_mod_idemp_l by lia.
      replace (nextread q + 1 + i) with (nextread q + (i + 1)) by lia. apply model_cells0.
      pose proof (nthZ_Some_lt _ _ _ Hy). rewrite nthZ_to_nat in Hy |- * by lia.
      replace (Z.to_nat (i + 1)) with (Datatypes.S (Z.to_nat i)) by lia. done. }
  eexists. split; [|split; [exact Hm'|]].
  - unfold q_remhead, assert_, bind, get, ret, put. pose proof (model_size _ _ Hm).
    destruct (Z.ltb_spec 0 (size q)); [|lia]. cbv beta iota. rewrite He. simpl.
    pose proof (model_cells _ _ Hm 0 x eq_refl) as Hc.
    rewrite Z.add_0_r, Z.mod_small in Hc by apply Hm. by rewrite Hc.
  - rewrite (room_model _ _ Hm), (room_model _ _ Hm'), Hlen. simpl. lia.
Qed.

Lemma q_preallocate_correct q xs mem n : model q xs -> n <= 2 ^ 27 ->
  exists r q', q_preallocate mem n q = Done r q' /\
  match r with
  | inr _ => model q' xs /\ n - 1 - lenZ xs <= room q' /\ room q <= room q'
  | inl e => e = ENOMEM /\ mem = false /\ q' = q
  end.
Proof.
  intros Hm Hn. pose proof (model_size _ _ Hm). pose proof (room_model _ _ Hm) as Hr.
  unfold q_preallocate. simpl_m. destruct (Z.ltb_spec 0 (size q)); [|lia].
  destruct (Z.ltb_spec (size q) n) as [Hlt|Hge].
  - destruct (grow_correct mem n q xs Hm ltac:(lia)) as (r & q' & Hrun & Hr'). exists r, q'.
    split; [done|]. destruct r as [e|u]; [done|]. destruct Hr' as (Hm' & Hs & Hd).
    rewrite (room_model _ _ Hm'). split; [done|lia].
  - exists (inr tt), q. split; [done|]. split; [done|lia].
Qed.

(** The ring buffer implements the queue interface. *)
#[export] Instance ring_queue : FifoQueue queue A := {
  fq_model := model;
  fq_empty := q_empty;
  fq_addtail := q_addtail;
  fq_remhead := q_remhead;
  fq_room := room;
  fq_create := q_create;
  fq_preallocate := q_preallocate;
}.

#[export] Instance ring_queue_laws : FifoLaws ring_queue.
Proof.
  split; simpl.
  - intros q xs. apply empty_correct.
  - intros q xs mem x. apply addtail_correct.
  - intros q x xs Hm. destruct (remhead_correct q x xs Hm) as (q' & ? & ? & ? & _). by exists q'.
  - intros n Hn. eexists. split; [done|]. by apply model_fresh.
  - intros q xs mem n. apply q_preallocate_correct.
Qed.
End queue.
Arguments queue : clear implicits.

(** ** Properties *)

(** A sequence of calls on a queue: add a pointer, or remove the head. *)
Inductive qop (A : Type) : Type := QAdd (x : A) | QRem.
Arguments QAdd {A} x.
Arguments QRem {A}.

(** Runs the calls, every allocation succeeding, and collects what [q_remhead] returned. *)
Fixpoint q_run {A} (ops : list (qop A)) : M (queue A) (list A) :=
  match ops with
  | [] => ret []
  | QAdd x :: ops => do! q_addtail true x in q_run ops
  | QRem :: ops => let! x := q_remhead in let! ys := q_run ops in ret (x :: ys)
  end.

(** The same calls on a list; removing from an empty list has no meaning. *)
Fixpoint list_run {A} (ops : list (qop A)) (xs : list A) : option (list A * list A) :=
  match ops with
  | [] => Some ([], xs)
  | QAdd x :: ops => list_run ops (xs ++ [x])
  | QRem :: ops =>
      match xs with
      | [] => None
      | x :: xs => match list_run ops xs with
                   | Some (ys, zs) => Some (x :: ys, zs)
                   | None => None
                   end
      end
  end.



(** [q_preallocate n] reserves one pointer less than its name says: a queue
    whose [size] is at least [n] takes exactly [size - 1] pointers without
    allocating, so after a successful [q_preallocate n] on a queue of [n] slots the
    [n]th [q_addtail] still needs memory and can fail. *)
Theorem q_preallocate_short_by_one {A} (q : queue A) (xs : list A) (x : A) :
  model q xs -> lenZ xs < 2 ^ 26 ->
  q_preallocate false (size q) q = Done (inr tt) q /\
  (lenZ xs < size q - 1 -> exists q', q_addtail false x q = Done (inr tt) q' /\ model q' (xs ++ [x])) /\
  (lenZ xs = size q - 1 -> q_addtail false x q = Done (inl ENOMEM) q).
Proof.
  intros Hm Hl. pose proof (model_size _ _ Hm). split_and!.
  - unfold q_preallocate. simpl_m. destruct (Z.ltb_spec 0 (size q)); [|lia].
    by destruct (Z.ltb_spec (size q) (size q)); [lia|].
  - intros Hr. destruct (addtail_room (q_grow false) q xs x Hm Hr) as (q' & Hrun & Hm' & _).
    by exists q'.
  - intros Hfull. destruct (grow_correct false (size q + 1) q xs Hm ltac:(lia)) as (r & q1 & Hrun & Hr).
    destruct r as [e|[]]; [destruct Hr as (-> & _ & ->)|].
    + unfold q_addtail, q_addtail_with. simpl_m. destruct (Z.ltb_spec 0 (size q)); [|lia].
      rewrite (model_write _ _ Hm), next_index by (apply Hm || lia). pose proof (model_read _ _ Hm).
      pose proof (lenZ_nonneg xs). rewrite ring_mod by lia.
      destruct (Z.ltb_spec (nextread q + (lenZ xs + 1)) (size q)); [lia|].
      replace (nextread q + (lenZ xs + 1) - size q) with (nextread q) by lia.
      rewrite Z.eqb_refl. simpl. by rewrite Hrun.
    + unfold q_grow in Hrun. cbn [q_grow_upto] in Hrun. unfold q_grow_with, bind, get in Hrun.
      by destruct (grow_size 32 (size q + 1) (size q) q).
Qed.

Lemma q_preallocate_short_by_one_witness :
  q_addtail false 9%nat (mk_queue 2 1 0 [Some 5%nat; None]) =
  Done (inl ENOMEM) (mk_queue 2 1 0 [Some 5%nat; None]).
Proof.
  apply (q_preallocate_short_by_one (mk_queue 2 1 0 [Some 5%nat; None]) [5%nat] 9%nat);
    [|reflexivity|reflexivity].
  split; simpl; try done; try lia. intros i x Hx. pose proof (nthZ_Some_lt _ _ _ Hx) as Hi.
  change (lenZ [5%nat]) with 1 in Hi. assert (i = 0) as -> by lia. injection Hx as <-. reflexivity.
Defined.
