(* ===== verification/Thread.v ===== *)
(** * Threads and the scheduler (kern/thread/thread.c, scheduler.c, spl.c and pcb.c of
    kern/arch/mips; [thread_wakeone] is the one of assignment 1's thread.c).

    A thread pointer is a key of [tcbs]. The machine code of a context switch saves
    where the old thread will go on and goes on where the new one had stopped; here
    what a thread will do next is a value of type [C] kept in its pcb, and every
    function that switches is cut in two: the part up to [md_switch] ([.._out]) and
    the part that runs when the thread is switched back to ([.._in]). The run queue is
    any [FifoQueue]. The answers [kmalloc] will give are a list, yes once it is used
    up. *)

From stdpp Require Import base numbers list gmap.
From Stdlib Require Import ZArith Lia.
From S2P Require Import Prelude Array Queue.

Definition SPL_HIGH : Z := 15.

Inductive threadstate_t : Type := S_RUN | S_READY | S_SLEEP | S_ZOMB.

(** What the thread system calls in the VFS and virtual memory systems. *)
Class ThreadEnv (W : Type) : Type := {
  cwd_incref : Z -> M W unit;
  cwd_decref : Z -> M W unit;
  as_activate : Z -> M W unit;
  as_destroy : Z -> M W unit;
}.

Section thread.
Context {Q C W : Type} `{FifoQueue Q Z} `{ThreadEnv W}.

Record pcb : Type := mk_pcb { pcb_resume : C; pcb_ininterrupt : Z }.

Record thread : Type := mk_thread {
  t_pcb : pcb;
  t_sleepaddr : Z;                   (* 0 is NULL *)
  t_stack : option (list Z);         (* the bytes at its bottom end; None is NULL *)
  t_vmspace : option Z;
  t_cwd : option Z;
}.

Record tsys : Type := mk_tsys {
  curthread : option Z;
  sleepers : option (array Z);
  zombies : option (array Z);
  numthreads : Z;
  runqueue : option Q;
  tcbs : gmap Z thread;
  curspl : Z;
  in_interrupt : Z;
  t_alloc : list bool;
  tworld : W;
}.

Definition set_curthread (c : option Z) (s : tsys) : tsys :=
  mk_tsys c (sleepers s) (zombies s) (numthreads s) (runqueue s) (tcbs s) (curspl s) (in_interrupt s) (t_alloc s) (tworld s).
Definition set_sleepers (a : option (array Z)) (s : tsys) : tsys :=
  mk_tsys (curthread s) a (zombies s) (numthreads s) (runqueue s) (tcbs s) (curspl s) (in_interrupt s) (t_alloc s) (tworld s).
Definition set_zombies (a : option (array Z)) (s : tsys) : tsys :=
  mk_tsys (curthread s) (sleepers s) a (numthreads s) (runqueue s) (tcbs s) (curspl s) (in_interrupt s) (t_alloc s) (tworld s).
Definition set_numthreads (n : Z) (s : tsys) : tsys :=
  mk_tsys (curthread s) (sleepers s) (zombies s) n (runqueue s) (tcbs s) (curspl s) (in_interrupt s) (t_alloc s) (tworld s).
Definition set_runqueue (q : option Q) (s : tsys) : tsys :=
  mk_tsys (curthread s) (sleepers s) (zombies s) (numthreads s) q (tcbs s) (curspl s) (in_interrupt s) (t_alloc s) (tworld s).
Definition set_tcbs (m : gmap Z thread) (s : tsys) : tsys :=
  mk_tsys (curthread s) (sleepers s) (zombies s) (numthreads s) (runqueue s) m (curspl s) (in_interrupt s) (t_alloc s) (tworld s).
Definition set_curspl (n : Z) (s : tsys) : tsys :=
  mk_tsys (curthread s) (sleepers s) (zombies s) (numthreads s) (runqueue s) (tcbs s) n (in_interrupt s) (t_alloc s) (tworld s).
Definition set_in_interrupt (n : Z) (s : tsys) : tsys :=
  mk_tsys (curthread s) (sleepers s) (zombies s) (numthreads s) (runqueue s) (tcbs s) (curspl s) n (t_alloc s) (tworld s).
Definition set_t_alloc (l : list bool) (s : tsys) : tsys :=
  mk_tsys (curthread s) (sleepers s) (zombies s) (numthreads s) (runqueue s) (tcbs s) (curspl s) (in_interrupt s) l (tworld s).
Definition set_tworld (w : W) (s : tsys) : tsys :=
  mk_tsys (curthread s) (sleepers s) (zombies s) (numthreads s) (runqueue s) (tcbs s) (curspl s) (in_interrupt s) (t_alloc s) w.

(** The answer of the next [kmalloc]. *)
Definition kmalloc : M tsys bool :=
  let! s := get in
  match t_alloc s with
  | [] => ret true
  | b :: l => do! put (set_t_alloc l s) in ret b
  end.

Definition in_world {A} (m : M W A) : M tsys A := zoom tworld set_tworld m.

(** An operation on a structure a pointer leads to, which must not be NULL. *)
Definition through {T A} (g : tsys -> option T) (p : option T -> tsys -> tsys) (m : M T A) : M tsys A :=
  fun s =>
    match g s with
    | None => Undef
    | Some t =>
        match m t with
        | Done a t => Done a (p (Some t) s)
        | Panic => Panic
        | Undef => Undef
        | OutOfFuel => OutOfFuel
        end
    end.
Definition on_sleepers {A} (m : M (array Z) A) : M tsys A := through sleepers set_sleepers m.
Definition on_zombies {A} (m : M (array Z) A) : M tsys A := through zombies set_zombies m.
Definition on_runqueue {A} (m : M Q A) : M tsys A := through runqueue set_runqueue m.

Definition get_thread (t : Z) : M tsys thread := let! s := get in of_option (tcbs s !! t).
Definition put_thread (t : Z) (x : thread) : M tsys unit :=
  let! s := get in put (set_tcbs (<[t := x]> (tcbs s)) s).
(** [curthread], dereferenced. *)
Definition the_curthread : M tsys Z := let! s := get in of_option (curthread s).

Definition assert_spl : M tsys unit := let! s := get in assert_ (0 <? curspl s).
Definition assert_ok {A} (r : errno + A) : M tsys unit :=
  assert_ (match r with inr _ => true | inl _ => false end).

(** ** Interrupt levels (spl.c) *)

Definition splx (newspl : Z) : M tsys Z :=
  let! s := get in
  do! put (set_curspl newspl s) in
  ret (curspl s).
Definition splhigh : M tsys Z := splx SPL_HIGH.
Definition spl0 : M tsys Z := splx 0.

(** ** The scheduler (scheduler.c) *)

Definition scheduler_bootstrap (m1 m2 : bool) : M tsys unit :=
  match fq_create m1 m2 32 with
  | None => panic
  | Some q => let! s := get in put (set_runqueue (Some q) s)
  end.

Definition scheduler_preallocate (nthreads : Z) : E tsys unit :=
  do! assert_spl in
  let! m := kmalloc in
  on_runqueue (fq_preallocate m nthreads).

(** [while (!q_empty(runqueue)) q_remhead(runqueue);] *)
Fixpoint drop_all (fuel : nat) : M tsys unit :=
  let! e := on_runqueue fq_empty in
  if e then ret tt
  else match fuel with
       | O => out_of_fuel
       | S fuel => let! _ := on_runqueue fq_remhead in drop_all fuel
       end.
Definition scheduler_killall (fuel : nat) : M tsys unit := do! assert_spl in drop_all fuel.

Definition scheduler_shutdown (fuel : nat) : M tsys unit :=
  do! scheduler_killall fuel in
  do! assert_spl in
  let! e := on_runqueue fq_empty in
  do! assert_ e in                  (* q_destroy *)
  let! s := get in put (set_runqueue None s).

(** [cpu_idle] lets interrupt handlers run; each may wake threads. *)
Fixpoint scheduler_idle (cpu_idle : M tsys unit) (fuel : nat) : M tsys Z :=
  let! e := on_runqueue fq_empty in
  if e then
    match fuel with
    | O => out_of_fuel
    | S fuel => do! cpu_idle in scheduler_idle cpu_idle fuel
    end
  else on_runqueue fq_remhead.
Definition scheduler (cpu_idle : M tsys unit) (fuel : nat) : M tsys Z :=
  do! assert_spl in scheduler_idle cpu_idle fuel.

Definition make_runnable (t : Z) : E tsys unit :=
  do! assert_spl in
  let! m := kmalloc in
  on_runqueue (fq_addtail m t).

(** ** Creating and destroying threads (thread.c) *)

(** The pcb holds what [md_initpcb0] or [md_initpcb] puts there. *)
Definition thread_create (p : pcb) : M tsys (option Z) :=
  let! m := kmalloc in
  if negb m then ret None
  else
    let! m := kmalloc in
    if negb m then ret None
    else
      let! s := get in
      let t := base.fresh (dom (tcbs s)) in
      do! put_thread t (mk_thread p 0 None None None) in
      ret (Some t).

Definition free_thread (t : Z) : M tsys unit :=
  let! s := get in put (set_tcbs (delete t (tcbs s)) s).

Definition thread_destroy (t : Z) : M tsys unit :=
  let! s := get in
  do! assert_ (bool_decide (curthread s <> Some t)) in
  let! x := get_thread t in
  do! assert_ (bool_decide (t_vmspace x = None)) in
  do! assert_ (bool_decide (t_cwd x = None)) in
  free_thread t.

Definition exorcise : M tsys unit :=
  do! assert_spl in
  let! n := on_zombies array_getnum in
  do! iterate (Z.to_nat n) 0 (fun i =>
    let! z := on_zombies (array_getguy i) in
    let! s := get in
    do! assert_ (bool_decide (curthread s <> Some z)) in
    do! thread_destroy z in
    ret (None (A := unit))) in
  let! m := kmalloc in
  let! result := on_zombies (array_setsize m 0) in
  assert_ok result.

Definition thread_killall : M tsys unit :=
  do! assert_spl in
  let! m := kmalloc in
  let! result := on_sleepers (array_setsize m 0) in
  assert_ok result.

Definition thread_panic (fuel : nat) : M tsys unit :=
  do! assert_spl in
  do! thread_killall in
  scheduler_killall fuel.

Definition thread_bootstrap (p : pcb) : M tsys Z :=
  let! m := kmalloc in
  let! a := array_create m in
  match a with
  | None => panic
  | Some a =>
      let! s := get in
      do! put (set_sleepers (Some a) s) in
      let! m := kmalloc in
      let! b := array_create m in
      match b with
      | None => panic
      | Some b =>
          let! s := get in
          do! put (set_zombies (Some b) s) in
          let! me := thread_create p in
          match me with
          | None => panic
          | Some me =>
              let! s := get in
              do! put (set_numthreads 1 (set_curthread (Some me) s)) in
              ret me
          end
      end
  end.

Definition thread_shutdown : M tsys unit :=
  let! s := get in put (set_zombies None (set_sleepers None s)).

(** The magic number at the bottom end of a stack. *)
Definition stack_magic : list Z := [0xae; 0x11; 0xda; 0x33].

(** The labelled end of [thread_fork]. *)
Definition fork_fail (s_old : Z) (newguy : Z) (e : errno) : E tsys Z :=
  do! splx s_old in
  let! x := get_thread newguy in
  do! (match t_cwd x with Some v => in_world (cwd_decref v) | None => ret tt end) in
  do! free_thread newguy in
  fail e.

(** [start] is the code at [mi_threadstart(data1, data2, func)]. *)
Definition thread_fork (start : C) : E tsys Z :=
  let! newguy := thread_create (mk_pcb start 0) in
  match newguy with
  | None => fail ENOMEM
  | Some newguy =>
      let! m := kmalloc in
      if negb m then do! free_thread newguy in fail ENOMEM
      else
        let! cur := the_curthread in
        let! c := get_thread cur in
        do! (match t_cwd c with Some v => in_world (cwd_incref v) | None => ret tt end) in
        do! put_thread newguy (mk_thread (mk_pcb start 0) 0 (Some stack_magic) None (t_cwd c)) in
        let! spl := splhigh in
        let! s := get in
        let! n := int_of (numthreads s + 1) in
        let! m := kmalloc in
        let! r1 := on_sleepers (array_preallocate m n) in
        match r1 with
        | inl e => fork_fail spl newguy e
        | inr _ =>
            let! m := kmalloc in
            let! r2 := on_zombies (array_preallocate m n) in
            match r2 with
            | inl e => fork_fail spl newguy e
            | inr _ =>
                let! r3 := scheduler_preallocate n in
                match r3 with
                | inl e => fork_fail spl newguy e
                | inr _ =>
                    let! r4 := make_runnable newguy in
                    match r4 with
                    | inl e => fork_fail spl newguy e
                    | inr _ =>
                        let! s := get in
                        do! put (set_numthreads n s) in
                        do! splx spl in
                        ok newguy
                    end
                end
            end
        end
  end.

(** ** Switching *)

(** [md_switch(&cur->t_pcb, &next->t_pcb)]: [k] is where [cur] will go on. *)
Definition md_switch (cur next : Z) (k : C) : M tsys unit :=
  let! x := get_thread cur in
  let! s := get in
  do! put_thread cur (mk_thread (mk_pcb k (in_interrupt s)) (t_sleepaddr x) (t_stack x) (t_vmspace x) (t_cwd x)) in
  if bool_decide (cur = next) then ret tt
  else
    let! y := get_thread next in
    let! s := get in
    put (set_in_interrupt (pcb_ininterrupt (t_pcb y)) s).

(** The stack check of [mi_switch] and [thread_exit]. *)
Definition check_stack (x : thread) : M tsys unit :=
  match t_stack x with
  | Some b => assert_ (bool_decide (b = stack_magic))
  | None => ret tt
  end.

(** [mi_switch] up to the switch; it returns at once, [false], when there is no
    current thread. *)
Definition mi_switch_out (cpu_idle : M tsys unit) (fuel : nat) (nextstate : threadstate_t) (k : C) : M tsys bool :=
  do! assert_spl in
  let! s := get in
  match curthread s with
  | None => ret false
  | Some cur =>
      let! x := get_thread cur in
      do! check_stack x in
      let! s := get in
      do! put (set_curthread None s) in
      let! result :=
        (match nextstate with
         | S_READY => make_runnable cur
         | S_SLEEP => let! m := kmalloc in on_sleepers (array_add m cur)
         | S_ZOMB => let! m := kmalloc in on_zombies (array_add m cur)
         | S_RUN => panic
         end) in
      do! assert_ok result in
      let! next := scheduler cpu_idle fuel in
      let! s := get in
      do! put (set_curthread (Some next) s) in
      do! md_switch cur next k in
      ret true
  end.

Definition activate_current : M tsys unit :=
  let! cur := the_curthread in
  let! x := get_thread cur in
  match t_vmspace x with Some a => in_world (as_activate a) | None => ret tt end.

Definition mi_switch_in : M tsys unit := do! exorcise in activate_current.

(** Never comes back: the panic after the switch is for a thread that does. *)
Definition thread_exit_out (cpu_idle : M tsys unit) (fuel : nat) (dead : C) : M tsys bool :=
  let! cur := the_curthread in
  let! x := get_thread cur in
  do! check_stack x in
  do! splhigh in
  do! (match t_vmspace x with
       | Some a =>
           do! put_thread cur (mk_thread (t_pcb x) (t_sleepaddr x) (t_stack x) None (t_cwd x)) in
           in_world (as_destroy a)
       | None => ret tt
       end) in
  let! x := get_thread cur in
  do! (match t_cwd x with
       | Some v =>
           do! in_world (cwd_decref v) in
           put_thread cur (mk_thread (t_pcb x) (t_sleepaddr x) (t_stack x) (t_vmspace x) None)
       | None => ret tt
       end) in
  let! s := get in
  do! assert_ (0 <? numthreads s) in
  let! s := get in
  do! put (set_numthreads (numthreads s - 1) s) in
  mi_switch_out cpu_idle fuel S_ZOMB dead.

(** [k spl] goes on with [thread_yield_in spl]. *)
Definition thread_yield_out (cpu_idle : M tsys unit) (fuel : nat) (k : Z -> C) : M tsys (bool * Z) :=
  let! spl := splhigh in
  let! s := get in
  do! assert_ (bool_decide (is_Some (sleepers s))) in
  let! b := mi_switch_out cpu_idle fuel S_READY (k spl) in
  ret (b, spl).
Definition thread_yield_in (spl : Z) : M tsys unit :=
  do! mi_switch_in in do! splx spl in ret tt.

Definition set_sleepaddr (addr : Z) : M tsys unit :=
  let! cur := the_curthread in
  let! x := get_thread cur in
  put_thread cur (mk_thread (t_pcb x) addr (t_stack x) (t_vmspace x) (t_cwd x)).

Definition thread_sleep_out (cpu_idle : M tsys unit) (fuel : nat) (addr : Z) (k : C) : M tsys bool :=
  let! s := get in
  do! assert_ (in_interrupt s =? 0) in
  do! set_sleepaddr addr in
  mi_switch_out cpu_idle fuel S_SLEEP k.
Definition thread_sleep_in : M tsys unit := do! mi_switch_in in set_sleepaddr 0.

(** The loop of [thread_wakeup]: after a removal the same index is looked at again. *)
Fixpoint wakeup_from (fuel : nat) (addr i : Z) : M tsys unit :=
  let! n := on_sleepers array_getnum in
  if i <? n then
    match fuel with
    | O => out_of_fuel
    | S fuel =>
        let! t := on_sleepers (array_getguy i) in
        let! x := get_thread t in
        if t_sleepaddr x =? addr then
          do! on_sleepers (array_remove i) in
          let! result := make_runnable t in
          do! assert_ok result in
          wakeup_from fuel addr i
        else wakeup_from fuel addr (i + 1)
    end
  else ret tt.

(** Every round removes a sleeper or leaves one behind. *)
Definition thread_wakeup (addr : Z) : M tsys unit :=
  do! assert_spl in
  let! n := on_sleepers array_getnum in
  wakeup_from (Z.to_nat n) addr 0.

Definition thread_wakeone (addr : Z) : M tsys unit :=
  do! assert_spl in
  let! n := on_sleepers array_getnum in
  let! r := iterate (Z.to_nat n) 0 (fun i =>
    let! t := on_sleepers (array_getguy i) in
    let! x := get_thread t in
    if t_sleepaddr x =? addr then
      do! on_sleepers (array_remove i) in
      let! result := make_runnable t in
      do! assert_ok result in
      ret (Some tt)
    else ret None) in
  ret tt.

Definition thread_hassleepers (addr : Z) : M tsys bool :=
  do! assert_spl in
  let! n := on_sleepers array_getnum in
  let! r := iterate (Z.to_nat n) 0 (fun i =>
    let! t := on_sleepers (array_getguy i) in
    let! x := get_thread t in
    ret (if t_sleepaddr x =? addr then Some tt else None)) in
  ret (bool_decide (is_Some r)).

(** [mi_threadstart] up to the call of the thread's function. *)
Definition mi_threadstart_in : M tsys unit :=
  do! activate_current in
  do! spl0 in
  ret tt.
End thread.
Arguments pcb : clear implicits.
Arguments thread : clear implicits.
Arguments tsys : clear implicits.
