(* ===== verification/ThreadSpec.v ===== *)
(** * What the thread system promises.

    An abstract thread system [places] says where each thread is: current, ready, in
    order, asleep, or dead. [refines] relates it to the arrays and the run queue of
    Thread.v; each operation of thread.c and scheduler.c is proved to act on the
    places as it should, as far as it returns (an allocation that fails where the code
    counts on preallocated room is a failed assertion). *)

From stdpp Require Import base numbers list gmap.
From Stdlib Require Import ZArith Lia.
From S2P Require Import Prelude Array Queue Thread.

Section spec.
Context {Q C W : Type} {F : FifoQueue Q Z} {L : FifoLaws F} {Env : ThreadEnv W}.
Notation tsys := (tsys Q C W).
Notation thread := (thread C).

Record places : Type := mk_places {
  cur : option Z;
  ready : list Z;
  asleep : list Z;
  dead : list Z;
  tcb : gmap Z thread;
  count : Z;
  spl : Z;
  intr : Z;
}.

(** No more threads than the arrays and the queue are proved for. *)
Definition max_threads : Z := 2 ^ 20.

Record refines (s : tsys) (v : places) : Prop := {
  rf_cur : curthread s = cur v;
  rf_ready : exists q, runqueue s = Some q /\ fq_model q (ready v);
  rf_asleep : exists a, sleepers s = Some a /\ repr a (Some <$> asleep v);
  rf_dead : exists a, zombies s = Some a /\ repr a (Some <$> dead v);
  rf_tcb : tcbs s = tcb v;
  rf_count : numthreads s = count v;
  rf_spl : curspl s = spl v;
  rf_intr : in_interrupt s = intr v;
}.

Definition with_cur (c : option Z) (v : places) : places :=
  mk_places c (ready v) (asleep v) (dead v) (tcb v) (count v) (spl v) (intr v).
Definition with_ready (l : list Z) (v : places) : places :=
  mk_places (cur v) l (asleep v) (dead v) (tcb v) (count v) (spl v) (intr v).
Definition with_asleep (l : list Z) (v : places) : places :=
  mk_places (cur v) (ready v) l (dead v) (tcb v) (count v) (spl v) (intr v).
Definition with_dead (l : list Z) (v : places) : places :=
  mk_places (cur v) (ready v) (asleep v) l (tcb v) (count v) (spl v) (intr v).
Definition with_tcb (m : gmap Z thread) (v : places) : places :=
  mk_places (cur v) (ready v) (asleep v) (dead v) m (count v) (spl v) (intr v).
Definition with_count (n : Z) (v : places) : places :=
  mk_places (cur v) (ready v) (asleep v) (dead v) (tcb v) n (spl v) (intr v).
Definition with_spl (n : Z) (v : places) : places :=
  mk_places (cur v) (ready v) (asleep v) (dead v) (tcb v) (count v) n (intr v).
Definition with_intr (n : Z) (v : places) : places :=
  mk_places (cur v) (ready v) (asleep v) (dead v) (tcb v) (count v) (spl v) n.

(** ** The primitive operations *)

(** [m] returns, and takes [v] to [v']. *)
Definition takes {A} (m : M tsys A) (v : places) (Qv : A -> places -> Prop) : Prop :=
  forall s, refines s v -> wlp m (fun a s' => exists v', refines s' v' /\ Qv a v') s.

Lemma takes_ret {A} (a : A) v (Qv : A -> places -> Prop) : Qv a v -> takes (ret a) v Qv.
Proof. intros Hq s Hr. apply wlp_ret. by exists v. Qed.

Lemma takes_bind {A B} (m : M tsys A) (f : A -> M tsys B) v (Qa : A -> places -> Prop) (Qv : B -> places -> Prop) :
  takes m v Qa -> (forall a v', Qa a v' -> takes (f a) v' Qv) -> takes (bind m f) v Qv.
Proof.
  intros Hm Hf s Hr. apply wlp_bind. eapply wlp_mono; [by apply Hm|].
  intros a s' (v' & Hr' & Hq). by apply (Hf a v').
Qed.

Lemma takes_mono {A} (m : M tsys A) v (Q1 Q2 : A -> places -> Prop) :
  takes m v Q1 -> (forall a v', Q1 a v' -> Q2 a v') -> takes m v Q2.
Proof.
  intros Hm Hi s Hr. eapply wlp_mono; [by apply Hm|]. intros a s' (v' & Hr' & Hq). exists v'. auto.
Qed.

(** Reading the state: what the client sees of it is what [refines] says. *)
Lemma takes_get {B} (f : tsys -> M tsys B) v (Qv : B -> places -> Prop) :
  (forall s, refines s v -> takes (f s) v Qv) -> takes (bind get f) v Qv.
Proof. intros Hf s Hr. apply wlp_bind, wlp_get. by apply Hf. Qed.

Lemma takes_assert b v (Qv : unit -> places -> Prop) : (b = true -> Qv tt v) -> takes (assert_ b) v Qv.
Proof. intros Hq s Hr. apply wlp_assert. intros Hb. exists v. auto. Qed.

Lemma takes_of_option {A} (o : option A) v (Qv : A -> places -> Prop) :
  (forall a, o = Some a -> Qv a v) -> takes (of_option o) v Qv.
Proof. intros Hq s Hr. apply wlp_of_option. intros a Ha. exists v. auto. Qed.

Lemma takes_int_of n v (Qv : Z -> places -> Prop) : Qv n v -> takes (int_of n) v Qv.
Proof. intros Hq s Hr. apply wlp_int_of. intros _. by exists v. Qed.

Lemma takes_panic {A} v (Qv : A -> places -> Prop) : takes panic v Qv.
Proof. intros s Hr. apply wlp_panic. Qed.

Lemma takes_out_of_fuel {A} v (Qv : A -> places -> Prop) : takes out_of_fuel v Qv.
Proof. intros s Hr a s'. done. Qed.

Lemma takes_kmalloc v (Qv : bool -> places -> Prop) : (forall b, Qv b v) -> takes kmalloc v Qv.
Proof.
  intros Hq s Hr. apply wlp_bind, wlp_get. destruct (t_alloc s) as [|b l].
  - apply wlp_ret. by exists v.
  - apply wlp_bind, wlp_put, wlp_ret. exists v. split; [|done]. destruct Hr. by split.
Qed.

Lemma takes_in_world {A} (m : M W A) v : takes (in_world m) v (fun _ v' => v' = v).
Proof. intros s Hr. apply wlp_zoom. intros a w _. exists v. split; [|done]. destruct Hr. by split. Qed.

Lemma takes_splx n v : takes (splx n) v (fun old v' => old = spl v /\ v' = with_spl n v).
Proof.
  intros s Hr. apply wlp_bind, wlp_get, wlp_bind, wlp_put, wlp_ret. exists (with_spl n v).
  destruct Hr. split; [by split|done].
Qed.

Lemma takes_assert_spl v : takes assert_spl v (fun _ v' => v' = v /\ 0 < spl v).
Proof.
  intros s Hr. apply wlp_bind, wlp_get, wlp_assert. rewrite (rf_spl _ _ Hr). intros Hp. exists v. split; [done|].
  split; [done|lia].
Qed.

Lemma takes_assert_ok {A} (r : errno + A) v : takes (assert_ok r) v (fun _ v' => v' = v /\ exists a, r = inr a).
Proof. apply takes_assert. destruct r; [done|]. intros _. split; [done|by eexists]. Qed.

Lemma takes_get_thread t v : takes (get_thread t) v (fun x v' => v' = v /\ tcb v !! t = Some x).
Proof.
  apply takes_get. intros s Hr. apply takes_of_option. intros x Hx. by rewrite (rf_tcb _ _ Hr) in Hx.
Qed.

Lemma takes_put_thread t x v : takes (put_thread t x) v (fun _ v' => v' = with_tcb (<[t := x]> (tcb v)) v).
Proof.
  intros s Hr. apply wlp_bind, wlp_get, wlp_put. eexists. split; [|done].
  destruct Hr. split; simpl; try done. by f_equal.
Qed.

Lemma takes_free_thread t v : takes (free_thread t) v (fun _ v' => v' = with_tcb (delete t (tcb v)) v).
Proof.
  intros s Hr. apply wlp_bind, wlp_get, wlp_put. eexists. split; [|done].
  destruct Hr. split; simpl; try done. by f_equal.
Qed.

Lemma takes_the_curthread v : takes the_curthread v (fun t v' => v' = v /\ cur v = Some t).
Proof.
  apply takes_get. intros s Hr. apply takes_of_option. intros t Ht. by rewrite (rf_cur _ _ Hr) in Ht.
Qed.

(** ** Arrays and queue as lists *)

Lemma wlp_through {T A} (g : tsys -> option T) p (m : M T A) (Qs : A -> tsys -> Prop) s :
  (forall t, g s = Some t -> wlp m (fun a t' => Qs a (p (Some t') s)) t) -> wlp (through g p m) Qs s.
Proof.
  intros Hm a s'. unfold through. destruct (g s) as [t|] eqn:Hg; [|done].
  destruct (m t) as [a' t'| | |] eqn:He; try done. intros [= <- <-]. by apply (Hm t eq_refl).
Qed.

Lemma takes_num_asleep v : takes (on_sleepers array_getnum) v (fun n v' => n = lenZ (asleep v) /\ v' = v).
Proof.
  intros s Hr. destruct (rf_asleep _ _ Hr) as (a & Ha & Hrep). apply wlp_through. intros a' Ha' r a1 Hrun.
  rewrite Ha in Ha'. injection Ha' as <-. unfold array_getnum, bind, get, ret in Hrun. injection Hrun as <- <-.
  exists v. split; [destruct Hr; split; try done; by exists a|].
  split; [|done]. rewrite (repr_num _ _ Hrep). unfold lenZ. by rewrite length_fmap.
Qed.

Lemma takes_num_dead v : takes (on_zombies array_getnum) v (fun n v' => n = lenZ (dead v) /\ v' = v).
Proof.
  intros s Hr. destruct (rf_dead _ _ Hr) as (a & Ha & Hrep). apply wlp_through. intros a' Ha' r a1 Hrun.
  rewrite Ha in Ha'. injection Ha' as <-. unfold array_getnum, bind, get, ret in Hrun. injection Hrun as <- <-.
  exists v. split; [destruct Hr; split; try done; by exists a|].
  split; [|done]. rewrite (repr_num _ _ Hrep). unfold lenZ. by rewrite length_fmap.
Qed.

(** Array operations on the list of sleepers, given what they do to the array. *)
Lemma takes_sleepers {A} (m : M (array Z) A) v (Ql : A -> list Z -> Prop) :
  (forall a, repr a (Some <$> asleep v) -> wlp m (fun r a' => exists l, repr a' (Some <$> l) /\ Ql r l) a) ->
  takes (on_sleepers m) v (fun r v' => exists l, v' = with_asleep l v /\ Ql r l).
Proof.
  intros Hm s Hr. destruct (rf_asleep _ _ Hr) as (a & Ha & Hrep). apply wlp_through. intros a1 Ha1.
  rewrite Ha in Ha1. injection Ha1 as <-. eapply wlp_mono; [by apply Hm|]. intros r a' (l & Hl & Hq).
  exists (with_asleep l v). split; [|by exists l]. destruct Hr. split; try done. by exists a'.
Qed.

Lemma takes_zombies {A} (m : M (array Z) A) v (Ql : A -> list Z -> Prop) :
  (forall a, repr a (Some <$> dead v) -> wlp m (fun r a' => exists l, repr a' (Some <$> l) /\ Ql r l) a) ->
  takes (on_zombies m) v (fun r v' => exists l, v' = with_dead l v /\ Ql r l).
Proof.
  intros Hm s Hr. destruct (rf_dead _ _ Hr) as (a & Ha & Hrep). apply wlp_through. intros a1 Ha1.
  rewrite Ha in Ha1. injection Ha1 as <-. eapply wlp_mono; [by apply Hm|]. intros r a' (l & Hl & Hq).
  exists (with_dead l v). split; [|by exists l]. destruct Hr. split; try done. by exists a'.
Qed.

Lemma array_get_list (a : array Z) l i :
  repr a (Some <$> l) -> wlp (array_getguy i) (fun t a' => a' = a /\ nthZ l i = Some t) a.
Proof.
  intros Hr. unfold array_getguy. wlp_steps. intros _. wlp_steps. intros Hi. wlp_steps. intros c Hc.
  wlp_steps. intros t ->. split; [done|].
  rewrite (repr_lookup _ _ _ Hr) in Hc by lia. pose proof (nthZ_Some_lt _ _ _ Hc).
  rewrite nthZ_to_nat in Hc by lia. rewrite nthZ_to_nat by lia. rewrite list_lookup_fmap in Hc.
  destruct (l !! Z.to_nat i); naive_solver.
Qed.

Lemma array_remove_list (a : array Z) l i :
  repr a (Some <$> l) -> 0 <= i < lenZ l ->
  wlp (array_remove i) (fun _ a' => repr a' (Some <$> delete (Z.to_nat i) l)) a.
Proof.
  intros Hr Hi. apply wlp_of_wp. eapply wp_mono.
  - apply (remove_correct a _ i Hr). rewrite (repr_num _ _ Hr). unfold lenZ in *. by rewrite length_fmap.
  - intros _ a' [Hr' _]. by rewrite list_fmap_delete.
Qed.

Lemma array_add_list (a : array Z) l m t :
  repr a (Some <$> l) -> lenZ l < max_threads ->
  wlp (array_add m t) (fun r a' => match r with
                                   | inl _ => repr a' (Some <$> l)
                                   | inr _ => repr a' (Some <$> (l ++ [t]))
                                   end) a.
Proof.
  intros Hr Hl. apply wlp_of_wp. eapply wp_mono.
  - apply (add_correct a _ m t Hr). rewrite (repr_num _ _ Hr). unfold max_threads, max_guys, lenZ in *.
    rewrite length_fmap. lia.
  - intros [e|u] a'; [by intros (_ & _ & _ & ->)|]. intros [Hr' _]. by rewrite fmap_app.
Qed.

Lemma array_empty_list (a : array Z) l m :
  repr a (Some <$> l) ->
  wlp (array_setsize m 0) (fun r a' => match r with
                                       | inl _ => repr a' (Some <$> l)
                                       | inr _ => repr a' (Some <$> @nil Z)
                                       end) a.
Proof.
  intros Hr. apply wlp_of_wp. eapply wp_mono; [apply (setsize_correct a _ m 0 Hr); unfold max_guys; lia|].
  intros [e|u] a'; [by intros (_ & _ & _ & ->)|]. intros [(cs & [Hl _] & Hr') _].
  destruct cs; [done|]. unfold lenZ in Hl. simpl in Hl. lia.
Qed.

Lemma array_prealloc_list (a : array Z) l m n :
  repr a (Some <$> l) -> n <= max_threads ->
  wlp (array_preallocate m n) (fun _ a' => repr a' (Some <$> l)) a.
Proof.
  intros Hr Hn. apply wlp_of_wp. eapply wp_mono.
  - apply (preallocate_correct a _ m n Hr). unfold max_threads, max_guys in *. lia.
  - intros [e|u] a'; [by intros (_ & _ & ->)|]. by intros (_ & Hr' & _).
Qed.

Lemma takes_make_runnable t v :
  lenZ (ready v) < max_threads ->
  takes (make_runnable t) v (fun r v' => match r with
                                         | inl _ => v' = v
                                         | inr _ => v' = with_ready (ready v ++ [t]) v
                                         end).
Proof.
  intros Hl. unfold make_runnable. eapply takes_bind; [apply takes_assert_spl|]. intros _ v' [-> _].
  eapply takes_bind; [apply takes_kmalloc with (Qv := fun _ v' => v' = v); done|]. intros m v' ->.
  intros s Hr. destruct (rf_ready _ _ Hr) as (q & Hq & Hm). apply wlp_through. intros q1 Hq1.
  rewrite Hq in Hq1. injection Hq1 as <-. intros r q' Hrun.
  destruct (fq_addtail_law q (ready v) m t Hm) as (r1 & q1 & Hrun1 & Hr1); [unfold max_threads in *; lia|].
  rewrite Hrun in Hrun1. injection Hrun1 as <- <-. destruct r as [e|u].
  - exists v. split; [|done]. destruct Hr1 as (_ & _ & _ & ->). destruct Hr. split; try done. by exists q.
  - eexists. split; [|done]. destruct Hr. split; try done. by exists q'.
Qed.

Lemma takes_remhead v :
  takes (on_runqueue fq_remhead) v (fun t v' => exists l, ready v = t :: l /\ v' = with_ready l v) \/ ready v = [].
Proof.
  destruct (ready v) as [|t l] eqn:Hl; [by right|]. left. intros s Hr.
  destruct (rf_ready _ _ Hr) as (q & Hq & Hm). rewrite Hl in Hm. apply wlp_through. intros q1 Hq1.
  rewrite Hq in Hq1. injection Hq1 as <-. intros r q' Hrun.
  destruct (fq_remhead_law q t l Hm) as (q1 & Hrun1 & Hm' & _). rewrite Hrun in Hrun1. injection Hrun1 as <- <-.
  exists (with_ready l v). split; [|by exists l]. destruct Hr. split; try done. by exists q'.
Qed.

Lemma takes_q_empty v :
  takes (on_runqueue fq_empty) v (fun b v' => v' = v /\ (b = true <-> ready v = [])).
Proof.
  intros s Hr. destruct (rf_ready _ _ Hr) as (q & Hq & Hm). apply wlp_through. intros q1 Hq1.
  rewrite Hq in Hq1. injection Hq1 as <-. intros b q' Hrun. rewrite (fq_empty_law q _ Hm) in Hrun.
  injection Hrun as <- <-. exists v. split; [destruct Hr; split; try done; by exists q|].
  split; [done|]. rewrite bool_decide_eq_true. destruct (ready v); simpl; [done|]. split; [lia|done].
Qed.

(** ** Waking *)

Definition sleepaddr (v : places) (t : Z) : option Z := t_sleepaddr <$> tcb v !! t.

(** [t] sleeps on [addr], when it sleeps. *)
Definition on_addr (addr : Z) (v : places) (t : Z) : Prop := sleepaddr v t = Some addr.

#[export] Instance on_addr_dec addr v t : Decision (on_addr addr v t).
Proof. unfold on_addr. apply _. Defined.

(** Every thread there is. *)
Definition everyone (v : places) : list Z := option_list (cur v) ++ ready v ++ asleep v ++ dead v.
Definition crowd (v : places) : Z := lenZ (everyone v).

Lemma crowd_eq v :
  crowd v = lenZ (option_list (cur v)) + lenZ (ready v) + lenZ (asleep v) + lenZ (dead v).
Proof. unfold crowd, everyone. rewrite !lenZ_app. lia. Qed.

Lemma crowd_bounds v :
  lenZ (ready v) <= crowd v /\ lenZ (asleep v) <= crowd v /\ lenZ (dead v) <= crowd v.
Proof.
  rewrite crowd_eq. pose proof (lenZ_nonneg (option_list (cur v))). pose proof (lenZ_nonneg (ready v)).
  pose proof (lenZ_nonneg (asleep v)). pose proof (lenZ_nonneg (dead v)). lia.
Qed.

(** Some sleepers became ready, behind those that were. *)
Definition woken (v v' : places) : Prop :=
  exists w, asleep v ≡ₚ w ++ asleep v' /\ v' = with_asleep (asleep v') (with_ready (ready v ++ w) v).

Lemma woken_refl v : woken v v.
Proof. exists []. split; [done|]. rewrite app_nil_r. by destruct v. Qed.

Lemma woken_trans v1 v2 v3 : woken v1 v2 -> woken v2 v3 -> woken v1 v3.
Proof.
  intros (w1 & P1 & E1) (w2 & P2 & E2). exists (w1 ++ w2). split.
  - by rewrite P1, P2, app_assoc.
  - rewrite E2. rewrite E1. simpl. unfold with_asleep, with_ready. simpl. by rewrite app_assoc.
Qed.

Lemma woken_everyone v v' : woken v v' -> everyone v' ≡ₚ everyone v.
Proof.
  intros (w & Hp & ->). unfold everyone. simpl in *. rewrite <- !app_assoc. by rewrite (app_assoc w), <- Hp.
Qed.

Lemma woken_same v v' : woken v v' ->
  cur v' = cur v /\ dead v' = dead v /\ tcb v' = tcb v /\ count v' = count v /\ spl v' = spl v /\ intr v' = intr v.
Proof. by intros (w & _ & ->). Qed.

(** The sleepers on [addr] wake up, in order. *)
Definition wakeup (addr : Z) (v : places) : places :=
  with_asleep (filter (fun t => ~ on_addr addr v t) (asleep v))
    (with_ready (ready v ++ filter (on_addr addr v) (asleep v)) v).

Lemma filter_split {A} (P : A -> Prop) `{forall x, Decision (P x)} l :
  l ≡ₚ filter P l ++ filter (fun x => ~ P x) l.
Proof.
  induction l as [|x l IH]; [done|]. destruct (decide (P x)).
  - rewrite filter_cons_True, (filter_cons_False (fun x => ~ P x)) by tauto. simpl. by constructor.
  - rewrite filter_cons_False, (filter_cons_True (fun x => ~ P x)) by tauto.
    rewrite <- Permutation_middle. by constructor.
Qed.

Lemma wakeup_woken addr v : woken v (wakeup addr v).
Proof. exists (filter (on_addr addr v) (asleep v)). split; [apply filter_split|done]. Qed.

Lemma takes_wakeup_from fuel addr i v :
  0 <= i -> crowd v < max_threads ->
  takes (wakeup_from fuel addr i) v (fun _ v' =>
    v' = with_asleep (take (Z.to_nat i) (asleep v) ++ filter (fun t => ~ on_addr addr v t) (drop (Z.to_nat i) (asleep v)))
           (with_ready (ready v ++ filter (on_addr addr v) (drop (Z.to_nat i) (asleep v))) v)).
Proof.
  revert i v. induction fuel as [|fuel IH]; intros i v Hi Hc; simpl.
  - eapply takes_bind; [apply takes_num_asleep|]. intros n v' [-> ->].
    destruct (Z.ltb_spec i (lenZ (asleep v))); [apply takes_out_of_fuel|].
    apply takes_ret. rewrite take_ge, drop_ge by (unfold lenZ in *; lia).
    simpl. rewrite !app_nil_r. by destruct v.
  - eapply takes_bind; [apply takes_num_asleep|]. intros n v' [-> ->].
    destruct (Z.ltb_spec i (lenZ (asleep v))) as [Hlt|Hge].
    2:{ apply takes_ret. rewrite take_ge, drop_ge by (unfold lenZ in *; lia). simpl.
        rewrite !app_nil_r. by destruct v. }
    eapply takes_bind; [apply (takes_sleepers (array_getguy i) v (fun t l => l = asleep v /\ nthZ (asleep v) i = Some t))|].
    { intros a Hr. eapply wlp_mono; [by apply array_get_list|]. intros t a' [-> Ht]. by exists (asleep v). }
    intros t v' (l & -> & -> & Ht). rewrite nthZ_to_nat in Ht by done.
    assert (with_asleep (asleep v) v = v) as -> by (by destruct v).
    eapply takes_bind; [apply takes_get_thread|]. intros x v' [-> Hx].
    assert (drop (Z.to_nat i) (asleep v) = t :: drop (S (Z.to_nat i)) (asleep v)) as Hd by (by apply drop_S).
    destruct (Z.eqb_spec (t_sleepaddr x) addr) as [Ha|Ha].
    + assert (on_addr addr v t) as Hon by (unfold on_addr, sleepaddr; rewrite Hx; simpl; congruence).
      eapply takes_bind; [apply (takes_sleepers (array_remove i) v (fun _ l => l = delete (Z.to_nat i) (asleep v)))|].
      { intros a Hr. eapply wlp_mono; [by apply array_remove_list|]. intros u a' Hr'. eexists. split; [exact Hr'|done]. }
      intros _ v' (l & -> & ->). set (l := delete (Z.to_nat i) (asleep v)).
      pose proof (crowd_bounds v) as Hb.
      eapply takes_bind; [apply takes_make_runnable; simpl; lia|]. intros r v' Hr.
      eapply takes_bind; [apply takes_assert_ok|]. intros _ v'' [-> [u ->]]. simpl in Hr. subst v'.
      eapply takes_mono; [apply IH; [done|]|].
      * unfold crowd, everyone in *. rewrite !lenZ_app in *. simpl. rewrite !lenZ_app.
        unfold l. rewrite delete_take_drop, lenZ_app.
        rewrite <- (take_drop (Z.to_nat i) (asleep v)), Hd, lenZ_app in Hc. unfold lenZ in *. simpl in *. lia.
      * intros _ v' ->. simpl. unfold with_asleep, with_ready, on_addr, sleepaddr. simpl.
        rewrite Hd. unfold l. rewrite delete_take_drop.
        assert (length (take (Z.to_nat i) (asleep v)) = Z.to_nat i) as Hlen
          by (rewrite length_take; unfold lenZ in *; lia).
        rewrite take_app_length', drop_app_length' by done.
        rewrite filter_cons_True by done. rewrite filter_cons_False by tauto.
        by rewrite <- app_assoc.
    + assert (~ on_addr addr v t) as Hon by (unfold on_addr, sleepaddr; rewrite Hx; simpl; congruence).
      eapply takes_mono; [apply IH; [lia|done]|]. intros _ v' ->. rewrite Hd.
      rewrite filter_cons_True by done. rewrite filter_cons_False by done.
      replace (Z.to_nat (i + 1)) with (S (Z.to_nat i)) by lia.
      rewrite (take_S_r _ _ _ Ht), <- app_assoc. done.
Qed.

Lemma takes_wakeup addr v :
  crowd v < max_threads -> takes (thread_wakeup addr) v (fun _ v' => v' = wakeup addr v).
Proof.
  intros Hc. unfold thread_wakeup. eapply takes_bind; [apply takes_assert_spl|]. intros _ v' [-> _].
  eapply takes_bind; [apply takes_num_asleep|]. intros n v' [-> ->].
  eapply takes_mono; [by apply takes_wakeup_from|]. by intros _ v' ->.
Qed.

(** A loop whose body keeps [I] until it leaves. *)
Lemma takes_iterate {R} (I : places -> Prop) n i (body : Z -> M tsys (option R)) v (Qv : option R -> places -> Prop) :
  I v ->
  (forall k v, I v -> takes (body k) v (fun r v' => match r with None => I v' | Some r => Qv (Some r) v' end)) ->
  (forall v, I v -> Qv None v) ->
  takes (iterate n i body) v Qv.
Proof.
  intros HI Hb HQ. revert i v HI. induction n as [|n IH]; intros i v HI; simpl.
  - apply takes_ret. auto.
  - eapply takes_bind; [by apply Hb|]. intros [r|] v' Hv'; [by apply takes_ret|by apply IH].
Qed.

Lemma takes_sleeper k v :
  takes (on_sleepers (array_getguy k)) v (fun t v' => v' = v /\ nthZ (asleep v) k = Some t).
Proof.
  eapply takes_mono.
  - apply (takes_sleepers (array_getguy k) v (fun t l => l = asleep v /\ nthZ (asleep v) k = Some t)).
    intros a Hr. eapply wlp_mono; [by apply array_get_list|]. intros t a' [-> Ht]. by exists (asleep v).
  - intros t v' (l & -> & -> & Ht). split; [by destruct v|done].
Qed.

Lemma takes_wakeone addr v :
  crowd v < max_threads ->
  takes (thread_wakeone addr) v (fun _ v' => woken v v' /\ forall t, t ∈ asleep v -> t ∉ asleep v' -> on_addr addr v t).
Proof.
  intros Hc. unfold thread_wakeone. eapply takes_bind; [apply takes_assert_spl|]. intros _ v' [-> _].
  eapply takes_bind; [apply takes_num_asleep|]. intros n v' [-> ->].
  eapply takes_bind with (Qa := fun _ v' => woken v v' /\ forall t, t ∈ asleep v -> t ∉ asleep v' -> on_addr addr v t).
  2:{ intros r v' Hv'. by apply takes_ret. }
  apply takes_iterate with (I := fun v' => v' = v).
  - done.
  - intros k v' ->. eapply takes_bind; [apply takes_sleeper|]. intros t v' [-> Ht].
    pose proof (nthZ_Some_lt _ _ _ Ht) as Hk. rewrite nthZ_to_nat in Ht by lia.
    eapply takes_bind; [apply takes_get_thread|]. intros x v' [-> Hx].
    destruct (Z.eqb_spec (t_sleepaddr x) addr) as [Ha|Ha]; [|by apply takes_ret].
    eapply takes_bind; [apply (takes_sleepers (array_remove k) v (fun _ l => l = delete (Z.to_nat k) (asleep v)))|].
    { intros a Hr. eapply wlp_mono; [by apply array_remove_list|]. intros u a' Hr'. eexists. split; [exact Hr'|done]. }
    intros _ v' (l & -> & ->). pose proof (crowd_bounds v).
    eapply takes_bind; [apply takes_make_runnable; simpl; lia|]. intros r v' Hr.
    eapply takes_bind; [apply takes_assert_ok|]. intros _ v'' [-> [u ->]]. simpl in Hr. subst v'.
    apply takes_ret. simpl. pose proof (delete_Permutation _ _ _ Ht) as Hp. split.
    + exists [t]. simpl. split; [done|]. done.
    + intros t' Hin Hout. rewrite Hp in Hin. apply elem_of_cons in Hin as [->|Hin]; [|done].
      unfold on_addr, sleepaddr. rewrite Hx. simpl. congruence.
  - intros v' ->. split; [apply woken_refl|]. intros t Hin Hout. done.
Qed.

(** ** Disposing of the dead *)

Lemma takes_zombie k v :
  takes (on_zombies (array_getguy k)) v (fun t v' => v' = v /\ nthZ (dead v) k = Some t).
Proof.
  eapply takes_mono.
  - apply (takes_zombies (array_getguy k) v (fun t l => l = dead v /\ nthZ (dead v) k = Some t)).
    intros a Hr. eapply wlp_mono; [by apply array_get_list|]. intros t a' [-> Ht]. by exists (dead v).
  - intros t v' (l & -> & -> & Ht). split; [by destruct v|done].
Qed.

Lemma takes_thread_destroy t v :
  takes (thread_destroy t) v (fun _ v' => v' = with_tcb (delete t (tcb v)) v).
Proof.
  unfold thread_destroy. apply takes_get. intros s Hr.
  eapply takes_bind; [apply (takes_assert _ v (fun _ v' => v' = v)); done|]. intros _ v' ->.
  eapply takes_bind; [apply takes_get_thread|]. intros x v' [-> Hx].
  eapply takes_bind; [apply (takes_assert _ v (fun _ v' => v' = v)); done|]. intros _ v' ->.
  eapply takes_bind; [apply (takes_assert _ v (fun _ v' => v' = v)); done|]. intros _ v' ->.
  apply takes_free_thread.
Qed.

Lemma takes_exorcise v :
  takes exorcise v (fun _ v' => exists m, v' = with_dead [] (with_tcb m v) /\
    forall t, t ∉ dead v -> m !! t = tcb v !! t).
Proof.
  unfold exorcise. eapply takes_bind; [apply takes_assert_spl|]. intros _ v' [-> _].
  eapply takes_bind; [apply takes_num_dead|]. intros n v' [-> ->].
  set (I := fun v' => exists m, v' = with_tcb m v /\ forall t, t ∉ dead v -> m !! t = tcb v !! t).
  eapply takes_bind with (Qa := fun _ => I).
  { apply takes_iterate with (I := I); [| |done].
    - exists (tcb v). split; [by destruct v|done].
    - intros k v' (m & -> & Hm). eapply takes_bind; [apply takes_zombie|]. intros t v' [-> Ht]. simpl in Ht.
      apply takes_get. intros s Hr.
      eapply takes_bind; [apply (takes_assert _ (with_tcb m v) (fun _ v' => v' = with_tcb m v)); done|].
      intros _ v' ->. eapply takes_bind; [apply takes_thread_destroy|]. intros _ v' ->. apply takes_ret. simpl.
      exists (delete t m). split; [done|]. intros t' Hout. rewrite lookup_delete_ne; [by apply Hm|].
      intros ->. apply Hout. pose proof (nthZ_Some_lt _ _ _ Ht). rewrite nthZ_to_nat in Ht by lia.
      by eapply list_elem_of_lookup_2. }
  intros _ v' (m & -> & Hm). eapply takes_bind; [apply takes_kmalloc with (Qv := fun _ v' => v' = with_tcb m v); done|].
  intros b v' ->. eapply takes_bind.
  - apply (takes_zombies (array_setsize b 0) (with_tcb m v) (fun r l => match r with inl _ => True | inr _ => l = [] end)).
    intros a Hr. eapply wlp_mono; [by apply array_empty_list|]. intros [e|u] a' Hr'; eexists; (split; [exact Hr'|done]).
  - intros r v' (l & -> & Hl). eapply takes_mono; [apply takes_assert_ok|]. intros _ v' [-> [u ->]]. subst l.
    by exists m.
Qed.

Lemma takes_activate v : takes activate_current v (fun _ v' => v' = v).
Proof.
  unfold activate_current. eapply takes_bind; [apply takes_the_curthread|]. intros t v' [-> _].
  eapply takes_bind; [apply takes_get_thread|]. intros x v' [-> _].
  destruct (t_vmspace x); [apply takes_in_world|by apply takes_ret].
Qed.

(** Coming back from a switch: the dead are gone. *)
Definition buried (v v' : places) : Prop :=
  exists m, v' = with_dead [] (with_tcb m v) /\ forall t, t ∉ dead v -> m !! t = tcb v !! t.

Lemma takes_switch_in v : takes mi_switch_in v (fun _ v' => buried v v').
Proof.
  unfold mi_switch_in. eapply takes_bind; [apply takes_exorcise|]. cbv beta. intros u v' Hb.
  eapply takes_mono; [apply takes_activate|]. cbv beta. intros _ v'' Heq. by subst.
Qed.

(** ** Switching *)

Section switching.
Context (cpu_idle : M tsys unit) (idle_fuel : nat).

(** Interrupt handlers wake threads and do nothing else to them. *)
Hypothesis idle_wakes : forall v, cur v = None -> takes cpu_idle v (fun _ v' => woken v v').

Lemma takes_scheduler v :
  cur v = None ->
  takes (scheduler cpu_idle idle_fuel) v (fun t v' => exists v1 l, woken v v1 /\ ready v1 = t :: l /\ v' = with_ready l v1).
Proof.
  intros Hc. unfold scheduler. eapply takes_bind; [apply takes_assert_spl|]. cbv beta. intros _ v' [-> _].
  revert v Hc. induction idle_fuel as [|fuel IH]; intros v Hc; simpl;
    (eapply takes_bind; [apply takes_q_empty|]); intros b v' [-> Hb].
  - destruct b; [apply takes_out_of_fuel|]. destruct (takes_remhead v) as [Hr|Hr]; [|naive_solver].
    eapply takes_mono; [exact Hr|]. intros t v' (l & Hl & ->). exists v, l. split; [apply woken_refl|done].
  - destruct b.
    + eapply takes_bind; [by apply idle_wakes|]. cbv beta. intros _ v1 Hw.
      eapply takes_mono; [apply IH; by rewrite (proj1 (woken_same _ _ Hw))|].
      intros t v' (v2 & l & Hw2 & Hl & ->). exists v2, l. split; [by eapply woken_trans|done].
    + destruct (takes_remhead v) as [Hr|Hr]; [|naive_solver].
      eapply takes_mono; [exact Hr|]. intros t v' (l & Hl & ->). exists v, l. split; [apply woken_refl|done].
Qed.

(** Where the current thread goes. *)
Definition stashed (ns : threadstate_t) (c : Z) (v : places) : option places :=
  match ns with
  | S_READY => Some (with_ready (ready v ++ [c]) (with_cur None v))
  | S_SLEEP => Some (with_asleep (asleep v ++ [c]) (with_cur None v))
  | S_ZOMB => Some (with_dead (dead v ++ [c]) (with_cur None v))
  | S_RUN => None
  end.

(** A switch: the current thread is put where it goes, some threads may wake up, and
    the first ready thread becomes the current one; the pcb of the old one tells where
    it goes on. *)
Definition switched (ns : threadstate_t) (k : C) (v v' : places) : Prop :=
  exists c x v1 v2 next l i j,
    cur v = Some c /\ tcb v !! c = Some x /\ stashed ns c v = Some v1 /\ woken v1 v2 /\ ready v2 = next :: l /\
    v' = with_intr i (with_tcb (<[c := mk_thread (mk_pcb k j) (t_sleepaddr x) (t_stack x) (t_vmspace x) (t_cwd x)]> (tcb v))
           (with_cur (Some next) (with_ready l v2))).

Lemma takes_update {B} (f : tsys -> tsys) (m : M tsys B) v v' (Qv : B -> places -> Prop) :
  (forall s, refines s v -> refines (f s) v') -> takes m v' Qv -> takes (let! s := get in do! put (f s) in m) v Qv.
Proof. intros Hf Hm s Hr. apply wlp_bind, wlp_get, wlp_bind, wlp_put, Hm. auto. Qed.

Lemma takes_check_stack x v : takes (check_stack x) v (fun _ v' => v' = v).
Proof. unfold check_stack. destruct (t_stack x); [by apply takes_assert|by apply takes_ret]. Qed.

(** Putting the current thread away, when the list it goes to can grow. *)
Definition put_away (ns : threadstate_t) (c : Z) : E tsys unit :=
  match ns with
  | S_READY => make_runnable c
  | S_SLEEP => let! m := kmalloc in on_sleepers (array_add m c)
  | S_ZOMB => let! m := kmalloc in on_zombies (array_add m c)
  | S_RUN => panic
  end.

Lemma takes_put_away ns c v :
  crowd v < max_threads ->
  takes (put_away ns c) (with_cur None v) (fun r v' => forall u, r = inr u -> stashed ns c v = Some v').
Proof.
  intros Hn. pose proof (crowd_bounds v). destruct ns; simpl.
  - apply takes_panic.
  - eapply takes_mono; [apply takes_make_runnable; simpl; lia|]. intros [e|u] v' Hv' u' [=]. by subst.
  - eapply takes_bind; [apply takes_kmalloc with (Qv := fun _ v' => v' = with_cur None v); done|]. intros m v' ->.
    eapply takes_mono; [apply (takes_sleepers (array_add m c) _ (fun r l => forall u, r = inr u -> l = asleep v ++ [c]))|].
    + intros a Hr. simpl in Hr. eapply wlp_mono; [apply array_add_list; [exact Hr|lia]|].
      intros [e|u] a' Hr'; eexists; (split; [exact Hr'|naive_solver]).
    + intros r v' (l & -> & Hl) u Hu. by rewrite (Hl u Hu).
  - eapply takes_bind; [apply takes_kmalloc with (Qv := fun _ v' => v' = with_cur None v); done|]. intros m v' ->.
    eapply takes_mono; [apply (takes_zombies (array_add m c) _ (fun r l => forall u, r = inr u -> l = dead v ++ [c]))|].
    + intros a Hr. simpl in Hr. eapply wlp_mono; [apply array_add_list; [exact Hr|lia]|].
      intros [e|u] a' Hr'; eexists; (split; [exact Hr'|naive_solver]).
    + intros r v' (l & -> & Hl) u Hu. by rewrite (Hl u Hu).
Qed.

Lemma takes_md_switch c n k v :
  takes (md_switch c n k) v (fun _ v' => exists x i j, tcb v !! c = Some x /\
    v' = with_intr i (with_tcb (<[c := mk_thread (mk_pcb k j) (t_sleepaddr x) (t_stack x) (t_vmspace x) (t_cwd x)]> (tcb v)) v)).
Proof.
  unfold md_switch. eapply takes_bind; [apply takes_get_thread|]. intros x v' [-> Hx].
  apply takes_get. intros s Hr. eapply takes_bind; [apply takes_put_thread|]. cbv beta. intros _ v' ->.
  case_bool_decide.
  - apply takes_ret. exists x, (intr v), (in_interrupt s). split; [done|]. by destruct v.
  - eapply takes_bind; [apply takes_get_thread|]. intros y v' [-> Hy].
    intros s' Hr'. apply wlp_bind, wlp_get, wlp_put. eexists. split.
    2:{ exists x, (pcb_ininterrupt (t_pcb y)), (in_interrupt s). split; [exact Hx|reflexivity]. }
    destruct Hr'. by split.
Qed.

Lemma takes_switch_out ns k v c :
  cur v = Some c -> crowd v < max_threads ->
  takes (mi_switch_out cpu_idle idle_fuel ns k) v (fun b v' => b = true /\ switched ns k v v').
Proof.
  intros Hc Hn. unfold mi_switch_out. eapply takes_bind; [apply takes_assert_spl|]. cbv beta. intros _ v' [-> _].
  apply takes_get. intros s Hr. rewrite (rf_cur _ _ Hr), Hc.
  eapply takes_bind; [apply takes_get_thread|]. intros x v' [-> Hx].
  eapply takes_bind; [apply takes_check_stack|]. cbv beta. intros _ v' ->.
  apply takes_update with (v' := with_cur None v); [intros s1 []; by split|].
  eapply takes_bind; [by apply (takes_put_away ns c)|]. intros r v1 Hst.
  eapply takes_bind; [apply takes_assert_ok|]. cbv beta. intros _ v' [-> [u ->]]. specialize (Hst u eq_refl).
  assert (cur v1 = None /\ tcb v1 = tcb v) as [Hc1 Ht1] by (destruct ns; naive_solver).
  eapply takes_bind; [by apply takes_scheduler|]. intros next v' (v2 & l & Hw & Hl & ->).
  apply takes_update with (v' := with_cur (Some next) (with_ready l v2)); [intros s1 []; by split|].
  eapply takes_bind; [apply takes_md_switch|]. cbv beta. intros _ v' (y & i & j & Hy & ->). apply takes_ret. split; [done|].
  simpl in Hy. destruct (woken_same _ _ Hw) as (_ & _ & Ht2 & _). rewrite Ht2, Ht1, Hx in Hy. injection Hy as <-.
  exists c, x, v1, v2, next, l, i, j. do 5 (split; [done|]). simpl. by rewrite Ht2, Ht1.
Qed.
End switching.
End spec.
Arguments places : clear implicits.
