(* ===== verification/ThreadInv.v ===== *)
(** * What each switching operation does to the places of the threads, and the
    bookkeeping they all keep: every thread is in one place, has its structure, and is
    counted while it lives. *)

From stdpp Require Import base numbers list gmap.
From Stdlib Require Import ZArith Lia.
From S2P Require Import Prelude Array Queue Thread ThreadSpec.

Section inv.
Context {Q C W : Type} {F : FifoQueue Q Z} {L : FifoLaws F} {Env : ThreadEnv W}.
Notation tsys := (tsys Q C W).
Notation thread := (thread C).
Notation places := (places C).
Notation takes := (takes (Q := Q) (C := C) (W := W)) (only parsing).

Definition running (v : places) (c : Z) (x : thread) : Prop := cur v = Some c /\ tcb v !! c = Some x.

(** The current thread's structure is now [x]. *)
Definition recorded (c : Z) (x : thread) (v : places) : places := with_tcb (<[c := x]> (tcb v)) v.

Definition with_sleepaddr (a : Z) (x : thread) : thread :=
  mk_thread (t_pcb x) a (t_stack x) (t_vmspace x) (t_cwd x).

(** ** Sleeping, yielding, exiting, forking *)

Section switching.
Context (cpu_idle : M tsys unit) (idle_fuel : nat).
Hypothesis idle_wakes : forall v, cur v = None -> takes cpu_idle v (fun _ v' => woken v v').

Lemma takes_set_sleepaddr a v :
  takes (set_sleepaddr a) v (fun _ v' => exists c x, running v c x /\ v' = recorded c (with_sleepaddr a x) v).
Proof.
  unfold set_sleepaddr. eapply takes_bind; [apply takes_the_curthread|]. cbv beta. intros c v' [-> Hc].
  eapply takes_bind; [apply takes_get_thread|]. cbv beta. intros x v' [-> Hx].
  eapply takes_mono; [apply takes_put_thread|]. cbv beta. intros _ v' ->. by exists c, x.
Qed.

Lemma takes_sleep_out addr k v :
  crowd v < max_threads ->
  takes (thread_sleep_out cpu_idle idle_fuel addr k) v (fun _ v' => exists c x,
    running v c x /\ switched S_SLEEP k (recorded c (with_sleepaddr addr x) v) v').
Proof.
  intros Hn. unfold thread_sleep_out. apply takes_get. intros s Hr.
  eapply takes_bind; [apply (takes_assert _ v (fun _ v' => v' = v)); done|]. intros _ v' ->.
  eapply takes_bind; [apply takes_set_sleepaddr|]. cbv beta. intros _ v' (c & x & Hrun & ->).
  eapply takes_mono; [apply (takes_switch_out _ _ idle_wakes _ _ _ c)|].
  - apply Hrun.
  - exact Hn.
  - intros b v' [_ Hs]. by exists c, x.
Qed.

Lemma takes_sleep_in v :
  takes thread_sleep_in v (fun _ v' => exists v1 c x,
    buried v v1 /\ running v1 c x /\ v' = recorded c (with_sleepaddr 0 x) v1).
Proof.
  unfold thread_sleep_in. eapply takes_bind; [apply takes_switch_in|]. cbv beta. intros u v1 Hb.
  eapply takes_mono; [apply takes_set_sleepaddr|]. cbv beta. intros _ v' (c & x & Hx & ->). by exists v1, c, x.
Qed.

Lemma takes_yield_out k v c :
  cur v = Some c -> crowd v < max_threads ->
  takes (thread_yield_out cpu_idle idle_fuel k) v (fun _ v' => switched S_READY (k (spl v)) (with_spl SPL_HIGH v) v').
Proof.
  intros Hc Hn. unfold thread_yield_out, splhigh. eapply takes_bind; [apply takes_splx|]. cbv beta. intros o v' [-> ->].
  apply takes_get. intros s Hr.
  eapply takes_bind; [apply (takes_assert _ (with_spl SPL_HIGH v) (fun _ v' => v' = with_spl SPL_HIGH v)); done|].
  intros _ v' ->. eapply takes_bind; [by apply (takes_switch_out _ _ idle_wakes _ _ _ c)|].
  cbv beta. intros b v' [_ Hs]. by apply takes_ret.
Qed.

Lemma takes_yield_in n v : takes (thread_yield_in n) v (fun _ v' => exists v1, buried v v1 /\ v' = with_spl n v1).
Proof.
  unfold thread_yield_in. eapply takes_bind; [apply takes_switch_in|]. cbv beta. intros u v1 Hb.
  eapply takes_bind; [apply takes_splx|]. cbv beta. intros o v' [-> ->]. apply takes_ret. by exists v1.
Qed.

Lemma takes_threadstart_in v : takes mi_threadstart_in v (fun _ v' => v' = with_spl 0 v).
Proof.
  unfold mi_threadstart_in. eapply takes_bind; [apply takes_activate|]. cbv beta. intros _ v' ->.
  eapply takes_bind; [apply takes_splx|]. cbv beta. intros o v' [-> ->]. by apply takes_ret.
Qed.

Lemma with_tcb_same (v : places) : with_tcb (tcb v) v = v.
Proof. by destruct v. Qed.

(** Leaving the address space and the current directory. *)
Lemma takes_exit_out k v c x :
  running v c x -> crowd v < max_threads ->
  takes (thread_exit_out cpu_idle idle_fuel k) v (fun _ v' => exists x',
    switched S_ZOMB k (with_count (count v - 1) (recorded c x' (with_spl SPL_HIGH v))) v').
Proof.
  intros [Hc Hx] Hn. unfold thread_exit_out, splhigh.
  eapply takes_bind; [apply takes_the_curthread|]. cbv beta. intros c' v' [-> Hc']. replace c' with c by congruence.
  eapply takes_bind; [apply takes_get_thread|]. cbv beta. intros x' v' [-> Hx']. replace x' with x by congruence.
  eapply takes_bind; [apply takes_check_stack|]. cbv beta. intros _ v' ->.
  eapply takes_bind; [apply takes_splx|]. cbv beta. intros o v' [-> ->]. set (v0 := with_spl SPL_HIGH v).
  assert (forall y z, recorded c z (recorded c y v0) = recorded c z v0) as Htwice.
  { intros y z. unfold recorded, with_tcb. simpl. f_equal. apply map_eq. intros t.
    destruct (decide (t = c)) as [->|]; [by rewrite !lookup_insert_eq|by rewrite !lookup_insert_ne]. }
  eapply takes_bind with (Qa := fun _ v' => exists y, v' = recorded c y v0).
  { destruct (t_vmspace x).
    - eapply takes_bind; [apply takes_put_thread|]. cbv beta. intros _ v' ->.
      eapply takes_mono; [apply takes_in_world|]. cbv beta. intros _ v' ->. by eexists.
    - apply takes_ret. exists x. unfold recorded. rewrite insert_id by done. by rewrite with_tcb_same. }
  intros _ v' [y ->]. eapply takes_bind; [apply takes_get_thread|]. cbv beta. intros y' v' [-> Hy'].
  simpl in Hy'. rewrite lookup_insert_eq in Hy'. injection Hy' as <-.
  eapply takes_bind with (Qa := fun _ v' => exists y, v' = recorded c y v0).
  { destruct (t_cwd y).
    - eapply takes_bind; [apply takes_in_world|]. cbv beta. intros _ v' ->.
      eapply takes_mono; [apply takes_put_thread|]. cbv beta. intros _ v' ->. eexists. apply Htwice.
    - apply takes_ret. by exists y. }
  intros _ v' [z ->]. apply takes_get. intros s Hr.
  eapply takes_bind; [apply (takes_assert _ _ (fun _ v' => v' = recorded c z v0)); done|]. intros _ v' ->.
  apply takes_update with (v' := with_count (count v - 1) (recorded c z v0)).
  { intros s1 Hr1. pose proof (rf_count _ _ Hr1) as Hct. destruct Hr1. split; try done. simpl in *. by rewrite Hct. }
  eapply takes_mono; [apply (takes_switch_out _ _ idle_wakes _ _ _ c); [exact Hc|exact Hn]|].
  intros b v' [_ Hs]. by exists z.
Qed.
End switching.

(** Making a thread: a fresh structure, on no list yet. *)
Lemma takes_create p v :
  takes (thread_create p) v (fun r v' =>
    match r with
    | None => v' = v
    | Some t => tcb v !! t = None /\ v' = recorded t (mk_thread p 0 None None None) v
    end).
Proof.
  unfold thread_create. eapply takes_bind; [apply takes_kmalloc with (Qv := fun _ v' => v' = v); done|].
  intros m v' ->. destruct m; simpl; [|by apply takes_ret].
  eapply takes_bind; [apply takes_kmalloc with (Qv := fun _ v' => v' = v); done|].
  intros m v' ->. destruct m; simpl; [|by apply takes_ret].
  apply takes_get. intros s Hr. eapply takes_bind; [apply takes_put_thread|]. cbv beta. intros _ v' ->.
  apply takes_ret. split; [|done]. rewrite (rf_tcb _ _ Hr). apply not_elem_of_dom, is_fresh.
Qed.

Lemma takes_sched_prealloc n v :
  n <= max_threads -> takes (scheduler_preallocate n) v (fun _ v' => v' = v).
Proof.
  intros Hn. unfold scheduler_preallocate. eapply takes_bind; [apply takes_assert_spl|]. cbv beta. intros _ v' [-> _].
  eapply takes_bind; [apply takes_kmalloc with (Qv := fun _ v' => v' = v); done|]. intros m v' ->.
  intros s Hr. destruct (rf_ready _ _ Hr) as (q & Hq & Hm). apply wlp_through. intros q1 Hq1.
  rewrite Hq in Hq1. injection Hq1 as <-. intros r q' Hrun.
  destruct (fq_preallocate_law q (ready v) m n Hm) as (r1 & q1 & Hrun1 & Hr1); [unfold max_threads in *; lia|].
  rewrite Hrun in Hrun1. injection Hrun1 as <- <-. exists v. split; [|done].
  assert (fq_model q' (ready v)) by (destruct r; naive_solver). destruct Hr. split; try done. by exists q'.
Qed.

(** A thread that cannot be added goes away without a trace. *)
Lemma takes_fork_fail v1 v n e t x :
  tcb v1 !! t = None -> takes (fork_fail n t e) (with_spl v (recorded t x v1)) (fun r v' => r = inl e /\ v' = with_spl n v1).
Proof.
  intros Ht. unfold fork_fail. eapply takes_bind; [apply takes_splx|]. cbv beta. intros o v' [-> ->].
  eapply takes_bind; [apply takes_get_thread|]. cbv beta. intros y v' [-> Hy].
  eapply takes_bind with (Qa := fun _ v' => v' = with_spl n (with_spl v (recorded t x v1))).
  { destruct (t_cwd y); [apply takes_in_world|by apply takes_ret]. }
  intros _ v' ->. eapply takes_bind; [apply takes_free_thread|]. cbv beta. intros _ v' ->. apply takes_ret.
  split; [done|]. unfold with_spl, recorded, with_tcb. simpl. rewrite delete_insert_id by done. done.
Qed.

(** The new thread is ready, behind the others, and will go on at [start]; or there was
    no memory and nothing changed. *)
Definition forked (start : C) (v v' : places) (t : Z) : Prop :=
  exists x, tcb v !! t = None /\ pcb_resume (t_pcb x) = start /\
    v' = with_count (count v + 1) (with_ready (ready v ++ [t]) (recorded t x v)).

Lemma takes_fork start v :
  crowd v < max_threads -> count v <= crowd v ->
  takes (thread_fork start) v (fun r v' =>
    match r with inl _ => v' = v | inr t => forked start v v' t end).
Proof.
  intros Hn Hcount. unfold thread_fork. eapply takes_bind; [apply takes_create|].
  cbv beta. intros [t|] v' Hv'; [|subst; by apply takes_ret]. destruct Hv' as [Ht ->].
  set (x0 := mk_thread (mk_pcb start 0) 0 None None None).
  eapply takes_bind; [apply takes_kmalloc with (Qv := fun _ v' => v' = recorded t x0 v); done|]. intros m v' ->.
  destruct m; simpl.
  2:{ eapply takes_bind; [apply takes_free_thread|]. cbv beta. intros _ v' ->. apply takes_ret.
      unfold recorded, with_tcb. simpl. rewrite delete_insert_id by done. by destruct v. }
  eapply takes_bind; [apply takes_the_curthread|]. cbv beta. intros c v' [-> Hc].
  eapply takes_bind; [apply takes_get_thread|]. cbv beta. intros y v' [-> Hy].
  eapply takes_bind with (Qa := fun _ v' => v' = recorded t x0 v).
  { destruct (t_cwd y); [apply takes_in_world|by apply takes_ret]. }
  intros _ v' ->. eapply takes_bind; [apply takes_put_thread|]. cbv beta. intros _ v' ->.
  set (x := mk_thread (mk_pcb start 0) 0 (Some stack_magic) None (t_cwd y)).
  replace (with_tcb (<[t:=x]> (tcb (recorded t x0 v))) (recorded t x0 v)) with (recorded t x v)
    by (unfold recorded, with_tcb; simpl; by rewrite insert_insert_eq).
  unfold splhigh. eapply takes_bind; [apply takes_splx|]. cbv beta. intros o v' [-> ->].
  set (v0 := with_spl SPL_HIGH (recorded t x v)).
  apply takes_get. intros s Hr. rewrite (rf_count _ _ Hr). unfold v0 at 1 2. simpl.
  assert (forall e, takes (fork_fail (spl v) t e) v0
    (fun r v' => match r with inl _ => v' = v | inr t => forked start v v' t end)) as Hfail.
  { intros e. eapply takes_mono; [by apply takes_fork_fail|]. cbv beta. intros r v' [-> ->]. by destruct v. }
  eapply takes_bind; [by apply takes_int_of with (Qv := fun n v' => n = count v + 1 /\ v' = v0)|].
  intros n v' [-> ->].
  eapply takes_bind; [apply takes_kmalloc with (Qv := fun _ v' => v' = v0); done|]. intros m v' ->.
  eapply takes_bind; [apply (takes_sleepers _ v0 (fun _ l => l = asleep v))|].
  { intros a Ha. eapply wlp_mono; [apply array_prealloc_list; [exact Ha|lia]|]. cbv beta. intros r a' Hr'. by exists (asleep v). }
  cbv beta. intros r1 v' (l & -> & ->). replace (with_asleep (asleep v) v0) with v0 by done.
  destruct r1; [apply Hfail|].
  eapply takes_bind; [apply takes_kmalloc with (Qv := fun _ v' => v' = v0); done|]. intros m' v' ->.
  eapply takes_bind; [apply (takes_zombies _ v0 (fun _ l => l = dead v))|].
  { intros a Ha. eapply wlp_mono; [apply array_prealloc_list; [exact Ha|lia]|]. cbv beta. intros r a' Hr'. by exists (dead v). }
  cbv beta. intros r2 v' (l & -> & ->). replace (with_dead (dead v) v0) with v0 by done.
  destruct r2; [apply Hfail|].
  eapply takes_bind; [apply takes_sched_prealloc; lia|]. cbv beta. intros r3 v' ->.
  destruct r3; [apply Hfail|].
  pose proof (crowd_bounds v). eapply takes_bind; [apply takes_make_runnable; simpl; lia|]. cbv beta. intros r4 v' Hv'.
  destruct r4; subst v'; [apply Hfail|].
  apply takes_update with (v' := with_count (count v + 1) (with_ready (ready v ++ [t]) v0)).
  { intros s1 []. by split. }
  eapply takes_bind; [apply takes_splx|]. cbv beta. intros o v' [-> ->]. apply takes_ret. exists x.
  split; [done|]. split; [done|]. by destruct v.
Qed.

(** ** The places of the threads *)

(** Every thread is in one place and has its structure. *)
Record placed (v : places) : Prop := {
  pl_nodup : NoDup (everyone v);
  pl_tcb : forall t, t ∈ everyone v -> is_Some (tcb v !! t);
}.

(** The threads that have not exited. *)
Definition living (v : places) : Z := lenZ (option_list (cur v)) + lenZ (ready v) + lenZ (asleep v).

(** The processor went to the first ready thread ([true]), or stayed where it was;
    either way ready threads only moved up, and new ones are behind them. *)
Definition moved (v v' : places) (sw : bool) : Prop :=
  exists w, if sw then exists n, cur v' = Some n /\ ready v ++ w = n :: ready v'
            else cur v' = cur v /\ ready v' = ready v ++ w.

Lemma moved_trans (v1 v2 v3 : places) sw : moved v1 v2 false -> moved v2 v3 sw -> moved v1 v3 sw.
Proof.
  intros (w1 & Hc1 & Hr1) (w2 & H2). exists (w1 ++ w2). destruct sw.
  - destruct H2 as (n & Hc & Hr). exists n. split; [done|]. by rewrite <- Hr, Hr1, app_assoc.
  - destruct H2 as [Hc Hr]. split; [congruence|]. by rewrite Hr, Hr1, app_assoc.
Qed.

Lemma moved_same (v v' : places) : cur v' = cur v -> ready v' = ready v -> moved v v' false.
Proof. intros Hc Hr. exists []. split; [done|]. by rewrite app_nil_r. Qed.

Lemma woken_moved (v v' : places) : woken v v' -> moved v v' false.
Proof. intros (w & _ & ->). by exists w. Qed.

Lemma placed_perm (v v' : places) :
  placed v -> everyone v' ≡ₚ everyone v -> (forall t, is_Some (tcb v !! t) -> is_Some (tcb v' !! t)) -> placed v'.
Proof.
  intros [Hn Ht] Hp Hm. split; [by rewrite Hp|]. intros t Hin. rewrite Hp in Hin. auto.
Qed.

Lemma cur_everyone (v : places) c : cur v = Some c -> c ∈ everyone v.
Proof. intros Hc. unfold everyone. rewrite Hc. simpl. left. Qed.

Lemma cur_not_asleep (v : places) c : placed v -> cur v = Some c -> c ∉ asleep v.
Proof.
  intros [Hn _] Hc Hin. unfold everyone in Hn. rewrite Hc in Hn. simpl in Hn. apply NoDup_cons in Hn as [Hn _].
  apply Hn. rewrite !elem_of_app. auto.
Qed.

Lemma dead_alone (v : places) t : placed v -> t ∈ dead v -> t ∉ option_list (cur v) ++ ready v ++ asleep v.
Proof.
  intros [Hn _] Hd Hin. unfold everyone in Hn. rewrite !app_assoc in Hn. apply NoDup_app in Hn as (_ & Hn & _).
  apply (Hn t); [by rewrite <- !app_assoc|done].
Qed.

Lemma buried_placed (v v' : places) : placed v -> buried v v' -> placed v'.
Proof.
  intros Hp (m & -> & Hm). pose proof (dead_alone v) as Ha. destruct Hp as [Hn Ht]. unfold everyone in *. split.
  - unfold everyone. simpl. rewrite app_nil_r. rewrite !app_assoc in Hn. apply NoDup_app in Hn as (Hn & _).
    by rewrite <- !app_assoc in Hn.
  - unfold everyone. simpl. rewrite app_nil_r. intros t Hin. rewrite Hm.
    + apply Ht. rewrite !elem_of_app in *. tauto.
    + intros Hd. by apply (Ha t).
Qed.

(** What a switch does to the lists. *)
Lemma switched_lists ns k (v v' : places) :
  switched ns k v v' ->
  everyone v' ≡ₚ everyone v /\ moved v v' true /\ count v' = count v /\ spl v' = spl v /\
  living v' = living v - (if ns is S_ZOMB then 1 else 0) /\
  (forall t, t ∈ asleep v' -> t ∈ asleep v \/ ns = S_SLEEP /\ cur v = Some t).
Proof.
  intros (c & x & v1 & v2 & n & l & i & j & Hc & Hx & Hst & (w & Hw & Hv2) & Hl & ->).
  assert (lenZ (asleep v1) = lenZ w + lenZ (asleep v2)) as Hlen
    by (unfold lenZ; rewrite (Permutation_length Hw), length_app; lia).
  assert (lenZ (ready v1 ++ w) = 1 + lenZ l) as Hlen2
    by (rewrite Hv2 in Hl; simpl in Hl; rewrite Hl; unfold lenZ; simpl; lia).
  rewrite lenZ_app in Hlen2.
  assert (forall t, t ∈ asleep v2 -> t ∈ asleep v1) as Hin by (intros t Ht; rewrite Hw, elem_of_app; auto).
  unfold living, everyone, moved. rewrite Hc. rewrite Hv2 in Hl |- *. simpl in Hl |- *.
  assert (forall r, n :: l ++ asleep v2 ++ r ≡ₚ ready v1 ++ asleep v1 ++ r) as Hall.
  { intros r. rewrite Hw, app_comm_cons, <- Hl. solve_Permutation. }
  rewrite Hall.
  destruct ns; simplify_eq/=; (split; [solve_Permutation|]); (split; [|split; [done|split; [done|split]]]).
  - exists ([c] ++ w). exists n. by rewrite app_assoc.
  - rewrite lenZ_app in *. unfold lenZ in *. simpl in *. lia.
  - auto.
  - by exists w, n.
  - rewrite lenZ_app in *. unfold lenZ in *. simpl in *. lia.
  - intros t Ht. apply Hin, elem_of_app in Ht as [Ht|Ht]; [auto|]. apply list_elem_of_singleton in Ht. subst. auto.
  - by exists w, n.
  - unfold lenZ in *. simpl in *. lia.
  - auto.
Qed.
End inv.
