(* ===== verification/Synch.v ===== *)
(** * Semaphores, locks and condition variables (assignment 1's synch.c), and the
    machine that runs threads.

    A thread is a program of calls ([prog]); between two calls it only computes on
    shared memory of type [U] ([c_mem]). The code of a primitive runs with interrupts
    off, so it is not interrupted; where it sleeps it is cut in two, and what is left
    to do is a [kont] in the thread's pcb. A primitive yields the rest of the program,
    or [None] when the processor went to another thread. A computation without a result
    is one that C does not define; [p_panic] is a call of [panic]; [p_loop] repeats its
    body until that comes to a [p_break]. *)

From stdpp Require Import base numbers list gmap strings.
From Stdlib Require Import ZArith Lia.
From S2P Require Import Prelude Array Queue Thread.

(** A structure at an address: a semaphore's count, a lock's owner, or a condition
    variable, which holds nothing. *)
Inductive obj : Type :=
| Sem (count : Z)
| Lock (lock_owner : option Z)
| Cv.

Inductive prog (U : Type) : Type :=
| p_done
| p_panic (msg : string)
| p_loop (body k : prog U)
| p_break
| p_call (c : call U) (k : Z -> prog U)
with call (U : Type) : Type :=
| c_P (sem : Z)
| c_V (sem : Z)
| c_acquire (lock : Z)
| c_release (lock : Z)
| c_holds (lock : Z)
| c_wait (cv lock : Z)
| c_signal (cv lock : Z)
| c_broadcast (cv lock : Z)
| c_yield
| c_clocksleep (lbolt num_secs : Z)
| c_fork (p : prog U)
| c_sem_create (initial_count : Z)
| c_lock_create
| c_cv_create
| c_mem (f : U -> option (U * Z)).
Arguments p_done {U}.
Arguments p_panic {U}.
Arguments p_loop {U}.
Arguments p_break {U}.
Arguments p_call {U}.
Arguments c_P {U}.
Arguments c_V {U}.
Arguments c_acquire {U}.
Arguments c_release {U}.
Arguments c_holds {U}.
Arguments c_wait {U}.
Arguments c_signal {U}.
Arguments c_broadcast {U}.
Arguments c_yield {U}.
Arguments c_clocksleep {U}.
Arguments c_fork {U}.
Arguments c_sem_create {U}.
Arguments c_lock_create {U}.
Arguments c_cv_create {U}.
Arguments c_mem {U}.

(** A round of a loop: [again] follows the end of the body, [out] a break. *)
Fixpoint round {U} (body again out : prog U) : prog U :=
  match body with
  | p_done => again
  | p_break => out
  | p_panic msg => p_panic msg
  | p_loop b k => p_loop b (round k again out)
  | p_call c k => p_call c (fun r => round (k r) again out)
  end.

(** Where a thread goes on when it is switched to: at its start; asleep in [P], in
    [lock_acquire] (with the interrupt levels to restore once it has the lock), in
    [cv_wait], in [clocksleep]; after [thread_yield], its own or the timer's; nowhere. *)
Inductive kont (U : Type) : Type :=
| k_start (p : prog U)
| k_P (sem spl : Z) (k : Z -> prog U)
| k_acquire (lock : Z) (spls : list Z) (k : Z -> prog U)
| k_wait (lock spl : Z) (k : Z -> prog U)
| k_clock (lbolt num_secs s : Z) (k : Z -> prog U)
| k_yield (spl : Z) (p : prog U)
| k_interrupt (old_in spl : Z) (p : prog U)
| k_dead.
Arguments k_start {U}.
Arguments k_P {U}.
Arguments k_acquire {U}.
Arguments k_wait {U}.
Arguments k_clock {U}.
Arguments k_yield {U}.
Arguments k_interrupt {U}.
Arguments k_dead {U}.

Section synch.
Context {Q U W : Type} `{FifoQueue Q Z} `{ThreadEnv W}.
Context (cpu_idle : M (tsys Q (kont U) W) unit) (idle_fuel : nat).
Notation tsys := (tsys Q (kont U) W).
Notation prog := (prog U).
Notation kont := (kont U).

Record ssys : Type := mk_ssys {
  ts : tsys;
  objs : gmap Z obj;
  shared : U;
}.

Definition set_ts (t : tsys) (s : ssys) : ssys := mk_ssys t (objs s) (shared s).
Definition set_objs (o : gmap Z obj) (s : ssys) : ssys := mk_ssys (ts s) o (shared s).
Definition set_shared (u : U) (s : ssys) : ssys := mk_ssys (ts s) (objs s) u.
Definition on_ts {A} (m : M tsys A) : M ssys A := zoom ts set_ts m.

Definition get_obj (a : Z) : M ssys obj := let! s := get in of_option (objs s !! a).
Definition put_obj (a : Z) (o : obj) : M ssys unit := let! s := get in put (set_objs (<[a := o]> (objs s)) s).
Definition sem_count (a : Z) : M ssys Z :=
  let! o := get_obj a in match o with Sem c => ret c | _ => undef end.
Definition lock_owner (a : Z) : M ssys (option Z) :=
  let! o := get_obj a in match o with Lock w => ret w | _ => undef end.
Definition is_cv (a : Z) : M ssys unit :=
  let! o := get_obj a in match o with Cv => ret tt | _ => undef end.

(** [kmalloc] twice: the structure and its name. *)
Definition create (o : obj) : M ssys (option Z) :=
  let! m := on_ts kmalloc in
  if negb m then ret None
  else
    let! m := on_ts kmalloc in
    if negb m then ret None
    else
      let! s := get in
      let a := base.fresh ({[0]} ∪ dom (objs s)) in
      do! put_obj a o in
      ret (Some a).
Definition kfree_obj (a : Z) : M ssys unit := let! s := get in put (set_objs (delete a (objs s)) s).

Definition restore (spls : list Z) : M ssys unit :=
  foldr (fun spl m => do! on_ts (splx spl) in m) (ret tt) spls.

(** ** Semaphores *)

Definition sem_create (initial_count : Z) : M ssys (option Z) := create (Sem initial_count).

Definition sem_destroy (sem : Z) : M ssys unit :=
  do! assert_ (negb (sem =? 0)) in
  let! spl := on_ts splhigh in
  let! b := on_ts (thread_hassleepers sem) in
  do! assert_ (negb b) in
  do! on_ts (splx spl) in
  kfree_obj sem.

(** The loop of [P] and what follows it. *)
Definition P_loop (sem spl : Z) (k : Z -> prog) : M ssys (option prog) :=
  let! count := sem_count sem in
  if count =? 0 then
    let! _ := on_ts (thread_sleep_out cpu_idle idle_fuel sem (k_P sem spl k)) in
    ret None
  else
    do! assert_ (0 <? count) in
    do! put_obj sem (Sem (count - 1)) in
    do! on_ts (splx spl) in
    ret (Some (k 0)).

Definition P (sem : Z) (k : Z -> prog) : M ssys (option prog) :=
  do! assert_ (negb (sem =? 0)) in
  let! s := get in
  do! assert_ (in_interrupt (ts s) =? 0) in
  let! spl := on_ts splhigh in
  P_loop sem spl k.

Definition V (sem : Z) : M ssys unit :=
  do! assert_ (negb (sem =? 0)) in
  let! spl := on_ts splhigh in
  let! count := sem_count sem in
  let! count := int_of (count + 1) in
  do! put_obj sem (Sem count) in
  do! assert_ (0 <? count) in
  do! on_ts (thread_wakeup sem) in
  do! on_ts (splx spl) in
  ret tt.

(** ** Locks *)

Definition lock_create : M ssys (option Z) := create (Lock None).

(** [kfree(lock->lock_owner)] frees the structure of the thread that holds it. *)
Definition lock_destroy (lock : Z) : M ssys unit :=
  do! assert_ (negb (lock =? 0)) in
  let! owner := lock_owner lock in
  do! (match owner with Some t => on_ts (free_thread t) | None => ret tt end) in
  kfree_obj lock.

Definition lock_do_i_hold (lock : Z) : M ssys bool :=
  if lock =? 0 then panic
  else
    let! spl := on_ts splhigh in
    let! owner := lock_owner lock in
    let! s := get in
    do! on_ts (splx spl) in
    ret (bool_decide (curthread (ts s) = owner)).

(** The loop of [lock_acquire] and what follows it. *)
Definition acquire_loop (lock : Z) (spls : list Z) (k : Z -> prog) : M ssys (option prog) :=
  let! owner := lock_owner lock in
  match owner with
  | Some _ =>
      let! _ := on_ts (thread_sleep_out cpu_idle idle_fuel lock (k_acquire lock spls k)) in
      ret None
  | None =>
      let! s := get in
      do! put_obj lock (Lock (curthread (ts s))) in
      do! restore spls in
      ret (Some (k 0))
  end.

Definition lock_acquire (lock : Z) (spls : list Z) (k : Z -> prog) : M ssys (option prog) :=
  let! spl := on_ts splhigh in
  if lock =? 0 then panic
  else
    let! b := lock_do_i_hold lock in
    if b then panic else acquire_loop lock (spl :: spls) k.

Definition lock_release (lock : Z) : M ssys unit :=
  if lock =? 0 then panic
  else
    let! owner := lock_owner lock in
    let! s := get in
    if bool_decide (owner = curthread (ts s)) then
      let! spl := on_ts splhigh in
      do! put_obj lock (Lock None) in
      do! on_ts (thread_wakeup lock) in
      do! on_ts (splx spl) in
      ret tt
    else panic.

(** ** Condition variables *)

Definition cv_create : M ssys (option Z) := create Cv.
Definition cv_destroy (cv : Z) : M ssys unit := do! assert_ (negb (cv =? 0)) in kfree_obj cv.

Definition cv_wait (cv lock : Z) (k : Z -> prog) : M ssys (option prog) :=
  do! assert_ (negb (cv =? 0)) in
  do! assert_ (negb (lock =? 0)) in
  let! spl := on_ts splhigh in
  do! lock_release lock in
  let! _ := on_ts (thread_sleep_out cpu_idle idle_fuel cv (k_wait lock spl k)) in
  ret None.

(** [cv_signal] and [cv_broadcast], which differ in whom they wake. *)
Definition cv_wake (wake : Z -> M tsys unit) (cv lock : Z) : M ssys unit :=
  do! assert_ (negb (cv =? 0)) in
  do! assert_ (negb (lock =? 0)) in
  let! spl := on_ts splhigh in
  let! b := lock_do_i_hold lock in
  if negb b then panic
  else
    do! on_ts (wake cv) in
    do! on_ts (splx spl) in
    ret tt.
Definition cv_signal : Z -> Z -> M ssys unit := cv_wake thread_wakeone.
Definition cv_broadcast : Z -> Z -> M ssys unit := cv_wake thread_wakeup.

(** ** Sleeping on the clock (hardclock.c) *)

(** The loop of [clocksleep] and what follows it. *)
Definition clock_loop (lbolt num_secs s : Z) (k : Z -> prog) : M ssys (option prog) :=
  if 0 <? num_secs then
    let! _ := on_ts (thread_sleep_out cpu_idle idle_fuel lbolt (k_clock lbolt num_secs s k)) in
    ret None
  else
    do! on_ts (splx s) in
    ret (Some (k 0)).

Definition clocksleep (lbolt num_secs : Z) (k : Z -> prog) : M ssys (option prog) :=
  let! s := on_ts splhigh in
  clock_loop lbolt num_secs s k.

(** ** Running threads *)

Definition after (k : Z -> prog) (m : M ssys unit) : M ssys (option prog) := do! m in ret (Some (k 0)).
(** A pointer returned, or NULL. *)
Definition pointer (k : Z -> prog) (m : M ssys (option Z)) : M ssys (option prog) := let! r := m in ret (Some (k (default 0 r))).

Definition run_call (c : call U) (k : Z -> prog) : M ssys (option prog) :=
  match c with
  | c_P sem => P sem k
  | c_V sem => after k (V sem)
  | c_acquire lock => lock_acquire lock [] k
  | c_release lock => after k (lock_release lock)
  | c_holds lock => let! b := lock_do_i_hold lock in ret (Some (k (if b then 1 else 0)))
  | c_wait cv lock => cv_wait cv lock k
  | c_signal cv lock => after k (cv_signal cv lock)
  | c_broadcast cv lock => after k (cv_broadcast cv lock)
  | c_yield =>
      let! _ := on_ts (thread_yield_out cpu_idle idle_fuel (fun spl => k_yield spl (k 0))) in
      ret None
  | c_clocksleep lbolt num_secs => clocksleep lbolt num_secs k
  | c_fork p =>
      let! r := on_ts (thread_fork (k_start p)) in
      ret (Some (k (match r with inl e => errno_code e | inr _ => 0 end)))
  | c_sem_create initial_count => pointer k (sem_create initial_count)
  | c_lock_create => pointer k lock_create
  | c_cv_create => pointer k cv_create
  | c_mem f =>
      let! s := get in
      match f (shared s) with
      | Some (u, r) => do! put (set_shared u s) in ret (Some (k r))
      | None => undef
      end
  end.

(** An interrupt (trap.c, interrupt.c): [handler] runs with interrupts off and
    [in_interrupt] set; [k] gets the old values of both. *)
Definition interrupted {A} (k : Z -> Z -> M ssys A) : M ssys A :=
  let! s := get in
  let old_in := in_interrupt (ts s) in
  let! savespl := on_ts splhigh in
  do! on_ts (let! s := get in put (set_in_interrupt 1 s)) in
  k old_in savespl.
Definition back_from_interrupt (old_in savespl : Z) : M ssys unit :=
  do! on_ts (let! s := get in put (set_in_interrupt old_in s)) in
  do! on_ts (splx savespl) in
  ret tt.

(** What a thread does once it is switched to. *)
Definition resume (k : kont) : M ssys (option prog) :=
  match k with
  | k_start p => do! on_ts mi_threadstart_in in ret (Some p)
  | k_P sem spl k => do! on_ts thread_sleep_in in P_loop sem spl k
  | k_acquire lock spls k => do! on_ts thread_sleep_in in acquire_loop lock spls k
  | k_wait lock spl k => do! on_ts thread_sleep_in in lock_acquire lock [spl] k
  | k_clock lbolt num_secs s k => do! on_ts thread_sleep_in in clock_loop lbolt (num_secs - 1) s k
  | k_yield spl p => do! on_ts (thread_yield_in spl) in ret (Some p)
  | k_interrupt old_in spl p =>
      do! on_ts (thread_yield_in SPL_HIGH) in
      do! back_from_interrupt old_in spl in
      ret (Some p)
  | k_dead => panic
  end.

(** The processor: the system, and the rest of the current thread's program, [None]
    right after a switch. *)
Record machine : Type := mk_machine { sys : ssys; code : option prog }.

Definition run (code : option prog) : M ssys (option prog) :=
  match code with
  | Some (p_call c k) => run_call c k
  | Some p_done =>
      let! _ := on_ts (thread_exit_out cpu_idle idle_fuel k_dead) in ret None
  | Some (p_panic _) => panic
  | Some (p_loop body k) => ret (Some (round body (p_loop body k) k))
  | Some p_break => undef
  | None =>
      let! cur := on_ts the_curthread in
      let! x := on_ts (get_thread cur) in
      resume (pcb_resume (t_pcb x))
  end.

(** [hardclock], every [HZ]th time waking the sleepers on [lbolt]. *)
Definition tick (lbolt : option Z) (p : prog) : M ssys (option prog) :=
  interrupted (fun old_in savespl =>
    do! (match lbolt with Some a => on_ts (thread_wakeup a) | None => ret tt end) in
    let! _ := on_ts (thread_yield_out cpu_idle idle_fuel (fun _ => k_interrupt old_in savespl p)) in
    ret None).

(** A disk is done ([lhd_iodone]). *)
Definition irq (sem : Z) : M ssys unit :=
  interrupted (fun old_in savespl => do! V sem in back_from_interrupt old_in savespl).

(** A step of the processor: the current thread goes on, or, with interrupts on, the
    timer takes the processor away from it, or a device interrupts it. *)
Inductive step : machine -> machine -> Prop :=
| step_run s c s' c' : run c s = Done c' s' -> step (mk_machine s c) (mk_machine s' c')
| step_tick s p lbolt s' c' :
    curspl (ts s) = 0 -> tick lbolt p s = Done c' s' ->
    step (mk_machine s (Some p)) (mk_machine s' c')
| step_irq s p sem s' :
    curspl (ts s) = 0 -> irq sem s = Done tt s' ->
    step (mk_machine s (Some p)) (mk_machine s' (Some p)).
End synch.
Arguments ssys : clear implicits.
Arguments machine : clear implicits.
