(* ===== verification/SynchSpec.v ===== *)
(** * What the synchronization primitives promise.

    The invariant of the machine of Synch.v ([sound]): every thread is in one place and
    is counted, and nobody sleeps on a semaphore that is positive or a lock that is
    free. Every step of the processor keeps it, timer interrupts included. *)

From stdpp Require Import base numbers list gmap.
From Stdlib Require Import ZArith Lia.
From S2P Require Import Prelude Array Queue Thread ThreadSpec ThreadInv Synch.

Section spec.
Context {Q U W : Type} {F : FifoQueue Q Z} {L : FifoLaws F} {Env : ThreadEnv W}.
Context (cpu_idle : M (tsys Q (kont U) W) unit) (idle_fuel : nat).
Hypothesis idle_wakes : forall v, cur v = None -> takes cpu_idle v (fun _ v' => woken v v').
Notation ssys := (ssys Q U W).
Notation places := (places (kont U)).
Notation takes := (takes (Q := Q) (C := kont U) (W := W)) (only parsing).
Notation thread := (thread (kont U)).
Notation objects := (gmap Z obj).
Notation machine := (machine Q U W).

(** ** Reasoning on threads and objects together *)

Definition does {A} (m : M ssys A) (v : places) (o : objects) (Qv : A -> places -> objects -> Prop) : Prop :=
  forall s, refines (ts s) v -> objs s = o ->
  wlp m (fun a s' => exists v', refines (ts s') v' /\ Qv a v' (objs s')) s.

Lemma does_ret {A} (a : A) v o (Qv : A -> places -> objects -> Prop) : Qv a v o -> does (ret a) v o Qv.
Proof. intros Hq s Hr <-. apply wlp_ret. by exists v. Qed.

Lemma does_bind {A B} (m : M ssys A) (f : A -> M ssys B) v o
    (Qa : A -> places -> objects -> Prop) (Qv : B -> places -> objects -> Prop) :
  does m v o Qa -> (forall a v' o', Qa a v' o' -> does (f a) v' o' Qv) -> does (bind m f) v o Qv.
Proof.
  intros Hm Hf s Hr Ho. apply wlp_bind. eapply wlp_mono; [by apply Hm|].
  intros a s' (v' & Hr' & Hq). by apply (Hf a v' (objs s') Hq).
Qed.

Lemma does_mono {A} (m : M ssys A) v o (Q1 Q2 : A -> places -> objects -> Prop) :
  does m v o Q1 -> (forall a v' o', Q1 a v' o' -> Q2 a v' o') -> does m v o Q2.
Proof.
  intros Hm Hi s Hr Ho. eapply wlp_mono; [by apply Hm|]. intros a s' (v' & Hr' & Hq). exists v'. auto.
Qed.

Lemma does_get {B} (f : ssys -> M ssys B) v o (Qv : B -> places -> objects -> Prop) :
  (forall s, refines (ts s) v -> objs s = o -> does (f s) v o Qv) -> does (bind get f) v o Qv.
Proof. intros Hf s Hr Ho. apply wlp_bind, wlp_get. by apply Hf. Qed.

(** An operation of the thread system leaves the objects alone. *)
Lemma does_on_ts {A} (m : M (tsys Q (kont U) W) A) v o (Qv : A -> places -> Prop) :
  takes m v Qv -> does (on_ts m) v o (fun a v' o' => Qv a v' /\ o' = o).
Proof.
  intros Hm s Hr <-. apply wlp_zoom. eapply wlp_mono; [by apply Hm|]. intros a t (v' & Hr' & Hq). by exists v'.
Qed.

Lemma does_assert b v o (Qv : unit -> places -> objects -> Prop) : (b = true -> Qv tt v o) -> does (assert_ b) v o Qv.
Proof. intros Hq s Hr <-. apply wlp_assert. intros Hb. exists v. auto. Qed.

Lemma does_panic {A} v o (Qv : A -> places -> objects -> Prop) : does panic v o Qv.
Proof. intros s Hr Ho. apply wlp_panic. Qed.

Lemma does_undef {A} v o (Qv : A -> places -> objects -> Prop) : does undef v o Qv.
Proof. intros s Hr Ho. apply wlp_undef. Qed.

Lemma does_int_of n v o : does (int_of n) v o (fun r v' o' => r = n /\ is_s32 n /\ v' = v /\ o' = o).
Proof. intros s Hr <-. apply wlp_int_of. intros Hn. by exists v. Qed.

Lemma does_get_obj a v o : does (get_obj a) v o (fun b v' o' => o !! a = Some b /\ v' = v /\ o' = o).
Proof. apply does_get. intros s1 Hr1 <- s Hr Ho. apply wlp_of_option. intros b Hb. exists v. rewrite Ho. done. Qed.

Lemma does_put_obj a b v o : does (put_obj a b) v o (fun _ v' o' => v' = v /\ o' = <[a := b]> o).
Proof. intros s Hr <-. apply wlp_bind, wlp_get, wlp_put. by exists v. Qed.

Lemma does_sem_count a v o :
  does (sem_count a) v o (fun c v' o' => o !! a = Some (Sem c) /\ v' = v /\ o' = o).
Proof.
  unfold sem_count. eapply does_bind; [apply does_get_obj|]. cbv beta. intros b v' o' (Hb & -> & ->).
  destruct b; [by apply does_ret|apply does_undef..].
Qed.

Lemma does_lock_owner a v o :
  does (lock_owner a) v o (fun w v' o' => o !! a = Some (Lock w) /\ v' = v /\ o' = o).
Proof.
  unfold lock_owner. eapply does_bind; [apply does_get_obj|]. cbv beta. intros b v' o' (Hb & -> & ->).
  destruct b; [apply does_undef|by apply does_ret|apply does_undef].
Qed.

Lemma does_splx n v o : does (on_ts (splx n)) v o (fun old v' o' => old = spl v /\ v' = with_spl n v /\ o' = o).
Proof.
  eapply does_mono; [apply does_on_ts, takes_splx|]. cbv beta. naive_solver.
Qed.

(** ** The invariant *)

(** What a sleeper waits for has not come. *)
Definition resting (o : objects) (x : thread) : Prop :=
  match pcb_resume (t_pcb x) with
  | k_P sem _ _ => t_sleepaddr x = sem /\ o !! sem = Some (Sem 0)
  | k_acquire lock _ _ => t_sleepaddr x = lock /\ exists t, o !! lock = Some (Lock (Some t))
  | k_wait _ _ _ | k_clock _ _ _ _ => True
  | _ => False
  end.

Record sound (v : places) (o : objects) : Prop := {
  so_placed : placed v;
  so_cur : is_Some (cur v);
  so_count : count v = living v;
  so_resting : forall t x, t ∈ asleep v -> tcb v !! t = Some x -> resting o x;
}.

Lemma sound_same v v' o :
  sound v o -> cur v' = cur v -> ready v' = ready v -> asleep v' = asleep v -> dead v' = dead v ->
  tcb v' = tcb v -> count v' = count v -> sound v' o.
Proof.
  intros [Hp Hc Hn Hr] E1 E2 E3 E4 E5 E6. split; rewrite ?E1, ?E2, ?E3, ?E4, ?E5, ?E6; try done.
  - eapply placed_perm; [exact Hp| |by rewrite E5]. unfold everyone. by rewrite E1, E2, E3, E4.
  - unfold living in *. by rewrite E1, E2, E3.
Qed.

Lemma sound_with_spl n v o : sound v o -> sound (with_spl n v) o.
Proof. intros Hs. by apply (sound_same v). Qed.

Lemma sound_with_intr n v o : sound v o -> sound (with_intr n v) o.
Proof. intros Hs. by apply (sound_same v). Qed.

Lemma sound_recorded c x v o : sound v o -> cur v = Some c -> sound (recorded c x v) o.
Proof.
  intros [Hp Hc Hn Hr] Hcur. split; try done.
  - eapply placed_perm; [exact Hp|done|]. intros t Ht. simpl. destruct (decide (t = c)) as [->|].
    + by rewrite lookup_insert_eq.
    + by rewrite lookup_insert_ne.
  - simpl. intros t y Hin Hy. pose proof (cur_not_asleep _ _ Hp Hcur).
    rewrite lookup_insert_ne in Hy by (intros ->; done). by eapply Hr.
Qed.

Lemma sound_woken v v' o : sound v o -> woken v v' -> sound v' o.
Proof.
  intros [Hp Hc Hn Hr] Hw. pose proof (woken_everyone _ _ Hw) as He.
  destruct (woken_same _ _ Hw) as (E1 & E2 & E3 & E4 & _). split; rewrite ?E1, ?E4; try done.
  - eapply placed_perm; [done|done|by rewrite E3].
  - destruct Hw as (w & Hw & Hv'). rewrite Hn. unfold living. rewrite Hv'. simpl.
    rewrite lenZ_app. unfold lenZ. rewrite (Permutation_length Hw), length_app. lia.
  - rewrite E3. intros t x Ht. apply Hr. destruct Hw as (w & Hw & _). rewrite Hw, elem_of_app. auto.
Qed.

Lemma sound_buried v v' o : sound v o -> buried v v' -> sound v' o.
Proof.
  intros [Hp Hc Hn Hr] Hb. pose proof (buried_placed _ _ Hp Hb) as Hp'. destruct Hb as (m & -> & Hm).
  split; try done. simpl in *. intros t x Ht Hx. apply (Hr t); [done|]. rewrite <- Hm; [done|].
  intros Hd. apply (dead_alone v t Hp Hd). rewrite !elem_of_app. auto.
Qed.

Lemma buried_moved (v v' : places) : buried v v' -> moved v v' false.
Proof. intros (m & -> & _). by apply moved_same. Qed.

(** Going to the next thread: whoever falls asleep has something to wait for. *)
Lemma sound_switched ns k (v v' : places) o c x :
  placed v -> running v c x -> count v = living v - (if ns is S_ZOMB then 1 else 0) ->
  (forall t y, t ∈ asleep v -> tcb v !! t = Some y -> resting o y) ->
  (ns = S_SLEEP -> forall j, resting o (mk_thread (mk_pcb k j) (t_sleepaddr x) (t_stack x) (t_vmspace x) (t_cwd x))) ->
  switched ns k v v' -> sound v' o /\ moved v v' true.
Proof.
  intros Hp [Hc Hx] Hn Hr Hsl Hsw. destruct (switched_lists _ _ _ _ Hsw) as (He & Hm & E1 & E2 & Hl & Ha).
  split; [|done]. destruct Hsw as (c' & x' & v1 & v2 & n & l & i & j & Hc' & Hx' & _ & _ & _ & Hv').
  replace c' with c in * by congruence. replace x' with x in * by congruence.
  assert (tcb v' = <[c:=mk_thread (mk_pcb k j) (t_sleepaddr x) (t_stack x) (t_vmspace x) (t_cwd x)]> (tcb v)) as Ht
    by by rewrite Hv'.
  split.
  - eapply placed_perm; [exact Hp|exact He|]. rewrite Ht. intros t Hin. destruct (decide (t = c)) as [->|].
    + by rewrite lookup_insert_eq.
    + by rewrite lookup_insert_ne.
  - rewrite Hv'. by eexists.
  - congruence.
  - rewrite Ht. intros t y Hin Hy. destruct (Ha t Hin) as [Hin'|[-> Ht']].
    + pose proof (cur_not_asleep _ _ Hp Hc). rewrite lookup_insert_ne in Hy by (intros ->; done). by eapply Hr.
    + replace t with c in Hy by congruence. rewrite lookup_insert_eq in Hy. injection Hy as <-. by apply Hsl.
Qed.

(** An object may change when nobody sleeps on it, or when those who do not wait for
    what it holds. *)
Definition open (b : option obj) : Prop :=
  match b with Some (Sem c) => c <> 0 | Some (Lock (Some _)) => False | _ => True end.

Lemma resting_put o a b x :
  resting o x -> open (o !! a) \/ t_sleepaddr x <> a -> resting (<[a := b]> o) x.
Proof.
  unfold resting, open. destruct (pcb_resume (t_pcb x)); try done.
  - intros [<- Hr] H. rewrite lookup_insert_ne; [done|]. intros ->. rewrite Hr in H. naive_solver.
  - intros [<- (t & Hr)] H. rewrite lookup_insert_ne; [by eauto|]. intros ->. rewrite Hr in H. naive_solver.
Qed.

Lemma sound_put_obj a b v o :
  sound v o -> open (o !! a) \/ (forall t, t ∈ asleep v -> ~ on_addr a v t) ->
  sound v (<[a := b]> o).
Proof.
  intros [Hp Hc Hn Hr] Ha. split; try done.
  intros t x Hin Hx. apply resting_put; [by eapply Hr|]. destruct Ha as [Ha|Ha]; [by left|right].
  intros Heq. apply (Ha t Hin). unfold on_addr, sleepaddr. rewrite Hx. simpl. by f_equal.
Qed.

Lemma wakeup_none_left addr (v : places) t : t ∈ asleep (wakeup addr v) -> ~ on_addr addr (wakeup addr v) t.
Proof. simpl. rewrite list_elem_of_filter. intros [Hn _]. exact Hn. Qed.

(** ** One step *)

(** A lock goes from nobody to the current thread and from the current thread to
    nobody; nobody else's changes. *)
Definition handover (c : option Z) (o o' : objects) : Prop :=
  forall l w w', o !! l = Some (Lock w) -> o' !! l = Some (Lock w') ->
  w = w' \/ (w = None /\ w' = c) \/ (w = c /\ w' = None).

Definition goes (sw : bool) (v : places) (o : objects) (v' : places) (o' : objects) : Prop :=
  sound v' o' /\ moved v v' sw /\ handover (cur v) o o'.

Lemma handover_refl c o : handover c o o.
Proof. intros l w w' H1 H2. left. congruence. Qed.

Lemma goes_here (v v' : places) o sw : sound v' o -> moved v v' sw -> goes sw v o v' o.
Proof. intros Hs Hm. split; [done|]. split; [done|apply handover_refl]. Qed.

Lemma goes_then v o v1 o1 v' sw :
  goes false v o v1 o1 -> sound v' o1 -> moved v1 v' sw -> goes sw v o v' o1.
Proof. intros (_ & Hm & Hh) Hs Hm'. split; [done|]. split; [by eapply moved_trans|done]. Qed.

Lemma goes_after v v1 o v' o' sw : moved v v1 false -> goes sw v1 o v' o' -> goes sw v o v' o'.
Proof.
  intros Hm (Hs & Hm' & Hh). split; [done|]. split; [by eapply moved_trans|]. destruct Hm as (w & Hc & _).
  by rewrite Hc in Hh.
Qed.

Lemma goes_put v o a b :
  sound v (<[a := b]> o) ->
  (forall w w', o !! a = Some (Lock w) -> b = Lock w' -> (w = None /\ w' = cur v) \/ (w = cur v /\ w' = None)) ->
  goes false v o v (<[a := b]> o).
Proof.
  intros Hs Hl. split; [done|]. split; [by apply moved_same|]. intros l w w' Hw.
  destruct (decide (l = a)) as [->|].
  - rewrite lookup_insert_eq. intros [= Hb]. right. by apply Hl.
  - rewrite lookup_insert_ne by done. intros Hw'. left. congruence.
Qed.

Definition returned {A} (r : option A) : bool := match r with Some _ => false | None => true end.
Notation goes_on v o := (fun r v' o' => goes (returned r) v o v' o').
Notation stays v o := (fun _ v' o' => goes false v o v' o').

Lemma does_restore spls v o :
  does (restore spls) v o (fun _ v' o' => (exists n, v' = with_spl n v) /\ o' = o).
Proof.
  cut (forall v', (exists n, v' = with_spl n v) ->
       does (restore spls) v' o (fun _ v' o' => (exists n, v' = with_spl n v) /\ o' = o)).
  { intros Hc. apply Hc. exists (spl v). by destruct v. }
  induction spls as [|n spls IH]; intros v' Hv'; simpl; [by apply does_ret|].
  eapply does_bind; [apply does_splx|]. cbv beta. intros old v'' o' (_ & -> & ->). apply IH.
  destruct Hv' as [m ->]. by exists n.
Qed.

(** Falling asleep, with something to wait for. *)
Lemma does_sleep addr k v o :
  sound v o -> crowd v < max_threads ->
  (forall (x : thread) j, resting o (mk_thread (mk_pcb k j) addr (t_stack x) (t_vmspace x) (t_cwd x))) ->
  does (on_ts (thread_sleep_out cpu_idle idle_fuel addr k)) v o (fun _ v' o' => sound v' o' /\ moved v v' true /\ o' = o).
Proof.
  intros Hs Hn Hr. eapply does_mono; [apply does_on_ts, takes_sleep_out; [exact idle_wakes|exact Hn]|].
  cbv beta. intros b v' o' [(c & x & [Hc Hx] & Hsw) ->].
  pose proof (sound_recorded c (with_sleepaddr addr x) v o Hs Hc) as [Hp Hc' Hcount Hrest].
  destruct (sound_switched S_SLEEP k (recorded c (with_sleepaddr addr x) v) v' o c (with_sleepaddr addr x))
    as [Hs' Hm]; try done.
  - split; [exact Hc|]. simpl. apply lookup_insert_eq.
  - rewrite Hcount. simpl. lia.
Qed.

Lemma does_P_loop sem n k v o :
  sound v o -> crowd v < max_threads -> does (P_loop cpu_idle idle_fuel sem n k) v o (goes_on v o).
Proof.
  intros Hs Hn. unfold P_loop. eapply does_bind; [apply does_sem_count|]. cbv beta. intros c v' o' (Hc & -> & ->).
  destruct (Z.eqb_spec c 0) as [->|Hne].
  - eapply does_bind; [apply does_sleep; try done|]; cbv beta.
    intros b v' o' (Hs' & Hm & ->). apply does_ret. by apply goes_here.
  - eapply does_bind; [apply (does_assert _ v o (fun _ v' o' => 0 < c /\ v' = v /\ o' = o))|].
    { intros Hb. split; [lia|done]. }
    intros _ v' o' (Hpos & -> & ->).
    eapply does_bind; [apply does_put_obj|]. cbv beta. intros _ v' o' [-> ->].
    eapply does_bind; [apply does_splx|]. cbv beta. intros old v' o' (_ & -> & ->). apply does_ret.
    eapply goes_then; [apply goes_put; [apply sound_put_obj; [done|]|]| |by apply moved_same].
    + left. by rewrite Hc.
    + intros w w' Hw. congruence.
    + apply sound_with_spl, sound_put_obj; [done|left; by rewrite Hc].
Qed.

(** Letting the sleepers on [a] go after it has changed. *)
Lemma does_put_wakeup {B} a b v o (m : M ssys B) Qv :
  sound v o -> crowd v < max_threads ->
  (forall w w', o !! a = Some (Lock w) -> b = Lock w' -> (w = None /\ w' = cur v) \/ (w = cur v /\ w' = None)) ->
  (forall v' o', goes false v o v' o' -> crowd v' = crowd v -> does m v' o' Qv) ->
  does (do! put_obj a b in do! on_ts (thread_wakeup a) in m) v o Qv.
Proof.
  intros Hs Hn Hl Hm. eapply does_bind; [apply does_put_obj|]. cbv beta. intros _ v' o' [-> ->].
  eapply does_bind; [apply does_on_ts; by apply takes_wakeup|]. cbv beta. intros _ v' o' [-> ->]. apply Hm.
  - split.
    { apply sound_put_obj; [|right; apply wakeup_none_left]. eapply sound_woken; [done|apply wakeup_woken]. }
    split; [apply woken_moved, wakeup_woken|].
    intros l w w' Hw. destruct (decide (l = a)) as [->|].
    + rewrite lookup_insert_eq. intros [= Hb']. right. by apply Hl.
    + rewrite lookup_insert_ne by done. intros Hw'. left. congruence.
  - unfold crowd, lenZ. f_equal. apply Permutation_length, woken_everyone, wakeup_woken.
Qed.

(** Getting back to the old interrupt level ends every primitive. *)
Lemma does_return {A} n (a : A) v o v1 o1 :
  goes false v o v1 o1 -> does (do! on_ts (splx n) in ret a) v1 o1 (stays v o).
Proof.
  intros Hg. eapply does_bind; [apply does_splx|]. cbv beta. intros old v' o' (_ & -> & ->). apply does_ret.
  eapply goes_then; [exact Hg|apply sound_with_spl, Hg|by apply moved_same].
Qed.

Lemma goes_spl n v o : sound v o -> goes false v o (with_spl n v) o.
Proof. intros Hs. apply goes_here; [by apply sound_with_spl|by apply moved_same]. Qed.

Lemma goes_refl v o : sound v o -> goes false v o v o.
Proof. intros Hs. apply goes_here; [done|by apply moved_same]. Qed.

Lemma does_skip_assert {A} b (m : M ssys A) v o Qv : does m v o Qv -> does (do! assert_ b in m) v o Qv.
Proof. intros Hm. destruct b; [exact Hm|]. intros s _ _ a s' [=]. Qed.

Lemma does_P sem k v o :
  sound v o -> crowd v < max_threads -> does (P cpu_idle idle_fuel sem k) v o (goes_on v o).
Proof.
  intros Hs Hn. unfold P, splhigh. apply does_skip_assert, does_get. intros s Hr Ho. apply does_skip_assert.
  eapply does_bind; [apply does_splx|]. cbv beta. intros n v' o' (-> & -> & ->).
  eapply does_mono; [apply does_P_loop; [by apply sound_with_spl|exact Hn]|]. intros r v' o' Hg.
  eapply goes_after; [|exact Hg]. by apply moved_same.
Qed.

Lemma does_V sem v o : sound v o -> crowd v < max_threads -> does (V sem) v o (stays v o).
Proof.
  intros Hs Hn. unfold V, splhigh. apply does_skip_assert.
  eapply does_bind; [apply does_splx|]. cbv beta. intros n v' o' (-> & -> & ->).
  eapply does_bind; [apply does_sem_count|]. cbv beta. intros c v' o' (Hc & -> & ->).
  eapply does_bind; [apply does_int_of|]. cbv beta. intros c' v' o' (-> & Hi & -> & ->).
  destruct (0 <? c + 1); [|eapply does_bind; [apply does_put_obj|]; intros _ v' o' _ s _ _; by intros].
  apply does_put_wakeup; [by apply sound_with_spl|done|congruence|].
  intros v' o' Hg _. apply does_return. eapply goes_after; [|exact Hg]. by apply moved_same.
Qed.

Lemma does_get_cur {B} (f : ssys -> M ssys B) g v o Qv :
  (forall s, f s = g (curthread (ts s))) -> does (g (cur v)) v o Qv -> does (bind get f) v o Qv.
Proof.
  intros Hf Hg. apply does_get. intros s Hr _. rewrite Hf, (rf_cur _ _ Hr). exact Hg.
Qed.

Lemma does_hold lock v o :
  does (lock_do_i_hold lock) v o (fun b v' o' => v' = v /\ o' = o /\
    exists w, o !! lock = Some (Lock w) /\ b = bool_decide (cur v = w)).
Proof.
  unfold lock_do_i_hold, splhigh. destruct (lock =? 0); [apply does_panic|].
  eapply does_bind; [apply does_splx|]. cbv beta. intros n v' o' (-> & -> & ->).
  eapply does_bind; [apply does_lock_owner|]. cbv beta. intros w v' o' (Hw & -> & ->).
  apply does_get. intros s Hr _. rewrite (rf_cur _ _ Hr).
  eapply does_bind; [apply does_splx|]. cbv beta. intros old v' o' (_ & -> & ->). apply does_ret.
  split; [by destruct v|]. split; [done|]. by exists w.
Qed.

Lemma does_acquire_loop lock spls k v o :
  sound v o -> crowd v < max_threads -> does (acquire_loop cpu_idle idle_fuel lock spls k) v o (goes_on v o).
Proof.
  intros Hs Hn. unfold acquire_loop. eapply does_bind; [apply does_lock_owner|]. cbv beta. intros w v' o' (Hw & -> & ->).
  destruct w as [w|].
  - eapply does_bind; [apply does_sleep; try done|]; cbv beta.
    { intros x j. simpl. split; [done|by exists w]. }
    intros b v' o' (Hs' & Hm & ->). apply does_ret. by apply goes_here.
  - apply does_get. intros s Hr _. rewrite (rf_cur _ _ Hr).
    eapply does_bind; [apply does_put_obj|]. cbv beta. intros _ v' o' [-> ->].
    assert (sound v (<[lock:=Lock (cur v)]> o)) as Hs'
      by (apply sound_put_obj; [done|left; by rewrite Hw]).
    eapply does_bind; [apply does_restore|]. cbv beta. intros _ v' o' [[n ->] ->]. apply does_ret.
    eapply goes_then; [apply goes_put; [done|]|by apply sound_with_spl|by apply moved_same].
    intros w w' Hw'. rewrite Hw in Hw'. naive_solver.
Qed.

Lemma does_lock_acquire lock spls k v o :
  sound v o -> crowd v < max_threads -> does (lock_acquire cpu_idle idle_fuel lock spls k) v o (goes_on v o).
Proof.
  intros Hs Hn. unfold lock_acquire, splhigh.
  eapply does_bind; [apply does_splx|]. cbv beta. intros n v' o' (-> & -> & ->).
  destruct (lock =? 0); [apply does_panic|].
  eapply does_bind; [apply does_hold|]. cbv beta. intros b v' o' (-> & -> & _).
  destruct b; [apply does_panic|].
  eapply does_mono; [apply does_acquire_loop; [by apply sound_with_spl|exact Hn]|]. intros r v' o' Hg.
  eapply goes_after; [|exact Hg]. by apply moved_same.
Qed.

Lemma does_lock_release lock v o :
  sound v o -> crowd v < max_threads ->
  does (lock_release lock) v o (fun _ v' o' => goes false v o v' o' /\ crowd v' = crowd v).
Proof.
  intros Hs Hn. unfold lock_release, splhigh. destruct (lock =? 0); [apply does_panic|].
  eapply does_bind; [apply does_lock_owner|]. cbv beta. intros w v' o' (Hw & -> & ->).
  apply does_get. intros s Hr _. rewrite (rf_cur _ _ Hr). case_bool_decide; [|apply does_panic]. subst w.
  eapply does_bind; [apply does_splx|]. cbv beta. intros n v' o' (-> & -> & ->).
  apply does_put_wakeup; [by apply sound_with_spl|done| |].
  { intros w w' Hw'. rewrite Hw in Hw'. simpl. naive_solver. }
  intros v' o' Hg Hcr. eapply does_bind; [apply does_splx|]. cbv beta. intros old v'' o'' (_ & -> & ->). apply does_ret.
  split; [|exact Hcr]. eapply goes_after; [by apply moved_same|].
  eapply goes_then; [exact Hg|apply sound_with_spl, Hg|by apply moved_same].
Qed.

Lemma does_cv_wait cv lock k v o :
  sound v o -> crowd v < max_threads -> does (cv_wait cpu_idle idle_fuel cv lock k) v o (goes_on v o).
Proof.
  intros Hs Hn. unfold cv_wait, splhigh. do 2 apply does_skip_assert.
  eapply does_bind; [apply does_splx|]. cbv beta. intros n v' o' (-> & -> & ->).
  eapply does_bind; [apply does_lock_release; [by apply sound_with_spl|exact Hn]|]. cbv beta. intros u v1 o1 [Hg Hcr].
  assert (goes false v o v1 o1) as Hg' by (eapply goes_after; [|exact Hg]; by apply moved_same).
  eapply does_bind; [apply does_sleep; [apply Hg|rewrite Hcr; exact Hn|done]|]. cbv beta.
  intros b v' o' (Hs' & Hm & ->). apply does_ret. by eapply goes_then.
Qed.

Lemma does_cv_wake wake cv lock v o :
  (forall v, crowd v < max_threads -> takes (wake cv) v (fun _ v' => woken v v')) ->
  sound v o -> crowd v < max_threads -> does (cv_wake wake cv lock) v o (stays v o).
Proof.
  intros Hwake Hs Hn. unfold cv_wake, splhigh. do 2 apply does_skip_assert.
  eapply does_bind; [apply does_splx|]. cbv beta. intros n v' o' (-> & -> & ->).
  eapply does_bind; [apply does_hold|]. cbv beta. intros b v' o' (-> & -> & _).
  destruct b; simpl; [|apply does_panic].
  eapply does_bind; [apply does_on_ts, Hwake, Hn|]. cbv beta. intros _ v' o' [Hw ->]. apply does_return.
  apply (goes_after _ (with_spl SPL_HIGH v)); [by apply moved_same|]. apply goes_here; [|by apply woken_moved].
  eapply sound_woken; [|exact Hw]. by apply sound_with_spl.
Qed.

(** ** Every step of the processor *)

Lemma crowd_buried (v v' : places) : buried v v' -> crowd v' <= crowd v.
Proof. intros (m & -> & _). rewrite !crowd_eq. simpl. pose proof (lenZ_nonneg (dead v)). unfold lenZ in *. simpl. lia. Qed.

Lemma crowd_living (v : places) : living v <= crowd v.
Proof. rewrite crowd_eq. unfold living. pose proof (lenZ_nonneg (dead v)). lia. Qed.

Lemma sound_forked start v v' o t : sound v o -> forked start v v' t -> sound v' o /\ moved v v' false.
Proof.
  intros [Hp Hc Hn Hr] (x & Ht & _ & ->). destruct Hp as [Hnd Htcb]. split; [|by exists [t]].
  assert (t ∉ everyone v) as Hout by (intros Hin; destruct (Htcb t Hin); congruence).
  assert (forall r, everyone (with_count r (with_ready (ready v ++ [t]) (recorded t x v))) ≡ₚ t :: everyone v) as He
    by (intros r; unfold everyone; simpl; solve_Permutation).
  split; try done.
  - split; [rewrite He; by apply NoDup_cons|]. intros t' Hin. rewrite He in Hin. simpl.
    apply elem_of_cons in Hin as [->|Hin]; [by rewrite lookup_insert_eq|].
    rewrite lookup_insert_ne by (intros ->; done). auto.
  - unfold living in *. simpl. rewrite lenZ_app, Hn. unfold lenZ. simpl. lia.
  - simpl. intros t' y Hin Hy. rewrite lookup_insert_ne in Hy; [by eapply Hr|]. intros ->. apply Hout.
    unfold everyone. rewrite !elem_of_app. auto.
Qed.

Lemma does_sleep_in v o :
  sound v o -> does (on_ts thread_sleep_in) v o (fun _ v' o' => o' = o /\ sound v' o /\ moved v v' false /\ crowd v' <= crowd v).
Proof.
  intros Hs. eapply does_mono; [apply does_on_ts, takes_sleep_in|]. cbv beta.
  intros _ v' o' [(v1 & c & x & Hb & [Hc Hx] & ->) ->]. split; [done|]. split; [|split].
  - apply sound_recorded; [by eapply sound_buried|done].
  - eapply moved_trans; [by apply buried_moved|by apply moved_same].
  - exact (crowd_buried _ _ Hb).
Qed.

Lemma does_yield_in n v o : sound v o -> does (on_ts (thread_yield_in n)) v o (stays v o).
Proof.
  intros Hs. eapply does_mono; [apply does_on_ts, takes_yield_in|]. cbv beta. intros _ v' o' [(v1 & Hb & ->) ->].
  apply goes_here; [by eapply sound_with_spl, sound_buried|].
  eapply moved_trans; [by apply buried_moved|by apply moved_same].
Qed.

Lemma does_yield_out k v o :
  sound v o -> crowd v < max_threads ->
  does (on_ts (thread_yield_out cpu_idle idle_fuel k)) v o (fun _ v' o' => goes true v o v' o').
Proof.
  intros Hs Hn. destruct (so_cur _ _ Hs) as [c Hc].
  eapply does_mono; [apply does_on_ts; by apply (takes_yield_out _ _ idle_wakes _ _ c)|]. cbv beta.
  intros _ v' o' [Hsw ->]. destruct Hs as [Hp Hcur Hcount Hr].
  destruct (pl_tcb _ Hp c) as [x Hx]; [by apply cur_everyone|].
  destruct (sound_switched S_READY (k (spl v)) (with_spl SPL_HIGH v) v' o c x) as [Hs' Hm]; try done.
  - eapply placed_perm; [exact Hp|done|done].
  - rewrite Z.sub_0_r. exact Hcount.
  - by apply goes_here.
Qed.

Lemma does_exit_out k v o :
  sound v o -> crowd v < max_threads ->
  does (on_ts (thread_exit_out cpu_idle idle_fuel k)) v o (fun _ v' o' => goes true v o v' o').
Proof.
  intros Hs Hn. destruct (so_cur _ _ Hs) as [c Hc].
  destruct (pl_tcb _ (so_placed _ _ Hs) c) as [x Hx]; [by apply cur_everyone|].
  eapply does_mono; [apply does_on_ts; by apply (takes_exit_out _ _ idle_wakes _ _ c x)|]. cbv beta.
  intros _ v' o' [(x' & Hsw) ->].
  pose proof (sound_recorded c x' _ o (sound_with_spl SPL_HIGH v o Hs) Hc) as [Hp Hcur Hcount Hr].
  destruct (sound_switched S_ZOMB k
    (with_count (count v - 1) (recorded c x' (with_spl SPL_HIGH v))) v' o c x') as [Hs' Hm]; try done.
  - eapply placed_perm; [exact Hp|done|done].
  - split; [exact Hc|]. simpl. apply lookup_insert_eq.
  - simpl in *. rewrite Hcount. done.
  - by apply goes_here.
Qed.

Lemma does_clock_loop lbolt n s k v o :
  sound v o -> crowd v < max_threads -> does (clock_loop cpu_idle idle_fuel lbolt n s k) v o (goes_on v o).
Proof.
  intros Hs Hn. unfold clock_loop. destruct (0 <? n).
  - eapply does_bind; [by apply does_sleep|]. cbv beta. intros b v' o' (Hs' & Hm & ->). apply does_ret.
    by apply goes_here.
  - eapply does_bind; [apply does_splx|]. cbv beta. intros old v' o' (_ & -> & ->). by apply does_ret, goes_spl.
Qed.

(** A new structure is where none was. *)
Lemma does_create b v o :
  sound v o ->
  does (create b) v o (fun r v' o' => v' = v /\ sound v o' /\ handover (cur v) o o' /\
    match r with Some a => a <> 0 /\ o !! a = None /\ o' = <[a := b]> o | None => o' = o end).
Proof.
  clear idle_wakes cpu_idle idle_fuel. intros Hs. unfold create. pose proof (handover_refl (cur v) o) as Hh.
  do 2 (eapply does_bind; [by apply does_on_ts, (takes_kmalloc v (fun _ v' => v' = v))|]; cbv beta;
    intros [|] v' o' [-> ->]; simpl; [|by apply does_ret]).
  apply does_get. intros s Hr <-. set (a := base.fresh ({[0]} ∪ dom (objs s)) : Z).
  assert (a ∉ ({[0]} ∪ dom (objs s) : gset Z)) as Hf by apply is_fresh.
  assert (objs s !! a = None) as Ha by (apply not_elem_of_dom; set_solver).
  eapply does_bind; [apply does_put_obj|]. cbv beta. intros _ v' o' [-> ->]. apply does_ret.
  split; [done|]. split; [|split; [|split; [set_solver|done]]].
  - apply sound_put_obj; [done|]. left. by rewrite Ha.
  - intros l w w' Hw. rewrite lookup_insert_ne by congruence. intros Hw'. left. congruence.
Qed.

Lemma does_pointer k m b v o : sound v o -> m = create b -> does (pointer k m) v o (goes_on v o).
Proof.
  intros Hs ->. eapply does_bind; [by apply does_create|]. cbv beta. intros r v' o' (-> & Hs' & Hh & _). apply does_ret.
  split; [done|]. split; [by apply moved_same|done].
Qed.

Lemma does_run_call c k v o :
  sound v o -> crowd v < max_threads -> does (run_call cpu_idle idle_fuel c k) v o (goes_on v o).
Proof.
  intros Hs Hn. destruct c; simpl.
  - by apply does_P.
  - eapply does_bind; [by apply does_V|]. cbv beta. intros u v' o' Hg. by apply does_ret.
  - by apply does_lock_acquire.
  - eapply does_bind; [by apply does_lock_release|]. cbv beta. intros u v' o' [Hg _]. by apply does_ret.
  - eapply does_bind; [by apply does_hold|]. cbv beta. intros b v' o' (-> & -> & _). by apply does_ret, goes_refl.
  - by apply does_cv_wait.
  - eapply does_bind; [apply does_cv_wake; [|done|done]|]; cbv beta.
    { intros v0 Hn0. eapply takes_mono; [by apply takes_wakeone|]. cbv beta. by intros _ v' [Hw _]. }
    intros u v' o' Hg. by apply does_ret.
  - eapply does_bind; [apply does_cv_wake; [|done|done]|]; cbv beta.
    { intros v0 Hn0. eapply takes_mono; [by apply takes_wakeup|]. cbv beta. intros _ v' ->. apply wakeup_woken. }
    intros u v' o' Hg. by apply does_ret.
  - eapply does_bind; [by apply does_yield_out|]. cbv beta. intros r v' o' Hg. by apply does_ret.
  - unfold clocksleep, splhigh. eapply does_bind; [apply does_splx|]. cbv beta. intros n v' o' (-> & -> & ->).
    eapply does_mono; [apply does_clock_loop; [by apply sound_with_spl|exact Hn]|]. intros r v' o' Hg.
    eapply goes_after; [|exact Hg]. by apply moved_same.
  - eapply does_bind; [apply does_on_ts, takes_fork; [done|]|]; cbv beta.
    { rewrite (so_count _ _ Hs). apply crowd_living. }
    intros r v' o' [Hv' ->]. apply does_ret. destruct r as [e|t]; [subst; by apply goes_refl|].
    destruct (sound_forked _ _ _ _ _ Hs Hv'). by apply goes_here.
  - by eapply does_pointer.
  - by eapply does_pointer.
  - by eapply does_pointer.
  - intros s Hr <-. apply wlp_bind, wlp_get. destruct (f (shared s)) as [[u r]|]; [apply wlp_bind, wlp_put, wlp_ret|apply wlp_undef].
    exists v. split; [done|]. by apply goes_refl.
Qed.

Lemma takes_put_intr n (v : places) :
  takes (let! s := get in put (set_in_interrupt n s)) v (fun _ v' => v' = with_intr n v).
Proof. intros s Hr. apply wlp_bind, wlp_get, wlp_put. eexists. split; [|done]. destruct Hr. by split. Qed.

Lemma does_interrupted {A} (k : Z -> Z -> M ssys A) v o Qv :
  sound v o -> (forall n m v', sound v' o -> moved v v' false -> crowd v' = crowd v -> does (k n m) v' o Qv) ->
  does (interrupted k) v o Qv.
Proof.
  intros Hs Hk. unfold interrupted, splhigh. apply does_get. intros s Hr _.
  eapply does_bind; [apply does_splx|]. cbv beta. intros n v' o' (-> & -> & ->).
  eapply does_bind; [apply does_on_ts, takes_put_intr|]. cbv beta. intros _ v' o' [-> ->].
  apply Hk; [by apply sound_with_intr, sound_with_spl|by apply moved_same|done].
Qed.

Lemma does_back n m v o v1 o1 :
  goes false v o v1 o1 -> does (back_from_interrupt n m) v1 o1 (stays v o).
Proof.
  intros Hg. eapply does_bind; [apply does_on_ts, takes_put_intr|]. cbv beta. intros _ v' o' [-> ->].
  apply does_return. eapply goes_then; [exact Hg|apply sound_with_intr, Hg|by apply moved_same].
Qed.

Lemma does_resume k v o :
  sound v o -> crowd v < max_threads -> does (resume cpu_idle idle_fuel k) v o (goes_on v o).
Proof.
  intros Hs Hn. destruct k; simpl.
  - eapply does_bind; [apply does_on_ts, takes_threadstart_in|]. cbv beta. intros _ v' o' [-> ->].
    by apply does_ret, goes_spl.
  - eapply does_bind; [by apply does_sleep_in|]. cbv beta. intros u v' o' (-> & Hs' & Hm & Hle).
    eapply does_mono; [apply does_P_loop; [done|lia]|]. intros r v'' o' Hg. by eapply goes_after.
  - eapply does_bind; [by apply does_sleep_in|]. cbv beta. intros u v' o' (-> & Hs' & Hm & Hle).
    eapply does_mono; [apply does_acquire_loop; [done|lia]|]. intros r v'' o' Hg. by eapply goes_after.
  - eapply does_bind; [by apply does_sleep_in|]. cbv beta. intros u v' o' (-> & Hs' & Hm & Hle).
    eapply does_mono; [apply does_lock_acquire; [done|lia]|]. intros r v'' o' Hg. by eapply goes_after.
  - eapply does_bind; [by apply does_sleep_in|]. cbv beta. intros u v' o' (-> & Hs' & Hm & Hle).
    eapply does_mono; [apply does_clock_loop; [done|lia]|]. intros r v'' o' Hg. by eapply goes_after.
  - eapply does_bind; [by apply does_yield_in|]. cbv beta. intros u v' o' Hg. by apply does_ret.
  - eapply does_bind; [by apply does_yield_in|]. cbv beta. intros u v' o' Hg.
    eapply does_bind; [by apply does_back|]. cbv beta. intros u' v'' o'' Hg'. by apply does_ret.
  - apply does_panic.
Qed.

Lemma does_run code v o :
  sound v o -> crowd v < max_threads -> does (run cpu_idle idle_fuel code) v o (goes_on v o).
Proof.
  intros Hs Hn. destruct code as [[|msg|body k| |c k]|]; simpl.
  - eapply does_bind; [by apply does_exit_out|]. cbv beta. intros r v' o' Hg. by apply does_ret.
  - apply does_panic.
  - by apply does_ret, goes_refl.
  - apply does_undef.
  - by apply does_run_call.
  - eapply does_bind; [apply does_on_ts, takes_the_curthread|]. cbv beta. intros c v' o' [[-> Hc] ->].
    eapply does_bind; [apply does_on_ts, takes_get_thread|]. cbv beta. intros x v' o' [[-> Hx] ->].
    by apply does_resume.
Qed.

Lemma does_tick lbolt p v o :
  sound v o -> crowd v < max_threads -> does (tick cpu_idle idle_fuel lbolt p) v o (goes_on v o).
Proof.
  intros Hs Hn. apply does_interrupted; [done|]. intros n m v0 Hs0 Hm0 Hc0. rewrite <- Hc0 in Hn.
  eapply does_bind with (Qa := fun _ v' o' => o' = o /\ woken v0 v').
  { destruct lbolt as [a|]; [|apply does_ret; split; [done|apply woken_refl]].
    eapply does_mono; [apply does_on_ts, takes_wakeup; exact Hn|]. cbv beta. intros _ v' o' [-> ->].
    split; [done|apply wakeup_woken]. }
  intros _ v' o' [-> Hw].
  eapply does_bind; [apply does_yield_out; [by eapply sound_woken|]|].
  { unfold crowd, lenZ. rewrite (Permutation_length (woken_everyone _ _ Hw)). exact Hn. }
  cbv beta. intros r v1 o1 Hg. apply does_ret. simpl. eapply goes_after; [|exact Hg].
  apply (moved_trans _ v0); [done|by apply woken_moved].
Qed.

Lemma does_irq sem v o : sound v o -> crowd v < max_threads -> does (irq sem) v o (stays v o).
Proof.
  intros Hs Hn. apply does_interrupted; [done|]. intros n m v0 Hs0 Hm0 Hc0. rewrite <- Hc0 in Hn.
  eapply does_bind; [by apply does_V|]. cbv beta. intros u v' o' Hg. apply does_back. by eapply goes_after.
Qed.

Lemma step_goes (m m' : machine) v :
  step cpu_idle idle_fuel m m' -> refines (ts (sys m)) v -> sound v (objs (sys m)) -> crowd v < max_threads ->
  exists v', refines (ts (sys m')) v' /\ goes (returned (code m')) v (objs (sys m)) v' (objs (sys m')).
Proof.
  intros Hst Hr Hs Hn. destruct Hst as [s c s' c' Hrun|s p lbolt s' c' _ Hrun|s p sem s' _ Hrun]; simpl in *.
  - by apply (does_run c v (objs s) Hs Hn s Hr eq_refl) in Hrun.
  - by apply (does_tick lbolt p v (objs s) Hs Hn s Hr eq_refl) in Hrun.
  - by apply (does_irq sem v (objs s) Hs Hn s Hr eq_refl) in Hrun.
Qed.
End spec.
