(* ===== verification/Machine.v ===== *)
(** * Threads at work: booting, and what holds at every step of every execution. *)

From stdpp Require Import base numbers list gmap.
From Stdlib Require Import ZArith Lia.
From S2P Require Import Prelude Array Queue Thread ThreadSpec ThreadInv Synch SynchSpec.

Section boot.
Context {Q C W : Type} {F : FifoQueue Q Z} {L : FifoLaws F} {Env : ThreadEnv W}.

(** Before [boot] (main.c): nothing there, interrupts off. *)
Definition unbooted (l : list bool) (w : W) : tsys Q C W :=
  mk_tsys None None None 0 None ∅ SPL_HIGH 0 l w.

(** The two steps of [boot] that set up the threads. *)
Definition boot (p : pcb C) : M (tsys Q C W) Z :=
  do! scheduler_bootstrap true true in
  thread_bootstrap p.

(** One thread, running. *)
Definition alone (p : pcb C) (t : Z) : places C :=
  mk_places (Some t) [] [] [] {[t := mk_thread p 0 None None None]} 1 SPL_HIGH 0.

Lemma boot_alone p w : exists t s, boot p (unbooted [] w) = Done t s /\ refines s (alone p t).
Proof.
  destruct (fq_create_law 32 ltac:(lia)) as (q & Hq & Hm).
  unfold boot, scheduler_bootstrap. rewrite Hq. eexists _, _. split; [reflexivity|].
  split; simpl; try done.
  - by exists q.
  - eexists. split; [reflexivity|]. split; simpl; try done. 
  - eexists. split; [reflexivity|]. split; simpl; try done. 
Qed.
End boot.

Section executions.
Context {Q U W : Type} {F : FifoQueue Q Z} {L : FifoLaws F} {Env : ThreadEnv W}.
Context (cpu_idle : M (tsys Q (kont U) W) unit) (idle_fuel : nat).
(** What runs while there is no current thread (the handlers of interrupts in
    [cpu_idle]) wakes threads and does nothing else to them. *)
Hypothesis idle_wakes : forall v, cur v = None -> takes cpu_idle v (fun _ v' => woken v v').
Notation machine := (machine Q U W).
Notation places := (places (kont U)).

(** A thread takes a page at least, so that there are never this many. *)
Definition small (m : machine) : Prop := Z.of_nat (base.size (tcbs (ts (sys m)))) < max_threads.

(** [l] are the states the processor goes through, one after the other, from [m]. *)
Inductive trace : machine -> list machine -> Prop :=
| trace_nil m : trace m []
| trace_cons m m' l : small m -> step cpu_idle idle_fuel m m' -> trace m' l -> trace m (m' :: l).

(** The machine is in a state the invariant allows. *)
Definition stands (m : machine) : Prop := exists v, refines (ts (sys m)) v /\ sound v (objs (sys m)).

Lemma crowd_size (v : places) : placed v -> crowd v <= Z.of_nat (base.size (tcb v)).
Proof.
  intros [Hn Ht]. unfold crowd, lenZ. rewrite <- size_dom. apply inj_le.
  rewrite <- (size_list_to_set (C := gset Z)) by done. apply subseteq_size. intros t Hin.
  apply elem_of_list_to_set in Hin. apply elem_of_dom. auto.
Qed.

Lemma step_stands (m m' : machine) v :
  small m -> step cpu_idle idle_fuel m m' -> refines (ts (sys m)) v -> sound v (objs (sys m)) ->
  exists v', refines (ts (sys m')) v' /\ goes (returned (code m')) v (objs (sys m)) v' (objs (sys m')).
Proof.
  intros Hsm Hst Hr Hs. eapply step_goes; [done|done|done|done|].
  pose proof (crowd_size v (so_placed _ _ Hs)). unfold small in Hsm. rewrite (rf_tcb _ _ Hr) in Hsm. lia.
Qed.

Lemma trace_stands m l : trace m l -> stands m -> Forall stands l.
Proof.
  induction 1 as [m|m m' l Hsm Hst Htr IH]; intros (v & Hr & Hs); constructor.
  - destruct (step_stands _ _ _ Hsm Hst Hr Hs) as (v' & Hr' & Hs' & _). by exists v'.
  - apply IH. destruct (step_stands _ _ _ Hsm Hst Hr Hs) as (v' & Hr' & Hs' & _). by exists v'.
Qed.

(** After as many switches as its place in the run queue, it is a thread's turn. *)
Lemma turn_comes m l v k t :
  trace m l -> refines (ts (sys m)) v -> sound v (objs (sys m)) -> ready v !! k = Some t ->
  (k < length (filter (fun m => returned (code m) = true) l))%nat ->
  Exists (fun m => curthread (ts (sys m)) = Some t) l.
Proof.
  intros Htr. revert v k. induction Htr as [m|m m' l Hsm Hst Htr IH]; intros v k Hr Hs Hk Hlen; [simpl in Hlen; lia|].
  destruct (step_stands _ _ _ Hsm Hst Hr Hs) as (v' & Hr' & Hs' & (w & Hm) & _). destruct (returned (code m')) eqn:Hc.
  - destruct Hm as (n & Hn & Hq). rewrite filter_cons_True in Hlen by done. simpl in Hlen.
    pose proof (lookup_app_l_Some _ w _ _ Hk) as Hk'. rewrite Hq in Hk'. destruct k as [|k]; simpl in Hk'.
    + left. rewrite (rf_cur _ _ Hr'). congruence.
    + right. apply (IH v' k); [done|done|done|lia].
  - destruct Hm as [_ Hq]. rewrite filter_cons_False in Hlen by congruence. right.
    apply (IH v' k); [done|done| |done]. rewrite Hq. by apply lookup_app_l_Some.
Qed.

(** Each live thread is in exactly one place. *)
Definition in_place (m : machine) : Prop :=
  exists c q rq a sl z dd,
    curthread (ts (sys m)) = Some c /\ runqueue (ts (sys m)) = Some q /\ fq_model q rq /\
    sleepers (ts (sys m)) = Some a /\ repr a (Some <$> sl) /\ zombies (ts (sys m)) = Some z /\ repr z (Some <$> dd) /\
    NoDup (c :: rq ++ sl ++ dd) /\ (forall t, t ∈ c :: rq ++ sl ++ dd -> is_Some (tcbs (ts (sys m)) !! t)) /\
    numthreads (ts (sys m)) = 1 + lenZ rq + lenZ sl.

Lemma stands_in_place m : stands m -> in_place m.
Proof.
  intros (v & Hr & [[Hn Ht] [c Hc] Hcount _]). destruct (rf_ready _ _ Hr) as (q & Hq & Hm).
  destruct (rf_asleep _ _ Hr) as (a & Ha & Hra). destruct (rf_dead _ _ Hr) as (z & Hz & Hrz).
  unfold everyone, living in *. rewrite Hc in *. simpl in *.
  exists c, q, (ready v), a, (asleep v), z, (dead v). rewrite (rf_cur _ _ Hr), (rf_tcb _ _ Hr), (rf_count _ _ Hr), Hcount.
  unfold lenZ. simpl. split_and!; done || lia.
Qed.

(** What those who sleep wait for has not come: a thread in [P] sleeps only while the
    semaphore is 0, one in [lock_acquire] only while somebody has the lock. *)
Definition no_waste (m : machine) : Prop :=
  exists a sl, sleepers (ts (sys m)) = Some a /\ repr a (Some <$> sl) /\
  forall t x, t ∈ sl -> tcbs (ts (sys m)) !! t = Some x ->
  match pcb_resume (t_pcb x) with
  | k_P sem _ _ => objs (sys m) !! sem = Some (Sem 0)
  | k_acquire lock _ _ => exists owner, objs (sys m) !! lock = Some (Lock (Some owner))
  | k_wait _ _ _ | k_clock _ _ _ _ => True
  | _ => False
  end.

Lemma stands_no_waste m : stands m -> no_waste m.
Proof.
  intros (v & Hr & [_ _ _ Hrest]). destruct (rf_asleep _ _ Hr) as (a & Ha & Hra).
  exists a, (asleep v). split; [done|]. split; [done|]. rewrite (rf_tcb _ _ Hr). intros t x Hin Hx.
  specialize (Hrest t x Hin Hx). unfold resting in Hrest. destruct (pcb_resume (t_pcb x)); naive_solver.
Qed.

Lemma stands_handover m m' l w w' :
  small m -> step cpu_idle idle_fuel m m' -> stands m ->
  objs (sys m) !! l = Some (Lock w) -> objs (sys m') !! l = Some (Lock w') ->
  w = w' \/ (w = None /\ w' = curthread (ts (sys m))) \/ (w = curthread (ts (sys m)) /\ w' = None).
Proof.
  intros Hsm Hst (v & Hr & Hs) Hw Hw'. destruct (step_stands _ _ _ Hsm Hst Hr Hs) as (v' & _ & _ & _ & Hh).
  rewrite (rf_cur _ _ Hr). by apply (Hh l).
Qed.

Definition next (m : machine) : option machine :=
  match run cpu_idle idle_fuel (code m) (sys m) with Done c s => Some (mk_machine s c) | _ => None end.

Lemma next_step m m' : next m = Some m' -> step cpu_idle idle_fuel m m'.
Proof.
  unfold next. destruct m as [s c]. simpl. destruct (run cpu_idle idle_fuel c s) as [c' s'| | |] eqn:Hrun; [|done..].
  intros [= <-]. by constructor.
Qed.

Definition is_small (m : machine) : bool := Z.of_nat (base.size (tcbs (ts (sys m)))) <? max_threads.

(** [check] after [n] rounds. *)
Fixpoint runs (n : nat) (check : machine -> bool) (m : machine) : bool :=
  match n with
  | O => check m
  | S n => is_small m && match next m with Some m' => runs n check m' | None => false end
  end.

Lemma runs_trace n check m : runs n check m = true -> exists l, length l = n /\ trace m l /\ check (default m (last l)) = true.
Proof.
  revert m. induction n as [|n IH]; intros m; simpl.
  - intros Hc. exists []. split; [done|]. split; [constructor|done].
  - destruct (is_small m) eqn:Hsm; [|done]. destruct (next m) as [m'|] eqn:Hn; [|done]. simpl. intros Hr.
    destruct (IH m' Hr) as (l & Hl & Htr & Hc). exists (m' :: l). split; [simpl; congruence|]. split.
    + constructor; [unfold small, is_small in *; lia|by apply next_step|done].
    + rewrite last_cons. destruct (last l); done.
Qed.
End executions.

(** ** Properties *)

Section properties.
Context {Q U W : Type} {F : FifoQueue Q Z} {L : FifoLaws F} {Env : ThreadEnv W}.

(** C4. Every thread is in exactly one place, at every step of every execution: it is
    the current thread, or once on the run queue, or once among the sleepers, or once
    among the zombies; its structure has not been freed; and [numthreads] is the number
    of those that have not exited. Timer and disk interrupts may come between any two
    steps. *)
Theorem threads_in_place cpu_idle idle_fuel (m : machine Q U W) l
    (Hidle : forall v, cur v = None -> takes cpu_idle v (fun _ v' => woken v v')) :
  stands m -> trace cpu_idle idle_fuel m l -> Forall in_place l.
Proof.
  intros Hm Htr. eapply Forall_impl; [by eapply trace_stands|]. intros m'. apply stands_in_place.
Qed.


(** C23. A lock is its owner's: a step of the processor gives a free lock to the current
    thread, takes it from the current thread, or leaves it with the one who has it. *)
Theorem locks_are_exclusive cpu_idle idle_fuel (m m' : machine Q U W) l w w'
    (Hidle : forall v, cur v = None -> takes cpu_idle v (fun _ v' => woken v v')) :
  stands m -> small m -> step cpu_idle idle_fuel m m' ->
  objs (sys m) !! l = Some (Lock w) -> objs (sys m') !! l = Some (Lock w') ->
  w = w' \/ (w = None /\ w' = curthread (ts (sys m))) \/ (w = curthread (ts (sys m)) /\ w' = None).
Proof. intros Hm Hsm Hst. by eapply stands_handover. Qed.

(** C22. The scheduler is fair: a thread that is [k]th on the run queue is the current
    thread before the processor has been handed over more than [k + 1] times, whatever
    the threads, the timer and the disks do in the meantime. *)
Theorem every_turn_comes cpu_idle idle_fuel (m : machine Q U W) l v k t
    (Hidle : forall v, cur v = None -> takes cpu_idle v (fun _ v' => woken v v')) :
  trace cpu_idle idle_fuel m l -> refines (ts (sys m)) v -> sound v (objs (sys m)) -> ready v !! k = Some t ->
  (k < length (filter (fun m => returned (code m) = true) l))%nat ->
  Exists (fun m => curthread (ts (sys m)) = Some t) l.
Proof. intros Htr Hr Hs Hk Hn. by eapply turn_comes. Qed.
End properties.

(** ** Two threads, a semaphore and a lock *)

#[export] Instance demo_env : ThreadEnv unit := {
  cwd_incref := fun _ => ret tt;
  cwd_decref := fun _ => ret tt;
  as_activate := fun _ => ret tt;
  as_destroy := fun _ => ret tt;
}.

Definition demo_pcb : pcb (kont Z) := mk_pcb k_dead 0.
Definition demo_objs : gmap Z obj := {[100 := Sem 0; 200 := Lock None]}.

(** Take the lock, start a thread, wait for it. *)
Definition demo_prog : prog Z :=
  p_call (c_acquire 200) (fun _ =>
  p_call (c_fork (p_call (c_V 100) (fun _ => p_done))) (fun _ =>
  p_call (c_P 100) (fun _ => p_done))).

Definition demo_machine (s : tsys (queue Z) (kont Z) unit) : machine (queue Z) Z unit :=
  mk_machine (mk_ssys s demo_objs 0) (Some demo_prog).

Definition demo_sys : tsys (queue Z) (kont Z) unit :=
  match boot demo_pcb (unbooted [] tt) with Done _ s => s | _ => unbooted [] tt end.
Definition demo_start : machine (queue Z) Z unit := demo_machine demo_sys.

Lemma demo_idle_wakes (v : places (kont Z)) :
  cur v = None -> takes (ret tt : M (tsys (queue Z) (kont Z) unit) unit) v (fun _ v' => woken v v').
Proof. intros _. apply takes_ret, woken_refl. Qed.

Lemma alone_sound t : sound (alone demo_pcb t) demo_objs.
Proof.
  split; simpl.
  - split; [apply NoDup_singleton|]. intros t' Hin. apply list_elem_of_singleton in Hin as ->. simpl.
    by rewrite lookup_singleton_eq.
  - by eexists.
  - done.
  - intros t' x Hin. by apply elem_of_nil in Hin.
Qed.

Lemma demo_stands : stands demo_start.
Proof.
  destruct (boot_alone (Q := queue Z) demo_pcb tt) as (t & s & Hrun & Hr). exists (alone demo_pcb t). split; [|apply alone_sound].
  unfold demo_start, demo_machine, demo_sys. by rewrite Hrun.
Qed.

Notation demo_trace := (trace (ret tt) 0) (only parsing).

(** How many threads sleep. *)
Definition sleeping (n : Z) (m : machine (queue Z) Z unit) : bool :=
  match sleepers (ts (sys m)) with Some a => num a =? n | None => false end.

(** The lock, the new thread, the wait; the new thread's [V]; its exit; the first thread
    again, to its end. *)
Lemma threads_in_place_witness : exists l, length l = 6%nat /\ demo_trace demo_start l /\ Forall in_place l.
Proof.
  destruct (runs_trace (ret tt) 0 6 (sleeping 0) demo_start) as (l & Hl & Htr & _); [vm_compute; reflexivity|].
  exists l. split; [exact Hl|]. split; [exact Htr|].
  exact (threads_in_place (ret tt) 0 demo_start l demo_idle_wakes demo_stands Htr).
Defined.


Definition held (m : machine (queue Z) Z unit) : bool :=
  match objs (sys m) !! 200 with Some (Lock (Some _)) => true | _ => false end.

Lemma locks_are_exclusive_witness :
  exists m t, step (ret tt) 0 demo_start m /\ objs (sys m) !! 200 = Some (Lock (Some t)) /\
    Some t = curthread (ts (sys demo_start)).
Proof.
  destruct (runs_trace (ret tt) 0 1 held demo_start) as (l & Hl & Htr & Hc); [vm_compute; reflexivity|].
  destruct l as [|m [|]]; [discriminate Hl| |discriminate Hl]. inversion Htr as [|? ? ? Hsm Hst _]; subst.
  simpl in Hc. unfold held in Hc. destruct (objs (sys m) !! 200) as [[c|[t|]|]|] eqn:Ht; try discriminate Hc.
  exists m, t. split; [exact Hst|]. split; [exact Ht|].
  destruct (locks_are_exclusive (ret tt) 0 demo_start m 200 None (Some t) demo_idle_wakes demo_stands Hsm Hst)
    as [Heq|[[_ Heq]|[_ Heq]]]; [reflexivity|exact Ht|discriminate Heq|exact Heq|discriminate Heq].
Defined.

(** The first thread forks, then waits: the new one's turn has come. *)
Definition demo_child : prog Z := p_call (c_V 100) (fun _ => p_done).
Definition demo_waits (s : tsys (queue Z) (kont Z) unit) : machine (queue Z) Z unit :=
  mk_machine (mk_ssys s demo_objs 0) (Some (p_call (c_P 100) (fun _ => p_done))).

Lemma demo_forked : exists t s v, refines s v /\ sound v demo_objs /\ ready v = [t] /\
  runs (ret tt) 0 1 (fun m => returned (code m)) (demo_waits s) = true.
Proof.
  destruct (boot_alone (Q := queue Z) demo_pcb tt) as (t0 & s0 & Hrun & Hr).
  assert (match thread_fork (k_start demo_child) demo_sys with
          | Done (inr _) s => runs (ret tt) 0 1 (fun m => returned (code m)) (demo_waits s)
          | _ => false end = true) as Hok by (vm_compute; reflexivity).
  unfold demo_sys in Hok. rewrite Hrun in Hok.
  destruct (thread_fork (k_start demo_child) s0) as [[e|t] s| | |] eqn:Hf; try discriminate Hok.
  destruct (takes_fork (k_start demo_child) (alone demo_pcb t0) eq_refl ltac:(done) s0 Hr _ _ Hf) as (v & Hrv & Hv).
  destruct (sound_forked _ _ _ _ _ (alone_sound t0) Hv) as [Hs _].
  destruct Hv as (x & _ & _ & Hv). exists t, s, v. split; [done|]. split; [done|]. split; [by rewrite Hv|done].
Qed.

Lemma every_turn_comes_witness :
  exists (m : machine (queue Z) Z unit) l t, demo_trace m l /\ Exists (fun m : machine (queue Z) Z unit => curthread (ts (sys m)) = Some t) l.
Proof.
  destruct demo_forked as (t & s & v & Hr & Hs & Hready & Hok).
  destruct (runs_trace (ret tt) 0 1 _ _ Hok) as (l & Hl & Htr & Hc).
  exists (demo_waits s), l, t. split; [exact Htr|].
  apply (every_turn_comes (ret tt) 0 (demo_waits s) l v 0 t demo_idle_wakes Htr Hr Hs).
  - rewrite Hready. reflexivity.
  - destruct l as [|m [|]]; [discriminate Hl| |discriminate Hl]. simpl in Hc. simpl.
    rewrite filter_cons_True by exact Hc. simpl. lia.
Defined.

