(* ===== verification/Pool.v ===== *)
(** * Threads as interleaved programs: what a program that uses the primitives of
    [Synch] may rely on.

    The machine of [Synch] runs one thread at a time and keeps the others on run queue
    and sleep list. To the programs it looks simpler: a pool of programs, any of which
    takes the next step, on the structures they made and their shared memory. A thread
    that waits takes steps that change nothing; where the kernel would panic, or C does
    not define what happens, there is no step. [sim_trace] says that every execution of
    the machine is one of the pool. *)

From stdpp Require Import base numbers list gmap strings.
From Stdlib Require Import ZArith Lia.
From S2P Require Import Prelude Array Queue Thread ThreadSpec ThreadInv Synch SynchSpec Machine.

#[export] Instance threadstate_eq_dec : EqDecision threadstate_t.
Proof. solve_decision. Defined.

Section pool.
Context {U : Type}.
(** The messages of the panics that are taken to be the right thing to do. *)
Context (tolerated : string -> Prop).
(** Structures that are not the programs': their addresses are in use. *)
Context (kept : Z -> Prop).
Notation prog := (prog U).
Notation kont := (kont U).

Record pstate : Type := mk_pstate { pobjs : gmap Z obj; plive : gset Z; pmem : U }.

Definition set_pobj (a : Z) (b : obj) (s : pstate) : pstate := mk_pstate (<[a := b]> (pobjs s)) (plive s) (pmem s).
Definition set_plive (l : gset Z) (s : pstate) : pstate := mk_pstate (pobjs s) l (pmem s).
Definition set_pmem (u : U) (s : pstate) : pstate := mk_pstate (pobjs s) (plive s) u.

(** Where a new structure may be. *)
Definition unused (a : Z) (s : pstate) : Prop := a <> 0 /\ ~ kept a /\ pobjs s !! a = None.

(** A step of thread [t] with the program [p]: the rest of its program, [None] when it
    has exited, and the threads it starts. *)
Inductive tstep (t : Z) : prog -> pstate -> option prog -> pstate -> list (Z * prog) -> Prop :=
| ts_done s : tstep t p_done s None (set_plive (plive s ∖ {[t]}) s) []
| ts_panic msg s : tolerated msg -> tstep t (p_panic msg) s (Some (p_panic msg)) s []
| ts_loop body k s : tstep t (p_loop body k) s (Some (round body (p_loop body k) k)) s []
| ts_P_waits sem k s :
    pobjs s !! sem = Some (Sem 0) -> tstep t (p_call (c_P sem) k) s (Some (p_call (c_P sem) k)) s []
| ts_P sem c k s :
    pobjs s !! sem = Some (Sem c) -> 0 < c ->
    tstep t (p_call (c_P sem) k) s (Some (k 0)) (set_pobj sem (Sem (c - 1)) s) []
| ts_V sem c k s :
    pobjs s !! sem = Some (Sem c) -> is_s32 (c + 1) ->
    tstep t (p_call (c_V sem) k) s (Some (k 0)) (set_pobj sem (Sem (c + 1)) s) []
| ts_acquire_waits lock w k s :
    pobjs s !! lock = Some (Lock (Some w)) -> w <> t ->
    tstep t (p_call (c_acquire lock) k) s (Some (p_call (c_acquire lock) k)) s []
| ts_acquire lock k s :
    pobjs s !! lock = Some (Lock None) ->
    tstep t (p_call (c_acquire lock) k) s (Some (k 0)) (set_pobj lock (Lock (Some t)) s) []
| ts_release lock k s :
    pobjs s !! lock = Some (Lock (Some t)) ->
    tstep t (p_call (c_release lock) k) s (Some (k 0)) (set_pobj lock (Lock None) s) []
| ts_holds lock w k s :
    pobjs s !! lock = Some (Lock w) ->
    tstep t (p_call (c_holds lock) k) s (Some (k (if bool_decide (Some t = w) then 1 else 0))) s []
| ts_wait cv lock k s :
    pobjs s !! lock = Some (Lock (Some t)) ->
    tstep t (p_call (c_wait cv lock) k) s (Some (p_call (c_acquire lock) k)) (set_pobj lock (Lock None) s) []
| ts_signal cv lock k s :
    pobjs s !! lock = Some (Lock (Some t)) -> tstep t (p_call (c_signal cv lock) k) s (Some (k 0)) s []
| ts_broadcast cv lock k s :
    pobjs s !! lock = Some (Lock (Some t)) -> tstep t (p_call (c_broadcast cv lock) k) s (Some (k 0)) s []
| ts_yield k s : tstep t (p_call c_yield k) s (Some (k 0)) s []
| ts_clocksleep lbolt n k s : tstep t (p_call (c_clocksleep lbolt n) k) s (Some (k 0)) s []
| ts_fork p k t' s :
    t' ∉ plive s -> tstep t (p_call (c_fork p) k) s (Some (k 0)) (set_plive ({[t']} ∪ plive s) s) [(t', p)]
| ts_fork_fails p k e s : tstep t (p_call (c_fork p) k) s (Some (k (errno_code e))) s []
| ts_mem f k u r s :
    f (pmem s) = Some (u, r) -> tstep t (p_call (c_mem f) k) s (Some (k r)) (set_pmem u s) []
| ts_sem_create n k a s : unused a s -> tstep t (p_call (c_sem_create n) k) s (Some (k a)) (set_pobj a (Sem n) s) []
| ts_sem_create_fails n k s : tstep t (p_call (c_sem_create n) k) s (Some (k 0)) s []
| ts_lock_create k a s : unused a s -> tstep t (p_call c_lock_create k) s (Some (k a)) (set_pobj a (Lock None) s) []
| ts_lock_create_fails k s : tstep t (p_call c_lock_create k) s (Some (k 0)) s []
| ts_cv_create k a s : unused a s -> tstep t (p_call c_cv_create k) s (Some (k a)) (set_pobj a Cv s) []
| ts_cv_create_fails k s : tstep t (p_call c_cv_create k) s (Some (k 0)) s [].

(** The pool: thread names and what is left of their programs. *)
Definition newborn (x : Z * prog) : Z * option prog := (x.1, Some x.2).
Inductive pstep : list (Z * option prog) * pstate -> list (Z * option prog) * pstate -> Prop :=
| pstep_at l1 t p l2 s p' s' new :
    tstep t p s p' s' new -> pstep (l1 ++ (t, Some p) :: l2, s) (l1 ++ (t, p') :: l2 ++ (newborn <$> new), s').

(** [t] can go on. *)
Definition can_step (t : Z) (p : prog) (s : pstate) : Prop := exists p' s' new, tstep t p s p' s' new.

(** ** What a thread will do *)

Definition todo (k : kont) : prog :=
  match k with
  | k_start p => p
  | k_P sem _ k => p_call (c_P sem) k
  | k_acquire lock _ k => p_call (c_acquire lock) k
  | k_wait lock _ k => p_call (c_acquire lock) k
  | k_clock _ _ _ k => k 0
  | k_yield _ p => p
  | k_interrupt _ _ p => p
  | k_dead => p_done
  end.

Notation places := (places kont).
Implicit Types (v : places) (o : gmap Z obj) (code : option prog).

Definition alive v : list Z := option_list (cur v) ++ ready v ++ asleep v.
Definition todo_of v (t : Z) : option prog := (fun x => todo (pcb_resume (t_pcb x))) <$> tcb v !! t.

(** What is left of the program of [t], when the current thread is at [code]. *)
Definition prog_of v code (t : Z) : option prog :=
  if decide (cur v = Some t /\ is_Some code) then code
  else if decide (t ∈ alive v) then todo_of v t else None.

Record shown v code (l : list (Z * option prog)) (s : pstate) o (u : U) : Prop := {
  sh_prog : forall t p, prog_of v code t = Some p -> (t, Some p) ∈ l;
  sh_live : forall t, t ∈ plive s -> is_Some (prog_of v code t);
  sh_objs : pobjs s ⊆ o;
  sh_mem : pmem s = u;
  sh_kept : forall a, kept a -> pobjs s !! a = None /\ is_Some (o !! a);
}.

Lemma cur_alive v c : cur v = Some c -> c ∈ alive v.
Proof. intros Hc. unfold alive. rewrite Hc. simpl. left. Qed.

Lemma prog_of_cur v p c : cur v = Some c -> prog_of v (Some p) c = Some p.
Proof. intros Hc. unfold prog_of. by rewrite decide_True by eauto. Qed.

Lemma prog_of_None v t : prog_of v None t = if decide (t ∈ alive v) then todo_of v t else None.
Proof. unfold prog_of. by rewrite decide_False by (intros [_ [? [=]]]). Qed.

Lemma prog_of_other v code code' t : cur v <> Some t -> prog_of v code t = prog_of v code' t.
Proof.
  intros Ht. unfold prog_of. destruct (decide (cur v = Some t /\ is_Some code)) as [[]|]; [done|].
  by destruct (decide (cur v = Some t /\ is_Some code')) as [[]|].
Qed.

(** Nothing happened to the threads but that some may have woken up. *)
Record alike v v' : Prop := {
  al_cur : cur v' = cur v;
  al_alive : forall t, t ∈ alive v' <-> t ∈ alive v;
  al_todo : forall t, t ∈ alive v -> todo_of v' t = todo_of v t;
}.

Lemma alike_refl v : alike v v.
Proof. by split. Qed.

Lemma alike_trans v1 v2 v3 : alike v1 v2 -> alike v2 v3 -> alike v1 v3.
Proof.
  intros [C1 A1 T1] [C2 A2 T2]. split; [congruence|intros t; by rewrite A2, A1|].
  intros t Ht. rewrite T2, T1; [done|done|by apply A1].
Qed.

Lemma alike_same v v' :
  cur v' = cur v -> ready v' = ready v -> asleep v' = asleep v -> tcb v' = tcb v -> alike v v'.
Proof.
  intros E1 E2 E3 E4. split; [done| |].
  - intros t. unfold alive. by rewrite E1, E2, E3.
  - intros t _. unfold todo_of. by rewrite E4.
Qed.

Lemma alike_prog v v' code t : alike v v' -> prog_of v' code t = prog_of v code t.
Proof.
  intros [Hc Ha Ht]. unfold prog_of. rewrite Hc. destruct (decide (cur v = Some t /\ is_Some code)); [done|].
  destruct (decide (t ∈ alive v)) as [Hin|Hin].
  - rewrite decide_True by (by apply Ha). by apply Ht.
  - by rewrite decide_False by (by rewrite Ha).
Qed.

Lemma shown_alike v v' code l s o u : alike v v' -> shown v code l s o u -> shown v' code l s o u.
Proof.
  intros Ha [H1 H2 H3 H4 H5]. split; try done; intros t; rewrite (alike_prog _ _ _ _ Ha); auto.
Qed.

Lemma alike_woken v v' : woken v v' -> alike v v'.
Proof.
  clear tolerated kept.
  intros (w & Hp & ->). split; [done| |done]. intros t. unfold alive. simpl. rewrite !elem_of_app, Hp, elem_of_app. tauto.
Qed.

Lemma alike_buried v v' : placed v -> buried v v' -> alike v v'.
Proof.
  intros Hp (m & -> & Hm). split; [done|done|]. intros t Ht. unfold todo_of. simpl. rewrite Hm; [done|].
  intros Hd. by apply (dead_alone v t Hp Hd).
Qed.

Lemma alike_sleepaddr v c x a : tcb v !! c = Some x -> alike v (recorded c (with_sleepaddr a x) v).
Proof.
  intros Hx. split; [done|done|]. intros t _. unfold todo_of. simpl. destruct (decide (t = c)) as [->|].
  - by rewrite lookup_insert_eq, Hx.
  - by rewrite lookup_insert_ne.
Qed.

(** At a switch the program of the old thread goes to its pcb. *)
Lemma prog_of_switched ns k v v' code c t :
  placed v -> switched ns k v v' -> cur v = Some c ->
  prog_of v' None t = if decide (t = c) then (if ns is S_ZOMB then None else Some (todo k)) else prog_of v code t.
Proof.
  clear tolerated kept.
  intros Hp (c' & x & v1 & v2 & n & l & i & j & Hc' & Hx & Hst & Hw & Hr & Hv') Hc.
  replace c' with c in * by congruence. clear c' Hc'.
  assert (forall t, t ∈ alive v' <-> t ∈ ready v1 ++ asleep v1) as Hal.
  { intros t'. pose proof (alike_woken _ _ Hw) as [Hcw Haw _]. specialize (Haw t').
    assert (cur v1 = None) as H1 by (destruct ns; naive_solver).
    assert (cur v2 = None) as H2 by congruence. unfold alive in *. rewrite H1, H2 in Haw. simpl in Haw. rewrite <- Haw.
    rewrite Hv', Hr. simpl. done. }
  assert (c ∉ ready v ++ asleep v) as Hnc.
  { destruct Hp as [Hn _]. unfold everyone in Hn. rewrite Hc in Hn. simpl in Hn. apply NoDup_cons in Hn as [Hn _].
    rewrite !elem_of_app in *. tauto. }
  assert (t ∈ ready v1 ++ asleep v1 <-> t ∈ ready v ++ asleep v \/ t = c /\ ns <> S_ZOMB) as Hin.
  { destruct ns; simpl in Hst; try done; injection Hst as <-; simpl; rewrite !elem_of_app, ?list_elem_of_singleton; naive_solver. }
  unfold prog_of. rewrite decide_False by (intros [_ [? [=]]]).
  assert (todo_of v' t = if decide (t = c) then Some (todo k) else todo_of v t) as Htd.
  { unfold todo_of. rewrite Hv'. simpl. destruct (decide (t = c)) as [->|]; [by rewrite lookup_insert_eq|by rewrite lookup_insert_ne]. }
  rewrite Htd. destruct (decide (t = c)) as [->|Hne].
  - destruct (decide (ns = S_ZOMB)) as [->|Hz].
    + rewrite decide_False; [done|]. rewrite Hal, Hin. tauto.
    + rewrite decide_True by (rewrite Hal, Hin; tauto). by destruct ns.
  - rewrite (decide_False (P := cur v = Some t /\ is_Some code)) by (intros [[=] _]; congruence).
    assert (t ∈ alive v' <-> t ∈ alive v) as Hiff.
    { rewrite Hal, Hin. unfold alive. rewrite Hc. simpl. rewrite elem_of_cons. naive_solver. }
    destruct (decide (t ∈ alive v)); [by rewrite decide_True by tauto|by rewrite decide_False by tauto].
Qed.

(** ** Steps of the pool *)

(** The current thread takes a step and stays. *)
Lemma advance v c p l s o u p' s' o' u' :
  cur v = Some c -> shown v (Some p) l s o u -> tstep c p s (Some p') s' [] ->
  plive s' = plive s -> pobjs s' ⊆ o' -> pmem s' = u' -> (forall a, kept a -> pobjs s' !! a = None /\ is_Some (o' !! a)) ->
  exists l', pstep (l, s) (l', s') /\ shown v (Some p') l' s' o' u'.
Proof.
  intros Hc [Hp Hl Ho Hu Hk] Hst El Eo Eu Ek.
  destruct (list_elem_of_split _ _ (Hp c p (prog_of_cur _ _ _ Hc))) as (l1 & l2 & ->).
  eexists. split; [by apply pstep_at|]. split; try done.
  - intros t q Hq. rewrite app_nil_r. destruct (decide (t = c)) as [->|Hne].
    + rewrite (prog_of_cur _ _ _ Hc) in Hq. injection Hq as <-. rewrite elem_of_app, elem_of_cons. auto.
    + rewrite (prog_of_other _ _ (Some p)) in Hq by congruence. apply Hp in Hq.
      rewrite elem_of_app, elem_of_cons in *. naive_solver.
  - intros t Ht. rewrite El in Ht. destruct (decide (t = c)) as [->|Hne].
    + by rewrite (prog_of_cur _ _ _ Hc).
    + rewrite (prog_of_other _ _ (Some p)) by congruence. auto.
Qed.

(** The same where it puts [b] at [a]. *)
Lemma advance_put v c p l s o u p' a b :
  cur v = Some c -> shown v (Some p) l s o u -> tstep c p s (Some p') (set_pobj a b s) [] -> ~ kept a ->
  exists l', pstep (l, s) (l', set_pobj a b s) /\ shown v (Some p') l' (set_pobj a b s) (<[a := b]> o) u.
Proof.
  intros Hc Hsh Hst Ha. eapply advance; [exact Hc|exact Hsh|exact Hst|done|by apply insert_mono, Hsh|apply Hsh|].
  intros a' Hk. assert (a' <> a) by (intros ->; done). simpl. rewrite !lookup_insert_ne by done. by apply Hsh.
Qed.

Lemma shown_not_kept v code l s o u a b : shown v code l s o u -> pobjs s !! a = Some b -> ~ kept a.
Proof. intros Hsh Ha Hk. destruct (sh_kept _ _ _ _ _ _ Hsh a Hk). congruence. Qed.

(** The current thread goes off the processor where it is. *)
Lemma shown_switched ns k v v' p l s o u c :
  placed v -> cur v = Some c -> switched ns k v v' -> ns <> S_ZOMB -> todo k = p ->
  shown v (Some p) l s o u -> shown v' None l s o u.
Proof.
  intros Hpl Hc Hsw Hns <- [Hp Hl Ho Hu Hk].
  assert (forall t, prog_of v' None t = prog_of v (Some (todo k)) t) as Heq.
  { intros t. rewrite (prog_of_switched ns k v v' (Some (todo k)) c t) by done.
    destruct (decide (t = c)) as [->|]; [|done]. rewrite (prog_of_cur _ _ _ Hc). by destruct ns. }
  split; try done; intros t; rewrite Heq; auto.
Qed.

Lemma shown_code v c x l s o u :
  cur v = Some c -> tcb v !! c = Some x -> shown v None l s o u -> shown v (Some (todo (pcb_resume (t_pcb x)))) l s o u.
Proof.
  intros Hc Hx [Hp Hl Ho Hu Hk].
  assert (forall t, prog_of v (Some (todo (pcb_resume (t_pcb x)))) t = prog_of v None t) as Heq.
  { intros t. destruct (decide (t = c)) as [->|Hne]; [|apply prog_of_other; congruence].
    rewrite (prog_of_cur _ _ _ Hc). unfold prog_of. rewrite decide_False by (intros [_ [? [=]]]).
    rewrite decide_True by (by apply cur_alive). unfold todo_of. by rewrite Hx. }
  split; try done; intros t; rewrite Heq; auto.
Qed.

(** The current thread exits. *)
Lemma shown_exit k v v' l s o u c :
  placed v -> cur v = Some c -> switched S_ZOMB k v v' -> shown v (Some p_done) l s o u ->
  exists l' s', pstep (l, s) (l', s') /\ shown v' None l' s' o u.
Proof.
  intros Hpl Hc Hsw [Hp Hl Ho Hu Hk].
  destruct (list_elem_of_split _ _ (Hp c _ (prog_of_cur _ _ _ Hc))) as (l1 & l2 & ->).
  eexists _, _. split; [apply pstep_at, ts_done|].
  assert (forall t, prog_of v' None t = if decide (t = c) then None else prog_of v (Some p_done) t) as Heq.
  { intros t. by rewrite (prog_of_switched S_ZOMB k v v' (Some p_done) c t). }
  split; try done.
  - intros t q. rewrite Heq, app_nil_r. destruct (decide (t = c)) as [->|Hne]; [done|]. intros Hq. apply Hp in Hq.
    rewrite elem_of_app, elem_of_cons in *. naive_solver.
  - intros t. simpl. rewrite Heq. destruct (decide (t = c)) as [->|Hne]; [set_solver|]. intros Ht. apply Hl. set_solver.
Qed.

(** The current thread starts another. *)
Lemma shown_fork k0 p k v v' t l s o u c :
  cur v = Some c -> t ∉ alive v -> forked (k_start p) v v' t ->
  shown v (Some (p_call (c_fork p) k)) l s o u -> k0 = k 0 ->
  exists l' s', pstep (l, s) (l', s') /\ shown v' (Some k0) l' s' o u.
Proof.
  intros Hc Ht (x & Htx & Hx & ->) [Hp Hl Ho Hu] ->.
  destruct (list_elem_of_split _ _ (Hp c _ (prog_of_cur _ _ _ Hc))) as (l1 & l2 & ->).
  set (v' := with_count (count v + 1) (with_ready (ready v ++ [t]) (recorded t x v))).
  assert (t <> c) as Htc by (intros ->; by apply Ht, cur_alive).
  assert (forall t', prog_of v' (Some (k 0)) t' =
    if decide (t' = t) then Some p else if decide (t' = c) then Some (k 0) else prog_of v (Some (p_call (c_fork p) k)) t') as Heq.
  { intros t'. assert (t' ∈ alive v' <-> t' = t \/ t' ∈ alive v) as Hal.
    { unfold alive, v'. simpl. rewrite !elem_of_app, list_elem_of_singleton. tauto. }
    assert (todo_of v' t' = if decide (t' = t) then Some p else todo_of v t') as Htd.
    { unfold todo_of, v'. simpl. destruct (decide (t' = t)) as [->|]; [by rewrite lookup_insert_eq; simpl; rewrite Hx|].
      by rewrite lookup_insert_ne. }
    destruct (decide (t' = t)) as [->|Hne].
    - unfold prog_of. rewrite decide_False by (intros [Heq _]; apply Htc; simpl in Heq; congruence).
      by rewrite decide_True by tauto.
    - destruct (decide (t' = c)) as [->|Hnc]; [by apply prog_of_cur|].
      rewrite (prog_of_other v _ None) by congruence. rewrite (prog_of_other v' _ None) by (simpl; congruence).
      rewrite !prog_of_None, Htd.
      destruct (decide (t' ∈ alive v)); [by rewrite decide_True by tauto|by rewrite decide_False by tauto]. }
  eexists _, _. split.
  { apply pstep_at, (ts_fork _ p k t). intros Hin. destruct (Hl t Hin) as [q Hq]. revert Hq. unfold prog_of.
    rewrite decide_False by (intros [? _]; congruence). by rewrite decide_False. }
  split; try done.
  - intros t' q. rewrite Heq. rewrite elem_of_app, elem_of_cons, elem_of_app. simpl. rewrite list_elem_of_singleton.
    destruct (decide (t' = t)) as [->|]; [intros [= ->]; auto|].
    destruct (decide (t' = c)) as [->|]; [intros [= ->]; auto|]. intros Hq. apply Hp in Hq.
    rewrite elem_of_app, elem_of_cons in Hq. naive_solver.
  - intros t'. simpl. rewrite Heq, elem_of_union, elem_of_singleton. destruct (decide (t' = t)); [done|].
    destruct (decide (t' = c)); [done|]. intros [?|Hin]; [done|auto].
Qed.
End pool.

(** ** Shared memory as named cells

    When the shared memory is a map from the places of the program's variables to their
    values, the calls on it are reads and writes of one variable. What is not there
    cannot be used. *)

Section cells.
Context {K : Type} `{Countable K}.
Notation prog := (prog (gmap K Z)).

Definition load (x : K) (k : Z -> prog) : prog := p_call (c_mem (fun u => (fun v => (u, v)) <$> u !! x)) k.
Definition store (x : K) (v : Z) (p : prog) : prog :=
  p_call (c_mem (fun u => (fun _ => (<[x := v]> u, 0)) <$> u !! x)) (fun _ => p).

(** What C does not define. *)
Definition p_undef : prog := p_call (c_mem (fun _ => None)) (fun _ => p_panic "undefined").

(** An [int] computed. *)
Definition as_int (n : Z) (k : Z -> prog) : prog := if (- 2 ^ 31 <=? n) && (n <? 2 ^ 31) then k n else p_undef.

(** Calls without a result. *)
Definition p_P (sem : Z) (p : prog) : prog := p_call (c_P sem) (fun _ => p).
Definition p_V (sem : Z) (p : prog) : prog := p_call (c_V sem) (fun _ => p).
Definition p_acquire (lock : Z) (p : prog) : prog := p_call (c_acquire lock) (fun _ => p).
Definition p_release (lock : Z) (p : prog) : prog := p_call (c_release lock) (fun _ => p).
Definition p_yield (p : prog) : prog := p_call c_yield (fun _ => p).

(** [for (i=first; i<first+n; i++) body]: [body i next] goes on with [next], or with what
    follows a [break]; [k] is what follows the last round. *)
Fixpoint loop (n : nat) (first : Z) (body : Z -> prog -> prog) (k : prog) : prog :=
  match n with
  | O => k
  | S n => body first (loop n (first + 1) body k)
  end.

(** A round of a loop that contains a [for] loop. *)
Lemma round_for n first body body' k again out :
  (forall i q, round (body i q) again out = body' i (round q again out)) ->
  round (loop n first body k) again out = loop n first body' (round k again out).
Proof. intros Hb. revert first. induction n as [|n IH]; intros first; simpl; [done|]. by rewrite Hb, IH. Qed.
End cells.

Declare Scope cps_scope.
Delimit Scope cps_scope with cps.
Notation "'let*' x := m 'in' k" := (m (fun x => k)) (at level 200, x name, m at level 100, k at level 200, only parsing) : cps_scope.
Notation "'do*' m 'in' k" := (m k) (at level 200, m at level 100, k at level 200, only parsing) : cps_scope.
