(* ===== verification/PoolSim.v ===== *)
(** * Every execution of the machine is one of the pool. *)

From stdpp Require Import base numbers list gmap strings.
From Stdlib Require Import ZArith Lia.
From S2P Require Import Prelude Array Queue Thread ThreadSpec ThreadInv Synch SynchSpec Machine Pool.

Section sim.
Context {Q U W : Type} {F : FifoQueue Q Z} {L : FifoLaws F} {Env : ThreadEnv W}.
Context (cpu_idle : M (tsys Q (kont U) W) unit) (idle_fuel : nat).
Hypothesis idle_wakes : forall v, cur v = None -> takes cpu_idle v (fun _ v' => woken v v').
Context (tolerated : string -> Prop) (kept : Z -> Prop).
Notation prog := (prog U).
Notation places := (places (kont U)).
Notation pool := (list (Z * option prog)).
Notation does := (does (Q := Q) (U := U) (W := W)) (only parsing).
Implicit Types (v : places) (o : gmap Z obj) (l : pool) (s : pstate (U := U)) (u : U) (p : prog).

(** The pool took steps, if any, and shows the machine. *)
Definition outcome l s u (r : option prog) v' o' : Prop :=
  exists l' s', rtc (pstep tolerated kept) (l, s) (l', s') /\ shown kept v' r l' s' o' u.

Lemma outcome_here l s u r v' o' : shown kept v' r l s o' u -> outcome l s u r v' o'.
Proof. intros Hs. by exists l, s. Qed.

Lemma outcome_step l s u r v' o' l1 s1 :
  pstep tolerated kept (l, s) (l1, s1) -> outcome l1 s1 u r v' o' -> outcome l s u r v' o'.
Proof. intros Hst (l' & s' & Hsts & Hsh). exists l', s'. split; [by eapply rtc_l|done]. Qed.

Lemma outcome_once l s u r v' o' l1 s1 :
  pstep tolerated kept (l, s) (l1, s1) -> shown kept v' r l1 s1 o' u -> outcome l s u r v' o'.
Proof. intros Hst Hsh. eapply outcome_step; [exact Hst|by apply outcome_here]. Qed.

Lemma alike_spl n v : alike v (with_spl n v).
Proof. by apply alike_same. Qed.

Lemma shown_spl n v r l s o u : shown kept v r l s o u -> shown kept (with_spl n v) r l s o u.
Proof. apply shown_alike, alike_spl. Qed.

Lemma shown_object v r l s o u a b : shown kept v r l s o u -> pobjs s !! a = Some b -> o !! a = Some b.
Proof. intros Hs Ha. by apply (lookup_weaken (pobjs s)), Hs. Qed.

(** ** Waiting *)

Lemma sim_sleep addr k v o l s u p c :
  sound v o -> crowd v < max_threads -> cur v = Some c -> shown kept v (Some p) l s o u -> todo k = p ->
  does (on_ts (thread_sleep_out cpu_idle idle_fuel addr k)) v o (fun _ v' o' => o' = o /\ shown kept v' None l s o u).
Proof.
  intros Hs Hn Hc Hsh Hk. eapply does_mono; [apply does_on_ts, takes_sleep_out; [exact idle_wakes|exact Hn]|].
  cbv beta. intros b v' o' [(c' & x & [Hc' Hx] & Hsw) ->]. split; [done|]. replace c' with c in * by congruence.
  eapply (shown_switched kept S_SLEEP k (recorded c (with_sleepaddr addr x) v)); try done.
  - by eapply so_placed, sound_recorded.
  - by eapply shown_alike; [apply alike_sleepaddr|].
Qed.

Lemma sim_sleep_in v o r l s u c :
  sound v o -> cur v = Some c -> shown kept v r l s o u ->
  does (on_ts thread_sleep_in) v o (fun _ v' o' => o' = o /\ sound v' o /\ crowd v' <= crowd v /\ cur v' = Some c /\ shown kept v' r l s o u).
Proof.
  intros Hs Hc Hsh. eapply does_mono; [apply does_on_ts, takes_sleep_in|]. cbv beta.
  intros _ v' o' [(v1 & c' & x & Hb & [Hc' Hx] & ->) ->]. split; [done|]. split_and!.
  - apply sound_recorded; [by eapply sound_buried|done].
  - exact (crowd_buried _ _ Hb).
  - destruct Hb as (m & -> & _). exact Hc.
  - eapply shown_alike; [by apply alike_sleepaddr|]. eapply shown_alike; [|exact Hsh].
    apply alike_buried; [apply Hs|done].
Qed.

Lemma sim_P_loop sem n n0 k v o l s u c :
  sound v o -> crowd v < max_threads -> cur v = Some c -> shown kept v (Some (p_call (c_P sem) k)) l s o u ->
  pobjs s !! sem = Some (Sem n0) ->
  does (P_loop cpu_idle idle_fuel sem n k) v o (outcome l s u).
Proof.
  intros Hs Hn Hc Hsh Hsem. pose proof (shown_object _ _ _ _ _ _ _ _ Hsh Hsem) as Ho.
  unfold P_loop. eapply does_bind; [apply does_sem_count|]. cbv beta. intros n1 v' o' (Hn1 & -> & ->).
  replace n1 with n0 by congruence. destruct (Z.eqb_spec n0 0) as [->|Hne].
  - eapply does_bind; [by eapply sim_sleep|]; cbv beta. intros b v' o' [-> Hsh']. by apply does_ret, outcome_here.
  - eapply does_bind; [apply (does_assert _ v o (fun _ v' o' => 0 < n0 /\ v' = v /\ o' = o))|].
    { intros Hb. split; [lia|done]. }
    intros _ v' o' (Hpos & -> & ->).
    eapply does_bind; [apply does_put_obj|]. cbv beta. intros _ v' o' [-> ->].
    eapply does_bind; [apply does_splx|]. cbv beta. intros old v' o' (_ & -> & ->). apply does_ret.
    destruct (advance_put tolerated kept v c _ l s o u _ sem _ Hc Hsh (ts_P _ _ _ _ _ k _ Hsem Hpos)) as (l' & Hst & Hsh');
      [by eapply shown_not_kept|].
    eapply outcome_once; [exact Hst|]. by apply shown_spl.
Qed.

Lemma sim_P sem n0 k v o l s u c :
  sound v o -> crowd v < max_threads -> cur v = Some c -> shown kept v (Some (p_call (c_P sem) k)) l s o u ->
  pobjs s !! sem = Some (Sem n0) -> does (P cpu_idle idle_fuel sem k) v o (outcome l s u).
Proof.
  intros Hs Hn Hc Hsh Hsem. unfold P, splhigh. apply does_skip_assert, does_get. intros s1 _ _. apply does_skip_assert.
  eapply does_bind; [apply does_splx|]. cbv beta. intros n v' o' (-> & -> & ->).
  eapply sim_P_loop; [by apply sound_with_spl|exact Hn|exact Hc|by apply shown_spl|exact Hsem].
Qed.

Lemma sim_acquire_loop lock spls w0 k v o l s u c :
  sound v o -> crowd v < max_threads -> cur v = Some c -> shown kept v (Some (p_call (c_acquire lock) k)) l s o u ->
  pobjs s !! lock = Some (Lock w0) -> does (acquire_loop cpu_idle idle_fuel lock spls k) v o (outcome l s u).
Proof.
  intros Hs Hn Hc Hsh Hl. pose proof (shown_object _ _ _ _ _ _ _ _ Hsh Hl) as Ho.
  unfold acquire_loop. eapply does_bind; [apply does_lock_owner|]. cbv beta. intros w v' o' (Hw & -> & ->).
  replace w with w0 by congruence. destruct w0 as [t|].
  - eapply does_bind; [by eapply sim_sleep|]; cbv beta. intros b v' o' [-> Hsh']. by apply does_ret, outcome_here.
  - apply does_get. intros s1 Hr _. rewrite (rf_cur _ _ Hr), Hc.
    eapply does_bind; [apply does_put_obj|]. cbv beta. intros _ v' o' [-> ->].
    eapply does_bind; [apply does_restore|]. cbv beta. intros _ v' o' [[n ->] ->]. apply does_ret.
    destruct (advance_put tolerated kept v c _ l s o u _ lock _ Hc Hsh (ts_acquire _ _ _ _ k _ Hl)) as (l' & Hst & Hsh');
      [by eapply shown_not_kept|].
    eapply outcome_once; [exact Hst|]. by apply shown_spl.
Qed.

Lemma sim_lock_acquire lock spls w0 k v o l s u c :
  sound v o -> crowd v < max_threads -> cur v = Some c -> shown kept v (Some (p_call (c_acquire lock) k)) l s o u ->
  pobjs s !! lock = Some (Lock w0) -> does (lock_acquire cpu_idle idle_fuel lock spls k) v o (outcome l s u).
Proof.
  intros Hs Hn Hc Hsh Hl. unfold lock_acquire, splhigh.
  eapply does_bind; [apply does_splx|]. cbv beta. intros n v' o' (-> & -> & ->).
  destruct (lock =? 0); [apply does_panic|].
  eapply does_bind; [apply does_hold|]. cbv beta. intros b v' o' (-> & -> & _).
  destruct b; [apply does_panic|].
  eapply sim_acquire_loop; [by apply sound_with_spl|exact Hn|exact Hc|by apply shown_spl|exact Hl].
Qed.

(** ** Changing a structure and waking who waits for it *)

Lemma sim_put_wakeup {B} a b v o l s u p p' c (m : M (ssys Q U W) B) Qv :
  crowd v < max_threads -> cur v = Some c -> shown kept v (Some p) l s o u ->
  tstep tolerated kept c p s (Some p') (set_pobj a b s) [] -> ~ kept a ->
  (forall l', pstep tolerated kept (l, s) (l', set_pobj a b s) ->
    shown kept (wakeup a v) (Some p') l' (set_pobj a b s) (<[a := b]> o) u -> does m (wakeup a v) (<[a := b]> o) Qv) ->
  does (do! put_obj a b in do! on_ts (thread_wakeup a) in m) v o Qv.
Proof.
  intros Hn Hc Hsh Hst Ha Hm. eapply does_bind; [apply does_put_obj|]. cbv beta. intros _ v' o' [-> ->].
  eapply does_bind; [apply does_on_ts; by apply takes_wakeup|]. cbv beta. intros _ v' o' [-> ->].
  destruct (advance_put tolerated kept v c p l s o u p' a b Hc Hsh Hst Ha) as (l' & Hst' & Hsh').
  apply (Hm l' Hst'). eapply shown_alike; [apply alike_woken, wakeup_woken|exact Hsh'].
Qed.

Lemma sim_V sem n0 k v o l s u c :
  sound v o -> crowd v < max_threads -> cur v = Some c -> shown kept v (Some (p_call (c_V sem) k)) l s o u ->
  pobjs s !! sem = Some (Sem n0) -> does (V sem) v o (fun _ => outcome l s u (Some (k 0))).
Proof.
  intros Hs Hn Hc Hsh Hsem. pose proof (shown_object _ _ _ _ _ _ _ _ Hsh Hsem) as Ho.
  unfold V, splhigh. apply does_skip_assert.
  eapply does_bind; [apply does_splx|]. cbv beta. intros n v' o' (-> & -> & ->).
  eapply does_bind; [apply does_sem_count|]. cbv beta. intros n1 v' o' (Hn1 & -> & ->). replace n1 with n0 by congruence.
  eapply does_bind; [apply does_int_of|]. cbv beta. intros n2 v' o' (-> & Hn2 & -> & ->).
  eapply does_bind; [apply does_put_obj|]. cbv beta. intros _ v' o' [-> ->]. apply does_skip_assert.
  eapply does_bind; [apply does_on_ts; by apply takes_wakeup|]. cbv beta. intros _ v' o' [-> ->].
  eapply does_bind; [apply does_splx|]. cbv beta. intros old v' o' (_ & -> & ->). apply does_ret.
  destruct (advance_put tolerated kept v c _ l s o u _ sem _ Hc Hsh (ts_V _ _ _ _ _ k _ Hsem Hn2)) as (l' & Hst & Hsh');
    [by eapply shown_not_kept|].
  eapply outcome_once; [exact Hst|]. apply shown_spl.
  eapply shown_alike; [apply alike_woken, wakeup_woken|]. by apply shown_spl.
Qed.

(** [lock_release], at the end of which the pool is at [p']. *)
Lemma sim_lock_release lock v o l s u p p' c :
  sound v o -> crowd v < max_threads -> cur v = Some c -> shown kept v (Some p) l s o u ->
  tstep tolerated kept c p s (Some p') (set_pobj lock (Lock None) s) [] -> pobjs s !! lock = Some (Lock (Some c)) ->
  does (lock_release lock) v o (fun _ v' o' =>
    sound v' o' /\ crowd v' = crowd v /\ cur v' = Some c /\
    exists l', pstep tolerated kept (l, s) (l', set_pobj lock (Lock None) s) /\ shown kept v' (Some p') l' (set_pobj lock (Lock None) s) o' u).
Proof.
  intros Hs Hn Hc Hsh Hst Hl. pose proof (shown_object _ _ _ _ _ _ _ _ Hsh Hl) as Ho.
  unfold lock_release, splhigh. destruct (lock =? 0); [apply does_panic|].
  eapply does_bind; [apply does_lock_owner|]. cbv beta. intros w v' o' (Hw & -> & ->).
  apply does_get. intros s1 Hr _. case_bool_decide; [|apply does_panic].
  eapply does_bind; [apply does_splx|]. cbv beta. intros n v' o' (-> & -> & ->).
  eapply sim_put_wakeup; [exact Hn|exact Hc|by apply shown_spl|exact Hst|by eapply shown_not_kept|].
  intros l' Hst' Hsh'. eapply does_bind; [apply does_splx|]. cbv beta. intros old v'' o'' (_ & -> & ->). apply does_ret.
  split_and!; [| |exact Hc|].
  - apply sound_with_spl, sound_put_obj; [|right; apply wakeup_none_left].
    eapply sound_woken; [by apply sound_with_spl|apply wakeup_woken].
  - apply (f_equal Z.of_nat), Permutation_length, (woken_everyone _ _ (wakeup_woken lock (with_spl SPL_HIGH v))).
  - exists l'. split; [done|]. by apply shown_spl.
Qed.

Lemma sim_cv_wait cv lock k v o l s u c :
  sound v o -> crowd v < max_threads -> cur v = Some c -> shown kept v (Some (p_call (c_wait cv lock) k)) l s o u ->
  pobjs s !! lock = Some (Lock (Some c)) -> does (cv_wait cpu_idle idle_fuel cv lock k) v o (outcome l s u).
Proof.
  intros Hs Hn Hc Hsh Hl. unfold cv_wait, splhigh. do 2 apply does_skip_assert.
  eapply does_bind; [apply does_splx|]. cbv beta. intros n v' o' (-> & -> & ->).
  eapply does_bind.
  { eapply (sim_lock_release lock _ _ l s u _ (p_call (c_acquire lock) k)); [by apply sound_with_spl|exact Hn|exact Hc|by apply shown_spl| |exact Hl].
    by apply ts_wait. }
  cbv beta. intros _ v1 o1 (Hs1 & Hcr & Hc1 & l' & Hst & Hsh1).
  eapply does_bind; [eapply sim_sleep; [exact Hs1|rewrite Hcr; exact Hn|exact Hc1|exact Hsh1|done]|]. cbv beta.
  intros b v' o' [-> Hsh']. apply does_ret. by eapply outcome_once.
Qed.

Lemma sim_cv_wake wake cv lock p k v o l s u c :
  (forall v, crowd v < max_threads -> takes (wake cv) v (fun _ v' => woken v v')) ->
  sound v o -> crowd v < max_threads -> cur v = Some c -> shown kept v (Some p) l s o u ->
  tstep tolerated kept c p s (Some (k 0)) s [] ->
  does (cv_wake wake cv lock) v o (fun _ => outcome l s u (Some (k 0))).
Proof.
  intros Hwake Hs Hn Hc Hsh Hst. unfold cv_wake, splhigh. do 2 apply does_skip_assert.
  eapply does_bind; [apply does_splx|]. cbv beta. intros n v' o' (-> & -> & ->).
  eapply does_bind; [apply does_hold|]. cbv beta. intros b v' o' (-> & -> & _).
  destruct b; simpl; [|apply does_panic].
  eapply does_bind; [apply does_on_ts, Hwake, Hn|]. cbv beta. intros _ v' o' [Hw ->].
  eapply does_bind; [apply does_splx|]. cbv beta. intros old v'' o'' (_ & -> & ->). apply does_ret.
  destruct (advance tolerated kept v c p l s o u (k 0) s o u Hc Hsh Hst) as (l' & Hst' & Hsh'); [done|apply Hsh..|].
  eapply outcome_once; [exact Hst'|]. apply shown_spl. eapply shown_alike; [by apply alike_woken|]. by apply shown_spl.
Qed.

Lemma sim_clock_loop lbolt n k0 k v o l s u c :
  sound v o -> crowd v < max_threads -> cur v = Some c -> shown kept v (Some (k 0)) l s o u ->
  does (clock_loop cpu_idle idle_fuel lbolt n k0 k) v o (outcome l s u).
Proof.
  intros Hs Hn Hc Hsh. unfold clock_loop. destruct (0 <? n).
  - eapply does_bind; [by eapply sim_sleep|]. cbv beta. intros b v' o' [-> Hsh']. by apply does_ret, outcome_here.
  - eapply does_bind; [apply does_splx|]. cbv beta. intros old v' o' (_ & -> & ->). by apply does_ret, outcome_here, shown_spl.
Qed.

(** A step of the pool that needs nothing from the machine. *)
Lemma sim_free_step v o l s u p p' c :
  cur v = Some c -> shown kept v (Some p) l s o u -> tstep tolerated kept c p s (Some p') s [] ->
  exists l', pstep tolerated kept (l, s) (l', s) /\ shown kept v (Some p') l' s o u.
Proof. intros Hc Hsh Hst. eapply advance; [exact Hc|exact Hsh|exact Hst|done|apply Hsh..]. Qed.

Lemma sim_yield_out k p v o l s u c :
  sound v o -> crowd v < max_threads -> cur v = Some c -> shown kept v (Some p) l s o u -> (forall n, todo (k n) = p) ->
  does (on_ts (thread_yield_out cpu_idle idle_fuel k)) v o (fun _ v' o' => o' = o /\ shown kept v' None l s o u).
Proof.
  intros Hs Hn Hc Hsh Hk. eapply does_mono; [apply does_on_ts; by apply (takes_yield_out _ _ idle_wakes _ _ c)|]. cbv beta.
  intros _ v' o' [Hsw ->]. split; [done|].
  apply (shown_switched kept S_READY (k (spl v)) (with_spl SPL_HIGH v) v' p l s o u c); try done; [|by apply shown_spl].
  exact (so_placed _ _ (sound_with_spl SPL_HIGH v o Hs)).
Qed.

Lemma sim_exit_out k v o l s u c :
  sound v o -> crowd v < max_threads -> cur v = Some c -> shown kept v (Some p_done) l s o u ->
  does (on_ts (thread_exit_out cpu_idle idle_fuel k)) v o (fun _ => outcome l s u None).
Proof.
  intros Hs Hn Hc Hsh. destruct (pl_tcb _ (so_placed _ _ Hs) c) as [x Hx]; [by apply cur_everyone|].
  eapply does_mono; [apply does_on_ts; by apply (takes_exit_out _ _ idle_wakes _ _ c x)|]. cbv beta.
  intros _ v' o' [(x' & Hsw) ->].
  assert (shown kept (with_count (count v - 1) (recorded c x' (with_spl SPL_HIGH v))) (Some p_done) l s o u) as Hsh1.
  { destruct Hsh as [Hp Hl Ho Hu Hk].
    assert (forall t, prog_of (with_count (count v - 1) (recorded c x' (with_spl SPL_HIGH v))) (Some p_done) t = prog_of v (Some p_done) t) as Heq.
    { intros t. destruct (decide (t = c)) as [->|Hne]; [rewrite (prog_of_cur v _ c Hc); by apply prog_of_cur|].
      rewrite !(prog_of_other _ (Some p_done) None) by (simpl; congruence). rewrite !prog_of_None. unfold todo_of. simpl.
      by rewrite lookup_insert_ne. }
    split; try done; intros t; rewrite Heq; auto. }
  destruct (shown_exit tolerated kept k (with_count (count v - 1) (recorded c x' (with_spl SPL_HIGH v))) v' l s o u c)
    as (l' & s' & Hst & Hsh'); [|done|done|done|].
  - destruct (sound_recorded c x' _ o (sound_with_spl SPL_HIGH v o Hs) Hc) as [Hp _ _ _]. by eapply placed_perm.
  - by eapply outcome_once.
Qed.

Lemma sim_pointer b ca k m v o l s u c :
  sound v o -> cur v = Some c -> shown kept v (Some (p_call ca k)) l s o u -> m = create b ->
  (forall a, unused kept a s -> tstep tolerated kept c (p_call ca k) s (Some (k a)) (set_pobj a b s) []) ->
  tstep tolerated kept c (p_call ca k) s (Some (k 0)) s [] -> does (pointer k m) v o (outcome l s u).
Proof.
  intros Hs Hc Hsh -> Hst Hno. eapply does_bind; [by apply does_create|]. cbv beta. intros [a|] v' o'.
  - intros (-> & _ & _ & Ha & Hfree & ->). apply does_ret.
    assert (~ kept a) as Hk by (intros Hk; destruct (sh_kept _ _ _ _ _ _ _ Hsh a Hk) as [_ []]; congruence).
    assert (unused kept a s) as Hun.
    { split; [done|]. split; [done|]. destruct (pobjs s !! a) eqn:Hpa; [|done].
      rewrite (shown_object _ _ _ _ _ _ _ _ Hsh Hpa) in Hfree. done. }
    destruct (advance_put tolerated kept v c _ l s o u (k a) a b Hc Hsh (Hst a Hun) Hk) as (l' & Hst' & Hsh').
    by eapply outcome_once.
  - intros (-> & _ & _ & ->). apply does_ret.
    destruct (sim_free_step v o l s u _ _ c Hc Hsh Hno) as (l' & Hst' & Hsh'). by eapply outcome_once.
Qed.

Lemma sim_run_call ca k v o l s u c :
  sound v o -> crowd v < max_threads -> cur v = Some c -> shown kept v (Some (p_call ca k)) l s o u ->
  can_step tolerated kept c (p_call ca k) s -> (forall f, ca <> c_mem f) ->
  does (run_call cpu_idle idle_fuel ca k) v o (outcome l s u).
Proof.
  intros Hs Hn Hc Hsh (p' & s' & new & Hst) Hnm. destruct ca; simpl.
  - assert (exists n0, pobjs s !! sem = Some (Sem n0)) as [n0 Hsem] by (inversion Hst; eauto). by eapply sim_P.
  - assert (exists n0, pobjs s !! sem = Some (Sem n0)) as [n0 Hsem] by (inversion Hst; eauto).
    eapply does_bind; [by eapply sim_V|]. cbv beta. intros _ v' o' Ho. by apply does_ret.
  - assert (exists w, pobjs s !! lock = Some (Lock w)) as [w Hl] by (inversion Hst; eauto). by eapply sim_lock_acquire.
  - assert (pobjs s !! lock = Some (Lock (Some c))) as Hl by (inversion Hst; congruence).
    eapply does_bind; [eapply (sim_lock_release lock v o l s u _ (k 0)); try done; by apply ts_release|]. cbv beta.
    intros _ v' o' (_ & _ & _ & l' & Hst' & Hsh'). apply does_ret. by eapply outcome_once.
  - assert (exists w, pobjs s !! lock = Some (Lock w)) as [w Hl] by (inversion Hst; eauto).
    pose proof (shown_object _ _ _ _ _ _ _ _ Hsh Hl) as Ho.
    destruct (sim_free_step v o l s u _ _ c Hc Hsh (ts_holds tolerated kept c lock w k s Hl)) as (l' & Hst' & Hsh').
    eapply does_bind; [by apply does_hold|]. cbv beta. intros b v' o' (-> & -> & w' & Hw' & ->). apply does_ret.
    eapply outcome_once; [exact Hst'|]. replace w' with w by congruence. by rewrite Hc.
  - assert (pobjs s !! lock = Some (Lock (Some c))) as Hl by (inversion Hst; congruence). by eapply sim_cv_wait.
  - eapply does_bind; [eapply sim_cv_wake; [|exact Hs|exact Hn|exact Hc|exact Hsh|]|]; cbv beta.
    + intros v0 Hn0. eapply takes_mono; [by apply takes_wakeone|]. cbv beta. by intros _ v' [Hw _].
    + apply ts_signal. inversion Hst; congruence.
    + intros _ v' o' Ho. by apply does_ret.
  - eapply does_bind; [eapply sim_cv_wake; [|exact Hs|exact Hn|exact Hc|exact Hsh|]|]; cbv beta.
    + intros v0 Hn0. eapply takes_mono; [by apply takes_wakeup|]. cbv beta. intros _ v' ->. apply wakeup_woken.
    + apply ts_broadcast. inversion Hst; congruence.
    + intros _ v' o' Ho. by apply does_ret.
  - destruct (sim_free_step v o l s u _ _ c Hc Hsh (ts_yield tolerated kept c k s)) as (l' & Hst' & Hsh').
    eapply does_bind; [by eapply sim_yield_out|]. cbv beta. intros r v' o' [-> Hsh2]. apply does_ret.
    by eapply outcome_once.
  - destruct (sim_free_step v o l s u _ _ c Hc Hsh (ts_clocksleep tolerated kept c lbolt num_secs k s)) as (l' & Hst' & Hsh').
    unfold clocksleep, splhigh. eapply does_bind; [apply does_splx|]. cbv beta. intros n v' o' (-> & -> & ->).
    eapply does_mono; [eapply (sim_clock_loop _ _ _ _ _ _ l' s); [by apply sound_with_spl|exact Hn|exact Hc|by apply shown_spl]|].
    intros r v' o' Ho. by eapply outcome_step.
  - eapply does_bind; [apply does_on_ts, takes_fork; [done|]|]; cbv beta.
    { rewrite (so_count _ _ Hs). apply crowd_living. }
    intros r v' o' [Hv' ->]. apply does_ret. destruct r as [e|t].
    + subst v'. destruct (sim_free_step v o l s u _ _ c Hc Hsh (ts_fork_fails tolerated kept c p k e s)) as (l' & Hst' & Hsh').
      by eapply outcome_once.
    + destruct (shown_fork tolerated kept (k 0) p k v v' t l s o u c Hc) as (l' & s2 & Hst2 & Hsh2); [|done|done|done|].
      * destruct Hv' as (x & Ht & _). intros Hin. destruct (pl_tcb _ (so_placed _ _ Hs) t) as [y Hy]; [|congruence].
        unfold alive, everyone in *. rewrite !elem_of_app in *. tauto.
      * by eapply outcome_once.
  - eapply (sim_pointer (Sem initial_count)); try done; [intros a Ha; by apply ts_sem_create|apply ts_sem_create_fails].
  - eapply (sim_pointer (Lock None)); try done; [intros a Ha; by apply ts_lock_create|apply ts_lock_create_fails].
  - eapply (sim_pointer Cv); try done; [intros a Ha; by apply ts_cv_create|apply ts_cv_create_fails].
  - by destruct (Hnm f).
Qed.

(** ** Going on after a switch *)

Lemma sim_yield_in n v r o l s u :
  sound v o -> shown kept v r l s o u -> does (on_ts (thread_yield_in n)) v o (fun _ v' o' => o' = o /\ shown kept v' r l s o u).
Proof.
  intros Hs Hsh. eapply does_mono; [apply does_on_ts, takes_yield_in|]. cbv beta. intros _ v' o' [(v1 & Hb & ->) ->].
  split; [done|]. apply shown_spl. eapply shown_alike; [|exact Hsh]. apply alike_buried; [apply Hs|done].
Qed.

Lemma sim_resume k v o l s u c :
  sound v o -> crowd v < max_threads -> cur v = Some c -> shown kept v (Some (todo k)) l s o u ->
  can_step tolerated kept c (todo k) s -> does (resume cpu_idle idle_fuel k) v o (outcome l s u).
Proof.
  intros Hs Hn Hc Hsh (p' & s' & new & Hst). destruct k; simpl in *.
  - eapply does_bind; [apply does_on_ts, takes_threadstart_in|]. cbv beta. intros _ v' o' [-> ->].
    by apply does_ret, outcome_here, shown_spl.
  - assert (exists n0, pobjs s !! sem = Some (Sem n0)) as [n0 Hsem] by (inversion Hst; eauto).
    eapply does_bind; [by eapply sim_sleep_in|]. cbv beta. intros _ v' o' (-> & Hs' & Hle & Hc' & Hsh').
    eapply sim_P_loop; [exact Hs'|lia|exact Hc'|exact Hsh'|exact Hsem].
  - assert (exists w, pobjs s !! lock = Some (Lock w)) as [w Hl] by (inversion Hst; eauto).
    eapply does_bind; [by eapply sim_sleep_in|]. cbv beta. intros _ v' o' (-> & Hs' & Hle & Hc' & Hsh').
    eapply sim_acquire_loop; [exact Hs'|lia|exact Hc'|exact Hsh'|exact Hl].
  - assert (exists w, pobjs s !! lock = Some (Lock w)) as [w Hl] by (inversion Hst; eauto).
    eapply does_bind; [by eapply sim_sleep_in|]. cbv beta. intros _ v' o' (-> & Hs' & Hle & Hc' & Hsh').
    eapply sim_lock_acquire; [exact Hs'|lia|exact Hc'|exact Hsh'|exact Hl].
  - eapply does_bind; [by eapply sim_sleep_in|]. cbv beta. intros _ v' o' (-> & Hs' & Hle & Hc' & Hsh').
    eapply sim_clock_loop; [exact Hs'|lia|exact Hc'|exact Hsh'].
  - eapply does_bind; [by eapply sim_yield_in|]. cbv beta. intros _ v' o' [-> Hsh']. by apply does_ret, outcome_here.
  - eapply does_bind; [by eapply sim_yield_in|]. cbv beta. intros _ v' o' [-> Hsh'].
    unfold back_from_interrupt. eapply does_bind; [|intros a v1 o1 Hq; apply does_ret; exact Hq].
    eapply does_bind; [apply does_on_ts, takes_put_intr|]. cbv beta. intros _ v1 o' [-> ->].
    eapply does_bind; [apply does_splx|]. cbv beta. intros old v2 o' (_ & -> & ->). apply does_ret, outcome_here, shown_spl.
    eapply shown_alike; [|exact Hsh']. by apply alike_same.
  - apply does_panic.
Qed.

Lemma sim_run code v o l s u c p :
  sound v o -> crowd v < max_threads -> cur v = Some c -> shown kept v code l s o u ->
  prog_of v code c = Some p -> can_step tolerated kept c p s -> (forall f k, code <> Some (p_call (c_mem f) k)) ->
  does (run cpu_idle idle_fuel code) v o (outcome l s u).
Proof.
  intros Hs Hn Hc Hsh Hp Hcan Hnm. destruct code as [q|].
  - rewrite (prog_of_cur _ _ _ Hc) in Hp. injection Hp as ->. destruct p as [|msg|body k| |ca k]; simpl.
    + eapply does_bind; [by eapply sim_exit_out|]. cbv beta. intros _ v' o' Ho. by apply does_ret.
    + apply does_panic.
    + destruct (sim_free_step v o l s u _ _ c Hc Hsh (ts_loop tolerated kept c body k s)) as (l' & Hst & Hsh').
      apply does_ret. by eapply outcome_once.
    + apply does_undef.
    + eapply sim_run_call; try done. intros f ->. by apply (Hnm f k).
  - simpl. eapply does_bind; [apply does_on_ts, takes_the_curthread|]. cbv beta. intros c' v' o' [[-> Hc'] ->].
    replace c' with c by congruence.
    eapply does_bind; [apply does_on_ts, takes_get_thread|]. cbv beta. intros x v' o' [[-> Hx] ->].
    pose proof (shown_code kept v c x l s o u Hc Hx Hsh) as Hsh'. rewrite prog_of_None, decide_True in Hp by (by apply cur_alive).
    unfold todo_of in Hp. rewrite Hx in Hp. injection Hp as <-. eapply sim_resume; [exact Hs|exact Hn|exact Hc|exact Hsh'|exact Hcan].
Qed.

(** ** Interrupts *)

Lemma sim_tick lbolt p v o l s u c :
  sound v o -> crowd v < max_threads -> cur v = Some c -> shown kept v (Some p) l s o u ->
  does (tick cpu_idle idle_fuel lbolt p) v o (outcome l s u).
Proof.
  intros Hs Hn Hc Hsh. unfold tick, interrupted, splhigh. apply does_get. intros s1 _ _.
  eapply does_bind; [apply does_splx|]. cbv beta. intros n v' o' (-> & -> & ->).
  eapply does_bind; [apply does_on_ts, takes_put_intr|]. cbv beta. intros _ v' o' [-> ->].
  set (v0 := with_intr 1 (with_spl SPL_HIGH v)).
  assert (sound v0 o) as Hs0 by (by apply sound_with_intr, sound_with_spl).
  assert (alike v v0) as Ha0 by (by apply alike_same).
  eapply does_bind with (Qa := fun _ v' o' => o' = o /\ woken v0 v').
  { destruct lbolt as [a|]; [|apply does_ret; split; [done|apply woken_refl]].
    eapply does_mono; [apply does_on_ts, takes_wakeup; exact Hn|]. cbv beta. intros _ v' o' [-> ->].
    split; [done|apply wakeup_woken]. }
  intros _ v' o' [-> Hw].
  eapply does_bind; [eapply (sim_yield_out _ p _ _ l s u c); [by eapply sound_woken| | | |done]|].
  - unfold crowd, lenZ. rewrite (Permutation_length (woken_everyone _ _ Hw)). exact Hn.
  - destruct (woken_same _ _ Hw) as [-> _]. exact Hc.
  - eapply shown_alike; [by apply alike_woken|]. by eapply shown_alike.
  - cbv beta. intros r v1 o1 [-> Hsh1]. by apply does_ret, outcome_here.
Qed.

(** A device signals a semaphore that is none of the pool's. *)
Lemma sim_irq sem p v o l s u :
  crowd v < max_threads -> shown kept v (Some p) l s o u -> kept sem ->
  does (irq sem) v o (fun _ => outcome l s u (Some p)).
Proof.
  clear idle_wakes cpu_idle idle_fuel. intros Hn Hsh Hsem. unfold irq, interrupted, splhigh. apply does_get. intros s1 _ _.
  eapply does_bind; [apply does_splx|]. cbv beta. intros n v' o' (-> & -> & ->).
  eapply does_bind; [apply does_on_ts, takes_put_intr|]. cbv beta. intros _ v' o' [-> ->].
  destruct (sh_kept _ _ _ _ _ _ _ Hsh sem Hsem) as [Hno Hin].
  unfold V, splhigh. eapply does_bind with (Qa := fun _ v' o' => alike v v' /\ pobjs s ⊆ o' /\ dom o' = dom o).
  - apply does_skip_assert.
    eapply does_bind; [apply does_splx|]. cbv beta. intros n' v' o' (-> & -> & ->).
    eapply does_bind; [apply does_sem_count|]. cbv beta. intros n1 v' o' (Hn1 & -> & ->).
    eapply does_bind; [apply does_int_of|]. cbv beta. intros n2 v' o' (-> & Hn2 & -> & ->).
    eapply does_bind; [apply does_put_obj|]. cbv beta. intros _ v' o' [-> ->]. apply does_skip_assert.
    eapply does_bind; [apply does_on_ts; by apply takes_wakeup|]. cbv beta. intros _ v' o' [-> ->].
    eapply does_bind; [apply does_splx|]. cbv beta. intros old v' o' (_ & -> & ->). apply does_ret. split.
    + eapply alike_trans; [|apply alike_spl]. eapply alike_trans; [|apply alike_woken, wakeup_woken]. by apply alike_same.
    + split; [apply insert_subseteq_r; [done|apply Hsh]|]. rewrite dom_insert_L. apply elem_of_dom in Hin. set_solver.
  - intros _ v' o' (Ha & Ho & Hd). unfold back_from_interrupt.
    eapply does_bind; [apply does_on_ts, takes_put_intr|]. cbv beta. intros _ v1 o1 [-> ->].
    eapply does_bind; [apply does_splx|]. cbv beta. intros old v2 o2 (_ & -> & ->). apply does_ret, outcome_here, shown_spl.
    eapply shown_alike; [eapply alike_trans; [exact Ha|by apply alike_same]|]. destruct Hsh as [H1 H2 _ H4 H5].
    split; try done. intros a Hk. rewrite <- elem_of_dom, Hd, elem_of_dom. by apply H5.
Qed.
End sim.

(** ** The machine determines the places of its threads *)

Section unique.
Context {Q C W : Type} {F : FifoQueue Q Z} {L : FifoLaws F} {Env : ThreadEnv W}.

Lemma fq_model_inj (q : Q) (xs ys : list Z) : fq_model q xs -> fq_model q ys -> xs = ys.
Proof.
  revert q ys. induction xs as [|x xs IH]; intros q ys Hx Hy;
    pose proof (fq_empty_law q _ Hx) as E1; rewrite (fq_empty_law q _ Hy) in E1; injection E1 as E1.
  - destruct ys; [done|]. by case_bool_decide.
  - destruct ys as [|y ys]; [by case_bool_decide|].
    destruct (fq_remhead_law q x xs Hx) as (q1 & R1 & M1 & _).
    destruct (fq_remhead_law q y ys Hy) as (q2 & R2 & M2 & _). rewrite R1 in R2. injection R2 as <- <-.
    f_equal. by apply (IH q1).
Qed.

Lemma repr_inj (a : array Z) (xs ys : list Z) : repr a (Some <$> xs) -> repr a (Some <$> ys) -> xs = ys.
Proof.
  intros Hx Hy. pose proof (repr_cells _ _ Hx) as E1. pose proof (repr_cells _ _ Hy) as E2.
  pose proof (repr_num _ _ Hx) as N1. pose proof (repr_num _ _ Hy) as N2. unfold lenZ in *.
  assert (length (Some <$> xs) = length (Some <$> ys)) as Hl by lia. rewrite Hl, E2 in E1.
  by apply (inj (fmap Some)) in E1.
Qed.

Lemma refines_inj (s : tsys Q C W) v1 v2 : refines s v1 -> refines s v2 -> v1 = v2.
Proof.
  intros [C1 (q1 & Q1 & R1) (a1 & A1 & S1) (z1 & Z1 & D1) T1 N1 P1 I1] [C2 (q2 & Q2 & R2) (a2 & A2 & S2) (z2 & Z2 & D2) T2 N2 P2 I2].
  rewrite Q1 in Q2. injection Q2 as <-. rewrite A1 in A2. injection A2 as <-. rewrite Z1 in Z2. injection Z2 as <-.
  destruct v1, v2. simpl in *. f_equal; try congruence; [by eapply fq_model_inj|by eapply repr_inj..].
Qed.
End unique.

(** ** Executions *)

Section traces.
Context {Q U W : Type} {F : FifoQueue Q Z} {L : FifoLaws F} {Env : ThreadEnv W}.
Context (cpu_idle : M (tsys Q (kont U) W) unit) (idle_fuel : nat).
Hypothesis idle_wakes : forall v, cur v = None -> takes cpu_idle v (fun _ v' => woken v v').
Context (tolerated : string -> Prop) (kept : Z -> Prop).
Notation machine := (machine Q U W).
Notation ssys := (ssys Q U W).
Notation pool := (list (Z * option (prog U))).

(** A step, in which devices signal the semaphores [kept] only. *)
Inductive step_on : machine -> machine -> Prop :=
| on_run s c s' c' : run cpu_idle idle_fuel c s = Done c' s' -> step_on (mk_machine s c) (mk_machine s' c')
| on_tick s p lbolt s' c' :
    curspl (ts s) = 0 -> tick cpu_idle idle_fuel lbolt p s = Done c' s' ->
    step_on (mk_machine s (Some p)) (mk_machine s' c')
| on_irq s p sem s' :
    curspl (ts s) = 0 -> kept sem -> irq sem s = Done tt s' ->
    step_on (mk_machine s (Some p)) (mk_machine s' (Some p)).

Lemma step_on_step m m' : step_on m m' -> step cpu_idle idle_fuel m m'.
Proof. intros []; [by apply step_run|by eapply step_tick|by eapply step_irq]. Qed.

Inductive trace_on : machine -> list machine -> Prop :=
| trace_on_nil m : trace_on m []
| trace_on_cons m m' ms : small m -> step_on m m' -> trace_on m' ms -> trace_on m (m' :: ms).

(** Shared memory belongs to [c_mem] alone. *)
Definition steady {A} (m : M ssys A) : Prop := forall s, wlp m (fun _ s' => shared s' = shared s) s.

Lemma steady_ret {A} (a : A) : steady (ret a).
Proof. intros s. by apply wlp_ret. Qed.
Lemma steady_bind {A B} (m : M ssys A) (f : A -> M ssys B) : steady m -> (forall a, steady (f a)) -> steady (bind m f).
Proof.
  intros Hm Hf s. apply wlp_bind. eapply wlp_mono; [apply Hm|]. intros a s1 <-. apply Hf.
Qed.
Lemma steady_get : steady get.
Proof. intros s. by apply wlp_get. Qed.
Lemma steady_assert b : steady (assert_ b).
Proof. intros s. by apply wlp_assert. Qed.
Lemma steady_panic {A} : steady (A := A) panic.
Proof. intros s. apply wlp_panic. Qed.
Lemma steady_undef {A} : steady (A := A) undef.
Proof. intros s. apply wlp_undef. Qed.
Lemma steady_int_of n : steady (int_of n).
Proof. intros s. by apply wlp_int_of. Qed.
Lemma steady_of_option {A} (x : option A) : steady (of_option x).
Proof. intros s. by apply wlp_of_option. Qed.
Lemma steady_on_ts {A} (m : M (tsys Q (kont U) W) A) : steady (on_ts m).
Proof. intros s. apply wlp_zoom. by intros a t _. Qed.
Lemma steady_get_obj a : steady (get_obj a).
Proof. apply steady_bind; [apply steady_get|]. intros s. apply steady_of_option. Qed.
Lemma steady_put_obj a b : steady (put_obj a b).
Proof. intros s. by apply wlp_bind, wlp_get, wlp_put. Qed.

Ltac steadily := repeat (intros; first
  [ solve [auto] | apply steady_ret | apply steady_get | apply steady_assert | apply steady_panic | apply steady_undef
  | apply steady_int_of | apply steady_on_ts | apply steady_get_obj | apply steady_put_obj
  | apply steady_bind | case_match | progress unfold sem_count, lock_owner, lock_do_i_hold, splhigh ]).

Lemma steady_restore spls : steady (restore spls).
Proof. induction spls; simpl; steadily. Qed.

Lemma steady_run code : (forall f k, code <> Some (p_call (c_mem f) k)) -> steady (run cpu_idle idle_fuel code).
Proof.
  intros Hnm. assert (forall sem n k, steady (P_loop cpu_idle idle_fuel sem n k)) as HP by (intros; unfold P_loop; steadily).
  assert (forall lock spls k, steady (acquire_loop cpu_idle idle_fuel lock spls k)) as HA.
  { pose proof steady_restore. intros. unfold acquire_loop. steadily. }
  assert (forall lock spls k, steady (lock_acquire cpu_idle idle_fuel lock spls k)) as HL by (intros; unfold lock_acquire; steadily).
  assert (forall lock, steady (lock_release lock)) as HR by (intros; unfold lock_release; steadily).
  assert (forall lbolt n x k, steady (clock_loop cpu_idle idle_fuel lbolt n x k)) as HC by (intros; unfold clock_loop; steadily).
  assert (forall wake cv lock, steady (cv_wake wake cv lock)) as HW by (intros; unfold cv_wake; steadily).
  destruct code as [[|msg|body k| |c k]|]; simpl.
  - steadily.
  - steadily.
  - steadily.
  - steadily.
  - destruct c; simpl; unfold after, P, V, cv_wait, clocksleep, cv_signal, cv_broadcast; steadily; auto. by destruct (Hnm f k).
  - steadily. unfold resume, back_from_interrupt. steadily; auto.
Qed.

Lemma steady_tick lbolt p : steady (tick cpu_idle idle_fuel lbolt p).
Proof. unfold tick, interrupted. steadily. Qed.

Lemma steady_irq sem : steady (irq sem).
Proof. unfold irq, interrupted, back_from_interrupt, V. steadily. Qed.

(** The pool shows the machine, which stands. *)
Definition pictured (m : machine) (l : pool) (ps : pstate) : Prop :=
  exists v, refines (ts (sys m)) v /\ sound v (objs (sys m)) /\ shown kept v (code m) l ps (objs (sys m)) (shared (sys m)).

(** Nobody in the pool is stuck. *)
Definition all_go (l : pool) (ps : pstate) : Prop := forall t p, (t, Some p) ∈ l -> can_step tolerated kept t p ps.

(** The machine at an access to shared memory. *)
Lemma sim_mem (x x' : ssys) c' f k v l ps c :
  run cpu_idle idle_fuel (Some (p_call (c_mem f) k)) x = Done c' x' -> refines (ts x) v -> cur v = Some c ->
  shown kept v (Some (p_call (c_mem f) k)) l ps (objs x) (shared x) ->
  exists l' ps', rtc (pstep tolerated kept) (l, ps) (l', ps') /\ refines (ts x') v /\ shown kept v c' l' ps' (objs x') (shared x').
Proof.
  intros Hrun Hr Hc Hsh. cbn in Hrun. unfold bind, get in Hrun. destruct (f (shared x)) as [[u r]|] eqn:Hf; [|done].
  injection Hrun as <- <-. simpl.
  destruct (advance tolerated kept v c _ l ps (objs x) (shared x) (k r) (set_pmem u ps) (objs x) u Hc Hsh) as (l' & Hst & Hsh');
    [apply ts_mem; by rewrite (sh_mem _ _ _ _ _ _ _ Hsh)|done|apply Hsh|done|apply Hsh|].
  exists l', (set_pmem u ps). split; [by apply rtc_once|done].
Qed.

Lemma sim_step m m' l ps :
  step_on m m' -> small m -> pictured m l ps -> all_go l ps ->
  exists l' ps', rtc (pstep tolerated kept) (l, ps) (l', ps') /\ pictured m' l' ps'.
Proof.
  intros Hst Hsm (v & Hr & Hs & Hsh) Hgo.
  destruct (step_stands cpu_idle idle_fuel idle_wakes m m' v Hsm (step_on_step _ _ Hst) Hr Hs) as (v' & Hr' & Hs' & _).
  assert (crowd v < max_threads) as Hn.
  { pose proof (crowd_size v (so_placed _ _ Hs)). unfold small in Hsm. rewrite (rf_tcb _ _ Hr) in Hsm. lia. }
  cut (exists v1 l' ps', rtc (pstep tolerated kept) (l, ps) (l', ps') /\ refines (ts (sys m')) v1 /\
    shown kept v1 (code m') l' ps' (objs (sys m')) (shared (sys m'))).
  { intros (v1 & l' & ps' & Hsts & Hr1 & Hsh1). exists l', ps'. split; [done|]. exists v'. split; [done|].
    split; [done|]. by rewrite (refines_inj _ _ _ Hr' Hr1). }
  destruct (so_cur _ _ Hs) as [c Hc].
  assert (is_Some (prog_of v (code m) c)) as [p Hp].
  { destruct (code m) as [q|]; [rewrite (prog_of_cur _ _ _ Hc); eauto|]. rewrite prog_of_None, decide_True by (by apply cur_alive).
    destruct (pl_tcb _ (so_placed _ _ Hs) c) as [x Hx]; [by apply cur_everyone|]. unfold todo_of. rewrite Hx. eauto. }
  assert (can_step tolerated kept c p ps) as Hcan by (by apply Hgo, (sh_prog _ _ _ _ _ _ _ Hsh)).
  clear Hs' Hr' v'. destruct Hst as [x co x' c' Hrun|x q lbolt x' c' Hspl Hrun|x q sem x' Hspl Hd Hrun]; simpl in *.
  - assert ((exists f k, co = Some (p_call (c_mem f) k)) \/ ~ exists f k, co = Some (p_call (c_mem f) k)) as [(f & k & ->)|Hnm].
    { destruct co as [[|msg|body k| |[] k]|]; naive_solver. }
    { destruct (sim_mem x x' c' f k v l ps c Hrun Hr Hc Hsh) as (l' & ps' & H1 & H2 & H3). by exists v, l', ps'. }
    assert (forall f k, co <> Some (p_call (c_mem f) k)) as Hnm' by (intros f k ->; apply Hnm; eauto).
    pose proof (sim_run cpu_idle idle_fuel idle_wakes tolerated kept co v (objs x) l ps (shared x) c p Hs Hn Hc Hsh Hp Hcan Hnm' x Hr eq_refl _ _ Hrun)
      as (v' & Hr' & l' & ps' & Hsts & Hsh').
    exists v', l', ps'. split; [done|]. split; [done|]. by rewrite (steady_run co Hnm' x _ _ Hrun).
  - pose proof (sim_tick cpu_idle idle_fuel idle_wakes tolerated kept lbolt q v (objs x) l ps (shared x) c Hs Hn Hc Hsh x Hr eq_refl _ _ Hrun)
      as (v' & Hr' & l' & ps' & Hsts & Hsh').
    exists v', l', ps'. split; [done|]. split; [done|]. by rewrite (steady_tick lbolt q x _ _ Hrun).
  - pose proof (sim_irq tolerated kept sem q v (objs x) l ps (shared x) Hn Hsh Hd x Hr eq_refl _ _ Hrun)
      as (v' & Hr' & l' & ps' & Hsts & Hsh').
    exists v', l', ps'. split; [done|]. split; [done|]. by rewrite (steady_irq sem x _ _ Hrun).
Qed.

(** Every execution of the machine is one of the pool, as long as the pool goes on. *)
Lemma sim_trace m ms l ps :
  trace_on m ms -> pictured m l ps ->
  (forall l' ps', rtc (pstep tolerated kept) (l, ps) (l', ps') -> all_go l' ps') ->
  Forall (fun m' => exists l' ps', rtc (pstep tolerated kept) (l, ps) (l', ps') /\ pictured m' l' ps') ms.
Proof.
  intros Htr. revert l ps. induction Htr as [m|m m' ms Hsm Hst Htr IH]; intros l ps Hpic Hgo; [constructor|].
  destruct (sim_step m m' l ps Hst Hsm Hpic) as (l1 & ps1 & Hsts & Hpic1); [by apply Hgo, rtc_refl|].
  constructor; [by exists l1, ps1|].
  eapply Forall_impl.
  - apply (IH l1 ps1 Hpic1). intros l' ps' Hs'. apply Hgo. by etrans.
  - intros m2 (l' & ps' & Hs' & Hp'). exists l', ps'. split; [by etrans|done].
Qed.

(** ** What a thread may do *)

(** The call that [p] is at makes sense: the structure is there, the lock is not held
    already or is, shared memory is used as C allows. *)
Definition legal (t : Z) (p : prog U) (o : gmap Z obj) (u : U) : Prop :=
  match p with
  | p_done => True
  | p_panic msg => tolerated msg
  | p_loop _ _ => True
  | p_break => False
  | p_call c _ =>
      match c with
      | c_P sem => exists n, o !! sem = Some (Sem n) /\ 0 <= n
      | c_V sem => exists n, o !! sem = Some (Sem n) /\ is_s32 (n + 1)
      | c_acquire lock => exists w, o !! lock = Some (Lock w) /\ w <> Some t
      | c_release lock | c_wait _ lock | c_signal _ lock | c_broadcast _ lock => o !! lock = Some (Lock (Some t))
      | c_holds lock => exists w, o !! lock = Some (Lock w)
      | c_mem f => is_Some (f u)
      | _ => True
      end
  end.

Lemma can_step_legal t p ps o u : can_step tolerated kept t p ps -> pobjs ps ⊆ o -> pmem ps = u -> legal t p o u.
Proof.
  intros (p' & ps' & new & Hst) Ho <-.
  inversion Hst; subst; simpl; try done; eauto using lookup_weaken with lia; try (eexists; split; [by eapply lookup_weaken|lia || congruence || done]).
Qed.

(** The current thread, at its next call. *)
Definition behaves (m : machine) : Prop :=
  forall t p, curthread (ts (sys m)) = Some t -> code m = Some p -> legal t p (objs (sys m)) (shared (sys m)).

Lemma pictured_behaves m l ps : pictured m l ps -> all_go l ps -> behaves m.
Proof.
  intros (v & Hr & Hs & Hsh) Hgo t p Ht Hp. rewrite (rf_cur _ _ Hr) in Ht.
  eapply can_step_legal; [|apply Hsh|apply Hsh]. apply Hgo, (sh_prog _ _ _ _ _ _ _ Hsh). rewrite Hp. by apply prog_of_cur.
Qed.

(** The machine under a schedule: where the timer interrupts and where it goes on. *)
Definition next_on (timer : bool) (m : machine) : option machine :=
  if timer then
    match code m with
    | Some p =>
        if curspl (ts (sys m)) =? 0 then
          match tick cpu_idle idle_fuel None p (sys m) with Done c s => Some (mk_machine s c) | _ => None end
        else None
    | None => None
    end
  else next cpu_idle idle_fuel m.

Lemma next_on_step timer m m' : next_on timer m = Some m' -> step_on m m'.
Proof.
  destruct m as [s c], timer; simpl.
  - destruct c as [p|]; [|done]. destruct (Z.eqb_spec (curspl (ts s)) 0); [|done].
    destruct (tick cpu_idle idle_fuel None p s) as [c' s'| | |] eqn:Ht; [|done..]. intros [= <-]. by eapply on_tick.
  - unfold next. simpl. destruct (run cpu_idle idle_fuel c s) as [c' s'| | |] eqn:Hrun; [|done..]. intros [= <-]. by apply on_run.
Qed.

Fixpoint runs_on (sched : list bool) (check : machine -> bool) (m : machine) : bool :=
  match sched with
  | [] => check m
  | timer :: sched => is_small m && match next_on timer m with Some m' => runs_on sched check m' | None => false end
  end.

Lemma runs_on_trace sched check m :
  runs_on sched check m = true ->
  exists ms, length ms = length sched /\ trace_on m ms /\ check (default m (last ms)) = true.
Proof.
  revert m. induction sched as [|timer sched IH]; intros m; simpl.
  - intros Hc. exists []. split; [done|]. split; [constructor|done].
  - destruct (is_small m) eqn:Hsm; [|done]. destruct (next_on timer m) as [m'|] eqn:Hn; [|done]. simpl. intros Hr.
    destruct (IH m' Hr) as (l & Hl & Htr & Hc). exists (m' :: l). split; [simpl; congruence|]. split.
    + constructor; [unfold small, is_small in *; lia|by eapply next_on_step|done].
    + rewrite last_cons. by destruct (last l).
Qed.

Lemma trace_on_trace m ms : trace_on m ms -> trace cpu_idle idle_fuel m ms.
Proof. induction 1; [constructor|constructor; [done|by apply step_on_step|done]]. Qed.

(** A machine on which the current thread is alone, at [p]. *)
Definition alone_at (p : prog U) (m : machine) (t : Z) : Prop :=
  exists v, refines (ts (sys m)) v /\ sound v (objs (sys m)) /\ cur v = Some t /\ ready v = [] /\ asleep v = [] /\
    code m = Some p.

Lemma alone_pictured p m t :
  alone_at p m t -> (forall a, kept a -> is_Some (objs (sys m) !! a)) ->
  pictured m [(t, Some p)] (mk_pstate ∅ {[t]} (shared (sys m))).
Proof.
  intros (v & Hr & Hs & Hc & Hrd & Has & Hp) Hk. exists v. split; [done|]. split; [done|].
  assert (forall t', prog_of v (code m) t' = if decide (t' = t) then Some p else None) as Heq.
  { intros t'. rewrite Hp. destruct (decide (t' = t)) as [->|Hne]; [by apply prog_of_cur|].
    rewrite (prog_of_other _ _ None) by congruence. rewrite prog_of_None. apply decide_False.
    unfold alive. rewrite Hc, Hrd, Has. simpl. by rewrite list_elem_of_singleton. }
  split; simpl.
  - intros t' q. rewrite Heq. case_decide; [|done]. intros [= ->]. subst. apply list_elem_of_here.
  - intros t' Ht. apply elem_of_singleton in Ht as ->. rewrite Heq. by rewrite decide_True.
  - apply map_empty_subseteq.
  - done.
  - intros a Ha. split; [done|]. by apply Hk.
Qed.
End traces.

(** ** Deadlocks *)

Section deadlock.
Context {Q U W : Type} {F : FifoQueue Q Z} {L : FifoLaws F} {Env : ThreadEnv W}.
Notation machine := (machine Q U W).

Definition waits (o : gmap Z obj) (p : prog U) : Prop := exists sem k, p = p_call (c_P sem) k /\ o !! sem = Some (Sem 0).

(** Whoever has the processor waits for a semaphore that is 0. *)
Definition waiting (m : machine) : Prop :=
  is_Some (curthread (ts (sys m))) /\ forall p, code m = Some p -> waits (objs (sys m)) p.

(** Nobody is on the run queue, the current thread is about to wait, and those who sleep
    do so in [P]. *)
Definition deadlocked (m : machine) : bool :=
  match code m with
  | Some (p_call (c_P sem) _) => match objs (sys m) !! sem with Some (Sem n) => n =? 0 | _ => false end
  | _ => false
  end &&
  match runqueue (ts (sys m)) with
  | Some q => match fq_empty q with Done true _ => true | _ => false end
  | None => false
  end &&
  forallb (fun x => match pcb_resume (t_pcb x.2) with k_acquire _ _ _ | k_wait _ _ _ | k_clock _ _ _ _ => false | _ => true end)
    (map_to_list (tcbs (ts (sys m)))).

Lemma alive_of (v : places (kont U)) code t p : prog_of v code t = Some p -> t ∈ alive v.
Proof.
  unfold prog_of. case_decide as Hc; [|by case_decide]. intros _. apply cur_alive, Hc.
Qed.

Lemma deadlocked_waits (m : machine) v t p :
  deadlocked m = true -> refines (ts (sys m)) v -> sound v (objs (sys m)) ->
  prog_of v (code m) t = Some p -> waits (objs (sys m)) p.
Proof.
  unfold deadlocked. rewrite !andb_true_iff. intros [[Hcode Hq] Htcb] Hr Hs Hp.
  destruct (so_cur _ _ Hs) as [c Hc]. destruct (code m) as [[| | | |[sem| | | | | | | | | | | | | |] k]|] eqn:Hco; try done.
  destruct (objs (sys m) !! sem) as [[n| |]|] eqn:Hsem; try done. apply Z.eqb_eq in Hcode as ->. destruct (decide (t = c)) as [->|Hne].
  { rewrite (prog_of_cur _ _ _ Hc) in Hp. injection Hp as <-. by exists sem, k. }
  pose proof (alive_of _ _ _ _ Hp) as Hal. rewrite (prog_of_other _ _ None) in Hp by congruence.
  rewrite prog_of_None, decide_True in Hp by done. unfold todo_of in Hp.
  destruct (tcb v !! t) as [x|] eqn:Hx; [|done]. injection Hp as <-.
  destruct (rf_ready _ _ Hr) as (q & Hqr & Hm). rewrite Hqr, (fq_empty_law _ _ Hm) in Hq.
  destruct (ready v) as [|? ?] eqn:Hrd; [|done].
  unfold alive in Hal. rewrite Hc, Hrd in Hal. simpl in Hal. apply elem_of_cons in Hal as [->|Hal]; [done|].
  pose proof (so_resting _ _ Hs t x Hal Hx) as Hrest. rewrite forallb_forall in Htcb.
  rewrite (rf_tcb _ _ Hr) in Htcb. specialize (Htcb (t, x)). simpl in Htcb.
  rewrite <- list_elem_of_In, elem_of_map_to_list in Htcb. specialize (Htcb Hx).
  unfold resting in Hrest. destruct (pcb_resume (t_pcb x)); try done. destruct Hrest as [_ Hrest]. by eexists _, _.
Qed.

Lemma waiting_stays (x y : list (Z * option (prog U)) * pstate) :
  rtc (pstep (fun _ => False) (fun _ => False)) x y ->
  (forall t p, (t, Some p) ∈ x.1 -> waits (pobjs x.2) p) -> y = x.
Proof.
  induction 1 as [x|x z y Hst _ IH]; [done|]. intros Hx. assert (z = x) as ->; [|by apply IH].
  destruct Hst as [l1 t p l2 s p' s' new Hst]. simpl in *.
  destruct (Hx t p) as (sem & k & -> & Hsem); [rewrite elem_of_app, elem_of_cons; auto|].
  inversion Hst; subst; simplify_eq; [by rewrite app_nil_r|]. exfalso. simplify_map_eq. lia.
Qed.

(** A deadlock is for ever. *)
Lemma deadlock_stays cpu_idle idle_fuel (m : machine) ms
    (Hidle : forall v, cur v = None -> takes cpu_idle v (fun _ v' => woken v v')) :
  stands m -> deadlocked m = true -> trace_on cpu_idle idle_fuel (fun _ => False) m ms ->
  Forall (fun m' => waiting m' /\ shared (sys m') = shared (sys m)) ms.
Proof.
  intros (v & Hr & Hs) Hd Htr.
  set (l := (fun t => (t, prog_of v (code m) t)) <$> alive v).
  set (s := mk_pstate (objs (sys m)) (list_to_set (alive v)) (shared (sys m))).
  assert (forall t p, (t, Some p) ∈ l -> waits (pobjs s) p) as Hw.
  { intros t p Hin. apply list_elem_of_fmap in Hin as (t' & [= -> Hp] & _). by eapply deadlocked_waits. }
  assert (pictured (fun _ => False) m l s) as Hpic.
  { exists v. split; [done|]. split; [done|]. split; simpl; try done.
    - intros t p Hp. apply list_elem_of_fmap. exists t. split; [by f_equal|by eapply alive_of].
    - intros t Ht. apply elem_of_list_to_set in Ht. unfold prog_of. case_decide as Hc; [apply Hc|].
      rewrite decide_True by done. unfold todo_of. destruct (pl_tcb _ (so_placed _ _ Hs) t) as [x ->]; [|by eexists].
      unfold alive, everyone in *. rewrite !elem_of_app in *. tauto. }
  assert (forall l' s', rtc (pstep (fun _ => False) (fun _ => False)) (l, s) (l', s') -> (l', s') = (l, s)) as Hstay
    by (intros l' s' Hsts; by apply (waiting_stays _ _ Hsts)).
  eapply Forall_impl.
  - eapply sim_trace; [exact Hidle|exact Htr|exact Hpic|].
    intros l' s' Hsts. injection (Hstay _ _ Hsts) as -> ->. intros t p Hin. destruct (Hw t p Hin) as (sem & k & -> & Hsem).
    eexists _, _, _. by apply ts_P_waits.
  - intros m' (l' & s' & Hsts & (v' & Hr' & Hs' & Hsh)). injection (Hstay _ _ Hsts) as -> ->. split.
    + split; [rewrite (rf_cur _ _ Hr'); apply Hs'|]. intros p Hp. destruct (so_cur _ _ Hs') as [c Hc].
      destruct (Hw c p) as (sem & k & -> & Hsem).
      { apply (sh_prog _ _ _ _ _ _ _ Hsh). rewrite Hp. by apply prog_of_cur. }
      exists sem, k. split; [done|]. by apply (lookup_weaken (pobjs s)), Hsh.
    + symmetry. apply (sh_mem _ _ _ _ _ _ _ Hsh).
Qed.
End deadlock.

(** ** Properties *)

Section properties.
Context {Q U W : Type} {F : FifoQueue Q Z} {L : FifoLaws F} {Env : ThreadEnv W}.

(** C6. To the programs it runs the machine is a pool of programs that take turns at
    any point: as long as no program is stuck in any state the pool can reach, every
    execution of the machine, with timer and disk interrupts between any two steps and
    sleepers on their queues, goes through states of the pool only. *)
Theorem machine_refines_pool cpu_idle idle_fuel tolerated kept (m : machine Q U W) ms p t
    (Hidle : forall v, cur v = None -> takes cpu_idle v (fun _ v' => woken v v')) :
  let start := ([(t, Some p)], mk_pstate ∅ {[t]} (shared (sys m))) in
  alone_at p m t -> (forall a, kept a -> is_Some (objs (sys m) !! a)) -> trace_on cpu_idle idle_fuel kept m ms ->
  (forall l s, rtc (pstep tolerated kept) start (l, s) -> all_go tolerated kept l s) ->
  Forall (fun m' => exists l s, rtc (pstep tolerated kept) start (l, s) /\ pictured kept m' l s) ms.
Proof. intros start Hal Hk Htr Hgo. eapply sim_trace; [exact Hidle|exact Htr|by apply alone_pictured|exact Hgo]. Qed.
End properties.
(** Programs that cannot get stuck. *)
Inductive tame : prog Z -> Prop :=
| tame_done : tame p_done
| tame_yield k : (forall r, tame (k r)) -> tame (p_call c_yield k)
| tame_fork p k : tame p -> (forall r, tame (k r)) -> tame (p_call (c_fork p) k).

Lemma tame_pool tolerated kept x y :
  rtc (pstep tolerated kept) x y -> (forall t p, (t, Some p) ∈ x.1 -> tame p) -> forall t p, (t, Some p) ∈ y.1 -> tame p.
Proof.
  induction 1 as [|x z y Hst _ IH]; [done|]. intros Hx. apply IH.
  destruct Hst as [l1 t p l2 s p' s' new Hst]. simpl in *.
  assert (tame p) as Hp by (apply (Hx t); rewrite elem_of_app, elem_of_cons; auto).
  assert ((forall q, p' = Some q -> tame q) /\ forall t' q, (t', q) ∈ new -> tame q) as [Hp' Hnew].
  { destruct Hp as [|k Hk|q k Hq Hk]; inversion Hst; subst; split;
      try (intros q0 [= <-]; apply Hk); try (intros t2 q2 H2; by apply elem_of_nil in H2).
    intros t2 q2 H2. apply list_elem_of_singleton in H2 as [= _ ->]. done. }
  intros t' q. rewrite elem_of_app, elem_of_cons, elem_of_app, list_elem_of_fmap.
  intros [Hin|[[= _ <-]|[Hin|([t2 q2] & [= _ ->] & Hin)]]].
  - apply (Hx t'). rewrite elem_of_app. auto.
  - by apply Hp'.
  - apply (Hx t'). rewrite elem_of_app, elem_of_cons. auto.
  - by apply (Hnew t2).
Qed.

Lemma tame_goes tolerated kept (l : list (Z * option (prog Z))) s :
  (forall t p, (t, Some p) ∈ l -> tame p) -> all_go tolerated kept l s.
Proof.
  intros Hl t p Hin. destruct (Hl t p Hin); eexists _, _, _; [apply ts_done|apply ts_yield|apply (ts_fork_fails _ _ _ _ _ ENOMEM)].
Qed.

(** A thread starts another and makes room for it; the timer interrupts. *)
Definition pause (p : prog Z) : prog Z := p_call c_yield (fun _ => p).
Definition polite : prog Z := p_call (c_fork (pause p_done)) (fun _ => pause (pause p_done)).

Lemma machine_refines_pool_witness : exists (m : machine (queue Z) Z unit) (ms : list (machine (queue Z) Z unit)) t, alone_at polite m t /\ length ms = 8%nat /\
  Forall (fun m' => exists l s, rtc (pstep (fun _ => False) (fun _ => False)) ([(t, Some polite)], mk_pstate ∅ {[t]} 0) (l, s) /\
    pictured (fun _ => False) m' l s) ms.
Proof.
  assert (runs_on (ret tt) 0 [false; false; false; true; false; false; false; false] (sleeping 0)
    (mk_machine (mk_ssys demo_sys demo_objs 0) (Some polite)) = true) as Hok by (vm_compute; reflexivity).
  destruct (boot_alone (Q := queue Z) demo_pcb tt) as (t & s & Hrun & Hr). unfold demo_sys in Hok. rewrite Hrun in Hok.
  apply (runs_on_trace (ret tt) 0 (fun _ => False)) in Hok as (ms & Hl & Htr & _).
  assert (alone_at polite (mk_machine (mk_ssys s demo_objs 0) (Some polite)) t) as Hal.
  { exists (alone demo_pcb t). split; [exact Hr|]. split; [apply alone_sound|done]. }
  eexists _, ms, t. split; [exact Hal|]. split; [exact Hl|].
  apply (machine_refines_pool (ret tt) 0 _ _ _ ms polite t demo_idle_wakes Hal); [done|exact Htr|].
  intros l ps Hsts. apply tame_goes. apply (tame_pool _ _ _ _ Hsts). intros t' p Hin.
  apply list_elem_of_singleton in Hin as [= _ ->]. repeat (constructor; intros).
Defined.
