(* ===== verification/PoolLogic.v ===== *)
(** * A separation logic for programs in the pool.

    [safe t p] says that thread [t] never gets stuck in [p]. Programs own the cells of
    shared memory they use ([cell]) and the structures ([object]); [holds t X] says that
    [t] runs and has the locks [X]. The rules for semaphores and locks hand over what
    they guard; [pool_safe] takes a proof to all executions of the pool. *)

From iris.algebra Require Import auth numbers.
From iris.base_logic.lib Require Import ghost_map invariants.
From iris.program_logic Require Import weakestpre lifting adequacy.
From iris.proofmode Require Import proofmode.
From stdpp Require Import base numbers list gmap strings.
From Stdlib Require Import ZArith Lia.
From S2P Require Import Prelude Synch Pool PoolSim.

(** ** The pool as a language *)

Section language.
Context {U : Type} (tolerated : string -> Prop) (kept : Z -> Prop).

Definition texpr : Type := Z * option (prog U).
Definition texpr_of (t : Z) : texpr := (t, None).
Definition texpr_val (e : texpr) : option Z := match e.2 with None => Some e.1 | Some _ => None end.

Inductive tprim : texpr -> pstate (U := U) -> list Empty_set -> texpr -> pstate -> list texpr -> Prop :=
| tprim_intro t p s p' s' new : tstep tolerated kept t p s p' s' new -> tprim (t, Some p) s [] (t, p') s' (newborn <$> new).

Lemma pool_mixin : LanguageMixin texpr_of texpr_val tprim.
Proof.
  split.
  - done.
  - by intros [t [p|]] v; simpl; [|intros [= ->]].
  - by intros e s os e' s' es [].
Qed.

Definition pool_lang : language := Language pool_mixin.

Lemma pstep_erased (x y : list texpr * pstate) : pstep tolerated kept x y -> erased_step (Λ := pool_lang) x y.
Proof.
  intros [l1 t p l2 s p' s' new Hst]. exists []. by eapply (step_atomic (Λ := pool_lang)); [done..|constructor].
Qed.
End language.

(** ** Ownership *)

Class poolGpreS (Σ : gFunctors) (K : Type) `{Countable K} : Set := {
  #[local] pool_pre_inv :: invGpreS Σ;
  #[local] pool_pre_obj :: ghost_mapG Σ Z obj;
  #[local] pool_pre_held :: ghost_mapG Σ Z (gset Z);
  #[local] pool_pre_cell :: ghost_mapG Σ K Z;
}.

Class poolGS (Σ : gFunctors) (K : Type) `{Countable K} : Set := {
  pool_inv :: invGS Σ;
  #[local] pool_obj :: ghost_mapG Σ Z obj;
  #[local] pool_held :: ghost_mapG Σ Z (gset Z);
  #[local] pool_cell :: ghost_mapG Σ K Z;
  obj_name : gname;
  held_name : gname;
  cell_name : gname;
}.

#[export] Instance obj_eq_dec : EqDecision obj.
Proof. solve_decision. Defined.

Section logic.
Context {K : Type} `{Countable K} `{!poolGS Σ K} (tolerated : string -> Prop) (kept : Z -> Prop).
Notation prog := (prog (gmap K Z)).
Notation pstate := (pstate (U := gmap K Z)).

Definition object (q : Qp) (a : Z) (b : obj) : iProp Σ := a ↪[obj_name]{#q} b.
Definition cell (q : Qp) (x : K) (v : Z) : iProp Σ := x ↪[cell_name]{#q} v.
Definition holds (t : Z) (X : gset Z) : iProp Σ := t ↪[held_name] X.

(** Who is the owner of a lock knows of it. *)
Definition owners (s : pstate) (G : gmap Z (gset Z)) : Prop :=
  dom G = plive s ∧ ∀ l t, pobjs s !! l = Some (Lock (Some t)) -> ∃ X, G !! t = Some X ∧ l ∈ X.

Definition pool_interp (s : pstate) : iProp Σ :=
  ∃ G, ghost_map_auth obj_name 1 (pobjs s) ∗ ghost_map_auth held_name 1 G ∗ ghost_map_auth cell_name 1 (pmem s) ∗ ⌜owners s G⌝.

#[local] Instance pool_irisGS : irisGS (pool_lang tolerated kept) Σ := {
  iris_invGS := pool_inv;
  state_interp s _ _ _ := pool_interp s;
  fork_post _ := True%I;
  num_laters_per_step _ := 0%nat;
  state_interp_mono _ _ _ _ := fupd_intro _ _;
}.

Definition safe (t : Z) (p : prog) : iProp Σ :=
  weakestpre.wp (PROP := iProp Σ) NotStuck ⊤ ((t, Some p) : expr (pool_lang tolerated kept)) (λ _, True%I).

Lemma safe_step t p :
  (∀ s, pool_interp s ={⊤,∅}=∗ ⌜can_step tolerated kept t p s⌝ ∗
    ▷ ∀ p' s' new, ⌜tstep tolerated kept t p s p' s' new⌝ ={∅,⊤}=∗
      pool_interp s' ∗ (if p' is Some q then safe t q else True) ∗ [∗ list] x ∈ new, safe x.1 x.2) ⊢ safe t p.
Proof.
  iIntros "Hp". iApply wp_lift_step; [done|]. iIntros (s ns κ κs nt) "Hs".
  iMod ("Hp" with "Hs") as "[%Hcan Hp]". iModIntro. iSplit.
  { iPureIntro. destruct Hcan as (p' & s' & new & Hst). eexists _, _, _, _. by constructor. }
  iNext. iIntros (e2 s2 efs Hst) "_". inversion Hst as [? ? ? p' ? new Hst']; subst.
  iMod ("Hp" with "[//]") as "($ & Hp & Hnew)". iModIntro. iSplitL "Hp".
  - destruct p' as [q|]; [done|]. by iApply (wp_value' (Λ := pool_lang tolerated kept) _ _ _ t).
  - rewrite big_sepL_fmap. done.
Qed.

(** ** Rules *)

Lemma owners_put s G a b : owners s G -> (∀ t, b = Lock (Some t) -> ∃ X, G !! t = Some X ∧ a ∈ X) ->
  owners (set_pobj a b s) G.
Proof.
  intros [Hd Ho] Hb. split; [done|]. intros l t. simpl. destruct (decide (l = a)) as [->|Hne].
  - rewrite lookup_insert_eq. intros [= ->]. by apply Hb.
  - rewrite lookup_insert_ne; [|done]. apply Ho.
Qed.

Lemma safe_done t : holds t ∅ -∗ safe t p_done.
Proof.
  iIntros "Ht". iApply safe_step. iIntros (s) "(%G & Ho & Hh & Hc & %Hown)".
  iDestruct (ghost_map_lookup with "Hh Ht") as %Ht.
  iApply fupd_mask_intro; [set_solver|]. iIntros "Hclose". iSplit.
  { iPureIntro. eexists _, _, _. constructor. }
  iNext. iIntros (p' s' new Hst). iMod "Hclose" as "_". inversion Hst; subst. simpl.
  iMod (ghost_map_delete with "Hh Ht") as "Hh". iModIntro. iSplitL; [|done]. iExists _. iFrame. iPureIntro.
  destruct Hown as [Hd Hl]. split; simpl; [by rewrite dom_delete_L Hd|].
  intros l t' Hlk. destruct (Hl l t' Hlk) as (X & HX & Hin). exists X. split; [|done].
  destruct (decide (t' = t)) as [->|]; [|by rewrite lookup_delete_ne]. rewrite Ht in HX. injection HX as <-. set_solver.
Qed.

Lemma safe_panic t msg : tolerated msg -> ⊢ safe t (p_panic msg).
Proof.
  intros Hmsg. iLöb as "IH". iApply safe_step. iIntros (s) "Hs".
  iApply fupd_mask_intro; [set_solver|]. iIntros "Hclose". iSplit.
  { iPureIntro. eexists _, _, _. by constructor. }
  iNext. iIntros (p' s' new Hst). iMod "Hclose" as "_". inversion Hst; subst. iModIntro. iFrame. by iFrame "IH".
Qed.

Lemma safe_loop t body k : ▷ safe t (round body (p_loop body k) k) -∗ safe t (p_loop body k).
Proof.
  iIntros "Hk". iApply safe_step. iIntros (s) "Hs".
  iApply fupd_mask_intro; [set_solver|]. iIntros "Hclose". iSplit.
  { iPureIntro. eexists _, _, _. by constructor. }
  iNext. iIntros (p' s' new Hst). iMod "Hclose" as "_". inversion Hst; subst. iModIntro. by iFrame.
Qed.

Lemma safe_yield t p : ▷ safe t p -∗ safe t (p_yield p).
Proof.
  unfold p_yield. iIntros "Hk". iApply safe_step. iIntros (s) "Hs".
  iApply fupd_mask_intro; [set_solver|]. iIntros "Hclose". iSplit.
  { iPureIntro. eexists _, _, _. by constructor. }
  iNext. iIntros (p' s' new Hst). iMod "Hclose" as "_". inversion Hst; subst. iModIntro. by iFrame.
Qed.

(** The new thread gets what it needs; if there is no memory for it, nothing is gone. *)
Lemma safe_fork t p k :
  ▷ (((∀ t', holds t' ∅ -∗ safe t' p) ∗ safe t (k 0)) ∧ ∀ e, safe t (k (errno_code e))) -∗ safe t (p_call (c_fork p) k).
Proof.
  iIntros "Hk". iApply safe_step. iIntros (s) "(%G & Ho & Hh & Hc & %Hown)".
  iApply fupd_mask_intro; [set_solver|]. iIntros "Hclose". iSplit.
  { iPureIntro. eexists _, _, _. apply (ts_fork_fails _ _ _ _ _ ENOMEM). }
  iNext. iIntros (p' s' new Hst). iMod "Hclose" as "_". inversion Hst as [| | | | | | | | | | | | | | |? ? t' ? Hnew| | | | | | | |]; subst.
  - iDestruct "Hk" as "[[Hp Hk] _]". destruct Hown as [Hd Hl].
    iMod (ghost_map_insert t' (∅ : gset Z) with "Hh") as "[Hh Ht]"; [by apply not_elem_of_dom; rewrite Hd|].
    iModIntro. iFrame "Hk". simpl. iSplitR "Hp Ht"; [|iSplitL; [by iApply "Hp"|done]].
    iExists _. iFrame. iPureIntro. split; simpl; [by rewrite dom_insert_L Hd|].
    intros l t2 Hlk. destruct (Hl l t2 Hlk) as (X & HX & Hin). exists X. split; [|done].
    rewrite lookup_insert_ne; [done|]. intros ->. apply Hnew. rewrite -Hd. by eapply elem_of_dom_2.
  - iDestruct "Hk" as "[_ Hk]". iModIntro. iSplitR "Hk"; [by iExists _; iFrame|]. simpl. iSplitL; [iApply "Hk"|done].
Qed.

(** Reading and writing a cell, around which invariants may be opened. *)
Lemma safe_load t x k E :
  (|={⊤,E}=> ∃ q v, cell q x v ∗ ▷ (cell q x v ={E,⊤}=∗ safe t (k v))) -∗ safe t (load x k).
Proof.
  iIntros "Hk". iApply safe_step. iIntros (s) "(%G & Ho & Hh & Hc & %Hown)". iMod "Hk" as (q v) "[Hx Hk]".
  iDestruct (ghost_map_lookup with "Hc Hx") as %Hx.
  iApply fupd_mask_intro; [set_solver|]. iIntros "Hclose". iSplit.
  { iPureIntro. eexists _, _, _. apply (ts_mem _ _ _ _ _ (pmem s) v). by rewrite Hx. }
  iNext. iIntros (p' s' new Hst). iMod "Hclose" as "_". inversion Hst as [| | | | | | | | | | | | | | | | |? ? u r ? Hf| | | | | |]; subst.
  rewrite Hx in Hf. injection Hf as <- <-. iMod ("Hk" with "Hx") as "Hk". iModIntro. iFrame "Hk". iSplitL; [|done].
  iExists _. by iFrame.
Qed.

Lemma safe_store t x w p E :
  (|={⊤,E}=> ∃ v, cell 1 x v ∗ ▷ (cell 1 x w ={E,⊤}=∗ safe t p)) -∗ safe t (store x w p).
Proof.
  iIntros "Hk". iApply safe_step. iIntros (s) "(%G & Ho & Hh & Hc & %Hown)". iMod "Hk" as (v) "[Hx Hk]".
  iDestruct (ghost_map_lookup with "Hc Hx") as %Hx.
  iApply fupd_mask_intro; [set_solver|]. iIntros "Hclose". iSplit.
  { iPureIntro. eexists _, _, _. apply (ts_mem _ _ _ _ _ (<[x := w]> (pmem s)) 0). by rewrite Hx. }
  iNext. iIntros (p' s' new Hst). iMod "Hclose" as "_". inversion Hst as [| | | | | | | | | | | | | | | | |? ? u r ? Hf| | | | | |]; subst.
  rewrite Hx in Hf. injection Hf as <- <-. iMod (ghost_map_update w with "Hc Hx") as "[Hc Hx]".
  iMod ("Hk" with "Hx") as "Hk". iModIntro. iFrame "Hk". iSplitL; [|done]. iExists _. by iFrame.
Qed.

(** The same for cells at hand. *)
Lemma safe_read t x k q v : cell q x v -∗ ▷ (cell q x v -∗ safe t (k v)) -∗ safe t (load x k).
Proof.
  iIntros "Hx Hk". iApply safe_load. iModIntro. iExists q, v. iFrame "Hx". iNext. iIntros "Hx". iModIntro. by iApply "Hk".
Qed.

Lemma safe_write t x w v p : cell 1 x v -∗ ▷ (cell 1 x w -∗ safe t p) -∗ safe t (store x w p).
Proof.
  iIntros "Hx Hk". iApply safe_store. iModIntro. iExists v. iFrame "Hx". iNext. iIntros "Hx". iModIntro. by iApply "Hk".
Qed.

(** A cell half of which is open to all: whoever has the other half may write. *)
Definition cellN : namespace := nroot .@ "cell".
Definition published (x : K) : iProp Σ := inv cellN (∃ v, cell (1/2) x v).

Lemma safe_read_published t x k : published x -∗ ▷ (∀ v, safe t (k v)) -∗ safe t (load x k).
Proof.
  iIntros "#Hx Hk". iApply safe_load. iInv "Hx" as (v) ">Hv" "Hclose". iModIntro. iExists _, v. iFrame "Hv".
  iNext. iIntros "Hv". iMod ("Hclose" with "[$Hv]") as "_". iModIntro. iApply "Hk".
Qed.

Lemma safe_write_published t x w v p :
  published x -∗ cell (1/2) x v -∗ ▷ (cell (1/2) x w -∗ safe t p) -∗ safe t (store x w p).
Proof.
  iIntros "#Hx Hv Hp". iApply safe_store. iInv "Hx" as (v') ">Hv'" "Hclose".
  iDestruct (ghost_map_elem_agree with "Hv Hv'") as %<-. iCombine "Hv Hv'" as "Hv".
  iModIntro. iExists v. iFrame "Hv". iNext. iIntros "[Hv Hv']". iMod ("Hclose" with "[$Hv']") as "_". iModIntro. by iApply "Hp".
Qed.

(** A round of a [for] loop that keeps [I]. *)
Lemma safe_for t (I : Z -> iProp Σ) n first body p :
  I first -∗ (I (first + Z.of_nat n) -∗ safe t p) -∗
  □ (∀ i q, ⌜first <= i < first + Z.of_nat n⌝ -∗ I i -∗ (I (i + 1) -∗ safe t q) -∗ safe t (body i q)) -∗
  safe t (loop n first body p).
Proof.
  iIntros "HI Hp #Hb". iInduction n as [|n IH] forall (first); simpl.
  { iApply "Hp". by rewrite Z.add_0_r. }
  iApply ("Hb" with "[] HI"); [iPureIntro; lia|]. iIntros "HI". iApply ("IH" with "[] HI [Hp]").
  - iIntros "!>" (i q Hi). iApply "Hb". iPureIntro. lia.
  - by replace (first + 1 + Z.of_nat n) with (first + Z.of_nat (S n)) by lia.
Qed.

(** Looking for a variable with a certain value. *)
Lemma safe_scan t (at_ : Z -> K) (v : Z) (found : Z -> prog) p (Φ : nat -> Z -> iProp Σ) (xs : list Z) n :
  length xs = n -> ([∗ list] i ↦ x ∈ xs, cell 1 (at_ (Z.of_nat i)) x ∗ Φ i x) -∗
  ((∀ i, ⌜xs !! i = Some v⌝ -∗ ([∗ list] i ↦ x ∈ xs, cell 1 (at_ (Z.of_nat i)) x ∗ Φ i x) -∗ safe t (found (Z.of_nat i))) ∧
   (⌜v ∉ xs⌝ -∗ ([∗ list] i ↦ x ∈ xs, cell 1 (at_ (Z.of_nat i)) x ∗ Φ i x) -∗ safe t p)) -∗
  safe t (loop n 0 (fun i next => load (at_ i) (fun x => if x =? v then found i else next)) p).
Proof.
  iIntros (<-) "Hxs Hk". set (G := ([∗ list] i ↦ x ∈ xs, cell 1 (at_ (Z.of_nat i)) x ∗ Φ i x)%I).
  assert (∀ suf pre, xs = pre ++ suf -> v ∉ pre -> G -∗
    ((∀ i, ⌜xs !! i = Some v⌝ -∗ G -∗ safe t (found (Z.of_nat i))) ∧ (⌜v ∉ xs⌝ -∗ G -∗ safe t p)) -∗
    safe t (loop (length suf) (Z.of_nat (length pre)) (fun i next => load (at_ i) (fun x => if x =? v then found i else next)) p))
    as Hgen; [|by iApply (Hgen xs [] with "Hxs Hk"); [|set_solver]].
  intros suf. induction suf as [|x suf IH]; intros pre Hxs Hpre; iIntros "Hxs Hk"; simpl.
  - iDestruct "Hk" as "[_ Hk]". iApply ("Hk" with "[] Hxs"). iPureIntro. by rewrite Hxs app_nil_r.
  - assert (xs !! length pre = Some x) as Hx by (by rewrite Hxs list_lookup_middle).
    iDestruct (big_sepL_lookup_acc with "Hxs") as "[[Hc Hf] Hclose]"; [exact Hx|].
    iApply (safe_read with "Hc"). iNext. iIntros "Hc". iDestruct ("Hclose" with "[$Hc $Hf]") as "Hxs".
    destruct (Z.eqb_spec x v) as [->|Hne].
    + iDestruct "Hk" as "[Hk _]". by iApply ("Hk" with "[] Hxs").
    + replace (Z.of_nat (length pre) + 1) with (Z.of_nat (length (pre ++ [x]))) by (rewrite length_app; simpl; lia).
      iApply (IH with "Hxs Hk"); [by rewrite -app_assoc|set_solver].
Qed.

Lemma safe_int t n k : is_s32 n -> safe t (k n) -∗ safe t (as_int n k).
Proof. intros Hn. unfold as_int, is_s32 in *. destruct (Z.leb_spec (- 2 ^ 31) n), (Z.ltb_spec n (2 ^ 31)); simpl; auto; lia. Qed.

Lemma safe_fupd t p : (|={⊤}=> safe t p) ⊢ safe t p.
Proof. apply fupd_wp. Qed.

(** New structures; at 0 when there is no memory for one. *)
Lemma safe_sem_create t n k :
  ▷ ((∀ a, ⌜a ≠ 0⌝ -∗ object 1 a (Sem n) -∗ safe t (k a)) ∧ safe t (k 0)) -∗ safe t (p_call (c_sem_create n) k).
Proof.
  iIntros "Hk". iApply safe_step. iIntros (s) "(%G & Ho & Hh & Hc & %Hown)".
  iApply fupd_mask_intro; [set_solver|]. iIntros "Hclose". iSplit.
  { iPureIntro. eexists _, _, _. apply ts_sem_create_fails. }
  iNext. iIntros (p' s' new Hst). iMod "Hclose" as "_".
  inversion Hst as [| | | | | | | | | | | | | | | | | |? ? a ? Hun| | | | |]; subst.
  - destruct Hun as (Ha & _ & Hfree). iMod (ghost_map_insert a (Sem n) with "Ho") as "[Ho Hn]"; [done|].
    iModIntro. iSplitR "Hk Hn"; [iExists _; iFrame; iPureIntro; by apply owners_put|]. simpl. iSplitL; [|done].
    iDestruct "Hk" as "[Hk _]". by iApply "Hk".
  - iModIntro. iSplitR "Hk"; [by iExists _; iFrame|]. simpl. iSplitL; [|done]. iDestruct "Hk" as "[_ $]".
Qed.

Lemma safe_lock_create t k :
  ▷ ((∀ a, ⌜a ≠ 0⌝ -∗ object 1 a (Lock None) -∗ safe t (k a)) ∧ safe t (k 0)) -∗ safe t (p_call c_lock_create k).
Proof.
  iIntros "Hk". iApply safe_step. iIntros (s) "(%G & Ho & Hh & Hc & %Hown)".
  iApply fupd_mask_intro; [set_solver|]. iIntros "Hclose". iSplit.
  { iPureIntro. eexists _, _, _. apply ts_lock_create_fails. }
  iNext. iIntros (p' s' new Hst). iMod "Hclose" as "_".
  inversion Hst as [| | | | | | | | | | | | | | | | | | | |? a ? Hun| | |]; subst.
  - destruct Hun as (Ha & _ & Hfree). iMod (ghost_map_insert a (Lock None) with "Ho") as "[Ho Hn]"; [done|].
    iModIntro. iSplitR "Hk Hn"; [iExists _; iFrame; iPureIntro; by apply owners_put|]. simpl. iSplitL; [|done].
    iDestruct "Hk" as "[Hk _]". by iApply "Hk".
  - iModIntro. iSplitR "Hk"; [by iExists _; iFrame|]. simpl. iSplitL; [|done]. iDestruct "Hk" as "[_ $]".
Qed.

(** ** Semaphores: every unit of the count is one [R] *)

Definition poolN : namespace := nroot .@ "pool".

Definition sem_inv (a : Z) (R : iProp Σ) : iProp Σ := ∃ n : nat, object 1 a (Sem (Z.of_nat n)) ∗ [∗] replicate n R.
Definition is_sem (a : Z) (R : iProp Σ) : iProp Σ := inv poolN (sem_inv a R).

(** There are never more than [B] of [R]. *)
Definition at_most (B : nat) (R : iProp Σ) : Prop := ∀ n, [∗] replicate n R ⊢ ⌜(n ≤ B)%nat⌝.

Lemma safe_P t a p (R : iProp Σ) :
  is_sem a R -∗ ▷ (R -∗ safe t p) -∗ safe t (p_P a p).
Proof.
  unfold p_P. iIntros "#Ha Hk". iLöb as "IH". iApply safe_step. iIntros (s) "(%G & Ho & Hh & Hc & %Hown)".
  iInv "Ha" as (n) "[>Hn HR]" "Hinv". iDestruct (ghost_map_lookup with "Ho Hn") as %Hn.
  iApply fupd_mask_intro; [set_solver|]. iIntros "Hclose". destruct n as [|n].
  - iSplit. { iPureIntro. eexists _, _, _. by apply ts_P_waits. }
    iNext. iIntros (p' s' new Hst). iMod "Hclose" as "_". inversion Hst; simplify_map_eq; [|lia].
    + iMod ("Hinv" with "[Hn]") as "_"; [iNext; iExists 0%nat; by iFrame|]. iModIntro. iSplitR "Hk"; [iExists _; by iFrame|].
      simpl. iSplitL; [by iApply "IH"|done].
  - iSplit. { iPureIntro. eexists _, _, _. eapply ts_P; [done|lia]. }
    iNext. iIntros (p' s' new Hst). iMod "Hclose" as "_". inversion Hst; simplify_map_eq.
    replace (Z.of_nat (S n) - 1)%Z with (Z.of_nat n) by lia.
    iMod (ghost_map_update (Sem (Z.of_nat n)) with "Ho Hn") as "[Ho Hn]". simpl. iDestruct "HR" as "[HR HRs]".
    iMod ("Hinv" with "[Hn HRs]") as "_"; [iNext; iExists n; iFrame|]. iModIntro. iSplitR "Hk HR".
    + iExists _. iFrame. iPureIntro. by apply owners_put.
    + simpl. iSplitL; [by iApply "Hk"|done].
Qed.

#[local] Instance copies_timeless n (R : iProp Σ) : Timeless R -> Timeless ([∗] replicate n R).
Proof. intros HR. induction n; simpl; apply _. Qed.

Lemma safe_V t a p (R : iProp Σ) `{!Timeless R} B :
  at_most B R -> (Z.of_nat B < 2 ^ 31) -> is_sem a R -∗ R -∗ ▷ safe t p -∗ safe t (p_V a p).
Proof.
  unfold p_V. iIntros (HB HB31) "#Ha HR Hk". iApply safe_step. iIntros (s) "(%G & Ho & Hh & Hc & %Hown)".
  iInv "Ha" as (n) ">[Hn HRs]" "Hinv". iDestruct (ghost_map_lookup with "Ho Hn") as %Hn.
  iAssert ([∗] replicate (S n) R)%I with "[HR HRs]" as "HR"; [by iFrame|]. iDestruct (HB with "HR") as %Hle.
  assert (is_s32 (Z.of_nat n + 1)) by (unfold is_s32; lia).
  iApply fupd_mask_intro; [set_solver|]. iIntros "Hclose".
  iSplit. { iPureIntro. eexists _, _, _. by eapply ts_V. }
  iNext. iIntros (p' s' new Hst). iMod "Hclose" as "_". inversion Hst; simplify_map_eq.
  iMod (ghost_map_update (Sem (Z.of_nat n + 1)) with "Ho Hn") as "[Ho Hn]".
  iMod ("Hinv" with "[Hn HR]") as "_".
  { iNext. iExists (S n). replace (Z.of_nat (S n)) with (Z.of_nat n + 1)%Z by lia. iFrame. }
  iModIntro. iSplitR "Hk"; [|simpl; by iFrame]. iExists _. iFrame. iPureIntro. by apply owners_put.
Qed.

(** ** Locks: whoever has the lock has [R] *)

Definition lock_inv (l : Z) (R : iProp Σ) : iProp Σ :=
  ∃ w, object (1/2) l (Lock w) ∗ if w is Some _ then True else object (1/2) l (Lock None) ∗ R.
Definition is_lock (l : Z) (R : iProp Σ) : iProp Σ := inv poolN (lock_inv l R).
Definition locked (t l : Z) : iProp Σ := object (1/2) l (Lock (Some t)).

Lemma safe_acquire t l X p (R : iProp Σ) :
  l ∉ X -> is_lock l R -∗ holds t X -∗ ▷ (locked t l -∗ holds t ({[l]} ∪ X) -∗ R -∗ safe t p) -∗
  safe t (p_acquire l p).
Proof.
  unfold p_acquire. iIntros (HX) "#Hl Ht Hk". iLöb as "IH". iApply safe_step. iIntros (s) "(%G & Ho & Hh & Hc & %Hown)".
  iInv "Hl" as (w) "[>Hw HR]" "Hinv". iDestruct (ghost_map_lookup with "Ho Hw") as %Hw.
  iDestruct (ghost_map_lookup with "Hh Ht") as %Ht. iApply fupd_mask_intro; [set_solver|]. iIntros "Hclose".
  destruct w as [t'|].
  - assert (t' ≠ t) as Hne.
    { intros ->. destruct Hown as [_ Hlk]. destruct (Hlk l t Hw) as (Y & HY & Hin). rewrite Ht in HY. by injection HY as <-. }
    iSplit. { iPureIntro. eexists _, _, _. by eapply ts_acquire_waits. }
    iNext. iIntros (p' s' new Hst). iMod "Hclose" as "_". inversion Hst as [| | | | | | ? w ? ? Hw' Hwt|? ? ? Hw'| | | | | | | | | | | | | | | |]; subst; [|congruence].
    iMod ("Hinv" with "[Hw]") as "_"; [iNext; iExists (Some t'); by iFrame|]. iModIntro.
    iSplitR "Ht Hk"; [iExists _; by iFrame|]. simpl. iSplitL; [by iApply ("IH" with "Ht")|done].
  - iSplit. { iPureIntro. eexists _, _, _. by eapply ts_acquire. }
    iNext. iIntros (p' s' new Hst). iMod "Hclose" as "_". inversion Hst as [| | | | | | ? w ? ? Hw' Hwt|? ? ? Hw'| | | | | | | | | | | | | | | |]; subst; [congruence|].
    iDestruct "HR" as "[Hw2 HR]". iCombine "Hw Hw2" as "Hw".
    iMod (ghost_map_update (Lock (Some t)) with "Ho Hw") as "[Ho [Hw Hw2]]".
    iMod (ghost_map_update ({[l]} ∪ X) with "Hh Ht") as "[Hh Ht]".
    iMod ("Hinv" with "[Hw]") as "_"; [iNext; iExists (Some t); by iFrame|]. iModIntro. iSplitR "Ht Hk Hw2 HR".
    + iExists _. iFrame. iPureIntro. apply owners_put.
      * destruct Hown as [Hd Hlk]. split; [rewrite dom_insert_L Hd|].
        { apply subseteq_union_1_L, singleton_subseteq_l. rewrite -Hd. by eapply elem_of_dom_2. }
        intros l' t' Hl'. destruct (Hlk l' t' Hl') as (Y & HY & Hin). destruct (decide (t' = t)) as [->|].
        { rewrite lookup_insert_eq. rewrite Ht in HY. injection HY as <-. eexists. split; [done|set_solver]. }
        rewrite lookup_insert_ne; [by exists Y|done].
      * intros t' [= <-]. rewrite lookup_insert_eq. eexists. split; [done|set_solver].
    + simpl. iSplitL; [iApply ("Hk" with "Hw2 Ht HR")|done].
Qed.

Lemma safe_release t l X p (R : iProp Σ) :
  l ∉ X -> is_lock l R -∗ locked t l -∗ holds t ({[l]} ∪ X) -∗ R -∗ ▷ (holds t X -∗ safe t p) -∗
  safe t (p_release l p).
Proof.
  unfold p_release. iIntros (HX). replace X with (({[l]} ∪ X) ∖ {[l]}) at 2 by set_solver.
  generalize ({[l]} ∪ X). clear X HX. intros X. iIntros "#Hl Hw2 Ht HR Hk". iApply safe_step. iIntros (s) "(%G & Ho & Hh & Hc & %Hown)".
  iInv "Hl" as (w) "[>Hw Hrest]" "Hinv". iDestruct (ghost_map_elem_agree with "Hw Hw2") as %->.
  iDestruct (ghost_map_lookup with "Ho Hw") as %Hw. iDestruct (ghost_map_lookup with "Hh Ht") as %Ht.
  iApply fupd_mask_intro; [set_solver|]. iIntros "Hclose".
  iSplit. { iPureIntro. eexists _, _, _. by eapply ts_release. }
  iNext. iIntros (p' s' new Hst). iMod "Hclose" as "_". inversion Hst; subst. iCombine "Hw Hw2" as "Hw".
  iMod (ghost_map_update (Lock None) with "Ho Hw") as "[Ho [Hw Hw2]]".
  iMod (ghost_map_update (X ∖ {[l]}) with "Hh Ht") as "[Hh Ht]".
  iMod ("Hinv" with "[Hw Hw2 HR]") as "_"; [iNext; iExists None; by iFrame|]. iModIntro. iSplitR "Ht Hk".
  - iExists _. iFrame. iPureIntro. destruct Hown as [Hd Hlk]. split; simpl; [rewrite dom_insert_L Hd|].
    + apply subseteq_union_1_L, singleton_subseteq_l. rewrite -Hd. by eapply elem_of_dom_2.
    + intros l' t'. destruct (decide (l' = l)) as [->|Hne]; [by rewrite lookup_insert_eq|].
      rewrite lookup_insert_ne; [|done]. intros Hl'. destruct (Hlk l' t' Hl') as (Y & HY & Hin). destruct (decide (t' = t)) as [->|].
      * rewrite lookup_insert_eq. rewrite Ht in HY. injection HY as <-. eexists. split; [done|set_solver].
      * rewrite lookup_insert_ne; [by exists Y|done].
  - simpl. iSplitL; [by iApply "Hk"|done].
Qed.

(** ** Putting them up *)

Lemma sem_alloc E a n (R : iProp Σ) : object 1 a (Sem (Z.of_nat n)) -∗ ([∗] replicate n R) ={E}=∗ is_sem a R.
Proof. iIntros "Ha HR". iApply inv_alloc. iNext. iExists n. iFrame. Qed.

Lemma lock_alloc E l (R : iProp Σ) : object 1 l (Lock None) -∗ R ={E}=∗ is_lock l R.
Proof. iIntros "[Hl Hl'] HR". iApply inv_alloc. iNext. iExists None. iFrame. Qed.

Lemma published_alloc E x v : cell 1 x v ={E}=∗ published x ∗ cell (1/2) x v.
Proof. iIntros "[Hx $]". iApply inv_alloc. iNext. iExists v. iFrame. Qed.

Lemma object_apart l l' b b' : object 1 l b -∗ object 1 l' b' -∗ ⌜l ≠ l'⌝.
Proof. iIntros "Hl Hl'". iApply (ghost_map_elem_ne with "Hl Hl'"). Qed.
End logic.

(** ** Executions *)

Section adequacy.
Context {K : Type} `{Countable K} (tolerated : string -> Prop) (kept : Z -> Prop).

(** A thread that is proved safe with all there is never gets stuck, nor does any thread
    it starts. *)
Lemma pool_safe Σ `{!poolGpreS Σ K} (t : Z) (p : prog (gmap K Z)) (s : pstate) l' s' :
  plive s = {[t]} -> (∀ l t', pobjs s !! l ≠ Some (Lock (Some t'))) ->
  (∀ `{!poolGS Σ K}, ([∗ map] a ↦ b ∈ pobjs s, object 1 a b) -∗ ([∗ map] x ↦ v ∈ pmem s, cell 1 x v) -∗ holds t ∅ ={⊤}=∗
     safe tolerated kept t p) ->
  rtc (pstep tolerated kept) ([(t, Some p)], s) (l', s') -> all_go tolerated kept l' s'.
Proof.
  intros Hlive Hlocks Hwp Hsteps.
  assert (rtc (erased_step (Λ := pool_lang tolerated kept)) ([(t, Some p)], s) (l', s')) as Hsteps'.
  { clear -Hsteps. induction Hsteps; [done|]. eapply rtc_l; [by apply pstep_erased|done]. }
  assert (adequate (Λ := pool_lang tolerated kept) NotStuck (t, Some p) s (λ _ _, True)) as Had.
  { apply (wp_adequacy Σ (pool_lang tolerated kept)). iIntros (Hinv κs).
    iMod (ghost_map_alloc (pobjs s)) as (γo) "[Ho Hos]".
    iMod (ghost_map_alloc ({[t := ∅]} : gmap Z (gset Z))) as (γh) "[Hh Ht]".
    iMod (ghost_map_alloc (pmem s)) as (γc) "[Hc Hcs]".
    set (HG := {| pool_inv := Hinv; obj_name := γo; held_name := γh; cell_name := γc |} : poolGS Σ K).
    rewrite big_sepM_singleton.
    iMod (Hwp HG with "Hos Hcs Ht") as "Hwp". iModIntro. iExists (λ s _, pool_interp s), (λ _, True%I).
    iSplitR "Hwp"; [|done]. iExists {[t := ∅]}. iFrame. iPureIntro. split; [by rewrite dom_singleton_L Hlive|].
    intros l t' Hl. by destruct (Hlocks l t'). }
  intros t' p' Hin.
  destruct (adequate_not_stuck _ _ _ _ Had l' s' (t', Some p') eq_refl Hsteps' Hin) as [[v [=]]|(κ & e & s2 & efs & Hst)].
  inversion Hst as [? ? ? q ? new Hst']; subst. by eexists _, _, _.
Qed.
End adequacy.

Definition poolΣ (K : Type) `{Countable K} : gFunctors :=
  #[invΣ; ghost_mapΣ Z obj; ghost_mapΣ Z (gset Z); ghost_mapΣ K Z].
#[export] Instance subG_poolΣ {Σ K} `{Countable K} : subG (poolΣ K) Σ -> poolGpreS Σ K.
Proof. solve_inG. Qed.

(** ** Tickets: a fixed number of them *)

Class ticketG (Σ : gFunctors) : Set := { #[local] ticket_inG :: inG Σ (authR natUR) }.

Definition ticketΣ : gFunctors := #[GFunctor (authR natUR)].
#[export] Instance subG_ticketΣ {Σ} : subG ticketΣ Σ -> ticketG Σ.
Proof. solve_inG. Qed.

Section tickets.
Context `{!ticketG Σ}.

Definition tickets (γ : gname) (B n : nat) : iProp Σ := own γ (●□ B) ∗ own γ (◯ n).
Notation ticket γ B := (tickets γ B 1).

Lemma tickets_alloc B : ⊢ |==> ∃ γ, tickets γ B B.
Proof.
  iMod (own_alloc (● B ⋅ ◯ B)) as (γ) "[Ha Hf]"; [by apply auth_both_valid_discrete|].
  iMod (own_update with "Ha") as "Ha"; [apply auth_update_auth_persist|]. iModIntro. iExists γ. iFrame.
Qed.

Lemma tickets_bound γ B n : tickets γ B n -∗ ⌜(n ≤ B)%nat⌝.
Proof.
  iIntros "[Ha Hf]". iDestruct (own_valid_2 with "Ha Hf") as %Hv. iPureIntro.
  apply auth_both_dfrac_valid_discrete in Hv as (_ & Hi & _). by apply nat_included.
Qed.

Lemma tickets_add γ B n m : tickets γ B (n + m) ⊣⊢ tickets γ B n ∗ tickets γ B m.
Proof.
  unfold tickets. rewrite -nat_op auth_frag_op own_op. iSplit.
  - iIntros "(#Ha & Hn & Hm)". by iFrame "#∗".
  - iIntros "[[Ha Hn] [_ Hm]]". iFrame.
Qed.

Lemma tickets_copies γ B n : [∗] replicate (S n) (ticket γ B) ⊢ tickets γ B (S n).
Proof.
  induction n as [|n IH]; [by iIntros "[$ _]"|]. iIntros "[Ht Hn]". iDestruct (IH with "Hn") as "Hn".
  iApply (tickets_add γ B 1 (S n)). iFrame.
Qed.

Lemma tickets_split γ B n : tickets γ B n ⊢ [∗] replicate n (ticket γ B).
Proof.
  induction n as [|n IH]; [by iIntros "_"|]. iIntros "Hn". iDestruct (tickets_add γ B 1 n with "Hn") as "[$ Hn]". by iApply IH.
Qed.

Lemma tickets_at_most γ B : at_most B (ticket γ B).
Proof. intros [|n]; [iIntros "_"; iPureIntro; lia|]. iIntros "Hn". iApply tickets_bound. by iApply tickets_copies. Qed.

(** A ticket for one of [B] places: one of them is free, if each place that is not has
    its ticket. *)
Lemma ticket_place {A} γ (P : A -> Prop) `{!∀ x, Decision (P x)} (l : list A) B :
  length l = B -> ([∗ list] x ∈ l, if decide (P x) then True else ticket γ B) -∗ ticket γ B -∗ ⌜Exists P l⌝.
Proof.
  iIntros (<-) "Hl Ht". destruct (decide (Exists P l)) as [|Hn]; [done|]. apply not_Exists_Forall in Hn; [|apply _].
  iAssert ([∗] replicate (length l) (ticket γ (length l)))%I with "[Hl]" as "Hl".
  { iApply big_sepL_replicate. iApply (big_sepL_impl with "Hl"). iIntros "!>" (i x Hx) "Hx".
    rewrite decide_False; [done|]. by eapply Forall_lookup in Hn. }
  iAssert ([∗] replicate (S (length l)) (ticket γ (length l)))%I with "[Hl Ht]" as "Hl"; [by iFrame|].
  rewrite tickets_copies. iDestruct (tickets_bound with "Hl") as %?. lia.
Qed.
End tickets.
Notation ticket γ B := (tickets γ B 1).
