(* ===== verification/Bar.v ===== *)
(** * The bar (assignment 1's bar.c and bar_driver.c): customers and bartenders that
    meet over semaphores and locks.

    Every function is the program it is, an access to a shared variable at a time: a
    program of [Synch] with what comes after it as its last argument. The variables are
    the [place]s of shared memory; a pointer to an entry of [orders] or [glasses] is its
    index, NULL is -1. The pointers to semaphores and locks, set once before the threads
    start, are a record. [kprintf] is left out. *)

From stdpp Require Import base numbers list gmap strings.
From Stdlib Require Import ZArith Lia.
From S2P Require Import Prelude Thread Synch Pool.

Local Open Scope cps_scope.

Definition NOTHING : Z := 0.
Definition KAHLUA : Z := 9.
Definition BAILEYS : Z := 10.
Definition GRAND_MARNIER : Z := 11.
Definition NBOTTLES : nat := 13.

(** The variables: the fields of [struct order], [struct glass] and [struct bottle]. *)
Inductive place : Type :=
| order_ing (o j : Z)
| order_glass (o : Z)
| order_number (o : Z)
| order_state (o : Z)
| glass_contents (g j : Z)
| glass_state (g : Z)
| glass_number (g : Z)
| bottle_doses (b : Z)
| ndrinkers.

#[export] Instance place_eq_dec : EqDecision place.
Proof. solve_decision. Defined.

#[export] Instance place_countable : Countable place.
Proof.
  refine (inj_countable'
    (fun p => match p with
      | order_ing o j => (0, o, j) | order_glass o => (1, o, 0) | order_number o => (2, o, 0) | order_state o => (3, o, 0)
      | glass_contents g j => (4, g, j) | glass_state g => (5, g, 0) | glass_number g => (6, g, 0)
      | bottle_doses b => (7, b, 0) | ndrinkers => (8, 0, 0) end)
    (fun t => match t with
      | (0, o, j) => order_ing o j | (1, o, _) => order_glass o | (2, o, _) => order_number o | (3, o, _) => order_state o
      | (4, g, j) => glass_contents g j | (5, g, _) => glass_state g | (6, g, _) => glass_number g
      | (7, b, _) => bottle_doses b | _ => ndrinkers end) _).
  by intros [].
Defined.

Notation bar_prog := (prog (gmap place Z)).

(** The static pointers of bar.c and bar_driver.c. *)
Record bar : Type := mk_bar {
  emptyglasses : Z;
  ordersready : Z;
  ordercomplete : list Z;
  orderslock : Z;
  bottleslock : Z;
  glassarraylock : Z;
  ndrinkerslock : Z;
  alldone : Z;
}.

Section bar.
Context (NGLASSES NCUSTOMERS NBARTENDERS : nat).
Definition norders : Z := Z.of_nat NCUSTOMERS.

(** Before anything runs: zeros and null pointers. *)
Definition bar_places : list place :=
  (seqZ 0 norders ≫= fun o => [order_ing o 0; order_ing o 1; order_ing o 2; order_glass o; order_number o; order_state o]) ++
  (seqZ 0 (Z.of_nat NGLASSES) ≫= fun g => [glass_contents g 0; glass_contents g 1; glass_contents g 2; glass_state g; glass_number g]) ++
  (bottle_doses <$> seqZ 0 (Z.of_nat NBOTTLES)) ++ [ndrinkers].
Definition unset (p : place) : Z := match p with order_glass _ => -1 | _ => 0 end.
Definition bar_memory : gmap place Z := list_to_map ((fun p => (p, unset p)) <$> bar_places).

Section staff.
Context (b : bar).

(** ** Customers *)

(** The search in [submit_order]: [i] is [norders] when no slot is free. *)
Definition free_slot (ingredient1 ingredient2 ingredient3 : Z) (k : Z -> bar_prog) : bar_prog :=
  loop NCUSTOMERS 0 (fun i next =>
    let* state := load (order_state i) in
    if state =? 0 then
      do* store (order_ing i 0) ingredient1 in
      do* store (order_ing i 1) ingredient2 in
      do* store (order_ing i 2) ingredient3 in
      do* store (order_state i) 1 in
      do* store (order_number i) i in
      k i
    else next) (k norders).

Definition submit_order (ingredient1 ingredient2 ingredient3 : Z) (k : Z -> bar_prog) : bar_prog :=
  do* p_acquire (orderslock b) in
  let* i := free_slot ingredient1 ingredient2 ingredient3 in
  do* p_release (orderslock b) in
  do* p_V (ordersready b) in
  match nthZ (ordercomplete b) i with
  | None => p_undef
  | Some sem =>
      do* p_P sem in
      let* g := load (order_glass i) in
      do* store (glass_number g) i in
      do* p_acquire (orderslock b) in
      do* store (order_state i) 3 in
      do* p_release (orderslock b) in
      k g
  end.

Definition return_glass (g : Z) (k : bar_prog) : bar_prog :=
  do* p_acquire (glassarraylock b) in
  do* store (glass_state g) 0 in
  let* ordernumber := load (glass_number g) in
  do* p_release (glassarraylock b) in
  do* p_V (emptyglasses b) in
  do* p_acquire (orderslock b) in
  do* store (order_state ordernumber) 0 in
  do* p_release (orderslock b) in
  k.

(** [ndrinkers--], and the farewell orders of the last customer. *)
Definition crawl_home (k : bar_prog) : bar_prog :=
  do* p_acquire (ndrinkerslock b) in
  let* n := load ndrinkers in
  let* n := as_int (n - 1) in
  do* store ndrinkers n in
  let* n := load ndrinkers in
  if n =? 0 then
    loop NBARTENDERS 0 (fun _ next =>
      let* g := submit_order 0 0 0 in
      do* return_glass g in
      next)
    (do* p_release (ndrinkerslock b) in k)
  else
    do* p_release (ndrinkerslock b) in k.

(** A customer that looks into the glass first. *)
Definition look (ings : list Z) (g : Z) (k : bar_prog) : bar_prog :=
  let* c0 := load (glass_contents g 0) in
  let* c1 := load (glass_contents g 1) in
  let* c2 := load (glass_contents g 2) in
  if bool_decide ([c0; c1; c2] = ings) then k else p_panic "not what was ordered".
Definition drink_up (ings : list Z) (g : Z) (k : bar_prog) : bar_prog := k.

(** [drinking] is what a customer does with its drink before it is gone: with [PRINT_ON]
    undefined, nothing. *)
Definition customer (drinking : list Z -> Z -> bar_prog -> bar_prog) (customernum : Z) : bar_prog :=
  let '(ing1, ing2, ing3) :=
    if Z.land customernum 1 =? 0 then (BAILEYS, GRAND_MARNIER, KAHLUA) else (KAHLUA, GRAND_MARNIER, BAILEYS) in
  loop 5 0 (fun _ next =>
    let* glass := submit_order ing1 ing2 ing3 in
    do* drinking [ing1; ing2; ing3] glass in
    do* loop 3 0 (fun j next => do* store (glass_contents glass j) 0 in next) in
    do* p_yield in
    do* return_glass glass in
    next)
  (do* crawl_home in
   do* p_V (alldone b) in
   p_done).

(** ** Bartenders *)

Definition take_order (k : Z -> bar_prog) : bar_prog :=
  do* p_P (ordersready b) in
  do* p_acquire (orderslock b) in
  loop NCUSTOMERS 0 (fun i next =>
    let* state := load (order_state i) in
    if state =? 1 then
      do* store (order_state i) 2 in
      do* p_release (orderslock b) in
      k i
    else next)
  (p_panic "take_order: there should be a order ready to be taken").

(** One of the three parts of [pour]. *)
Definition pour_in (g i ing : Z) (k : Z -> bar_prog) : bar_prog :=
  if ing =? NOTHING then k i
  else
    do* store (glass_contents g i) ing in
    let* doses := load (bottle_doses ing) in
    let* doses := as_int (doses + 1) in
    do* store (bottle_doses ing) doses in
    k (i + 1).

Definition pour (g ing1 ing2 ing3 : Z) (k : bar_prog) : bar_prog :=
  let* i := pour_in g 0 ing1 in
  let* i := pour_in g i ing2 in
  let* _ := pour_in g i ing3 in
  k.

(** Without an empty glass [g] would be used before it is set. *)
Definition fill_order (o : Z) (k : bar_prog) : bar_prog :=
  do* p_P (emptyglasses b) in
  do* p_acquire (glassarraylock b) in
  loop NGLASSES 0 (fun i next =>
    let* state := load (glass_state i) in
    if state =? 0 then
      do* store (glass_state i) 1 in
      do* p_release (glassarraylock b) in
      do* store (order_glass o) i in
      do* p_acquire (bottleslock b) in
      let* ing1 := load (order_ing o 0) in
      let* ing2 := load (order_ing o 1) in
      let* ing3 := load (order_ing o 2) in
      do* pour i ing1 ing2 ing3 in
      do* p_release (bottleslock b) in
      k
    else next)
  (do* p_release (glassarraylock b) in p_undef).

Definition serve_order (o : Z) (k : bar_prog) : bar_prog :=
  let* ordernumber := load (order_number o) in
  match nthZ (ordercomplete b) ordernumber with
  | None => p_undef
  | Some sem => do* p_V sem in k
  end.

Definition drinkers (k : Z -> bar_prog) : bar_prog := load ndrinkers k.

(** [take_order] never returns NULL. *)
Definition bartender : bar_prog :=
  p_loop
    (let* n := drinkers in
     if n =? 0 then p_break
     else
       let* o := take_order in
       do* fill_order o in
       do* serve_order o in
       p_done)
    (do* p_V (alldone b) in
     p_done).
End staff.

(** ** Opening and closing *)

(** A semaphore or a lock, or the panic that there is no memory for it. *)
Definition made_or (msg : string) (c : call (gmap place Z)) (k : Z -> bar_prog) : bar_prog :=
  p_call c (fun a => if a =? 0 then p_panic msg else k a).

(** The semaphores [ordercomplete], [n] of them still to be made. *)
Fixpoint make_ordercomplete (n : nat) (sems : list Z) (k : list Z -> bar_prog) : bar_prog :=
  match n with
  | O => k sems
  | S n =>
      let* a := made_or "bar_open: sem_create failed" (c_sem_create 0) in
      make_ordercomplete n (sems ++ [a]) k
  end.

Definition bar_open (alldone : Z) (k : bar -> bar_prog) : bar_prog :=
  do* store ndrinkers norders in
  do* loop NGLASSES 0 (fun i next => do* store (glass_state i) 0 in next) in
  do* loop NCUSTOMERS 0 (fun i next => do* store (order_state i) 0 in next) in
  let* emptyglasses := made_or "bar_open: sem_create failed" (c_sem_create (Z.of_nat NGLASSES)) in
  let* ordersready := made_or "bar_open: sem_create failed" (c_sem_create 0) in
  let* ordercomplete := make_ordercomplete NCUSTOMERS [] in
  let* orderslock := made_or "bar_open: lock_create failed" c_lock_create in
  let* bottleslock := made_or "bar_open: lock_create failed" c_lock_create in
  let* glassarraylock := made_or "bar_open: lock_create failed" c_lock_create in
  let* ndrinkerslock := made_or "bar_open: lock_create failed" c_lock_create in
  k (mk_bar emptyglasses ordersready ordercomplete orderslock bottleslock glassarraylock ndrinkerslock alldone).

(** [thread_fork] of [bartender] or [customer] number [i]. *)
Definition start_thread (p : bar_prog) (k : bar_prog) : bar_prog :=
  p_call (c_fork p) (fun result => if result =? 0 then k else p_panic "createbar: thread_fork failed").

(** Up to the call of [bar_close]; the doses are read to be printed. *)
Definition createbar (drinking : list Z -> Z -> bar_prog -> bar_prog) (k : bar -> bar_prog) : bar_prog :=
  let* alldone := made_or "createbar: out of memory" (c_sem_create 0) in
  do* loop NBOTTLES 0 (fun i next => do* store (bottle_doses i) 0 in next) in
  let* b := bar_open alldone in
  do* loop NBARTENDERS 0 (fun i next => do* start_thread (bartender b) in next) in
  do* loop NCUSTOMERS 0 (fun i next => do* start_thread (customer b drinking i) in next) in
  do* loop (NCUSTOMERS + NBARTENDERS) 0 (fun i next => do* p_P alldone in next) in
  do* loop NBOTTLES 0 (fun i next => load (bottle_doses i) (fun _ => next)) in
  k b.

Section close.
Context {Q W : Type} `{FifoQueue Q Z} `{ThreadEnv W}.
Notation ssys := (ssys Q (gmap place Z) W).

Definition bar_close (b : bar) : M ssys unit :=
  do! sem_destroy (emptyglasses b) in
  do! sem_destroy (ordersready b) in
  do! foldr (fun sem m => do! sem_destroy sem in m) (ret tt) (ordercomplete b) in
  do! lock_destroy (orderslock b) in
  do! lock_destroy (bottleslock b) in
  do! lock_destroy (glassarraylock b) in
  lock_destroy (ndrinkerslock b).
End close.
End bar.
