(* ===== verification/BarSpec.v ===== *)
(** * What the bar promises. *)

From iris.base_logic.lib Require Import ghost_map invariants.
From iris.program_logic Require Import weakestpre.
From iris.proofmode Require Import proofmode.
From stdpp Require Import base numbers list gmap strings.
From Stdlib Require Import ZArith Lia FunctionalExtensionality.
From S2P Require Import Prelude Array Queue Thread ThreadSpec ThreadInv Synch SynchSpec Machine Pool PoolSim PoolLogic Bar.

(** What [pour] leaves in an empty glass. *)
Definition served (ing1 ing2 ing3 : Z) : list Z :=
  let ings := filter (.≠ NOTHING) [ing1; ing2; ing3] in ings ++ replicate (3 - length ings) 0.

Definition bottled (ing : Z) : Prop := 0 <= ing < Z.of_nat NBOTTLES.

(** ** A round of the bartenders' loop *)

Section rounds.
Context (NGLASSES NCUSTOMERS : nat) (b : bar) (again out : bar_prog).

Lemma round_drinkers k : round (drinkers k) again out = drinkers (fun n => round (k n) again out).
Proof. done. Qed.

Lemma round_take_order k :
  round (take_order NCUSTOMERS b k) again out = take_order NCUSTOMERS b (fun o => round (k o) again out).
Proof.
  unfold take_order, p_P, p_acquire. simpl. do 2 (f_equal; apply functional_extensionality; intros _). lazymatch goal with |- _ = loop _ _ ?B _ => rewrite (round_for _ _ _ B); [done|] end.
  intros i q. unfold load. simpl. f_equal. extensionality state. by destruct (state =? 1).
Qed.

Lemma round_pour_in g i ing k : round (pour_in g i ing k) again out = pour_in g i ing (fun i => round (k i) again out).
Proof.
  unfold pour_in. destruct (ing =? NOTHING); [done|]. unfold store, load. simpl. f_equal. apply functional_extensionality. intros _.
  f_equal. extensionality d. unfold as_int. by destruct ((- 2 ^ 31 <=? d + 1) && (d + 1 <? 2 ^ 31)).
Qed.

Lemma round_fill_order o k : round (fill_order NGLASSES b o k) again out = fill_order NGLASSES b o (round k again out).
Proof.
  unfold fill_order, p_P, p_acquire. simpl. do 2 (f_equal; apply functional_extensionality; intros _). lazymatch goal with |- _ = loop _ _ ?B _ => rewrite (round_for _ _ _ B); [done|] end.
  intros i q. unfold load. simpl. f_equal. extensionality state. destruct (state =? 0); [|done].
  unfold store, p_release, p_acquire. simpl. do 4 (f_equal; apply functional_extensionality; intros _).
  do 3 (f_equal; apply functional_extensionality; intros ?).
  unfold pour. rewrite round_pour_in. f_equal. extensionality j. rewrite round_pour_in. f_equal. extensionality j'.
  by rewrite round_pour_in.
Qed.

Lemma round_serve_order o k : round (serve_order b o k) again out = serve_order b o (round k again out).
Proof.
  unfold serve_order, load. simpl. f_equal. extensionality n. by destruct (nthZ (ordercomplete b) n).
Qed.
End rounds.

Section spec.
Context `{!poolGS Σ place, !ticketG Σ} (tolerated : string -> Prop) (kept : Z -> Prop).
Context (NGLASSES NCUSTOMERS NBARTENDERS : nat).
Notation safe := (safe tolerated kept).
Notation is_sem := (is_sem tolerated kept).
Notation is_lock := (is_lock tolerated kept).
Notation published := (published tolerated kept).
Notation orders := (5 * NCUSTOMERS + NBARTENDERS)%nat.
Hypothesis few_glasses : Z.of_nat NGLASSES < 2 ^ 31.
Hypothesis few_orders : Z.of_nat (3 * orders) < 2 ^ 31.

(** The tickets: to have an order in a slot, that a slot is not (or no longer) ordered,
    to have a glass, to be in the bar, to be a thread of it, to order. *)
Record ledger : Type := {
  seats : gname;
  readies : gname;
  mugs : gname;
  patrons : gname;
  leaving : gname;
  credits : gname;
}.
Context (γ : ledger) (b : bar).
Notation seat := (ticket (seats γ) NCUSTOMERS).
Notation ready := (ticket (readies γ) NCUSTOMERS).
Notation mug := (ticket (mugs γ) NGLASSES).
Notation patron := (ticket (patrons γ) NCUSTOMERS).
Notation credit := (ticket (credits γ) orders).
Notation done_ := (ticket (leaving γ) (NCUSTOMERS + NBARTENDERS)).

(** ** What the locks and semaphores guard *)

Definition asks (q : Qp) (i x y z : Z) : iProp Σ :=
  cell q (order_ing i 0) x ∗ cell q (order_ing i 1) y ∗ cell q (order_ing i 2) z.

Definition contents (g : Z) (l : list Z) : iProp Σ := [∗ list] j ↦ x ∈ l, cell 1 (glass_contents g (Z.of_nat j)) x.

(** The rest of slot [i], in state 0, in state 1; then it is with the bartender, or with
    the customer. *)
Definition slot_rest (i st : Z) : iProp Σ :=
  (if decide (st = 0) then ∃ x y z n g, asks 1 i x y z ∗ cell 1 (order_number i) n ∗ cell 1 (order_glass i) g
  else if decide (st = 1) then
    credit ∗ ∃ x y z g, ⌜bottled x ∧ bottled y ∧ bottled z⌝ ∗ asks (1/2) i x y z ∗ cell 1 (order_number i) i ∗ cell 1 (order_glass i) g
  else True)%I.

Definition slot (i : nat) (st : Z) : iProp Σ :=
  ((if decide (st = 0) then True else seat) ∗ (if decide (st = 1) then True else ready) ∗ slot_rest (Z.of_nat i) st)%I.

Definition orders_inv : iProp Σ :=
  ∃ sts, ⌜length sts = NCUSTOMERS⌝ ∗ [∗ list] i ↦ st ∈ sts, cell 1 (order_state (Z.of_nat i)) st ∗ slot i st.

Definition glass (g : nat) (st : Z) : iProp Σ :=
  ((if decide (st = 0) then True else mug) ∗
   (if decide (st = 0) then contents (Z.of_nat g) [0; 0; 0] ∗ ∃ n, cell 1 (glass_number (Z.of_nat g)) n else True))%I.

Definition glasses_inv : iProp Σ :=
  ∃ sts, ⌜length sts = NGLASSES⌝ ∗ [∗ list] g ↦ st ∈ sts, cell 1 (glass_state (Z.of_nat g)) st ∗ glass g st.

(** A filled order, for the customer who waits for it. *)
Definition filled (i : Z) : iProp Σ :=
  ∃ x y z (g : nat), asks (1/2) i x y z ∗ cell 1 (order_number i) i ∗ cell 1 (order_glass i) (Z.of_nat g) ∗
    ⌜(g < NGLASSES)%nat⌝ ∗ contents (Z.of_nat g) (served x y z) ∗ ∃ n, cell 1 (glass_number (Z.of_nat g)) n.

(** Each dose is paid by an order, which has three at most. *)
Definition bottles (m : Z) (ds : list Z) : iProp Σ :=
  ⌜length ds = NBOTTLES ∧ Forall (fun d => 0 <= d <= m) ds⌝ ∗ [∗ list] i ↦ d ∈ ds, cell (1/2) (bottle_doses (Z.of_nat i)) d.
Definition bottles_inv : iProp Σ := ∃ n ds, tickets (credits γ) orders n ∗ bottles (3 * Z.of_nat n) ds.

(** The orders the last customer will make are paid in advance. *)
Definition ndrinkers_inv : iProp Σ :=
  ∃ n : nat, ⌜(n <= NCUSTOMERS)%nat⌝ ∗ cell (1/2) ndrinkers (Z.of_nat n) ∗ tickets (patrons γ) NCUSTOMERS (NCUSTOMERS - n) ∗
    if decide (n = 0)%nat then True else tickets (credits γ) orders NBARTENDERS.

Definition is_bar : iProp Σ :=
  is_sem (emptyglasses b) mug ∗ is_sem (ordersready b) ready ∗ is_sem (alldone b) done_ ∗
  ⌜length (ordercomplete b) = NCUSTOMERS⌝ ∗ ([∗ list] i ↦ a ∈ ordercomplete b, is_sem a (filled (Z.of_nat i))) ∗
  is_lock (orderslock b) orders_inv ∗ is_lock (glassarraylock b) glasses_inv ∗
  is_lock (bottleslock b) bottles_inv ∗ is_lock (ndrinkerslock b) ndrinkers_inv ∗
  published ndrinkers ∗ ([∗ list] i ∈ seqZ 0 (Z.of_nat NBOTTLES), published (bottle_doses i)) ∗
  ⌜ndrinkerslock b ≠ orderslock b ∧ ndrinkerslock b ≠ glassarraylock b⌝.

(** ** Cells are there once *)

Lemma cell_once x v q v' : cell 1 x v -∗ cell q x v' -∗ False.
Proof.
  iIntros "H1 H2". iDestruct (ghost_map_elem_valid_2 with "H1 H2") as %[Hv _].
  by apply dfrac_valid_own_l, irreflexivity in Hv; [|apply _].
Qed.

Lemma filled_once i : at_most 1 (filled i).
Proof.
  intros [|[|n]]; [iIntros; iPureIntro; lia..|]. simpl. iIntros "[Hf [Hg _]]".
  iDestruct "Hf" as (x y z g) "(_ & Hn & _)". iDestruct "Hg" as (x' y' z' g') "(_ & Hn' & _)".
  iDestruct (cell_once with "Hn Hn'") as %[].
Qed.

#[local] Instance filled_timeless i : Timeless (filled i).
Proof. apply _. Qed.

(** Whoever has the rest of a slot knows that it is neither free nor just ordered. *)
Lemma slot_out i st g n : cell 1 (order_glass (Z.of_nat i)) g -∗ cell 1 (order_number (Z.of_nat i)) n -∗ slot i st -∗ ⌜st ≠ 0 ∧ st ≠ 1⌝.
Proof.
  iIntros "Hg Hn (_ & _ & Hs)". unfold slot_rest. destruct (decide (st = 0)) as [->|].
  { iDestruct "Hs" as (x y z n' g') "(_ & Hn' & _)". iDestruct (cell_once with "Hn Hn'") as %[]. }
  destruct (decide (st = 1)) as [->|]; [|done].
  iDestruct "Hs" as "(_ & %x & %y & %z & %g' & _ & _ & Hn' & _)". iDestruct (cell_once with "Hn Hn'") as %[].
Qed.
Lemma slot_free i : slot i 0 ⊣⊢ ready ∗ ∃ x y z n g, asks 1 (Z.of_nat i) x y z ∗ cell 1 (order_number (Z.of_nat i)) n ∗ cell 1 (order_glass (Z.of_nat i)) g.
Proof. unfold slot, slot_rest. simpl. by rewrite left_id. Qed.

(** What a bartender takes. *)
Definition taken (i : Z) : iProp Σ :=
  credit ∗ ∃ x y z g, ⌜bottled x ∧ bottled y ∧ bottled z⌝ ∗ asks (1/2) i x y z ∗ cell 1 (order_number i) i ∗ cell 1 (order_glass i) g.

Lemma slot_ordered i : slot i 1 ⊣⊢ seat ∗ taken (Z.of_nat i).
Proof. unfold slot, slot_rest. simpl. by rewrite left_id. Qed.

Lemma slot_busy i st : st ≠ 0 -> st ≠ 1 -> slot i st ⊣⊢ seat ∗ ready.
Proof.
  intros H0 H1. unfold slot, slot_rest. rewrite !(decide_False (P := st = 0)) // !(decide_False (P := st = 1)) //.
  by rewrite right_id.
Qed.

(** Who has a seat finds a free slot, who has been told of an order an ordered one. *)
Lemma slot_for_seat sts : length sts = NCUSTOMERS ->
  ([∗ list] i ↦ st ∈ sts, cell 1 (order_state (Z.of_nat i)) st ∗ slot i st) -∗ seat -∗ ⌜Exists (.= 0) sts⌝.
Proof.
  iIntros (Hl) "Hs Ht". iApply (ticket_place _ (.= 0) sts with "[Hs] Ht"); [exact Hl|]. iApply (big_sepL_impl with "Hs").
  iIntros "!>" (i st _) "(_ & H & _)". iExact "H".
Qed.

Lemma slot_for_bartender sts : length sts = NCUSTOMERS ->
  ([∗ list] i ↦ st ∈ sts, cell 1 (order_state (Z.of_nat i)) st ∗ slot i st) -∗ ready -∗ ⌜Exists (.= 1) sts⌝.
Proof.
  iIntros (Hl) "Hs Ht". iApply (ticket_place _ (.= 1) sts with "[Hs] Ht"); [exact Hl|]. iApply (big_sepL_impl with "Hs").
  iIntros "!>" (i st _) "(_ & _ & H & _)". iExact "H".
Qed.

Lemma glass_for_mug sts : length sts = NGLASSES ->
  ([∗ list] g ↦ st ∈ sts, cell 1 (glass_state (Z.of_nat g)) st ∗ glass g st) -∗ mug -∗ ⌜Exists (.= 0) sts⌝.
Proof.
  iIntros (Hl) "Hs Ht". iApply (ticket_place _ (.= 0) sts with "[Hs] Ht"); [exact Hl|]. iApply (big_sepL_impl with "Hs").
  iIntros "!>" (i st _) "(_ & H & _)". iExact "H".
Qed.

(** Putting slot [i] in another state. *)
Lemma orders_put sts i st st' : length sts = NCUSTOMERS -> sts !! i = Some st ->
  ([∗ list] i ↦ st ∈ sts, cell 1 (order_state (Z.of_nat i)) st ∗ slot i st) -∗
  cell 1 (order_state (Z.of_nat i)) st ∗ slot i st ∗
  (cell 1 (order_state (Z.of_nat i)) st' -∗ slot i st' -∗ orders_inv).
Proof.
  iIntros (Hl Hi) "Hs". iDestruct (big_sepL_insert_acc with "Hs") as "[[$ $] Hs]"; [exact Hi|].
  iIntros "Hc Hs'". iExists (<[i:=st']> sts). rewrite length_insert. iSplit; [done|]. iApply "Hs". iFrame.
Qed.

Lemma glasses_put sts i st st' : length sts = NGLASSES -> sts !! i = Some st ->
  ([∗ list] i ↦ st ∈ sts, cell 1 (glass_state (Z.of_nat i)) st ∗ glass i st) -∗
  cell 1 (glass_state (Z.of_nat i)) st ∗ glass i st ∗
  (cell 1 (glass_state (Z.of_nat i)) st' -∗ glass i st' -∗ glasses_inv).
Proof.
  iIntros (Hl Hi) "Hs". iDestruct (big_sepL_insert_acc with "Hs") as "[[$ $] Hs]"; [exact Hi|].
  iIntros "Hc Hs'". iExists (<[i:=st']> sts). rewrite length_insert. iSplit; [done|]. iApply "Hs". iFrame.
Qed.

(** ** Taking an order *)

Lemma safe_take_order t X k :
  orderslock b ∉ X ->
  is_sem (ordersready b) ready -∗ is_lock (orderslock b) orders_inv -∗ holds t X -∗
  (∀ i : nat, ⌜(i < NCUSTOMERS)%nat⌝ -∗ holds t X -∗ taken (Z.of_nat i) -∗ safe t (k (Z.of_nat i))) -∗
  safe t (take_order NCUSTOMERS b k).
Proof.
  iIntros (HX) "#Hr #Hl Ht Hk". iApply (safe_P with "Hr"). iIntros "!> Hready".
  iApply (safe_acquire with "Hl Ht"); [done|]. iIntros "!> Hlk Ht (%sts & %Hsts & Hs)".
  iDestruct (slot_for_bartender with "Hs Hready") as %Hex; [done|].
  iApply (safe_scan _ _ _ _ _ _ _ slot with "Hs"); [exact Hsts|]. iSplit.
  - iIntros (i Hi) "Hs". iDestruct (orders_put _ _ _ 2 with "Hs") as "(Hc & Hs & Hclose)"; [done..|].
    rewrite slot_ordered. iDestruct "Hs" as "[Hseat Htaken]".
    iApply (safe_write with "Hc"). iIntros "!> Hc".
    iApply (safe_release with "Hl Hlk Ht [Hclose Hc Hseat Hready]"); [done| |].
    { iApply ("Hclose" with "Hc"). rewrite slot_busy //. iFrame. }
    iIntros "!> Ht". iApply ("Hk" with "[] Ht Htaken"). iPureIntro. rewrite -Hsts. by eapply lookup_lt_Some.
  - iIntros (Hno) "_". apply Exists_exists in Hex as (st & Hin & ->). done.
Qed.

(** ** Pouring *)

Lemma bottles_lookup m ds ing : bottled ing -> bottles m ds -∗ ∃ d, ⌜ds !! Z.to_nat ing = Some d ∧ 0 <= d <= m⌝.
Proof.
  iIntros (Hing) "[%Hds _]". destruct Hds as [Hl Hds]. unfold bottled in Hing.
  destruct (lookup_lt_is_Some_2 ds (Z.to_nat ing)) as [d Hd]; [lia|]. iExists d. iPureIntro. split; [done|].
  by eapply (Forall_lookup_1 _ _ _ _ Hds).
Qed.

Lemma bottles_more m m' ds : m <= m' -> bottles m ds -∗ bottles m' ds.
Proof.
  iIntros (Hm) "[[%Hl %Hds] $]". iPureIntro. split; [done|]. eapply Forall_impl; [exact Hds|]. intros d Hd. simpl in *. lia.
Qed.

Lemma bottles_put m ds ing d : ds !! Z.to_nat ing = Some d -> bottled ing -> 0 <= d <= m ->
  bottles m ds -∗ cell (1/2) (bottle_doses ing) d ∗
  (cell (1/2) (bottle_doses ing) (d + 1) -∗ bottles (m + 1) (<[Z.to_nat ing := d + 1]> ds)).
Proof.
  iIntros (Hd Hing Hm) "[[%Hl %Hds] Hc]". unfold bottled in Hing.
  iDestruct (big_sepL_insert_acc with "Hc") as "[Hd Hc]"; [exact Hd|]. rewrite Z2Nat.id; [|lia]. iFrame "Hd".
  iIntros "Hd". iSplit.
  - iPureIntro. rewrite length_insert. split; [done|]. apply Forall_insert; [|simpl; lia].
    eapply Forall_impl; [exact Hds|]. intros d' Hd'. simpl in *. lia.
  - by iApply "Hc".
Qed.

Lemma safe_pour_in t (g : Z) l i ing m ds k :
  bottled ing -> 0 <= i < lenZ l -> m + 1 < 2 ^ 31 ->
  ([∗ list] i ∈ seqZ 0 (Z.of_nat NBOTTLES), published (bottle_doses i)) -∗ contents g l -∗ bottles m ds -∗
  (∀ ds', contents g (if decide (ing = NOTHING) then l else <[Z.to_nat i := ing]> l) -∗ bottles (m + 1) ds' -∗
    safe t (k (if decide (ing = NOTHING) then i else i + 1))) -∗ safe t (pour_in g i ing k).
Proof.
  iIntros (Hing Hi Hm) "#Hpub Hl Hds Hk". unfold pour_in. destruct (Z.eqb_spec ing NOTHING) as [Heq|Hne].
  { rewrite !(decide_True (P := ing = NOTHING)) //. iApply ("Hk" with "Hl"). iApply (bottles_more with "Hds"). lia. }
  rewrite !(decide_False (P := ing = NOTHING)) //.
  destruct (lookup_lt_is_Some_2 l (Z.to_nat i)) as [x Hx]; [unfold lenZ in Hi; lia|].
  iDestruct (big_sepL_insert_acc with "Hl") as "[Hc Hl]"; [exact Hx|]. rewrite Z2Nat.id; [|lia].
  iApply (safe_write with "Hc"). iIntros "!> Hc".
  iDestruct (bottles_lookup with "Hds") as (d) "[%Hd %Hdm]"; [exact Hing|].
  iDestruct (bottles_put with "Hds") as "[Hd Hds]"; [exact Hd|exact Hing|exact Hdm|].
  iApply (safe_read with "Hd"). iIntros "!> Hd". iApply safe_int; [unfold is_s32; lia|].
  iAssert (published (bottle_doses ing)) as "#Hp".
  { iApply (big_sepL_elem_of with "Hpub"). apply elem_of_seqZ. unfold bottled in Hing. lia. }
  iApply (safe_write_published with "Hp Hd"). iIntros "!> Hd".
  iApply ("Hk" with "[Hl Hc] [Hds Hd]"); [by iApply "Hl"|by iApply "Hds"].
Qed.

Lemma served_eq x y z :
  served x y z =
  let l := if decide (x = NOTHING) then [0; 0; 0] else [x; 0; 0] in
  let i := if decide (x = NOTHING) then 0 else 1 in
  let l := if decide (y = NOTHING) then l else <[Z.to_nat i := y]> l in
  let i := if decide (y = NOTHING) then i else i + 1 in
  if decide (z = NOTHING) then l else <[Z.to_nat i := z]> l.
Proof.
  unfold served. destruct (decide (x = NOTHING)), (decide (y = NOTHING)), (decide (z = NOTHING));
    repeat first [rewrite filter_cons_True; [|done] | rewrite filter_cons_False; [|by intros []] ]; done.
Qed.

Lemma safe_pour t (g : Z) x y z m ds k :
  bottled x -> bottled y -> bottled z -> m + 3 < 2 ^ 31 ->
  ([∗ list] i ∈ seqZ 0 (Z.of_nat NBOTTLES), published (bottle_doses i)) -∗ contents g [0; 0; 0] -∗ bottles m ds -∗
  (∀ ds', contents g (served x y z) -∗ bottles (m + 3) ds' -∗ safe t k) -∗ safe t (pour g x y z k).
Proof.
  iIntros (Hx Hy Hz Hm) "#Hpub Hl Hds Hk". unfold pour. rewrite served_eq.
  iApply (safe_pour_in with "Hpub Hl Hds"); [done|unfold lenZ; simpl; lia|lia|]. iIntros (ds1) "Hl Hds".
  iApply (safe_pour_in with "Hpub Hl Hds"); [done|unfold lenZ; repeat case_decide; simpl; lia|lia|]. iIntros (ds2) "Hl Hds".
  iApply (safe_pour_in with "Hpub Hl Hds"); [done|unfold lenZ; repeat case_decide; simpl; lia|lia|]. iIntros (ds3) "Hl Hds".
  iApply ("Hk" with "Hl"). by replace (m + 3) with (m + 1 + 1 + 1) by lia.
Qed.

(** ** Filling and serving *)

Lemma glass_free g : glass g 0 ⊣⊢ contents (Z.of_nat g) [0; 0; 0] ∗ ∃ n, cell 1 (glass_number (Z.of_nat g)) n.
Proof. unfold glass. simpl. by rewrite left_id. Qed.

Lemma glass_busy g st : st ≠ 0 -> glass g st ⊣⊢ mug.
Proof. intros Hst. unfold glass. rewrite !decide_False //. by rewrite right_id. Qed.

Lemma credits_paid n : tickets (credits γ) orders n -∗ ⌜3 * Z.of_nat n < 2 ^ 31⌝.
Proof. iIntros "Hn". iDestruct (tickets_bound with "Hn") as %Hn. iPureIntro. lia. Qed.

Lemma safe_fill_order t X (i : nat) k :
  glassarraylock b ∉ X -> bottleslock b ∉ X ->
  is_sem (emptyglasses b) mug -∗ is_lock (glassarraylock b) glasses_inv -∗ is_lock (bottleslock b) bottles_inv -∗
  ([∗ list] i ∈ seqZ 0 (Z.of_nat NBOTTLES), published (bottle_doses i)) -∗
  holds t X -∗ taken (Z.of_nat i) -∗
  (holds t X -∗ filled (Z.of_nat i) -∗ safe t k) -∗
  safe t (fill_order NGLASSES b (Z.of_nat i) k).
Proof.
  iIntros (HX1 HX2) "#He #Hg #Hb #Hpub Ht (Hcr & %x & %y & %z & %g0 & %Hings & (Hx & Hy & Hz) & Hn & Hog) Hk".
  destruct Hings as (Hbx & Hby & Hbz).
  iApply (safe_P with "He"). iIntros "!> Hmug".
  iApply (safe_acquire with "Hg Ht"); [done|]. iIntros "!> Hlk Ht (%sts & %Hsts & Hs)".
  iDestruct (glass_for_mug with "Hs Hmug") as %Hex; [done|].
  iApply (safe_scan _ _ _ _ _ _ _ glass with "Hs"); [exact Hsts|]. iSplit; last first.
  { iIntros (Hno) "_". apply Exists_exists in Hex as (st & Hin & ->). done. }
  iIntros (g Hgi) "Hs". iDestruct (glasses_put _ _ _ 1 with "Hs") as "(Hc & Hs & Hclose)"; [done..|].
  rewrite glass_free. iDestruct "Hs" as "[Hl Hgn]".
  iApply (safe_write with "Hc"). iIntros "!> Hc".
  iApply (safe_release with "Hg Hlk Ht [Hclose Hc Hmug]"); [done| |].
  { iApply ("Hclose" with "Hc"). rewrite glass_busy //. }
  iIntros "!> Ht". iApply (safe_write with "Hog"). iIntros "!> Hog".
  iApply (safe_acquire with "Hb Ht"); [done|]. iIntros "!> Hlk Ht (%n & %ds & Hcs & Hds)".
  iApply (safe_read with "Hx"). iIntros "!> Hx". iApply (safe_read with "Hy"). iIntros "!> Hy".
  iApply (safe_read with "Hz"). iIntros "!> Hz".
  iDestruct (tickets_add _ _ n 1 with "[$Hcs $Hcr]") as "Hcs". iDestruct (credits_paid with "Hcs") as %Hpaid.
  iApply (safe_pour with "Hpub Hl Hds"); [done..|lia|]. iIntros (ds') "Hl Hds".
  iApply (safe_release with "Hb Hlk Ht [Hcs Hds]"); [done| |].
  { iExists (n + 1)%nat, ds'. iFrame "Hcs". by replace (3 * Z.of_nat (n + 1)) with (3 * Z.of_nat n + 3) by lia. }
  iIntros "!> Ht". iApply ("Hk" with "Ht"). iExists x, y, z, g. iFrame. iPureIntro. rewrite -Hsts. by eapply lookup_lt_Some.
Qed.

Lemma ordercomplete_at (i : nat) : (i < length (ordercomplete b))%nat ->
  ([∗ list] i ↦ a ∈ ordercomplete b, is_sem a (filled (Z.of_nat i))) -∗
  ∃ a, ⌜nthZ (ordercomplete b) (Z.of_nat i) = Some a⌝ ∗ is_sem a (filled (Z.of_nat i)).
Proof.
  iIntros (Hi) "Hs". destruct (lookup_lt_is_Some_2 _ _ Hi) as [a Ha].
  iDestruct (big_sepL_lookup with "Hs") as "Ha"; [exact Ha|]. iExists a. iFrame "Ha". iPureIntro. rewrite nthZ_to_nat; [|lia]. by rewrite Nat2Z.id.
Qed.

Lemma safe_serve_order t (i : nat) k : (i < length (ordercomplete b))%nat ->
  ([∗ list] i ↦ a ∈ ordercomplete b, is_sem a (filled (Z.of_nat i))) -∗
  filled (Z.of_nat i) -∗ safe t k -∗ safe t (serve_order b (Z.of_nat i) k).
Proof.
  iIntros (Hi) "#Hs (%x & %y & %z & %g & Ha & Hn & Hf) Hk". iApply (safe_read with "Hn"). iIntros "!> Hn".
  iDestruct (ordercomplete_at with "Hs") as (a) "[%Ha Hsem]"; [exact Hi|]. rewrite Ha.
  iApply (safe_V _ _ _ _ _ _ 1 with "Hsem [Ha Hn Hf] Hk"); [apply filled_once|lia|]. iExists x, y, z, g. iFrame.
Qed.

(** ** Ordering and giving the glass back *)

(** A glass in a customer's hand, with the slot it was ordered in. *)
Definition drink (g : Z) (l : list Z) : iProp Σ :=
  ∃ (i n : nat), ⌜(i < NCUSTOMERS)%nat ∧ g = Z.of_nat n ∧ (n < NGLASSES)%nat⌝ ∗
    (∃ x y z, asks 1 (Z.of_nat i) x y z) ∗ cell 1 (order_number (Z.of_nat i)) (Z.of_nat i) ∗
    cell 1 (order_glass (Z.of_nat i)) g ∗ contents g l ∗ cell 1 (glass_number g) (Z.of_nat i).

Lemma safe_free_slot t x y z k :
  bottled x -> bottled y -> bottled z ->
  orders_inv -∗ seat -∗ credit -∗
  (∀ i : nat, ⌜(i < NCUSTOMERS)%nat⌝ -∗ orders_inv -∗ ready -∗ asks (1/2) (Z.of_nat i) x y z -∗ safe t (k (Z.of_nat i))) -∗
  safe t (free_slot NCUSTOMERS x y z k).
Proof.
  iIntros (Hx Hy Hz) "(%sts & %Hsts & Hs) Hseat Hcr Hk".
  iDestruct (slot_for_seat with "Hs Hseat") as %Hex; [done|].
  iApply (safe_scan _ _ _ _ _ _ _ slot with "Hs"); [exact Hsts|]. iSplit; last first.
  { iIntros (Hno) "_". apply Exists_exists in Hex as (st & Hin & ->). done. }
  iIntros (i Hi) "Hs". iDestruct (orders_put _ _ _ 1 with "Hs") as "(Hc & Hs & Hclose)"; [done..|].
  rewrite slot_free. iDestruct "Hs" as "(Hready & %x0 & %y0 & %z0 & %n & %g & (Hix & Hiy & Hiz) & Hn & Hg)".
  iApply (safe_write with "Hix"). iIntros "!> [Hix Hix']". iApply (safe_write with "Hiy"). iIntros "!> [Hiy Hiy']".
  iApply (safe_write with "Hiz"). iIntros "!> [Hiz Hiz']". iApply (safe_write with "Hc"). iIntros "!> Hc".
  iApply (safe_write with "Hn"). iIntros "!> Hn".
  iApply ("Hk" with "[] [Hclose Hc Hseat Hcr Hix Hiy Hiz Hn Hg] Hready [$Hix' $Hiy' $Hiz']").
  { iPureIntro. rewrite -Hsts. by eapply lookup_lt_Some. }
  iApply ("Hclose" with "Hc"). rewrite slot_ordered. iFrame "Hseat Hcr". iExists x, y, z, g. iFrame. done.
Qed.

Lemma asks_join i x y z x' y' z' : asks (1/2) i x y z -∗ asks (1/2) i x' y' z' -∗ ⌜x' = x ∧ y' = y ∧ z' = z⌝ ∗ asks 1 i x y z.
Proof.
  iIntros "(Hx & Hy & Hz) (Hx' & Hy' & Hz')". iDestruct (ghost_map_elem_agree with "Hx Hx'") as %<-.
  iDestruct (ghost_map_elem_agree with "Hy Hy'") as %<-. iDestruct (ghost_map_elem_agree with "Hz Hz'") as %<-.
  iSplit; [done|]. iSplitL "Hx Hx'"; [by iCombine "Hx Hx'" as "$"|]. iSplitL "Hy Hy'"; [by iCombine "Hy Hy'" as "$"|].
  by iCombine "Hz Hz'" as "$".
Qed.

Lemma few_customers : Z.of_nat NCUSTOMERS < 2 ^ 31.
Proof. lia. Qed.

Lemma safe_submit_order t X x y z k :
  orderslock b ∉ X -> bottled x -> bottled y -> bottled z ->
  is_bar -∗ holds t X -∗ seat -∗ credit -∗
  (∀ g, holds t X -∗ drink g (served x y z) -∗ safe t (k g)) -∗
  safe t (submit_order NCUSTOMERS b x y z k).
Proof.
  iIntros (HX Hx Hy Hz) "(_ & #Hr & _ & %Hlen & #Hoc & #Hol & _) Ht Hseat Hcr Hk".
  iApply (safe_acquire with "Hol Ht"); [done|]. iIntros "!> Hlk Ht Ho".
  iApply (safe_free_slot with "Ho Hseat Hcr"); [done..|]. iIntros (i Hi) "Ho Hready Hask".
  iApply (safe_release with "Hol Hlk Ht Ho"); [done|]. iIntros "!> Ht".
  iApply (safe_V _ _ _ _ _ ready NCUSTOMERS with "Hr Hready"); [apply tickets_at_most|apply few_customers|]. iNext.
  iDestruct (ordercomplete_at i with "Hoc") as (a) "[%Ha Hsem]"; [lia|]. rewrite Ha.
  iApply (safe_P with "Hsem"). iIntros "!> (%x' & %y' & %z' & %g & Hask' & Hn & Hg & %Hgn & Hl & %n & Hgl)".
  iDestruct (asks_join with "Hask Hask'") as "[(-> & -> & ->) Hask]".
  iApply (safe_read with "Hg"). iIntros "!> Hg". iApply (safe_write with "Hgl"). iIntros "!> Hgl".
  iApply (safe_acquire with "Hol Ht"); [done|]. iIntros "!> Hlk Ht (%sts & %Hsts & Hs)".
  destruct (lookup_lt_is_Some_2 sts i) as [st Hst]; [lia|].
  iDestruct (orders_put _ _ _ 3 with "Hs") as "(Hc & Hs & Hclose)"; [done..|].
  iDestruct (slot_out with "Hg Hn Hs") as %[H0 H1].
  iApply (safe_write with "Hc"). iIntros "!> Hc".
  iApply (safe_release with "Hol Hlk Ht [Hclose Hc Hs]"); [done| |].
  { iApply ("Hclose" with "Hc"). rewrite !slot_busy //. }
  iIntros "!> Ht". iApply ("Hk" with "Ht"). iExists i, g. iFrame. done.
Qed.

(** The empty glass goes back, and so does the seat. *)
Lemma safe_return_glass t X g k :
  orderslock b ∉ X -> glassarraylock b ∉ X ->
  is_bar -∗ holds t X -∗ drink g [0; 0; 0] -∗ (holds t X -∗ seat -∗ safe t k) -∗ safe t (return_glass b g k).
Proof.
  iIntros (HX HX2) "(#He & _ & _ & _ & _ & #Hol & #Hgl & _) Ht (%i & %n & %Hin & (%x & %y & %z & Hask) & Hn & Hg & Hl & Hgn) Hk".
  destruct Hin as (Hi & -> & Hnn).
  iApply (safe_acquire with "Hgl Ht"); [done|]. iIntros "!> Hlk Ht (%sts & %Hsts & Hs)".
  destruct (lookup_lt_is_Some_2 sts n) as [st Hst]; [lia|].
  iDestruct (glasses_put _ _ _ 0 with "Hs") as "(Hc & Hs & Hclose)"; [done..|].
  iAssert ⌜st ≠ 0⌝%I as %Hst0.
  { iIntros (->). rewrite glass_free. iDestruct "Hs" as "(_ & %n' & Hgn')". iApply (cell_once with "Hgn Hgn'"). }
  rewrite (glass_busy _ st) //. iApply (safe_write with "Hc"). iIntros "!> Hc".
  iApply (safe_read with "Hgn"). iIntros "!> Hgn".
  iApply (safe_release with "Hgl Hlk Ht [Hclose Hc Hl Hgn]"); [done| |].
  { iApply ("Hclose" with "Hc"). rewrite glass_free. iFrame. }
  iIntros "!> Ht". iApply (safe_V _ _ _ _ _ mug NGLASSES with "He Hs"); [apply tickets_at_most|done|]. iNext.
  clear sts Hsts st Hst Hst0. iApply (safe_acquire with "Hol Ht"); [done|]. iIntros "!> Hlk Ht (%sts & %Hsts & Hs)".
  destruct (lookup_lt_is_Some_2 sts i) as [st Hst]; [lia|].
  iDestruct (orders_put _ _ _ 0 with "Hs") as "(Hc & Hs & Hclose)"; [done..|].
  iDestruct (slot_out with "Hg Hn Hs") as %[H0 H1]. rewrite (slot_busy i st) //. iDestruct "Hs" as "[Hseat Hready]".
  iApply (safe_write with "Hc"). iIntros "!> Hc".
  iApply (safe_release with "Hol Hlk Ht [Hclose Hc Hready Hask Hn Hg]"); [done| |].
  { iApply ("Hclose" with "Hc"). rewrite slot_free. iFrame. }
  iIntros "!> Ht". iApply ("Hk" with "Ht Hseat").
Qed.

(** ** Going home *)

Lemma safe_crawl_home t k :
  is_bar -∗ holds t ∅ -∗ seat -∗ patron -∗ (holds t ∅ -∗ safe t k) -∗ safe t (crawl_home NCUSTOMERS NBARTENDERS b k).
Proof.
  iIntros "#Hbar Ht Hseat Hp Hk".
  iPoseProof "Hbar" as "(_ & _ & _ & _ & _ & _ & _ & _ & #Hnl & #Hnd & _ & %Hne)". destruct Hne as [Hne1 Hne2].
  iApply (safe_acquire with "Hnl Ht"); [set_solver|]. iIntros "!> Hlk Ht (%n & %Hn & Hc & Hps & Hcr)".
  iDestruct (tickets_add _ _ _ 1 with "[$Hps $Hp]") as "Hps". iDestruct (tickets_bound with "Hps") as %Hle.
  pose proof few_customers as Hfew.
  iApply (safe_read with "Hc"). iIntros "!> Hc". iApply safe_int; [unfold is_s32; lia|].
  iApply (safe_write_published with "Hnd Hc"). iIntros "!> Hc".
  iApply (safe_read with "Hc"). iIntros "!> Hc".
  replace (Z.of_nat n - 1) with (Z.of_nat (n - 1)) by lia. replace (NCUSTOMERS - n + 1)%nat with (NCUSTOMERS - (n - 1))%nat by lia.
  destruct (Z.eqb_spec (Z.of_nat (n - 1)) 0) as [Hz|Hnz].
  - rewrite (decide_False (P := n = 0%nat)); [|lia].
    iApply (safe_for _ _ _ (fun i => holds t ({[ndrinkerslock b]} ∪ ∅) ∗ seat ∗ tickets (credits γ) orders (NBARTENDERS - Z.to_nat i))%I
      with "[$Ht $Hseat Hcr] [Hlk Hc Hps Hk]").
    + by rewrite Nat.sub_0_r.
    + iIntros "(Ht & _ & _)". iApply (safe_release with "Hnl Hlk Ht [Hc Hps]"); [set_solver| |].
      { iExists (n - 1)%nat. iFrame. rewrite decide_True; [|lia]. iPureIntro. lia. }
      iIntros "!> Ht". by iApply "Hk".
    + iIntros "!>" (i q Hi) "(Ht & Hseat & Hcr) Hq".
      replace (NBARTENDERS - Z.to_nat i)%nat with (1 + (NBARTENDERS - Z.to_nat (i + 1)))%nat by lia.
      iDestruct (tickets_add with "Hcr") as "[Hcr1 Hcr]".
      iApply (safe_submit_order with "Hbar Ht Hseat Hcr1"); [set_solver|by split..|].
      iIntros (g) "Ht Hdrink". iApply (safe_return_glass with "Hbar Ht Hdrink"); [set_solver..|].
      iIntros "Ht Hseat". iApply "Hq". iFrame.
  - iApply (safe_release with "Hnl Hlk Ht [Hc Hps Hcr]"); [set_solver| |].
    { iExists (n - 1)%nat. iFrame. rewrite !decide_False; [|lia..]. iFrame. iPureIntro. lia. }
    iIntros "!> Ht". by iApply "Hk".
Qed.

(** ** The threads *)

Context (drinking : list Z -> Z -> bar_prog -> bar_prog).
Hypothesis drinks : forall t x y z g k,
  contents g [x; y; z] -∗ (contents g [x; y; z] -∗ safe t k) -∗ safe t (drinking [x; y; z] g k).

Lemma safe_rounds t x y z k :
  bottled x -> bottled y -> bottled z -> served x y z = [x; y; z] ->
  is_bar -∗ holds t ∅ -∗ seat -∗ tickets (credits γ) orders 5 -∗ (holds t ∅ -∗ seat -∗ safe t k) -∗
  safe t (loop 5 0 (fun _ next =>
    submit_order NCUSTOMERS b x y z (fun glass =>
    drinking [x; y; z] glass
      (loop 3 0 (fun j next => store (glass_contents glass j) 0 next)
        (p_yield (return_glass b glass next))))) k).
Proof.
  iIntros (Hx Hy Hz Hserved) "#Hbar Ht Hseat Hcr Hk".
  iApply (safe_for _ _ _ (fun i => holds t ∅ ∗ seat ∗ tickets (credits γ) orders (5 - Z.to_nat i))%I with "[$Ht $Hseat Hcr] [Hk]").
  { iExact "Hcr". }
  { iIntros "(Ht & Hseat & _)". iApply ("Hk" with "Ht Hseat"). }
  iIntros "!>" (i q Hi) "(Ht & Hseat & Hcr) Hq".
  replace (5 - Z.to_nat i)%nat with (1 + (5 - Z.to_nat (i + 1)))%nat by lia.
  iDestruct (tickets_add with "Hcr") as "[Hcr1 Hcr]".
  iApply (safe_submit_order with "Hbar Ht Hseat Hcr1"); [set_solver|done..|]. rewrite Hserved.
  iIntros (g) "Ht (%o & %m & Hin & Hask & Hn & Hg & Hl & Hgn)". iApply (drinks with "Hl"). iIntros "(H0 & H1 & H2 & _)". simpl.
  iApply (safe_write with "H0"). iIntros "!> H0". iApply (safe_write with "H1"). iIntros "!> H1".
  iApply (safe_write with "H2"). iIntros "!> H2". iApply safe_yield. iNext.
  iApply (safe_return_glass with "Hbar Ht [Hin Hask Hn Hg Hgn H0 H1 H2]"); [set_solver..| |].
  { iExists o, m. iFrame. done. }
  iIntros "Ht Hseat". iApply "Hq". iFrame.
Qed.

Lemma safe_leave t : is_sem (alldone b) done_ -∗ holds t ∅ -∗ done_ -∗ safe t (p_V (alldone b) p_done).
Proof.
  iIntros "#Hd Ht Hdone". iApply (safe_V _ _ _ _ _ done_ (NCUSTOMERS + NBARTENDERS) with "Hd Hdone"); [apply tickets_at_most|lia|].
  iNext. by iApply safe_done.
Qed.

Lemma safe_customer t n :
  is_bar -∗ holds t ∅ -∗ seat -∗ patron -∗ done_ -∗ tickets (credits γ) orders 5 -∗
  safe t (customer NCUSTOMERS NBARTENDERS b drinking n).
Proof.
  iIntros "#Hbar Ht Hseat Hp Hdone Hcr". iPoseProof "Hbar" as "(_ & _ & #Hd & _)".
  unfold customer. destruct (Z.land n 1 =? 0).
  all: iApply (safe_rounds with "Hbar Ht Hseat Hcr"); [by split..|done|]; iIntros "Ht Hseat";
    iApply (safe_crawl_home with "Hbar Ht Hseat Hp"); iIntros "Ht"; by iApply (safe_leave with "Hd Ht").
Qed.

Lemma safe_bartender t : is_bar -∗ holds t ∅ -∗ done_ -∗ safe t (bartender NGLASSES NCUSTOMERS b).
Proof.
  iIntros "#Hbar Ht Hdone". iPoseProof "Hbar" as "(#He & #Hr & #Hd & %Hlen & #Hoc & #Hol & #Hgl & #Hbl & _ & #Hnd & #Hpub & _)".
  iLöb as "IH". iApply safe_loop. iNext. rewrite round_drinkers.
  iApply (safe_read_published with "Hnd"). iIntros "!>" (n). destruct (n =? 0).
  { simpl. by iApply (safe_leave with "Hd Ht"). }
  rewrite round_take_order. iApply (safe_take_order with "Hr Hol Ht"); [set_solver|]. iIntros (i Hi) "Ht Htaken".
  rewrite round_fill_order. iApply (safe_fill_order with "He Hgl Hbl Hpub Ht Htaken"); [set_solver..|]. iIntros "Ht Hf".
  rewrite round_serve_order. iApply (safe_serve_order with "Hoc Hf"); [lia|]. iApply ("IH" with "Ht Hdone").
Qed.
End spec.

(** ** Opening *)

Lemma bar_places_once NGLASSES NCUSTOMERS : NoDup (bar_places NGLASSES NCUSTOMERS).
Proof.
  unfold bar_places. rewrite !NoDup_app. split_and!.
  - apply NoDup_bind; [|intros o _; repeat (constructor; [set_solver|]); constructor|apply NoDup_seqZ].
    intros o1 o2 p _ _ H1 H2. set_solver.
  - intros p (o & Hp & _)%list_elem_of_bind. rewrite !elem_of_app list_elem_of_bind list_elem_of_fmap. set_solver.
  - apply NoDup_bind; [|intros g _; repeat (constructor; [set_solver|]); constructor|apply NoDup_seqZ].
    intros o1 o2 p _ _ H1 H2. set_solver.
  - intros p (o & Hp & _)%list_elem_of_bind. rewrite elem_of_app list_elem_of_fmap. set_solver.
  - apply NoDup_fmap_2, NoDup_seqZ. by intros ? ? [= ->].
  - intros p (o & -> & _)%list_elem_of_fmap. set_solver.
  - apply NoDup_singleton.
Qed.

Section opening.
Context `{!poolGS Σ place, !ticketG Σ} (tolerated : string -> Prop) (kept : Z -> Prop).
Context (NGLASSES NCUSTOMERS NBARTENDERS : nat).
Notation safe := (safe tolerated kept).
Hypothesis no_memory : tolerated "createbar: out of memory" ∧ tolerated "bar_open: sem_create failed" ∧
  tolerated "bar_open: lock_create failed" ∧ tolerated "createbar: thread_fork failed".

(** The variables at the start. *)
Definition order_cells (o : Z) : iProp Σ :=
  asks 1 o 0 0 0 ∗ cell 1 (order_glass o) (-1) ∗ cell 1 (order_number o) 0 ∗ cell 1 (order_state o) 0.
Definition glass_cells (g : Z) : iProp Σ :=
  contents g [0; 0; 0] ∗ cell 1 (glass_state g) 0 ∗ cell 1 (glass_number g) 0.
Definition all_orders : iProp Σ := [∗ list] o ∈ seqZ 0 (Z.of_nat NCUSTOMERS), order_cells o.
Definition all_glasses : iProp Σ := [∗ list] g ∈ seqZ 0 (Z.of_nat NGLASSES), glass_cells g.
Definition all_bottles : iProp Σ := [∗ list] i ∈ seqZ 0 (Z.of_nat NBOTTLES), cell 1 (bottle_doses i) 0.

Lemma bar_memory_cells :
  ([∗ map] x ↦ v ∈ bar_memory NGLASSES NCUSTOMERS, cell 1 x v) ⊢ all_orders ∗ all_glasses ∗ all_bottles ∗ cell 1 ndrinkers 0.
Proof.
  unfold bar_memory. rewrite big_sepM_list_to_map.
  - rewrite big_sepL_fmap. unfold bar_places. rewrite !big_sepL_app !big_sepL_bind big_sepL_fmap big_sepL_singleton.
    iIntros "(Ho & Hg & $ & $)". iSplitL "Ho".
    + iApply (big_sepL_impl with "Ho"). iIntros "!>" (k o _) "($ & $ & $ & $ & $ & $ & _)".
    + iApply (big_sepL_impl with "Hg"). iIntros "!>" (k g _) "(H0 & H1 & H2 & $ & $ & _)". unfold contents. simpl. by iFrame.
  - rewrite -list_fmap_compose list_fmap_id. apply bar_places_once.
Qed.

Lemma safe_made_sem t n msg k :
  tolerated msg -> (∀ a, object 1 a (Sem n) -∗ safe t (k a)) -∗ safe t (made_or msg (c_sem_create n) k).
Proof.
  iIntros (Hmsg) "Hk". iApply safe_sem_create. iNext. iSplit; [|by iApply safe_panic].
  iIntros (a Ha) "Ho". rewrite (proj2 (Z.eqb_neq a 0) Ha). by iApply "Hk".
Qed.

Lemma safe_made_lock t msg k :
  tolerated msg -> (∀ a, object 1 a (Lock None) -∗ safe t (k a)) -∗ safe t (made_or msg c_lock_create k).
Proof.
  iIntros (Hmsg) "Hk". iApply safe_lock_create. iNext. iSplit; [|by iApply safe_panic].
  iIntros (a Ha) "Ho". rewrite (proj2 (Z.eqb_neq a 0) Ha). by iApply "Hk".
Qed.

Lemma safe_make_ordercomplete t n sems k :
  ([∗ list] a ∈ sems, object 1 a (Sem 0)) -∗
  (∀ sems', ⌜length sems' = (length sems + n)%nat⌝ -∗ ([∗ list] a ∈ sems', object 1 a (Sem 0)) -∗ safe t (k sems')) -∗
  safe t (make_ordercomplete n sems k).
Proof.
  iIntros "Hs Hk". iInduction n as [|n IH] forall (sems); simpl.
  { iApply ("Hk" with "[] Hs"). iPureIntro. lia. }
  iApply safe_made_sem; [apply no_memory|]. iIntros (a) "Ha". iApply ("IH" with "[Hs Ha]"); [by iFrame|].
  iIntros (sems') "%Hl". iApply "Hk". iPureIntro. rewrite Hl length_app. simpl. lia.
Qed.

(** The semaphores and locks [bar_open] makes. *)
Definition opened (b : bar) : iProp Σ :=
  object 1 (emptyglasses b) (Sem (Z.of_nat NGLASSES)) ∗ object 1 (ordersready b) (Sem 0) ∗
  ([∗ list] a ∈ ordercomplete b, object 1 a (Sem 0)) ∗
  object 1 (orderslock b) (Lock None) ∗ object 1 (bottleslock b) (Lock None) ∗
  object 1 (glassarraylock b) (Lock None) ∗ object 1 (ndrinkerslock b) (Lock None).

(** Setting all to what it is. *)
Lemma safe_reset t n (at_ : Z -> place) (Φ : Z -> iProp Σ) p :
  (∀ i, Φ i -∗ cell 1 (at_ i) 0 ∗ (cell 1 (at_ i) 0 -∗ Φ i)) ->
  ([∗ list] i ∈ seqZ 0 (Z.of_nat n), Φ i) -∗ (([∗ list] i ∈ seqZ 0 (Z.of_nat n), Φ i) -∗ safe t p) -∗
  safe t (loop n 0 (fun i next => store (at_ i) 0 next) p).
Proof.
  iIntros (HΦ) "Hs Hp". iApply (safe_for _ _ _ (fun _ => [∗ list] i ∈ seqZ 0 (Z.of_nat n), Φ i)%I with "Hs Hp").
  iIntros "!>" (i q Hi) "Hs Hq". iDestruct (big_sepL_elem_of_acc _ _ i with "Hs") as "[Hi Hs]"; [apply elem_of_seqZ; lia|].
  iDestruct (HΦ with "Hi") as "[Hc Hi]". iApply (safe_write with "Hc"). iIntros "!> Hc". iApply "Hq". iApply "Hs". by iApply "Hi".
Qed.

Lemma safe_bar_open t done k :
  all_orders -∗ all_glasses -∗ cell 1 ndrinkers 0 -∗
  (∀ b, ⌜length (ordercomplete b) = NCUSTOMERS ∧ alldone b = done⌝ -∗ opened b -∗
    all_orders -∗ all_glasses -∗ cell 1 ndrinkers (Z.of_nat NCUSTOMERS) -∗ safe t (k b)) -∗
  safe t (bar_open NGLASSES NCUSTOMERS done k).
Proof.
  iIntros "Ho Hg Hn Hk". destruct no_memory as (_ & Hsem & Hlock & _).
  iApply (safe_write with "Hn"). iIntros "!> Hn".
  iApply (safe_reset with "Hg"). { iIntros (i) "($ & $ & $) $". } iIntros "Hg".
  iApply (safe_reset with "Ho"). { iIntros (i) "($ & $ & $ & $) $". } iIntros "Ho".
  iApply safe_made_sem; [done|]. iIntros (a1) "H1". iApply safe_made_sem; [done|]. iIntros (a2) "H2".
  iApply (safe_make_ordercomplete _ _ []); [done|]. iIntros (sems) "%Hsems Hs".
  iApply safe_made_lock; [done|]. iIntros (l1) "L1". iApply safe_made_lock; [done|]. iIntros (l2) "L2".
  iApply safe_made_lock; [done|]. iIntros (l3) "L3". iApply safe_made_lock; [done|]. iIntros (l4) "L4".
  iApply ("Hk" $! (mk_bar a1 a2 sems l1 l2 l3 l4 done) with "[] [H1 H2 Hs L1 L2 L3 L4] Ho Hg Hn"); [done|].
  unfold opened. simpl. iFrame.
Qed.

(** A run of numbered things as a list of equals. *)
Lemma numbered {A} n (x : A) (Φ : Z -> iProp Σ) (Ψ : nat -> A -> iProp Σ) :
  (∀ i : nat, Φ (Z.of_nat i) ⊢ Ψ i x) ->
  ([∗ list] i ∈ seqZ 0 (Z.of_nat n), Φ i) ⊢ [∗ list] i ↦ y ∈ replicate n x, Ψ i y.
Proof.
  intros HΦ. induction n as [|n IH]; [by iIntros|]. rewrite seqZ_S replicate_S_end !big_sepL_app IH. simpl.
  rewrite HΦ length_replicate Nat.add_0_r. by iIntros "[$ [$ _]]".
Qed.

(** Every place of a list gets what each place can have. *)
Lemma everywhere {A} (xs : list A) (Φ Ψ : nat -> A -> iProp Σ) E :
  (∀ i x, Φ i x ={E}=∗ Ψ i x) -> ([∗ list] i ↦ x ∈ xs, Φ i x) ={E}=∗ [∗ list] i ↦ x ∈ xs, Ψ i x.
Proof.
  iIntros (HΦ) "Hs". iApply big_sepL_fupd. iApply (big_sepL_impl with "Hs"). iIntros "!>" (i x _) "H". by iApply HΦ.
Qed.

Lemma alloc_orders γ :
  all_orders -∗ tickets (readies γ) NCUSTOMERS NCUSTOMERS -∗ orders_inv NCUSTOMERS NBARTENDERS γ.
Proof.
  iIntros "Ho Ht". iExists (replicate NCUSTOMERS 0). iSplit; [by rewrite length_replicate|].
  rewrite tickets_split. iEval (rewrite -{1}(length_replicate NCUSTOMERS 0) big_sepL_replicate) in "Ht".
  iDestruct (numbered _ 0 _ (fun i st => order_cells (Z.of_nat i) ∗ ⌜st = 0⌝)%I with "Ho") as "Ho"; [by iIntros (i) "$"|].
  iCombine "Ho Ht" as "Ho". rewrite -big_sepL_sep. iApply (big_sepL_impl with "Ho").
  iIntros "!>" (i st _) "[[(Hask & Hg & Hn & Hst) ->] Hready]". iFrame "Hst". rewrite slot_free. iFrame.
Qed.

Lemma alloc_glasses γ : all_glasses -∗ glasses_inv NGLASSES γ.
Proof.
  iIntros "Hg". iExists (replicate NGLASSES 0). iSplit; [by rewrite length_replicate|].
  iApply (numbered with "Hg"). iIntros (g) "(Hl & $ & Hn)". rewrite glass_free. iFrame.
Qed.

Lemma alloc_bottles γ E : all_bottles -∗ tickets (credits γ) (5 * NCUSTOMERS + NBARTENDERS) 0 ={E}=∗
  bottles_inv NCUSTOMERS NBARTENDERS γ ∗ [∗ list] i ∈ seqZ 0 (Z.of_nat NBOTTLES), published tolerated kept (bottle_doses i).
Proof.
  iIntros "Hb Ht". iMod (everywhere _ _ (fun _ i => published tolerated kept (bottle_doses i) ∗ cell (1/2) (bottle_doses i) 0)%I with "Hb") as "Hb".
  { iIntros (_ i) "Hc". iApply (published_alloc with "Hc"). }
  rewrite big_sepL_sep. iDestruct "Hb" as "[$ Hb]". iModIntro. iExists 0%nat, (replicate NBOTTLES 0). iFrame "Ht". iSplit.
  - iPureIntro. split; [by rewrite length_replicate|]. by apply Forall_replicate.
  - iApply (numbered with "Hb"). by iIntros (i) "$".
Qed.

Lemma alloc_ordercomplete (sems : list Z) (Φ : nat -> iProp Σ) E :
  ([∗ list] a ∈ sems, object 1 a (Sem 0)) ={E}=∗ [∗ list] i ↦ a ∈ sems, is_sem tolerated kept a (Φ i).
Proof.
  iIntros "Hs". iApply (everywhere with "Hs"). iIntros (i a) "Ha". by iApply (sem_alloc _ _ _ _ 0%nat with "Ha").
Qed.

Lemma bar_opens (b : bar) E : length (ordercomplete b) = NCUSTOMERS ->
  opened b -∗ object 1 (alldone b) (Sem 0) -∗ all_orders -∗ all_glasses -∗ all_bottles -∗
  cell 1 ndrinkers (Z.of_nat NCUSTOMERS) ={E}=∗ ∃ γ,
  is_bar tolerated kept NGLASSES NCUSTOMERS NBARTENDERS γ b ∗
  tickets (seats γ) NCUSTOMERS NCUSTOMERS ∗ tickets (patrons γ) NCUSTOMERS NCUSTOMERS ∗
  tickets (leaving γ) (NCUSTOMERS + NBARTENDERS) (NCUSTOMERS + NBARTENDERS) ∗
  tickets (credits γ) (5 * NCUSTOMERS + NBARTENDERS) (5 * NCUSTOMERS).
Proof.
  iIntros (Hl) "(He & Hr & Hoc & L1 & L2 & L3 & L4) Hd Ho Hg Hb Hn".
  iMod (tickets_alloc NCUSTOMERS) as (γ1) "T1". iMod (tickets_alloc NCUSTOMERS) as (γ2) "T2".
  iMod (tickets_alloc NGLASSES) as (γ3) "T3". iMod (tickets_alloc NCUSTOMERS) as (γ4) "T4".
  iMod (tickets_alloc (NCUSTOMERS + NBARTENDERS)) as (γ5) "T5".
  iMod (tickets_alloc (5 * NCUSTOMERS + NBARTENDERS)) as (γ6) "T6".
  set (γ := {| seats := γ1; readies := γ2; mugs := γ3; patrons := γ4; leaving := γ5; credits := γ6 |}). iExists γ.
  iDestruct (object_apart with "L4 L1") as %Hne1. iDestruct (object_apart with "L4 L3") as %Hne2.
  iDestruct (tickets_add _ _ (5 * NCUSTOMERS) NBARTENDERS with "T6") as "[$ T6]".
  iEval (rewrite -{2}(Nat.add_0_r NBARTENDERS)) in "T6". iDestruct (tickets_add with "T6") as "[T6 T60]".
  iEval (rewrite -{2}(Nat.add_0_r NCUSTOMERS)) in "T4". iDestruct (tickets_add with "T4") as "[T4 T40]".
  iMod (alloc_bottles γ with "Hb T60") as "[Hb $]". iMod (published_alloc with "Hn") as "[$ Hn]".
  iMod (sem_alloc _ _ _ _ NGLASSES (ticket γ3 NGLASSES) with "He [T3]") as "$"; [by rewrite tickets_split|].
  iMod (sem_alloc _ _ _ _ 0%nat (ticket γ2 NCUSTOMERS) with "Hr []") as "$"; [done|].
  iMod (sem_alloc _ _ _ _ 0%nat (ticket γ5 (NCUSTOMERS + NBARTENDERS)) with "Hd []") as "$"; [done|].
  iMod (alloc_ordercomplete with "Hoc") as "$".
  iMod (lock_alloc with "L1 [Ho T2]") as "$"; [iApply (alloc_orders γ with "Ho T2")|].
  iMod (lock_alloc with "L3 [Hg]") as "$"; [iApply (alloc_glasses γ with "Hg")|].
  iMod (lock_alloc with "L2 Hb") as "$".
  iMod (lock_alloc with "L4 [Hn T40 T6]") as "$".
  { iExists NCUSTOMERS. iSplit; [done|]. rewrite Nat.sub_diag. iFrame. destruct (decide (NCUSTOMERS = 0)%nat); [done|]. iFrame. }
  iModIntro. iFrame. done.
Qed.

(** ** The evening *)

Hypothesis few_glasses : Z.of_nat NGLASSES < 2 ^ 31.
Hypothesis few_orders : Z.of_nat (3 * (5 * NCUSTOMERS + NBARTENDERS)) < 2 ^ 31.
Context (drinking : list Z -> Z -> bar_prog -> bar_prog).
Hypothesis drinks : forall t x y z g k,
  contents g [x; y; z] -∗ (contents g [x; y; z] -∗ safe t k) -∗ safe t (drinking [x; y; z] g k).

Lemma safe_start t p q : (∀ t', holds t' ∅ -∗ safe t' p) -∗ safe t q -∗ safe t (start_thread p q).
Proof.
  iIntros "Hp Hq". iApply safe_fork. iNext. iSplit; [by iFrame|]. iIntros (e).
  replace (errno_code e =? 0) with false by by destruct e. iApply safe_panic. apply no_memory.
Qed.

Lemma safe_createbar t k :
  all_orders -∗ all_glasses -∗ all_bottles -∗ cell 1 ndrinkers 0 -∗ holds t ∅ -∗
  (∀ b, holds t ∅ -∗ safe t (k b)) -∗ safe t (createbar NGLASSES NCUSTOMERS NBARTENDERS drinking k).
Proof.
  iIntros "Ho Hg Hb Hn Ht Hk". iApply safe_made_sem; [apply no_memory|]. iIntros (d) "Hd".
  iApply (safe_reset _ NBOTTLES bottle_doses (fun i => cell 1 (bottle_doses i) 0) with "Hb"). { iIntros (i) "$ $". } iIntros "Hb".
  iApply (safe_bar_open with "Ho Hg Hn"). iIntros (b) "%Hbd Hop Ho Hg Hn". destruct Hbd as [Hlen <-].
  iApply safe_fupd. iMod (bar_opens with "Hop Hd Ho Hg Hb Hn") as (γ) "(#Hbar & Hseats & Hpats & Hleave & Hcr)"; [done|]. iModIntro.
  iApply (safe_for _ _ _ (fun i => tickets (leaving γ) (NCUSTOMERS + NBARTENDERS) (NCUSTOMERS + (NBARTENDERS - Z.to_nat i)))
    with "[Hleave] [-]").
  { by rewrite Nat.sub_0_r. }
  2:{ iIntros "!>" (i q Hi) "Hleave Hq".
      replace (NCUSTOMERS + (NBARTENDERS - Z.to_nat i))%nat with (1 + (NCUSTOMERS + (NBARTENDERS - Z.to_nat (i + 1))))%nat by lia.
      iDestruct (tickets_add with "Hleave") as "[Hdone Hleave]". iApply (safe_start with "[Hdone]"); [|by iApply "Hq"].
      iIntros (t') "Ht'". by iApply (safe_bartender with "Hbar Ht'"). }
  iIntros "Hleave". rewrite Z.add_0_l Nat2Z.id Nat.sub_diag Nat.add_0_r.
  iApply (safe_for _ _ _ (fun i =>
    tickets (leaving γ) (NCUSTOMERS + NBARTENDERS) (NCUSTOMERS - Z.to_nat i) ∗
    tickets (seats γ) NCUSTOMERS (NCUSTOMERS - Z.to_nat i) ∗ tickets (patrons γ) NCUSTOMERS (NCUSTOMERS - Z.to_nat i) ∗
    tickets (credits γ) (5 * NCUSTOMERS + NBARTENDERS) (5 * (NCUSTOMERS - Z.to_nat i)))%I with "[Hleave Hseats Hpats Hcr] [-]").
  { rewrite Nat.sub_0_r. iFrame. }
  2:{ iIntros "!>" (i q Hi) "(Hleave & Hseats & Hpats & Hcr) Hq".
      replace (NCUSTOMERS - Z.to_nat i)%nat with (1 + (NCUSTOMERS - Z.to_nat (i + 1)))%nat by lia.
      iDestruct (tickets_add with "Hleave") as "[Hdone Hleave]". iDestruct (tickets_add with "Hseats") as "[Hseat Hseats]".
      iDestruct (tickets_add with "Hpats") as "[Hpat Hpats]". rewrite Nat.mul_add_distr_l.
      iDestruct (tickets_add with "Hcr") as "[Hcr5 Hcr]".
      iApply (safe_start with "[Hdone Hseat Hpat Hcr5]"); [|iApply "Hq"; iFrame].
      iIntros (t') "Ht'". by iApply (safe_customer with "Hbar Ht' Hseat Hpat Hdone Hcr5"). }
  iIntros "_". iPoseProof "Hbar" as "(_ & _ & #Hd & _ & _ & _ & _ & _ & _ & _ & #Hpub & _)".
  iApply (safe_for _ _ _ (fun _ => True)%I with "[//] [-]").
  2:{ iIntros "!>" (i q _) "_ Hq". iApply (safe_P with "Hd"). iIntros "!> _". by iApply "Hq". }
  iIntros "_". iApply (safe_for _ _ _ (fun _ => True)%I with "[//] [-]").
  2:{ iIntros "!>" (i q Hi) "_ Hq". iDestruct (big_sepL_elem_of _ _ i with "Hpub") as "Hi"; [apply elem_of_seqZ; lia|].
      iApply (safe_read_published with "Hi"). iIntros "!>" (v). by iApply "Hq". }
  iIntros "_". by iApply "Hk".
Qed.
End opening.

(** A customer that looks finds what it ordered. *)
Lemma look_drinks `{!poolGS Σ place} tolerated kept t x y z g k :
  contents g [x; y; z] -∗ (contents g [x; y; z] -∗ safe tolerated kept t k) -∗ safe tolerated kept t (look [x; y; z] g k).
Proof.
  iIntros "(H0 & H1 & H2 & _) Hk". simpl. iApply (safe_read with "H0"). iIntros "!> H0". iApply (safe_read with "H1"). iIntros "!> H1".
  iApply (safe_read with "H2"). iIntros "!> H2". rewrite bool_decide_true //. iApply "Hk". iFrame. done.
Qed.

(** ** Every evening *)

(** The panics that are no fault of the bar. *)
Definition excusable (msg : string) : Prop :=
  msg ∈ ["createbar: out of memory"; "bar_open: sem_create failed"; "bar_open: lock_create failed"; "createbar: thread_fork failed"].

Definition evening (NGLASSES NCUSTOMERS NBARTENDERS : nat) (drinking : list Z -> Z -> bar_prog -> bar_prog) : bar_prog :=
  createbar NGLASSES NCUSTOMERS NBARTENDERS drinking (fun _ => p_done).

Lemma evening_goes NGLASSES NCUSTOMERS NBARTENDERS drinking kept t l' s' :
  Z.of_nat NGLASSES < 2 ^ 31 -> Z.of_nat (3 * (5 * NCUSTOMERS + NBARTENDERS)) < 2 ^ 31 ->
  drinking = drink_up ∨ drinking = look ->
  rtc (pstep excusable kept)
    ([(t, Some (evening NGLASSES NCUSTOMERS NBARTENDERS drinking))], mk_pstate ∅ {[t]} (bar_memory NGLASSES NCUSTOMERS)) (l', s') ->
  all_go excusable kept l' s'.
Proof.
  intros Hg Ho Hd. apply (pool_safe excusable kept #[poolΣ place; ticketΣ]); [done|done|].
  iIntros (HG) "_ Hmem Ht". iModIntro. simpl. iDestruct (bar_memory_cells with "Hmem") as "(Ho & Hgs & Hb & Hn)".
  iApply (safe_createbar with "Ho Hgs Hb Hn Ht"); [|done|done| |].
  - unfold excusable. set_solver.
  - intros t' x y z g k. destruct Hd as [->| ->]; [|apply look_drinks]. iIntros "Hl Hk". iApply ("Hk" with "Hl").
  - iIntros (b) "Ht". by iApply safe_done.
Qed.

Section evenings.
Context {Q W : Type} {F : FifoQueue Q Z} {L : FifoLaws F} {Env : ThreadEnv W}.

End evenings.

(** ** A small bar: one glass, one customer, one bartender *)

Definition bar_pcb : pcb (kont (gmap place Z)) := mk_pcb k_dead 0.
Definition bar_sys : tsys (queue Z) (kont (gmap place Z)) unit :=
  match boot bar_pcb (unbooted [] tt) with Done _ s => s | _ => unbooted [] tt end.
Definition small_bar (drinking : list Z -> Z -> bar_prog -> bar_prog) (s : tsys (queue Z) (kont (gmap place Z)) unit) :
  machine (queue Z) (gmap place Z) unit :=
  mk_machine (mk_ssys s ∅ (bar_memory 1 1)) (Some (evening 1 1 1 drinking)).

Lemma bar_idle_wakes (v : places (kont (gmap place Z))) :
  cur v = None -> takes (ret tt : M (tsys (queue Z) (kont (gmap place Z)) unit) unit) v (fun _ v' => woken v v').
Proof. intros _. apply takes_ret, woken_refl. Qed.

Lemma small_bar_alone drinking : exists t, alone_at (evening 1 1 1 drinking) (small_bar drinking bar_sys) t.
Proof.
  destruct (boot_alone (Q := queue Z) bar_pcb tt) as (t & s & Hrun & Hr). exists t, (alone bar_pcb t).
  unfold bar_sys. rewrite Hrun. split; [exact Hr|]. split; [|done]. split; simpl.
  - split; [apply NoDup_singleton|]. intros t' Hin. apply list_elem_of_singleton in Hin as ->. simpl.
    by rewrite lookup_singleton_eq.
  - by eexists.
  - done.
  - intros t' x Hin. by apply elem_of_nil in Hin.
Qed.

(** At its end: everybody has gone home, five doses of each drink have been served. *)
Definition closed (m : machine (queue Z) (gmap place Z) unit) : bool :=
  match code m with Some p_done => true | _ => false end &&
  bool_decide (shared (sys m) !! ndrinkers = Some 0) && bool_decide (shared (sys m) !! bottle_doses KAHLUA = Some 5).


(** The timer interrupts the bartender when it has served the fifth order, and again
    before it looks whether anybody is left. *)
Definition unlucky : list bool :=
  replicate 305 false ++ [true] ++ replicate 11 false ++ [true] ++ replicate 29 false.

