(* ===== verification/Ram.v ===== *)
(** * Physical memory and kernel pages (ram.c of kern/arch/mips, and the page functions of
    dumbvm.c).

    Pages are handed out from the low end of free memory and never taken back. Clients
    use the class [PageLayer], whose laws speak of the runs of pages that are out. The
    interrupt level, raised while a page is taken and restored at once, is left out. *)

From stdpp Require Import base numbers list gmap.
From Stdlib Require Import ZArith Lia.
From S2P Require Import Prelude.

Definition PAGE_SIZE : Z := 4096.
Definition PAGE_FRAME : Z := 0xfffff000.
Definition MIPS_KSEG0 : Z := 0x80000000.
Definition USERTOP : Z := MIPS_KSEG0.
Definition USERSTACK : Z := USERTOP.
Definition PADDR_TO_KVADDR (paddr : Z) : Z := u32 (paddr + MIPS_KSEG0).

(** [firstfree] is set by start.S. *)
Record ram : Type := mk_ram { firstfree : Z; firstpaddr : Z; lastpaddr : Z }.

(** [ramsize] is what [mips_ramsize] reads from the bus controller. *)
Definition ram_bootstrap (ramsize : Z) : M ram unit :=
  let! s := get in
  put (mk_ram (firstfree s) (u32 (firstfree s - MIPS_KSEG0))
         (if 508 * 1024 * 1024 <? ramsize then 508 * 1024 * 1024 else ramsize)).

Definition ram_stealmem (npages : Z) : M ram Z :=
  let! s := get in
  let size := u32 (npages * PAGE_SIZE) in
  if lastpaddr s <? u32 (firstpaddr s + size) then ret 0
  else
    do! put (mk_ram (firstfree s) (u32 (firstpaddr s + size)) (lastpaddr s)) in
    ret (firstpaddr s).

(** The two results are the new [*lo] and [*hi]. *)
Definition ram_getsize : M ram (Z * Z) :=
  let! s := get in
  do! put (mk_ram (firstfree s) 0 0) in
  ret (firstpaddr s, lastpaddr s).

Definition getppages (npages : Z) : M ram Z := ram_stealmem npages.

(** The number of pages is an [int] on its way. *)
Definition ram_alloc_kpages (npages : Z) : M ram Z :=
  let! pa := getppages (u32 (s32 npages)) in
  if pa =? 0 then ret 0 else ret (PADDR_TO_KVADDR pa).

Definition ram_free_kpages (addr : Z) : M ram unit := ret tt.

(** ** What the heap counts on *)

(** [n] pages from [a] and [m] pages from [b] have none in common. *)
Definition apart (a n b m : Z) : Prop := a + n * PAGE_SIZE <= b \/ b + m * PAGE_SIZE <= a.

(** A run of pages the kernel can address. *)
Definition run_ok (a n : Z) : Prop :=
  a mod PAGE_SIZE = 0 /\ MIPS_KSEG0 < a /\ 0 < n /\ a + n * PAGE_SIZE <= MIPS_KSEG0 + 2 ^ 29.

Class PageLayer (P : Type) : Type := {
  alloc_kpages : Z -> M P Z;
  free_kpages : Z -> M P unit;
  pl_runs : P -> gmap Z Z -> Prop;   (* the runs that are out: address, pages *)
}.

Class PageLaws {P : Type} (Pl : PageLayer P) : Prop := {
  pl_ok_law p runs a n : pl_runs p runs -> runs !! a = Some n -> run_ok a n;
  pl_apart_law p runs a n b m :
    pl_runs p runs -> runs !! a = Some n -> runs !! b = Some m -> a <> b -> apart a n b m;
  pl_alloc_law p runs n : pl_runs p runs -> 0 < n <= 2 ^ 19 ->
    exists a p', alloc_kpages n p = Done a p' /\
    if a =? 0 then pl_runs p' runs
    else runs !! a = None /\ pl_runs p' (<[a := n]> runs);
  pl_free_law p runs a n : pl_runs p runs -> runs !! a = Some n ->
    exists p', free_kpages a p = Done tt p' /\ pl_runs p' (delete a runs);
}.

(** ** The stealing allocator keeps the laws *)

#[export] Instance ram_pages : PageLayer ram := {
  alloc_kpages := ram_alloc_kpages;
  free_kpages := ram_free_kpages;
  pl_runs s runs :=
    firstpaddr s mod PAGE_SIZE = 0 /\ 0 < firstpaddr s <= 2 ^ 29 /\ 0 <= lastpaddr s <= 2 ^ 29 /\
    (forall a n, runs !! a = Some n -> run_ok a n /\ a + n * PAGE_SIZE <= MIPS_KSEG0 + firstpaddr s) /\
    (forall a n b m, runs !! a = Some n -> runs !! b = Some m -> a <> b -> apart a n b m);
}.

Lemma stealmem_fits s n :
  0 < n <= 2 ^ 19 -> 0 < firstpaddr s <= 2 ^ 29 -> 0 <= lastpaddr s <= 2 ^ 29 ->
  ram_stealmem n s =
    if lastpaddr s <? firstpaddr s + n * PAGE_SIZE then Done 0 s
    else Done (firstpaddr s) (mk_ram (firstfree s) (firstpaddr s + n * PAGE_SIZE) (lastpaddr s)).
Proof.
  intros Hn Hf Hl. unfold ram_stealmem, PAGE_SIZE. simpl_m. rewrite (u32_id (n * 4096)) by (unfold is_u32; lia).
  rewrite u32_id by (unfold is_u32; lia). by destruct (lastpaddr s <? _).
Qed.

#[export] Instance ram_laws : PageLaws ram_pages.
Proof.
  split.
  - intros p runs a n (_ & _ & _ & Hr & _) Ha. by apply Hr.
  - intros p runs a n b m (_ & _ & _ & _ & Hd). apply Hd.
  - intros p runs n (Hal & Hf & Hl & Hr & Hd) Hn. simpl. unfold ram_alloc_kpages, getppages, bind.
    rewrite s32_id by (unfold is_s32; lia). rewrite u32_id by (unfold is_u32; lia).
    rewrite stealmem_fits by done. destruct (Z.ltb_spec (lastpaddr p) (firstpaddr p + n * PAGE_SIZE)) as [|Hfit].
    { exists 0, p. done. }
    destruct (Z.eqb_spec (firstpaddr p) 0); [lia|]. unfold PADDR_TO_KVADDR, MIPS_KSEG0, PAGE_SIZE in *.
    rewrite u32_id by (unfold is_u32; lia).
    eexists _, _. split; [reflexivity|]. destruct (Z.eqb_spec (firstpaddr p + 0x80000000) 0); [lia|]. simpl.
    assert (forall a m, runs !! a = Some m -> a + m * 4096 <= 0x80000000 + firstpaddr p /\ 0 < m) as Hlow
      by (intros a m Ha; destruct (Hr a m Ha) as [(_ & _ & Hm & _) Ht]; auto).
    split; [destruct (runs !! _) as [m|] eqn:Ha; [|done]; apply Hlow in Ha; lia|].
    split; [rewrite Z.mod_add by lia; done|]. split; [lia|]. split; [lia|]. split.
    + intros a m [[<- <-]|[Hne Ha]]%lookup_insert_Some.
      * split; [|lia]. unfold run_ok, PAGE_SIZE, MIPS_KSEG0. split; [|lia].
        replace (firstpaddr p + 0x80000000) with (firstpaddr p + 524288 * 4096) by lia. by rewrite Z.mod_add by lia.
      * destruct (Hr a m Ha) as [Hok Ht]. split; [done|lia].
    + intros a m b k [[<- <-]|[Hne Ha]]%lookup_insert_Some [[<- <-]|[Hne' Hb]]%lookup_insert_Some Hab; [done| | |by apply Hd].
      * right. apply Hlow in Hb. unfold PAGE_SIZE. lia.
      * left. apply Hlow in Ha. unfold PAGE_SIZE. lia.
  - intros p runs a n (Hal & Hf & Hl & Hr & Hd) Ha. exists p. split; [done|]. simpl. split_and!; try done || lia.
    + intros b m [_ Hb]%lookup_delete_Some. by apply Hr.
    + intros b m c k [_ Hb]%lookup_delete_Some [_ Hc]%lookup_delete_Some. by apply Hd.
Qed.

(** After start.S and [ram_bootstrap] nothing is out. *)
Lemma bootstrap_no_runs first p l ramsize :
  first mod PAGE_SIZE = 0 -> MIPS_KSEG0 < first <= MIPS_KSEG0 + 2 ^ 29 -> 0 <= ramsize ->
  exists s, ram_bootstrap ramsize (mk_ram first p l) = Done tt s /\ pl_runs s ∅.
Proof.
  intros Hm Hf Hr. unfold MIPS_KSEG0, PAGE_SIZE in *. eexists. split; [reflexivity|]. simpl.
  unfold MIPS_KSEG0, PAGE_SIZE. rewrite u32_id by (unfold is_u32; lia). split.
  - replace (first - 0x80000000) with (first + (-524288) * 4096) by lia. by rewrite Z.mod_add by lia.
  - split; [lia|]. split; [destruct (Z.ltb_spec (508 * 1024 * 1024) ramsize); lia|].
    split; intros ?; intros; by rewrite lookup_empty in *.
Qed.
