(* ===== verification/Kheap.v ===== *)
(** * The kernel heap (kern/lib/kheap.c).

    Small blocks are cut from pages of blocks of one size; each page has a [pageref]
    with the head of its free list, which is linked through the first word of each free
    block. Pointers to pagerefs are indices of [pagerefs]; [kmem] holds the words of
    kernel memory that have been written, by address. The functions turn interrupts off
    while they run and back afterwards; here each is one step. The consistency checks
    under [SLOW] are not compiled in, and [kheap_printstats] only prints. *)

From stdpp Require Import base numbers list gmap.
From Stdlib Require Import ZArith Lia.
From S2P Require Import Prelude Ram.

Definition NSIZES : Z := 8.
Definition sizes : list Z := [16; 32; 64; 128; 256; 512; 1024; 2048].
Definition LARGEST_SUBPAGE_SIZE : Z := 2048.
Definition INVALID_OFFSET : Z := 0xffff.

Record pageref : Type := mk_pageref {
  next_samesize : option Z;
  next_all : option Z;
  pageaddr_and_blocktype : Z;
  freelist_offset : Z;
  nfree : Z;
}.

Definition PR_PAGEADDR (pr : pageref) : Z := Z.land (pageaddr_and_blocktype pr) PAGE_FRAME.
Definition PR_BLOCKTYPE (pr : pageref) : Z := Z.land (pageaddr_and_blocktype pr) (u32 (Z.lnot PAGE_FRAME)).
Definition MKPAB (pa blk : Z) : Z := Z.lor (Z.land pa PAGE_FRAME) (Z.land blk (u32 (Z.lnot PAGE_FRAME))).

Definition NPAGEREFS : Z := PAGE_SIZE / 16.
Definition INUSE_WORDS : Z := NPAGEREFS / 32.

Section kheap.
Context {P : Type} `{PageLayer P}.

Record heap : Type := mk_heap {
  pagerefs : list pageref;
  pagerefs_inuse : list Z;
  sizebases : list (option Z);
  allbase : option Z;
  kmem : gmap Z Z;
  hpages : P;
}.

Definition set_pagerefs (l : list pageref) (h : heap) : heap :=
  mk_heap l (pagerefs_inuse h) (sizebases h) (allbase h) (kmem h) (hpages h).
Definition set_inuse (l : list Z) (h : heap) : heap :=
  mk_heap (pagerefs h) l (sizebases h) (allbase h) (kmem h) (hpages h).
Definition set_sizebases (l : list (option Z)) (h : heap) : heap :=
  mk_heap (pagerefs h) (pagerefs_inuse h) l (allbase h) (kmem h) (hpages h).
Definition set_allbase (b : option Z) (h : heap) : heap :=
  mk_heap (pagerefs h) (pagerefs_inuse h) (sizebases h) b (kmem h) (hpages h).
Definition set_kmem (m : gmap Z Z) (h : heap) : heap :=
  mk_heap (pagerefs h) (pagerefs_inuse h) (sizebases h) (allbase h) m (hpages h).
Definition set_hpages (p : P) (h : heap) : heap :=
  mk_heap (pagerefs h) (pagerefs_inuse h) (sizebases h) (allbase h) (kmem h) p.

(** The static variables before the first call. *)
Definition empty_heap (p : P) : heap :=
  mk_heap (replicate 256 (mk_pageref None None 0 0 0)) (replicate 8 0) (replicate 8 None) None ∅ p.

Definition on_pages {A} (m : M P A) : M heap A := zoom hpages set_hpages m.

Definition load (a : Z) : M heap Z := let! h := get in of_option (kmem h !! a).
Definition store (a w : Z) : M heap unit := let! h := get in put (set_kmem (<[a := w]> (kmem h)) h).

Definition get_pageref (i : Z) : M heap pageref := let! h := get in of_option (nthZ (pagerefs h) i).
Definition put_pageref (i : Z) (pr : pageref) : M heap unit :=
  let! h := get in put (set_pagerefs (setZ (pagerefs h) i pr) h).
Definition get_inuse (i : Z) : M heap Z := let! h := get in of_option (nthZ (pagerefs_inuse h) i).
Definition put_inuse (i w : Z) : M heap unit :=
  let! h := get in put (set_inuse (setZ (pagerefs_inuse h) i w) h).

Definition size_of_type (b : Z) : M heap Z := of_option (nthZ sizes b).

(** [len / sizeof(u_int32_t)] words. *)
Definition fill_deadbeef (vptr len : Z) : M heap unit :=
  let! _ := iterate (Z.to_nat (len / 4)) 0 (fun i =>
    do! store (vptr + i * 4) 0xdeadbeef in ret (None (A := unit))) in
  ret tt.

(** ** The table of pagerefs *)

Definition allocpageref : M heap (option Z) :=
  iterate (Z.to_nat INUSE_WORDS) 0 (fun i =>
    let! w := get_inuse i in
    if w =? 0xffffffff then ret None
    else
      let! r := iterate 32 0 (fun j =>
        let! w := get_inuse i in
        let k := 2 ^ j in
        if Z.land w k =? 0 then
          do! put_inuse i (Z.lor w k) in
          ret (Some (i * 32 + j))
        else ret None) in
      match r with Some p => ret (Some p) | None => panic end).

Definition freepageref (j : Z) : M heap unit :=
  do! assert_ (j <? NPAGEREFS) in
  let i := j / 32 in
  let k := 2 ^ (j mod 32) in
  let! w := get_inuse i in
  do! assert_ (negb (Z.land w k =? 0)) in
  put_inuse i (Z.land w (Z.lnot k)).

(** ** The lists of pagerefs *)

(** A list of pages: where its head is, and the field that links it. *)
Record chain : Type := mk_chain {
  ch_head : M heap (option Z);
  ch_set_head : option Z -> M heap unit;
  ch_next : pageref -> option Z;
  ch_set_next : option Z -> pageref -> pageref;
}.

Definition samesize (b : Z) : chain :=
  mk_chain
    (let! h := get in of_option (nthZ (sizebases h) b))
    (fun p => let! h := get in put (set_sizebases (setZ (sizebases h) b p) h))
    next_samesize
    (fun p pr => mk_pageref p (next_all pr) (pageaddr_and_blocktype pr) (freelist_offset pr) (nfree pr)).
Definition all_pages : chain :=
  mk_chain
    (let! h := get in ret (allbase h))
    (fun p => let! h := get in put (set_allbase p h))
    next_all
    (fun p pr => mk_pageref (next_samesize pr) p (pageaddr_and_blocktype pr) (freelist_offset pr) (nfree pr)).

(** What [guy] points to: the head of the list or the link in a pageref. *)
Definition read_link (c : chain) (guy : option Z) : M heap (option Z) :=
  match guy with
  | None => ch_head c
  | Some i => let! pr := get_pageref i in ret (ch_next c pr)
  end.
Definition write_link (c : chain) (guy : option Z) (p : option Z) : M heap unit :=
  match guy with
  | None => ch_set_head c p
  | Some i => let! pr := get_pageref i in put_pageref i (ch_set_next c p pr)
  end.

Fixpoint remove_from (fuel : nat) (c : chain) (guy : option Z) (pr : Z) : M heap unit :=
  let! cur := read_link c guy in
  match cur with
  | None => ret tt
  | Some g =>
      if g =? pr then
        let! x := get_pageref pr in
        write_link c guy (ch_next c x)
      else match fuel with
           | O => out_of_fuel
           | S fuel => remove_from fuel c (Some g) pr
           end
  end.

Definition remove_lists (pr blktype : Z) : M heap unit :=
  do! assert_ ((0 <=? blktype) && (blktype <? NSIZES)) in
  do! remove_from (Z.to_nat NPAGEREFS) (samesize blktype) None pr in
  remove_from (Z.to_nat NPAGEREFS) all_pages None pr.

Definition push_front (c : chain) (pr : Z) : M heap unit :=
  let! b := ch_head c in
  let! x := get_pageref pr in
  do! put_pageref pr (ch_set_next c b x) in
  ch_set_head c (Some pr).

(** ** Small blocks *)

Definition blocktype (sz : Z) : M heap Z :=
  let! r := iterate (Z.to_nat NSIZES) 0 (fun i =>
    let! s := size_of_type i in
    ret (if sz <=? s then Some i else None)) in
  match r with Some i => ret i | None => panic end.

(** The first page of the list with a free block. *)
Fixpoint find_free (fuel : nat) (blktype : Z) (pr : option Z) : M heap (option Z) :=
  match pr with
  | None => ret None
  | Some i =>
      let! x := get_pageref i in
      do! assert_ (PR_BLOCKTYPE x =? blktype) in
      if 0 <? nfree x then ret (Some i)
      else match fuel with
           | O => out_of_fuel
           | S fuel => find_free fuel blktype (next_samesize x)
           end
  end.

(** From the label [doalloc] on. *)
Definition doalloc (pr : Z) : M heap Z :=
  let! x := get_pageref pr in
  do! assert_ (freelist_offset x <? PAGE_SIZE) in
  let prpage := PR_PAGEADDR x in
  let fla := u32 (prpage + freelist_offset x) in
  let! fl := load fla in
  let n := u16 (nfree x - 1) in
  if negb (fl =? 0) then
    do! assert_ (0 <? n) in
    do! assert_ (u32 (fl - prpage) <? PAGE_SIZE) in
    do! put_pageref pr (mk_pageref (next_samesize x) (next_all x) (pageaddr_and_blocktype x) (u16 (u32 (fl - prpage))) n) in
    ret fla
  else
    do! assert_ (n =? 0) in
    do! put_pageref pr (mk_pageref (next_samesize x) (next_all x) (pageaddr_and_blocktype x) INVALID_OFFSET n) in
    ret fla.

(** Linking the blocks of a fresh page, from the first to the last. *)
Definition link_blocks (prpage size n : Z) : M heap unit :=
  do! store prpage 0 in
  let! _ := iterate (Z.to_nat (n - 1)) 1 (fun i =>
    let fl := u32 (prpage + i * size) in
    let next := u32 (prpage + (i - 1) * size) in
    do! store fl next in
    do! assert_ (negb (fl =? next)) in
    ret (None (A := unit))) in
  ret tt.

(** A fresh page of blocks of the type; [None] when there is no room for it. *)
Definition fresh_page (blktype : Z) : M heap (option Z) :=
  let! pr := allocpageref in
  match pr with
  | None => ret None
  | Some pr =>
      let! prpage := on_pages (alloc_kpages 1) in
      if prpage =? 0 then
        do! freepageref pr in
        ret None
      else
        let! size := size_of_type blktype in
        let! x := get_pageref pr in
        let n := u16 (PAGE_SIZE / size) in
        do! put_pageref pr (mk_pageref (next_samesize x) (next_all x) (MKPAB prpage blktype) (freelist_offset x) n) in
        do! link_blocks prpage size n in
        let fla := u32 (prpage + (n - 1) * size) in
        let! x := get_pageref pr in
        do! put_pageref pr (mk_pageref (next_samesize x) (next_all x) (pageaddr_and_blocktype x) (u16 (u32 (fla - prpage))) (nfree x)) in
        do! assert_ (u16 (u32 (fla - prpage)) =? u32 ((n - 1) * size)) in
        do! push_front (samesize blktype) pr in
        do! push_front all_pages pr in
        ret (Some pr)
  end.

(** 0 is NULL. *)
Definition subpage_kmalloc (sz : Z) : M heap Z :=
  let! blktype := blocktype sz in
  let! base := ch_head (samesize blktype) in
  let! found := find_free (Z.to_nat NPAGEREFS) blktype base in
  match found with
  | Some pr => doalloc pr
  | None =>
      let! pr := fresh_page blktype in
      match pr with
      | None => ret 0
      | Some pr => doalloc pr
      end
  end.

(** The page [ptraddr] is on. *)
Fixpoint find_page (fuel : nat) (ptraddr : Z) (pr : option Z) : M heap (option Z) :=
  match pr with
  | None => ret None
  | Some i =>
      let! x := get_pageref i in
      do! assert_ ((0 <=? PR_BLOCKTYPE x) && (PR_BLOCKTYPE x <? NSIZES)) in
      if (PR_PAGEADDR x <=? ptraddr) && (ptraddr <? u32 (PR_PAGEADDR x + PAGE_SIZE)) then ret (Some i)
      else match fuel with
           | O => out_of_fuel
           | S fuel => find_page fuel ptraddr (next_all x)
           end
  end.

(** False: not a block of ours ([-1]). *)
Definition subpage_kfree (ptraddr : Z) : M heap bool :=
  let! base := ch_head all_pages in
  let! found := find_page (Z.to_nat NPAGEREFS) ptraddr base in
  match found with
  | None => ret false
  | Some pr =>
      let! x := get_pageref pr in
      let prpage := PR_PAGEADDR x in
      let blktype := PR_BLOCKTYPE x in
      let! size := size_of_type blktype in
      let offset := u32 (ptraddr - prpage) in
      if (PAGE_SIZE <=? offset) || negb (offset mod size =? 0) then panic
      else
        do! fill_deadbeef ptraddr size in
        do! store (u32 (prpage + offset))
              (if freelist_offset x =? INVALID_OFFSET then 0 else u32 (prpage + freelist_offset x)) in
        let n := u16 (nfree x + 1) in
        do! put_pageref pr (mk_pageref (next_samesize x) (next_all x) (pageaddr_and_blocktype x) (u16 offset) n) in
        do! assert_ (n <=? PAGE_SIZE / size) in
        do! (if n =? PAGE_SIZE / size then
               do! remove_lists pr blktype in
               do! on_pages (free_kpages prpage) in
               freepageref pr
             else ret tt) in
        ret true
  end.

(** ** All blocks *)

Definition kmalloc (sz : Z) : M heap Z :=
  if LARGEST_SUBPAGE_SIZE <=? sz then
    let npages := u32 (sz + PAGE_SIZE - 1) / PAGE_SIZE in
    on_pages (alloc_kpages npages)
  else subpage_kmalloc sz.

Definition kfree (ptr : Z) : M heap unit :=
  if ptr =? 0 then ret tt
  else
    let! b := subpage_kfree ptr in
    if b then ret tt
    else
      do! assert_ (ptr mod PAGE_SIZE =? 0) in
      on_pages (free_kpages ptr).
End kheap.
Arguments heap : clear implicits.
