(* ===== verification/KheapPages.v ===== *)
(** * The pages of the kernel heap.

    [heap_ok] says how the pagerefs, their two kinds of list, the bitmap of pagerefs in
    use and the free lists in memory stand for a list of pages; what the functions of
    kheap.c that work on pages do to it. *)

From stdpp Require Import base numbers list gmap.
From Stdlib Require Import ZArith Lia.
From S2P Require Import Prelude Ram Kheap.

(** ** Words *)

Lemma land_frame x : is_u32 x -> Z.land x PAGE_FRAME = x - x mod PAGE_SIZE.
Proof.
  intros Hx. unfold is_u32, PAGE_SIZE in *.
  assert (x - x mod 4096 = Z.shiftl (Z.shiftr x 12) 12) as ->.
  { rewrite Z.shiftl_mul_pow2, Z.shiftr_div_pow2 by lia. change (2 ^ 12) with 4096.
    pose proof (Z.div_mod x 4096 ltac:(lia)). lia. }
  apply Z.bits_inj'. intros n Hn. rewrite Z.land_spec.
  destruct (Z.ltb_spec n 12).
  - rewrite Z.shiftl_spec_low by lia. replace PAGE_FRAME with (Z.shiftl (Z.ones 20) 12) by done.
    rewrite Z.shiftl_spec_low by lia. apply andb_false_r.
  - rewrite Z.shiftl_spec, Z.shiftr_spec by lia. replace (n - 12 + 12) with n by lia.
    destruct (Z.ltb_spec n 32).
    + replace PAGE_FRAME with (Z.shiftl (Z.ones 20) 12) by done. rewrite Z.shiftl_spec by lia.
      rewrite Z.ones_spec_low by lia. apply andb_true_r.
    + rewrite (bits_above 32 x n) by lia. done.
Qed.

Lemma land_low x : 0 <= x -> Z.land x (u32 (Z.lnot PAGE_FRAME)) = x mod PAGE_SIZE.
Proof. intros Hx. change (u32 (Z.lnot PAGE_FRAME)) with (Z.ones 12). by rewrite Z.land_ones by lia. Qed.

Lemma MKPAB_sum pa b : is_u32 pa -> pa mod PAGE_SIZE = 0 -> 0 <= b < PAGE_SIZE -> MKPAB pa b = pa + b.
Proof.
  intros Hpa Hm Hb. unfold MKPAB. rewrite land_frame, land_low by (done || lia).
  rewrite Hm, Z.sub_0_r, (Z.mod_small b) by done.
  assert (Z.land pa b = 0) as Hl.
  { rewrite <- (Z.mod_small b PAGE_SIZE), <- land_low by (lia || done). rewrite Z.land_assoc, (Z.land_comm pa b), <- Z.land_assoc.
    rewrite land_low, Hm by (unfold is_u32 in Hpa; lia). apply Z.land_0_r. }
  rewrite Z.add_nocarry_lxor by done. by rewrite Z.lxor_lor.
Qed.

(** ** Pages *)

Record page : Type := mk_page {
  pg_ref : Z;          (* index of its pageref *)
  pg_addr : Z;
  pg_type : Z;
  pg_free : list Z;    (* offsets of the free blocks, in the order of the free list *)
}.

Definition psize (b : Z) : Z := default 16 (nthZ sizes b).
Definition nblocks (b : Z) : Z := PAGE_SIZE / psize b.

(** All that is needed of the block sizes. *)
Lemma psize_facts b : 0 <= b < NSIZES ->
  nthZ sizes b = Some (psize b) /\ 16 <= psize b <= 2048 /\ psize b * nblocks b = PAGE_SIZE /\ psize b mod 16 = 0.
Proof.
  intros Hb. unfold NSIZES in Hb.
  assert (b = 0 \/ b = 1 \/ b = 2 \/ b = 3 \/ b = 4 \/ b = 5 \/ b = 6 \/ b = 7) as Hc by lia.
  decompose [or] Hc; subst; (split; [reflexivity|]); (split; [split; intros; discriminate|]); split; reflexivity.
Qed.

(** The free list in memory. *)
Fixpoint linked (m : gmap Z Z) (a : Z) (l : list Z) : Prop :=
  match l with
  | [] => True
  | o :: l' => m !! (a + o) = Some (match l' with [] => 0 | o' :: _ => a + o' end) /\ linked m a l'
  end.

Definition head_offset (l : list Z) : Z := match l with [] => INVALID_OFFSET | o :: _ => o end.

(** [o] is the offset of a block. *)
Definition block_at (b o : Z) : Prop := 0 <= o < PAGE_SIZE /\ o mod psize b = 0.

Record ref_ok (x : pageref) (g : page) : Prop := {
  ro_pab : pageaddr_and_blocktype x = pg_addr g + pg_type g;
  ro_offset : freelist_offset x = head_offset (pg_free g);
  ro_nfree : nfree x = lenZ (pg_free g);
}.

Record page_ok (prs : list pageref) (m : gmap Z Z) (g : page) : Prop := {
  po_run : run_ok (pg_addr g) 1;
  po_type : 0 <= pg_type g < NSIZES;
  po_ref : exists x, nthZ prs (pg_ref g) = Some x /\ ref_ok x g;
  po_nodup : NoDup (pg_free g);
  po_blocks : forall o, o ∈ pg_free g -> block_at (pg_type g) o;
  po_linked : linked m (pg_addr g) (pg_free g);
}.

Lemma linked_ext m m' a l : (forall o, o ∈ l -> m' !! (a + o) = m !! (a + o)) -> linked m a l -> linked m' a l.
Proof.
  induction l as [|o l IH]; [done|]. intros He [Ho Hl]. split.
  - rewrite He; [done|left].
  - apply IH; [|done]. intros o' Ho'. apply He. by right.
Qed.

(** The offsets of all blocks. *)
Definition all_blocks (b : Z) : list Z := (fun i => i * psize b) <$> seqZ 0 (nblocks b).

Lemma nblocks_facts b : 0 <= b < NSIZES -> 2 <= nblocks b <= 256.
Proof. intros Hb. destruct (psize_facts b Hb) as (_ & Hs & Hm & _). unfold PAGE_SIZE in *. nia. Qed.

Lemma all_blocks_spec b o : 0 <= b < NSIZES -> o ∈ all_blocks b <-> block_at b o.
Proof.
  intros Hb. destruct (psize_facts b Hb) as (_ & Hs & Hm & _). unfold all_blocks, block_at.
  rewrite list_elem_of_fmap. split.
  - intros (i & -> & Hi). rewrite elem_of_seqZ in Hi. split; [nia|]. apply Z.mod_mul. lia.
  - intros [Ho Hz]. exists (o / psize b). split.
    + pose proof (Z.div_mod o (psize b) ltac:(lia)). lia.
    + rewrite elem_of_seqZ. split; [apply Z.div_pos; lia|]. apply Z.div_lt_upper_bound; lia.
Qed.

Lemma all_blocks_length b : 0 <= b < NSIZES -> lenZ (all_blocks b) = nblocks b.
Proof.
  intros Hb. pose proof (nblocks_facts b Hb). unfold lenZ, all_blocks. rewrite length_fmap, length_seqZ. lia.
Qed.

Lemma blocks_at_most b l : 0 <= b < NSIZES -> NoDup l -> (forall o, o ∈ l -> block_at b o) -> lenZ l <= nblocks b.
Proof.
  intros Hb Hn Hl. rewrite <- all_blocks_length by done. unfold lenZ. apply inj_le.
  apply submseteq_length, NoDup_submseteq; [done|]. intros o Ho. apply all_blocks_spec; auto.
Qed.

Lemma blocks_all_there b l : 0 <= b < NSIZES -> NoDup l -> (forall o, o ∈ l -> block_at b o) -> lenZ l = nblocks b ->
  forall o, block_at b o -> o ∈ l.
Proof.
  intros Hb Hn Hl He o Ho. rewrite <- all_blocks_length in He by done. unfold lenZ in He.
  assert (l ≡ₚ all_blocks b) as ->; [|by apply all_blocks_spec].
  apply submseteq_length_Permutation; [|lia].
  apply NoDup_submseteq; [done|]. intros o' Ho'. apply all_blocks_spec; auto.
Qed.

(** ** Lists of pages *)

Fixpoint chain_from (next : pageref -> option Z) (prs : list pageref) (p : option Z) (l : list Z) : Prop :=
  match l with
  | [] => p = None
  | i :: l' => p = Some i /\ exists x, nthZ prs i = Some x /\ chain_from next prs (next x) l'
  end.

(** Changing pagerefs that are not on the list, or not their links. *)
Lemma chain_ext next prs prs' p l :
  (forall i x, i ∈ l -> nthZ prs i = Some x -> exists x', nthZ prs' i = Some x' /\ next x' = next x) ->
  chain_from next prs p l -> chain_from next prs' p l.
Proof.
  revert p. induction l as [|i l IH]; intros p He; [done|]. intros (-> & x & Hx & Hc). split; [done|].
  destruct (He i x ltac:(left) Hx) as (x' & Hx' & Hn). exists x'. split; [done|]. rewrite Hn.
  apply IH; [|done]. intros j y Hj. apply He. by right.
Qed.

Lemma nthZ_setZ_Some {A} (l : list A) i j x y z :
  nthZ l i = Some x -> nthZ l j = Some z -> nthZ (setZ l i y) j = Some (if decide (j = i) then y else z).
Proof.
  intros Hi Hj. destruct (decide (j = i)) as [->|].
  - apply nthZ_setZ_eq. by eapply nthZ_Some_lt.
  - by rewrite nthZ_setZ_ne by done.
Qed.

Lemma chain_set next prs p l i x x' :
  nthZ prs i = Some x -> next x' = next x -> chain_from next prs p l -> chain_from next (setZ prs i x') p l.
Proof.
  intros Hi Hn. apply chain_ext. intros j y _ Hy. rewrite (nthZ_setZ_Some _ _ _ x _ y) by done.
  eexists. split; [done|]. destruct (decide (j = i)) as [->|]; [|done]. congruence.
Qed.

(** ** The bitmap of pagerefs *)

Record inuse_ok (ws : list Z) (refs : list Z) : Prop := {
  iu_len : lenZ ws = INUSE_WORDS;
  iu_word : forall k w, nthZ ws k = Some w -> is_u32 w;
  iu_bit : forall i w, nthZ ws (i / 32) = Some w -> Z.testbit w (i mod 32) = true <-> i ∈ refs;
}.

Lemma ref_word i : 0 <= i < NPAGEREFS -> 0 <= i / 32 < INUSE_WORDS /\ 0 <= i mod 32 < 32 /\ i = i / 32 * 32 + i mod 32.
Proof.
  change NPAGEREFS with 256. change INUSE_WORDS with 8. intros Hi. pose proof (Z.div_mod i 32 ltac:(lia)).
  pose proof (Z.mod_pos_bound i 32). lia.
Qed.

(** The blocks of a fresh page, the last one first. *)
Fixpoint down (s : Z) (n : nat) : list Z := match n with O => [] | S n => Z.of_nat n * s :: down s n end.

Lemma elem_of_down s n o : o ∈ down s n <-> exists k, (k < n)%nat /\ o = Z.of_nat k * s.
Proof.
  induction n as [|n IH]; simpl.
  - rewrite elem_of_nil. split; [done|]. intros (k & Hk & _). lia.
  - rewrite elem_of_cons, IH. split.
    + intros [->|(k & Hk & ->)]; [by exists n; split; [lia|]|by exists k; split; [lia|]].
    + intros (k & Hk & ->). destruct (decide (k = n)) as [->|]; [by left|]. right. by exists k; split; [lia|].
Qed.

Lemma length_down s n : length (down s n) = n.
Proof. induction n; simpl; congruence. Qed.

Lemma NoDup_down s n : 0 < s -> NoDup (down s n).
Proof.
  intros Hs. induction n as [|n IH]; simpl; [constructor|]. constructor; [|done].
  rewrite elem_of_down. intros (k & Hk & He). nia.
Qed.

Lemma down_blocks b o : 0 <= b < NSIZES -> o ∈ down (psize b) (Z.to_nat (nblocks b)) -> block_at b o.
Proof.
  intros Hb (k & Hk & ->)%elem_of_down. destruct (psize_facts b Hb) as (_ & Hs & Hm & _). split; [nia|].
  apply Z.mod_mul. lia.
Qed.

Lemma nthZ_elem {A} (l : list A) i x : nthZ l i = Some x -> x ∈ l.
Proof.
  intros Hx. pose proof (nthZ_Some_lt _ _ _ Hx). rewrite nthZ_to_nat in Hx by lia. by eapply list_elem_of_lookup_2.
Qed.

Section heap.
Context {P : Type} {Pl : PageLayer P} {Laws : PageLaws Pl}.
Notation heap := (heap P).

(** Changing bit [i mod 32] of word [i / 32] only. *)
Lemma inuse_set ws refs refs' i w w' :
  inuse_ok ws refs -> 0 <= i < NPAGEREFS -> nthZ ws (i / 32) = Some w -> is_u32 w' ->
  (forall k, 0 <= k -> k <> i mod 32 -> Z.testbit w' k = Z.testbit w k) ->
  (Z.testbit w' (i mod 32) = true <-> i ∈ refs') -> (forall j, j <> i -> j ∈ refs' <-> j ∈ refs) ->
  inuse_ok (setZ ws (i / 32) w') refs'.
Proof.
  intros [Hl Hw Hb] Hi Hn Hw' Hsame Hbit Hrefs. destruct (ref_word i Hi) as (Hk & Hm & He). split.
  - by rewrite lenZ_setZ.
  - intros k v Hv. destruct (decide (k = i / 32)) as [->|Hne].
    + rewrite nthZ_setZ_eq in Hv by lia. by injection Hv as <-.
    + rewrite nthZ_setZ_ne in Hv by done. by eapply Hw.
  - intros j v Hv. destruct (decide (j = i)) as [->|Hne].
    + rewrite nthZ_setZ_eq in Hv by lia. by injection Hv as <-.
    + rewrite Hrefs by done. destruct (decide (j / 32 = i / 32)) as [Heq|Hdif].
      * rewrite Heq, nthZ_setZ_eq in Hv by lia. injection Hv as <-. rewrite Hsame.
        -- apply Hb. by rewrite Heq.
        -- apply Z.mod_pos_bound. lia.
        -- pose proof (Z.div_mod j 32 ltac:(lia)). lia.
      * rewrite nthZ_setZ_ne in Hv by done. by apply Hb.
Qed.

Lemma allocpageref_ok (h : heap) refs :
  inuse_ok (pagerefs_inuse h) refs ->
  wp allocpageref (fun r h' => match r with
    | None => h' = h
    | Some i => 0 <= i < NPAGEREFS /\ i ∉ refs /\ exists ws, h' = set_inuse ws h /\ inuse_ok ws (i :: refs)
    end) h.
Proof.
  intros Hok. unfold allocpageref. apply wp_iterate with (I := fun _ h' => h' = h); [done| |by intros ? ->].
  intros i ? Hi ->. change (0 + Z.of_nat (Z.to_nat INUSE_WORDS)) with 8 in Hi.
  destruct (nthZ_is_Some (pagerefs_inuse h) i) as [w Hw]; [rewrite (iu_len _ _ Hok); change INUSE_WORDS with 8; lia|].
  pose proof (iu_word _ _ Hok _ _ Hw) as Hu.
  unfold get_inuse at 1. wp_steps. exists w. split; [done|].
  destruct (Z.eqb_spec w 0xffffffff) as [|Hne]; [by wp_steps|].
  wp_steps. apply wp_iterate with (I := fun j h' => h' = h /\ forall k, 0 <= k < j -> Z.testbit w k = true).
  - split; [done|]. lia.
  - intros j ? Hj [-> Hbits]. unfold get_inuse at 1. wp_steps. exists w. split; [done|].
    destruct (Z.eqb_spec (Z.land w (2 ^ j)) 0) as [Hz|Hnz].
    + unfold put_inuse. wp_steps. apply land_bit_0 in Hz; [|lia].
      assert (i * 32 + j = i * 32 + j) as Hr by done. revert Hr. generalize (i * 32 + j) at 1. intros r Hr.
      assert (r / 32 = i /\ r mod 32 = j) as [Hq Hm].
      { subst r. rewrite Z.div_add_l, Z.div_small by lia. split; [lia|].
        rewrite Z.add_comm, Z.mod_add, Z.mod_small; lia. }
      rewrite <- Hr. assert (0 <= r < NPAGEREFS) as Hrange by (change NPAGEREFS with 256; lia).
      split; [done|]. rewrite <- Hq in Hw. assert (r ∉ refs) as Hout.
      { rewrite <- (iu_bit _ _ Hok r w Hw), Hm, Hz. done. }
      split; [done|]. eexists. split; [reflexivity|]. rewrite <- Hq at 1.
      eapply inuse_set; [exact Hok|done|exact Hw| | | |].
      * apply lor_pow2_bound; [lia|exact Hu].
      * intros k Hk Hne'. rewrite testbit_lor_pow2 by lia. rewrite Hm in Hne'.
        destruct (Z.eqb_spec j k); [lia|apply orb_false_r].
      * rewrite Hm, testbit_lor_pow2, Z.eqb_refl, orb_true_r by lia. split; [left|done].
      * intros k Hk. rewrite elem_of_cons. naive_solver.
    + wp_steps. split; [done|]. intros k Hk. destruct (decide (k = j)) as [->|]; [|apply Hbits; lia].
      destruct (Z.testbit w j) eqn:Hb; [done|]. exfalso. apply Hnz. apply land_bit_0; [lia|done].
  - intros ? [-> Hbits]. exfalso. apply Hne. apply (word_all_ones 32); [exact Hu|]. intros k Hk. apply Hbits. lia.
Qed.

Lemma freepageref_ok (h : heap) refs i :
  inuse_ok (pagerefs_inuse h) refs -> 0 <= i < NPAGEREFS -> i ∈ refs ->
  wp (freepageref i) (fun _ h' => exists ws, h' = set_inuse ws h /\
    forall refs', i ∉ refs' -> (forall j, j <> i -> j ∈ refs' <-> j ∈ refs) -> inuse_ok ws refs') h.
Proof.
  intros Hok Hi Hin. destruct (ref_word i Hi) as (Hk & Hm & He).
  destruct (nthZ_is_Some (pagerefs_inuse h) (i / 32)) as [w Hw]; [rewrite (iu_len _ _ Hok); lia|].
  pose proof (iu_word _ _ Hok _ _ Hw) as Hu. pose proof (proj2 (iu_bit _ _ Hok i w Hw) Hin) as Hbit.
  unfold freepageref, get_inuse, put_inuse. wp_steps. split; [lia|]. wp_steps. exists w. split; [done|].
  wp_steps. split.
  { apply negb_true_iff, Z.eqb_neq. intros Hz. apply land_bit_0 in Hz; [congruence|lia]. }
  wp_steps. eexists. split; [reflexivity|]. intros refs' Hout Hrefs. rewrite land_lnot_pow2.
  eapply inuse_set; [exact Hok|done|exact Hw| | |rewrite testbit_ldiff_pow2, Z.eqb_refl, andb_false_r by lia; done|done].
  - apply ldiff_pow2_bound; [lia|exact Hu].
  - intros k Hk' Hne. rewrite testbit_ldiff_pow2 by lia. destruct (Z.eqb_spec (i mod 32) k); [lia|apply andb_true_r].
Qed.

(** ** The invariant *)

Definition of_type (b : Z) (gs : list page) : list page := filter (fun g => pg_type g = b) gs.

Record heap_ok (h : heap) (gs : list page) (runs : gmap Z Z) : Prop := {
  ho_runs : pl_runs (hpages h) runs;
  ho_refs : lenZ (pagerefs h) = NPAGEREFS;
  ho_bases : lenZ (sizebases h) = NSIZES;
  ho_all : chain_from next_all (pagerefs h) (allbase h) (pg_ref <$> gs);
  ho_same : forall b p, nthZ (sizebases h) b = Some p ->
    chain_from next_samesize (pagerefs h) p (pg_ref <$> of_type b gs);
  ho_nodup : NoDup (pg_ref <$> gs);
  ho_addrs : NoDup (pg_addr <$> gs);
  ho_pages : forall g, g ∈ gs -> page_ok (pagerefs h) (kmem h) g;
  ho_out : forall g, g ∈ gs -> runs !! pg_addr g = Some 1;
  ho_inuse : inuse_ok (pagerefs_inuse h) (pg_ref <$> gs);
}.

Lemma ref_range h gs runs g : heap_ok h gs runs -> g ∈ gs -> 0 <= pg_ref g < NPAGEREFS.
Proof.
  intros Ho Hg. destruct (po_ref _ _ _ (ho_pages _ _ _ Ho g Hg)) as (x & Hx & _).
  apply nthZ_Some_lt in Hx. by rewrite (ho_refs _ _ _ Ho) in Hx.
Qed.

(** Distinct pages have no address in common. *)
Lemma pages_apart h gs runs g g' :
  heap_ok h gs runs -> g ∈ gs -> g' ∈ gs -> pg_addr g <> pg_addr g' ->
  pg_addr g + PAGE_SIZE <= pg_addr g' \/ pg_addr g' + PAGE_SIZE <= pg_addr g.
Proof.
  intros Ho Hg Hg' Hne.
  pose proof (pl_apart_law _ _ _ _ _ _ (ho_runs _ _ _ Ho) (ho_out _ _ _ Ho g Hg) (ho_out _ _ _ Ho g' Hg') Hne) as Ha.
  unfold apart in Ha. lia.
Qed.

Lemma same_addr h gs runs g g' :
  heap_ok h gs runs -> g ∈ gs -> g' ∈ gs -> pg_addr g = pg_addr g' -> g = g'.
Proof.
  intros Ho Hg Hg' He. apply list_elem_of_lookup in Hg as [i Hi]. apply list_elem_of_lookup in Hg' as [j Hj].
  assert (i = j); [|congruence].
  eapply (NoDup_lookup (pg_addr <$> gs)); [apply Ho| |]; rewrite list_lookup_fmap; [by rewrite Hi|rewrite Hj; simpl; congruence].
Qed.

Lemma ref_fields x g : run_ok (pg_addr g) 1 -> 0 <= pg_type g < NSIZES -> ref_ok x g ->
  PR_PAGEADDR x = pg_addr g /\ PR_BLOCKTYPE x = pg_type g.
Proof.
  intros (Hm & Hlo & _ & Hhi) Ht [Hp _ _]. unfold PR_PAGEADDR, PR_BLOCKTYPE. rewrite Hp.
  unfold MIPS_KSEG0, PAGE_SIZE, NSIZES in *.
  assert ((pg_addr g + pg_type g) mod PAGE_SIZE = pg_type g) as Hmod.
  { unfold PAGE_SIZE. rewrite Z.add_mod, Hm, Z.add_0_l, Z.mod_mod by lia. apply Z.mod_small. lia. }
  rewrite land_low, land_frame, Hmod by (unfold is_u32; lia). lia.
Qed.

(** ** Walking the lists *)

(** The page found, and the place it has on the list. *)
Lemma find_free_ok (h : heap) gs b p fuel :
  chain_from next_samesize (pagerefs h) p (pg_ref <$> gs) ->
  (forall g, g ∈ gs -> page_ok (pagerefs h) (kmem h) g /\ pg_type g = b) ->
  (length gs <= fuel)%nat ->
  wp (find_free fuel b p) (fun r h' => h' = h /\ match r with
    | None => forall g, g ∈ gs -> pg_free g = []
    | Some i => exists g, g ∈ gs /\ i = pg_ref g /\ pg_free g <> []
    end) h.
Proof.
  revert p fuel. induction gs as [|g gs IH]; intros p fuel Hc Hp Hf; simpl in Hc.
  - subst p. destruct fuel; apply wp_ret; (split; [done|]); intros g Hg; by apply elem_of_nil in Hg.
  - destruct Hc as (-> & x & Hx & Hc). destruct (Hp g ltac:(left)) as [Hok Ht].
    destruct (po_ref _ _ _ Hok) as (x' & Hx' & Href). replace x' with x in * by congruence.
    destruct (ref_fields x g) as [_ Hb]; [apply Hok..|done|].
    assert (wp (find_free fuel b (Some (pg_ref g))) = wp (let! x := get_pageref (pg_ref g) in
      do! assert_ (PR_BLOCKTYPE x =? b) in
      if 0 <? nfree x then ret (Some (pg_ref g))
      else match fuel with O => out_of_fuel | S fuel => find_free fuel b (next_samesize x) end)) as -> by by destruct fuel.
    unfold get_pageref. wp_steps. exists x. split; [done|]. wp_steps. split; [lia|].
    rewrite (ro_nfree _ _ Href). destruct (pg_free g) as [|o l] eqn:Hfree.
    + simpl. destruct fuel as [|fuel]; [simpl in Hf; lia|].
      eapply wp_mono; [apply IH; [done| |simpl in Hf; lia]|].
      * intros g' Hg'. apply Hp. by right.
      * intros r h' [-> Hr]. split; [done|]. destruct r as [i|].
        -- destruct Hr as (g' & Hg' & Hr). exists g'. split; [by right|done].
        -- intros g' [->|Hg']%elem_of_cons; auto.
    + destruct (Z.ltb_spec 0 (lenZ (o :: l))) as [_|Hlen]; [|unfold lenZ in Hlen; simpl in Hlen; lia]. apply wp_ret. split; [done|].
      exists g. split; [left|]. by rewrite Hfree.
Qed.

(** Is [a] an address of the page? *)
Definition on_page (a : Z) (g : page) : Prop := pg_addr g <= a < pg_addr g + PAGE_SIZE.

Lemma find_page_ok (h : heap) gs p a fuel :
  chain_from next_all (pagerefs h) p (pg_ref <$> gs) ->
  (forall g, g ∈ gs -> page_ok (pagerefs h) (kmem h) g) -> (length gs <= fuel)%nat ->
  wp (find_page fuel a p) (fun r h' => h' = h /\ match r with
    | None => forall g, g ∈ gs -> ~ on_page a g
    | Some i => exists g, g ∈ gs /\ i = pg_ref g /\ on_page a g
    end) h.
Proof.
  revert p fuel. induction gs as [|g gs IH]; intros p fuel Hc Hp Hf; simpl in Hc.
  - subst p. destruct fuel; apply wp_ret; (split; [done|]); intros g Hg; by apply elem_of_nil in Hg.
  - destruct Hc as (-> & x & Hx & Hc). pose proof (Hp g ltac:(left)) as Hok.
    destruct (po_ref _ _ _ Hok) as (x' & Hx' & Href). replace x' with x in * by congruence.
    destruct (ref_fields x g) as [Ha Hb]; [apply Hok..|done|]. pose proof (po_type _ _ _ Hok) as Ht.
    destruct (po_run _ _ _ Hok) as (_ & Hlo & _ & Hhi).
    assert (wp (find_page fuel a (Some (pg_ref g))) = wp (let! x := get_pageref (pg_ref g) in
      do! assert_ ((0 <=? PR_BLOCKTYPE x) && (PR_BLOCKTYPE x <? NSIZES)) in
      if (PR_PAGEADDR x <=? a) && (a <? u32 (PR_PAGEADDR x + PAGE_SIZE)) then ret (Some (pg_ref g))
      else match fuel with O => out_of_fuel | S fuel => find_page fuel a (next_all x) end)) as -> by by destruct fuel.
    unfold get_pageref. wp_steps. exists x. split; [done|]. wp_steps. split; [rewrite Hb; lia|].
    rewrite Ha, u32_id by (unfold is_u32, MIPS_KSEG0, PAGE_SIZE in *; lia).
    destruct (Z.leb_spec (pg_addr g) a); [destruct (Z.ltb_spec a (pg_addr g + PAGE_SIZE))|]; simpl.
    1:{ apply wp_ret. split; [done|]. exists g. split; [left|]. split; [done|]. unfold on_page. lia. }
    all: destruct fuel as [|fuel]; [simpl in Hf; lia|];
      (eapply wp_mono; [apply IH; [done|intros g' Hg'; apply Hp; by right|simpl in Hf; lia]|]);
      intros r h' [-> Hr]; (split; [done|]); destruct r as [i|];
      [destruct Hr as (g' & Hg' & Hr); exists g'; split; [by right|done]
      |intros g' [->|Hg']%elem_of_cons; [unfold on_page; lia|auto]].
Qed.

Lemma pages_fit h gs runs : heap_ok h gs runs -> (length gs <= Z.to_nat NPAGEREFS)%nat.
Proof.
  intros Ho. rewrite <- (length_fmap pg_ref gs).
  assert (Z.to_nat NPAGEREFS = length (seqZ 0 NPAGEREFS)) as -> by by rewrite length_seqZ.
  apply submseteq_length, NoDup_submseteq; [apply Ho|]. intros i (g & -> & Hg)%list_elem_of_fmap.
  apply elem_of_seqZ. pose proof (ref_range _ _ _ _ Ho Hg). lia.
Qed.

(** ** Changing one page *)

Definition with_free (l : list Z) (g : page) : page := mk_page (pg_ref g) (pg_addr g) (pg_type g) l.

Lemma of_type_replace b gs1 g gs2 l :
  pg_ref <$> of_type b (gs1 ++ with_free l g :: gs2) = pg_ref <$> of_type b (gs1 ++ g :: gs2).
Proof.
  unfold of_type. rewrite !filter_app, !fmap_app. f_equal. rewrite !filter_cons. simpl.
  by destruct (decide (pg_type g = b)).
Qed.

Lemma heap_ok_page h gs1 g gs2 runs l x x' m :
  heap_ok h (gs1 ++ g :: gs2) runs ->
  nthZ (pagerefs h) (pg_ref g) = Some x -> next_samesize x' = next_samesize x -> next_all x' = next_all x ->
  ref_ok x' (with_free l g) -> NoDup l -> (forall o, o ∈ l -> block_at (pg_type g) o) -> linked m (pg_addr g) l ->
  (forall a, ~ on_page a g -> m !! a = kmem h !! a) ->
  heap_ok (set_kmem m (set_pagerefs (setZ (pagerefs h) (pg_ref g) x') h)) (gs1 ++ with_free l g :: gs2) runs.
Proof.
  intros Ho Hx Hns Hna Href Hnd Hbl Hln Hm.
  assert (forall f, (f (with_free l g) = f g :> Z) -> f <$> (gs1 ++ with_free l g :: gs2) = f <$> (gs1 ++ g :: gs2)) as Hfm
    by (intros f Hf; rewrite !fmap_app; simpl; by rewrite Hf).
  assert (g ∈ gs1 ++ g :: gs2) as Hg by (rewrite elem_of_app, elem_of_cons; auto).
  assert (forall g', g' ∈ gs1 ++ with_free l g :: gs2 -> g' = with_free l g \/ g' ∈ gs1 ++ g :: gs2 /\ g' <> g) as Hin.
  { intros g' Hg'. pose proof (ho_addrs _ _ _ Ho) as Hnd'. rewrite fmap_app, fmap_cons in Hnd'.
    apply NoDup_app in Hnd' as (_ & Hd1 & Hd2). apply NoDup_cons in Hd2 as [Hd2 _].
    rewrite elem_of_app, elem_of_cons in *. destruct Hg' as [Hg'|[->|Hg']]; [right|by left|right].
    - split; [by auto|]. intros ->. apply (Hd1 (pg_addr g)); [by apply list_elem_of_fmap_2|left].
    - split; [by auto|]. intros ->. apply Hd2. by apply list_elem_of_fmap_2. }
  split; simpl; try apply Ho.
  - rewrite lenZ_setZ. apply Ho.
  - rewrite Hfm by done. eapply chain_set; [exact Hx|done|apply Ho].
  - intros b p Hp. rewrite of_type_replace. eapply chain_set; [exact Hx|done|by apply Ho].
  - rewrite Hfm by done. apply Ho.
  - rewrite Hfm by done. apply Ho.
  - intros g' [->|[Hg' Hne]]%Hin.
    + destruct (ho_pages _ _ _ Ho g Hg) as [Hrun Hty _ _ _ _]. split; try done. exists x'. split; [|done]. simpl.
      apply nthZ_setZ_eq. by eapply nthZ_Some_lt.
    + destruct (ho_pages _ _ _ Ho g' Hg') as [Hrun Hty (y & Hy & Hry) Hnd' Hbl' Hln']. split; try done.
      * exists y. split; [|done]. rewrite nthZ_setZ_ne; [done|]. intros He. apply Hne.
        apply list_elem_of_lookup in Hg as [i Hi]. apply list_elem_of_lookup in Hg' as [j Hj].
        assert (i = j); [|congruence]. eapply (NoDup_lookup (pg_ref <$> (gs1 ++ g :: gs2))); [apply Ho| |];
          rewrite list_lookup_fmap; [by rewrite Hi|rewrite Hj; simpl; congruence].
      * eapply linked_ext; [|exact Hln']. intros o Hb. apply Hm. unfold on_page.
        assert (pg_addr g <> pg_addr g') as Hna' by (intros He; apply Hne; by apply (same_addr _ _ _ _ _ Ho)).
        pose proof (pages_apart _ _ _ _ _ Ho Hg Hg' Hna'). destruct (Hbl' o Hb) as [Hr _]. lia.
  - intros g' [->|[Hg' _]]%Hin; [by apply (ho_out _ _ _ Ho g)|by apply Ho].
  - rewrite Hfm by done. apply Ho.
Qed.

(** Taking the first free block of a page. *)
Lemma doalloc_ok h gs1 g gs2 runs o l :
  heap_ok h (gs1 ++ g :: gs2) runs -> pg_free g = o :: l ->
  wp (doalloc (pg_ref g)) (fun a h' => a = pg_addr g + o /\ kmem h' = kmem h /\
    heap_ok h' (gs1 ++ with_free l g :: gs2) runs) h.
Proof.
  intros Ho Hf. assert (g ∈ gs1 ++ g :: gs2) as Hg by (rewrite elem_of_app, elem_of_cons; auto).
  pose proof (ho_pages _ _ _ Ho g Hg) as Hok. destruct (po_ref _ _ _ Hok) as (x & Hx & Href).
  destruct (ref_fields x g) as [Ha _]; [apply Hok..|done|].
  pose proof (blocks_at_most _ _ (po_type _ _ _ Hok) (po_nodup _ _ _ Hok) (po_blocks _ _ _ Hok)) as Hlen.
  pose proof (nblocks_facts _ (po_type _ _ _ Hok)) as Hnb.
  destruct (po_run _ _ _ Hok) as (_ & Hlo & _ & Hhi). destruct Href as [Hpab Hoff Hnf].
  pose proof (po_blocks _ _ _ Hok) as Hbl. pose proof (po_linked _ _ _ Hok) as Hln. pose proof (po_nodup _ _ _ Hok) as Hnd.
  rewrite Hf in *. destruct Hln as [Hload Hln]. apply NoDup_cons in Hnd as [Hout Hnd].
  destruct (Hbl o ltac:(left)) as [Hor _]. simpl in Hoff.
  assert (nfree x = Z.of_nat (S (length l))) as Hnf' by exact Hnf. unfold lenZ in Hlen. simpl in Hlen.
  unfold MIPS_KSEG0, PAGE_SIZE in *.
  unfold doalloc, get_pageref, load, put_pageref. wp_steps. exists x. split; [done|]. wp_steps. rewrite Hoff, Ha.
  split; [unfold PAGE_SIZE; lia|]. rewrite (u32_id (pg_addr g + o)) by (unfold is_u32; lia).
  wp_steps. eexists. split; [exact Hload|].
  assert (u16 (nfree x - 1) = lenZ l) as -> by (unfold u16, lenZ; rewrite Z.mod_small by lia; lia).
  assert (forall o', o' ∈ l -> block_at (pg_type g) o') as Hbl' by (intros o' Ho'; apply Hbl; by right).
  assert (forall x', next_samesize x' = next_samesize x -> next_all x' = next_all x -> ref_ok x' (with_free l g) ->
    heap_ok (set_pagerefs (setZ (pagerefs h) (pg_ref g) x') h) (gs1 ++ with_free l g :: gs2) runs) as Hfin.
  { intros x' Hs Hn Hr.
    assert (set_pagerefs (setZ (pagerefs h) (pg_ref g) x') h =
            set_kmem (kmem h) (set_pagerefs (setZ (pagerefs h) (pg_ref g) x') h)) as -> by by destruct h.
    by eapply heap_ok_page. }
  destruct l as [|o' l].
  - simpl. wp_steps. split; [done|]. wp_steps. split; [done|]. apply Hfin; [done|done|].
    by split.
  - destruct (Hbl o' ltac:(right; left)) as [Hor' _].
    destruct (Z.eqb_spec (pg_addr g + o') 0) as [|_]; [lia|]. simpl. wp_steps. unfold PAGE_SIZE in *. replace (pg_addr g + o' - pg_addr g) with o' by lia. rewrite (u32_id o') by (unfold is_u32; lia).
    split; [lia|]. wp_steps. split; [done|]. split; [done|]. apply Hfin; [done|done|]. split; [done| |done]. simpl.
    unfold u16. apply Z.mod_small. lia.
Qed.

(** ** Making a page *)

Lemma link_blocks_ok (h : heap) a b :
  run_ok a 1 -> 0 <= b < NSIZES ->
  wp (link_blocks a (psize b) (nblocks b)) (fun _ h' => exists m, h' = set_kmem m h /\
    linked m a (down (psize b) (Z.to_nat (nblocks b))) /\
    forall w, ~ a <= w < a + PAGE_SIZE -> m !! w = kmem h !! w) h.
Proof.
  intros (_ & Hlo & _ & Hhi) Hb. destruct (psize_facts b Hb) as (_ & Hs & Hm & _). pose proof (nblocks_facts b Hb) as Hn.
  unfold MIPS_KSEG0 in *. unfold link_blocks, store at 1. wp_steps.
  eapply wp_iterate with (I := fun i h' => exists m, h' = set_kmem m h /\ linked m a (down (psize b) (Z.to_nat i)) /\
    forall w, ~ a <= w < a + PAGE_SIZE -> m !! w = kmem h !! w).
  - eexists. split; [reflexivity|]. split; [simpl; split; [|done]; by rewrite Z.add_0_r, lookup_insert_eq|].
    intros w Hw. rewrite lookup_insert_ne; [done|]. unfold PAGE_SIZE in *. lia.
  - intros i ? Hi (m & -> & Hl & Hf). rewrite Z2Nat.id in Hi by lia. unfold PAGE_SIZE in *.
    assert (0 <= (i - 1) * psize b /\ (i - 1) * psize b < i * psize b /\ i * psize b < 4096) as Hr by nia.
    rewrite (u32_id (a + i * psize b)), (u32_id (a + (i - 1) * psize b)) by (unfold is_u32; lia).
    unfold store. wp_steps. split; [apply negb_true_iff, Z.eqb_neq; lia|]. wp_steps.
    eexists. split; [reflexivity|]. replace (Z.to_nat (i + 1)) with (S (Z.to_nat i)) by lia. split.
    + simpl down. rewrite Z2Nat.id by lia. split.
      * rewrite lookup_insert_eq. f_equal. destruct (Z.to_nat i) as [|j] eqn:Hj; [lia|]. simpl. lia.
      * eapply linked_ext; [|exact Hl]. intros o (k & Hk & ->)%elem_of_down. simpl. rewrite lookup_insert_ne; [done|]. nia.
    + intros w Hw. simpl. rewrite lookup_insert_ne by lia. by apply Hf.
  - intros ? (m & -> & Hl & Hf). wp_steps. exists m. split; [done|]. split; [|done].
    replace (1 + Z.of_nat (Z.to_nat (nblocks b - 1))) with (nblocks b) in Hl by lia. exact Hl.
Qed.

Lemma push_samesize (h : heap) i b x p :
  nthZ (pagerefs h) i = Some x -> nthZ (sizebases h) b = Some p ->
  push_front (samesize b) i h = Done tt (set_sizebases (setZ (sizebases h) b (Some i))
    (set_pagerefs (setZ (pagerefs h) i
       (mk_pageref p (next_all x) (pageaddr_and_blocktype x) (freelist_offset x) (nfree x))) h)).
Proof.
  intros Hx Hp. unfold push_front, get_pageref, put_pageref, of_option. simpl. simpl_m. rewrite Hp. simpl. by rewrite Hx.
Qed.

Lemma push_all (h : heap) i x :
  nthZ (pagerefs h) i = Some x ->
  push_front all_pages i h = Done tt (set_allbase (Some i)
    (set_pagerefs (setZ (pagerefs h) i
       (mk_pageref (next_samesize x) (allbase h) (pageaddr_and_blocktype x) (freelist_offset x) (nfree x))) h)).
Proof. intros Hx. unfold push_front, get_pageref, put_pageref, of_option. simpl. simpl_m. by rewrite Hx. Qed.

(** A new page at the head of the two lists it belongs to. *)
Lemma heap_ok_add h gs runs i b a ws m p' p l x :
  heap_ok h gs runs -> 0 <= i < NPAGEREFS -> i ∉ pg_ref <$> gs -> 0 <= b < NSIZES ->
  runs !! a = None -> pl_runs p' (<[a := 1]> runs) -> inuse_ok ws (i :: (pg_ref <$> gs)) ->
  nthZ (sizebases h) b = Some p -> next_samesize x = p -> next_all x = allbase h -> ref_ok x (mk_page i a b l) ->
  NoDup l -> (forall o, o ∈ l -> block_at b o) -> linked m a l ->
  (forall w, ~ a <= w < a + PAGE_SIZE -> m !! w = kmem h !! w) ->
  heap_ok (mk_heap (setZ (pagerefs h) i x) ws (setZ (sizebases h) b (Some i)) (Some i) m p')
    (mk_page i a b l :: gs) (<[a := 1]> runs).
Proof.
  intros Ho Hi Hout Hb Hfresh Hruns Hiu Hp Hns Hna Href Hnd Hbl Hln Hm.
  assert (forall next q gs', (forall g, g ∈ gs' -> g ∈ gs) -> chain_from next (pagerefs h) q (pg_ref <$> gs') ->
    chain_from next (setZ (pagerefs h) i x) q (pg_ref <$> gs')) as Hch.
  { intros next q gs' Hsub. apply chain_ext. intros j y (g & -> & Hg)%list_elem_of_fmap Hy. exists y. split; [|done].
    rewrite nthZ_setZ_ne; [done|]. intros He. apply Hout. rewrite He. apply list_elem_of_fmap_2. auto. }
  assert (nthZ (setZ (pagerefs h) i x) i = Some x) as Hx by (apply nthZ_setZ_eq; by rewrite (ho_refs _ _ _ Ho)).
  split; simpl; try done.
  - rewrite lenZ_setZ. apply Ho.
  - rewrite lenZ_setZ. apply Ho.
  - split; [done|]. exists x. split; [done|]. rewrite Hna. apply Hch; [done|apply Ho].
  - intros b' q Hq. unfold of_type. rewrite filter_cons. simpl. destruct (decide (b = b')) as [->|Hne].
    + rewrite nthZ_setZ_eq in Hq by (by rewrite (ho_bases _ _ _ Ho)). injection Hq as <-. simpl. split; [done|].
      exists x. split; [done|]. rewrite Hns. apply Hch; [|by apply Ho]. intros g Hg. by apply list_elem_of_filter in Hg as [_ Hg].
    + rewrite nthZ_setZ_ne in Hq by done. apply Hch; [|by apply Ho]. intros g Hg.
      by apply list_elem_of_filter in Hg as [_ Hg].
  - constructor; [done|apply Ho].
  - constructor; [|apply Ho]. intros (g & -> & Hg)%list_elem_of_fmap. by rewrite (ho_out _ _ _ Ho) in Hfresh.
  - intros g [->|Hg]%elem_of_cons.
    + split; simpl; try done; [eapply pl_ok_law; [exact Hruns|apply lookup_insert_eq]|by exists x].
    + destruct (ho_pages _ _ _ Ho g Hg) as [Hrun Hty (y & Hy & Hry) Hnd' Hbl' Hln']. split; try done.
      * exists y. split; [|done]. rewrite nthZ_setZ_ne; [done|]. intros He. apply Hout. rewrite He. by apply list_elem_of_fmap_2.
      * eapply linked_ext; [|exact Hln']. intros o Hb'. apply Hm. destruct (Hbl' o Hb') as [Hr _].
        assert (a <> pg_addr g) as Hne by (intros ->; by rewrite (ho_out _ _ _ Ho) in Hfresh).
        assert (apart a 1 (pg_addr g) 1) as Ha.
        { eapply pl_apart_law; [exact Hruns|apply lookup_insert_eq| |done].
          rewrite lookup_insert_ne by done. by apply (ho_out _ _ _ Ho). }
        unfold apart in Ha. lia.
  - intros g [->|Hg]%elem_of_cons; [apply lookup_insert_eq|].
    rewrite lookup_insert_ne; [by apply (ho_out _ _ _ Ho)|]. intros ->. by rewrite (ho_out _ _ _ Ho) in Hfresh.
Qed.

Lemma fresh_page_ok h gs runs b :
  heap_ok h gs runs -> 0 <= b < NSIZES ->
  wp (fresh_page b) (fun r h' => match r with
    | None => kmem h' = kmem h /\ heap_ok h' gs runs
    | Some i => exists g, i = pg_ref g /\ pg_type g = b /\ pg_free g = down (psize b) (Z.to_nat (nblocks b)) /\
        runs !! pg_addr g = None /\ (forall w, ~ on_page w g -> kmem h' !! w = kmem h !! w) /\
        heap_ok h' (g :: gs) (<[pg_addr g := 1]> runs)
    end) h.
Proof.
  intros Ho Hb. unfold fresh_page. apply wp_bind. eapply wp_mono; [apply allocpageref_ok, Ho|].
  intros [i|] h1; [|by intros ->; apply wp_ret]. intros (Hi & Hout & ws & -> & Hiu).
  unfold on_pages. wp_steps. simpl.
  destruct (pl_alloc_law _ _ 1 (ho_runs _ _ _ Ho)) as (a & p' & Hrun & Ha); [lia|].
  eapply wp_of_eq; [exact Hrun|]. destruct (Z.eqb_spec a 0) as [->|Hnz].
  - apply wp_bind. eapply wp_mono; [apply freepageref_ok; [exact Hiu|done|left]|]. intros _ h2 (ws' & -> & Hws).
    apply wp_ret. split; [done|]. destruct Ho. split; try done. simpl. apply Hws; [done|].
    intros j Hj. rewrite elem_of_cons. naive_solver.
  - destruct Ha as [Hfresh Hruns].
    assert (run_ok a 1) as Hrok by (eapply pl_ok_law; [exact Hruns|apply lookup_insert_eq]).
    destruct (psize_facts b Hb) as (Hsz & Hs & Hm & _). pose proof (nblocks_facts b Hb) as Hn.
    destruct (nthZ_is_Some (pagerefs h) i) as [x Hx]; [by rewrite (ho_refs _ _ _ Ho)|].
    unfold size_of_type, get_pageref, put_pageref. wp_steps. exists (psize b). split; [done|]. wp_steps. simpl.
    exists x. split; [done|]. wp_steps. simpl.
    assert (u16 (PAGE_SIZE / psize b) = nblocks b) as -> by (unfold u16; apply Z.mod_small; unfold nblocks in *; lia).
    eapply wp_mono; [by apply link_blocks_ok|]. intros _ h2 (m & -> & Hln & Hmem). wp_steps. simpl.
    set (x1 := mk_pageref (next_samesize x) (next_all x) (MKPAB a b) (freelist_offset x) (nblocks b)).
    exists x1. split; [by apply nthZ_setZ_eq, (nthZ_Some_lt _ _ _ Hx)|]. wp_steps. simpl. rewrite setZ_setZ.
    destruct Hrok as (Hal & Hlo & _ & Hhi). unfold MIPS_KSEG0, PAGE_SIZE in *.
    assert (0 <= (nblocks b - 1) * psize b < 4096) as Hlast by nia.
    assert (u16 (u32 (u32 (a + (nblocks b - 1) * psize b) - a)) = (nblocks b - 1) * psize b) as Hoff.
    { rewrite (u32_id (a + _)) by (unfold is_u32; lia).
      replace (a + (nblocks b - 1) * psize b - a) with ((nblocks b - 1) * psize b) by lia.
      rewrite u32_id by (unfold is_u32; lia). unfold u16. apply Z.mod_small. lia. }
    rewrite Hoff, (u32_id ((nblocks b - 1) * psize b)) by (unfold is_u32; lia). split; [apply Z.eqb_refl|].
    destruct (nthZ_is_Some (sizebases h) b) as [q Hq]; [by rewrite (ho_bases _ _ _ Ho)|].
    apply wp_bind. eapply wp_of_eq; [eapply push_samesize; [apply nthZ_setZ_eq, (nthZ_Some_lt _ _ _ Hx)|exact Hq]|].
    apply wp_bind. simpl. rewrite setZ_setZ.
    eapply wp_of_eq; [eapply push_all; simpl; apply nthZ_setZ_eq, (nthZ_Some_lt _ _ _ Hx)|].
    simpl. rewrite setZ_setZ. apply wp_ret.
    exists (mk_page i a b (down (psize b) (Z.to_nat (nblocks b)))). do 4 (split; [done|]).
    split; [intros w Hw; by apply Hmem|]. eapply heap_ok_add; try done.
    + split; simpl.
      * apply MKPAB_sum; [unfold is_u32; lia|done|unfold NSIZES, PAGE_SIZE in *; lia].
      * destruct (Z.to_nat (nblocks b)) as [|k] eqn:Hk; [lia|]. simpl. f_equal. lia.
      * unfold lenZ. rewrite length_down. lia.
    + apply NoDup_down. lia.
    + intros o. by apply down_blocks.
Qed.

(** ** Taking a page off its lists *)

(** The links of [c] in the pagerefs of [js] may have changed, nothing else. *)
Definition relinked (c : chain (P := P)) (js : list Z) (prs prs' : list pageref) : Prop :=
  lenZ prs' = lenZ prs /\ (forall i, i ∉ js -> nthZ prs' i = nthZ prs i) /\
  forall i x, nthZ prs i = Some x -> exists q, nthZ prs' i = Some (ch_set_next c q x).

Lemma remove_after_ok (c : chain (P := P)) (h : heap) fuel j y pr l1 l2 :
  (forall q x, ch_next c (ch_set_next c q x) = q) -> (forall x, ch_set_next c (ch_next c x) x = x) ->
  nthZ (pagerefs h) j = Some y -> chain_from (ch_next c) (pagerefs h) (ch_next c y) (l1 ++ pr :: l2) ->
  NoDup (j :: l1 ++ pr :: l2) -> (length l1 <= fuel)%nat ->
  wp (remove_from fuel c (Some j) pr) (fun _ h' => exists prs' y', h' = set_pagerefs prs' h /\
    relinked c (j :: l1) (pagerefs h) prs' /\ nthZ prs' j = Some y' /\
    chain_from (ch_next c) prs' (ch_next c y') (l1 ++ l2)) h.
Proof.
  intros Hget Hset. revert fuel j y. induction l1 as [|k l1 IH]; intros fuel j y Hy Hc Hnd Hf; simpl in Hc.
  - destruct Hc as (Hn & x & Hx & Hc).
    assert (wp (remove_from fuel c (Some j) pr) = wp (let! cur := read_link c (Some j) in
      match cur with None => ret tt | Some g => if g =? pr then let! x := get_pageref pr in write_link c (Some j) (ch_next c x)
        else match fuel with O => out_of_fuel | S fuel => remove_from fuel c (Some g) pr end end)) as -> by by destruct fuel.
    unfold read_link, write_link, get_pageref, put_pageref. wp_steps. exists y. split; [done|]. wp_steps. rewrite Hn, Z.eqb_refl.
    wp_steps. exists x. split; [done|]. wp_steps. exists y. split; [done|]. wp_steps.
    eexists _, (ch_set_next c (ch_next c x) y). split; [reflexivity|]. simpl in Hnd.
    apply NoDup_cons in Hnd as [Hj Hnd]. split; [split; [apply lenZ_setZ|split]|split].
    + intros i Hi. apply nthZ_setZ_ne. intros ->. apply Hi. left.
    + intros i z Hz. rewrite (nthZ_setZ_Some _ _ _ y _ z) by done. destruct (decide (i = j)) as [->|].
      * exists (ch_next c x). by assert (z = y) as -> by congruence.
      * exists (ch_next c z). by rewrite Hset.
    + apply nthZ_setZ_eq. by eapply nthZ_Some_lt.
    + rewrite Hget. simpl. eapply chain_ext; [|exact Hc]. intros i z Hi Hz. exists z. split; [|done].
      rewrite nthZ_setZ_ne; [done|]. intros ->. apply Hj. by right.
  - destruct Hc as (Hn & x & Hx & Hc). destruct fuel as [|fuel]; [simpl in Hf; lia|]. simpl.
    unfold read_link, get_pageref at 1. wp_steps. exists y. split; [done|]. wp_steps. rewrite Hn.
    apply NoDup_cons in Hnd as [Hj Hnd]. assert (k <> pr) as Hne.
    { intros ->. simpl in Hnd. apply NoDup_cons in Hnd as [Hk _]. apply Hk. rewrite elem_of_app, elem_of_cons. auto. }
    destruct (Z.eqb_spec k pr) as [|_]; [done|]. eapply wp_mono; [eapply IH; [exact Hx|done|done|simpl in Hf; lia]|].
    intros _ h' (prs' & y' & -> & (Hlen & Hout & Hrel) & Hy' & Hc'). exists prs', y. split; [done|]. split; [|split].
    + split; [done|]. split; [|done]. intros i Hi. apply Hout. intros Hin. apply Hi. by right.
    + rewrite Hout; [done|]. intros Hin. apply Hj, elem_of_app. by left.
    + rewrite Hn. simpl. split; [done|]. by exists y'.
Qed.

Lemma remove_from_ok (c : chain (P := P)) (h : heap) sethd p pr l1 l2 :
  (forall q x, ch_next c (ch_set_next c q x) = q) -> (forall x, ch_set_next c (ch_next c x) x = x) ->
  ch_head c h = Done p h -> (forall q, ch_set_head c q h = Done tt (sethd q h)) ->
  chain_from (ch_next c) (pagerefs h) p (l1 ++ pr :: l2) -> NoDup (l1 ++ pr :: l2) ->
  (length l1 <= Z.to_nat NPAGEREFS)%nat ->
  wp (remove_from (Z.to_nat NPAGEREFS) c None pr) (fun _ h' => exists q,
    (h' = sethd q h /\ chain_from (ch_next c) (pagerefs h) q (l1 ++ l2)) \/
    (exists prs', q = p /\ h' = set_pagerefs prs' h /\ relinked c l1 (pagerefs h) prs' /\
     chain_from (ch_next c) prs' q (l1 ++ l2))) h.
Proof.
  intros Hget Hset Hhd Hst Hc Hnd Hf. revert Hf. generalize (Z.to_nat NPAGEREFS) as fuel. intros fuel Hf.
  assert (wp (remove_from fuel c None pr) = wp (let! cur := read_link c None in
    match cur with None => ret tt | Some g => if g =? pr then let! x := get_pageref pr in write_link c None (ch_next c x)
      else match fuel with O => out_of_fuel | S fuel => remove_from fuel c (Some g) pr end end)) as -> by by destruct fuel.
  apply wp_bind. eapply wp_of_eq; [exact Hhd|]. destruct l1 as [|k l1]; destruct Hc as (-> & x & Hx & Hc).
  - rewrite Z.eqb_refl. unfold get_pageref. wp_steps. exists x. split; [done|]. eapply wp_of_eq; [apply Hst|].
    exists (ch_next c x). left. by split.
  - destruct (Z.eqb_spec k pr) as [->|_].
    { exfalso. simpl in Hnd. apply NoDup_cons in Hnd as [Hk _]. apply Hk. rewrite elem_of_app, elem_of_cons. auto. }
    destruct fuel as [|fuel]; [simpl in Hf; lia|].
    eapply wp_mono; [eapply remove_after_ok; [done|done|exact Hx|exact Hc|exact Hnd|simpl in Hf; lia]|].
    intros _ h' (prs' & y' & -> & Hrel & Hy' & Hc'). exists (Some k). right. exists prs'. split; [done|]. split; [done|].
    split; [done|]. simpl. split; [done|]. by exists y'.
Qed.

Lemma relinked_refl (c : chain (P := P)) js prs : (forall x, ch_set_next c (ch_next c x) x = x) -> relinked c js prs prs.
Proof. intros Hset. split; [done|]. split; [done|]. intros i x Hx. exists (ch_next c x). by rewrite Hset. Qed.

Lemma relinked_chain (c : chain (P := P)) js prs prs' next p l :
  (forall q x, next (ch_set_next c q x) = next x) -> relinked c js prs prs' ->
  chain_from next prs p l -> chain_from next prs' p l.
Proof.
  intros Hn (_ & _ & Hr). apply chain_ext. intros i x _ Hx. destruct (Hr i x Hx) as (q & Hq). eexists. split; [exact Hq|].
  apply Hn.
Qed.

(** Both ways [remove_from] ends, as one. *)
Lemma remove_samesize_ok (h : heap) t p pr l1 l2 :
  nthZ (sizebases h) t = Some p -> chain_from next_samesize (pagerefs h) p (l1 ++ pr :: l2) ->
  NoDup (l1 ++ pr :: l2) -> (length l1 <= Z.to_nat NPAGEREFS)%nat ->
  wp (remove_from (Z.to_nat NPAGEREFS) (samesize t) None pr) (fun _ h' => exists q prs,
    h' = set_sizebases (setZ (sizebases h) t q) (set_pagerefs prs h) /\
    relinked (samesize (P := P) t) l1 (pagerefs h) prs /\ chain_from next_samesize prs q (l1 ++ l2)) h.
Proof.
  intros Hp Hc Hnd Hlen.
  eapply wp_mono.
  - apply (remove_from_ok (samesize t) h (fun q h => set_sizebases (setZ (sizebases h) t q) h) p pr l1 l2);
      [done|by intros []| |done|done|done|done]. simpl. simpl_m. by rewrite Hp.
  - intros _ h' (q & [[-> Hc']|(prs & -> & -> & Hrel & Hc')]).
    + exists q, (pagerefs h). split; [by destruct h|]. split; [apply relinked_refl; by intros []|exact Hc'].
    + exists p, prs. split; [|by split]. destruct h. simpl in *. by rewrite setZ_id.
Qed.

Lemma remove_all_ok (h : heap) pr l1 l2 :
  chain_from next_all (pagerefs h) (allbase h) (l1 ++ pr :: l2) ->
  NoDup (l1 ++ pr :: l2) -> (length l1 <= Z.to_nat NPAGEREFS)%nat ->
  wp (remove_from (Z.to_nat NPAGEREFS) all_pages None pr) (fun _ h' => exists q prs,
    h' = set_allbase q (set_pagerefs prs h) /\
    relinked (all_pages (P := P)) l1 (pagerefs h) prs /\ chain_from next_all prs q (l1 ++ l2)) h.
Proof.
  intros Hc Hnd Hlen.
  eapply wp_mono.
  - apply (remove_from_ok all_pages h set_allbase (allbase h) pr l1 l2); [done|by intros []|done..].
  - intros _ h' (q & [[-> Hc']|(prs & -> & -> & Hrel & Hc')]).
    + exists q, (pagerefs h). split; [by destruct h|]. split; [apply relinked_refl; by intros []|exact Hc'].
    + exists (allbase h), prs. split; [|by split]. by destruct h.
Qed.

Lemma of_type_split b gs1 g gs2 :
  of_type b (gs1 ++ g :: gs2) = of_type b gs1 ++ (if decide (pg_type g = b) then [g] else []) ++ of_type b gs2.
Proof. unfold of_type. rewrite filter_app, filter_cons. by destruct (decide _). Qed.

Lemma NoDup_refs_type b gs : NoDup (pg_ref <$> gs) -> NoDup (pg_ref <$> of_type b gs).
Proof.
  intros Hn. eapply sublist_NoDup; [exact Hn|]. apply fmap_sublist, sublist_filter.
Qed.

Lemma remove_lists_ok h gs1 g gs2 runs :
  heap_ok h (gs1 ++ g :: gs2) runs ->
  wp (remove_lists (pg_ref g) (pg_type g)) (fun _ h' => exists prs bases ab,
    h' = mk_heap prs (pagerefs_inuse h) bases ab (kmem h) (hpages h) /\
    lenZ prs = NPAGEREFS /\ lenZ bases = NSIZES /\
    chain_from next_all prs ab (pg_ref <$> gs1 ++ gs2) /\
    (forall b p, nthZ bases b = Some p -> chain_from next_samesize prs p (pg_ref <$> of_type b (gs1 ++ gs2))) /\
    forall i x, nthZ (pagerefs h) i = Some x -> exists n1 n2,
      nthZ prs i = Some (mk_pageref n1 n2 (pageaddr_and_blocktype x) (freelist_offset x) (nfree x))) h.
Proof.
  intros Ho. assert (g ∈ gs1 ++ g :: gs2) as Hg by (rewrite elem_of_app, elem_of_cons; auto).
  pose proof (po_type _ _ _ (ho_pages _ _ _ Ho g Hg)) as Ht. set (t := pg_type g) in *.
  destruct (nthZ_is_Some (sizebases h) t) as [p Hp]; [by rewrite (ho_bases _ _ _ Ho)|].
  pose proof (pages_fit _ _ _ Ho) as Hfit. rewrite length_app in Hfit.
  unfold remove_lists. wp_steps. split; [lia|]. wp_steps.
  pose proof (ho_same _ _ _ Ho t p Hp) as Hc. pose proof (NoDup_refs_type t _ (ho_nodup _ _ _ Ho)) as Hnd.
  rewrite of_type_split in Hc, Hnd. rewrite decide_True in Hc, Hnd by done. rewrite !fmap_app in Hc, Hnd. simpl in Hc, Hnd.
  eapply wp_mono; [apply (remove_samesize_ok h t p (pg_ref g) _ _ Hp Hc Hnd)|].
  { rewrite length_fmap. pose proof (length_filter (fun g => pg_type g = t) gs1). unfold of_type. lia. }
  intros _ h' (q & prs & -> & Hrel & Hc1).
  pose proof (ho_all _ _ _ Ho) as Ha. pose proof (ho_nodup _ _ _ Ho) as Hnd2. rewrite fmap_app in Ha, Hnd2. simpl in Ha, Hnd2.
  eapply wp_mono; [apply remove_all_ok with (pr := pg_ref g) (l1 := pg_ref <$> gs1) (l2 := pg_ref <$> gs2)|].
  - simpl. by eapply relinked_chain; [|exact Hrel|exact Ha].
  - done.
  - rewrite length_fmap. lia.
  - intros _ h2 (q2 & prs2 & -> & Hrel2 & Hc2). simpl in *. exists prs2, (setZ (sizebases h) t q), q2.
    split; [by destruct h|]. destruct Hrel as (Hlen & Hout & Hrel). destruct Hrel2 as (Hlen2 & Hout2 & Hrel2).
    split; [rewrite Hlen2, Hlen; apply Ho|]. split; [rewrite lenZ_setZ; apply Ho|]. split; [by rewrite fmap_app|]. split.
    + intros b r Hr. apply (relinked_chain all_pages (pg_ref <$> gs1) prs prs2); [done|done|].
      destruct (decide (b = t)) as [->|Hne].
      * rewrite nthZ_setZ_eq in Hr by (by rewrite (ho_bases _ _ _ Ho)). injection Hr as <-.
        unfold of_type. by rewrite filter_app, fmap_app.
      * rewrite nthZ_setZ_ne in Hr by done. pose proof (ho_same _ _ _ Ho b r Hr) as Hcb.
        rewrite of_type_split, decide_False in Hcb by (intros Heq; apply Hne; by rewrite <- Heq). simpl in Hcb.
        unfold of_type in *. rewrite filter_app. eapply chain_ext; [|exact Hcb]. intros i x Hi Hx. exists x. split; [|done].
        rewrite Hout; [done|]. intros Hi'. apply list_elem_of_fmap in Hi' as (g1 & He1 & Hg1).
        apply list_elem_of_fmap in Hi as (g2 & He2 & Hg2). apply list_elem_of_filter in Hg1 as [Hty1 Hg1].
        assert (pg_type g2 = b /\ g2 ∈ gs1 ++ g :: gs2) as [Hty2 Hin2].
        { rewrite elem_of_app, elem_of_cons. apply elem_of_app in Hg2 as [Hg2|Hg2]; apply list_elem_of_filter in Hg2 as [? ?]; auto. }
        assert (g1 ∈ gs1 ++ g :: gs2) as Hin1 by (rewrite elem_of_app; auto).
        apply list_elem_of_lookup in Hin1 as [k1 Hk1]. apply list_elem_of_lookup in Hin2 as [k2 Hk2].
        assert (k1 = k2); [|congruence]. eapply (NoDup_lookup (pg_ref <$> (gs1 ++ g :: gs2))); [apply Ho| |];
          rewrite list_lookup_fmap; [by rewrite Hk1|rewrite Hk2; simpl; congruence].
    + intros i x Hx. destruct (Hrel i x Hx) as (n1 & Hx1). destruct (Hrel2 i _ Hx1) as (n2 & Hx2). exists n1, n2. exact Hx2.
Qed.
End heap.
