(* ===== verification/KheapSpec.v ===== *)
(** * The kernel heap keeps its blocks apart.

    [heap_has] says which blocks are out, whatever pages they are on. [kmalloc] and
    [kfree] are proved to return (they do not panic) and to add and remove one block. *)

From stdpp Require Import base numbers list gmap.
From Stdlib Require Import ZArith Lia.
From S2P Require Import Prelude Ram Kheap KheapPages.

Section heap.
Context {P : Type} {Pl : PageLayer P} {Laws : PageLaws Pl}.
Notation heap := (heap P).

(** ** The blocks that are out *)

(** [n] bytes at [p] belong to a client: a block of a page that is not free, or a run of
    pages that is not a page of blocks. *)
Definition owns (gs : list page) (runs : gmap Z Z) (p n : Z) : Prop :=
  (exists g o, g ∈ gs /\ p = pg_addr g + o /\ block_at (pg_type g) o /\ o ∉ pg_free g /\ n = psize (pg_type g)) \/
  (exists k, runs !! p = Some k /\ p ∉ pg_addr <$> gs /\ n = k * PAGE_SIZE).

(** A block lies in its page. *)
Lemma block_fits b o : 0 <= b < NSIZES -> block_at b o -> 0 <= o /\ o + psize b <= PAGE_SIZE.
Proof.
  intros Hb [Ho Hm]. destruct (psize_facts b Hb) as (_ & Hs & He & _). split; [lia|].
  apply Z.mod_divide in Hm as [q ->]; [|lia]. rewrite <- He in *. assert (q < nblocks b) by nia. nia.
Qed.

(** What is owned on a page is a block of that page. *)
Lemma owns_on_page h gs runs g p n :
  heap_ok h gs runs -> g ∈ gs -> on_page p g -> owns gs runs p n ->
  exists o, p = pg_addr g + o /\ block_at (pg_type g) o /\ o ∉ pg_free g /\ n = psize (pg_type g).
Proof.
  intros Ho Hg Hp [(g' & o & Hg' & -> & Hb & Hf & ->)|(k & Hk & Hout & ->)].
  - destruct (decide (pg_addr g = pg_addr g')) as [He|Hne].
    + rewrite <- (same_addr _ _ _ _ _ Ho Hg Hg' He) in *. by exists o.
    + destruct (pages_apart _ _ _ _ _ Ho Hg Hg' Hne); unfold on_page in Hp; destruct Hb as [Hb _]; lia.
  - exfalso. assert (p <> pg_addr g) as Hne by (intros ->; apply Hout; by apply list_elem_of_fmap_2).
    destruct (pl_ok_law _ _ _ _ (ho_runs _ _ _ Ho) Hk) as (_ & _ & Hpos & _).
    destruct (pl_apart_law _ _ _ _ _ _ (ho_runs _ _ _ Ho) Hk (ho_out _ _ _ Ho g Hg) Hne) as [Ha|Ha];
      unfold on_page, PAGE_SIZE in *; nia.
Qed.

Lemma owns_positive h gs runs p n : heap_ok h gs runs -> owns gs runs p n ->
  0 < n /\ MIPS_KSEG0 < p /\ p + n <= MIPS_KSEG0 + 2 ^ 29 /\ p mod 16 = 0.
Proof.
  intros Ho [(g & o & Hg & -> & Hb & _ & ->)|(k & Hk & _ & ->)].
  - pose proof (ho_pages _ _ _ Ho g Hg) as [(Hm & Hlo & _ & Hhi) Ht _ _ _ _].
    pose proof (block_fits _ _ Ht Hb). destruct (psize_facts _ Ht) as (_ & Hs & _ & H16). split; [lia|]. split; [lia|].
    split; [lia|]. destruct Hb as [_ Hom]. unfold PAGE_SIZE in *.
    apply Z.mod_divide in Hm as [x Hx], Hom as [y Hy], H16 as [z Hz]; [|lia..]. apply Z.mod_divide; [lia|].
    exists (x * 256 + y * z). nia.
  - destruct (pl_ok_law _ _ _ _ (ho_runs _ _ _ Ho) Hk) as (Hm & Hlo & Hpos & Hhi). unfold PAGE_SIZE in *.
    split; [lia|]. split; [lia|]. split; [lia|]. apply Z.mod_divide in Hm as [x Hx]; [|lia].
    apply Z.mod_divide; [lia|]. exists (x * 256). lia.
Qed.

Lemma blocks_spaced b o o' : 0 <= b < NSIZES -> block_at b o -> block_at b o' -> o <> o' ->
  o + psize b <= o' \/ o' + psize b <= o.
Proof.
  intros Hb [_ Hm] [_ Hm'] Hne. destruct (psize_facts b Hb) as (_ & Hs & _).
  apply Z.mod_divide in Hm as [x ->], Hm' as [y ->]; [|lia..].
  destruct (Z.lt_trichotomy x y) as [Hxy|[->|Hxy]]; [left; nia|done|right; nia].
Qed.

(** No two blocks have an address in common. *)
Lemma owns_apart h gs runs p n q m : heap_ok h gs runs -> owns gs runs p n -> owns gs runs q m -> p <> q ->
  p + n <= q \/ q + m <= p.
Proof.
  intros Ho Hp Hq Hne.
  assert (forall g x k, g ∈ gs -> runs !! x = Some k -> x ∉ pg_addr <$> gs ->
    pg_addr g + PAGE_SIZE <= x \/ x + k * PAGE_SIZE <= pg_addr g) as Hmix.
  { intros g x k Hg Hk Hout. assert (pg_addr g <> x) as Hn by (intros <-; apply Hout; by apply list_elem_of_fmap_2).
    pose proof (pl_apart_law _ _ _ _ _ _ (ho_runs _ _ _ Ho) (ho_out _ _ _ Ho g Hg) Hk Hn) as Ha. unfold apart in Ha. lia. }
  destruct Hp as [(g & o & Hg & -> & Hb & _ & ->)|(k & Hk & Hout & ->)];
    destruct Hq as [(g' & o' & Hg' & -> & Hb' & _ & ->)|(k' & Hk' & Hout' & ->)].
  - pose proof (po_type _ _ _ (ho_pages _ _ _ Ho g Hg)) as Ht. pose proof (po_type _ _ _ (ho_pages _ _ _ Ho g' Hg')) as Ht'.
    destruct (decide (pg_addr g = pg_addr g')) as [He|Hn].
    + assert (g = g') as <- by by eapply same_addr.
      destruct (blocks_spaced _ _ _ Ht Hb Hb') as [Hx|Hx]; [congruence|left; lia|right; lia].
    + pose proof (block_fits _ _ Ht Hb). pose proof (block_fits _ _ Ht' Hb').
      destruct (pages_apart _ _ _ _ _ Ho Hg Hg' Hn); lia.
  - pose proof (block_fits _ _ (po_type _ _ _ (ho_pages _ _ _ Ho g Hg)) Hb). destruct (Hmix g q k' Hg Hk' Hout'); lia.
  - pose proof (block_fits _ _ (po_type _ _ _ (ho_pages _ _ _ Ho g' Hg')) Hb'). destruct (Hmix g' p k Hg' Hk Hout); lia.
  - apply (pl_apart_law _ _ _ _ _ _ (ho_runs _ _ _ Ho) Hk Hk' Hne).
Qed.

(** Only what a page has free changes. *)
Lemma owns_replace gs1 g gs2 runs l p n :
  (forall o, p = pg_addr g + o -> block_at (pg_type g) o -> o ∈ l <-> o ∈ pg_free g) ->
  owns (gs1 ++ with_free l g :: gs2) runs p n <-> owns (gs1 ++ g :: gs2) runs p n.
Proof.
  intros Hl. assert (pg_addr <$> (gs1 ++ with_free l g :: gs2) = pg_addr <$> (gs1 ++ g :: gs2)) as Ha
    by by rewrite !fmap_app.
  unfold owns. rewrite Ha. apply or_iff_compat_r. split; intros (g' & o & Hg' & -> & Hb & Hf & ->);
    rewrite elem_of_app, elem_of_cons in Hg'.
  - destruct Hg' as [Hg'|[->|Hg']]; [exists g', o|exists g, o|exists g', o];
      rewrite elem_of_app, elem_of_cons; (split; [auto|]); (split; [done|]); (split; [done|]); (split; [|done]); try done.
    simpl in *. by rewrite <- Hl.
  - destruct Hg' as [Hg'|[->|Hg']]; [exists g', o|exists (with_free l g), o|exists g', o];
      rewrite elem_of_app, elem_of_cons; (split; [auto|]); (split; [done|]); (split; [done|]); (split; [|done]); try done.
    simpl in *. by rewrite Hl.
Qed.

(** What the heap promises: exactly the blocks of [live] (address, bytes) are out. *)
Definition heap_has (h : heap) (live : gmap Z Z) : Prop :=
  exists gs runs, heap_ok h gs runs /\ forall p n, live !! p = Some n <-> owns gs runs p n.

Lemma heap_has_apart h live p n q m : heap_has h live -> live !! p = Some n -> live !! q = Some m -> p <> q ->
  p + n <= q \/ q + m <= p.
Proof. intros (gs & runs & Ho & Hl) Hp Hq. eapply owns_apart; [exact Ho|by apply Hl|by apply Hl]. Qed.

Lemma heap_has_positive h live p n : heap_has h live -> live !! p = Some n ->
  0 < n /\ MIPS_KSEG0 < p /\ p + n <= MIPS_KSEG0 + 2 ^ 29 /\ p mod 16 = 0.
Proof. intros (gs & runs & Ho & Hl) Hp. eapply owns_positive; [exact Ho|by apply Hl]. Qed.

(** ** Allocating *)

Lemma blocktype_ok sz (h : heap) : 0 <= sz <= 2048 ->
  wp (blocktype sz) (fun b h' => h' = h /\ 0 <= b < NSIZES /\ sz <= psize b) h.
Proof.
  intros Hsz. unfold blocktype. apply wp_bind.
  apply wp_iterate with (I := fun i h' => h' = h /\ forall j, 0 <= j < i -> psize j < sz).
  - split; [done|]. lia.
  - intros i ? Hi [-> Hlt]. change (0 + Z.of_nat (Z.to_nat NSIZES)) with NSIZES in Hi.
    unfold size_of_type. wp_steps. exists (psize i). split; [by apply psize_facts|]. wp_steps.
    destruct (Z.leb_spec sz (psize i)); [by apply wp_ret|]. split; [done|]. intros j Hj.
    destruct (decide (j = i)) as [->|]; [lia|]. apply Hlt. lia.
  - intros ? [-> Hlt]. exfalso. specialize (Hlt 7 ltac:(done)). change (psize 7) with 2048 in Hlt. lia.
Qed.

(** Giving a block of page [g] to a client. *)
Lemma give_block h (live : gmap Z Z) gs1 g gs2 runs o l :
  heap_ok h (gs1 ++ g :: gs2) runs -> pg_free g = o :: l ->
  (forall p n, live !! p = Some n <-> owns (gs1 ++ g :: gs2) runs p n) ->
  live !! (pg_addr g + o) = None /\
  forall p n, <[pg_addr g + o := psize (pg_type g)]> live !! p = Some n <-> owns (gs1 ++ with_free l g :: gs2) runs p n.
Proof.
  intros Ho Hf Hl. assert (g ∈ gs1 ++ g :: gs2) as Hg by (rewrite elem_of_app, elem_of_cons; auto).
  pose proof (ho_pages _ _ _ Ho g Hg) as Hok. pose proof (po_nodup _ _ _ Hok) as Hnd. rewrite Hf in Hnd.
  apply NoDup_cons in Hnd as [Hout Hnd]. pose proof (po_blocks _ _ _ Hok o) as Hb. rewrite Hf in Hb.
  specialize (Hb ltac:(left)). pose proof (block_fits _ _ (po_type _ _ _ Hok) Hb) as Hfit.
  pose proof (psize_facts _ (po_type _ _ _ Hok)) as (_ & Hs & _).
  assert (on_page (pg_addr g + o) g) as Hon by (unfold on_page; lia). split.
  - destruct (live !! _) as [n|] eqn:He; [|done]. apply Hl in He.
    destruct (owns_on_page _ _ _ _ _ _ Ho Hg Hon He) as (o' & Ho' & _ & Hf' & _).
    exfalso. apply Hf'. rewrite Hf. replace o' with o by lia. left.
  - intros p n. destruct (decide (p = pg_addr g + o)) as [->|Hne].
    + rewrite lookup_insert_eq. split.
      * intros [= <-]. left. exists (with_free l g), o. rewrite elem_of_app, elem_of_cons. auto.
      * intros [(g' & o' & Hg' & He & Hb' & _ & ->)|(k & Hk & Hout' & _)].
        -- f_equal. rewrite elem_of_app, elem_of_cons in Hg'.
           assert (g' = with_free l g \/ g' ∈ gs1 ++ g :: gs2) as [->|Hg''] by (rewrite elem_of_app, elem_of_cons; naive_solver); [done|].
           destruct Hb' as [Hr' _]. destruct (decide (pg_addr g = pg_addr g')) as [Ha|Hna].
           ++ by rewrite (same_addr _ _ _ _ _ Ho Hg Hg'' Ha).
           ++ destruct (pages_apart _ _ _ _ _ Ho Hg Hg'' Hna); lia.
        -- exfalso. assert (owns (gs1 ++ g :: gs2) runs (pg_addr g + o) (k * PAGE_SIZE)) as Hown.
           { right. exists k. split; [done|]. split; [|done]. by rewrite !fmap_app in *. }
           destruct (owns_on_page _ _ _ _ _ _ Ho Hg Hon Hown) as (o' & Ho' & _ & Hf' & _).
           apply Hf'. rewrite Hf. replace o' with o by lia. left.
    + rewrite lookup_insert_ne by done. rewrite Hl. symmetry. apply owns_replace. intros o' -> _.
      rewrite Hf, elem_of_cons. naive_solver lia.
Qed.

(** What [kmalloc] and [doalloc] achieve. *)
Definition gave (h : heap) (live : gmap Z Z) (sz : Z) (p : Z) (h' : heap) : Prop :=
  (forall w q m, live !! q = Some m -> q <= w < q + m -> kmem h' !! w = kmem h !! w) /\
  if p =? 0 then heap_has h' live
  else live !! p = None /\ exists n, sz <= n /\ heap_has h' (<[p := n]> live).

Lemma doalloc_gave h0 h (live : gmap Z Z) gs runs g sz :
  heap_ok h gs runs -> g ∈ gs -> pg_free g <> [] -> sz <= psize (pg_type g) ->
  (forall p n, live !! p = Some n <-> owns gs runs p n) ->
  (forall w q m, live !! q = Some m -> q <= w < q + m -> kmem h !! w = kmem h0 !! w) ->
  wp (doalloc (pg_ref g)) (fun p h' => gave h0 live sz p h') h.
Proof.
  intros Ho Hg Hf Hsz Hl Hm. apply list_elem_of_split in Hg as (gs1 & gs2 & ->).
  destruct (pg_free g) as [|o l] eqn:Hfree; [done|].
  eapply wp_mono; [by eapply doalloc_ok|]. intros p h' (-> & Hk & Ho').
  destruct (give_block _ _ _ _ _ _ _ _ Ho Hfree Hl) as [Hnone Hl']. split; [by rewrite Hk|].
  assert (g ∈ gs1 ++ g :: gs2) as Hg by (rewrite elem_of_app, elem_of_cons; auto).
  pose proof (ho_pages _ _ _ Ho g Hg) as Hok. destruct (po_run _ _ _ Hok) as (_ & Hlo & _).
  destruct (po_blocks _ _ _ Hok o) as [Hr _]; [rewrite Hfree; left|]. unfold MIPS_KSEG0 in Hlo.
  destruct (Z.eqb_spec (pg_addr g + o) 0); [lia|]. split; [done|]. exists (psize (pg_type g)). split; [done|].
  by exists (gs1 ++ with_free l g :: gs2), runs.
Qed.

(** A page all of whose blocks are free adds nothing. *)
Lemma owns_fresh g gs runs p n :
  0 <= pg_type g < NSIZES -> (forall o, block_at (pg_type g) o -> o ∈ pg_free g) -> runs !! pg_addr g = None ->
  (forall g', g' ∈ gs -> runs !! pg_addr g' = Some 1) ->
  owns (g :: gs) (<[pg_addr g := 1]> runs) p n <-> owns gs runs p n.
Proof.
  intros Ht Hall Hnone Hout. split.
  - intros [(g' & o & [->|Hg']%elem_of_cons & -> & Hb & Hf & ->)|(k & Hk & Hp & ->)].
    + by destruct Hf; apply Hall.
    + left. by exists g', o.
    + right. rewrite fmap_cons, elem_of_cons in Hp. rewrite lookup_insert_ne in Hk by naive_solver. exists k. naive_solver.
  - intros [(g' & o & Hg' & -> & Hb & Hf & ->)|(k & Hk & Hp & ->)].
    + left. exists g', o. rewrite elem_of_cons. auto.
    + right. exists k. assert (p <> pg_addr g) by congruence. rewrite lookup_insert_ne by done.
      rewrite fmap_cons, elem_of_cons. naive_solver.
Qed.

Lemma subpage_kmalloc_ok h live sz :
  heap_has h live -> 0 <= sz <= 2048 -> wp (subpage_kmalloc sz) (fun p h' => gave h live sz p h') h.
Proof.
  intros (gs & runs & Ho & Hl) Hsz. unfold subpage_kmalloc. apply wp_bind.
  eapply wp_mono; [by apply blocktype_ok|]. intros b ? (-> & Hb & Hfit).
  destruct (nthZ_is_Some (sizebases h) b) as [q Hq]; [by rewrite (ho_bases _ _ _ Ho)|].
  apply wp_bind. eapply wp_of_eq; [simpl; simpl_m; by rewrite Hq|].
  apply wp_bind. eapply wp_mono; [apply (find_free_ok h (of_type b gs) b q)|].
  - by apply Ho.
  - intros g [Ht Hg]%list_elem_of_filter. split; [by apply Ho|done].
  - pose proof (pages_fit _ _ _ Ho). pose proof (length_filter (fun g => pg_type g = b) gs). unfold of_type. lia.
  - intros [i|] ? [-> Hr].
    + destruct Hr as (g & [Ht Hg]%list_elem_of_filter & -> & Hf). eapply doalloc_gave; try done. by rewrite Ht.
    + apply wp_bind. eapply wp_mono; [by apply fresh_page_ok|]. intros [i|] h'.
      * intros (g & -> & Ht & Hf & Hnone & Hm & Ho'). subst b. pose proof (nblocks_facts _ Hb) as Hnb.
        assert (forall o, block_at (pg_type g) o -> o ∈ pg_free g) as Hall.
        { apply blocks_all_there; [done|apply (ho_pages _ _ _ Ho'); left|apply (ho_pages _ _ _ Ho'); left|].
          rewrite Hf. unfold lenZ. rewrite length_down. lia. }
        eapply doalloc_gave; [exact Ho'|left| |done| |].
        -- rewrite Hf. destruct (Z.to_nat (nblocks (pg_type g))) eqn:Hk; [lia|done].
        -- intros p n. rewrite Hl. symmetry. apply owns_fresh; [done|done|done|apply Ho].
        -- intros w p n Hp Hw. apply Hm. intros Hon. apply Hl in Hp.
           assert (owns (g :: gs) (<[pg_addr g:=1]> runs) p n) as Hp' by (apply owns_fresh; [done|done|done|apply Ho|done]).
           assert (owns (g :: gs) (<[pg_addr g:=1]> runs) p n) as Hp2 by done.
           destruct Hp as [(g' & o & Hg' & -> & Hb' & _ & ->)|(k & Hk & Hout & ->)].
           ++ assert (pg_addr g' <> pg_addr g) as Hne by (intros He; rewrite <- He, (ho_out _ _ _ Ho) in Hnone; done).
              pose proof (block_fits _ _ (po_type _ _ _ (ho_pages _ _ _ Ho g' Hg')) Hb').
              destruct (pages_apart _ _ _ g g' Ho' ltac:(left) ltac:(by right) ltac:(done)); unfold on_page in Hon; lia.
           ++ assert (p <> pg_addr g) as Hne by congruence.
              pose proof (pl_apart_law _ _ p k (pg_addr g) 1 (ho_runs _ _ _ Ho') ltac:(by rewrite lookup_insert_ne)
                ltac:(apply lookup_insert_eq) Hne) as Ha. unfold apart, on_page in *. lia.
      * intros [Hm Ho']. apply wp_ret. split; [by rewrite Hm|]. by exists gs, runs.
Qed.

Lemma set_hpages_ok h gs runs p runs' :
  heap_ok h gs runs -> pl_runs p runs' -> (forall g, g ∈ gs -> runs' !! pg_addr g = Some 1) ->
  heap_ok (set_hpages p h) gs runs'.
Proof. intros [] Hp Hg. by split. Qed.

(** A run of pages taken from the layer below is a block of the heap. *)
Lemma pages_given h live n :
  heap_has h live -> 0 < n <= 2 ^ 19 ->
  wp (on_pages (alloc_kpages n)) (fun p (h' : heap) => kmem h' = kmem h /\
    if p =? 0 then heap_has h' live
    else live !! p = None /\ heap_has h' (<[p := n * PAGE_SIZE]> live)) h.
Proof.
  intros (gs & runs & Ho & Hl) Hn.
  destruct (pl_alloc_law _ _ n (ho_runs _ _ _ Ho) Hn) as (a & p' & Hrun & Ha).
  unfold on_pages. apply wp_zoom. eapply wp_of_eq; [exact Hrun|]. split; [done|]. destruct (Z.eqb_spec a 0) as [->|Hnz].
  - exists gs, runs. split; [|done]. eapply set_hpages_ok; [exact Ho|done|apply Ho].
  - destruct Ha as [Hfresh Hruns].
    assert (forall g, g ∈ gs -> pg_addr g <> a) as Hne by (intros g Hg He; by rewrite <- He, (ho_out _ _ _ Ho) in Hfresh).
    assert (heap_ok (set_hpages p' h) gs (<[a:=n]> runs)) as Ho'.
    { eapply set_hpages_ok; [exact Ho|done|]. intros g Hg. rewrite lookup_insert_ne by (apply not_eq_sym; auto). by apply Ho. }
    assert (a ∉ pg_addr <$> gs) as Hout by (intros (g & -> & Hg)%list_elem_of_fmap; by apply (Hne g)).
    assert (live !! a = None) as Hnone.
    { destruct (live !! a) as [m|] eqn:He; [|done]. apply Hl in He as [(g & o & Hg & -> & Hb & _)|(k & Hk & _)]; [|congruence].
      assert (pl_runs p' (<[pg_addr g + o:=n]> runs)) as Hr by done. exfalso.
      pose proof (Hne g Hg) as Hn0. pose proof (ho_pages _ _ _ Ho g Hg) as Hok.
      destruct (pl_apart_law _ _ (pg_addr g) 1 (pg_addr g + o) n (ho_runs _ _ _ Ho')) as [Hx|Hx];
        [rewrite lookup_insert_ne by done; by apply Ho|apply lookup_insert_eq|done| |]; destruct Hb as [Hb _]; unfold PAGE_SIZE in *; nia. }
    split; [done|]. exists gs, (<[a:=n]> runs). split; [done|].
    intros p m. destruct (decide (p = a)) as [->|Hpa].
    + rewrite lookup_insert_eq. split.
      * intros [= <-]. right. exists n. rewrite lookup_insert_eq. done.
      * intros [(g & o & Hg & He & Hb & Hf & ->)|(k & Hk & _ & ->)]; [|rewrite lookup_insert_eq in Hk; congruence].
        exfalso. assert (live !! a = Some (psize (pg_type g))); [|congruence]. apply Hl. left. by exists g, o.
    + rewrite lookup_insert_ne by done. rewrite Hl. unfold owns. by rewrite lookup_insert_ne by done.
Qed.

Lemma kmalloc_gives h live sz :
  heap_has h live -> 0 <= sz <= 2 ^ 31 -> wp (kmalloc sz) (fun p h' => gave h live sz p h') h.
Proof.
  intros Hh Hsz. unfold kmalloc. destruct (Z.leb_spec LARGEST_SUBPAGE_SIZE sz) as [Hbig|Hsmall];
    unfold LARGEST_SUBPAGE_SIZE in *; [|apply subpage_kmalloc_ok; [done|lia]].
  rewrite u32_id by (unfold is_u32, PAGE_SIZE; lia). set (n := (sz + PAGE_SIZE - 1) / PAGE_SIZE).
  assert (0 < n <= 2 ^ 19 /\ sz <= n * PAGE_SIZE) as [Hn Hfit].
  { unfold n, PAGE_SIZE. pose proof (Z.div_mod (sz + 4096 - 1) 4096 ltac:(lia)).
    pose proof (Z.mod_pos_bound (sz + 4096 - 1) 4096 ltac:(lia)). lia. }
  eapply wp_mono; [by apply pages_given|]. intros p h' [Hk Hp]. split; [by rewrite Hk|].
  destruct (p =? 0); [done|]. destruct Hp as [Hnone Hh']. split; [done|]. by exists (n * PAGE_SIZE).
Qed.

(** ** Freeing *)

Lemma fill_deadbeef_ok (h : heap) p len :
  0 <= len -> wp (fill_deadbeef p len) (fun _ h' => exists m, h' = set_kmem m h /\
    forall w, ~ p <= w < p + len -> m !! w = kmem h !! w) h.
Proof.
  intros Hlen. unfold fill_deadbeef. apply wp_bind.
  eapply wp_iterate with (I := fun i h' => exists m, h' = set_kmem m h /\ forall w, ~ p <= w < p + len -> m !! w = kmem h !! w).
  - exists (kmem h). split; [by destruct h|done].
  - intros i ? Hi (m & -> & Hm). unfold store. wp_steps. eexists. split; [reflexivity|]. intros w Hw. simpl.
    rewrite Z2Nat.id in Hi by (apply Z.div_pos; lia). pose proof (Z.div_mod len 4 ltac:(lia)).
    pose proof (Z.mod_pos_bound len 4 ltac:(lia)). rewrite lookup_insert_ne by lia. by apply Hm.
  - intros ? (m & -> & Hm). wp_steps. by exists m.
Qed.

(** Taking a block back, when the page stays. *)
Lemma take_block h (live : gmap Z Z) gs1 g gs2 runs o h' :
  heap_ok h (gs1 ++ g :: gs2) runs -> (forall p n, live !! p = Some n <-> owns (gs1 ++ g :: gs2) runs p n) ->
  block_at (pg_type g) o -> heap_ok h' (gs1 ++ with_free (o :: pg_free g) g :: gs2) runs ->
  forall p n, delete (pg_addr g + o) live !! p = Some n <-> owns (gs1 ++ with_free (o :: pg_free g) g :: gs2) runs p n.
Proof.
  intros Ho Hl Hb Ho' p n. assert (g ∈ gs1 ++ g :: gs2) as Hg by (rewrite elem_of_app, elem_of_cons; auto).
  destruct (decide (p = pg_addr g + o)) as [->|Hne].
  - rewrite lookup_delete_eq. split; [done|]. intros Hown. exfalso.
    destruct (owns_on_page h' _ runs (with_free (o :: pg_free g) g) (pg_addr g + o) n Ho') as (o' & He & _ & Hf & _).
    + rewrite elem_of_app, elem_of_cons. auto.
    + unfold on_page. simpl. destruct Hb as [Hb _]. lia.
    + exact Hown.
    + apply Hf. simpl in *. replace o' with o by lia. left.
  - rewrite lookup_delete_ne by done. rewrite Hl. symmetry. apply owns_replace. intros o' -> _.
    rewrite elem_of_cons. naive_solver lia.
Qed.

(** Giving a page back, all of its blocks free. *)
Lemma release_ok h live gs1 g gs2 runs :
  heap_ok h (gs1 ++ g :: gs2) runs -> (forall p n, live !! p = Some n <-> owns (gs1 ++ g :: gs2) runs p n) ->
  lenZ (pg_free g) = nblocks (pg_type g) ->
  wp (do! remove_lists (pg_ref g) (pg_type g) in
      do! on_pages (free_kpages (pg_addr g)) in
      freepageref (pg_ref g)) (fun _ h' => kmem h' = kmem h /\ heap_has h' live) h.
Proof.
  intros Ho Hl Hfull. assert (g ∈ gs1 ++ g :: gs2) as Hg by (rewrite elem_of_app, elem_of_cons; auto).
  pose proof (ho_pages _ _ _ Ho g Hg) as Hok.
  apply wp_bind. eapply wp_mono; [by eapply remove_lists_ok|].
  intros _ h1 (prs & bases & ab & -> & Hlp & Hlb & Hca & Hcs & Hprs).
  destruct (pl_free_law _ _ _ _ (ho_runs _ _ _ Ho) (ho_out _ _ _ Ho g Hg)) as (p' & Hrun & Hruns).
  apply wp_bind. unfold on_pages. apply wp_zoom. eapply wp_of_eq; [exact Hrun|].
  eapply wp_mono; [eapply freepageref_ok|].
  - simpl. apply Ho.
  - by eapply ref_range.
  - by apply list_elem_of_fmap_2.
  - intros _ h2 (ws & -> & Hws). split; [done|]. simpl.
    pose proof (ho_nodup _ _ _ Ho) as Hnd. pose proof (ho_addrs _ _ _ Ho) as Hna.
    rewrite fmap_app, fmap_cons, <- Permutation_middle in Hnd. rewrite fmap_app, fmap_cons, <- Permutation_middle in Hna.
    rewrite <- fmap_app in Hnd, Hna. apply NoDup_cons in Hnd as [Hnr Hnd]. apply NoDup_cons in Hna as [Hnadr Hna].
    assert (forall g', g' ∈ gs1 ++ gs2 -> g' ∈ gs1 ++ g :: gs2 /\ pg_addr g' <> pg_addr g) as Hsub.
    { intros g' Hg'. split.
      - rewrite elem_of_app, elem_of_cons in *. naive_solver.
      - intros He. apply Hnadr. rewrite <- He. by apply list_elem_of_fmap_2. }
    exists (gs1 ++ gs2), (delete (pg_addr g) runs). split.
    + split; simpl; try done.
      * intros g' Hg'. destruct (Hsub g' Hg') as [Hin _].
        destruct (ho_pages _ _ _ Ho g' Hin) as [Hrun' Ht' (x & Hx & [Hr1 Hr2 Hr3]) Hnd' Hb' Hln']. split; try done.
        destruct (Hprs _ _ Hx) as (n1 & n2 & Hx'). by eexists.
      * intros g' Hg'. destruct (Hsub g' Hg') as [Hin Hne]. rewrite lookup_delete_ne by done. by apply Ho.
      * apply Hws; [done|]. intros j Hj. rewrite !fmap_app, fmap_cons, !elem_of_app, elem_of_cons. naive_solver.
    + intros p n. rewrite Hl. split.
      * intros [(g' & o & Hg' & -> & Hb & Hf & ->)|(k & Hk & Hout & ->)].
        -- rewrite elem_of_app, elem_of_cons in Hg'. assert (g' = g \/ g' ∈ gs1 ++ gs2) as [->|Hin]
             by (rewrite elem_of_app; naive_solver).
           ++ exfalso. apply Hf. eapply blocks_all_there; [apply Hok|apply Hok|apply Hok|done|done].
           ++ left. by exists g', o.
        -- right. exists k. assert (p <> pg_addr g) by (intros ->; apply Hout; by apply list_elem_of_fmap_2).
           rewrite lookup_delete_ne by done. split; [done|]. split; [|done]. intros (g' & -> & Hg')%list_elem_of_fmap.
           apply Hout. apply list_elem_of_fmap_2. by apply Hsub.
      * intros [(g' & o & Hg' & -> & Hb & Hf & ->)|(k & Hk & Hout & ->)].
        -- left. exists g', o. split; [by apply Hsub|done].
        -- right. exists k. apply lookup_delete_Some in Hk as [Hne Hk]. split; [done|]. split; [|done].
           rewrite fmap_app, fmap_cons, elem_of_app, elem_of_cons. rewrite fmap_app, elem_of_app in Hout. naive_solver.
Qed.

(** What [kfree] achieves. *)
Definition took (h : heap) (live : gmap Z Z) (p : Z) (h' : heap) : Prop :=
  (forall w q m, live !! q = Some m -> q <> p -> q <= w < q + m -> kmem h' !! w = kmem h !! w) /\
  heap_has h' (delete p live).

Lemma subpage_kfree_ok h live p n :
  heap_has h live -> live !! p = Some n ->
  wp (subpage_kfree p) (fun b h' => if b then took h live p h'
    else h' = h /\ exists gs runs k, heap_ok h gs runs /\ (forall p n, live !! p = Some n <-> owns gs runs p n) /\
         runs !! p = Some k /\ p ∉ pg_addr <$> gs) h.
Proof.
  intros Hh Hp. pose proof (heap_has_apart h live p n) as Hap. destruct Hh as (gs & runs & Ho & Hl).
  pose proof (proj1 (Hl p n) Hp) as Hown. unfold subpage_kfree. apply wp_bind.
  eapply wp_of_eq; [reflexivity|]. apply wp_bind.
  eapply wp_mono; [apply (find_page_ok h gs (allbase h) p); [apply Ho|apply Ho|by eapply pages_fit]|].
  intros [i|] ? [-> Hr].
  2:{ apply wp_ret. split; [done|]. destruct Hown as [(g & o & Hg & -> & [Hb _] & _)|(k & Hk & Hout & _)].
      - exfalso. apply (Hr g Hg). unfold on_page. lia.
      - by exists gs, runs, k. }
  destruct Hr as (g & Hg & -> & Hon).
  destruct (owns_on_page _ _ _ _ _ _ Ho Hg Hon Hown) as (o & -> & Hb & Hf & ->).
  pose proof (ho_pages _ _ _ Ho g Hg) as Hok. destruct (po_ref _ _ _ Hok) as (x & Hx & Href).
  destruct (ref_fields x g) as [Ha Ht]; [apply Hok..|done|]. pose proof (po_type _ _ _ Hok) as Hty.
  destruct (psize_facts _ Hty) as (Hsz & Hs & Hmul & _). destruct (po_run _ _ _ Hok) as (_ & Hlo & _ & Hhi).
  pose proof (block_fits _ _ Hty Hb) as Hfit. pose proof (nblocks_facts _ Hty) as Hnb.
  unfold get_pageref, size_of_type. wp_steps. exists x. split; [done|]. rewrite Ha, Ht. wp_steps.
  exists (psize (pg_type g)). split; [done|].
  replace (pg_addr g + o - pg_addr g) with o by lia. unfold MIPS_KSEG0, PAGE_SIZE in *.
  rewrite (u32_id o), (u32_id (pg_addr g + o)) by (unfold is_u32; lia).
  destruct (Z.leb_spec 4096 o) as [|_]; [lia|]. rewrite (proj2 Hb), Z.eqb_refl. simpl.
  wp_steps. eapply wp_mono; [apply fill_deadbeef_ok; lia|]. intros _ ? (m & -> & Hm).
  unfold store, put_pageref. wp_steps. simpl.
  apply list_elem_of_split in Hg as (gs1 & gs2 & ->). set (gs := gs1 ++ g :: gs2) in *.
  assert (NoDup (o :: pg_free g)) as Hnd by (constructor; [done|apply Hok]).
  assert (forall o', o' ∈ o :: pg_free g -> block_at (pg_type g) o') as Hbl
    by (intros o' [->|Ho']%elem_of_cons; [done|by apply Hok]).
  pose proof (blocks_at_most _ _ Hty Hnd Hbl) as Hlen. unfold lenZ in Hlen. simpl in Hlen.
  assert (u16 (nfree x + 1) = lenZ (o :: pg_free g)) as Hn.
  { rewrite (ro_nfree _ _ Href). unfold u16, lenZ. simpl. rewrite Z.mod_small; lia. }
  rewrite Hn. fold PAGE_SIZE. fold (nblocks (pg_type g)).
  split; [apply Z.leb_le; unfold lenZ; simpl; lia|].
  set (x' := mk_pageref (next_samesize x) (next_all x) (pageaddr_and_blocktype x) (u16 o) (lenZ (o :: pg_free g))).
  set (w0 := if freelist_offset x =? INVALID_OFFSET then 0 else u32 (pg_addr g + freelist_offset x)).
  set (m' := <[pg_addr g + o := w0]> m).
  assert (forall w, ~ pg_addr g + o <= w < pg_addr g + o + psize (pg_type g) -> m' !! w = kmem h !! w) as Hm'.
  { intros w Hw. unfold m'. rewrite lookup_insert_ne by lia. by apply Hm. }
  assert (heap_ok (set_kmem m' (set_pagerefs (setZ (pagerefs h) (pg_ref g) x') h))
            (gs1 ++ with_free (o :: pg_free g) g :: gs2) runs) as Ho'.
  { eapply heap_ok_page; [exact Ho|exact Hx|done|done| |done|done| |].
    - split; [apply Href| |done]. simpl. unfold u16. apply Z.mod_small. lia.
    - split.
      + unfold m'. rewrite lookup_insert_eq. f_equal. unfold w0. rewrite (ro_offset _ _ Href).
        destruct (pg_free g) as [|o' l] eqn:Hfree; [done|]. simpl.
        destruct (po_blocks _ _ _ Hok o') as [Hr _]; [rewrite Hfree; left|]. unfold PAGE_SIZE in Hr.
        destruct (Z.eqb_spec o' INVALID_OFFSET) as [He|_]; [unfold INVALID_OFFSET in He; lia|].
        apply u32_id. unfold is_u32. lia.
      + eapply linked_ext; [|apply Hok]. intros o' Ho'. apply Hm'.
        assert (o <> o') as Hne by (intros ->; done).
        destruct (blocks_spaced _ _ _ Hty Hb (po_blocks _ _ _ Hok o' Ho') Hne); lia.
    - intros w Hw. apply Hm'. unfold on_page, PAGE_SIZE in Hw. lia. }
  pose proof (take_block _ _ _ _ _ _ _ _ Ho Hl Hb Ho') as Hl'.
  assert (forall w q m, live !! q = Some m -> q <> pg_addr g + o -> q <= w < q + m -> m' !! w = kmem h !! w) as Hframe.
  { intros w q k Hq Hne Hw. apply Hm'. destruct (Hap q k) as [Hx'|Hx']; try done; [by exists gs, runs|lia|lia]. }
  assert (set_pagerefs (setZ (pagerefs h) (pg_ref g) x') (set_kmem m' (set_kmem m h)) =
          set_kmem m' (set_pagerefs (setZ (pagerefs h) (pg_ref g) x') h)) as -> by by destruct h.
  destruct (Z.eqb_spec (lenZ (o :: pg_free g)) (nblocks (pg_type g))) as [Hfull|_].
  - apply wp_bind. eapply wp_mono; [by eapply (release_ok _ _ gs1 (with_free (o :: pg_free g) g))|].
    intros _ h' [Hk Hh']. apply wp_ret. split; [|done]. by rewrite Hk.
  - wp_steps. split; [done|]. by eexists _, runs.
Qed.

Lemma kfree_takes h live p n :
  heap_has h live -> live !! p = Some n -> wp (kfree p) (fun _ h' => took h live p h') h.
Proof.
  intros Hh Hp. pose proof (heap_has_positive _ _ _ _ Hh Hp) as (_ & Hpos & _). unfold kfree, MIPS_KSEG0 in *.
  destruct (Z.eqb_spec p 0); [lia|]. apply wp_bind. eapply wp_mono; [by eapply subpage_kfree_ok|].
  intros [] h'; [by intros Ht; apply wp_ret|]. intros [-> (gs & runs & k & Ho & Hl & Hk & Hout)].
  destruct (pl_ok_law _ _ _ _ (ho_runs _ _ _ Ho) Hk) as (Hm & _). wp_steps. split; [by apply Z.eqb_eq|].
  destruct (pl_free_law _ _ _ _ (ho_runs _ _ _ Ho) Hk) as (p' & Hrun & Hruns).
  unfold on_pages. apply wp_zoom. eapply wp_of_eq; [exact Hrun|]. split; [done|].
  assert (forall g, g ∈ gs -> pg_addr g <> p) as Hne by (intros g Hg <-; apply Hout; by apply list_elem_of_fmap_2).
  exists gs, (delete p runs). split.
  - eapply set_hpages_ok; [exact Ho|done|]. intros g Hg. rewrite lookup_delete_ne by (apply not_eq_sym; auto). by apply Ho.
  - intros q m. destruct (decide (q = p)) as [->|Hq].
    + rewrite lookup_delete_eq. split; [done|].
      intros [(g & o & Hg & -> & Hb & Hf & ->)|(k' & Hk' & _)]; [|by rewrite lookup_delete_eq in Hk'].
      exfalso. pose proof (po_type _ _ _ (ho_pages _ _ _ Ho g Hg)) as Ht. pose proof (block_fits _ _ Ht Hb).
      destruct (psize_facts _ Ht) as (_ & Hs & _).
      assert (on_page (pg_addr g + o) g) as Hon by (unfold on_page; lia).
      destruct (pl_ok_law _ _ _ _ (ho_runs _ _ _ Ho) Hk) as (_ & _ & Hkp & _).
      destruct (pl_apart_law _ _ _ _ _ _ (ho_runs _ _ _ Ho) (ho_out _ _ _ Ho g Hg) Hk (Hne g Hg)); unfold PAGE_SIZE in *; nia.
    + rewrite lookup_delete_ne by done. rewrite Hl. unfold owns. by rewrite lookup_delete_ne by done.
Qed.

(** ** Before the first call *)

Lemma empty_heap_has p : pl_runs p ∅ -> heap_has (empty_heap p) ∅.
Proof.
  intros Hp. exists [], ∅. split.
  - split; simpl; try done.
    + intros b q Hq. apply nthZ_elem in Hq. change [None; None; None; None; None; None; None; None]
        with (replicate 8 (@None Z)) in Hq. by apply elem_of_replicate in Hq as [-> _].
    + constructor.
    + constructor.
    + intros g Hg. by apply elem_of_nil in Hg.
    + intros g Hg. by apply elem_of_nil in Hg.
    + split; [done| |].
      * intros k w Hw. apply nthZ_elem in Hw. change [0; 0; 0; 0; 0; 0; 0; 0] with (replicate 8 0) in Hw.
        apply elem_of_replicate in Hw as [-> _]. by unfold is_u32.
      * intros i w Hw. apply nthZ_elem in Hw. change [0; 0; 0; 0; 0; 0; 0; 0] with (replicate 8 0) in Hw.
        apply elem_of_replicate in Hw as [-> _].
        rewrite Z.bits_0. split; [done|]. intros Hi. by apply elem_of_nil in Hi.
  - intros q n. rewrite lookup_empty. split; [done|].
    intros [(g & o & Hg & _)|(k & Hk & _)]; [by apply elem_of_nil in Hg|by rewrite lookup_empty in Hk].
Qed.

(** A client writes in its own blocks only. *)
Lemma client_store h live p n a w :
  heap_has h live -> live !! p = Some n -> p <= a < p + n -> heap_has (set_kmem (<[a := w]> (kmem h)) h) live.
Proof.
  intros (gs & runs & Ho & Hl) Hp Ha. exists gs, runs. split; [|done]. pose proof (proj1 (Hl p n) Hp) as Hown.
  split; try apply Ho. intros g Hg. destruct (ho_pages _ _ _ Ho g Hg) as [Hrun Ht Href Hnd Hb Hln].
  split; try done. eapply linked_ext; [|exact Hln]. intros o Hin. apply lookup_insert_ne. intros ->.
  pose proof (Hb o Hin) as Hbo. pose proof (block_fits _ _ Ht Hbo) as Hfit.
  destruct (decide (on_page p g)) as [Hon|Hoff].
  - destruct (owns_on_page _ _ _ _ _ _ Ho Hg Hon Hown) as (o' & -> & Hbo' & Hf & ->).
    assert (o' <> o) as Hne by (intros ->; done). pose proof (psize_facts _ Ht) as (_ & Hs & _).
    destruct (blocks_spaced _ _ _ Ht Hbo' Hbo Hne); lia.
  - destruct Hown as [(g' & o' & Hg' & -> & Hbo' & _ & ->)|(k & Hk & Hout & ->)].
    + pose proof (po_type _ _ _ (ho_pages _ _ _ Ho g' Hg')) as Ht'. pose proof (block_fits _ _ Ht' Hbo').
      pose proof (psize_facts _ Ht') as (_ & Hs & _). pose proof (psize_facts _ Ht) as (_ & Hs' & _).
      destruct (decide (pg_addr g = pg_addr g')) as [He|Hne]; [apply Hoff; unfold on_page; lia|].
      destruct (pages_apart _ _ _ _ _ Ho Hg Hg' Hne); lia.
    + pose proof (psize_facts _ Ht) as (_ & Hs' & _).
      assert (p <> pg_addr g) as Hne by (intros ->; apply Hout; by apply list_elem_of_fmap_2).
      destruct (pl_apart_law _ _ _ _ _ _ (ho_runs _ _ _ Ho) Hk (ho_out _ _ _ Ho g Hg) Hne); lia.
Qed.

(** ** Properties *)

(** C11. [kmalloc] returns for every size up to 2 GB, in any state of the heap. It gives
    NULL, and then the same blocks are out as before; or the address, a multiple of 16, of
    a new block of at least the size asked for, which has no byte in common with any block
    that is out. What clients have in their blocks stays. *)
Theorem kmalloc_keeps_blocks_apart h (live : gmap Z Z) sz :
  heap_has h live -> 0 <= sz <= 2 ^ 31 ->
  exists p h', kmalloc sz h = Done p h' /\
    (forall q m w, live !! q = Some m -> q <= w < q + m -> kmem h' !! w = kmem h !! w) /\
    (p = 0 /\ heap_has h' live \/
     p mod 16 = 0 /\ exists n, sz <= n /\ heap_has h' (<[p := n]> live) /\
       forall q m, live !! q = Some m -> p + n <= q \/ q + m <= p).
Proof.
  intros Hh Hsz. destruct (wp_done _ _ _ (kmalloc_gives h live sz Hh Hsz)) as (p & h' & Hrun & Hf & Hp).
  exists p, h'. split; [done|]. split; [by eauto|].
  destruct (Z.eqb_spec p 0) as [|Hnz]; [by left|right].
  destruct Hp as (Hnone & n & Hn & Hh'). destruct (heap_has_positive _ _ p n Hh') as (_ & _ & _ & Hm); [apply lookup_insert_eq|].
  split; [done|]. exists n. split; [done|]. split; [done|]. intros q m Hq. assert (p <> q) by congruence.
  eapply heap_has_apart; [exact Hh'|apply lookup_insert_eq|by rewrite lookup_insert_ne|done].
Qed.

(** C12. [kfree] of a block that is out returns, and exactly that block is no longer out;
    what clients have in the other blocks stays. In particular the free lists stay within
    the free blocks, and a page goes back only when none of its blocks is out. *)
Theorem kfree_takes_block_back h (live : gmap Z Z) p n :
  heap_has h live -> live !! p = Some n ->
  exists h', kfree p h = Done tt h' /\ heap_has h' (delete p live) /\
    forall q m w, live !! q = Some m -> q <> p -> q <= w < q + m -> kmem h' !! w = kmem h !! w.
Proof.
  intros Hh Hp. destruct (wp_done _ _ _ (kfree_takes h live p n Hh Hp)) as ([] & h' & Hrun & Hf & Hh').
  exists h'. split; [done|]. split; [done|]. by eauto.
Qed.
End heap.

(** A request so large that rounding it up to whole pages wraps around is granted:
    [kmalloc] returns the address of the first free page and takes nothing, so that the
    next request gets the same memory. *)
Theorem kmalloc_wraps (h : heap ram) sz :
  2 ^ 32 - PAGE_SIZE < sz < 2 ^ 32 -> 0 < firstpaddr (hpages h) <= lastpaddr (hpages h) -> lastpaddr (hpages h) < 2 ^ 31 ->
  kmalloc sz h = Done (firstpaddr (hpages h) + MIPS_KSEG0) h.
Proof.
  unfold PAGE_SIZE. intros Hsz Hf Hl. unfold kmalloc, on_pages, LARGEST_SUBPAGE_SIZE.
  destruct (Z.leb_spec 2048 sz); [|lia].
  assert (u32 (sz + PAGE_SIZE - 1) / PAGE_SIZE = 0) as ->.
  { unfold u32, PAGE_SIZE. replace (sz + 4096 - 1) with (sz - 2 ^ 32 + 4095 + 1 * 2 ^ 32) by lia.
    rewrite Z.mod_add, Z.mod_small, Z.div_small; lia. }
  unfold zoom. simpl. unfold ram_alloc_kpages, getppages, ram_stealmem, bind, get, put, ret. unfold bind.
  change (u32 (u32 (s32 0) * PAGE_SIZE)) with 0. rewrite !Z.add_0_r, !u32_id by (unfold is_u32; lia).
  destruct (Z.ltb_spec (lastpaddr (hpages h)) (firstpaddr (hpages h))); [lia|].
  destruct (Z.eqb_spec (firstpaddr (hpages h)) 0); [lia|].
  unfold PADDR_TO_KVADDR, MIPS_KSEG0. rewrite u32_id by (unfold is_u32; lia). by destruct h as [? ? ? ? ? []].
Qed.

(** ** A machine with 1 MB, 160 KB of them taken by the kernel *)

Definition demo_ram : ram :=
  match ram_bootstrap (2 ^ 20) (mk_ram (MIPS_KSEG0 + 40 * PAGE_SIZE) 0 0) with Done _ s => s | _ => mk_ram 0 0 0 end.
Definition demo_heap : heap ram := empty_heap demo_ram.

Lemma demo_heap_has : heap_has demo_heap ∅.
Proof.
  apply empty_heap_has. destruct (bootstrap_no_runs (MIPS_KSEG0 + 40 * PAGE_SIZE) 0 0 (2 ^ 20)) as (s & Hrun & Hs);
    [done|unfold MIPS_KSEG0, PAGE_SIZE; lia|lia|].
  unfold demo_ram. by rewrite Hrun.
Qed.

Lemma kmalloc_keeps_blocks_apart_witness :
  exists p h', kmalloc 100 demo_heap = Done p h' /\ p <> 0 /\ exists n, 100 <= n /\ heap_has h' {[p := n]}.
Proof.
  destruct (kmalloc_keeps_blocks_apart demo_heap ∅ 100 demo_heap_has ltac:(lia)) as (p & h' & Hrun & _ & Hp).
  assert (match kmalloc 100 demo_heap with Done p _ => negb (p =? 0) | _ => false end = true) as Hnz by (vm_compute; reflexivity).
  exists p, h'. rewrite Hrun in Hnz. destruct (Z.eqb_spec p 0) as [|Hne]; [discriminate Hnz|].
  split; [exact Hrun|]. split; [exact Hne|]. destruct Hp as [[He _]|(_ & n & Hn & Hh & _)]; [contradiction|].
  exists n. split; [exact Hn|exact Hh].
Defined.

Lemma demo_block : exists p n h, kmalloc 100 demo_heap = Done p h /\ heap_has h {[p := n]}.
Proof.
  destruct (wp_done _ _ _ (kmalloc_gives demo_heap ∅ 100 demo_heap_has ltac:(lia))) as (p & h & Hrun & _ & Hp).
  assert (match kmalloc 100 demo_heap with Done p _ => negb (p =? 0) | _ => false end = true) as Hnz by (vm_compute; reflexivity).
  rewrite Hrun in Hnz. destruct (p =? 0); [discriminate Hnz|]. destruct Hp as (_ & n & _ & Hh).
  exists p, n, h. split; [exact Hrun|exact Hh].
Qed.

Lemma kfree_takes_block_back_witness :
  exists p h h', kmalloc 100 demo_heap = Done p h /\ kfree p h = Done tt h' /\ heap_has h' ∅.
Proof.
  destruct demo_block as (p & n & h & Hrun & Hh).
  assert (({[p := n]} : gmap Z Z) !! p = Some n) as Hp by (rewrite lookup_singleton_eq; reflexivity).
  destruct (kfree_takes_block_back h {[p := n]} p n Hh Hp) as (h' & Hfree & Hh' & _).
  exists p, h, h'. split; [exact Hrun|]. split; [exact Hfree|]. rewrite delete_singleton_eq in Hh'. exact Hh'.
Defined.

Lemma kmalloc_wraps_witness : kmalloc (2 ^ 32 - 1) demo_heap = Done (40 * PAGE_SIZE + MIPS_KSEG0) demo_heap.
Proof.
  apply (kmalloc_wraps demo_heap (2 ^ 32 - 1)); [unfold PAGE_SIZE; lia|split; vm_compute; [reflexivity|discriminate]|vm_compute; reflexivity].
Defined.
