(* ===== verification/Mem.v ===== *)
(** * Byte-addressed memory and the block operations of the C library
    (lib/libc/memcpy.c, memmove.c, memset.c, bzero.c, memcmp.c).

    A memory maps the addresses that are present to bytes. Touching an address
    that is not present traps: the operation stops there with [EFAULT], and what
    it had stored before stays stored. Words are 32 bits, big-endian (MIPS). *)

From stdpp Require Import base numbers list gmap.
From Stdlib Require Import ZArith Lia.
From S2P Require Import Prelude.

Notation mem := (gmap Z Z).

Definition sizeof_long : Z := 4.

Definition load8 (a : Z) : E mem Z :=
  let! m := get in
  match m !! a with Some b => ok b | None => fail EFAULT end.

Definition store8 (a b : Z) : E mem unit :=
  let! m := get in
  match m !! a with
  | Some _ => do! put (<[a := u8 b]> m) in ok tt
  | None => fail EFAULT
  end.

(** A plain [char] is signed. *)
Definition schar (b : Z) : Z := (b + 2 ^ 7) mod 2 ^ 8 - 2 ^ 7.

Definition load_char (a : Z) : E mem Z := try! b := load8 a in ok (schar b).

(** Big-endian words. *)
Definition word_of_bytes (b3 b2 b1 b0 : Z) : Z :=
  Z.shiftl b3 24 + Z.shiftl b2 16 + Z.shiftl b1 8 + b0.

Definition word_at (m : mem) (a : Z) : option Z :=
  match m !! a, m !! (a + 1), m !! (a + 2), m !! (a + 3) with
  | Some b3, Some b2, Some b1, Some b0 => Some (word_of_bytes b3 b2 b1 b0)
  | _, _, _, _ => None
  end.

Definition set_word (m : mem) (a w : Z) : mem :=
  <[a := u8 (Z.shiftr w 24)]> (<[a + 1 := u8 (Z.shiftr w 16)]>
    (<[a + 2 := u8 (Z.shiftr w 8)]> (<[a + 3 := u8 w]> m))).

Definition load32 (a : Z) : E mem Z :=
  let! m := get in
  match word_at m a with Some w => ok w | None => fail EFAULT end.

Definition store32 (a w : Z) : E mem unit :=
  let! m := get in
  match word_at m a with
  | Some _ => do! put (set_word m a w) in ok tt
  | None => fail EFAULT
  end.

Definition aligned (a : Z) : bool := a mod sizeof_long =? 0.

Definition memcpy (dst src len : Z) : E mem unit :=
  if aligned dst && aligned src && aligned len then
    for_ (Z.to_nat (len / sizeof_long)) 0 (fun i =>
      try! w := load32 (src + i * sizeof_long) in store32 (dst + i * sizeof_long) w)
  else
    for_ (Z.to_nat len) 0 (fun i =>
      try! b := load8 (src + i) in store8 (dst + i) b).

(** [for (i=n; i>0; i--) body(i-1)] *)
Fixpoint for_down {S} (n : nat) (body : Z -> E S unit) : E S unit :=
  match n with
  | O => ok tt
  | S n' => try! _ := body (Z.of_nat n') in for_down n' body
  end.

Definition memmove (dst src len : Z) : E mem unit :=
  if dst <? src then memcpy dst src len
  else if aligned dst && aligned src && aligned len then
    for_down (Z.to_nat (len / sizeof_long)) (fun i =>
      try! w := load32 (src + i * sizeof_long) in store32 (dst + i * sizeof_long) w)
  else
    for_down (Z.to_nat len) (fun i =>
      try! b := load8 (src + i) in store8 (dst + i) b).

Definition memset (ptr ch len : Z) : E mem unit :=
  for_ (Z.to_nat len) 0 (fun i => store8 (ptr + i) ch).

Definition bzero (block len : Z) : E mem unit :=
  if aligned block && aligned len then
    for_ (Z.to_nat (len / sizeof_long)) 0 (fun i => store32 (block + i * sizeof_long) 0)
  else
    for_ (Z.to_nat len) 0 (fun i => store8 (block + i) 0).

(** [for (i=0; i<len; i++) if (a[i] != b[i]) return a[i]-b[i]; return 0;] *)
Fixpoint memcmp_from (n : nat) (av bv : Z) : E mem Z :=
  match n with
  | O => ok 0
  | S n' =>
      try! a := load8 av in
      try! b := load8 bv in
      if a =? b then memcmp_from n' (av + 1) (bv + 1) else ok (a - b)
  end.
Definition memcmp (av bv len : Z) : E mem Z := memcmp_from (Z.to_nat len) av bv.

(** ** Blocks of memory *)

(** Every address of [a, a+n) is present. *)
Definition mapped (m : mem) (a n : Z) : Prop := forall i, 0 <= i < n -> is_Some (m !! (a + i)).

(** Every byte stored is a byte. *)
Definition byte_mem (m : mem) : Prop := forall a b, m !! a = Some b -> is_u8 b.

(** [m'] is [m] with the bytes [lo <= i < hi] of the block at [dst] replaced by
    [f lo .. f (hi - 1)]. *)
Definition block_set (m : mem) (dst lo hi : Z) (f : Z -> option Z) (m' : mem) : Prop :=
  forall x, m' !! x = if bool_decide (lo <= x - dst < hi) then f (x - dst) else m !! x.

Lemma schar_range b : -128 <= schar b <= 127.
Proof. unfold schar. pose proof (Z.mod_pos_bound (b + 2 ^ 7) (2 ^ 8)). lia. Qed.

Lemma schar_0 b : is_u8 b -> schar b = 0 <-> b = 0.
Proof.
  unfold is_u8, schar. intros Hb. destruct (Z.lt_ge_cases b (2 ^ 7)).
  - rewrite Z.mod_small by lia. lia.
  - replace (b + 2 ^ 7) with (b - 2 ^ 7 + 1 * 2 ^ 8) by lia. rewrite Z.mod_add, Z.mod_small by lia. lia.
Qed.

Lemma schar_inj b c : is_u8 b -> is_u8 c -> schar b = schar c -> b = c.
Proof.
  unfold is_u8, schar. intros Hb Hc H.
  assert ((b + 2 ^ 7) mod 2 ^ 8 = (c + 2 ^ 7) mod 2 ^ 8) as Hm by lia.
  pose proof (Z.div_mod (b + 2 ^ 7) (2 ^ 8)). pose proof (Z.div_mod (c + 2 ^ 7) (2 ^ 8)). lia.
Qed.

Lemma block_set_refl m dst k f : block_set m dst k k f m.
Proof. intros x. by rewrite bool_decide_false by lia. Qed.

Lemma block_set_byte m dst lo hi f m' b k :
  block_set m dst lo hi f m' -> f k = Some b -> is_u8 b -> (k = hi /\ lo <= hi) \/ (k = lo - 1 /\ lo <= hi) ->
  block_set m dst (Z.min k lo) (Z.max (k + 1) hi) f (<[dst + k := u8 b]> m').
Proof.
  intros H Hf Hb Hk x. destruct (decide (x = dst + k)) as [->|Hne].
  - rewrite lookup_insert_eq, u8_id by done. rewrite bool_decide_true by lia.
    by replace (dst + k - dst) with k by lia.
  - rewrite lookup_insert_ne by done. rewrite H. repeat case_bool_decide; done || lia.
Qed.

Lemma word_of_bytes_lor b3 b2 b1 b0 :
  is_u8 b3 -> is_u8 b2 -> is_u8 b1 -> is_u8 b0 ->
  word_of_bytes b3 b2 b1 b0 = ((b3 * 256 + b2) * 256 + b1) * 256 + b0.
Proof. intros. unfold word_of_bytes. rewrite !Z.shiftl_mul_pow2 by lia. lia. Qed.

(** The four bytes of a word come back from it. *)
Lemma u8_word b3 b2 b1 b0 :
  is_u8 b3 -> is_u8 b2 -> is_u8 b1 -> is_u8 b0 ->
  let w := word_of_bytes b3 b2 b1 b0 in
  u8 (Z.shiftr w 24) = b3 /\ u8 (Z.shiftr w 16) = b2 /\ u8 (Z.shiftr w 8) = b1 /\ u8 w = b0.
Proof.
  intros H3 H2 H1 H0. cbv zeta. rewrite word_of_bytes_lor by done.
  unfold is_u8, u8 in *. rewrite !Z.shiftr_div_pow2 by lia.
  change (2 ^ 24) with 16777216. change (2 ^ 16) with 65536. change (2 ^ 8) with 256 in *.
  split_and!.
  - rewrite <- (Z.div_unique _ 16777216 b3 ((b2 * 256 + b1) * 256 + b0)) by lia. apply Z.mod_small. lia.
  - rewrite <- (Z.div_unique _ 65536 (b3 * 256 + b2) (b1 * 256 + b0)) by lia.
    rewrite Z.add_comm, Z.mod_add, Z.mod_small by lia. lia.
  - rewrite <- (Z.div_unique _ 256 ((b3 * 256 + b2) * 256 + b1) b0) by lia.
    rewrite Z.add_comm, Z.mod_add, Z.mod_small by lia. lia.
  - rewrite Z.add_comm, Z.mod_add, Z.mod_small by lia. lia.
Qed.

Lemma word_of_bytes_range b3 b2 b1 b0 :
  is_u8 b3 -> is_u8 b2 -> is_u8 b1 -> is_u8 b0 -> is_u32 (word_of_bytes b3 b2 b1 b0).
Proof. intros. rewrite word_of_bytes_lor by done. unfold is_u8, is_u32 in *. lia. Qed.

Lemma word_at_Some m a w : word_at m a = Some w <->
  exists b3 b2 b1 b0, m !! a = Some b3 /\ m !! (a + 1) = Some b2 /\ m !! (a + 2) = Some b1 /\
                      m !! (a + 3) = Some b0 /\ w = word_of_bytes b3 b2 b1 b0.
Proof. unfold word_at. repeat case_match; naive_solver. Qed.

Lemma lookup_insert_case (m : mem) a b x :
  <[a := b]> m !! x = if decide (x = a) then Some b else m !! x.
Proof. case_decide; subst; [apply lookup_insert_eq|by apply lookup_insert_ne]. Qed.

Lemma lookup_set_word m a w x :
  set_word m a w !! x =
  if decide (x = a) then Some (u8 (Z.shiftr w 24))
  else if decide (x = a + 1) then Some (u8 (Z.shiftr w 16))
  else if decide (x = a + 2) then Some (u8 (Z.shiftr w 8))
  else if decide (x = a + 3) then Some (u8 w) else m !! x.
Proof.
  unfold set_word. rewrite !lookup_insert_case. repeat (case_decide; try lia); done.
Qed.

Lemma block_set_word m dst lo hi f m' k b3 b2 b1 b0 :
  block_set m dst lo hi f m' ->
  f k = Some b3 -> f (k + 1) = Some b2 -> f (k + 2) = Some b1 -> f (k + 3) = Some b0 ->
  is_u8 b3 -> is_u8 b2 -> is_u8 b1 -> is_u8 b0 -> (k = hi /\ lo <= hi) \/ (k = lo - 4 /\ lo <= hi) ->
  block_set m dst (Z.min k lo) (Z.max (k + 4) hi) f (set_word m' (dst + k) (word_of_bytes b3 b2 b1 b0)).
Proof.
  intros H F3 F2 F1 F0 H3 H2 H1 H0 Hk x. rewrite lookup_set_word.
  destruct (u8_word b3 b2 b1 b0) as (-> & -> & -> & ->); try done.
  destruct (decide (x = dst + k)) as [->|N3]; [rewrite <- F3|
  destruct (decide (x = dst + k + 1)) as [->|N2]; [rewrite <- F2|
  destruct (decide (x = dst + k + 2)) as [->|N1]; [rewrite <- F1|
  destruct (decide (x = dst + k + 3)) as [->|N0]; [rewrite <- F0|rewrite H]]]];
    repeat case_bool_decide; try done; try lia; f_equal; lia.
Qed.

(** ** Copying *)

Lemma wp_load8 a (Q : errno + Z -> mem -> Prop) m b :
  m !! a = Some b -> Q (inr b) m -> wp (load8 a) Q m.
Proof. intros Hb HQ. unfold wp, load8, bind, get. by rewrite Hb. Qed.

Lemma wp_store8 a b (Q : errno + unit -> mem -> Prop) m :
  is_Some (m !! a) -> Q (inr tt) (<[a := u8 b]> m) -> wp (store8 a b) Q m.
Proof. intros [c Hc] HQ. unfold wp, store8, bind, get. by rewrite Hc. Qed.

Lemma wp_load32 a (Q : errno + Z -> mem -> Prop) m w :
  word_at m a = Some w -> Q (inr w) m -> wp (load32 a) Q m.
Proof. intros Hb HQ. unfold wp, load32, bind, get. by rewrite Hb. Qed.

Lemma wp_store32 a w (Q : errno + unit -> mem -> Prop) m :
  is_Some (word_at m a) -> Q (inr tt) (set_word m a w) -> wp (store32 a w) Q m.
Proof. intros [c Hc] HQ. unfold wp, store32, bind, get. by rewrite Hc. Qed.

Lemma word_at_mapped m a : mapped m a 4 -> is_Some (word_at m a).
Proof.
  intros H. destruct (H 0) as [b3 H3]; [lia|]. destruct (H 1) as [b2 H2]; [lia|].
  destruct (H 2) as [b1 H1]; [lia|]. destruct (H 3) as [b0 H0]; [lia|].
  rewrite Z.add_0_r in H3. unfold word_at. rewrite H3, H2, H1, H0. done.
Qed.

Lemma mapped_block_set m dst lo hi f m' a n :
  block_set m dst lo hi f m' -> (forall i, lo <= i < hi -> is_Some (f i)) -> mapped m a n -> mapped m' a n.
Proof. intros H Hf Hm i Hi. rewrite H. case_bool_decide; [by apply Hf|by apply Hm]. Qed.

Lemma mapped_sub m a n k l : mapped m a n -> 0 <= k -> k + l <= n -> mapped m (a + k) l.
Proof.
  intros H Hk Hl i Hi. destruct (H (k + i)) as [b Hb]; [lia|]. exists b.
  by replace (a + k + i) with (a + (k + i)) by lia.
Qed.

Section copy.
Context (m : mem) (dst src len : Z).
Hypothesis Hdst : mapped m dst len.
Hypothesis Hsrc : mapped m src len.
Hypothesis Hbytes : byte_mem m.

(** The bytes the copy is to put at [dst]. *)
Definition source (i : Z) : option Z := m !! (src + i).

Definition copied (lo hi : Z) : mem -> Prop := block_set m dst lo hi source.

(** The bytes of the source from [k] on are still those of [m]. *)
Definition unspoilt (lo hi k l : Z) : Prop :=
    forall i, k <= i < k + l -> ~ (lo <= src + i - dst < hi).

Lemma source_Some i : 0 <= i < len -> exists b, source i = Some b /\ is_u8 b.
Proof. intros Hi. destruct (Hsrc i Hi) as [b Hb]. exists b. split; [done|]. by eapply Hbytes. Qed.

Lemma copied_mapped lo hi m' a n : 0 <= lo -> hi <= len -> copied lo hi m' -> mapped m a n -> mapped m' a n.
Proof.
    intros Hlo Hhi Hc. eapply mapped_block_set; [done|]. intros i Hi.
    destruct (source_Some i) as (b & -> & _); [lia|done].
Qed.

Lemma copied_source lo hi m' k l i :
    copied lo hi m' -> unspoilt lo hi k l -> k <= i < k + l -> m' !! (src + i) = source i.
Proof. intros Hc Hu Hi. rewrite Hc, bool_decide_false; [done|]. by apply Hu. Qed.

Lemma copy_byte lo hi k m' :
    copied lo hi m' -> 0 <= lo <= hi -> hi <= len -> (k = hi \/ k = lo - 1) -> 0 <= k < len ->
    unspoilt lo hi k 1 ->
    wp (try! b := load8 (src + k) in store8 (dst + k) b)
       (fun r t => r = inr tt /\ copied (Z.min k lo) (Z.max (k + 1) hi) t) m'.
Proof.
    intros Hc Hlo Hhi Hk Hk' Hu. destruct (source_Some k Hk') as (b & Hb & Hu8).
    wp_step. eapply wp_load8; [rewrite (copied_source _ _ _ _ _ _ Hc Hu) by lia; exact Hb|].
    eapply wp_store8; [apply (copied_mapped lo hi m' dst len); (done || lia)|].
    split; [done|]. apply block_set_byte; [done|done|done|lia].
Qed.

Lemma copy_word lo hi k m' :
    copied lo hi m' -> 0 <= lo <= hi -> hi <= len -> (k = hi \/ k = lo - 4) -> 0 <= k -> k + 4 <= len ->
    unspoilt lo hi k 4 ->
    wp (try! w := load32 (src + k) in store32 (dst + k) w)
       (fun r t => r = inr tt /\ copied (Z.min k lo) (Z.max (k + 4) hi) t) m'.
Proof.
    intros Hc Hlo Hhi Hk Hk0 Hk' Hu.
    destruct (source_Some k) as (b3 & H3 & U3); [lia|].
    destruct (source_Some (k + 1)) as (b2 & H2 & U2); [lia|].
    destruct (source_Some (k + 2)) as (b1 & H1 & U1); [lia|].
    destruct (source_Some (k + 3)) as (b0 & H0 & U0); [lia|].
    wp_step. eapply wp_load32.
    { apply word_at_Some. exists b3, b2, b1, b0.
      rewrite <- H3, <- H2, <- H1, <- H0, <- !Z.add_assoc.
      split_and!; try apply (copied_source _ _ _ _ _ _ Hc Hu); done || lia. }
    eapply wp_store32.
    { apply word_at_mapped. apply (copied_mapped lo hi m'); [lia|lia|done|].
      by apply (mapped_sub m dst len). }
    split; [done|]. apply block_set_word; (done || lia).
Qed.

Lemma aligned_len : 0 <= len -> aligned len = true -> len / sizeof_long * 4 = len.
Proof.
    unfold aligned, sizeof_long. intros Hl Ha%Z.eqb_eq. pose proof (Z.div_mod len 4). lia.
Qed.

(** Copying forwards is right when no source byte is overwritten before it is read. *)
Lemma memcpy_correct :
    0 <= len -> (dst <= src \/ src + len <= dst) ->
    wp (memcpy dst src len) (fun r t => r = inr tt /\ copied 0 len t) m.
Proof.
    intros Hlen Hov. unfold memcpy.
    destruct (aligned dst && aligned src && aligned len) eqn:Ha.
    - apply andb_true_iff in Ha as [_ Ha]. pose proof (aligned_len Hlen Ha) as Hq.
      apply wp_for with (I := fun i t => copied 0 (i * 4) t).
      + apply block_set_refl.
      + intros i t Hi Hc. eapply wp_mono; [apply (copy_word 0 (i * 4)); try done; try (unfold sizeof_long; lia)|].
        * unfold sizeof_long, unspoilt. lia.
        * intros r t' [-> H]. unfold sizeof_long in H.
          rewrite Z.min_r, Z.max_l in H by lia. by replace ((i + 1) * 4) with (i * 4 + 4) by lia.
      + intros t H. split; [done|]. rewrite Z.add_0_l, Z2Nat.id, Hq in H; [done|].
        apply Z.div_pos; [done|]. unfold sizeof_long. lia.
    - apply wp_for with (I := fun i t => copied 0 i t).
      + apply block_set_refl.
      + intros i t Hi Hc. eapply wp_mono; [apply (copy_byte 0 i); try done; try lia|].
        * unfold unspoilt. lia.
        * intros r t' [-> H]. rewrite Z.min_r, Z.max_l in H by lia. done.
      + intros t H. split; [done|]. by rewrite Z.add_0_l, Z2Nat.id in H by lia.
Qed.

Lemma wp_for_down {S} (I : Z -> S -> Prop) n (body : Z -> E S unit) s (Q : errno + unit -> S -> Prop) :
    I (Z.of_nat n) s ->
    (forall k t, 0 <= k < Z.of_nat n -> I (k + 1) t ->
       wp (body k) (fun r t' => match r with inr _ => I k t' | inl e => Q (inl e) t' end) t) ->
    (forall t, I 0 t -> Q (inr tt) t) ->
    wp (for_down n body) Q s.
Proof.
    revert s. induction n as [|n IH]; intros s HI Hb HQ; simpl.
    - by apply HQ.
    - apply wp_tbind. eapply wp_mono; [apply Hb; [lia|]|].
      + by replace (Z.of_nat n + 1) with (Z.of_nat (Datatypes.S n)) by lia.
      + intros [e|[]] t Ht; [done|]. apply IH; [done| |done]. intros k t' Hk. apply Hb. lia.
Qed.

(** Copying backwards is right when the destination is not below the source. *)
Lemma memmove_correct :
    0 <= len -> wp (memmove dst src len) (fun r t => r = inr tt /\ copied 0 len t) m.
Proof.
    intros Hlen. unfold memmove. destruct (Z.ltb_spec dst src); [apply memcpy_correct; lia|].
    destruct (aligned dst && aligned src && aligned len) eqn:Ha.
    - apply andb_true_iff in Ha as [_ Ha]. pose proof (aligned_len Hlen Ha) as Hq.
      assert (0 <= len / sizeof_long) by (apply Z.div_pos; [done|unfold sizeof_long; lia]).
      apply wp_for_down with (I := fun i t => copied (i * 4) len t).
      + rewrite Z2Nat.id, Hq by done. apply block_set_refl.
      + intros i t Hi Hc.
        eapply wp_mono; [apply (copy_word ((i + 1) * 4) len); try done; try (unfold sizeof_long; lia)|].
        * unfold sizeof_long, unspoilt. lia.
        * intros r t' [-> H']. unfold sizeof_long in H'. by rewrite Z.min_l, Z.max_r in H' by lia.
      + intros t H'. split; [done|]. by rewrite Z.mul_0_l in H'.
    - apply wp_for_down with (I := fun i t => copied i len t).
      + rewrite Z2Nat.id by done. apply block_set_refl.
      + intros i t Hi Hc. eapply wp_mono; [apply (copy_byte (i + 1) len); try done; try lia|].
        * unfold unspoilt. lia.
        * intros r t' [-> H']. by rewrite Z.min_l, Z.max_r in H' by lia.
      + intros t H'. by split.
Qed.
End copy.

(** ** Filling and comparing *)

Lemma wp_for_fill (m : mem) dst len c :
  mapped m dst len -> is_u8 c -> 0 <= len ->
  wp (for_ (Z.to_nat len) 0 (fun i => store8 (dst + i) c))
     (fun r t => r = inr tt /\ block_set m dst 0 len (fun _ => Some c) t) m.
Proof.
  intros Hm Hc Hlen. apply wp_for with (I := fun i t => block_set m dst 0 i (fun _ => Some c) t).
  - apply block_set_refl.
  - intros i t Hi Ht. eapply wp_store8.
    + eapply (mapped_block_set m dst 0 i); [done|by eexists|exact Hm|lia].
    + pose proof (block_set_byte m dst 0 i _ t c i Ht eq_refl Hc ltac:(lia)) as H.
      by rewrite Z.min_r, Z.max_l in H by lia.
  - intros t Ht. split; [done|]. by rewrite Z.add_0_l, Z2Nat.id in Ht by lia.
Qed.

Lemma memset_correct (m : mem) p c len :
  mapped m p len -> is_u8 c -> 0 <= len ->
  wp (memset p c len) (fun r t => r = inr tt /\ block_set m p 0 len (fun _ => Some c) t) m.
Proof. apply wp_for_fill. Qed.

Lemma bzero_correct (m : mem) p len :
  mapped m p len -> 0 <= len ->
  wp (bzero p len) (fun r t => r = inr tt /\ block_set m p 0 len (fun _ => Some 0) t) m.
Proof.
  intros Hm Hlen. unfold bzero. destruct (aligned p && aligned len) eqn:Ha.
  - apply andb_true_iff in Ha as [_ Ha]. pose proof (aligned_len len Hlen Ha) as Hq.
    apply wp_for with (I := fun i t => block_set m p 0 (i * 4) (fun _ => Some 0) t).
    + apply block_set_refl.
    + intros i t Hi Ht. unfold sizeof_long in *. eapply wp_store32.
      * apply word_at_mapped. eapply (mapped_block_set m p 0 (i * 4)); [done|by eexists|].
        apply (mapped_sub m p len); [done|lia|lia].
      * pose proof (block_set_word m p 0 (i * 4) _ t (i * 4) 0 0 0 0 Ht) as H.
        rewrite Z.min_r, Z.max_l in H by lia. replace ((i + 1) * 4) with (i * 4 + 4) by lia.
        apply H; try done; lia.
    + intros t Ht. split; [done|]. rewrite Z.add_0_l, Z2Nat.id, Hq in Ht; [done|].
      apply Z.div_pos; [done|]. unfold sizeof_long. lia.
  - apply wp_for_fill; [done|unfold is_u8; lia|done].
Qed.

(** [memcmp] looks for the first difference of two lists of bytes. *)
Fixpoint first_difference (a b : list Z) : Z :=
  match a, b with
  | x :: a, y :: b => if x =? y then first_difference a b else x - y
  | _, _ => 0
  end.

(** The bytes of [a, a+n) are [bs]. *)
Fixpoint bytes_at (m : mem) (a : Z) (bs : list Z) : Prop :=
  match bs with
  | [] => True
  | b :: bs => m !! a = Some b /\ bytes_at m (a + 1) bs
  end.

Lemma memcmp_correct (m : mem) av bv xs ys :
  bytes_at m av xs -> bytes_at m bv ys -> length xs = length ys ->
  memcmp av bv (lenZ xs) m = Done (inr (first_difference xs ys)) m.
Proof.
  unfold memcmp, lenZ. rewrite Nat2Z.id. revert av bv ys.
  induction xs as [|x xs IH]; intros av bv [|y ys] Hx Hy Hl; try done.
  destruct Hx as [Hx Hxs], Hy as [Hy Hys]. simpl.
  unfold tbind, bind, load8, get, ok, ret, bind. rewrite Hx, Hy. case_match; [|done].
  apply IH; [done|done|]. simpl in Hl. lia.
Qed.

Lemma bytes_at_app m a xs ys : bytes_at m a (xs ++ ys) <-> bytes_at m a xs /\ bytes_at m (a + lenZ xs) ys.
Proof.
  revert a. induction xs as [|x xs IH]; intros a; simpl.
  - rewrite Z.add_0_r. tauto.
  - rewrite IH. replace (a + 1 + lenZ xs) with (a + lenZ (x :: xs)) by (unfold lenZ; simpl; lia). tauto.
Qed.

Lemma bytes_at_lookup m a xs : bytes_at m a xs <-> forall i x, nthZ xs i = Some x -> m !! (a + i) = Some x.
Proof.
  revert a. induction xs as [|x xs IH]; intros a.
  - split; [|done]. intros _ i y Hy. apply nthZ_Some_lt in Hy. change (lenZ (@nil Z)) with 0 in Hy. lia.
  - simpl. rewrite IH. split.
    + intros [Hx H] i y Hy. pose proof (nthZ_Some_lt _ _ _ Hy). rewrite nthZ_to_nat in Hy by lia.
      destruct (decide (i = 0)) as [->|].
      * rewrite Z.add_0_r. simpl in Hy. congruence.
      * replace (a + i) with (a + 1 + (i - 1)) by lia. apply H. rewrite nthZ_to_nat by lia.
        replace (Z.to_nat i) with (S (Z.to_nat (i - 1))) in Hy by lia. done.
    + intros H. split.
      * specialize (H 0 x). rewrite Z.add_0_r in H. by apply H.
      * intros i y Hy. pose proof (nthZ_Some_lt _ _ _ Hy). rewrite nthZ_to_nat in Hy by lia.
        replace (a + 1 + i) with (a + (i + 1)) by lia. apply H. rewrite nthZ_to_nat by lia.
        by replace (Z.to_nat (i + 1)) with (S (Z.to_nat i)) by lia.
Qed.

Lemma bytes_at_mapped m a xs : bytes_at m a xs -> mapped m a (lenZ xs).
Proof.
  rewrite bytes_at_lookup. intros H i Hi. destruct (nthZ_is_Some xs i Hi) as [x Hx]. exists x. by apply H.
Qed.

(** ** Properties *)

(** [memmove] copies correctly whatever the overlap, in either of its three
    copying orders (forward, backward, by bytes or by words): when both blocks are
    present the call completes, the destination holds what the source held before
    the call and no other byte of memory changes. *)
Theorem memmove_any_overlap (m : mem) (dst src len : Z) :
  mapped m dst len -> mapped m src len -> byte_mem m -> 0 <= len ->
  exists m', memmove dst src len m = Done (inr tt) m' /\
    (forall i, 0 <= i < len -> m' !! (dst + i) = m !! (src + i)) /\
    (forall x, ~ (dst <= x < dst + len) -> m' !! x = m !! x).
Proof.
  intros Hd Hs Hb Hl.
  destruct (wp_done _ _ _ (memmove_correct m dst src len Hd Hs Hb Hl)) as (r & m' & Hrun & -> & Hc).
  exists m'. split; [done|]. split.
  - intros i Hi. rewrite Hc, bool_decide_true by lia. unfold source. f_equal. lia.
  - intros x Hx. by rewrite Hc, bool_decide_false by lia.
Qed.

Definition demo_mem : mem := list_to_map [(100, 1); (101, 2); (102, 3); (103, 4); (104, 5)].

Lemma demo_mem_mapped a n : 100 <= a -> a + n <= 105 -> mapped demo_mem a n.
Proof.
  intros Ha Hn i Hi.
  assert (a + i = 100 \/ a + i = 101 \/ a + i = 102 \/ a + i = 103 \/ a + i = 104) as Hc by lia.
  destruct Hc as [->|[->|[->|[->| ->]]]]; by eexists.
Defined.

Lemma demo_mem_bytes : byte_mem demo_mem.
Proof.
  intros a b H. apply elem_of_list_to_map_2 in H. set_unfold. unfold is_u8. naive_solver lia.
Qed.

Lemma memmove_any_overlap_witness :
  exists m', memmove 101 100 4 demo_mem = Done (inr tt) m' /\ m' !! 104 = Some 4.
Proof.
  destruct (memmove_any_overlap demo_mem 101 100 4) as (m' & Hrun & Hd & _);
    [apply demo_mem_mapped; lia|apply demo_mem_mapped; lia|exact demo_mem_bytes|lia|].
  exists m'. split; [exact Hrun|]. exact (Hd 3 ltac:(lia)).
Defined.
