(* ===== verification/Cstring.v ===== *)
(** * C strings (lib/libc/strlen.c, strcmp.c, strcpy.c, strcat.c, strchr.c,
    strrchr.c, strtok_r.c, atoi.c).

    The functions run on the byte memory of Mem.v. [cstr m a s] says the string at
    address [a] is [s]; every function is proved equal to a function on lists, and
    the parts of the kernel that only pass strings around use those lists. A scan
    never takes more steps than there are bytes in memory, which is its fuel. *)

From stdpp Require Import base numbers list gmap.
From Stdlib Require Import ZArith Lia.
From S2P Require Import Prelude Mem.

(** Fuel for a scan. *)
Definition scan_fuel (m : mem) : nat := S (size m).

(** [while (s[ret]) ret++;] *)
Fixpoint strlen_from (fuel : nat) (s ret : Z) : E mem Z :=
  try! c := load_char (s + ret) in
  if c =? 0 then ok ret
  else match fuel with O => out_of_fuel | S fuel => strlen_from fuel s (ret + 1) end.
Definition strlen (s : Z) : E mem Z := let! m := get in strlen_from (scan_fuel m) s 0.

Fixpoint strcmp_from (fuel : nat) (a b i : Z) : E mem Z :=
  try! x := load_char (a + i) in
  try! go := (if x =? 0 then ok false
              else try! y := load_char (b + i) in ok (x =? y)) in
  if go then
    match fuel with O => out_of_fuel | S fuel => strcmp_from fuel a b (i + 1) end
  else
    try! y := load_char (b + i) in
    if y <? x then ok 1 else if x =? y then ok 0 else ok (-1).
Definition strcmp (a b : Z) : E mem Z := let! m := get in strcmp_from (scan_fuel m) a b 0.

(** [for (i=0; src[i]; i++) dest[i] = src[i]; dest[i] = 0;] *)
Fixpoint strcpy_from (fuel : nat) (dest src i : Z) : E mem Z :=
  try! c := load8 (src + i) in
  if c =? 0 then try! _ := store8 (dest + i) 0 in ok dest
  else
    try! _ := store8 (dest + i) c in
    match fuel with O => out_of_fuel | S fuel => strcpy_from fuel dest src (i + 1) end.
Definition strcpy (dest src : Z) : E mem Z := let! m := get in strcpy_from (scan_fuel m) dest src 0.

Definition strcat (dest src : Z) : E mem Z :=
  try! offset := strlen dest in
  try! _ := strcpy (dest + offset) src in
  ok dest.

Fixpoint strchr_from (fuel : nat) (s ch : Z) : E mem (option Z) :=
  try! c := load_char s in
  if c =? 0 then ok (if c =? ch then Some s else None)
  else if c =? ch then ok (Some s)
  else match fuel with O => out_of_fuel | S fuel => strchr_from fuel (s + 1) ch end.
Definition strchr (s ch : Z) : E mem (option Z) := let! m := get in strchr_from (scan_fuel m) s ch.

(** [while (i>0) { i--; if (s[i]==ch) return s+i; } return NULL;] *)
Fixpoint strrchr_from (i : nat) (s ch : Z) : E mem (option Z) :=
  match i with
  | O => ok None
  | S i' =>
      try! c := load_char (s + Z.of_nat i') in
      if c =? ch then ok (Some (s + Z.of_nat i')) else strrchr_from i' s ch
  end.
Definition strrchr (s ch : Z) : E mem (option Z) :=
  try! n := strlen s in
  strrchr_from (Z.to_nat (u32 (n + 1))) s ch.

(** [while ( *p && strchr(seps, *p) == want) p++;] where [want] says found or not. *)
Fixpoint strtok_scan (fuel : nat) (want : bool) (seps p : Z) : E mem Z :=
  try! c := load_char p in
  if c =? 0 then ok p
  else
    try! w := strchr seps c in
    if eqb (bool_decide (is_Some w)) want then
      match fuel with O => out_of_fuel | S fuel => strtok_scan fuel want seps (p + 1) end
    else ok p.

(** Returns the word, and the new value of the context. *)
Definition strtok_r (string : option Z) (seps : Z) (context : option Z)
  : E mem (option Z * option Z) :=
  let context := match string with Some s => Some s | None => context end in
  match context with
  | None => ok (None, context)
  | Some head =>
      let! m := get in
      try! head := strtok_scan (scan_fuel m) true seps head in
      try! c := load_char head in
      if c =? 0 then ok (None, None)
      else
        try! tail := strtok_scan (scan_fuel m) false seps head in
        try! t := load_char tail in
        if t =? 0 then ok (Some head, None)
        else
          try! _ := store8 tail 0 in
          ok (Some head, Some (tail + 1))
  end.

(** [while ( *s==' ' || *s=='\t') s++;] *)
Fixpoint skip_blanks (fuel : nat) (s : Z) : E mem Z :=
  try! c := load_char s in
  if (c =? 32) || (c =? 9) then
    match fuel with O => out_of_fuel | S fuel => skip_blanks fuel (s + 1) end
  else ok s.

(** The index of a character in the static string "0123456789". *)
Definition digit_index (c : Z) : option Z :=
  if (48 <=? c) && (c <=? 57) then Some (c - 48) else None.

(** The digit loop, on the unsigned accumulator. *)
Fixpoint atoi_digits (fuel : nat) (s val : Z) : E mem Z :=
  try! c := load_char s in
  if c =? 0 then ok val
  else
    match digit_index c with
    | None => ok val
    | Some digit =>
        match fuel with
        | O => out_of_fuel
        | S fuel => atoi_digits fuel (s + 1) (u32 (u32 (val * 10) + digit))
        end
    end.

Definition atoi (s : Z) : E mem Z :=
  let! m := get in
  try! s := skip_blanks (scan_fuel m) s in
  try! c := load_char s in
  let neg := c =? 45 in
  let s := if neg then s + 1 else s in
  try! val := atoi_digits (scan_fuel m) s 0 in
  ok (if neg then s32 (u32 (- val)) else s32 val).

(** ** Strings in memory *)

Definition nonzero_bytes (s : list Z) : Prop := Forall (fun b => is_u8 b /\ b <> 0) s.

Definition cstr (m : mem) (a : Z) (s : list Z) : Prop :=
  nonzero_bytes s /\ bytes_at m a (s ++ [0]).

Lemma cstr_nil m a : cstr m a [] <-> m !! a = Some 0.
Proof. unfold cstr, nonzero_bytes. simpl. naive_solver. Qed.

Lemma cstr_cons m a b s : cstr m a (b :: s) <-> is_u8 b /\ b <> 0 /\ m !! a = Some b /\ cstr m (a + 1) s.
Proof. unfold cstr, nonzero_bytes. simpl. rewrite Forall_cons. tauto. Qed.

Lemma cstr_app m a s t : nonzero_bytes s -> cstr m a (s ++ t) <-> bytes_at m a s /\ cstr m (a + lenZ s) t.
Proof.
  intros Hs. unfold cstr, nonzero_bytes in *. rewrite Forall_app, <- app_assoc, bytes_at_app. tauto.
Qed.

(** A block of [n] present bytes needs [n] entries of memory. *)
Lemma mapped_size (m : mem) a n : mapped m a (Z.of_nat n) -> (n <= size m)%nat.
Proof.
  revert m a. induction n as [|n IH]; intros m a Hm; [lia|].
  destruct (Hm 0) as [b Hb]; [lia|]. rewrite Z.add_0_r in Hb.
  rewrite <- (insert_delete_id m a b Hb), map_size_insert_None by apply lookup_delete_eq.
  apply le_n_S, (IH _ (a + 1)). intros i Hi. rewrite lookup_delete_ne by lia.
  replace (a + 1 + i) with (a + (i + 1)) by lia. apply Hm. lia.
Qed.

Lemma cstr_fuel m a s : cstr m a s -> (length s < scan_fuel m)%nat.
Proof.
  intros [_ H]. apply bytes_at_mapped in H. unfold lenZ in H. apply mapped_size in H.
  rewrite length_app in H. simpl in H. unfold scan_fuel. lia.
Qed.

Lemma load_char_run m a b : m !! a = Some b -> load_char a m = Done (inr (schar b)) m.
Proof. intros H. unfold load_char, load8, tbind, bind, get, ok, ret. by rewrite H. Qed.

Lemma load8_run m a b : m !! a = Some b -> load8 a m = Done (inr b) m.
Proof. intros H. unfold load8, bind, get, ok, ret. by rewrite H. Qed.

Lemma schar_nonzero b : is_u8 b -> b <> 0 -> (schar b =? 0) = false.
Proof. intros Hb Hn. apply Z.eqb_neq. by rewrite schar_0. Qed.

Lemma schar_eqb b c : is_u8 b -> is_u8 c -> (schar b =? schar c) = (b =? c).
Proof.
  intros Hb Hc. destruct (Z.eqb_spec b c) as [->|Hn]; [apply Z.eqb_refl|].
  apply Z.eqb_neq. intros H. by apply Hn, schar_inj.
Qed.

Lemma strlen_from_correct m a s : forall fuel k, cstr m (a + k) s -> (length s <= fuel)%nat ->
  strlen_from fuel a k m = Done (inr (k + lenZ s)) m.
Proof.
  induction s as [|b s IH]; intros fuel k Hc Hf.
  - apply cstr_nil in Hc. destruct fuel; cbn [strlen_from];
      rewrite (tbind_done _ _ _ _ _ (load_char_run _ _ _ Hc));
      change (schar 0 =? 0) with true; cbv iota; unfold ok, ret, lenZ; simpl; by rewrite Z.add_0_r.
  - apply cstr_cons in Hc as (Hb & Hn & Hl & Hc). destruct fuel as [|fuel]; [simpl in Hf; lia|].
    cbn [strlen_from]. rewrite (tbind_done _ _ _ _ _ (load_char_run _ _ _ Hl)), schar_nonzero by done.
    cbv iota. rewrite IH; [|by rewrite Z.add_assoc|simpl in Hf; lia].
    do 2 f_equal. unfold lenZ. simpl. lia.
Qed.

Lemma strlen_correct m a s : cstr m a s -> strlen a m = Done (inr (lenZ s)) m.
Proof.
  intros Hc. unfold strlen. unfold bind, get. rewrite (strlen_from_correct m a s); [done|by rewrite Z.add_0_r|].
  apply cstr_fuel in Hc. lia.
Qed.

(** The order of two strings of signed characters. *)
Fixpoint str_order (s t : list Z) : Z :=
  match s, t with
  | [], [] => 0
  | [], c :: _ => if schar c <? 0 then 1 else -1
  | b :: _, [] => if 0 <? schar b then 1 else -1
  | b :: s, c :: t => if b =? c then str_order s t else if schar c <? schar b then 1 else -1
  end.

Lemma str_order_0 s t : nonzero_bytes s -> nonzero_bytes t -> str_order s t = 0 <-> s = t.
Proof.
  revert t. induction s as [|b s IH]; intros [|c t] Hs Ht; simpl; try (split; [|done]; by case_match).
  - done.
  - inversion Hs; inversion Ht; subst. destruct (Z.eqb_spec b c) as [->|Hn].
    + rewrite IH by done. naive_solver.
    + split; [by case_match|]. congruence.
Qed.

(** Runs the load of a character known to be present. *)
Ltac run_load H := rewrite (tbind_done _ _ _ _ _ (load_char_run _ _ _ H)); cbv beta.

Lemma strcmp_from_correct m a b s : forall t fuel k, cstr m (a + k) s -> cstr m (b + k) t ->
  (length s <= fuel)%nat -> strcmp_from fuel a b k m = Done (inr (str_order s t)) m.
Proof.
  assert (schar 0 = 0) as Z0 by reflexivity.
  induction s as [|x s IH]; intros [|y t] fuel k Hs Ht Hf;
    rewrite ?cstr_nil, ?cstr_cons in Hs; rewrite ?cstr_nil, ?cstr_cons in Ht.
  - destruct fuel; cbn [strcmp_from]; run_load Hs; rewrite Z0, Z.eqb_refl; cbv iota; rewrite tbind_ok; cbv iota; by run_load Ht.
  - destruct Ht as (Hy & Hny & Ht & _). assert (schar y <> 0) by (by rewrite schar_0).
    destruct fuel; cbn [strcmp_from]; run_load Hs; rewrite Z0, Z.eqb_refl; cbv iota; rewrite tbind_ok; cbv iota; run_load Ht;
      simpl; destruct (Z.ltb_spec (schar y) 0); try done; destruct (Z.eqb_spec 0 (schar y)); done || lia.
  - destruct Hs as (Hx & Hnx & Hs & _).
    destruct fuel as [|fuel]; [simpl in Hf; lia|].
    cbn [strcmp_from]. run_load Hs. rewrite schar_nonzero by done. cbv iota.
    assert ((schar x =? schar 0) = false) as Hx0 by (rewrite Z0; by apply schar_nonzero).
    rewrite (tbind_done _ _ _ false m) by (run_load Ht; by rewrite Hx0).
    cbv iota. run_load Ht. rewrite Hx0, Z0. simpl. by case_match.
  - destruct Hs as (Hx & Hnx & Hs & Hs'). destruct Ht as (Hy & Hny & Ht & Ht').
    destruct fuel as [|fuel]; [simpl in Hf; lia|].
    cbn [strcmp_from]. run_load Hs. rewrite schar_nonzero by done. cbv iota.
    rewrite (tbind_done _ _ _ (x =? y) m) by (run_load Ht; by rewrite schar_eqb).
    simpl. destruct (Z.eqb_spec x y) as [->|Hn].
    + apply IH; [by rewrite Z.add_assoc|by rewrite Z.add_assoc|simpl in Hf; lia].
    + run_load Ht. rewrite schar_eqb by done. rewrite (proj2 (Z.eqb_neq x y) Hn). by case_match.
Qed.

Lemma strcmp_correct m a b s t : cstr m a s -> cstr m b t -> strcmp a b m = Done (inr (str_order s t)) m.
Proof.
  intros Hs Ht. unfold strcmp. unfold bind, get.
  apply strcmp_from_correct; rewrite ?Z.add_0_r; [done|done|]. apply cstr_fuel in Hs. lia.
Qed.

(** ** Copying and concatenating *)

Lemma strcpy_from_correct m dest src s0 : forall s fuel k m',
  cstr m (src + k) s -> mapped m dest (k + lenZ s + 1) -> 0 <= k ->
  (dest + (k + lenZ s + 1) <= src \/ src + (k + lenZ s + 1) <= dest) ->
  (forall i, k <= i < k + lenZ s + 1 -> s0 i = m !! (src + i)) ->
  block_set m dest 0 k s0 m' -> (forall i, 0 <= i < k -> is_Some (s0 i)) -> (length s <= fuel)%nat ->
  wp (strcpy_from fuel dest src k)
     (fun r t => r = inr dest /\ block_set m dest 0 (k + lenZ s + 1) s0 t) m'.
Proof.
  induction s as [|b s IH]; intros fuel k m' Hs Hd Hk Hov H0 Hc Hm Hf.
  - apply cstr_nil in Hs. change (lenZ []) with 0 in *. rewrite Z.add_0_r in *.
    assert (m' !! (src + k) = Some 0) as Hl by (rewrite Hc, bool_decide_false; [done|lia]).
    assert (is_Some (m' !! (dest + k))) as Hst.
    { apply (mapped_block_set m dest 0 k s0 m' dest (k + 1)); [done|done|done|lia]. }
    pose proof (block_set_byte m dest 0 k s0 m' 0 k Hc) as Hb.
    rewrite H0, Hs in Hb by lia. specialize (Hb eq_refl ltac:(done) ltac:(lia)).
    rewrite Z.min_r, Z.max_l in Hb by lia.
    destruct fuel; cbn [strcpy_from]; wp_step; eapply wp_load8; [exact Hl| |exact Hl|];
      cbv beta iota; change (0 =? 0) with true; cbv iota; wp_step; (apply wp_store8; [done|]);
      wp_steps; done.
  - apply cstr_cons in Hs as (Hb & Hn & Hl & Hs). destruct fuel as [|fuel]; [simpl in Hf; lia|].
    assert (lenZ (b :: s) = lenZ s + 1) as Hlen by (unfold lenZ; simpl; lia). rewrite Hlen in *.
    pose proof (lenZ_nonneg s).
    assert (m' !! (src + k) = Some b) as Hl' by (rewrite Hc, bool_decide_false; [done|lia]).
    assert (is_Some (m' !! (dest + k))) as Hst.
    { apply (mapped_block_set m dest 0 k s0 m' dest (k + (lenZ s + 1) + 1)); [done|done|done|lia]. }
    pose proof (block_set_byte m dest 0 k s0 m' b k Hc) as Hb'.
    rewrite H0, Hl in Hb' by lia. specialize (Hb' eq_refl Hb ltac:(lia)).
    rewrite Z.min_r, Z.max_l in Hb' by lia.
    cbn [strcpy_from]. wp_step. eapply wp_load8; [exact Hl'|]. cbv beta iota.
    rewrite (proj2 (Z.eqb_neq b 0) Hn). wp_step. apply wp_store8; [done|].
    replace (k + (lenZ s + 1) + 1) with (k + 1 + lenZ s + 1) in * by lia.
    apply IH; try done; try lia.
    + by rewrite Z.add_assoc.
    + intros i Hi. apply H0. lia.
    + intros i Hi. destruct (decide (i = k)) as [->|]; [rewrite H0 by lia; by rewrite Hl|apply Hm; lia].
    + simpl in Hf. lia.
Qed.

(** [strcpy] copies the string and its terminator between blocks that do not overlap. *)
Lemma strcpy_correct m dest src s :
  cstr m src s -> mapped m dest (lenZ s + 1) ->
  (dest + (lenZ s + 1) <= src \/ src + (lenZ s + 1) <= dest) ->
  wp (strcpy dest src)
     (fun r t => r = inr dest /\ cstr t dest s /\
                 forall x, ~ (dest <= x < dest + lenZ s + 1) -> t !! x = m !! x) m.
Proof.
  intros Hs Hd Hov. unfold strcpy. wp_steps. pose proof (cstr_fuel _ _ _ Hs).
  eapply wp_mono;
    [apply (strcpy_from_correct m dest src (fun i => m !! (src + i)) s (scan_fuel m) 0 m);
       rewrite ?Z.add_0_r, ?Z.add_0_l; try done; try lia; apply block_set_refl|].
  intros r t (-> & Ht). rewrite Z.add_0_l in Ht. split; [done|]. split.
  - split; [apply Hs|]. apply bytes_at_lookup. intros i x Hx. rewrite Ht.
    pose proof (nthZ_Some_lt _ _ _ Hx) as Hi. rewrite lenZ_app in Hi. change (lenZ [0]) with 1 in Hi.
    rewrite bool_decide_true by lia. replace (dest + i - dest) with i by lia.
    by apply (proj1 (bytes_at_lookup _ _ _) (proj2 Hs)).
  - intros x Hx. rewrite Ht, bool_decide_false by lia. done.
Qed.

Lemma cstr_frame m m' a s :
  cstr m a s -> (forall x, a <= x <= a + lenZ s -> m' !! x = m !! x) -> cstr m' a s.
Proof.
  intros [Hn Hb] H. split; [done|]. rewrite bytes_at_lookup in Hb |- *. intros i x Hx.
  pose proof (nthZ_Some_lt _ _ _ Hx) as Hi. rewrite lenZ_app in Hi. change (lenZ [0]) with 1 in Hi.
  rewrite H by lia. by apply Hb.
Qed.

Lemma strcat_correct m dest src s t :
  cstr m dest t -> cstr m src s -> mapped m dest (lenZ t + lenZ s + 1) ->
  (dest + (lenZ t + lenZ s + 1) <= src \/ src + (lenZ s + 1) <= dest + lenZ t) ->
  wp (strcat dest src) (fun r m' => r = inr dest /\ cstr m' dest (t ++ s)) m.
Proof.
  intros Ht Hs Hd Hov. pose proof (lenZ_nonneg t). pose proof (lenZ_nonneg s).
  unfold strcat. wp_step. unfold wp at 1. rewrite (strlen_correct _ _ _ Ht). cbv beta iota.
  wp_step. eapply wp_mono; [apply (strcpy_correct m (dest + lenZ t) src s Hs)|].
  - eapply mapped_sub; [exact Hd|done|lia].
  - lia.
  - intros r m' (-> & Hc & Hf). wp_steps. split; [done|]. apply cstr_app; [apply Ht|].
    split; [|done]. destruct Ht as [_ Ht]. apply bytes_at_app in Ht as [Ht _].
    rewrite bytes_at_lookup in Ht |- *. intros i x Hx. rewrite Hf; [by apply Ht|].
    pose proof (nthZ_Some_lt _ _ _ Hx). lia.
Qed.

(** ** Searching *)

Fixpoint str_index (c : Z) (s : list Z) : option Z :=
  match s with
  | [] => if c =? 0 then Some 0 else None
  | b :: s => if b =? c then Some 0 else Z.succ <$> str_index c s
  end.

Lemma str_index_In c s : c <> 0 -> is_Some (str_index c s) <-> c ∈ s.
Proof.
  intros Hc. induction s as [|b s IH]; simpl.
  - rewrite (proj2 (Z.eqb_neq c 0) Hc), elem_of_nil, <- not_eq_None_Some. tauto.
  - rewrite elem_of_cons. destruct (Z.eqb_spec b c) as [->|Hn]; [naive_solver|].
    rewrite fmap_is_Some, IH. naive_solver.
Qed.

Lemma strchr_from_correct m c s : is_u8 c -> forall a fuel, cstr m a s -> (length s <= fuel)%nat ->
  strchr_from fuel a (schar c) m = Done (inr (Z.add a <$> str_index c s)) m.
Proof.
  intros Hc. induction s as [|b s IH]; intros a fuel Hs Hf.
  - apply cstr_nil in Hs. destruct fuel; cbn [strchr_from]; run_load Hs;
      rewrite Z.eqb_refl; cbv iota; rewrite schar_eqb by done; simpl;
      rewrite (Z.eqb_sym c 0); destruct (0 =? c); simpl; rewrite ?Z.add_0_r; done.
  - apply cstr_cons in Hs as (Hb & Hn & Hl & Hs). destruct fuel as [|fuel]; [simpl in Hf; lia|].
    cbn [strchr_from]. run_load Hl. rewrite schar_nonzero, schar_eqb by done. cbv iota. simpl.
    destruct (Z.eqb_spec b c) as [->|Hne]; simpl; [by rewrite Z.add_0_r|].
    rewrite IH; [|done|simpl in Hf; lia]. destruct (str_index c s); simpl; [|done].
    do 3 f_equal. lia.
Qed.

Lemma strchr_correct m a s c : cstr m a s -> is_u8 c ->
  strchr a (schar c) m = Done (inr (Z.add a <$> str_index c s)) m.
Proof.
  intros Hs Hc. unfold strchr. unfold bind, get. apply strchr_from_correct; [done|done|].
  apply cstr_fuel in Hs. lia.
Qed.

(** [strrchr] finds the last occurrence, the terminator included. *)
Lemma strrchr_from_correct m a l c n : is_u8 c -> Forall is_u8 l -> bytes_at m a l -> (n <= length l)%nat ->
  exists r, strrchr_from n a (schar c) m = Done (inr r) m /\
  match r with
  | Some p => exists i, p = a + i /\ 0 <= i < Z.of_nat n /\ nthZ l i = Some c /\
                        forall j, i < j < Z.of_nat n -> nthZ l j <> Some c
  | None => forall j, 0 <= j < Z.of_nat n -> nthZ l j <> Some c
  end.
Proof.
  intros Hc Hl Hb. induction n as [|n IH]; intros Hn; [exists None; split; [done|]; lia|].
  destruct (nthZ_is_Some l (Z.of_nat n)) as [b Hnb]; [unfold lenZ; lia|].
  pose proof (proj1 (bytes_at_lookup _ _ _) Hb _ _ Hnb) as Hm.
  assert (is_u8 b) as Hub.
  { rewrite nthZ_to_nat, Nat2Z.id in Hnb by lia. by eapply Forall_lookup_1. }
  cbn [strrchr_from]. run_load Hm. rewrite schar_eqb by done. destruct (Z.eqb_spec b c) as [->|Hne].
  - exists (Some (a + Z.of_nat n)). split; [done|]. exists (Z.of_nat n). split_and!; try done; lia.
  - destruct IH as (r & Hr & Hpost); [lia|]. exists r. split; [done|]. destruct r as [p|].
    + destruct Hpost as (i & -> & Hi & Hic & Hj). exists i. split_and!; try done; try lia.
      intros j Hj'. destruct (decide (j = Z.of_nat n)) as [->|]; [congruence|]. apply Hj. lia.
    + intros j Hj. destruct (decide (j = Z.of_nat n)) as [->|]; [congruence|]. apply Hpost. lia.
Qed.

(** ** Tokens *)

Definition in_seps (seps : list Z) (c : Z) : bool := bool_decide (c ∈ seps).

(** The longest prefix of characters that are ([want]) or are not separators. *)
Fixpoint span (want : bool) (seps s : list Z) : list Z * list Z :=
  match s with
  | [] => ([], [])
  | b :: s' =>
      if eqb (in_seps seps b) want then
        let '(u, v) := span want seps s' in (b :: u, v)
      else ([], s)
  end.

Lemma span_app want seps s : fst (span want seps s) ++ snd (span want seps s) = s.
Proof.
  induction s as [|b s IH]; simpl; [done|]. case_match; [|done].
  destruct (span want seps s). simpl in *. by rewrite IH.
Qed.

Lemma span_head want seps s b v : snd (span want seps s) = b :: v -> in_seps seps b = negb want.
Proof.
  induction s as [|c s IH]; simpl; [done|]. destruct (eqb (in_seps seps c) want) eqn:He.
  - destruct (span want seps s). apply IH.
  - simpl. intros [= <- _]. by destruct (in_seps seps c), want.
Qed.

Lemma nonzero_app s t : nonzero_bytes (s ++ t) <-> nonzero_bytes s /\ nonzero_bytes t.
Proof. apply Forall_app. Qed.

Lemma strtok_scan_correct m sa seps want s : cstr m sa seps -> forall p fuel, cstr m p s ->
  (length s <= fuel)%nat ->
  strtok_scan fuel want sa p m = Done (inr (p + lenZ (fst (span want seps s)))) m.
Proof.
  intros Hsep. induction s as [|b s IH]; intros p fuel Hs Hf.
  - apply cstr_nil in Hs. destruct fuel; cbn [strtok_scan]; run_load Hs;
      change (schar 0 =? 0) with true; cbv iota; unfold lenZ; simpl; by rewrite Z.add_0_r.
  - apply cstr_cons in Hs as (Hb & Hn & Hl & Hs). destruct fuel as [|fuel]; [simpl in Hf; lia|].
    cbn [strtok_scan span]. run_load Hl. rewrite schar_nonzero by done. cbv iota.
    rewrite (tbind_done _ _ _ _ _ (strchr_correct m sa seps b Hsep Hb)). cbv beta.
    assert (bool_decide (is_Some (Z.add sa <$> str_index b seps)) = in_seps seps b) as ->.
    { unfold in_seps. apply bool_decide_ext. by rewrite fmap_is_Some, str_index_In. }
    destruct (eqb (in_seps seps b) want).
    + rewrite IH; [|done|simpl in Hf; lia]. destruct (span want seps s). simpl.
      do 2 f_equal. unfold lenZ. simpl. lia.
    + simpl. unfold lenZ. simpl. by rewrite Z.add_0_r.
Qed.

(** The words of a string: its maximal runs of characters that separate nothing. *)
Fixpoint words_from (seps s cur : list Z) : list (list Z) :=
  match s with
  | [] => match cur with [] => [] | _ => [cur] end
  | b :: s =>
      if in_seps seps b then
        match cur with [] => words_from seps s [] | _ => cur :: words_from seps s [] end
      else words_from seps s (cur ++ [b])
  end.
Definition words (seps s : list Z) : list (list Z) := words_from seps s [].

Lemma words_skip seps s : words seps s = words seps (snd (span true seps s)).
Proof.
  unfold words. induction s as [|b s IH]; simpl; [done|]. destruct (in_seps seps b) eqn:Hb; simpl.
  - destruct (span true seps s). simpl in *. done.
  - by rewrite Hb.
Qed.

Lemma words_run seps s cur :
  words_from seps s cur =
  match cur ++ fst (span false seps s), snd (span false seps s) with
  | [], [] => []
  | w, [] => [w]
  | [], _ :: r => words seps r
  | w, _ :: r => w :: words seps r
  end.
Proof.
  revert cur. induction s as [|b s IH]; intros cur; simpl.
  - rewrite app_nil_r. by destruct cur.
  - destruct (in_seps seps b) eqn:Hb; simpl.
    + rewrite app_nil_r. by destruct cur.
    + rewrite IH. destruct (span false seps s) as [u v]. simpl. rewrite <- app_assoc. simpl. done.
Qed.

(** One call of [strtok_r] on what is left of the string. *)
Definition strtok_post (m : mem) (p : Z) (seps s : list Z) (r : option Z * option Z) (m' : mem) : Prop :=
  match r with
  | (None, ctx) => ctx = None /\ m' = m /\ words seps s = []
  | (Some head, ctx) =>
      exists w rest, p <= head /\ cstr m' head w /\ words seps s = w :: words seps rest /\
      (forall x, m' !! x = m !! x \/ (head + lenZ w <= x /\ x < p + lenZ s)) /\
      match ctx with
      | None => rest = []
      | Some t => head + lenZ w < t /\ cstr m' t rest /\ t + lenZ rest = p + lenZ s
      end
  end.

Lemma words_split seps s :
  words seps s =
  let w := fst (span false seps (snd (span true seps s))) in
  match snd (span true seps s), snd (span false seps (snd (span true seps s))) with
  | [], _ => []
  | _, [] => [w]
  | _, _ :: r => w :: words seps r
  end.
Proof.
  rewrite words_skip. destruct (snd (span true seps s)) as [|b v] eqn:He; [done|].
  pose proof (span_head _ _ _ _ _ He) as Hb. simpl in Hb.
  unfold words at 1. rewrite words_run. simpl. rewrite Hb. simpl.
  destruct (span false seps v) as [u v']. by destruct v'.
Qed.

Lemma strtok_first (string context : option Z) p :
  string = Some p \/ (string = None /\ context = Some p) ->
  match string with Some s => Some s | None => context end = Some p.
Proof. by intros [->|[-> ->]]. Qed.

Lemma strtok_r_correct m string context p sa seps s :
  string = Some p \/ (string = None /\ context = Some p) ->
  cstr m p s -> cstr m sa seps -> (sa + lenZ seps < p \/ p + lenZ s < sa) ->
  wp (strtok_r string sa context)
     (fun r m' => match r with inr r => strtok_post m p seps s r m' /\ cstr m' sa seps | inl _ => False end) m.
Proof.
  intros Hp Hs Hsep Hdis. unfold strtok_r. rewrite (strtok_first _ _ _ Hp). wp_step. unfold wp at 1, get.
  pose proof (cstr_fuel _ _ _ Hs) as Hf. pose proof (words_split seps s) as Hw.
  pose proof (span_app true seps s) as Hs1. set (a := fst (span true seps s)) in *.
  set (s1 := snd (span true seps s)) in *. pose proof Hs as Hs'. rewrite <- Hs1 in Hs'.
  pose proof (proj1 Hs) as Hnz. rewrite <- Hs1 in Hnz. apply nonzero_app in Hnz as [Hna Hn1].
  apply cstr_app in Hs' as [_ Hc1]; [|done].
  wp_step. unfold wp at 1. rewrite (strtok_scan_correct m sa seps true s Hsep p) by (done || lia).
  cbv beta iota. fold a. pose proof (lenZ_nonneg a).
  assert (lenZ s = lenZ a + lenZ s1) as Hlen by (by rewrite <- lenZ_app, Hs1).
  assert (length s = length a + length s1)%nat as Hlen' by (by rewrite <- length_app, Hs1).
  wp_step. destruct s1 as [|b v] eqn:He1.
  { apply cstr_nil in Hc1. unfold wp at 1. rewrite (load_char_run _ _ _ Hc1). cbv beta iota.
    change (schar 0 =? 0) with true. cbv iota. wp_steps. split; [|done]. split_and!; done. }
  rewrite <- He1 in *.
  pose proof Hc1 as Hc1'. rewrite He1 in Hc1'. apply cstr_cons in Hc1' as (Hb & Hbn & Hbl & _).
  unfold wp at 1. rewrite (load_char_run _ _ _ Hbl). cbv beta iota. rewrite schar_nonzero by done.
  cbv iota. wp_step. unfold wp at 1.
  rewrite (strtok_scan_correct m sa seps false s1 Hsep (p + lenZ a)) by (done || lia). cbv beta iota.
  pose proof (span_app false seps s1) as Hs2. set (w := fst (span false seps s1)) in *.
  set (s2 := snd (span false seps s1)) in *.
  pose proof Hn1 as Hn2. rewrite <- Hs2 in Hn2. apply nonzero_app in Hn2 as [Hnw Hn2].
  pose proof Hc1 as Hc2. rewrite <- Hs2 in Hc2. apply cstr_app in Hc2 as [Hcw Hc2]; [|done].
  assert (lenZ s1 = lenZ w + lenZ s2) as Hlen2 by (by rewrite <- lenZ_app, Hs2).
  pose proof (lenZ_nonneg w). cbv zeta in Hw.
  wp_step. destruct s2 as [|c rest].
  - apply cstr_nil in Hc2. unfold wp at 1. rewrite (load_char_run _ _ _ Hc2). cbv beta iota.
    change (schar 0 =? 0) with true. cbv iota. wp_steps. split; [|done].
    exists w, []. split; [lia|]. split.
    { split; [done|]. rewrite bytes_at_app. split; [done|]. simpl. done. }
    split; [done|]. split; [by left|done].
  - apply cstr_cons in Hc2 as (Hcb & Hcn & Hcl & Hcr).
    unfold wp at 1. rewrite (load_char_run _ _ _ Hcl). cbv beta iota. rewrite schar_nonzero by done.
    cbv iota. wp_step. apply wp_store8; [by eexists|]. cbv beta iota. wp_step.
    change (u8 0) with 0. assert (lenZ (c :: rest) = 1 + lenZ rest) as Hcr' by (unfold lenZ; simpl; lia).
    pose proof (lenZ_nonneg rest).
    assert (forall x, x <> p + lenZ a + lenZ w -> (<[p + lenZ a + lenZ w:=0]> m) !! x = m !! x) as Hfr.
    { intros x Hx. by apply lookup_insert_ne. }
    split; [|apply (cstr_frame m); [done|]; intros x Hx; apply Hfr; lia].
    exists w, rest. split; [lia|]. split.
    { split; [done|]. apply bytes_at_app. split.
      - apply bytes_at_lookup. rewrite bytes_at_lookup in Hcw. intros i x Hx.
        pose proof (nthZ_Some_lt _ _ _ Hx). rewrite Hfr by lia. by apply Hcw.
      - simpl. by rewrite lookup_insert_eq. }
    split; [done|]. split.
    { intros x. destruct (decide (x = p + lenZ a + lenZ w)) as [->|Hx]; [right; lia|left; by apply Hfr]. }
    split; [lia|]. split; [|lia]. apply (cstr_frame m); [done|]. intros x Hx. apply Hfr. lia.
Qed.

(** Calls [strtok_r] until it returns NULL. *)
Fixpoint strtok_all (fuel : nat) (string : option Z) (seps : Z) (context : option Z) : E mem (list Z) :=
  try! r := strtok_r string seps context in
  match r with
  | (None, _) => ok []
  | (Some head, context) =>
      match fuel with
      | O => out_of_fuel
      | S fuel => try! hs := strtok_all fuel None seps context in ok (head :: hs)
      end
  end.

Lemma strtok_all_null fuel sa m : strtok_all fuel None sa None m = Done (inr []) m.
Proof. by destruct fuel. Qed.

Lemma words_shorter seps s w rest :
  words seps s = w :: words seps rest -> (length (words seps rest) < length (words seps s))%nat.
Proof. intros ->. simpl. lia. Qed.

Lemma strtok_all_correct sa seps fuel : forall m string context p s,
  string = Some p \/ (string = None /\ context = Some p) ->
  cstr m p s -> cstr m sa seps -> (sa + lenZ seps < p \/ p + lenZ s < sa) ->
  (length (words seps s) <= fuel)%nat ->
  wp (strtok_all fuel string sa context)
     (fun r m' => match r with
                  | inr hs => Forall2 (cstr m') hs (words seps s) /\
                              forall x, m' !! x = m !! x \/ p <= x < p + lenZ s
                  | inl _ => False
                  end) m.
Proof.
  induction fuel as [|fuel IH]; intros m string context p s Hp Hs Hsep Hdis Hf; cbn [strtok_all];
    wp_step; (eapply wp_mono; [by apply (strtok_r_correct m string context p sa seps s)|]);
    intros [e|[[head|] ctx]] m1; try done.
  - intros [(w & rest & _ & _ & Hw & _) _]. rewrite Hw in Hf. simpl in Hf. lia.
  - intros [(_ & -> & ->) _]. wp_steps. split; [constructor|by left].
  - intros [(w & rest & Hle & Hcw & Hw & Hfr & Hctx) Hsep1]. wp_step. cbv beta.
    pose proof (lenZ_nonneg w). destruct ctx as [t|].
    + destruct Hctx as (Hlt & Hct & Hend). pose proof (lenZ_nonneg rest).
      eapply wp_mono; [apply (IH m1 None (Some t) t rest); [by right|done|done|lia|]|].
      { rewrite Hw in Hf. simpl in Hf. lia. }
      intros [e|hs] m2; [done|]. intros [Hall Hfr2]. wp_steps. rewrite Hw. split.
      * constructor; [|done]. apply (cstr_frame m1); [done|]. intros x Hx.
        destruct (Hfr2 x); [done|lia].
      * intros x. destruct (Hfr2 x) as [->|]; [destruct (Hfr x); [by left|right; lia]|right; lia].
    + subst rest. unfold wp at 1. rewrite strtok_all_null. cbv beta iota. wp_steps.
      rewrite Hw. change (words seps []) with (@nil (list Z)). split; [constructor; [done|constructor]|].
      intros x. destruct (Hfr x); [by left|right; lia].
  - intros [(_ & -> & ->) _]. wp_steps. split; [constructor|by left].
Qed.

(** ** Numbers *)

Definition is_digit (c : Z) : Prop := 48 <= c <= 57.

(** The number a list of decimal digits stands for, after [val]. *)
Definition dec_value (val : Z) (ds : list Z) : Z := foldl (fun v d => v * 10 + (d - 48)) val ds.

Definition starts_with_digit (s : list Z) : Prop :=
  match s with [] => False | c :: _ => is_digit c end.

Lemma u32_step a d : u32 (u32 (u32 a * 10) + d) = u32 (a * 10 + d).
Proof.
  unfold u32. rewrite Z.add_mod_idemp_l by lia.
  rewrite <- (Z.add_mod_idemp_l (a mod 2 ^ 32 * 10)), Z.mul_mod_idemp_l, Z.add_mod_idemp_l by lia. done.
Qed.

Lemma schar_id b : 0 <= b < 2 ^ 7 -> schar b = b.
Proof. intros. unfold schar. rewrite Z.mod_small; lia. Qed.

Lemma schar_digit b : is_u8 b -> digit_index (schar b) = if bool_decide (is_digit b) then Some (b - 48) else None.
Proof.
  unfold is_u8, is_digit, digit_index. intros Hb. destruct (Z.lt_ge_cases b (2 ^ 7)).
  - rewrite schar_id by lia. case_bool_decide; destruct (Z.leb_spec 48 b), (Z.leb_spec b 57); simpl; done || lia.
  - rewrite bool_decide_false by lia.
    unfold schar. replace (b + 2 ^ 7) with (b - 2 ^ 7 + 1 * 2 ^ 8) by lia. rewrite Z.mod_add, Z.mod_small by lia.
    destruct (Z.leb_spec 48 (b - 2 ^ 7 - 2 ^ 7)); simpl; done || lia.
Qed.

Lemma atoi_digits_correct m ds rest : Forall is_digit ds -> ~ starts_with_digit rest ->
  forall a fuel val, cstr m a (ds ++ rest) -> (length (ds ++ rest) <= fuel)%nat ->
  atoi_digits fuel a (u32 val) m = Done (inr (u32 (dec_value val ds))) m.
Proof.
  intros Hds Hrest. induction ds as [|d ds IH]; intros a fuel val Hs Hf; simpl in Hs.
  - destruct rest as [|c rest]; simpl.
    + apply cstr_nil in Hs. destruct fuel; cbn [atoi_digits]; run_load Hs; done.
    + apply cstr_cons in Hs as (Hb & Hn & Hl & _). simpl in Hrest.
      destruct fuel; cbn [atoi_digits]; run_load Hl; rewrite schar_nonzero, schar_digit by done;
        rewrite bool_decide_false by done; done.
  - apply cstr_cons in Hs as (Hb & Hn & Hl & Hs). inversion Hds; subst.
    destruct fuel as [|fuel]; [simpl in Hf; lia|]. cbn [atoi_digits]. run_load Hl.
    rewrite schar_nonzero, schar_digit, bool_decide_true by done. cbv iota.
    rewrite u32_step. simpl. apply IH; [done|done|simpl in Hf; lia].
Qed.

Lemma skip_blanks_correct m bl s : Forall (fun c => c = 32 \/ c = 9) bl ->
  match s with [] => True | c :: _ => c <> 32 /\ c <> 9 end ->
  forall a fuel, cstr m a (bl ++ s) -> (length (bl ++ s) <= fuel)%nat ->
  skip_blanks fuel a m = Done (inr (a + lenZ bl)) m.
Proof.
  intros Hbl Hs. induction bl as [|b bl IH]; intros a fuel Hc Hf; simpl in Hc.
  - rewrite Z.add_0_r. destruct s as [|c s].
    + apply cstr_nil in Hc. destruct fuel; cbn [skip_blanks]; run_load Hc; done.
    + apply cstr_cons in Hc as (Hb & Hn & Hl & _).
      assert ((schar c =? 32) || (schar c =? 9) = false) as Hf'.
      { change 32 with (schar 32). change 9 with (schar 9). rewrite !schar_eqb by done. lia. }
      destruct fuel; cbn [skip_blanks]; run_load Hl; by rewrite Hf'.
  - apply cstr_cons in Hc as (Hb & Hn & Hl & Hc). inversion Hbl; subst.
    destruct fuel as [|fuel]; [simpl in Hf; lia|]. cbn [skip_blanks]. run_load Hl.
    assert ((schar b =? 32) || (schar b =? 9) = true) as ->.
    { destruct H1 as [-> | ->]; reflexivity. }
    rewrite IH; [|done|done|simpl in Hf; lia]. do 2 f_equal. unfold lenZ. simpl. lia.
Qed.

Lemma s32_opp_u32 z : s32 (- u32 z) = s32 (- z).
Proof.
  unfold s32, u32. f_equal. replace (- (z mod 2 ^ 32) + 2 ^ 31) with (2 ^ 31 - z mod 2 ^ 32) by lia.
  rewrite Zminus_mod_idemp_r. f_equal. lia.
Qed.

(** The numeral [atoi] reads: blanks, an optional minus sign, digits, anything. *)
Definition numeral (bl : list Z) (neg : bool) (ds rest : list Z) : list Z :=
  bl ++ (if neg then [45] else []) ++ ds ++ rest.

Lemma atoi_correct m a bl (neg : bool) ds rest :
  Forall (fun c => c = 32 \/ c = 9) bl -> Forall is_digit ds -> ds <> [] -> ~ starts_with_digit rest ->
  cstr m a (numeral bl neg ds rest) ->
  atoi a m = Done (inr (s32 (if neg then - dec_value 0 ds else dec_value 0 ds))) m.
Proof.
  intros Hbl Hds Hne Hrest Hc. unfold numeral in Hc. pose proof (cstr_fuel _ _ _ Hc) as Hf.
  rewrite !length_app in Hf. destruct ds as [|d ds']; [done|].
  pose proof (Forall_inv Hds) as Hd. unfold is_digit in Hd. unfold atoi. unfold bind at 1, get at 1.
  rewrite (tbind_done _ _ _ (a + lenZ bl) m).
  2:{ eapply skip_blanks_correct; [done| |exact Hc|rewrite !length_app; lia]. destruct neg; simpl; lia. }
  pose proof (proj1 Hc) as Hnz. apply nonzero_app in Hnz as [Hnb _].
  apply cstr_app in Hc as [_ Hc]; [|done]. destruct neg; simpl in Hc.
  - apply cstr_cons in Hc as (_ & _ & Hl & Hc). run_load Hl. change (schar 45 =? 45) with true. cbv iota.
    rewrite (tbind_done _ _ _ (u32 (dec_value 0 (d :: ds'))) m).
    + unfold ok, ret. by rewrite s32_u32, s32_opp_u32.
    + apply (atoi_digits_correct m (d :: ds') rest Hds Hrest _ _ 0); [done|].
      rewrite length_app. simpl in *. lia.
  - pose proof (proj1 (cstr_cons _ _ _ _) Hc) as (_ & _ & Hl & _). run_load Hl.
    assert (schar d =? 45 = false) as ->.
    { rewrite schar_id by lia. apply Z.eqb_neq. lia. }
    cbv iota. rewrite (tbind_done _ _ _ (u32 (dec_value 0 (d :: ds'))) m).
    + unfold ok, ret. by rewrite s32_u32.
    + apply (atoi_digits_correct m (d :: ds') rest Hds Hrest _ _ 0); [done|].
      rewrite length_app. simpl in *. lia.
Qed.

(** ** Properties *)

(** Calling [strtok_r] until it returns NULL yields exactly the words of the
    string, in order: each pointer it hands back is, in the final memory, a string
    equal to the corresponding maximal run of non-separators, and nothing outside
    the string was written. *)
Theorem strtok_yields_words (m : mem) (p sa : Z) (s seps : list Z) (context : option Z) :
  cstr m p s -> cstr m sa seps -> (sa + lenZ seps < p \/ p + lenZ s < sa) ->
  exists hs m', strtok_all (length (words seps s)) (Some p) sa context m = Done (inr hs) m' /\
    Forall2 (cstr m') hs (words seps s) /\
    forall x, ~ (p <= x < p + lenZ s) -> m' !! x = m !! x.
Proof.
  intros Hs Hsep Hdis.
  destruct (wp_done _ _ _ (strtok_all_correct sa seps _ m (Some p) context p s (or_introl eq_refl)
              Hs Hsep Hdis (le_n _))) as ([e|hs] & m' & Hrun & Hpost); [done|].
  destruct Hpost as [Hall Hfr]. exists hs, m'. split; [done|]. split; [done|].
  intros x Hx. destruct (Hfr x); [done|lia].
Qed.

(** "  ls /bin" and the separators " " (menu.c splits its command line so). *)
Definition demo_line : list Z := [32; 32; 108; 115; 32; 47; 98; 105; 110].
Definition demo_string : mem :=
  list_to_map (zip (seqZ 10 10) (demo_line ++ [0]) ++ [(50, 32); (51, 0)]).

Lemma demo_string_cstr : cstr demo_string 10 demo_line.
Proof.
  split; [repeat (constructor; [split; [unfold is_u8; lia|lia]|]); constructor|].
  vm_compute. repeat split.
Defined.

Lemma demo_seps_cstr : cstr demo_string 50 [32].
Proof. split; [repeat (constructor; [split; [unfold is_u8; lia|lia]|]); constructor|]. vm_compute. repeat split. Defined.

Lemma strtok_yields_words_witness :
  exists hs m', strtok_all 2 (Some 10) 50 None demo_string = Done (inr hs) m' /\
    Forall2 (cstr m') hs [[108; 115]; [47; 98; 105; 110]] /\ hs = [12; 15].
Proof.
  destruct (strtok_yields_words demo_string 10 50 demo_line [32] None) as (hs & m' & Hrun & Hall & _);
    [exact demo_string_cstr|exact demo_seps_cstr|right; reflexivity|].
  exists hs, m'. split; [exact Hrun|]. split; [exact Hall|]. vm_compute in Hrun. congruence.
Defined.

(** [strcmp] returns 0 exactly when the two strings are equal; otherwise the
    sign is that of the first difference of the (signed) characters. *)
Theorem strcmp_decides_equality (m : mem) (a b : Z) (s t : list Z) :
  cstr m a s -> cstr m b t ->
  exists r, strcmp a b m = Done (inr r) m /\ r = str_order s t /\ (r = 0 <-> s = t).
Proof.
  intros Hs Ht. exists (str_order s t). split; [by apply strcmp_correct|]. split; [done|].
  apply str_order_0; [apply Hs|apply Ht].
Qed.

Lemma strcmp_decides_equality_witness :
  exists r, strcmp 50 10 demo_string = Done (inr r) demo_string /\ (r = 0 <-> [32] = demo_line).
Proof.
  destruct (strcmp_decides_equality demo_string 50 10 [32] demo_line) as (r & Hr & _ & He);
    [exact demo_seps_cstr|exact demo_string_cstr|]. exists r. split; [exact Hr|exact He].
Defined.

(** [atoi] reads the decimal numeral after leading blanks and an optional
    minus sign and ignores what follows; the value is exact when it fits in an
    [int] and wraps around modulo 2^32 otherwise. *)
Theorem atoi_reads_numeral (m : mem) (a : Z) (bl : list Z) (neg : bool) (ds rest : list Z) :
  Forall (fun c => c = 32 \/ c = 9) bl -> Forall is_digit ds -> ds <> [] -> ~ starts_with_digit rest ->
  cstr m a (numeral bl neg ds rest) ->
  let n := if neg then - dec_value 0 ds else dec_value 0 ds in
  exists r, atoi a m = Done (inr r) m /\ r = s32 n /\ (is_s32 n -> r = n).
Proof.
  intros Hbl Hds Hne Hrest Hc n. exists (s32 n). split; [by eapply atoi_correct|].
  split; [done|]. apply s32_id.
Qed.

Definition demo_number : mem := list_to_map (zip (seqZ 0 6) [32; 45; 52; 50; 120; 0]).

Lemma atoi_reads_numeral_witness : exists r, atoi 0 demo_number = Done (inr r) demo_number /\ r = -42.
Proof.
  destruct (atoi_reads_numeral demo_number 0 [32] true [52; 50] [120]) as (r & Hr & _ & He).
  - repeat constructor.
  - repeat constructor; unfold is_digit; lia.
  - discriminate.
  - simpl. unfold is_digit. lia.
  - split; [repeat (constructor; [split; [unfold is_u8; lia|lia]|]); constructor|].
    vm_compute. repeat split.
  - exists r. split; [exact Hr|]. apply He. unfold is_s32. simpl. unfold dec_value. simpl. lia.
Defined.
