(* ===== verification/CstringTerm.v ===== *)
(** * The string functions stop (lib/libc/strlen.c, strcmp.c, strcpy.c, strcat.c,
    strchr.c, strrchr.c, strtok_r.c, atoi.c).

    None of the scans of [Cstring] has a bound of its own: they run until they see a
    terminator. On any memory whatever they come to an end nevertheless, at a terminator
    or at the first address that is not there. *)

From stdpp Require Import base numbers list gmap fin_map_dom.
From Stdlib Require Import ZArith Lia.
From S2P Require Import Prelude Mem Cstring.

(** [f] comes to an end, with a result or the fault, and takes away no memory. *)
Definition stops_with {A} (P : A -> Prop) (f : E mem A) (m : mem) : Prop :=
  wp f (fun r m' => dom m' = dom m /\ match r with inl e => e = EFAULT | inr x => P x end) m.
Definition stops {A} (f : E mem A) (m : mem) : Prop := stops_with (fun _ => True) f m.

Section stops.
Context {A B : Type}.
Implicit Types (m : mem) (P : A -> Prop) (Q : B -> Prop).

Lemma stops_ok P x m : P x -> stops_with P (ok x) m.
Proof. by intros. Qed.

Lemma stops_tbind P Q (f : E mem A) (g : A -> E mem B) m : stops_with P f m ->
  (forall x m', dom m' = dom m -> P x -> stops_with Q (g x) m') -> stops_with Q (try! x := f in g x) m.
Proof.
  intros Hf Hg. unfold stops_with in *. apply wp_tbind. eapply wp_mono; [exact Hf|].
  intros r m' [Hd Hr]. destruct r as [e|x]; [by split|].
  eapply wp_mono; [by apply Hg|]. intros r m2 [Hd2 Hr2]. split; [congruence|done].
Qed.

Lemma stops_weaken P (f : E mem A) m : stops_with P f m -> stops f m.
Proof. intros H. eapply wp_mono; [exact H|]. intros r m' [Hd Hr]. split; [done|]. by destruct r. Qed.

Lemma stops_get P (f : mem -> E mem A) m : stops_with P (f m) m -> stops_with P (let! m := get in f m) m.
Proof. intros H. unfold stops_with. apply wp_bind, wp_get, H. Qed.
End stops.

Lemma stops_load8 (a : Z) m : stops_with (fun _ => is_Some (m !! a)) (load8 a) m.
Proof. unfold stops_with, wp, load8, bind, get. by destruct (m !! a); simpl; eauto. Qed.

Lemma stops_load_char (a : Z) m : stops_with (fun _ => is_Some (m !! a)) (load_char a) m.
Proof. unfold load_char. eapply stops_tbind; [apply stops_load8|]. intros b m' _ Hb. by apply stops_ok. Qed.

Lemma stops_store8 a b m : stops_with (fun _ => True) (store8 a b) m.
Proof.
  unfold stops_with, wp, store8, bind, get. destruct (m !! a) as [c|] eqn:Ha; simpl; [|done].
  split; [|done]. rewrite dom_insert_L. assert (a ∈ dom m) by (by apply elem_of_dom_2 in Ha). set_solver.
Qed.

(** ** Positions of a scan *)

(** A scan from [p] has seen [k] bytes and has [fuel] to go. *)
Definition scanning (m : mem) (p : Z) (k fuel : nat) : Prop :=
  mapped m p (Z.of_nat k) /\ (scan_fuel m <= k + fuel)%nat.

Lemma scanning_start m p : scanning m p 0 (scan_fuel m).
Proof. split; [intros i Hi; lia|lia]. Qed.

Lemma scanning_dom m m' p k fuel : dom m' = dom m -> scanning m p k fuel -> scanning m' p k fuel.
Proof.
  intros Hd [Hm Hf]. split.
  - intros i Hi. apply elem_of_dom. rewrite Hd. apply elem_of_dom, Hm, Hi.
  - unfold scan_fuel in *. by rewrite <- !size_dom, Hd, !size_dom in *.
Qed.

(** There is fuel for one byte more. *)
Lemma scanning_next m p k fuel : scanning m p k fuel -> is_Some (m !! (p + Z.of_nat k)) ->
  exists fuel', fuel = S fuel' /\ scanning m p (S k) fuel'.
Proof.
  intros [Hm Hf] Hb. apply mapped_size in Hm as Hs. destruct fuel as [|fuel']; [unfold scan_fuel in Hf; lia|].
  exists fuel'. split; [done|]. split; [|lia]. intros i Hi.
  destruct (decide (i = Z.of_nat k)) as [->|]; [done|apply Hm; lia].
Qed.

(** The next action of a function, and the next round of its loop. *)
Ltac stop_load := eapply stops_tbind; [first [apply stops_load_char | apply stops_load8]|]; intros ?c ?m' ?Hd ?Hc.
Ltac stop_ok := by apply stops_ok.
Ltac scan_round Hs Hc IH :=
  let Hn := fresh "Hn" in
  destruct (scanning_next _ _ _ _ Hs Hc) as (? & [= <-] & Hn);
  match goal with |- context [Z.of_nat ?k + 1] =>
    rewrite <- ?Z.add_assoc; replace (Z.of_nat k + 1) with (Z.of_nat (S k)) by lia
  | |- context [?q + Z.of_nat ?k + 1] =>
    replace (q + Z.of_nat k + 1) with (q + Z.of_nat (S k)) by lia
  end;
  apply IH; (eapply scanning_dom; [|exact Hn]; congruence).

(** ** The loops *)

Section scans.
Context (p : Z).

Lemma strlen_from_stops : forall fuel k m, scanning m p k fuel -> stops (strlen_from fuel p (Z.of_nat k)) m.
Proof.
  induction fuel as [|fuel IH]; intros k m Hs; cbn [strlen_from];
    (stop_load; case_match; [stop_ok|]); scan_round Hs Hc IH.
Qed.

Lemma strcmp_from_stops b : forall fuel k m, scanning m p k fuel -> stops (strcmp_from fuel p b (Z.of_nat k)) m.
Proof.
  assert (forall x k m, stops (try! y := load_char (b + k) in if y <? x then ok 1 else if x =? y then ok 0 else ok (-1)) m) as Hend.
  { intros x k m. stop_load. repeat case_match; stop_ok. }
  induction fuel as [|fuel IH]; intros k m Hs; cbn [strcmp_from];
    (stop_load; eapply (stops_tbind (fun _ => True)); [case_match; [stop_ok|]; stop_load; stop_ok|];
     intros [] m2 Hd2 _; [|apply Hend]); scan_round Hs Hc IH.
Qed.

Lemma strcpy_from_stops dest : forall fuel k m, scanning m p k fuel -> stops (strcpy_from fuel dest p (Z.of_nat k)) m.
Proof.
  induction fuel as [|fuel IH]; intros k m Hs; cbn [strcpy_from];
    (stop_load; case_match; (eapply stops_tbind; [apply stops_store8|]; intros ? m2 Hd2 _); [stop_ok|]);
    scan_round Hs Hc IH.
Qed.

Lemma strchr_from_stops ch : forall fuel k m, scanning m p k fuel -> stops (strchr_from fuel (p + Z.of_nat k) ch) m.
Proof.
  induction fuel as [|fuel IH]; intros k m Hs; cbn [strchr_from];
    (stop_load; case_match; [stop_ok|]; case_match; [stop_ok|]); scan_round Hs Hc IH.
Qed.

Lemma strtok_scan_stops want seps : (forall ch m, stops (strchr seps ch) m) ->
  forall fuel k m, scanning m p k fuel -> stops (strtok_scan fuel want seps (p + Z.of_nat k)) m.
Proof.
  intros Hseps. induction fuel as [|fuel IH]; intros k m Hs; cbn [strtok_scan];
    (stop_load; case_match; [stop_ok|]; eapply stops_tbind; [apply Hseps|]; intros w m2 Hd2 _; case_match; [|stop_ok]);
    scan_round Hs Hc IH.
Qed.

Lemma skip_blanks_stops : forall fuel k m, scanning m p k fuel -> stops (skip_blanks fuel (p + Z.of_nat k)) m.
Proof.
  induction fuel as [|fuel IH]; intros k m Hs; cbn [skip_blanks];
    (stop_load; case_match; [|stop_ok]); scan_round Hs Hc IH.
Qed.

Lemma atoi_digits_stops : forall fuel k m val, scanning m p k fuel -> stops (atoi_digits fuel (p + Z.of_nat k) val) m.
Proof.
  induction fuel as [|fuel IH]; intros k m val Hs; cbn [atoi_digits];
    (stop_load; case_match; [stop_ok|]; case_match; [|stop_ok]); scan_round Hs Hc IH.
Qed.

Lemma strrchr_from_stops ch : forall i m, stops (strrchr_from i p ch) m.
Proof.
  induction i as [|i IH]; intros m; cbn [strrchr_from]; [stop_ok|]. stop_load. case_match; [stop_ok|apply IH].
Qed.
End scans.

(** ** The functions *)

Lemma from_start {A} (loop : nat -> Z -> E mem A) p :
  (forall fuel k m, scanning m p k fuel -> stops (loop fuel (p + Z.of_nat k)) m) ->
  forall m, stops (loop (scan_fuel m) p) m.
Proof. intros H m. rewrite <- (Z.add_0_r p). apply (H _ 0%nat m), scanning_start. Qed.

Lemma strlen_stops s m : stops (strlen s) m.
Proof. apply stops_get, (strlen_from_stops s _ 0), scanning_start. Qed.

Lemma strcpy_stops dest src m : stops (strcpy dest src) m.
Proof. apply stops_get, (strcpy_from_stops src dest _ 0), scanning_start. Qed.

Lemma strchr_stops s ch m : stops (strchr s ch) m.
Proof. apply stops_get, (from_start (fun f a => strchr_from f a ch)). intros. by apply strchr_from_stops. Qed.

Lemma strcat_stops dest src m : stops (strcat dest src) m.
Proof.
  unfold strcat. eapply stops_tbind; [apply strlen_stops|]. intros n m' _ _.
  eapply stops_tbind; [apply strcpy_stops|]. intros; stop_ok.
Qed.

Lemma strrchr_stops s ch m : stops (strrchr s ch) m.
Proof. eapply stops_tbind; [apply strlen_stops|]. intros n m' _ _. apply strrchr_from_stops. Qed.

Lemma strtok_r_stops string seps context m : stops (strtok_r string seps context) m.
Proof.
  assert (forall want p m0 m1, dom m1 = dom m0 -> stops (strtok_scan (scan_fuel m0) want seps p) m1) as Hscan.
  { intros want p m0 m1 Hd. replace (scan_fuel m0) with (scan_fuel m1) by (unfold scan_fuel; by rewrite <- !size_dom, Hd).
    apply (from_start (fun f a => strtok_scan f want seps a)). intros. apply strtok_scan_stops; [|done]. intros. apply strchr_stops. }
  unfold strtok_r. destruct (match string with Some s => Some s | None => context end) as [head|]; [|stop_ok].
  apply stops_get. eapply stops_tbind; [by apply Hscan|]. intros p m1 Hd1 _. stop_load. case_match; [stop_ok|].
  eapply stops_tbind; [apply Hscan; congruence|]. intros q m3 Hd3 _. stop_load. case_match; [stop_ok|].
  eapply stops_tbind; [apply stops_store8|]. intros; stop_ok.
Qed.

Lemma atoi_stops s m : stops (atoi s) m.
Proof.
  unfold atoi. apply stops_get.
  eapply stops_tbind; [apply (from_start skip_blanks); intros; by apply skip_blanks_stops|]. intros p m1 Hd1 _. stop_load.
  eapply (stops_tbind (fun _ => True)); [|intros; stop_ok].
  replace (scan_fuel m) with (scan_fuel m') by (unfold scan_fuel; by rewrite <- !size_dom, Hd, Hd1).
  apply (from_start (fun f a => atoi_digits f a 0)). intros. by apply atoi_digits_stops.
Qed.

(** C28. Every string function comes to an end on every memory, at whatever addresses and
    whether or not there is a terminator: with a result, or with the fault of an address
    that is not there; and afterwards the memory has the same addresses as before. *)
Theorem string_functions_stop m a b ch string context :
  stops (strlen a) m /\ stops (strcmp a b) m /\ stops (strcpy a b) m /\ stops (strcat a b) m /\
  stops (strchr a ch) m /\ stops (strrchr a ch) m /\ stops (strtok_r string a context) m /\ stops (atoi a) m.
Proof.
  split_and!; [apply strlen_stops| |apply strcpy_stops|apply strcat_stops|apply strchr_stops|apply strrchr_stops
              |apply strtok_r_stops|apply atoi_stops].
  apply stops_get, (strcmp_from_stops a b _ 0), scanning_start.
Qed.
