(* ===== verification/CopyInOut.v ===== *)
(** * Copies between user and kernel memory (kern/lib/copyinout.c).

    A trap in kernel mode resumes in the function that [pcb_badfaultfunc] points
    to; when that is NULL the machine panics. [guarded] runs a computation that
    may trap the way [setjmp], the trap handler and [copyfail] make it run. *)

From stdpp Require Import base numbers list gmap.
From Stdlib Require Import ZArith Lia.
From S2P Require Import Prelude Mem Cstring.

(** First address of the kernel (arch/mips/include/vm.h). *)
Definition USERTOP : Z := 0x80000000.

(** The memory, and whether [curthread->t_pcb.pcb_badfaultfunc] is set to [copyfail]. *)
Record cpu : Type := mk_cpu { cmem : mem; badfaultfunc : bool }.

Definition set_badfaultfunc (b : bool) : M cpu unit :=
  let! c := get in put (mk_cpu (cmem c) b).

(** [result = setjmp(...); if (result) ...; else m]: a trap in [m] lands in the
    first branch when [pcb_badfaultfunc] is set. *)
Definition guarded {A} (m : E mem A) : M cpu (unit + A) :=
  let! c := get in
  let! r := zoom cmem (fun t c => mk_cpu t (badfaultfunc c)) m in
  match r with
  | inl _ => if badfaultfunc c then ret (inl tt) else panic
  | inr a => ret (inr a)
  end.

Definition copycheck (userptr len : Z) : errno + Z :=
  let bot := userptr in
  let top := u32 (bot + len - 1) in
  if top <? bot then inl EFAULT
  else if USERTOP <=? bot then inl EFAULT
  else if USERTOP <=? top then inr (u32 (USERTOP - bot))
  else inr len.

Definition copyin (usersrc dest len : Z) : E cpu unit :=
  match copycheck usersrc len with
  | inl e => fail e
  | inr stoplen =>
      if negb (stoplen =? len) then fail EFAULT
      else
        do! set_badfaultfunc true in
        let! r := guarded (memcpy dest usersrc len) in
        do! set_badfaultfunc false in
        match r with inl _ => fail EFAULT | inr _ => ok tt end
  end.

Definition copyout (src userdest len : Z) : E cpu unit :=
  match copycheck userdest len with
  | inl e => fail e
  | inr stoplen =>
      if negb (stoplen =? len) then fail EFAULT
      else
        do! set_badfaultfunc true in
        let! r := guarded (memcpy userdest src len) in
        do! set_badfaultfunc false in
        match r with inl _ => fail EFAULT | inr _ => ok tt end
  end.

(** The loop of [copystr] from [i] on: what the function returns, and [*gotlen].
    The inner [errno] is its return value, the outer one a trap. *)
Fixpoint copystr_from (fuel : nat) (dest src maxlen stoplen i : Z) : E mem (errno + Z) :=
  match fuel with
  | O => ok (if stoplen <? maxlen then inl EFAULT else inl ENAMETOOLONG)
  | S fuel =>
      try! c := load8 (src + i) in
      try! _ := store8 (dest + i) c in
      try! c' := load8 (src + i) in
      if c' =? 0 then ok (inr (i + 1))
      else copystr_from fuel dest src maxlen stoplen (i + 1)
  end.

Definition copystr (dest src maxlen stoplen : Z) : E mem (errno + Z) :=
  copystr_from (Z.to_nat (Z.min maxlen stoplen)) dest src maxlen stoplen 0.

Definition copyinstr (usersrc dest len : Z) : E cpu Z :=
  match copycheck usersrc len with
  | inl e => fail e
  | inr stoplen =>
      do! set_badfaultfunc true in
      let! r := guarded (copystr dest usersrc len stoplen) in
      do! set_badfaultfunc false in
      match r with
      | inl _ => fail EFAULT
      | inr (inl e) => fail e
      | inr (inr actual) => ok actual
      end
  end.

Definition copyoutstr (src userdest len : Z) : E cpu Z :=
  match copycheck userdest len with
  | inl e => fail e
  | inr stoplen =>
      do! set_badfaultfunc true in
      let! r := guarded (copystr userdest src len stoplen) in
      do! set_badfaultfunc false in
      match r with
      | inl _ => fail EFAULT
      | inr (inl e) => fail e
      | inr (inr actual) => ok actual
      end
  end.

(** ** The region check *)

Definition user_block (p len : Z) : Prop := 0 < len /\ 0 <= p /\ p + len <= USERTOP.

Lemma copycheck_ok p len : is_u32 p -> is_u32 len ->
  copycheck p len = inr len <-> user_block p len.
Proof.
  unfold copycheck, user_block, USERTOP, is_u32. intros Hp Hl.
  destruct (Z.eq_dec len 0) as [->|Hn0].
  - split; [|lia]. destruct (Z.eq_dec p 0) as [->|]; [done|].
    rewrite u32_id by (unfold is_u32; lia). destruct (Z.ltb_spec (p + 0 - 1) p); [done|lia].
  - destruct (Z.lt_ge_cases (p + len - 1) (2 ^ 32)).
    + rewrite u32_id by (unfold is_u32; lia). destruct (Z.ltb_spec (p + len - 1) p); [lia|].
      destruct (Z.leb_spec 0x80000000 p); [split; [done|lia]|].
      destruct (Z.leb_spec 0x80000000 (p + len - 1)); [|split; [lia|done]].
      rewrite u32_id by (unfold is_u32; lia). split; [intros [= H']; lia|lia].
    + assert (u32 (p + len - 1) = p + len - 1 - 2 ^ 32) as ->.
      { unfold u32. replace (p + len - 1) with (p + len - 1 - 2 ^ 32 + 1 * 2 ^ 32) by lia.
        rewrite Z.mod_add, Z.mod_small by lia. lia. }
      destruct (Z.ltb_spec (p + len - 1 - 2 ^ 32) p); [|lia]. split; [done|lia].
Qed.

Lemma copycheck_fail p len e : copycheck p len = inl e -> e = EFAULT.
Proof. unfold copycheck. repeat case_match; congruence. Qed.

(** A region that starts in user space and crosses into the kernel is cut there. *)
Lemma copycheck_cut p len stop : is_u32 p -> is_u32 len -> copycheck p len = inr stop ->
  p < USERTOP /\ stop = (if bool_decide (len = 0) then USERTOP else Z.min len (USERTOP - p)) /\
  (len = 0 -> p = 0).
Proof.
  unfold copycheck, USERTOP, is_u32. intros Hp Hl.
  destruct (Z.ltb_spec (u32 (p + len - 1)) p); [done|]. destruct (Z.leb_spec 0x80000000 p); [done|].
  destruct (Z.eq_dec len 0) as [->|Hn0].
  - rewrite bool_decide_true by done. destruct (Z.eq_dec p 0) as [->|].
    + vm_compute. intros [= <-]. done.
    + rewrite u32_id in H by (unfold is_u32; lia). lia.
  - rewrite bool_decide_false by done. destruct (Z.lt_ge_cases (p + len - 1) (2 ^ 32)).
    + rewrite u32_id by (unfold is_u32; lia).
      destruct (Z.leb_spec 0x80000000 (p + len - 1)); intros [= <-]; rewrite ?u32_id by (unfold is_u32; lia); lia.
    + assert (u32 (p + len - 1) = p + len - 1 - 2 ^ 32) as Hw; [|lia].
      unfold u32. replace (p + len - 1) with (p + len - 1 - 2 ^ 32 + 1 * 2 ^ 32) by lia.
      rewrite Z.mod_add, Z.mod_small by lia. lia.
Qed.

(** ** What a copy can change, trap or no trap *)

Definition same_dom (m m' : mem) : Prop := forall x, is_Some (m' !! x) <-> is_Some (m !! x).

(** [m'] is [m] but for the block [dst, dst+len). *)
Definition frame (m : mem) (dst len : Z) (m' : mem) : Prop :=
  same_dom m m' /\ forall x, ~ (dst <= x < dst + len) -> m' !! x = m !! x.

Lemma frame_refl m dst len : frame m dst len m.
Proof. by split. Qed.

Lemma frame_insert m dst len m' a b :
  frame m dst len m' -> is_Some (m' !! a) -> dst <= a < dst + len -> frame m dst len (<[a := b]> m').
Proof.
  intros [Hd Hf] Ha Hr. split.
  - intros x. rewrite lookup_insert_case. case_decide; subst; [|apply Hd].
    split; [intros _; by apply Hd|done].
  - intros x Hx. rewrite lookup_insert_ne by lia. by apply Hf.
Qed.

Lemma load8_cases a m (Q : errno + Z -> mem -> Prop) :
  (forall b, m !! a = Some b -> Q (inr b) m) -> (m !! a = None -> Q (inl EFAULT) m) -> wp (load8 a) Q m.
Proof. intros H1 H2. unfold wp, load8, bind, get. destruct (m !! a); simpl; auto. Qed.

Lemma store8_cases a b m (Q : errno + unit -> mem -> Prop) :
  (is_Some (m !! a) -> Q (inr tt) (<[a := u8 b]> m)) -> (m !! a = None -> Q (inl EFAULT) m) ->
  wp (store8 a b) Q m.
Proof. intros H1 H2. unfold wp, store8, bind, get. destruct (m !! a); simpl; auto. Qed.

Lemma mapped_word_at m a w : word_at m a = Some w -> mapped m a 4.
Proof.
  intros (b3 & b2 & b1 & b0 & H3 & H2 & H1 & H0 & _)%word_at_Some i Hi.
  assert (i = 0 \/ i = 1 \/ i = 2 \/ i = 3) as [->|[->|[->| ->]]] by lia;
    rewrite ?Z.add_0_r; by eexists.
Qed.

Lemma word_at_None m a : word_at m a = None -> ~ mapped m a 4.
Proof. intros H [w Hw]%word_at_mapped. congruence. Qed.

(** The state of a copy that has done [k] bytes and may trap. *)
Definition copying (m : mem) (dst src len k : Z) (t : mem) : Prop :=
  frame m dst len t /\ mapped m src k /\ mapped m dst k.

Definition copy_post (m : mem) (dst src len : Z) (r : errno + unit) (t : mem) : Prop :=
  frame m dst len t /\
  match r with
  | inr _ => mapped m src len /\ mapped m dst len
  | inl e => e = EFAULT /\ ~ (mapped m src len /\ mapped m dst len)
  end.

Lemma mapped_snoc m a k n : mapped m a k -> mapped m (a + k) n -> mapped m a (k + n).
Proof.
  intros H1 H2 i Hi. destruct (Z.lt_ge_cases i k); [apply H1; lia|].
  replace (a + i) with (a + k + (i - k)) by lia. apply H2. lia.
Qed.

Lemma same_dom_mapped m m' a n : same_dom m m' -> mapped m' a n <-> mapped m a n.
Proof. intros H. split; intros Hm i Hi; apply H, Hm, Hi. Qed.

Lemma copying_byte m dst src len k t :
  copying m dst src len k t -> 0 <= k < len ->
  wp (try! b := load8 (src + k) in store8 (dst + k) b)
     (fun r t' => match r with
                  | inr _ => copying m dst src len (k + 1) t'
                  | inl e => copy_post m dst src len (inl e) t'
                  end) t.
Proof.
  intros (Hf & Hs & Hd) Hk. destruct Hf as [Hdom Hfr]. wp_step. apply load8_cases.
  - intros b Hb. apply store8_cases.
    + intros Hc. split; [apply frame_insert; [by split|done|lia]|].
      split; (apply mapped_snoc; [done|]); intros i Hi; assert (i = 0) as -> by lia; rewrite Z.add_0_r.
      * apply Hdom. by eexists.
      * by apply Hdom.
    + intros Hn. split; [by split|]. split; [done|]. intros [_ H]. destruct (H k Hk) as [c Hc].
      assert (is_Some (t !! (dst + k))) as [? ?] by (apply Hdom; by eexists). congruence.
  - intros Hn. split; [by split|]. split; [done|]. intros [H _]. destruct (H k Hk) as [c Hc].
    assert (is_Some (t !! (src + k))) as [? ?] by (apply Hdom; by eexists). congruence.
Qed.

Lemma frame_set_word m dst len t a w :
  frame m dst len t -> mapped t a 4 -> dst <= a -> a + 4 <= dst + len -> frame m dst len (set_word t a w).
Proof.
  intros Hf Hm H1 H2. unfold set_word.
  assert (forall i, 0 <= i < 4 -> is_Some (t !! (a + i))) as Hi by done.
  pose proof (Hi 0 ltac:(lia)) as H0'. rewrite Z.add_0_r in H0'.
  repeat (apply frame_insert; [|rewrite ?lookup_insert_ne by lia; first [done|apply Hi; lia]|lia]). done.
Qed.

Lemma copying_word m dst src len k t :
  copying m dst src len k t -> 0 <= k -> k + 4 <= len ->
  wp (try! w := load32 (src + k) in store32 (dst + k) w)
     (fun r t' => match r with
                  | inr _ => copying m dst src len (k + 4) t'
                  | inl e => copy_post m dst src len (inl e) t'
                  end) t.
Proof.
  intros (Hf & Hs & Hd) Hk Hk4. pose proof Hf as [Hdom Hfr]. wp_step.
  destruct (word_at t (src + k)) as [w|] eqn:Hw.
  - eapply wp_load32; [exact Hw|]. destruct (word_at t (dst + k)) as [w'|] eqn:Hw'.
    + apply wp_store32; [by eexists|].
      pose proof (mapped_word_at _ _ _ Hw) as Hms. pose proof (mapped_word_at _ _ _ Hw') as Hmd.
      split; [apply frame_set_word; (done || lia)|].
      split; (apply mapped_snoc; [done|]); by apply (same_dom_mapped m t).
    + unfold wp, store32, bind, get. rewrite Hw'. simpl. split; [done|]. split; [done|]. intros [_ H].
      apply word_at_None in Hw'. destruct Hw'. apply (same_dom_mapped m t); [done|].
      apply (mapped_sub m dst len); [done|lia|lia].
  - unfold wp, load32, bind, get. rewrite Hw. simpl. split; [done|]. split; [done|]. intros [H _].
    apply word_at_None in Hw. destruct Hw. apply (same_dom_mapped m t); [done|].
    apply (mapped_sub m src len); [done|lia|lia].
Qed.

Lemma memcpy_may_trap m dst src len :
  0 <= len -> wp (memcpy dst src len) (copy_post m dst src len) m.
Proof.
  intros Hlen. assert (copying m dst src len 0 m) as H0.
  { split; [apply frame_refl|]. split; intros i Hi; lia. }
  unfold memcpy. destruct (aligned dst && aligned src && aligned len) eqn:Ha.
  - apply andb_true_iff in Ha as [_ Ha]. pose proof (aligned_len len Hlen Ha) as Hq.
    apply wp_for with (I := fun i t => copying m dst src len (i * 4) t); [done| |].
    + intros i t Hi Hc. unfold sizeof_long in *.
      eapply wp_mono; [apply (copying_word m dst src len (i * 4)); (done || lia)|].
      intros [e|[]] t'; [done|]. by replace ((i + 1) * 4) with (i * 4 + 4) by lia.
    + intros t Ht. rewrite Z.add_0_l, Z2Nat.id, Hq in Ht.
      * destruct Ht as (Hf & Hs & Hd). by split.
      * apply Z.div_pos; [done|]. unfold sizeof_long. lia.
  - apply wp_for with (I := fun i t => copying m dst src len i t); [done| |].
    + intros i t Hi Hc. eapply wp_mono; [apply (copying_byte m dst src len i); (done || lia)|].
      by intros [e|[]] t'.
    + intros t Ht. rewrite Z.add_0_l, Z2Nat.id in Ht by lia. destruct Ht as (Hf & Hs & Hd). by split.
Qed.

(** A successful copy between disjoint blocks moved every byte. *)
Lemma memcpy_moves m dst src len t :
  byte_mem m -> 0 <= len -> (dst + len <= src \/ src + len <= dst) ->
  memcpy dst src len m = Done (inr tt) t ->
  forall i, 0 <= i < len -> t !! (dst + i) = m !! (src + i).
Proof.
  intros Hb Hlen Hd Hrun i Hi. pose proof (memcpy_may_trap m dst src len Hlen) as Hp.
  unfold wp in Hp. rewrite Hrun in Hp. destruct Hp as (_ & Hs & Hdm).
  pose proof (memcpy_correct m dst src len Hdm Hs Hb Hlen ltac:(lia)) as Hc.
  unfold wp in Hc. rewrite Hrun in Hc. destruct Hc as [_ Hc].
  rewrite Hc, bool_decide_true by lia. unfold source. f_equal. lia.
Qed.

(** A guarded computation never panics: a trap becomes [inl tt]. *)
Lemma wp_guarded {A} (m : E mem A) c (Q : unit + A -> cpu -> Prop) :
  badfaultfunc c = true ->
  wp m (fun r t => Q (match r with inl _ => inl tt | inr a => inr a end) (mk_cpu t true)) (cmem c) ->
  wp (guarded m) Q c.
Proof.
  intros Hb Hm. unfold guarded. wp_step. unfold wp at 1, get. wp_step. apply wp_zoom.
  eapply wp_mono; [exact Hm|]. intros [e|a] t HQ; rewrite Hb; by wp_steps.
Qed.

(** What [copyin] and [copyout] have in common: a block copy, guarded. *)
Definition copy_result (dst src : Z) (user len : Z) (c : cpu) (r : errno + unit) (c' : cpu) : Prop :=
  badfaultfunc c' = false /\ frame (cmem c) dst len (cmem c') /\
  match r with
  | inr _ => user_block user len /\ mapped (cmem c) src len /\ mapped (cmem c) dst len /\
             forall i, 0 <= i < len -> cmem c' !! (dst + i) = cmem c !! (src + i)
  | inl e => e = EFAULT /\ ~ (user_block user len /\ mapped (cmem c) src len /\ mapped (cmem c) dst len)
  end.

Lemma guarded_copy dst src user len c :
  is_u32 len -> user_block user len -> byte_mem (cmem c) -> (dst + len <= src \/ src + len <= dst) ->
  wp (do! set_badfaultfunc true in
      let! r := guarded (memcpy dst src len) in
      do! set_badfaultfunc false in
      match r with inl _ => fail EFAULT | inr _ => ok tt end)
     (copy_result dst src user len c) c.
Proof.
  intros Hl Hu Hb Hd. unfold is_u32 in Hl. unfold set_badfaultfunc. wp_steps.
  apply wp_guarded; [done|]. simpl.
  pose proof (memcpy_may_trap (cmem c) dst src len ltac:(lia)) as Hp.
  apply wp_done in Hp as (r & t & Hrun & Hf & Hpost). eapply wp_of_eq; [exact Hrun|].
  destruct r as [e|[]]; wp_steps; (split; [done|]); (split; [done|]); simpl.
  - split; [done|]. intros (_ & Hs & Hdm). destruct Hpost as [_ Hn]. by destruct Hn.
  - split; [done|]. split; [apply Hpost|]. split; [apply Hpost|].
    apply (memcpy_moves (cmem c) dst src len t); [done|lia|done|done].
Qed.

Lemma copyin_correct usersrc dest len c :
  is_u32 usersrc -> is_u32 len -> USERTOP <= dest -> badfaultfunc c = false -> byte_mem (cmem c) ->
  wp (copyin usersrc dest len) (copy_result dest usersrc usersrc len c) c.
Proof.
  intros Hp Hl Hdest Hb Hm. pose proof (copycheck_ok usersrc len Hp Hl) as Hok. unfold copyin.
  destruct (copycheck usersrc len) as [e|stop] eqn:Hc.
  - wp_steps. split; [done|]. split; [apply frame_refl|]. split; [by eapply copycheck_fail|].
    intros (Hu & _). by apply Hok in Hu.
  - destruct (Z.eqb_spec stop len) as [->|Hne]; simpl.
    + apply guarded_copy; [done|by apply Hok|done|].
      destruct (proj1 Hok eq_refl) as (? & ? & ?). right. lia.
    + wp_steps. split; [done|]. split; [apply frame_refl|]. split; [done|].
      intros (Hu & _). apply Hok in Hu. congruence.
Qed.

Lemma copyout_correct src userdest len c :
  is_u32 userdest -> is_u32 len -> USERTOP <= src -> badfaultfunc c = false -> byte_mem (cmem c) ->
  wp (copyout src userdest len) (copy_result userdest src userdest len c) c.
Proof.
  intros Hp Hl Hsrc Hb Hm. pose proof (copycheck_ok userdest len Hp Hl) as Hok. unfold copyout.
  destruct (copycheck userdest len) as [e|stop] eqn:Hc.
  - wp_steps. split; [done|]. split; [apply frame_refl|]. split; [by eapply copycheck_fail|].
    intros (Hu & _). by apply Hok in Hu.
  - destruct (Z.eqb_spec stop len) as [->|Hne]; simpl.
    + apply guarded_copy; [done|by apply Hok|done|].
      destruct (proj1 Hok eq_refl) as (? & ? & ?). left. lia.
    + wp_steps. split; [done|]. split; [apply frame_refl|]. split; [done|].
      intros (Hu & _). apply Hok in Hu. congruence.
Qed.

(** ** Strings *)

Section copystr.
Context (m : mem) (dest src maxlen stop : Z).

Definition copied_upto (k : Z) : mem -> Prop := block_set m dest 0 k (fun i => m !! (src + i)).

(** One round of the loop. *)
Lemma copystr_round fuel k t b n (Q : errno + (errno + Z) -> mem -> Prop) :
    copied_upto k t -> 0 <= k < n -> mapped m src n -> mapped m dest n ->
    (dest + n <= src \/ src + n <= dest) -> m !! (src + k) = Some b -> is_u8 b ->
    (forall t', copied_upto (k + 1) t' ->
       if b =? 0 then Q (inr (inr (k + 1))) t'
       else wp (copystr_from fuel dest src maxlen stop (k + 1)) Q t') ->
    wp (copystr_from (S fuel) dest src maxlen stop k) Q t.
Proof.
    intros Ht Hk Hs Hd Hdis Hb Hu HQ. cbn [copystr_from].
    assert (forall t', copied_upto k t' \/ copied_upto (k + 1) t' -> t' !! (src + k) = Some b) as Hsrc.
    { intros t' [H|H]; rewrite H, bool_decide_false; done || lia. }
    cbv beta iota; wp_step; apply (wp_load8 _ _ _ b); [by auto|].
    cbv beta iota; wp_step; apply wp_store8.
    { apply (mapped_block_set m dest 0 k (fun i => m !! (src + i)) t dest n); [done| |done|lia].
      intros i Hi. apply Hs. lia. }
    pose proof (block_set_byte m dest 0 k (fun i => m !! (src + i)) t b k Ht Hb Hu ltac:(lia)) as Ht'.
    rewrite Z.min_r, Z.max_l in Ht' by lia. specialize (HQ _ Ht').
    cbv beta iota; wp_step; apply (wp_load8 _ _ _ b); [by auto|]. cbv beta iota. destruct (b =? 0); [by wp_steps|done].
Qed.

Lemma copystr_from_fits s : forall fuel k t n,
    cstr m (src + k) s -> 0 <= k -> n = k + lenZ s + 1 -> mapped m src n -> mapped m dest n ->
    (dest + n <= src \/ src + n <= dest) -> copied_upto k t -> (length s < fuel)%nat ->
    wp (copystr_from fuel dest src maxlen stop k) (fun r t' => r = inr (inr n) /\ copied_upto n t') t.
Proof.
    induction s as [|b s IH]; intros fuel k t n Hc Hk Hn Hs Hd Hdis Ht Hf;
      (destruct fuel as [|fuel]; [lia|]).
    - apply cstr_nil in Hc. change (lenZ []) with 0 in Hn.
      apply (copystr_round fuel k t 0 n); try done; try lia.
      intros t' Ht'. simpl. by replace n with (k + 1) by lia.
    - apply cstr_cons in Hc as (Hb & Hne & Hl & Hc).
      assert (lenZ (b :: s) = lenZ s + 1) as Hlen by (unfold lenZ; simpl; lia).
      pose proof (lenZ_nonneg s). apply (copystr_round fuel k t b n); try done; try lia.
      intros t' Ht'. rewrite (proj2 (Z.eqb_neq b 0) Hne).
      apply IH; try done; try lia; [by rewrite Z.add_assoc|simpl in Hf; lia].
Qed.

Lemma copystr_from_long fuel : forall k t n,
    n = k + Z.of_nat fuel -> 0 <= k ->
    (forall i, 0 <= i < n -> exists b, m !! (src + i) = Some b /\ is_u8 b /\ b <> 0) ->
    mapped m dest n -> (dest + n <= src \/ src + n <= dest) -> copied_upto k t ->
    wp (copystr_from fuel dest src maxlen stop k)
       (fun r t' => r = inr (inl (if stop <? maxlen then EFAULT else ENAMETOOLONG)) /\ copied_upto n t') t.
Proof.
    induction fuel as [|fuel IH]; intros k t n Hn Hk Hs Hd Hdis Ht.
    - simpl. wp_steps. split; [by case_match|]. by replace n with k by lia.
    - destruct (Hs k) as (b & Hb & Hu & Hne); [lia|].
      apply (copystr_round fuel k t b n); try done; try lia.
      + intros i Hi. destruct (Hs i Hi) as (c & -> & _). done.
      + intros t' Ht'. rewrite (proj2 (Z.eqb_neq b 0) Hne). apply IH; try done; lia.
Qed.
End copystr.

Lemma copied_upto_0 m dest src : copied_upto m dest src 0 m.
Proof. apply block_set_refl. Qed.

(** A copied string is a string. *)
Lemma copied_upto_cstr m dest src s t :
  cstr m src s -> copied_upto m dest src (lenZ s + 1) t -> cstr t dest s.
Proof.
  intros Hc Ht. split; [apply Hc|]. apply bytes_at_lookup. intros i x Hx. rewrite Ht.
  pose proof (nthZ_Some_lt _ _ _ Hx) as Hi. rewrite lenZ_app in Hi. change (lenZ [0]) with 1 in Hi.
  rewrite bool_decide_true by lia. replace (dest + i - dest) with i by lia.
  by apply (proj1 (bytes_at_lookup _ _ _) (proj2 Hc)).
Qed.

Lemma cstr_mapped m a s : cstr m a s -> mapped m a (lenZ s + 1).
Proof. intros [_ H]. apply bytes_at_mapped in H. by rewrite lenZ_app in H. Qed.

(** A user string that fits in the buffer and in user space. *)
Lemma copyinstr_fits usersrc dest len s c :
  is_u32 usersrc -> is_u32 len -> USERTOP <= dest -> badfaultfunc c = false ->
  cstr (cmem c) usersrc s -> lenZ s < len -> usersrc + lenZ s < USERTOP ->
  mapped (cmem c) dest (lenZ s + 1) ->
  (forall stop, copycheck usersrc len = inr stop ->
   wp (copyinstr usersrc dest len)
     (fun r c' => r = inr (lenZ s + 1) /\ badfaultfunc c' = false /\ cstr (cmem c') dest s) c).
Proof.
  intros Hp Hl Hdest Hb Hs Hfit Htop Hd stop Hc. pose proof (lenZ_nonneg s).
  destruct (copycheck_cut _ _ _ Hp Hl Hc) as (_ & Hstop & _). rewrite bool_decide_false in Hstop by lia.
  unfold copyinstr. rewrite Hc. unfold set_badfaultfunc. wp_steps. apply wp_guarded; [done|].
  eapply wp_mono.
  - apply (copystr_from_fits (cmem c) dest usersrc len stop s _ 0 _ (lenZ s + 1));
      try done; try (simpl; lia); try (by rewrite ?Z.add_0_r); try apply copied_upto_0.
    + by apply cstr_mapped.
    + unfold lenZ in *. lia.
  - intros r t [-> Ht]. wp_steps. split; [done|]. split; [done|]. simpl. by eapply copied_upto_cstr.
Qed.

(** Bytes with no terminator among them, up to the limit. *)
Definition no_nul (m : mem) (a n : Z) : Prop :=
  forall i, 0 <= i < n -> exists b, m !! (a + i) = Some b /\ is_u8 b /\ b <> 0.

Lemma copyinstr_long usersrc dest len c stop :
  is_u32 usersrc -> is_u32 len -> 0 < len -> USERTOP <= dest -> badfaultfunc c = false ->
  copycheck usersrc len = inr stop -> no_nul (cmem c) usersrc stop -> mapped (cmem c) dest stop ->
  wp (copyinstr usersrc dest len)
     (fun r c' => r = inl (if bool_decide (usersrc + len <= USERTOP) then ENAMETOOLONG else EFAULT) /\
                  badfaultfunc c' = false) c.
Proof.
  intros Hp Hl Hl0 Hdest Hb Hc Hs Hd. unfold is_u32 in Hp.
  destruct (copycheck_cut _ _ _ Hp Hl Hc) as (Htop & Hstop & _). rewrite bool_decide_false in Hstop by lia.
  unfold copyinstr. rewrite Hc. unfold set_badfaultfunc. wp_steps. apply wp_guarded; [done|].
  eapply wp_mono.
  - apply (copystr_from_long (cmem c) dest usersrc len stop _ 0 _ stop);
      try done; try (simpl; lia); apply copied_upto_0.
  - intros r t [-> Ht]. wp_steps. split; [|done].
    destruct (Z.ltb_spec stop len); case_bool_decide; done || lia.
Qed.

(** ** Properties *)


Definition demo_cpu : cpu :=
  mk_cpu (list_to_map [(4096, 0); (4097, 0); (4098, 0); (USERTOP, 7); (USERTOP + 1, 8); (USERTOP + 2, 0)]) false.

Lemma demo_cpu_bytes : byte_mem (cmem demo_cpu).
Proof.
  intros a b H. apply elem_of_list_to_map_2 in H. set_unfold. unfold is_u8. naive_solver lia.
Qed.


(** [copyin] either copies the whole user block or fails with EFAULT, and it
    succeeds exactly when the block is not empty, lies below USERTOP and both
    blocks are present. An empty block always fails, although nothing would be
    touched: the end address [bot+len-1] wraps below [bot]. *)
Theorem copyin_all_or_efault (usersrc dest len : Z) (c : cpu) :
  is_u32 usersrc -> is_u32 len -> USERTOP <= dest -> badfaultfunc c = false -> byte_mem (cmem c) ->
  exists r c', copyin usersrc dest len c = Done r c' /\ badfaultfunc c' = false /\
    (r = inr tt <-> user_block usersrc len /\ mapped (cmem c) usersrc len /\ mapped (cmem c) dest len) /\
    (r = inr tt -> forall i, 0 <= i < len -> cmem c' !! (dest + i) = cmem c !! (usersrc + i)) /\
    (r <> inr tt -> r = inl EFAULT) /\ (len = 0 -> r = inl EFAULT).
Proof.
  intros Hp Hl Hs Hb Hm.
  destruct (wp_done _ _ _ (copyin_correct usersrc dest len c Hp Hl Hs Hb Hm)) as (r & c' & Hrun & Hpost).
  destruct Hpost as (Hbf & _ & Hr). exists r, c'. split; [done|]. split; [done|].
  destruct r as [e|[]].
  - destruct Hr as [-> Hn]. split_and!; naive_solver.
  - destruct Hr as (Hu & Hs' & Hd & Hi). split_and!; [naive_solver|done|done|].
    intros ->. destruct Hu. lia.
Qed.

Lemma copyin_all_or_efault_witness :
  exists c', copyin 4096 USERTOP 0 demo_cpu = Done (inl EFAULT) c'.
Proof.
  destruct (copyin_all_or_efault 4096 USERTOP 0 demo_cpu) as (r & c' & Hrun & _ & _ & _ & _ & H0);
    [unfold is_u32; lia|unfold is_u32; lia|reflexivity|reflexivity|exact demo_cpu_bytes|].
  exists c'. rewrite <- (H0 eq_refl). exact Hrun.
Defined.

(** [copyinstr] bounds a user string three ways: one that ends within both
    the buffer and user space is copied with its terminator and its length handed
    back; one that does not end within the buffer gives ENAMETOOLONG; one that runs
    into the kernel boundary first gives EFAULT. *)
Theorem copyinstr_bounds (usersrc dest len : Z) (c : cpu) (stop : Z) :
  is_u32 usersrc -> is_u32 len -> 0 < len -> USERTOP <= dest -> badfaultfunc c = false ->
  copycheck usersrc len = inr stop -> mapped (cmem c) dest stop ->
  (forall s, cstr (cmem c) usersrc s -> lenZ s < stop ->
     exists c', copyinstr usersrc dest len c = Done (inr (lenZ s + 1)) c' /\
                badfaultfunc c' = false /\ cstr (cmem c') dest s) /\
  (no_nul (cmem c) usersrc stop ->
     exists c', copyinstr usersrc dest len c =
                  Done (inl (if bool_decide (usersrc + len <= USERTOP) then ENAMETOOLONG else EFAULT)) c' /\
                badfaultfunc c' = false).
Proof.
  intros Hp Hl Hl0 Hdest Hb Hc Hd.
  destruct (copycheck_cut _ _ _ Hp Hl Hc) as (Htop & Hstop & _). rewrite bool_decide_false in Hstop by lia.
  split.
  - intros s Hs Hlen. pose proof (lenZ_nonneg s).
    assert (mapped (cmem c) dest (lenZ s + 1)) as Hds by (intros i Hi; apply Hd; lia).
    destruct (wp_done _ _ _ (copyinstr_fits usersrc dest len s c Hp Hl Hdest Hb Hs ltac:(lia) ltac:(lia)
                Hds stop Hc))
      as (r & c' & Hrun & -> & Hbf & Hcs). by exists c'.
  - intros Hn. destruct (wp_done _ _ _ (copyinstr_long usersrc dest len c stop Hp Hl Hl0 Hdest Hb Hc Hn Hd))
      as (r & c' & Hrun & -> & Hbf). by exists c'.
Qed.

Definition demo_cpu2 : cpu :=
  mk_cpu (list_to_map [(4096, 65); (4097, 66); (4098, 0); (USERTOP, 7); (USERTOP + 1, 8); (USERTOP + 2, 0);
                       (USERTOP + 3, 0)]) false.

Lemma copyinstr_bounds_witness :
  exists c', copyinstr 4096 USERTOP 4 demo_cpu2 = Done (inr 3) c' /\ cstr (cmem c') USERTOP [65; 66].
Proof.
  destruct (copyinstr_bounds 4096 USERTOP 4 demo_cpu2 4) as [Hfit _];
    [unfold is_u32; lia|unfold is_u32; lia|lia|reflexivity|reflexivity|reflexivity| |].
  - intros i Hi. assert (i = 0 \/ i = 1 \/ i = 2 \/ i = 3) as [->|[->|[->| ->]]] by lia; by eexists.
  - destruct (Hfit [65; 66]) as (c' & Hrun & _ & Hcs).
    + split; [repeat (constructor; [split; [unfold is_u8; lia|lia]|]); constructor|]. vm_compute. repeat split.
    + reflexivity.
    + exists c'. split; [exact Hrun|exact Hcs].
Defined.
