(* ===== verification/Uio.v ===== *)
(** * Transfers between a kernel buffer and the data area of a request
    (kern/userprog/uio.c, kern/include/uio.h).

    A kernel buffer is an object of its own: the list of its bytes, and a pointer
    into it is an offset. A user pointer is an address in the memory of the current
    thread's address space; while bytes are copied to or from it the kernel buffer
    occupies the addresses from [KBUF] on, and the copy is the one of CopyInOut.v. *)

From stdpp Require Import base numbers list gmap.
From Stdlib Require Import ZArith Lia.
From S2P Require Import Prelude Mem Cstring CopyInOut.

Inductive uio_op : Type := UIO_READ | UIO_WRITE.
Inductive uio_seg : Type := UIO_USERSPACE | UIO_SYSSPACE | UIO_USERISPACE.

#[export] Instance uio_op_eq_dec : EqDecision uio_op.
Proof. solve_decision. Defined.
#[export] Instance uio_seg_eq_dec : EqDecision uio_seg.
Proof. solve_decision. Defined.

(** The union of [struct iovec]: a pointer into a kernel object, or a user address. *)
Inductive iov_un : Type :=
| un_kbase (obj : list Z) (off : Z)
| un_ubase (addr : Z).

Record uio : Type := mk_uio {
  uio_iovec : iov_un;
  iov_len : Z;
  uio_offset : Z;
  uio_resid : Z;
  uio_segflg : uio_seg;
  uio_rw : uio_op;
  uio_space : option Z;     (* identity of the address space; None is NULL *)
}.

(** A request, the memory of the current address space, and which one it is. *)
Record uenv : Type := mk_uenv { xuio : uio; umem : mem; curspace : option Z }.

Definition set_uio (e : uenv) (u : uio) : uenv := mk_uenv u (umem e) (curspace e).
Definition set_base (u : uio) (b : iov_un) : uio :=
  mk_uio b (iov_len u) (uio_offset u) (uio_resid u) (uio_segflg u) (uio_rw u) (uio_space u).
Definition set_resid (u : uio) (n : Z) : uio :=
  mk_uio (uio_iovec u) (iov_len u) (uio_offset u) n (uio_segflg u) (uio_rw u) (uio_space u).
Definition set_offset (u : uio) (n : Z) : uio :=
  mk_uio (uio_iovec u) (iov_len u) n (uio_resid u) (uio_segflg u) (uio_rw u) (uio_space u).

(** ** User copies of a kernel object *)

Definition KBUF : Z := USERTOP.

Definition kmap (obj : list Z) : mem := list_to_map (zip (seqZ KBUF (lenZ obj)) obj).

(** Runs a user copy with the object in place, then takes the object out again. *)
Definition pinned {A} (m : E cpu A) : E (list Z * mem) A :=
  fun s =>
    let '(obj, um) := s in
    match m (mk_cpu (kmap obj ∪ um) false) with
    | Done r c =>
        Done r (map (fun a => default 0 (cmem c !! a)) (seqZ KBUF (lenZ obj)),
                filter (fun kv => kv.1 < USERTOP) (cmem c))
    | Panic => Panic
    | Undef => Undef
    | OutOfFuel => OutOfFuel
    end.

(** ** uiomove *)

(** State of [uiomove]: the kernel buffer [ptr] points into, and the request. *)
Definition kenv : Type := list Z * uenv.

(** [memmove] between a kernel buffer and the object of the request. *)
Definition move_kernel (ptr size : Z) (obj : list Z) (off : Z) : E kenv unit :=
  let! s := get in
  let '(buf, e) := s in
  let u := xuio e in
  if bool_decide (0 <= ptr /\ ptr + size <= lenZ buf /\ 0 <= off /\ off + size <= lenZ obj) then
    match uio_rw u with
    | UIO_READ =>
        do! put (buf, set_uio e (set_base u (un_kbase (splice obj off (slice buf ptr size)) (off + size)))) in
        ok tt
    | UIO_WRITE =>
        do! put (splice buf ptr (slice obj off size), set_uio e (set_base u (un_kbase obj (off + size)))) in
        ok tt
    end
  else undef.

Definition move_user (ptr size addr : Z) : E kenv unit :=
  let! s := get in
  let u := xuio (snd s) in
  try! _ :=
    zoom (fun s : kenv => (fst s, umem (snd s)))
         (fun t s => (fst t, mk_uenv (xuio (snd s)) (snd t) (curspace (snd s))))
      (pinned (match uio_rw u with
               | UIO_READ => copyout (KBUF + ptr) addr size
               | UIO_WRITE => copyin addr (KBUF + ptr) size
               end)) in
  let! s := get in
  do! put (fst s, set_uio (snd s) (set_base u (un_ubase (u32 (addr + size))))) in
  ok tt.

Definition move_once (ptr size : Z) : E kenv unit :=
  let! s := get in
  let u := xuio (snd s) in
  match uio_segflg u, uio_iovec u with
  | UIO_SYSSPACE, un_kbase obj off => move_kernel ptr size obj off
  | UIO_USERSPACE, un_ubase addr | UIO_USERISPACE, un_ubase addr => move_user ptr size addr
  | _, _ => undef
  end.

(** [iov_len -= size; uio_resid -= size; uio_offset += size;] *)
Definition advance (size : Z) : M kenv unit :=
  let! s := get in
  let '(buf, e) := s in
  let u := xuio e in
  put (buf, set_uio e (mk_uio (uio_iovec u) (u32 (iov_len u - size)) (s32 (uio_offset u + size))
                         (u32 (uio_resid u - size)) (uio_segflg u) (uio_rw u) (uio_space u))).

Fixpoint uiomove_loop (fuel : nat) (ptr n : Z) : E kenv unit :=
  let! s := get in
  let u := xuio (snd s) in
  if (0 <? n) && (0 <? uio_resid u) then
    match fuel with
    | O => out_of_fuel
    | S fuel =>
        let size := if n <? iov_len u then n else iov_len u in
        if size =? 0 then panic
        else
          try! _ := move_once ptr size in
          do! advance size in
          uiomove_loop fuel (ptr + size) (n - size)
    end
  else ok tt.

(** A round empties [n] or the iovec, and an empty iovec panics: two rounds. *)
Definition uiomove (ptr n : Z) : E kenv unit :=
  let! s := get in
  let e := snd s in
  do! assert_ (match uio_segflg (xuio e) with
               | UIO_SYSSPACE => bool_decide (uio_space (xuio e) = None)
               | _ => bool_decide (uio_space (xuio e) = curspace e)
               end) in
  uiomove_loop 2 ptr n.

(** Runs [uiomove] on a buffer of the caller's own, and hands the buffer back. *)
Definition uiomove_on (buf : list Z) (ptr n : Z) : M uenv ((errno + unit) * list Z) :=
  fun e =>
    match uiomove ptr n (buf, e) with
    | Done r (buf', e') => Done (r, buf') e'
    | Panic => Panic
    | Undef => Undef
    | OutOfFuel => OutOfFuel
    end.

Definition zeros : list Z := replicate 16 0.

Fixpoint uiomovezeros_loop (fuel : nat) (n : Z) : E uenv unit :=
  if 0 <? n then
    match fuel with
    | O => out_of_fuel
    | S fuel =>
        let amt := if n <? lenZ zeros then n else lenZ zeros in
        let! r := uiomove_on zeros 0 amt in
        match fst r with
        | inl e => fail e
        | inr _ => uiomovezeros_loop fuel (n - amt)
        end
    end
  else ok tt.

Definition uiomovezeros (n : Z) : E uenv unit :=
  let! e := get in
  do! assert_ (bool_decide (uio_rw (xuio e) = UIO_READ)) in
  uiomovezeros_loop (Z.to_nat n) n.

Definition mk_kuio (kbuf : list Z) (len pos : Z) (rw : uio_op) : uio :=
  mk_uio (un_kbase kbuf 0) len pos len UIO_SYSSPACE rw None.

(** ** Moving between kernel objects *)

(** The request after [n] bytes went through it. *)
Definition advanced (u : uio) (n : Z) (b : iov_un) : uio :=
  mk_uio b (iov_len u - n) (uio_offset u + n) (uio_resid u - n) (uio_segflg u) (uio_rw u) (uio_space u).

(** The counters of a request are in range, and stay so for [n] more bytes. *)
Definition can_move (u : uio) (n : Z) : Prop :=
  0 <= n <= uio_resid u /\ n <= iov_len u /\ is_u32 (uio_resid u) /\ is_u32 (iov_len u) /\
  is_s32 (uio_offset u) /\ is_s32 (uio_offset u + n).

(** A request whose data area is a kernel object. *)
Record kernel_uio (u : uio) (obj : list Z) (off : Z) : Prop := {
  ku_base : uio_iovec u = un_kbase obj off;
  ku_seg : uio_segflg u = UIO_SYSSPACE;
  ku_space : uio_space u = None;
  ku_off : 0 <= off;
  ku_fits : off + iov_len u <= lenZ obj;
}.

(** The data area and the kernel buffer after moving [n] bytes. *)
Definition moved_obj (op : uio_op) (buf obj : list Z) (ptr off n : Z) : list Z :=
  match op with UIO_READ => splice obj off (slice buf ptr n) | UIO_WRITE => obj end.
Definition moved_buf (op : uio_op) (buf obj : list Z) (ptr off n : Z) : list Z :=
  match op with UIO_READ => buf | UIO_WRITE => splice buf ptr (slice obj off n) end.

Lemma advance_run buf e n : can_move (xuio e) n ->
  advance n (buf, e) = Done tt (buf, set_uio e (advanced (xuio e) n (uio_iovec (xuio e)))).
Proof.
  intros (Hn & Hl & Hr & Hi & Ho & Ho'). unfold advance, bind, get, put, advanced, is_u32 in *.
  rewrite !u32_id by (unfold is_u32; lia). by rewrite s32_id.
Qed.

Lemma uiomove_loop_stop fuel ptr n buf e :
  n <= 0 \/ uio_resid (xuio e) <= 0 -> uiomove_loop fuel ptr n (buf, e) = Done (inr tt) (buf, e).
Proof.
  intros H. destruct fuel; cbn [uiomove_loop]; unfold bind, get; simpl;
    destruct (Z.ltb_spec 0 n), (Z.ltb_spec 0 (uio_resid (xuio e))); simpl; done || lia.
Qed.

(** One round that moves all [n] bytes. *)
Lemma uiomove_loop_step fuel ptr n buf e :
  0 < n -> n <= uio_resid (xuio e) -> n <= iov_len (xuio e) ->
  uiomove_loop (S fuel) ptr n (buf, e) =
  tbind (move_once ptr n) (fun _ => do! advance n in uiomove_loop fuel (ptr + n) 0) (buf, e).
Proof.
  intros Hn Hr Hl. cbn [uiomove_loop]. unfold bind at 1, get. simpl.
  destruct (Z.ltb_spec 0 n); [|lia]. destruct (Z.ltb_spec 0 (uio_resid (xuio e))); [|lia]. simpl.
  assert ((if n <? iov_len (xuio e) then n else iov_len (xuio e)) = n) as ->.
  { destruct (Z.ltb_spec n (iov_len (xuio e))); lia. }
  rewrite (proj2 (Z.eqb_neq n 0)) by lia. by rewrite Z.sub_diag.
Qed.

Arguments uiomove_loop : simpl never.

Lemma advanced_0 u b : uio_iovec u = b -> advanced u 0 b = u.
Proof. intros <-. unfold advanced. destruct u; simpl. by rewrite !Z.sub_0_r, Z.add_0_r. Qed.

Lemma set_uio_id e : set_uio e (xuio e) = e.
Proof. by destruct e. Qed.

Lemma uiomove_kernel ptr n buf e obj off :
  kernel_uio (xuio e) obj off -> can_move (xuio e) n -> 0 <= ptr -> ptr + n <= lenZ buf ->
  let op := uio_rw (xuio e) in
  uiomove ptr n (buf, e) =
  Done (inr tt)
    (moved_buf op buf obj ptr off n,
     set_uio e (advanced (xuio e) n
       (un_kbase (moved_obj op buf obj ptr off n) (off + n)))).
Proof.
  intros [Hb Hs Hsp Hoff Hfit] Hc Hp Hpb op. pose proof Hc as (Hn & Hl & Hr & Hi & Ho & Ho').
  unfold uiomove, bind, get. simpl. rewrite Hs, Hsp. simpl.
  destruct (Z.eq_dec n 0) as [->|Hn0].
  { rewrite uiomove_loop_stop by lia. unfold moved_buf, moved_obj.
    rewrite !slice_nil, !splice_nil, Z.add_0_r. rewrite advanced_0 by (by destruct op). rewrite set_uio_id.
    by destruct op. }
  rewrite uiomove_loop_step by lia.
  rewrite (tbind_done _ _ _ tt (moved_buf op buf obj ptr off n,
    set_uio e (set_base (xuio e) (un_kbase (moved_obj op buf obj ptr off n) (off + n))))).
  - unfold bind. rewrite advance_run by (simpl; exact Hc). cbv beta iota.
    rewrite uiomove_loop_stop by lia. done.
  - unfold move_once, bind, get. simpl. rewrite Hs, Hb. unfold move_kernel, bind, get.
    rewrite bool_decide_true by lia. unfold op. by destruct (uio_rw (xuio e)).
Qed.

(** The range of a request after a transfer. *)
Lemma can_move_advanced u n b m : can_move u (n + m) -> 0 <= n -> 0 <= m -> can_move (advanced u n b) m.
Proof.
  unfold can_move, advanced, is_u32, is_s32. simpl. lia.
Qed.

Lemma can_move_le u n m : can_move u n -> 0 <= m <= n -> can_move u m.
Proof. unfold can_move, is_s32, is_u32. lia. Qed.

Lemma kernel_uio_advanced u obj off n obj' :
  kernel_uio u obj off -> 0 <= n -> lenZ obj' = lenZ obj ->
  kernel_uio (advanced u n (un_kbase obj' (off + n))) obj' (off + n).
Proof. intros [] Hn Hl. split; simpl; try done; lia. Qed.

Lemma lenZ_moved_obj op buf obj ptr off n :
  0 <= ptr -> 0 <= n -> ptr + n <= lenZ buf -> 0 <= off -> off + n <= lenZ obj ->
  lenZ (moved_obj op buf obj ptr off n) = lenZ obj.
Proof. intros. destruct op; [|done]. simpl. rewrite lenZ_splice; rewrite ?lenZ_slice; lia. Qed.

Lemma advanced_advanced u n m b b' : advanced (advanced u n b) m b' = advanced u (n + m) b'.
Proof. unfold advanced. simpl. f_equal; lia. Qed.

(** Zeros are delivered sixteen at a time. *)
Lemma uiomovezeros_loop_kernel : forall fuel n e obj off,
  kernel_uio (xuio e) obj off -> can_move (xuio e) n -> uio_rw (xuio e) = UIO_READ ->
  n <= Z.of_nat fuel ->
  uiomovezeros_loop fuel n e =
  Done (inr tt) (set_uio e (advanced (xuio e) n
    (un_kbase (splice obj off (replicate (Z.to_nat n) 0)) (off + n)))).
Proof.
  induction fuel as [|fuel IH]; intros n e obj off Hk Hc Hrw Hf;
    pose proof Hk as [Hb Hs Hsp Hoff Hfit]; pose proof Hc as (Hn & Hl & _);
    cbn [uiomovezeros_loop]; destruct (Z.ltb_spec 0 n) as [Hpos|Hz]; try lia;
    try (assert (n = 0) as -> by lia; simpl; rewrite splice_nil, Z.add_0_r, advanced_0, set_uio_id by done; done).
  set (amt := if n <? lenZ zeros then n else lenZ zeros).
  change (lenZ zeros) with 16 in *.
  assert (0 < amt <= n /\ amt <= 16) as [Hamt Hamt16].
  { unfold amt. destruct (Z.ltb_spec n 16); lia. }
  assert (splice obj off (slice zeros 0 amt) = splice obj off (replicate (Z.to_nat amt) 0)) as Hz.
  { f_equal. unfold slice, zeros. rewrite drop_0, take_replicate. f_equal. lia. }
  set (obj1 := splice obj off (replicate (Z.to_nat amt) 0)).
  set (e1 := set_uio e (advanced (xuio e) amt (un_kbase obj1 (off + amt)))).
  assert (uiomove_on zeros 0 amt e = Done (inr tt, zeros) e1) as Hrun.
  { unfold uiomove_on. rewrite (uiomove_kernel 0 amt zeros e obj off).
    - rewrite Hrw. unfold moved_buf, moved_obj. rewrite Hz. done.
    - done.
    - eapply can_move_le; [exact Hc|lia].
    - lia.
    - change (lenZ zeros) with 16. lia. }
  rewrite (bind_done _ _ _ _ _ Hrun). simpl.
  assert (lenZ obj1 = lenZ obj) as Hl1.
  { unfold obj1. apply lenZ_splice; [done|]. rewrite lenZ_replicate. lia. }
  rewrite (IH (n - amt) e1 obj1 (off + amt)).
  - unfold e1 at 2. simpl. rewrite advanced_advanced.
    replace (amt + (n - amt)) with n by lia. replace (off + amt + (n - amt)) with (off + n) by lia.
    unfold obj1. pose proof (splice_splice obj off (replicate (Z.to_nat amt) 0) (replicate (Z.to_nat (n - amt)) 0)) as Hss.
    rewrite !lenZ_replicate in Hss. rewrite Z2Nat.id in Hss by lia. rewrite Hss by lia.
    rewrite <- replicate_add. by replace (Z.to_nat amt + Z.to_nat (n - amt))%nat with (Z.to_nat n) by lia.
  - eapply kernel_uio_advanced; [done|lia|done].
  - apply can_move_advanced; [by replace (amt + (n - amt)) with n by lia|lia|lia].
  - done.
  - lia.
Qed.

Lemma uiomovezeros_kernel n e obj off :
  kernel_uio (xuio e) obj off -> can_move (xuio e) n -> uio_rw (xuio e) = UIO_READ ->
  uiomovezeros n e =
  Done (inr tt) (set_uio e (advanced (xuio e) n
    (un_kbase (splice obj off (replicate (Z.to_nat n) 0)) (off + n)))).
Proof.
  intros Hk Hc Hrw. unfold uiomovezeros, bind, get. rewrite Hrw, bool_decide_true by done. simpl.
  apply uiomovezeros_loop_kernel; try done. destruct Hc as (? & _). lia.
Qed.

(** ** Moving to and from user memory *)

Lemma seqZ_lookup_map (f : Z -> Z) (obj : list Z) :
  (forall i x, nthZ obj i = Some x -> f (KBUF + i) = x) -> map f (seqZ KBUF (lenZ obj)) = obj.
Proof.
  intros H. apply list_eq. intros i. rewrite list_lookup_fmap.
  destruct (decide (i < length obj)%nat) as [Hi|Hi].
  - rewrite lookup_seqZ_lt by (unfold lenZ; lia). simpl.
    destruct (lookup_lt_is_Some_2 obj i Hi) as [x Hx]. rewrite Hx. f_equal. apply H.
    rewrite nthZ_to_nat, Nat2Z.id by lia. done.
  - rewrite lookup_seqZ_ge, lookup_ge_None_2 by (unfold lenZ; lia). done.
Qed.

Lemma kmap_lookup obj x : kmap obj !! x = if bool_decide (KBUF <= x) then nthZ obj (x - KBUF) else None.
Proof.
  unfold kmap. apply option_eq. intros b. split.
  - intros H%elem_of_list_to_map_2. apply elem_of_lookup_zip_with in H as (i & y & c & [= -> ->] & Hy & Hc).
    apply lookup_seqZ in Hy as [-> Hi]. rewrite bool_decide_true by lia.
    rewrite nthZ_to_nat by lia. by replace (Z.to_nat (KBUF + Z.of_nat i - KBUF)) with i by lia.
  - case_bool_decide; [|done]. intros Hb. pose proof (nthZ_Some_lt _ _ _ Hb) as Hl.
    apply elem_of_list_to_map_1.
    + rewrite fst_zip; [apply NoDup_seqZ|]. rewrite length_seqZ. unfold lenZ. lia.
    + rewrite nthZ_to_nat in Hb by lia. apply elem_of_lookup_zip_with.
      exists (Z.to_nat (x - KBUF)), x, b. split; [done|]. split; [|done]. apply lookup_seqZ. lia.
Qed.

(** User memory holds bytes, below USERTOP. *)
Definition user_mem (um : mem) : Prop := forall a b, um !! a = Some b -> a < USERTOP /\ is_u8 b.

Definition bytes_ok (obj : list Z) : Prop := Forall is_u8 obj.

Lemma pinned_lookup_kernel obj um i x :
  nthZ obj i = Some x -> (kmap obj ∪ um) !! (KBUF + i) = Some x.
Proof.
  intros H. pose proof (nthZ_Some_lt _ _ _ H). apply lookup_union_Some_l.
  rewrite kmap_lookup, bool_decide_true by lia. by replace (KBUF + i - KBUF) with i by lia.
Qed.

Lemma pinned_lookup_user obj um a : a < USERTOP -> (kmap obj ∪ um) !! a = um !! a.
Proof.
  intros H. apply lookup_union_r. rewrite kmap_lookup, bool_decide_false; [done|]. unfold KBUF. lia.
Qed.

Lemma pinned_bytes obj um : bytes_ok obj -> user_mem um -> byte_mem (kmap obj ∪ um).
Proof.
  intros Ho Hu a b H. apply lookup_union_Some_raw in H as [H|[_ H]]; [|by apply (Hu a)].
  rewrite kmap_lookup in H. case_bool_decide; [|done]. pose proof (nthZ_Some_lt _ _ _ H).
  rewrite nthZ_to_nat in H by lia. by eapply Forall_lookup_1.
Qed.

Lemma pinned_mapped_kernel obj um ptr n :
  0 <= ptr -> ptr + n <= lenZ obj -> mapped (kmap obj ∪ um) (KBUF + ptr) n.
Proof.
  intros Hp Hn i Hi. destruct (nthZ_is_Some obj (ptr + i)) as [x Hx]; [lia|]. exists x.
  replace (KBUF + ptr + i) with (KBUF + (ptr + i)) by lia. by apply pinned_lookup_kernel.
Qed.

Lemma pinned_mapped_user obj um a n : a + n <= USERTOP -> mapped (kmap obj ∪ um) a n <-> mapped um a n.
Proof.
  intros H. split; intros Hm i Hi; specialize (Hm i Hi); by rewrite pinned_lookup_user in * by lia.
Qed.

Lemma filter_user (m : mem) x : filter (fun kv => kv.1 < USERTOP) m !! x = if bool_decide (x < USERTOP) then m !! x else None.
Proof.
  case_bool_decide as Hx.
  - destruct (m !! x) as [b|] eqn:Hm.
    + by apply map_lookup_filter_Some_2.
    + by apply map_lookup_filter_None_2; left.
  - apply map_lookup_filter_None_2. right. simpl. naive_solver.
Qed.

(** The block of user memory the request names can be copied. *)
Definition user_ok (um : mem) (addr n : Z) : Prop := user_block addr n /\ mapped um addr n.

(** [copyout] of a kernel object: the user block receives the object's bytes. *)
Lemma pinned_copyout obj um ptr addr n :
  bytes_ok obj -> user_mem um -> is_u32 addr -> is_u32 n -> 0 <= ptr -> ptr + n <= lenZ obj ->
  exists r um', pinned (copyout (KBUF + ptr) addr n) (obj, um) = Done r (obj, um') /\
    (forall x, ~ (addr <= x < addr + n) -> um' !! x = um !! x) /\
    match r with
    | inr _ => user_ok um addr n /\ forall i, 0 <= i < n -> um' !! (addr + i) = nthZ obj (ptr + i)
    | inl e => e = EFAULT /\ ~ user_ok um addr n
    end.
Proof.
  intros Hob Hum Ha Hn Hp Hpn.
  pose proof (copyout_correct (KBUF + ptr) addr n (mk_cpu (kmap obj ∪ um) false) Ha Hn) as Hwp.
  apply wp_done in Hwp as (r & c' & Hrun & _ & [Hdom Hfr] & Hpost);
    [|unfold KBUF; lia|done|by apply pinned_bytes].
  simpl in *. unfold pinned. rewrite Hrun.
  assert (user_block addr n \/ cmem c' = kmap obj ∪ um) as Hcase.
  { destruct r as [e|[]]; [|left; apply Hpost]. pose proof (copycheck_ok addr n Ha Hn) as Hok.
    unfold copyout in Hrun. destruct (copycheck addr n) as [e'|stop] eqn:Hc.
    - right. unfold fail, ret in Hrun; injection Hrun as ? <-; done.
    - destruct (Z.eqb_spec stop n) as [->|]; [left; by apply Hok|]. right. simpl in Hrun.
      unfold fail, ret in Hrun; injection Hrun as ? <-; done. }
  assert (forall x, KBUF <= x -> cmem c' !! x = (kmap obj ∪ um) !! x) as Hker.
  { intros x Hx. destruct Hcase as [(? & ? & ?)| ->]; [|done]. apply Hfr. unfold KBUF in Hx. lia. }
  exists r, (filter (fun kv => kv.1 < USERTOP) (cmem c')). split; [|split].
  - do 2 f_equal. apply seqZ_lookup_map. intros i x Hx. pose proof (nthZ_Some_lt _ _ _ Hx).
    rewrite Hker by lia. by rewrite (pinned_lookup_kernel _ _ _ _ Hx).
  - intros x Hx. rewrite filter_user. case_bool_decide as Hlt.
    + rewrite Hfr by lia. by apply pinned_lookup_user.
    + destruct (um !! x) as [b|] eqn:Hb; [|done]. apply Hum in Hb. lia.
  - destruct r as [e|[]].
    + destruct Hpost as [-> Hno]. split; [done|]. intros [Hu Hm]. destruct Hno. split; [done|].
      split; [by apply pinned_mapped_kernel|]. apply pinned_mapped_user; [apply Hu|done].
    + destruct Hpost as (Hu & _ & Hm & Hi). split; [split; [done|]|].
      * apply (pinned_mapped_user obj um) in Hm; [done|apply Hu].
      * intros i Hi'. destruct Hu as (? & ? & ?). rewrite filter_user, bool_decide_true by lia.
        rewrite Hi by done. destruct (nthZ_is_Some obj (ptr + i)) as [x Hx]; [lia|].
        rewrite Hx, <- Z.add_assoc. by apply pinned_lookup_kernel.
Qed.

#[global] Arguments pinned : simpl never.
#[global] Arguments copyout : simpl never.
#[global] Arguments copyin : simpl never.

(** [uiomove] to user space: all [n] bytes arrive and the request advances, or
    the call fails with EFAULT and the request stays where it was. *)
Lemma uiomove_to_user ptr n buf e addr :
  uio_iovec (xuio e) = un_ubase addr -> uio_segflg (xuio e) <> UIO_SYSSPACE ->
  uio_space (xuio e) = curspace e -> uio_rw (xuio e) = UIO_READ ->
  can_move (xuio e) n -> 0 < n -> 0 <= ptr -> ptr + n <= lenZ buf ->
  bytes_ok buf -> user_mem (umem e) -> is_u32 addr ->
  exists um',
    (forall x, ~ (addr <= x < addr + n) -> um' !! x = umem e !! x) /\
    ((user_ok (umem e) addr n /\
      uiomove ptr n (buf, e) =
        Done (inr tt) (buf, mk_uenv (advanced (xuio e) n (un_ubase (u32 (addr + n)))) um' (curspace e)) /\
      forall i, 0 <= i < n -> um' !! (addr + i) = nthZ buf (ptr + i)) \/
     (~ user_ok (umem e) addr n /\
      uiomove ptr n (buf, e) = Done (inl EFAULT) (buf, mk_uenv (xuio e) um' (curspace e)))).
Proof.
  intros Hb Hseg Hsp Hrw Hc Hn Hp Hpn Hob Hum Ha. pose proof Hc as (Hn' & Hl & Hr & _).
  destruct (pinned_copyout buf (umem e) ptr addr n) as (r & um' & Hrun & Hfr & Hpost);
    try done; [unfold is_u32 in *; lia|]. exists um'. split; [done|].
  assert (uiomove ptr n (buf, e) =
    tbind (move_user ptr n addr) (fun _ => do! advance n in uiomove_loop 1 (ptr + n) 0) (buf, e)) as ->.
  { unfold uiomove, bind, get. simpl. rewrite Hsp.
    destruct (uio_segflg (xuio e)) eqn:Hsf; try done; rewrite bool_decide_true by done; simpl;
      rewrite uiomove_loop_step by lia; unfold move_once, tbind, bind, get; simpl; by rewrite Hsf, Hb. }
  assert (move_user ptr n addr (buf, e) =
    match r with
    | inl e' => Done (inl e') (buf, mk_uenv (xuio e) um' (curspace e))
    | inr _ => Done (inr tt) (buf, mk_uenv (set_base (xuio e) (un_ubase (u32 (addr + n)))) um' (curspace e))
    end) as Hmv.
  { unfold move_user, tbind, zoom, bind, get. simpl. rewrite Hrw, Hrun. by destruct r as [|[]]. }
  destruct r as [e'|[]].
  - destruct Hpost as [-> Hno]. right. split; [done|]. by apply tbind_fail.
  - destruct Hpost as [Hok Hi]. left. split; [done|]. split; [|done].
    rewrite (tbind_done _ _ _ _ _ Hmv). unfold bind. rewrite advance_run by (simpl; exact Hc).
    cbv beta iota. rewrite uiomove_loop_stop by lia. done.
Qed.

(** ** Properties *)

(** [uiomove] between kernel buffers moves exactly the [n] bytes asked for, in
    the direction of the request, touches nothing else of either object, and leaves
    the offset advanced and the residue and the iovec shortened by [n]. *)
Theorem uiomove_exact (ptr n : Z) (buf : list Z) (e : uenv) (obj : list Z) (off : Z) :
  kernel_uio (xuio e) obj off -> can_move (xuio e) n -> 0 <= ptr -> ptr + n <= lenZ buf ->
  exists buf' obj',
    uiomove ptr n (buf, e) =
      Done (inr tt) (buf', set_uio e (advanced (xuio e) n (un_kbase obj' (off + n)))) /\
    match uio_rw (xuio e) with
    | UIO_READ => buf' = buf /\ lenZ obj' = lenZ obj /\
        forall i, nthZ obj' i = if bool_decide (off <= i < off + n) then nthZ buf (ptr + (i - off)) else nthZ obj i
    | UIO_WRITE => obj' = obj /\ lenZ buf' = lenZ buf /\
        forall i, nthZ buf' i = if bool_decide (ptr <= i < ptr + n) then nthZ obj (off + (i - ptr)) else nthZ buf i
    end.
Proof.
  intros Hk Hc Hp Hpb. pose proof Hk as [_ _ _ Hoff Hfit]. pose proof Hc as (Hn & Hl & _).
  eexists _, _. split; [by apply uiomove_kernel|]. destruct (uio_rw (xuio e)); simpl.
  - assert (lenZ (slice buf ptr n) = n) as Hs by (apply lenZ_slice; lia).
    split; [done|]. split; [apply lenZ_splice; lia|]. intros i. rewrite nthZ_splice, Hs by lia.
    case_bool_decide; [|done]. apply nthZ_slice; lia.
  - assert (lenZ (slice obj off n) = n) as Hs by (apply lenZ_slice; lia).
    split; [done|]. split; [apply lenZ_splice; lia|]. intros i. rewrite nthZ_splice, Hs by lia.
    case_bool_decide; [|done]. apply nthZ_slice; lia.
Qed.

Lemma uiomove_exact_witness :
  exists buf' obj',
    uiomove 1 2 ([1; 2; 3; 4], mk_uenv (mk_kuio [9; 9; 9] 3 0 UIO_READ) ∅ None) =
    Done (inr tt) (buf', mk_uenv (mk_uio (un_kbase obj' 2) 1 2 1 UIO_SYSSPACE UIO_READ None) ∅ None) /\
    nthZ obj' 1 = Some 3.
Proof.
  destruct (uiomove_exact 1 2 [1; 2; 3; 4] (mk_uenv (mk_kuio [9; 9; 9] 3 0 UIO_READ) ∅ None) [9; 9; 9] 0)
    as (buf' & obj' & Hrun & _ & _ & Hi).
  - split; simpl; try done; lia.
  - unfold can_move, is_u32, is_s32. simpl. lia.
  - lia.
  - simpl. unfold lenZ. simpl. lia.
  - exists buf', obj'. split; [exact Hrun|]. rewrite (Hi 1). reflexivity.
Defined.
