(* ===== verification/BlockDev.v ===== *)
(** * The interface of a block device (kern/include/dev.h).

    [struct device] is a table of function pointers: [d_io] carries out a request
    that covers whole sectors. What a file system relies on, that a request on a
    device in working order reads or writes the sectors it names and nothing else,
    is the class [ReliableDevice]; Lhd.v discharges it for the LAMEbus disk. *)

From stdpp Require Import base numbers list gmap.
From Stdlib Require Import ZArith Lia.
From S2P Require Import Prelude Mem Cstring CopyInOut Uio.

Definition SECTSIZE : Z := 512.

Class BlockDevice (D : Type) : Type := {
  d_io : E (D * uenv) unit;
  d_blocks : D -> Z;
  d_blocksize : D -> Z;
}.

(** A request for the one sector [b], from or to a kernel object. *)
Record sector_request (u : uio) (b : Z) (obj : list Z) (off : Z) : Prop := {
  sr_kernel : kernel_uio u obj off;
  sr_offset : uio_offset u = b * SECTSIZE;
  sr_resid : uio_resid u = SECTSIZE;
  sr_move : can_move u SECTSIZE;
}.

(** The request once the sector went through it. *)
Definition sector_moved (e : uenv) (off : Z) (obj' : list Z) : uenv :=
  set_uio e (advanced (xuio e) SECTSIZE (un_kbase obj' (off + SECTSIZE))).

Class ReliableDevice {D : Type} (B : BlockDevice D) : Type := {
  dev_ok : D -> Prop;
  sector : D -> Z -> list Z;
  sector_ok d b : dev_ok d -> 0 <= b < d_blocks d -> lenZ (sector d b) = SECTSIZE /\ bytes_ok (sector d b);
  dev_read d e b obj off :
    dev_ok d -> 0 <= b < d_blocks d -> sector_request (xuio e) b obj off -> uio_rw (xuio e) = UIO_READ ->
    exists d', d_io (d, e) = Done (inr tt) (d', sector_moved e off (splice obj off (sector d b))) /\
      dev_ok d' /\ d_blocks d' = d_blocks d /\ forall k, sector d' k = sector d k;
  dev_write d e b obj off :
    dev_ok d -> 0 <= b < d_blocks d -> sector_request (xuio e) b obj off -> uio_rw (xuio e) = UIO_WRITE ->
    bytes_ok obj ->
    exists d', d_io (d, e) = Done (inr tt) (d', sector_moved e off obj) /\
      dev_ok d' /\ d_blocks d' = d_blocks d /\
      forall k, sector d' k = if bool_decide (k = b) then slice obj off SECTSIZE else sector d k;
}.
