(* ===== verification/Lhd.v ===== *)
(** * The LAMEbus hard disk driver (kern/dev/lamebus/lhd.c, lhd.h).

    The card itself is a parameter: [card_op] is what it does when an operation is
    started through its status register, given the direction and the sector, to its
    on-card buffer; it yields the value the status register then holds. The driver
    sleeps on [lh_done] until the interrupt handler has run; a card that raises no
    completion leaves it asleep, which is the outcome [OutOfFuel]. *)

From stdpp Require Import base numbers list gmap.
From Stdlib Require Import ZArith Lia.
From S2P Require Import Prelude Mem Cstring CopyInOut Uio BlockDev.

Definition LHD_IDLE : Z := 0.
Definition LHD_WORKING : Z := 1.
Definition LHD_OK : Z := 4.
Definition LHD_INVSECT : Z := 12.
Definition LHD_MEDIA : Z := 20.
Definition LHD_ISWRITE : Z := 2.
Definition LHD_STATEMASK : Z := 0x1d.
Definition LHD_SECTSIZE : Z := 512.

(** The hardware: its state, its size, and its reaction to a command. *)
Class LhdCard (H : Type) : Type := {
  card_nsect : H -> Z;
  card_op : H -> bool -> Z -> list Z -> H * list Z * Z;
}.

Section lhd.
Context {H : Type} `{LhdCard H}.

Record lhd_softc : Type := mk_lhd {
  lh_card : H;
  lh_buf : list Z;
  lh_stat : Z;                      (* status register *)
  lh_sect : Z;                      (* sector register *)
  lh_result : option errno;         (* None is 0 *)
  lh_clear : Z;                     (* semaphore counts *)
  lh_done : Z;
  lh_blocks : Z;                    (* lh_dev.d_blocks *)
}.

Definition lhd_code_to_errno (code : Z) : option errno :=
  let c := Z.land code LHD_STATEMASK in
  if c =? LHD_OK then None
  else if c =? LHD_INVSECT then Some EINVAL
  else if c =? LHD_MEDIA then Some EIO
  else Some EAGAIN.

Definition lhd_upd (f : lhd_softc -> lhd_softc) : M lhd_softc unit := let! lh := get in put (f lh).

Definition set_clear (n : Z) (lh : lhd_softc) : lhd_softc :=
  mk_lhd (lh_card lh) (lh_buf lh) (lh_stat lh) (lh_sect lh) (lh_result lh) n (lh_done lh) (lh_blocks lh).
Definition set_done (n : Z) (lh : lhd_softc) : lhd_softc :=
  mk_lhd (lh_card lh) (lh_buf lh) (lh_stat lh) (lh_sect lh) (lh_result lh) (lh_clear lh) n (lh_blocks lh).
Definition set_result (r : option errno) (lh : lhd_softc) : lhd_softc :=
  mk_lhd (lh_card lh) (lh_buf lh) (lh_stat lh) (lh_sect lh) r (lh_clear lh) (lh_done lh) (lh_blocks lh).
Definition set_stat (v : Z) (lh : lhd_softc) : lhd_softc :=
  mk_lhd (lh_card lh) (lh_buf lh) v (lh_sect lh) (lh_result lh) (lh_clear lh) (lh_done lh) (lh_blocks lh).
Definition set_sect (v : Z) (lh : lhd_softc) : lhd_softc :=
  mk_lhd (lh_card lh) (lh_buf lh) (lh_stat lh) v (lh_result lh) (lh_clear lh) (lh_done lh) (lh_blocks lh).
Definition set_buf (b : list Z) (lh : lhd_softc) : lhd_softc :=
  mk_lhd (lh_card lh) b (lh_stat lh) (lh_sect lh) (lh_result lh) (lh_clear lh) (lh_done lh) (lh_blocks lh).

Definition lhd_iodone (err : option errno) : M lhd_softc unit :=
  do! lhd_upd (set_result err) in
  lhd_upd (fun lh => set_done (lh_done lh + 1) lh).

Definition lhd_irq : M lhd_softc unit :=
  let! lh := get in
  let val := lh_stat lh in
  let c := Z.land val LHD_STATEMASK in
  if (c =? LHD_OK) || (c =? LHD_INVSECT) || (c =? LHD_MEDIA) then
    do! lhd_upd (set_stat 0) in
    lhd_iodone (lhd_code_to_errno val)
  else ret tt.

(** Writing a command to the status register: the card carries it out, sets the
    register and interrupts. *)
Definition lhd_start (statval : Z) : M lhd_softc unit :=
  do! lhd_upd (set_stat statval) in
  let! lh := get in
  let '(h, b, v) := card_op (lh_card lh) (negb (Z.land statval LHD_ISWRITE =? 0)) (lh_sect lh) (lh_buf lh) in
  do! put (mk_lhd h b v (lh_sect lh) (lh_result lh) (lh_clear lh) (lh_done lh) (lh_blocks lh)) in
  lhd_irq.

Definition P_clear : M lhd_softc unit :=
  let! lh := get in if 0 <? lh_clear lh then put (set_clear (lh_clear lh - 1) lh) else out_of_fuel.
Definition V_clear : M lhd_softc unit := lhd_upd (fun lh => set_clear (lh_clear lh + 1) lh).
Definition P_done : M lhd_softc unit :=
  let! lh := get in if 0 <? lh_done lh then put (set_done (lh_done lh - 1) lh) else out_of_fuel.

Definition dstate : Type := lhd_softc * uenv.
Definition on_lh {A} (m : M lhd_softc A) : M dstate A := zoom fst (fun lh s => (lh, snd s)) m.

(** [uiomove(lh->lh_buf, LHD_SECTSIZE, uio)] *)
Definition move_buf : E dstate unit :=
  let! s := get in
  let! r := zoom snd (fun e s => (fst s, e)) (uiomove_on (lh_buf (fst s)) 0 LHD_SECTSIZE) in
  do! on_lh (lhd_upd (set_buf (snd r))) in
  ret (fst r).

Definition lhd_sector (rw : uio_op) (sect statval : Z) : E dstate unit :=
  do! on_lh P_clear in
  let! r := (match rw with UIO_WRITE => move_buf | UIO_READ => ok tt end) in
  match r with
  | inl e => do! on_lh V_clear in fail e
  | inr _ =>
      do! on_lh (lhd_upd (set_sect sect)) in
      do! on_lh (lhd_start statval) in
      do! on_lh P_done in
      let! s := get in
      let! r := (match lh_result (fst s), rw with
                 | None, UIO_READ => move_buf
                 | None, UIO_WRITE => ok tt
                 | Some e, _ => fail e
                 end) in
      do! on_lh V_clear in
      ret r
  end.

Definition lhd_io : E dstate unit :=
  let! s := get in
  let '(lh, e) := s in
  let u := xuio e in
  let sector := u32 (Z.quot (uio_offset u) LHD_SECTSIZE) in
  let sectoff := u32 (Z.rem (uio_offset u) LHD_SECTSIZE) in
  let len := uio_resid u / LHD_SECTSIZE in
  let lenoff := uio_resid u mod LHD_SECTSIZE in
  if negb (sectoff =? 0) || negb (lenoff =? 0) then fail EINVAL
  else if lh_blocks lh <? u32 (sector + len) then fail EINVAL
  else
    let statval := match uio_rw u with
                   | UIO_WRITE => Z.lor LHD_WORKING LHD_ISWRITE
                   | UIO_READ => LHD_WORKING
                   end in
    for_ (Z.to_nat len) 0 (fun i => lhd_sector (uio_rw u) (u32 (sector + i)) statval).

Definition lhd_ioctl {S} : E S unit := fail EIOCTL.
Definition lhd_open {S} : E S unit := ok tt.
Definition lhd_close {S} : E S unit := ok tt.

(** [config_lhd]: [m1] and [m2] say whether the semaphores could be created; the
    registration with [vfs_adddev] is left to VfsList.v. *)
Definition config_lhd (h : H) (buf : list Z) (m1 m2 : bool) : errno + lhd_softc :=
  if negb m1 then inl ENOMEM
  else if negb m2 then inl ENOMEM
  else inr (mk_lhd h buf 0 0 None 1 0 (card_nsect h)).

#[export] Instance lhd_device : BlockDevice lhd_softc := {
  d_io := lhd_io;
  d_blocks := lh_blocks;
  d_blocksize := fun _ => LHD_SECTSIZE;
}.
End lhd.
Arguments lhd_softc : clear implicits.

(** ** A card in working order makes a reliable device *)

(** What the hardware documentation promises of a card without media errors. *)
Class CardWorks (H : Type) `{LhdCard H} : Type := {
  card_sector : H -> Z -> list Z;
  card_sector_ok h s : 0 <= s < card_nsect h ->
    lenZ (card_sector h s) = LHD_SECTSIZE /\ bytes_ok (card_sector h s);
  card_reads h s buf : 0 <= s < card_nsect h -> lenZ buf = LHD_SECTSIZE ->
    exists h', card_op h false s buf = (h', card_sector h s, LHD_OK) /\
      card_nsect h' = card_nsect h /\ forall k, card_sector h' k = card_sector h k;
  card_writes h s buf : 0 <= s < card_nsect h -> lenZ buf = LHD_SECTSIZE -> bytes_ok buf ->
    exists h', card_op h true s buf = (h', buf, Z.lor LHD_OK LHD_ISWRITE) /\
      card_nsect h' = card_nsect h /\
      forall k, card_sector h' k = if bool_decide (k = s) then buf else card_sector h k;
}.

Section working.
Context {H : Type} `{CardWorks H}.

Record lhd_ready (lh : lhd_softc H) : Prop := {
  ready_clear : lh_clear lh = 1;
  ready_done : lh_done lh = 0;
  ready_buf : lenZ (lh_buf lh) = LHD_SECTSIZE;
  ready_bytes : bytes_ok (lh_buf lh);
  ready_size : lh_blocks lh = card_nsect (lh_card lh);
}.

(** The device after an operation on its card. *)
Definition lhd_after (lh : lhd_softc H) (h : H) (buf : list Z) (s : Z) : lhd_softc H :=
  mk_lhd h buf 0 s None (lh_clear lh) (lh_done lh) (lh_blocks lh).

Lemma move_buf_kernel (lh : lhd_softc H) e obj off :
  lenZ (lh_buf lh) = LHD_SECTSIZE -> kernel_uio (xuio e) obj off -> can_move (xuio e) LHD_SECTSIZE ->
  let op := uio_rw (xuio e) in
  move_buf (lh, e) =
  Done (inr tt) (set_buf (moved_buf op (lh_buf lh) obj 0 off LHD_SECTSIZE) lh,
    sector_moved e off (moved_obj op (lh_buf lh) obj 0 off LHD_SECTSIZE)).
Proof.
  intros Hl Hk Hc op. unfold move_buf. rewrite (bind_done _ _ _ (lh, e) (lh, e)) by done.
  rewrite (bind_done _ _ _ (inr tt, moved_buf op (lh_buf lh) obj 0 off LHD_SECTSIZE)
    (lh, sector_moved e off (moved_obj op (lh_buf lh) obj 0 off LHD_SECTSIZE))); [done|].
  unfold zoom, uiomove_on. cbn [fst snd].
  rewrite (uiomove_kernel 0 LHD_SECTSIZE (lh_buf lh) e obj off Hk Hc) by lia. done.
Qed.

(** One sector, start to finish. *)
Lemma lhd_sector_read lh e s obj off :
  lhd_ready lh -> 0 <= s < card_nsect (lh_card lh) ->
  kernel_uio (xuio e) obj off -> can_move (xuio e) LHD_SECTSIZE -> uio_rw (xuio e) = UIO_READ ->
  exists h', card_nsect h' = card_nsect (lh_card lh) /\
    (forall k, card_sector h' k = card_sector (lh_card lh) k) /\
    lhd_sector UIO_READ s LHD_WORKING (lh, e) =
    Done (inr tt) (lhd_after lh h' (card_sector (lh_card lh) s) s,
                   sector_moved e off (splice obj off (card_sector (lh_card lh) s))).
Proof.
  intros Hr Hs Hk Hc Hrw. destruct (card_reads (lh_card lh) s (lh_buf lh) Hs (ready_buf _ Hr)) as (h' & Hop & Hn & Hsec).
  destruct (card_sector_ok (lh_card lh) s Hs) as [Hlen _]. destruct Hr as [Rc Rd Rb Ry Rs].
  exists h'. split; [done|]. split; [done|]. unfold lhd_sector.
  rewrite (bind_done _ _ _ tt (set_clear 0 lh, e)).
  2:{ unfold on_lh, zoom, P_clear, bind, get. simpl. by rewrite Rc. }
  rewrite (bind_done _ _ _ (inr tt) (set_clear 0 lh, e)) by done. cbv beta iota.
  rewrite (bind_done _ _ _ tt (set_sect s (set_clear 0 lh), e)) by done.
  set (lh1 := mk_lhd h' (card_sector (lh_card lh) s) 0 s None 0 1 (lh_blocks lh)).
  rewrite (bind_done _ _ _ tt (lh1, e)).
  2:{ unfold on_lh, zoom, lhd_start, lhd_upd, bind, get, put. simpl. rewrite Hop. simpl.
      unfold set_result, set_stat, set_done. simpl. by rewrite Rd. }
  rewrite (bind_done _ _ _ tt (set_done 0 lh1, e)) by done.
  rewrite (bind_done _ _ _ (set_done 0 lh1, e) (set_done 0 lh1, e)) by done. simpl.
  erewrite bind_done; [|apply (move_buf_kernel (set_done 0 lh1) e obj off); done].
  rewrite Hrw. simpl. rewrite <- Hlen, slice_full. unfold bind, on_lh, zoom, V_clear, lhd_upd, get, put, bind, lhd_after. simpl.
  unfold set_clear, set_buf, set_done, lh1. simpl. by rewrite Rc, Rd.
Qed.

Lemma lhd_sector_write lh e s obj off :
  lhd_ready lh -> 0 <= s < card_nsect (lh_card lh) ->
  kernel_uio (xuio e) obj off -> can_move (xuio e) LHD_SECTSIZE -> uio_rw (xuio e) = UIO_WRITE ->
  bytes_ok obj ->
  exists h', card_nsect h' = card_nsect (lh_card lh) /\
    (forall k, card_sector h' k = if bool_decide (k = s) then slice obj off LHD_SECTSIZE
                                  else card_sector (lh_card lh) k) /\
    lhd_sector UIO_WRITE s (Z.lor LHD_WORKING LHD_ISWRITE) (lh, e) =
    Done (inr tt) (lhd_after lh h' (slice obj off LHD_SECTSIZE) s, sector_moved e off obj).
Proof.
  intros Hr Hs Hk Hc Hrw Hby. destruct Hr as [Rc Rd Rb Ry Rs]. destruct Hk as [Kb Ks Ksp Ko Kf] eqn:HK.
  pose proof Hc as (_ & Hil & _).
  assert (lenZ (slice obj off LHD_SECTSIZE) = LHD_SECTSIZE) as Hl by (apply lenZ_slice; unfold LHD_SECTSIZE in *; lia).
  assert (bytes_ok (slice obj off LHD_SECTSIZE)) as Hby'.
  { unfold slice. by apply Forall_take, Forall_drop. }
  destruct (card_writes (lh_card lh) s _ Hs Hl Hby') as (h' & Hop & Hn & Hsec).
  exists h'. split; [done|]. split; [done|]. unfold lhd_sector.
  rewrite (bind_done _ _ _ tt (set_clear 0 lh, e)).
  2:{ unfold on_lh, zoom, P_clear, bind, get. simpl. by rewrite Rc. }
  erewrite bind_done; [|apply (move_buf_kernel (set_clear 0 lh) e obj off); done].
  rewrite Hrw. cbv beta iota. simpl. rewrite splice_full by congruence.
  set (buf := slice obj off LHD_SECTSIZE) in *. set (e' := sector_moved e off obj).
  rewrite (bind_done _ _ _ tt (set_sect s (set_buf buf (set_clear 0 lh)), e')) by done.
  set (lh1 := mk_lhd h' buf 0 s None 0 1 (lh_blocks lh)).
  rewrite (bind_done _ _ _ tt (lh1, e')).
  2:{ unfold on_lh, zoom, lhd_start, lhd_upd, bind, get, put. simpl. rewrite Hop. simpl.
      unfold set_result, set_stat, set_done. simpl. by rewrite Rd. }
  rewrite (bind_done _ _ _ tt (set_done 0 lh1, e')) by done.
  rewrite (bind_done _ _ _ (set_done 0 lh1, e') (set_done 0 lh1, e')) by done. simpl.
  unfold bind, on_lh, zoom, V_clear, lhd_upd, get, put, bind, lhd_after. simpl.
  unfold set_clear, set_done, lh1, ok, ret. simpl. by rewrite Rc, Rd.
Qed.

(** The arithmetic of a request for one whole sector inside the disk. *)
Lemma lhd_io_one lh e b obj off :
  lhd_ready lh -> 0 <= b < card_nsect (lh_card lh) -> sector_request (xuio e) b obj off ->
  lhd_io (lh, e) =
  lhd_sector (uio_rw (xuio e)) b
    (match uio_rw (xuio e) with UIO_WRITE => Z.lor LHD_WORKING LHD_ISWRITE | UIO_READ => LHD_WORKING end) (lh, e).
Proof.
  intros Hr Hb [Hk Ho Hn Hm]. destruct Hm as (_ & _ & _ & _ & Hs1 & Hs2).
  unfold SECTSIZE, is_s32 in *. unfold lhd_io, bind at 1, get at 1. cbv beta iota.
  unfold LHD_SECTSIZE. rewrite Ho, Hn, Z.quot_mul, Z.rem_mul by lia. change (512 / 512) with 1.
  change (512 mod 512) with 0. change (u32 0) with 0. simpl. rewrite (u32_id b) by (unfold is_u32; lia).
  rewrite u32_id by (unfold is_u32; lia). rewrite (ready_size _ Hr).
  destruct (Z.ltb_spec (card_nsect (lh_card lh)) (b + 1)); [lia|].
  change (Z.to_nat 1) with 1%nat. cbn [for_]. unfold tbind, bind. rewrite Z.add_0_r, u32_id by (unfold is_u32; lia).
  destruct (lhd_sector _ _ _ _) as [[|[]] ? | | |]; done.
Qed.

#[export] Instance lhd_reliable : ReliableDevice (D := lhd_softc H) lhd_device.
Proof.
  refine {| dev_ok := lhd_ready; sector := fun lh k => card_sector (lh_card lh) k |}.
  - intros lh b Hr Hb. simpl in Hb. rewrite (ready_size _ Hr) in Hb. by apply card_sector_ok.
  - intros lh e b obj off Hr Hb Hreq Hrw. simpl in *. rewrite (ready_size _ Hr) in Hb.
    rewrite (lhd_io_one lh e b obj off) by done. rewrite Hrw. destruct Hreq as [Hk _ _ Hc].
    destruct (lhd_sector_read lh e b obj off Hr Hb Hk Hc Hrw) as (h' & Hn & Hsec & Hrun).
    eexists. split; [exact Hrun|]. destruct (card_sector_ok (lh_card lh) b Hb). destruct Hr.
    split; [|done]. split; simpl; try done. congruence.
  - intros lh e b obj off Hr Hb Hreq Hrw Hby. simpl in *. rewrite (ready_size _ Hr) in Hb.
    rewrite (lhd_io_one lh e b obj off) by done. rewrite Hrw. destruct Hreq as [Hk _ _ Hc].
    destruct (lhd_sector_write lh e b obj off Hr Hb Hk Hc Hrw Hby) as (h' & Hn & Hsec & Hrun).
    eexists. split; [exact Hrun|]. destruct Hr. pose proof Hc as (_ & Hil & _). destruct Hk.
    split; [|done]. split; simpl; try done; [| |congruence].
    + apply lenZ_slice; unfold LHD_SECTSIZE, SECTSIZE in *; lia.
    + unfold slice. by apply Forall_take, Forall_drop.
Defined.
End working.

(** ** A card to run examples on: 64 sectors, and a number of media errors to come *)

#[export] Instance is_u8_dec z : Decision (is_u8 z).
Proof. unfold is_u8. apply _. Defined.

Definition blank : list Z := replicate 512 0.

Notation ram_card := (gmap Z (list Z)).

Definition ram_sector (h : ram_card) (s : Z) : list Z :=
  match h !! s with
  | Some b => if bool_decide (lenZ b = LHD_SECTSIZE /\ bytes_ok b) then b else blank
  | None => blank
  end.

#[export] Instance bytes_ok_dec l : Decision (bytes_ok l).
Proof. unfold bytes_ok. apply _. Defined.

#[export] Instance ram_card_hw : LhdCard ram_card := {
  card_nsect := fun _ => 64;
  card_op := fun h w s buf =>
    if w then (<[s := buf]> h, buf, Z.lor LHD_OK LHD_ISWRITE) else (h, ram_sector h s, LHD_OK);
}.

#[export] Instance ram_card_works : CardWorks ram_card.
Proof.
  refine {| card_sector := ram_sector |}.
  - intros h s _. unfold ram_sector. destruct (h !! s) as [b|]; [case_bool_decide; [done|]|];
      (split; [reflexivity|by apply Forall_replicate]).
  - intros h s buf _ _. exists h. done.
  - intros h s buf _ Hl Hb. exists (<[s := buf]> h). split; [done|]. split; [done|]. intros k.
    unfold ram_sector. case_bool_decide as Hk.
    + subst. rewrite lookup_insert_eq. by rewrite bool_decide_true.
    + by rewrite lookup_insert_ne by done.
Defined.

(** A card that reports a media error for the next [flaky_errors] operations. *)
Record flaky_card : Type := mk_flaky { flaky_ram : ram_card; flaky_errors : nat }.

#[export] Instance flaky_card_hw : LhdCard flaky_card := {
  card_nsect := fun _ => 64;
  card_op := fun h w s buf =>
    match flaky_errors h with
    | O => let '(r, b, v) := card_op (flaky_ram h) w s buf in (mk_flaky r 0, b, v)
    | S n => (mk_flaky (flaky_ram h) n, buf, LHD_MEDIA)
    end;
}.

Definition fresh_lhd {H} `{LhdCard H} (h : H) : lhd_softc H := mk_lhd h blank 0 0 None 1 0 (card_nsect h).

Lemma fresh_lhd_ready {H} `{CardWorks H} (h : H) : lhd_ready (fresh_lhd h).
Proof. split; simpl; try done. by apply Forall_replicate. Qed.

(** ** Properties *)

(** C34. On a card in working order, a sector written through [lhd_io] is read back
    unchanged: the write and the read both return 0, leave the driver ready (the
    semaphores as they were), and the second request's buffer holds the first's. *)
Theorem lhd_write_read {H} `{CardWorks H} (lh : lhd_softc H) (e1 e2 : uenv) (b : Z) (obj1 obj2 : list Z) :
  lhd_ready lh -> 0 <= b < card_nsect (lh_card lh) ->
  sector_request (xuio e1) b obj1 0 -> uio_rw (xuio e1) = UIO_WRITE -> bytes_ok obj1 ->
  lenZ obj1 = LHD_SECTSIZE ->
  sector_request (xuio e2) b obj2 0 -> uio_rw (xuio e2) = UIO_READ -> lenZ obj2 = LHD_SECTSIZE ->
  exists lh1 lh2, lhd_io (lh, e1) = Done (inr tt) (lh1, sector_moved e1 0 obj1) /\ lhd_ready lh1 /\
                  lhd_io (lh1, e2) = Done (inr tt) (lh2, sector_moved e2 0 obj1) /\ lhd_ready lh2.
Proof.
  intros Hr Hb Q1 W1 By1 L1 Q2 R2 L2. pose proof Hb as Hb'. rewrite <- (ready_size _ Hr) in Hb'.
  destruct (@dev_write _ _ lhd_reliable lh e1 b obj1 0 Hr Hb' Q1 W1 By1) as (lh1 & Run1 & Ok1 & Bl1 & Sec1).
  simpl in Bl1. rewrite <- Bl1 in Hb'.
  destruct (@dev_read _ _ lhd_reliable lh1 e2 b obj2 0 Ok1 Hb' Q2 R2) as (lh2 & Run2 & Ok2 & _).
  exists lh1, lh2. split; [exact Run1|]. split; [exact Ok1|]. split; [|exact Ok2].
  rewrite (Sec1 b), bool_decide_true in Run2 by done.
  assert (slice obj1 0 SECTSIZE = obj1) as He.
  { change SECTSIZE with LHD_SECTSIZE. rewrite <- L1. apply slice_full. }
  rewrite He, splice_full in Run2 by congruence. exact Run2.
Qed.

Definition demo_write : uenv := mk_uenv (mk_kuio (replicate 512 7) 512 (5 * 512) UIO_WRITE) ∅ None.
Definition demo_read : uenv := mk_uenv (mk_kuio (replicate 512 0) 512 (5 * 512) UIO_READ) ∅ None.

Lemma lhd_write_read_witness :
  exists lh1 lh2, lhd_io (fresh_lhd (∅ : ram_card), demo_write) = Done (inr tt) (lh1, sector_moved demo_write 0 (replicate 512 7)) /\
                  lhd_io (lh1, demo_read) = Done (inr tt) (lh2, sector_moved demo_read 0 (replicate 512 7)).
Proof.
  destruct (lhd_write_read (fresh_lhd (∅ : ram_card)) demo_write demo_read 5 (replicate 512 7) (replicate 512 0))
    as (lh1 & lh2 & H1 & _ & H2 & _).
  - apply fresh_lhd_ready.
  - simpl. lia.
  - split; [split; simpl; try done; lia|done|done|unfold can_move, SECTSIZE, is_u32, is_s32; simpl; lia].
  - reflexivity.
  - apply Forall_replicate. unfold is_u8. lia.
  - reflexivity.
  - split; [split; simpl; try done; lia|done|done|unfold can_move, SECTSIZE, is_u32, is_s32; simpl; lia].
  - reflexivity.
  - reflexivity.
  - exists lh1, lh2. split; [exact H1|exact H2].
Defined.
