(* ===== verification/SfsDisk.v ===== *)
(** * The on-disk structures of SFS (kern/sfs.h, as extended by assignment 3).

    A block is 512 bytes. The structures are stored as they lie in memory on a
    big-endian machine; [words] and [unwords] convert between bytes and 32-bit
    words, and the encoders and decoders of the structures are built from them. *)

From stdpp Require Import base numbers list.
From Stdlib Require Import ZArith Lia.
From S2P Require Import Prelude Mem.

Definition SFS_MAGIC : Z := 0xabadf001.
Definition SFS_BLOCKSIZE : Z := 512.
Definition SFS_VOLNAME_SIZE : Z := 32.
Definition SFS_NDIRECT : Z := 15.
Definition SFS_DBPERIDB : Z := 128.
Definition SFS_NAMELEN : Z := 60.
Definition SFS_SB_LOCATION : Z := 0.
Definition SFS_ROOT_LOCATION : Z := 1.
Definition SFS_MAP_LOCATION : Z := 2.
Definition SFS_NOINO : Z := 0.
Definition SFS_BLOCKBITS : Z := SFS_BLOCKSIZE * 8.
(** [((a)+(b)-1)/(b))*b] on unsigned operands. *)
Definition SFS_ROUNDUP (a b : Z) : Z := u32 (u32 (a + b - 1) / b * b).
Definition SFS_BITMAPSIZE (nblocks : Z) : Z := SFS_ROUNDUP nblocks SFS_BLOCKBITS.
Definition SFS_BITBLOCKS (nblocks : Z) : Z := SFS_BITMAPSIZE nblocks / SFS_BLOCKBITS.
Definition SFS_TYPE_INVAL : Z := 0.
Definition SFS_TYPE_FILE : Z := 1.
Definition SFS_TYPE_DIR : Z := 2.

Record sfs_super : Type := mk_super {
  sp_magic : Z;
  sp_nblocks : Z;
  sp_volname : list Z;
  sp_reserved : list Z;
}.

Record sfs_inode : Type := mk_inode {
  sfi_size : Z;
  sfi_type : Z;
  sfi_linkcount : Z;
  sfi_direct : list Z;
  sfi_indirect : Z;
  sfi_doubleindirect : Z;
  sfi_tripleindirect : Z;
  sfi_waste : list Z;
  sfi_blocks : Z;
}.

Record sfs_dir : Type := mk_dir { sfd_ino : Z; sfd_name : list Z }.

(** ** Words and bytes *)

Fixpoint words (bs : list Z) : list Z :=
  match bs with
  | b3 :: b2 :: b1 :: b0 :: bs => word_of_bytes b3 b2 b1 b0 :: words bs
  | _ => []
  end.

Definition bytes_of_word (w : Z) : list Z :=
  [u8 (Z.shiftr w 24); u8 (Z.shiftr w 16); u8 (Z.shiftr w 8); u8 w].

Definition unwords (ws : list Z) : list Z := mjoin (bytes_of_word <$> ws).

Definition word_ok (ws : list Z) : Prop := Forall is_u32 ws.
Definition byte_ok (bs : list Z) : Prop := Forall is_u8 bs.

Lemma is_u8_u8 z : is_u8 (u8 z).
Proof. unfold is_u8, u8. apply Z.mod_pos_bound. lia. Qed.

Lemma unwords_cons w ws : unwords (w :: ws) = bytes_of_word w ++ unwords ws.
Proof. done. Qed.

Lemma unwords_app ws vs : unwords (ws ++ vs) = unwords ws ++ unwords vs.
Proof. induction ws as [|w ws IH]; [done|]. rewrite <- app_comm_cons, !unwords_cons, IH. done. Qed.

Lemma word_bytes w : is_u32 w ->
  word_of_bytes (u8 (Z.shiftr w 24)) (u8 (Z.shiftr w 16)) (u8 (Z.shiftr w 8)) (u8 w) = w.
Proof.
  intros Hw. rewrite word_of_bytes_lor by apply is_u8_u8. unfold is_u32, u8 in *.
  rewrite !Z.shiftr_div_pow2 by lia.
  change (2 ^ 24) with 16777216. change (2 ^ 16) with 65536. change (2 ^ 8) with 256. change (2 ^ 32) with 4294967296 in Hw.
  pose proof (Z.div_mod w 256). pose proof (Z.mod_pos_bound w 256).
  assert (w / 65536 = w / 256 / 256) as -> by (rewrite Z.div_div by lia; done).
  assert (w / 16777216 = w / 256 / 256 / 256) as -> by (rewrite !Z.div_div by lia; done).
  pose proof (Z.div_mod (w / 256) 256). pose proof (Z.mod_pos_bound (w / 256) 256).
  pose proof (Z.div_mod (w / 256 / 256) 256). pose proof (Z.mod_pos_bound (w / 256 / 256) 256).
  assert (0 <= w / 256 / 256 / 256 < 256).
  { rewrite !Z.div_div by lia. split; [apply Z.div_pos; lia|apply Z.div_lt_upper_bound; lia]. }
  rewrite (Z.mod_small (w / 256 / 256 / 256)) by lia. lia.
Qed.

Lemma words_unwords ws : word_ok ws -> words (unwords ws) = ws.
Proof.
  induction ws as [|w ws IH]; intros Hw; [done|]. inversion Hw; subst. rewrite unwords_cons. simpl.
  rewrite word_bytes by done. by rewrite IH.
Qed.

Lemma words_app_unwords ws bs : word_ok ws -> words (unwords ws ++ bs) = ws ++ words bs.
Proof.
  induction ws as [|w ws IH]; intros Hw; [done|]. inversion Hw; subst. rewrite unwords_cons. simpl.
  rewrite word_bytes by done. by rewrite IH.
Qed.

(** Induction on a byte list four bytes at a time. *)
Lemma four_ind (P : list Z -> Prop) :
  P [] -> (forall b3 b2 b1 b0 bs, P bs -> P (b3 :: b2 :: b1 :: b0 :: bs)) ->
  forall n bs, length bs = (4 * n)%nat -> P bs.
Proof.
  intros H0 Hs n. induction n as [|n IH]; intros bs Hl.
  - by destruct bs.
  - destruct bs as [|b3 [|b2 [|b1 [|b0 bs]]]]; simpl in Hl; try lia. apply Hs, IH. lia.
Qed.

Lemma unwords_words n bs : length bs = (4 * n)%nat -> byte_ok bs -> unwords (words bs) = bs.
Proof.
  apply (four_ind (fun bs => byte_ok bs -> unwords (words bs) = bs)); [done|].
  intros b3 b2 b1 b0 bs' IH Hb. unfold byte_ok in Hb. rewrite !Forall_cons in Hb.
  destruct Hb as (H3 & H2 & H1 & H0 & Hb). simpl words. rewrite unwords_cons. unfold bytes_of_word.
  destruct (u8_word b3 b2 b1 b0) as (-> & -> & -> & ->); try done. simpl. by rewrite IH.
Qed.

Lemma length_words n bs : length bs = (4 * n)%nat -> length (words bs) = n.
Proof.
  revert bs. induction n as [|n IH]; intros bs Hl; [by destruct bs|].
  destruct bs as [|b3 [|b2 [|b1 [|b0 bs]]]]; simpl in Hl; try lia. simpl. rewrite IH; lia.
Qed.

Lemma length_unwords ws : length (unwords ws) = (4 * length ws)%nat.
Proof. induction ws as [|w ws IH]; [done|]. rewrite unwords_cons, length_app, IH. simpl. lia. Qed.

Lemma unwords_bytes ws : byte_ok (unwords ws).
Proof.
  induction ws as [|w ws IH]; [constructor|]. rewrite unwords_cons. apply Forall_app. split; [|done].
  repeat constructor; apply is_u8_u8.
Qed.

Lemma words_ok n bs : length bs = (4 * n)%nat -> byte_ok bs -> word_ok (words bs).
Proof.
  apply (four_ind (fun bs => byte_ok bs -> word_ok (words bs))); [constructor|].
  intros b3 b2 b1 b0 bs' IH Hb. unfold byte_ok in Hb. rewrite !Forall_cons in Hb.
  destruct Hb as (H3 & H2 & H1 & H0 & Hb). simpl. constructor; [by apply word_of_bytes_range|by apply IH].
Qed.

(** ** The structures *)

Definition getw (ws : list Z) (i : nat) : Z := default 0 (ws !! i).

Definition enc_inode (i : sfs_inode) : list Z :=
  unwords ([sfi_size i; sfi_type i * 65536 + sfi_linkcount i] ++ sfi_direct i ++
           [sfi_indirect i; sfi_doubleindirect i; sfi_tripleindirect i] ++ sfi_waste i ++ [sfi_blocks i]).

Definition dec_inode (bs : list Z) : sfs_inode :=
  let ws := words bs in
  mk_inode (getw ws 0) (getw ws 1 / 65536) (getw ws 1 mod 65536) (take 15 (drop 2 ws))
    (getw ws 17) (getw ws 18) (getw ws 19) (take 107 (drop 20 ws)) (getw ws 127).

Definition enc_super (s : sfs_super) : list Z :=
  unwords [sp_magic s; sp_nblocks s] ++ sp_volname s ++ unwords (sp_reserved s).

Definition dec_super (bs : list Z) : sfs_super :=
  let ws := words bs in
  mk_super (getw ws 0) (getw ws 1) (take 32 (drop 8 bs)) (words (drop 40 bs)).

Definition enc_dir (d : sfs_dir) : list Z := bytes_of_word (sfd_ino d) ++ sfd_name d.
Definition dec_dir (bs : list Z) : sfs_dir := mk_dir (getw (words (take 4 bs)) 0) (drop 4 bs).

(** A pointer block: 128 block numbers. *)
Definition zero_words : list Z := replicate 128 0.
Definition zero_block : list Z := replicate 512 0.

Record inode_ok (i : sfs_inode) : Prop := {
  io_size : is_u32 (sfi_size i);
  io_type : 0 <= sfi_type i < 65536;
  io_link : 0 <= sfi_linkcount i < 65536;
  io_direct : length (sfi_direct i) = 15%nat;
  io_directs : word_ok (sfi_direct i);
  io_ind : is_u32 (sfi_indirect i);
  io_dbl : is_u32 (sfi_doubleindirect i);
  io_tri : is_u32 (sfi_tripleindirect i);
  io_waste : length (sfi_waste i) = 107%nat;
  io_wastes : word_ok (sfi_waste i);
  io_blocks : is_u32 (sfi_blocks i);
}.

Record dir_ok (d : sfs_dir) : Prop := {
  do_ino : is_u32 (sfd_ino d);
  do_len : length (sfd_name d) = 60%nat;
  do_bytes : byte_ok (sfd_name d);
}.

Record super_ok (s : sfs_super) : Prop := {
  so_magic : is_u32 (sp_magic s);
  so_nblocks : is_u32 (sp_nblocks s);
  so_len : length (sp_volname s) = 32%nat;
  so_name : byte_ok (sp_volname s);
  so_res : length (sp_reserved s) = 118%nat;
  so_ress : word_ok (sp_reserved s);
}.

Lemma type_word t l : 0 <= t < 65536 -> 0 <= l < 65536 ->
  is_u32 (t * 65536 + l) /\ (t * 65536 + l) / 65536 = t /\ (t * 65536 + l) mod 65536 = l.
Proof.
  intros Ht Hl. unfold is_u32. split; [lia|].
  rewrite Z.add_comm, Z.div_add, Z.mod_add, Z.div_small, Z.mod_small by lia. lia.
Qed.

Lemma dec_enc_inode i : inode_ok i -> dec_inode (enc_inode i) = i.
Proof.
  intros []. destruct i as [sz ty lk dir ind dbl tri waste bl]. simpl in *.
  destruct (type_word ty lk) as (Hw & Hd & Hm); [done|done|].
  unfold dec_inode, enc_inode. simpl sfi_size. simpl sfi_type. simpl sfi_linkcount. simpl sfi_direct.
  simpl sfi_indirect. simpl sfi_doubleindirect. simpl sfi_tripleindirect. simpl sfi_waste. simpl sfi_blocks.
  rewrite words_unwords.
  2:{ repeat (apply Forall_app; split); try done; repeat (constructor; try done). }
  set (W := [sz; ty * 65536 + lk] ++ dir ++ [ind; dbl; tri] ++ waste ++ [bl]).
  assert (drop 2 W = dir ++ [ind; dbl; tri] ++ waste ++ [bl]) as Hd2 by done.
  assert (drop 17 W = [ind; dbl; tri] ++ waste ++ [bl]) as Hd17.
  { change 17%nat with (2 + 15)%nat. rewrite <- drop_drop, Hd2, drop_app_length' by done. done. }
  assert (drop 20 W = waste ++ [bl]) as Hd20.
  { change 20%nat with (17 + 3)%nat. by rewrite <- drop_drop, Hd17. }
  assert (drop 127 W = [bl]) as Hd127.
  { change 127%nat with (20 + 107)%nat. rewrite <- drop_drop, Hd20, drop_app_length' by done. done. }
  assert (forall k x l, drop k W = x :: l -> getw W k = x) as Hg.
  { intros k x l He. unfold getw. pose proof (lookup_drop W k 0) as Hl. rewrite He, Nat.add_0_r in Hl.
    by rewrite <- Hl. }
  assert (forall k x y l, drop k W = x :: y :: l -> getw W (k + 1) = y) as Hg1.
  { intros k x y l He. apply (Hg _ y l). rewrite <- drop_drop, He. done. }
  f_equal.
  - unfold getw. simpl. exact Hd.
  - unfold getw. simpl. exact Hm.
  - rewrite Hd2. by rewrite take_app_length'.
  - by eapply (Hg 17%nat).
  - exact (Hg1 17%nat ind dbl (tri :: waste ++ [bl]) Hd17).
  - apply (Hg 19%nat tri (waste ++ [bl])). change 19%nat with (17 + 2)%nat. by rewrite <- drop_drop, Hd17.
  - rewrite Hd20. by rewrite take_app_length'.
  - by eapply (Hg 127%nat).
Qed.

Lemma length_enc_inode i : inode_ok i -> length (enc_inode i) = 512%nat.
Proof.
  intros []. unfold enc_inode. rewrite length_unwords, !length_app, io_direct0, io_waste0. done.
Qed.

Lemma dec_enc_dir d : dir_ok d -> dec_dir (enc_dir d) = d.
Proof.
  intros []. destruct d as [ino name]. unfold dec_dir, enc_dir. simpl in *. f_equal.
  unfold getw. simpl. by apply word_bytes.
Qed.

Lemma length_enc_dir d : dir_ok d -> length (enc_dir d) = 64%nat.
Proof. intros []. unfold enc_dir. rewrite length_app, do_len0. done. Qed.

Lemma dec_enc_super s : super_ok s -> dec_super (enc_super s) = s.
Proof.
  intros []. destruct s as [mg nb name res]. simpl in *.
  set (E := enc_super (mk_super mg nb name res)).
  assert (drop 8 E = name ++ unwords res) as H8 by done.
  assert (drop 40 E = unwords res) as H40.
  { change 40%nat with (8 + 32)%nat. rewrite <- drop_drop, H8. by rewrite drop_app_length'. }
  unfold dec_super. rewrite H8, H40. f_equal.
  - unfold getw. simpl. by apply word_bytes.
  - unfold getw. simpl. by apply word_bytes.
  - by rewrite take_app_length'.
  - by apply words_unwords.
Qed.

Lemma length_enc_super s : super_ok s -> length (enc_super s) = 512%nat.
Proof.
  intros []. unfold enc_super. rewrite !length_app, !length_unwords, so_len0, so_res0. done.
Qed.
