(* ===== verification/Vnode.v ===== *)
(** * Abstract vnodes: reference and open counts (kern/fs/vfs/vnode.c).

    The counts live in a [vnode] inside a larger state [S] (the file system's
    table of loaded vnodes); [getv] and [setv] reach it, and the operations the
    counts trigger, [VOP_RECLAIM] and [VOP_CLOSE], are arguments: each file system
    supplies its own. [vn_countlock] only has to exist: the operations run one at
    a time. The file types, the [stat] structure and the open flags are here too. *)

From stdpp Require Import base numbers list.
From Stdlib Require Import ZArith Lia.
From S2P Require Import Prelude.

(** ** kern/stat.h, kern/unistd.h *)

Definition S_IFREG : Z := 4096.
Definition S_IFDIR : Z := 8192.
Definition S_IFBLK : Z := 20480.
Definition S_IFCHR : Z := 16384.
Definition S_IFMT : Z := 28672.
Definition S_ISDIR (mode : Z) : bool := Z.land mode S_IFMT =? S_IFDIR.
Record stat : Type := mk_stat { st_mode : Z; st_nlink : Z; st_size : Z; st_blocks : Z }.

Definition O_RDONLY : Z := 0.
Definition O_WRONLY : Z := 1.
Definition O_RDWR : Z := 2.
Definition O_CREAT : Z := 4.
Definition O_EXCL : Z := 8.
Definition O_TRUNC : Z := 16.
Definition O_APPEND : Z := 32.
Definition O_ACCMODE : Z := 3.

(** ** Vnodes *)

Inductive vn_optable : Type := sfs_fileops | sfs_dirops | dev_vnode_ops | emufs_fileops | emufs_dirops.

#[export] Instance vn_optable_eq_dec : EqDecision vn_optable.
Proof. solve_decision. Defined.

Record vnode : Type := mk_vnode {
  vn_refcount : Z;
  vn_opencount : Z;
  vn_countlock : bool;              (* not NULL *)
  vn_ops : option vn_optable;
}.

(** [vnode_init]: [mem] says whether [lock_create] succeeds. *)
Definition vnode_init (mem : bool) (ops : vn_optable) : errno + vnode :=
  if mem then inr (mk_vnode 1 0 true (Some ops)) else inl ENOMEM.

Inductive vop : Type := vop_reclaim | vop_other.

(** The checks every [VOP_*] call makes first. *)
Definition vnode_check (v : vnode) (op : vop) : bool :=
  bool_decide (is_Some (vn_ops v)) && (0 <=? vn_refcount v) &&
  match op with vop_reclaim => true | vop_other => negb (vn_refcount v =? 0) end &&
  (0 <=? vn_opencount v).

Section counts.
Context {S : Type} (getv : S -> option vnode) (setv : vnode -> S -> S).

Definition vn_read : M S vnode := let! s := get in of_option (getv s).
Definition vn_write (v : vnode) : M S unit := let! s := get in put (setv v s).

Definition vnode_kill : M S unit :=
  let! v := vn_read in
  do! assert_ (vn_refcount v =? 1) in
  do! assert_ (vn_opencount v =? 0) in
  do! assert_ (vn_countlock v) in
  vn_write (mk_vnode 0 0 false None).

Definition vnode_incref : M S unit :=
  let! v := vn_read in
  let! n := int_of (vn_refcount v + 1) in
  vn_write (mk_vnode n (vn_opencount v) (vn_countlock v) (vn_ops v)).

Definition vnode_decref (VOP_RECLAIM : E S unit) : M S unit :=
  let! v := vn_read in
  do! assert_ (0 <? vn_refcount v) in
  if 1 <? vn_refcount v then
    vn_write (mk_vnode (vn_refcount v - 1) (vn_opencount v) (vn_countlock v) (vn_ops v))
  else
    do! assert_ (vnode_check v vop_reclaim) in
    do! VOP_RECLAIM in       (* an error is only reported on the console *)
    ret tt.

Definition vnode_incopen : M S unit :=
  let! v := vn_read in
  let! n := int_of (vn_opencount v + 1) in
  vn_write (mk_vnode (vn_refcount v) n (vn_countlock v) (vn_ops v)).

Definition vnode_decopen (VOP_CLOSE : E S unit) : M S unit :=
  let! v := vn_read in
  do! assert_ (0 <? vn_opencount v) in
  let opencount := vn_opencount v - 1 in
  do! vn_write (mk_vnode (vn_refcount v) opencount (vn_countlock v) (vn_ops v)) in
  if 0 <? opencount then ret tt
  else
    let! v := vn_read in
    do! assert_ (vnode_check v vop_other) in
    do! VOP_CLOSE in
    ret tt.
End counts.

(** ** The life of a vnode's counts *)

Record vnode_ok (v : vnode) : Prop := {
  vk_ref : 0 < vn_refcount v < 2 ^ 31;
  vk_open : 0 <= vn_opencount v < 2 ^ 31;
  vk_lock : vn_countlock v = true;
  vk_ops : is_Some (vn_ops v);
}.

(** What the operations can do to the counts of a live vnode. *)
Inductive vn_step : vnode -> vnode -> Prop :=
| step_incref v : vn_refcount v + 1 < 2 ^ 31 ->
    vn_step v (mk_vnode (vn_refcount v + 1) (vn_opencount v) (vn_countlock v) (vn_ops v))
| step_decref v : 1 < vn_refcount v ->
    vn_step v (mk_vnode (vn_refcount v - 1) (vn_opencount v) (vn_countlock v) (vn_ops v))
| step_incopen v : vn_opencount v + 1 < 2 ^ 31 ->
    vn_step v (mk_vnode (vn_refcount v) (vn_opencount v + 1) (vn_countlock v) (vn_ops v))
| step_decopen v : 0 < vn_opencount v ->
    vn_step v (mk_vnode (vn_refcount v) (vn_opencount v - 1) (vn_countlock v) (vn_ops v)).

Lemma vn_step_ok v v' : vnode_ok v -> vn_step v v' -> vnode_ok v'.
Proof. intros [] Hs. inversion Hs; subst; split; simpl; done || lia. Qed.

Lemma vnode_ok_check v op : vnode_ok v -> vnode_check v op = true.
Proof.
  intros [Hr Ho _ Hops]. unfold vnode_check. rewrite bool_decide_true by done.
  destruct (Z.leb_spec 0 (vn_refcount v)); [|lia]. destruct (Z.leb_spec 0 (vn_opencount v)); [|lia].
  destruct op; [done|]. by rewrite (proj2 (Z.eqb_neq (vn_refcount v) 0)) by lia.
Qed.

Section count_lemmas.
Context {S : Type} (getv : S -> option vnode) (setv : vnode -> S -> S).

Lemma vnode_incref_run s v : getv s = Some v -> vnode_ok v -> vn_refcount v + 1 < 2 ^ 31 ->
  vnode_incref getv setv s =
  Done tt (setv (mk_vnode (vn_refcount v + 1) (vn_opencount v) (vn_countlock v) (vn_ops v)) s).
Proof.
  intros Hg [Hr _ _ _] Hn. unfold vnode_incref, vn_read, vn_write, int_of. unfold bind at 1 2, get at 1.
  rewrite Hg. simpl. unfold bind at 1, get at 1. rewrite bool_decide_true by lia. done.
Qed.

Lemma vnode_decref_shared reclaim s v : getv s = Some v -> 1 < vn_refcount v ->
  vnode_decref getv setv reclaim s =
  Done tt (setv (mk_vnode (vn_refcount v - 1) (vn_opencount v) (vn_countlock v) (vn_ops v)) s).
Proof.
  intros Hg Hr. unfold vnode_decref, vn_read, vn_write. unfold bind at 1 2, get at 1. rewrite Hg. simpl.
  destruct (Z.ltb_spec 0 (vn_refcount v)); [|lia]. simpl. unfold bind at 1. simpl.
  destruct (Z.ltb_spec 1 (vn_refcount v)); [done|lia].
Qed.

Lemma vnode_decref_last reclaim s v r s' : getv s = Some v -> vnode_ok v -> vn_refcount v = 1 ->
  reclaim s = Done r s' -> vnode_decref getv setv reclaim s = Done tt s'.
Proof.
  intros Hg Hok Hr Hrun. unfold vnode_decref, vn_read. unfold bind at 1 2, get at 1. rewrite Hg. simpl.
  rewrite (vnode_ok_check v vop_reclaim Hok), Hr. simpl. unfold bind. simpl. by rewrite Hrun.
Qed.
End count_lemmas.

(** ** Properties *)

(** The counts of a live vnode: [vnode_incref] and a [vnode_decref] that does
    not drop the last reference move the count by one and call nothing;
    [vnode_decref] on the last reference calls [VOP_RECLAIM] exactly once, on the
    unchanged vnode, and returns normally whatever it answers (an error of the
    reclaim is lost); a dead vnode (count 0) panics. *)
Theorem vnode_reference_counting {S} (getv : S -> option vnode) (setv : vnode -> S -> S)
    (reclaim : E S unit) (s : S) (v : vnode) :
  getv s = Some v ->
  (vnode_ok v -> vn_refcount v + 1 < 2 ^ 31 ->
     exists v', vnode_incref getv setv s = Done tt (setv v' s) /\ vn_step v v' /\ vnode_ok v' /\
                vn_refcount v' = vn_refcount v + 1) /\
  (vnode_ok v -> 1 < vn_refcount v ->
     exists v', vnode_decref getv setv reclaim s = Done tt (setv v' s) /\ vn_step v v' /\ vnode_ok v' /\
                vn_refcount v' = vn_refcount v - 1) /\
  (vnode_ok v -> vn_refcount v = 1 -> forall r s', reclaim s = Done r s' ->
     vnode_decref getv setv reclaim s = Done tt s') /\
  (vn_refcount v <= 0 -> vnode_decref getv setv reclaim s = Panic).
Proof.
  intros Hg. split_and!.
  - intros Hok Hn. eexists. split; [by apply vnode_incref_run|].
    split; [by constructor|]. split; [|done]. eapply vn_step_ok; [done|]. by constructor.
  - intros Hok Hn. eexists. split; [by apply vnode_decref_shared|].
    split; [by constructor|]. split; [|done]. eapply vn_step_ok; [done|]. by constructor.
  - intros Hok Hr r s' Hrun. by eapply vnode_decref_last.
  - intros Hr. unfold vnode_decref, vn_read. unfold bind at 1 2, get at 1. rewrite Hg. simpl.
    destruct (Z.ltb_spec 0 (vn_refcount v)); [lia|]. done.
Qed.

Definition demo_vnode : vnode := mk_vnode 1 0 true (Some sfs_fileops).

Lemma vnode_reference_counting_witness :
  vnode_decref (fun s => Some s) (fun v _ => v) (fail EBUSY) demo_vnode = Done tt demo_vnode.
Proof.
  destruct (vnode_reference_counting (fun s => Some s) (fun v _ => v) (fail EBUSY) demo_vnode demo_vnode eq_refl)
    as (_ & _ & H & _).
  apply (H ltac:(split; simpl; [lia|lia|reflexivity|eexists; reflexivity]) eq_refl (inl EBUSY) demo_vnode).
  reflexivity.
Defined.
