(* ===== verification/Device.v ===== *)
(** * Devices as files (kern/fs/vfs/device.c, kern/fs/vfs/devnull.c).

    A driver registers a [struct device], a table of functions over its own state
    [X]; [dev_create_vnode] makes a vnode for it, whose operations are the table
    [dev_vnode_ops]. A device pointer and a vnode pointer are positions in the lists
    of the state [devs]; no vnode of a device is ever freed. *)

From stdpp Require Import base numbers list gmap.
From Stdlib Require Import ZArith Lia.
From S2P Require Import Prelude Mem CopyInOut Uio Vnode.

Record device (X : Type) : Type := mk_device {
  d_open : Z -> E X unit;
  d_close : E X unit;
  d_io : E (X * uenv) unit;
  d_ioctl : Z -> Z -> E X unit;
  d_blocks : Z;
  d_blocksize : Z;
  d_data : option Z;                 (* of the driver: which unit it is *)
}.
Arguments mk_device {X}.
Arguments d_open {X}.
Arguments d_close {X}.
Arguments d_io {X}.
Arguments d_ioctl {X}.
Arguments d_blocks {X}.
Arguments d_blocksize {X}.
Arguments d_data {X}.

(** A device vnode and its [vn_data], which is NULL for a name added by [vfs_addfs]. *)
Record dev_vnode : Type := mk_dv { dv_v : vnode; vn_data : option Z }.

Record devs (X : Type) : Type := mk_devs {
  dv_state : X;                      (* what the drivers keep *)
  dv_devices : list (device X);
  dv_vnodes : list dev_vnode;
}.
Arguments mk_devs {X}.
Arguments dv_state {X}.
Arguments dv_devices {X}.
Arguments dv_vnodes {X}.

(** ** The null device *)

Definition nullopen {S} (openflags : Z) : E S unit := ok tt.
Definition nullclose {S} : E S unit := ok tt.
Definition nullio {X} : E (X * uenv) unit :=
  let! s := get in
  match uio_rw (xuio s.2) with
  | UIO_WRITE => do! put (s.1, set_uio s.2 (set_resid (xuio s.2) 0)) in ok tt
  | UIO_READ => ok tt
  end.
Definition nullioctl {S} (op data : Z) : E S unit := fail EINVAL.

(** The structure [devnull_create] fills in. *)
Definition null_device {X} : device X := mk_device nullopen nullclose nullio nullioctl 0 1 None.

Section devices.
Context {X : Type}.
Notation devs := (devs X).
Notation device := (device X).

Definition get_dv (p : Z) (s : devs) : option vnode := dv_v <$> nthZ (dv_vnodes s) p.
Definition set_dv (p : Z) (v : vnode) (s : devs) : devs :=
  match nthZ (dv_vnodes s) p with
  | Some d => mk_devs (dv_state s) (dv_devices s) (setZ (dv_vnodes s) p (mk_dv v (vn_data d)))
  | None => s
  end.
Definition on_driver {A} (m : M X A) : M devs A :=
  zoom dv_state (fun x s => mk_devs x (dv_devices s) (dv_vnodes s)) m.
Definition on_driver_io {A} (m : M (X * uenv) A) : M (devs * uenv) A :=
  zoom (fun s => (dv_state s.1, s.2)) (fun t s => (mk_devs t.1 (dv_devices s.1) (dv_vnodes s.1), t.2)) m.
Definition on_devs {A} (m : M devs A) : M (devs * uenv) A := zoom fst (fun d s => (d, s.2)) m.

(** [struct device *d = v->vn_data;] dereferenced. *)
Definition get_device (v : Z) : M devs device :=
  let! s := get in
  let! d := of_option (nthZ (dv_vnodes s) v) in
  let! i := of_option (vn_data d) in
  of_option (nthZ (dv_devices s) i).

(** ** The operations *)

Definition dev_open (v flags : Z) : E devs unit :=
  if negb (Z.land flags (Z.lor (Z.lor (Z.lor O_CREAT O_TRUNC) O_EXCL) O_APPEND) =? 0) then fail EINVAL
  else let! d := get_device v in on_driver (d_open d flags).

Definition dev_close (v : Z) : E devs unit := let! d := get_device v in on_driver (d_close d).

Definition dev_reclaim : E devs unit := ok tt.

Definition dev_read (v : Z) : E (devs * uenv) unit :=
  let! s := get in
  do! assert_ (bool_decide (uio_rw (xuio s.2) = UIO_READ)) in
  let! d := on_devs (get_device v) in
  on_driver_io (d_io d).

Definition null_io {S} : E S unit := fail EINVAL.

Definition dev_write (v : Z) : E (devs * uenv) unit :=
  let! s := get in
  do! assert_ (bool_decide (uio_rw (xuio s.2) = UIO_WRITE)) in
  let! d := on_devs (get_device v) in
  on_driver_io (d_io d).

Definition dev_ioctl (v op data : Z) : E devs unit :=
  let! d := get_device v in on_driver (d_ioctl d op data).

Definition dev_gettype (v : Z) : E devs Z :=
  let! d := get_device v in
  if 0 <? d_blocks d then ok S_IFBLK else ok S_IFCHR.

(** The position becomes unsigned in the remainder and in the division. *)
Definition dev_tryseek (v pos : Z) : E devs unit :=
  let! d := get_device v in
  if 0 <? d_blocks d then
    if d_blocksize d =? 0 then undef
    else if negb (u32 pos mod d_blocksize d =? 0) then fail EINVAL
    else if pos <? 0 then fail EINVAL
    else if d_blocks d <=? u32 pos / d_blocksize d then fail EINVAL
    else ok tt
  else fail ESPIPE.

Definition null_fsync {S} : E S unit := ok tt.
Definition dev_mmap {S} : E S unit := fail EUNIMP.

Definition dev_truncate (v len : Z) : E devs unit :=
  let! d := get_device v in
  if (0 <? d_blocks d) && (s32 (u32 (d_blocks d * d_blocksize d)) =? len) then ok tt else fail EINVAL.

Definition dev_namefile {S} : E S unit := ok tt.
Definition null_creat {S} : E S Z := fail ENOTDIR.
Definition null_symlink {S} : E S unit := fail ENOTDIR.
Definition null_nameop {S} : E S unit := fail ENOTDIR.
Definition null_link {S} : E S unit := fail ENOTDIR.
Definition null_rename {S} : E S unit := fail ENOTDIR.

(** ** The [VOP_*] calls on a device vnode *)

(** [__VOP(vn, sym)]: the checks, and the table entry. *)
Definition dev_vop {A} (v : Z) (entry : E devs A) : E devs A :=
  let! vn := vn_read (get_dv v) in
  do! assert_ (vnode_check vn vop_other) in
  match vn_ops vn with Some dev_vnode_ops => entry | _ => undef end.
Definition dev_vop_io (v : Z) (entry : E (devs * uenv) unit) : E (devs * uenv) unit :=
  let! vn := on_devs (vn_read (get_dv v)) in
  do! assert_ (vnode_check vn vop_other) in
  match vn_ops vn with Some dev_vnode_ops => entry | _ => undef end.

Definition dev_stat (v : Z) : E devs stat :=
  try! mode := dev_vop v (dev_gettype v) in
  let! d := get_device v in
  ok (mk_stat mode 1 (if 0 <? d_blocks d then s32 (u32 (d_blocks d * d_blocksize d)) else 0) (d_blocks d)).

Definition dev_incref (v : Z) : M devs unit := vnode_incref (get_dv v) (set_dv v).
Definition dev_decref (v : Z) : M devs unit := vnode_decref (get_dv v) (set_dv v) dev_reclaim.
Definition dev_incopen (v : Z) : M devs unit := vnode_incopen (get_dv v) (set_dv v).
Definition dev_decopen (v : Z) : M devs unit := vnode_decopen (get_dv v) (set_dv v) (dev_vop v (dev_close v)).

Definition dev_lookup (dir : Z) (pathname : list Z) : E devs Z :=
  if 0 <? lenZ pathname then fail ENOENT
  else do! dev_incref dir in ok dir.

Definition dev_lookparent {S} : E S (Z * list Z) := fail ENOTDIR.

(** [m_vnode] and [m_lock] say which allocations succeed. *)
Definition dev_create_vnode (m_vnode m_lock : bool) (dev : option Z) : M devs (option Z) :=
  if negb m_vnode then ret None
  else
    match vnode_init m_lock dev_vnode_ops with
    | inl _ => panic
    | inr v =>
        let! s := get in
        do! put (mk_devs (dv_state s) (dv_devices s) (dv_vnodes s ++ [mk_dv v dev])) in
        ret (Some (lenZ (dv_vnodes s)))
    end.

(** A new [struct device]. *)
Definition new_device (d : device) : M devs Z :=
  let! s := get in
  do! put (mk_devs (dv_state s) (dv_devices s ++ [d]) (dv_vnodes s)) in
  ret (lenZ (dv_devices s)).
End devices.
