(* ===== verification/Vfs.v ===== *)
(** * What the VFS layer calls, and what it keeps (kern/include/vfs.h, vnode.h, fs.h).

    [FileLayer] is the interface of the file systems and devices below: the [VOP_*]
    operations of a vnode and the [FSOP_*] operations of a file system, over a state
    [W] of their own. [FileLaws] is the part of the contract of vnode.h and fs.h that
    the VFS layer relies on; reference counts are the heart of it. Device.v
    implements the interface for devices, Sfs*.v for SFS; System.v puts them together.
    The operations run one at a time: a lock is whether the current thread holds it. *)

From stdpp Require Import base numbers list gmap.
From Stdlib Require Import ZArith Lia.
From S2P Require Import Prelude Mem CopyInOut Uio Array Vnode.

Class FileLayer (W V F : Type) : Type := {
  vn_fs : V -> M W (option F);                       (* NULL on a device vnode *)
  VOP_OPEN : V -> Z -> E W unit;
  VOP_GETTYPE : V -> E W Z;
  VOP_TRUNCATE : V -> Z -> E W unit;
  VOP_READLINK : V -> E (W * uenv) unit;
  VOP_NAMEFILE : V -> E (W * uenv) unit;
  VOP_CREAT : V -> list Z -> bool -> E W V;
  VOP_SYMLINK : V -> list Z -> list Z -> E W unit;
  VOP_MKDIR : V -> list Z -> E W unit;
  VOP_LINK : V -> list Z -> V -> E W unit;
  VOP_REMOVE : V -> list Z -> E W unit;
  VOP_RMDIR : V -> list Z -> E W unit;
  VOP_RENAME : V -> list Z -> V -> list Z -> E W unit;
  VOP_LOOKUP : V -> list Z -> E W V;
  VOP_LOOKPARENT : V -> list Z -> Z -> E W (V * list Z);
  VOP_INCREF : V -> M W unit;
  VOP_DECREF : V -> M W unit;
  VOP_INCOPEN : V -> M W unit;
  VOP_DECOPEN : V -> M W unit;
  FSOP_SYNC : F -> E W unit;
  FSOP_GETVOLNAME : F -> M W (option (list Z));
  FSOP_GETROOT : F -> M W V;
  FSOP_UNMOUNT : F -> E W unit;
  create_dev_vnode : bool -> bool -> option Z -> M W (option V);
}.

(** ** Named devices (vfslist.c) *)

Record knowndev (V F : Type) : Type := mk_kd {
  kd_name : list Z;
  kd_rawname : option (list Z);
  kd_device : option Z;
  kd_vnode : V;
  kd_fs : option F;
}.
Arguments mk_kd {V F}.
Arguments kd_name {V F}.
Arguments kd_rawname {V F}.
Arguments kd_device {V F}.
Arguments kd_vnode {V F}.
Arguments kd_fs {V F}.

(** The static variables of the VFS files, and the current thread's directory. A
    pointer to a [knowndev] is its position in [kd_heap]. *)
Record vfs (W V F : Type) : Type := mk_vfs {
  world : W;
  knowndevs : array Z;
  kd_heap : list (knowndev V F);
  knowndevs_lock : bool;
  bootfs_vnode : option V;
  bootfs_lock : bool;
  t_cwd : option V;
}.
Arguments mk_vfs {W V F}.
Arguments world {W V F}.
Arguments knowndevs {W V F}.
Arguments kd_heap {W V F}.
Arguments knowndevs_lock {W V F}.
Arguments bootfs_vnode {W V F}.
Arguments bootfs_lock {W V F}.
Arguments t_cwd {W V F}.

Section state.
Context {W V F : Type}.
Notation vfs := (vfs W V F).

Definition set_world (w : W) (s : vfs) : vfs :=
  mk_vfs w (knowndevs s) (kd_heap s) (knowndevs_lock s) (bootfs_vnode s) (bootfs_lock s) (t_cwd s).
Definition set_knowndevs (a : array Z) (s : vfs) : vfs :=
  mk_vfs (world s) a (kd_heap s) (knowndevs_lock s) (bootfs_vnode s) (bootfs_lock s) (t_cwd s).
Definition set_kd_heap (h : list (knowndev V F)) (s : vfs) : vfs :=
  mk_vfs (world s) (knowndevs s) h (knowndevs_lock s) (bootfs_vnode s) (bootfs_lock s) (t_cwd s).
Definition set_knowndevs_lock (b : bool) (s : vfs) : vfs :=
  mk_vfs (world s) (knowndevs s) (kd_heap s) b (bootfs_vnode s) (bootfs_lock s) (t_cwd s).
Definition set_bootfs_vnode (v : option V) (s : vfs) : vfs :=
  mk_vfs (world s) (knowndevs s) (kd_heap s) (knowndevs_lock s) v (bootfs_lock s) (t_cwd s).
Definition set_bootfs_lock (b : bool) (s : vfs) : vfs :=
  mk_vfs (world s) (knowndevs s) (kd_heap s) (knowndevs_lock s) (bootfs_vnode s) b (t_cwd s).
Definition set_cwd (v : option V) (s : vfs) : vfs :=
  mk_vfs (world s) (knowndevs s) (kd_heap s) (knowndevs_lock s) (bootfs_vnode s) (bootfs_lock s) v.

(** Calls into the layer below. *)
Definition below {A} (m : M W A) : M vfs A := zoom world set_world m.
Definition below_io {A} (m : M (W * uenv) A) : M (vfs * uenv) A :=
  zoom (fun s => (world s.1, s.2)) (fun t s => (set_world t.1 s.1, t.2)) m.
Definition on_vfs {A} (m : M vfs A) : M (vfs * uenv) A := zoom fst (fun t s => (t, s.2)) m.
Definition on_uenv {A} (m : M uenv A) : M (vfs * uenv) A := zoom snd (fun t s => (s.1, t)) m.

(** [lock_acquire] panics on a lock the thread already holds, [lock_release] on one
    it does not hold. *)
Definition acquire_knowndevs : M vfs unit :=
  let! s := get in do! assert_ (negb (knowndevs_lock s)) in put (set_knowndevs_lock true s).
Definition release_knowndevs : M vfs unit :=
  let! s := get in do! assert_ (knowndevs_lock s) in put (set_knowndevs_lock false s).
Definition acquire_bootfs : M vfs unit :=
  let! s := get in do! assert_ (negb (bootfs_lock s)) in put (set_bootfs_lock true s).
Definition release_bootfs : M vfs unit :=
  let! s := get in do! assert_ (bootfs_lock s) in put (set_bootfs_lock false s).

Definition on_knowndevs {A} (m : M (array Z) A) : M vfs A := zoom knowndevs set_knowndevs m.

(** [array_getguy(knowndevs, i)], dereferenced. *)
Definition get_kd (p : Z) : M vfs (knowndev V F) := let! s := get in of_option (nthZ (kd_heap s) p).
Definition kd_at (i : Z) : M vfs (Z * knowndev V F) :=
  let! p := on_knowndevs (array_getguy i) in
  let! kd := get_kd p in
  ret (p, kd).
Definition set_kd_fs (p : Z) (f : option F) : M vfs unit :=
  let! kd := get_kd p in
  let! s := get in
  put (set_kd_heap (setZ (kd_heap s) p (mk_kd (kd_name kd) (kd_rawname kd) (kd_device kd) (kd_vnode kd) f)) s).
End state.
