(* ===== verification/VfsList.v ===== *)
(** * The list of named devices (kern/fs/vfs/vfslist.c).

    The names devices and volumes go by, mounting and unmounting. Whether each
    allocation succeeds is an argument; [kprintf] is left out. *)

From stdpp Require Import base numbers list gmap strings.
From Stdlib Require Import ZArith Lia.
From S2P Require Import Prelude Mem CopyInOut Uio Array Vnode Device Vfs.

Section vfslist.
Context {W V F : Type} `{FileLayer W V F} `{EqDecision F}.
Notation vfs := (vfs W V F).

(** [lock_create] and [array_create] succeed, or the kernel panics. *)
Definition vfs_bootstrap (m_array m_lock m_bootlock : bool) (devnull_create : M vfs unit) : M vfs unit :=
  let! a := array_create m_array in
  match a with
  | None => panic
  | Some a =>
      let! s := get in
      do! put (set_knowndevs a s) in
      do! assert_ m_lock in
      do! assert_ m_bootlock in
      devnull_create
  end.

Definition vfs_sync : E vfs unit :=
  do! acquire_knowndevs in
  let! num := on_knowndevs array_getnum in
  do! iterate (Z.to_nat num) 0 (fun i =>
    let! dev := kd_at i in
    do! (match kd_fs dev.2 with
         | Some fs => do! below (FSOP_SYNC fs) in ret tt
         | None => ret tt
         end) in
    ret (None (A := unit))) in
  do! release_knowndevs in
  ok tt.

(** One round of the loop of [vfs_getroot]: leaves it with an error or a vnode. *)
Definition getroot_kd (devname : list Z) (kd : knowndev V F) : M vfs (option (errno + V)) :=
  let! r :=
    (match kd_fs kd with
     | Some fs =>
         let! volname := below (FSOP_GETVOLNAME fs) in
         if bool_decide (kd_name kd = devname) || bool_decide (volname = Some devname) then
           let! v := below (FSOP_GETROOT fs) in ret (Some (inr v))
         else ret None
     | None =>
         if bool_decide (is_Some (kd_rawname kd)) && bool_decide (kd_name kd = devname) then
           ret (Some (inl ENXIO))
         else ret None
     end) in
  match r with
  | Some r => ret (Some r)
  | None =>
      if bool_decide (kd_name kd = devname) then
        do! assert_ (bool_decide (kd_fs kd = None)) in
        do! assert_ (bool_decide (kd_rawname kd = None)) in
        do! assert_ (bool_decide (is_Some (kd_device kd))) in
        do! below (VOP_INCREF (kd_vnode kd)) in
        ret (Some (inr (kd_vnode kd)))
      else if bool_decide (kd_rawname kd = Some devname) then
        do! assert_ (bool_decide (is_Some (kd_device kd))) in
        do! below (VOP_INCREF (kd_vnode kd)) in
        ret (Some (inr (kd_vnode kd)))
      else ret None
  end.

Definition vfs_getroot (devname : list Z) : E vfs V :=
  do! acquire_knowndevs in
  let! num := on_knowndevs array_getnum in
  let! r := iterate (Z.to_nat num) 0 (fun i => let! kd := kd_at i in getroot_kd devname kd.2) in
  do! release_knowndevs in
  ret (default (inl ENODEV) r).

Definition vfs_getdevname (fs : F) : M vfs (option (list Z)) :=
  do! acquire_knowndevs in
  let! num := on_knowndevs array_getnum in
  let! r := iterate (Z.to_nat num) 0 (fun i =>
    let! kd := kd_at i in
    ret (if bool_decide (kd_fs kd.2 = Some fs) then Some (kd_name kd.2) else None)) in
  do! release_knowndevs in
  ret r.

Definition mkrawname (m : bool) (name : list Z) : option (list Z) :=
  if m then Some (name ++ str "raw") else None.

Definition samestring (a b : option (list Z)) : bool :=
  match a, b with Some a, Some b => bool_decide (a = b) | _, _ => false end.
Definition samestring3 (a b c d : option (list Z)) : bool :=
  samestring a b || samestring a c || samestring a d.

Definition badnames (n1 n2 n3 : option (list Z)) : M vfs bool :=
  let! s := get in
  do! assert_ (knowndevs_lock s) in
  let! num := on_knowndevs array_getnum in
  let! r := iterate (Z.to_nat num) 0 (fun i =>
    let! kd := kd_at i in
    let! bad := (match kd_fs kd.2 with
                 | Some fs =>
                     let! volname := below (FSOP_GETVOLNAME fs) in ret (samestring3 volname n1 n2 n3)
                 | None => ret false
                 end) in
    if bad then ret (Some tt)
    else if samestring3 (kd_rawname kd.2) n1 n2 n3 || samestring3 (Some (kd_name kd.2)) n1 n2 n3 then
      ret (Some tt)
    else ret None) in
  ret (bool_decide (is_Some r)).

(** The allocations of [vfs_doadd]: the two names, the vnode and its lock, the
    [knowndev], and room in the array. *)
Record addmem : Type := mk_addmem {
  m_name : bool; m_rawname : bool; m_vnode : bool; m_lock : bool; m_kd : bool; m_array : bool;
}.

Definition vfs_doadd (m : addmem) (dname : list Z) (mountable : bool) (dev : option Z) (fs : option F)
  : E vfs unit :=
  if negb (m_name m) then fail ENOMEM
  else
    let rawname := if mountable then mkrawname (m_rawname m) dname else None in
    if mountable && negb (m_rawname m) then fail ENOMEM
    else
      let! vnode := below (create_dev_vnode (m_vnode m) (m_lock m) dev) in
      match vnode with
      | None => fail ENOMEM
      | Some vnode =>
          if negb (m_kd m) then fail ENOMEM
          else
            let! s := get in
            let kd := lenZ (kd_heap s) in
            do! put (set_kd_heap (kd_heap s ++ [mk_kd dname rawname dev vnode fs]) s) in
            let! volname := (match fs with
                             | Some fs => below (FSOP_GETVOLNAME fs)
                             | None => ret None
                             end) in
            do! acquire_knowndevs in
            let! bad := badnames (Some dname) rawname volname in
            let! err := (if negb bad then on_knowndevs (array_add (m_array m) kd) else fail EEXIST) in
            do! release_knowndevs in
            ret err
      end.

Definition vfs_adddev (m : addmem) (devname : list Z) (dev : Z) (mountable : bool) : E vfs unit :=
  vfs_doadd m devname mountable (Some dev) None.
Definition vfs_addfs (m : addmem) (devname : list Z) (fs : F) : E vfs unit :=
  vfs_doadd m devname false None (Some fs).

(** The device [devname] that can be mounted. *)
Definition findmount (devname : list Z) : E vfs Z :=
  let! s := get in
  do! assert_ (knowndevs_lock s) in
  let! num := on_knowndevs array_getnum in
  let! r := iterate (Z.to_nat num) 0 (fun i =>
    let! dev := kd_at i in
    ret (if bool_decide (kd_rawname dev.2 = None) then None
         else if bool_decide (devname = kd_name dev.2) then Some dev.1 else None)) in
  match r with Some p => ok p | None => fail ENODEV end.

Definition vfs_mount (devname : list Z) (mountfunc : Z -> E W F) : E vfs unit :=
  do! acquire_knowndevs in
  let! result :=
    (try! p := findmount devname in
     let! kd := get_kd p in
     if bool_decide (is_Some (kd_fs kd)) then fail EBUSY
     else
       do! assert_ (bool_decide (is_Some (kd_rawname kd))) in
       do! assert_ (bool_decide (is_Some (kd_device kd))) in
       let! dev := of_option (kd_device kd) in
       try! fs := below (mountfunc dev) in
       do! set_kd_fs p (Some fs) in
       do! below (FSOP_GETVOLNAME fs) in      (* for the message *)
       ok tt) in
  do! release_knowndevs in
  ret result.

Definition vfs_unmount (devname : list Z) : E vfs unit :=
  do! acquire_knowndevs in
  let! result :=
    (try! p := findmount devname in
     let! kd := get_kd p in
     match kd_fs kd with
     | None => fail EINVAL
     | Some fs =>
         do! assert_ (bool_decide (is_Some (kd_rawname kd))) in
         do! assert_ (bool_decide (is_Some (kd_device kd))) in
         try! _ := below (FSOP_SYNC fs) in
         try! _ := below (FSOP_UNMOUNT fs) in
         do! set_kd_fs p None in
         ok tt
     end) in
  do! release_knowndevs in
  ret result.

(** One round of [vfs_unmountall]: a second [FSOP_SYNC] if the first fails, and the
    file system stays mounted if that fails too or it does not unmount. *)
Definition unmount_kd (p : Z) (dev : knowndev V F) : M vfs unit :=
  match kd_rawname dev, kd_fs dev with
  | Some _, Some fs =>
      let! result := below (FSOP_SYNC fs) in
      let! result := (match result with
                      | inl _ => below (FSOP_SYNC fs)
                      | inr _ => ok tt
                      end) in
      match result with
      | inl _ => ret tt
      | inr _ =>
          let! result := below (FSOP_UNMOUNT fs) in
          match result with
          | inl _ => ret tt
          | inr _ => set_kd_fs p None
          end
      end
  | _, _ => ret tt
  end.

Definition vfs_unmountall : E vfs unit :=
  do! acquire_knowndevs in
  let! num := on_knowndevs array_getnum in
  do! iterate (Z.to_nat num) 0 (fun i =>
    let! dev := kd_at i in
    do! unmount_kd dev.1 dev.2 in
    ret (None (A := unit))) in
  do! release_knowndevs in
  ok tt.

(** [new_null] allocates the structure of the null device and fills it in. *)
Definition devnull_create (m_dev : bool) (m : addmem) (new_null : M W Z) : M vfs unit :=
  if negb m_dev then panic
  else
    let! dev := below new_null in
    let! result := vfs_adddev m (str "null") dev false in
    match result with inl _ => panic | inr _ => ret tt end.
End vfslist.
