(* ===== verification/VfsNames.v ===== *)
(** * Names of devices and volumes: what vfslist.c promises.

    The list of named devices stands for a table; a name leads to the first entry of
    the table that answers to it. [vfs_getroot] is proved to follow that reading and
    [vfs_doadd] to keep the names of different entries apart. *)

From stdpp Require Import base numbers list gmap strings.
From Stdlib Require Import ZArith Lia.
From S2P Require Import Prelude Mem CopyInOut Uio Array Vnode Vfs VfsList.

Lemma elem_of_option_list {A} (x : A) (o : option A) : x ∈ option_list o <-> o = Some x.
Proof. destruct o; simpl; [rewrite list_elem_of_singleton|rewrite elem_of_nil]; naive_solver. Qed.

Section names.
Context {W V F : Type} `{FileLayer W V F} `{EqDecision F}.
Notation vfs := (vfs W V F).
Notation knowndev := (knowndev V F).
Implicit Types (s : vfs) (kd : knowndev) (tbl : list knowndev) (n : list Z).

(** ** The table *)

(** A device without a file system has a device behind it, and so does one that can
    be mounted (the comment on [struct knowndev]). *)
Definition kd_ok kd : Prop :=
  (kd_fs kd = None -> is_Some (kd_device kd)) /\ (is_Some (kd_rawname kd) -> is_Some (kd_device kd)).

Record table (s : vfs) (ps : list Z) (tbl : list knowndev) : Prop := {
  tb_array : repr (knowndevs s) (Some <$> ps);
  tb_heap : Forall2 (fun p kd => nthZ (kd_heap s) p = Some kd) ps tbl;
  tb_apart : NoDup ps;
  tb_ok : Forall kd_ok tbl;
  tb_unlocked : knowndevs_lock s = false;
}.

(** The volume names, which the file systems do not change while mounted. *)
Definition names_of_volumes (w : W) (volname : F -> option (list Z)) tbl : Prop :=
  forall kd f, kd ∈ tbl -> kd_fs kd = Some f -> FSOP_GETVOLNAME f w = Done (volname f) w.

(** ** Resolution *)

(** What a name leads to. *)
Inductive target : Type :=
| to_root (f : F)
| to_device (v : V)
| to_nothing (e : errno).

Definition answer (volname : F -> option (list Z)) n kd : option target :=
  match kd_fs kd with
  | Some f =>
      if bool_decide (kd_name kd = n) || bool_decide (volname f = Some n) then Some (to_root f)
      else if bool_decide (kd_rawname kd = Some n) then Some (to_device (kd_vnode kd)) else None
  | None =>
      if bool_decide (kd_name kd = n) then
        match kd_rawname kd with
        | Some _ => Some (to_nothing ENXIO)
        | None => Some (to_device (kd_vnode kd))
        end
      else if bool_decide (kd_rawname kd = Some n) then Some (to_device (kd_vnode kd)) else None
  end.

Fixpoint resolve (volname : F -> option (list Z)) n tbl : option target :=
  match tbl with
  | [] => None
  | kd :: tbl => match answer volname n kd with Some t => Some t | None => resolve volname n tbl end
  end.

(** Obtaining the vnode of a target, with a reference. *)
Definition obtain (t : target) : E vfs V :=
  match t with
  | to_root f => let! v := below (FSOP_GETROOT f) in ok v
  | to_device v => do! below (VOP_INCREF v) in ok v
  | to_nothing e => fail e
  end.

Lemma table_kd_at s ps tbl i kd :
  repr (knowndevs s) (Some <$> ps) -> Forall2 (fun p kd => nthZ (kd_heap s) p = Some kd) ps tbl ->
  nthZ tbl i = Some kd -> exists p, nthZ ps i = Some p /\ kd_at i s = Done (p, kd) s.
Proof.
  intros Hr Hh Hi. pose proof (nthZ_Some_lt _ _ _ Hi) as Hlt. rewrite nthZ_to_nat in Hi by lia.
  destruct (Forall2_lookup_r _ _ _ _ _ Hh Hi) as (p & Hp & Hkd). exists p.
  split; [by rewrite nthZ_to_nat by lia|].
  assert (nthZ (Some <$> ps) i = Some (Some p)) as Hc by (rewrite nthZ_to_nat, list_lookup_fmap, Hp by lia; done).
  unfold kd_at, on_knowndevs, get_kd, bind, zoom, get. rewrite (getguy_correct _ _ _ _ Hr Hc).
  destruct s as [w a h l b bl c]. simpl in *. by rewrite Hkd.
Qed.

Lemma table_num s ps tbl :
  repr (knowndevs s) (Some <$> ps) -> Forall2 (fun p kd => nthZ (kd_heap s) p = Some kd) ps tbl ->
  on_knowndevs array_getnum s = Done (lenZ tbl) s.
Proof.
  intros Hr Hh. unfold on_knowndevs, zoom, array_getnum, bind, get, ret. rewrite (repr_num _ _ Hr).
  unfold lenZ. rewrite length_fmap, (Forall2_length _ _ _ Hh). by destruct s.
Qed.

(** A search of the table that looks at the entries and changes nothing until it
    finds one. *)
Fixpoint scan_table {R} (f : knowndev -> option (M vfs R)) tbl : M vfs (option R) :=
  match tbl with
  | [] => ret None
  | kd :: tbl => match f kd with
                 | Some m => let! r := m in ret (Some r)
                 | None => scan_table f tbl
                 end
  end.

Lemma iterate_scan {R} s (f : knowndev -> option (M vfs R)) (body : Z -> M vfs (option R)) tbl i :
  (forall k kd, nthZ tbl k = Some kd ->
     body (i + k) s = match f kd with Some m => (let! r := m in ret (Some r)) s | None => Done None s end) ->
  iterate (length tbl) i body s = scan_table f tbl s.
Proof.
  revert i. induction tbl as [|kd tbl IH]; intros i Hb; simpl; [done|].
  unfold bind at 1. pose proof (Hb 0 kd eq_refl) as H0. rewrite Z.add_0_r in H0. rewrite H0.
  destruct (f kd) as [m|].
  - unfold bind. by destruct (m s).
  - apply IH. intros k kd' Hk. rewrite <- Z.add_assoc. apply Hb.
    pose proof (nthZ_Some_lt _ _ _ Hk) as Hlt. rewrite nthZ_to_nat in * by lia.
    by replace (Z.to_nat (1 + k)) with (S (Z.to_nat k)) by lia.
Qed.

Lemma below_volname s f (x : option (list Z)) :
  FSOP_GETVOLNAME f (world s) = Done x (world s) -> below (FSOP_GETVOLNAME f) s = Done x s.
Proof. intros Hx. unfold below, zoom. rewrite Hx. by destruct s. Qed.

Lemma getroot_kd_answer s volname n kd :
  kd_ok kd -> (forall f, kd_fs kd = Some f -> FSOP_GETVOLNAME f (world s) = Done (volname f) (world s)) ->
  getroot_kd n kd s =
  match answer volname n kd with Some t => (let! r := obtain t in ret (Some r)) s | None => Done None s end.
Proof.
  intros [Hdev Hraw] Hv. unfold getroot_kd, answer. destruct kd as [name raw dev v fs]. simpl in *.
  assert (forall x : V, (do! below (VOP_INCREF x) in ret (Some (inr x)) : M vfs (option (errno + V))) s =
            (let! r := obtain (to_device x) in ret (Some r)) s) as Hget.
  { intros x. simpl. unfold bind, ok, ret. by destruct (below (VOP_INCREF x) s). }
  destruct fs as [f|].
  - unfold bind at 1. unfold bind at 1. rewrite (below_volname _ _ _ (Hv f eq_refl)).
    destruct (bool_decide (name = n)) eqn:Hn; simpl.
    { unfold bind, ok, ret. by destruct (below (FSOP_GETROOT f) s). }
    destruct (bool_decide (volname f = Some n)) eqn:Hvn; simpl.
    { unfold bind, ok, ret. by destruct (below (FSOP_GETROOT f) s). }
    destruct (bool_decide (raw = Some n)) eqn:Hr; [|done]. simpl.
    apply bool_decide_eq_true in Hr as ->. rewrite bool_decide_true by eauto. apply Hget.
  - unfold bind at 1. rewrite andb_comm. destruct (bool_decide (name = n)) eqn:Hn; simpl.
    + destruct raw as [r|]; simpl; [done|]. rewrite bool_decide_true by eauto. apply Hget.
    + destruct (bool_decide (raw = Some n)) eqn:Hr; [|done]. simpl.
      apply bool_decide_eq_true in Hr as ->. rewrite bool_decide_true by eauto. apply Hget.
Qed.

Lemma obtain_locked t s b :
  obtain t (set_knowndevs_lock b s) =
  match obtain t s with
  | Done r s' => Done r (set_knowndevs_lock b s')
  | Panic => Panic | Undef => Undef | OutOfFuel => OutOfFuel
  end.
Proof.
  destruct t as [f|v|e]; simpl; [| |done]; unfold bind, below, zoom, ok, ret; simpl.
  - by destruct (FSOP_GETROOT f (world s)).
  - by destruct (VOP_INCREF v (world s)).
Qed.

Lemma obtain_unlocked t s r s' :
  obtain t s = Done r s' -> knowndevs_lock s' = knowndevs_lock s.
Proof.
  destruct t as [f|v|e]; simpl; unfold bind, below, zoom, ok, fail, ret; simpl.
  - destruct (FSOP_GETROOT f (world s)); naive_solver.
  - destruct (VOP_INCREF v (world s)); naive_solver.
  - naive_solver.
Qed.

Lemma scan_resolve s volname n tbl :
  scan_table (fun kd => obtain <$> answer volname n kd) tbl s =
  match resolve volname n tbl with
  | Some t => (let! r := obtain t in ret (Some r)) s
  | None => Done None s
  end.
Proof. induction tbl as [|kd tbl IH]; simpl; [done|]. by destruct (answer volname n kd). Qed.

(** The table under the lock. *)
Lemma table_locked s ps tbl b :
  table s ps tbl ->
  repr (knowndevs (set_knowndevs_lock b s)) (Some <$> ps) /\
  Forall2 (fun p kd => nthZ (kd_heap (set_knowndevs_lock b s)) p = Some kd) ps tbl.
Proof. by intros []. Qed.

Lemma acquire_run s : knowndevs_lock s = false -> acquire_knowndevs s = Done tt (set_knowndevs_lock true s).
Proof. intros Hl. unfold acquire_knowndevs, bind, get. by rewrite Hl. Qed.

Lemma release_run s : release_knowndevs (set_knowndevs_lock true s) = Done tt (set_knowndevs_lock false s).
Proof. done. Qed.

Lemma set_lock_id s : knowndevs_lock s = false -> set_knowndevs_lock false s = s.
Proof. destruct s. simpl. by intros ->. Qed.

Lemma getroot_resolves s ps tbl volname n :
  table s ps tbl -> names_of_volumes (world s) volname tbl ->
  vfs_getroot n s =
  match resolve volname n tbl with Some t => obtain t s | None => Done (inl ENODEV) s end.
Proof.
  intros Ht Hv. pose proof (tb_unlocked _ _ _ Ht) as Hl. destruct (table_locked _ _ _ true Ht) as [Hr Hh].
  unfold vfs_getroot. rewrite (bind_done _ _ _ _ _ (acquire_run s Hl)).
  rewrite (bind_done _ _ _ _ _ (table_num _ _ _ Hr Hh)). unfold lenZ. rewrite Nat2Z.id.
  unfold bind at 1. rewrite iterate_scan with (f := fun kd => obtain <$> answer volname n kd).
  - rewrite scan_resolve. destruct (resolve volname n tbl) as [t|]; simpl.
    + unfold bind at 1. rewrite obtain_locked. destruct (obtain t s) as [r s'| | |] eqn:Ho; try done.
      pose proof (obtain_unlocked _ _ _ _ Ho) as Hu. unfold bind, ret. destruct s'. simpl in *. unfold set_knowndevs_lock. simpl. congruence.
    + unfold bind, ret. destruct s. simpl in *. unfold set_knowndevs_lock. simpl. congruence.
  - intros k kd Hk. destruct (table_kd_at _ _ _ _ _ Hr Hh Hk) as (p & _ & Hkd). simpl.
    rewrite (bind_done _ _ _ _ _ Hkd). simpl. rewrite nthZ_to_nat in Hk by (apply nthZ_Some_lt in Hk; lia).
    rewrite (getroot_kd_answer _ volname).
    + by destruct (answer volname n kd).
    + eapply Forall_lookup_1; [apply (tb_ok _ _ _ Ht)|done].
    + intros f Hf. apply (Hv kd f); [by eapply list_elem_of_lookup_2|done].
Qed.

(** ** Registering a device *)

(** Every name an entry answers to. *)
Definition names (volname : F -> option (list Z)) kd : list (list Z) :=
  kd_name kd :: option_list (kd_rawname kd) ++ option_list (kd_fs kd ≫= volname).

Lemma answer_names volname n kd : is_Some (answer volname n kd) <-> n ∈ names volname kd.
Proof.
  unfold answer, names. rewrite elem_of_cons, elem_of_app, !elem_of_option_list.
  destruct kd as [name raw dev v fs]. simpl. destruct fs as [f|]; simpl.
  - repeat case_bool_decide; simpl; naive_solver.
  - repeat case_bool_decide; simpl; [destruct raw; naive_solver|naive_solver|].
    split; [by intros []|]. intros [?|[?|?]]; naive_solver.
Qed.

Lemma resolve_none volname n tbl :
  resolve volname n tbl = None <-> Forall (fun kd => n ∉ names volname kd) tbl.
Proof.
  induction tbl as [|kd tbl IH]; simpl; [by split|]. rewrite Forall_cons, <- answer_names, <- IH.
  destruct (answer volname n kd); [|rewrite <- not_eq_None_Some; naive_solver].
  split; [done|]. intros [Hn _]. by destruct Hn.
Qed.

Lemma resolve_app volname n t1 t2 :
  resolve volname n (t1 ++ t2) = match resolve volname n t1 with Some t => Some t | None => resolve volname n t2 end.
Proof. induction t1 as [|kd t1 IH]; simpl; [done|]. by destruct (answer volname n kd). Qed.

Definition clash volname (n1 n2 n3 : option (list Z)) kd : bool :=
  match kd_fs kd with Some f => samestring3 (volname f) n1 n2 n3 | None => false end
  || (samestring3 (kd_rawname kd) n1 n2 n3 || samestring3 (Some (kd_name kd)) n1 n2 n3).

Lemma samestring3_spec a b c d :
  samestring3 a b c d = true <-> exists n, a = Some n /\ (b = Some n \/ c = Some n \/ d = Some n).
Proof.
  unfold samestring3, samestring. destruct a as [x|]; [|split; [done|naive_solver]].
  rewrite !orb_true_iff. destruct b, c, d; rewrite ?bool_decide_eq_true; naive_solver.
Qed.

Lemma clash_names volname (n1 n2 n3 : option (list Z)) kd :
  clash volname n1 n2 n3 kd = true <->
  exists n, n ∈ names volname kd /\ (n1 = Some n \/ n2 = Some n \/ n3 = Some n).
Proof.
  unfold clash, names. setoid_rewrite elem_of_cons. setoid_rewrite elem_of_app.
  setoid_rewrite elem_of_option_list. rewrite !orb_true_iff, !samestring3_spec.
  destruct (kd_fs kd) as [f|]; simpl; [rewrite samestring3_spec|]; naive_solver.
Qed.

Lemma scan_clash volname (n1 n2 n3 : option (list Z)) s tbl :
  scan_table (fun kd => if clash volname n1 n2 n3 kd then Some (ret tt) else None) tbl s =
  Done (if existsb (clash volname n1 n2 n3) tbl then Some tt else None) s.
Proof. induction tbl as [|kd tbl IH]; simpl; [done|]. by destruct (clash volname n1 n2 n3 kd). Qed.

Lemma badnames_run volname (n1 n2 n3 : option (list Z)) s ps tbl :
  repr (knowndevs s) (Some <$> ps) -> Forall2 (fun p kd => nthZ (kd_heap s) p = Some kd) ps tbl ->
  knowndevs_lock s = true -> names_of_volumes (world s) volname tbl ->
  badnames n1 n2 n3 s = Done (existsb (clash volname n1 n2 n3) tbl) s.
Proof.
  intros Hr Hh Hl Hv. unfold badnames, bind at 1, get at 1. rewrite Hl. unfold bind at 1. simpl.
  rewrite (bind_done _ _ _ _ _ (table_num _ _ _ Hr Hh)). unfold lenZ. rewrite Nat2Z.id.
  unfold bind at 1.
  rewrite iterate_scan with (f := fun kd => if clash volname n1 n2 n3 kd then Some (ret tt) else None).
  - rewrite scan_clash. unfold ret. by destruct (existsb _ _).
  - intros k kd Hk. destruct (table_kd_at _ _ _ _ _ Hr Hh Hk) as (p & _ & Hkd). simpl.
    rewrite (bind_done _ _ _ _ _ Hkd). simpl. rewrite nthZ_to_nat in Hk by (apply nthZ_Some_lt in Hk; lia).
    unfold clash. destruct (kd_fs kd) as [f|] eqn:Hf.
    + assert (FSOP_GETVOLNAME f (world s) = Done (volname f) (world s)) as Hvf.
      { apply (Hv kd f); [by eapply list_elem_of_lookup_2|done]. }
      unfold bind. rewrite (below_volname _ _ _ Hvf). simpl.
      destruct (samestring3 (volname f) n1 n2 n3); [done|]. simpl. by destruct (_ || _).
    + unfold bind. simpl. by destruct (_ || _).
Qed.

Definition all_memory : addmem := mk_addmem true true true true true true.

(** The entry [vfs_doadd] makes. *)
Definition new_entry (dname : list Z) (mountable : bool) (dev : option Z) (v : V) (fs : option F) : knowndev :=
  mk_kd dname (if mountable then Some (dname ++ str "raw") else None) dev v fs.

Definition apart volname kd kd' : Prop := forall n, n ∈ names volname kd -> n ∉ names volname kd'.

(** No name leads to two entries. *)
Definition names_apart volname tbl : Prop :=
  forall i j kd kd', i <> j -> tbl !! i = Some kd -> tbl !! j = Some kd' -> apart volname kd kd'.

Lemma not_clash_apart volname kd kd' :
  clash volname (Some (kd_name kd)) (kd_rawname kd) (kd_fs kd ≫= volname) kd' = false <-> apart volname kd kd'.
Proof.
  rewrite <- not_true_iff_false, clash_names. unfold apart, names at 3.
  setoid_rewrite elem_of_cons. setoid_rewrite elem_of_app. setoid_rewrite elem_of_option_list.
  split.
  - intros Hn n Hk Hk'. apply Hn. exists n. split; [done|]. naive_solver.
  - intros Ha (n & Hk' & Hk). apply (Ha n); [naive_solver|done].
Qed.

Lemma names_apart_snoc volname tbl kd :
  names_apart volname tbl -> Forall (apart volname kd) tbl -> names_apart volname (tbl ++ [kd]).
Proof.
  intros Ha Hk i j k1 k2 Hij Hi Hj. rewrite Forall_lookup in Hk.
  apply lookup_app_Some in Hi as [Hi|[Hli Hi]]; apply lookup_app_Some in Hj as [Hj|[Hlj Hj]].
  - by eapply Ha.
  - apply list_lookup_singleton_Some in Hj as [_ <-]. intros n H1 H2. by apply (Hk _ _ Hi n).
  - apply list_lookup_singleton_Some in Hi as [_ <-]. by eapply Hk.
  - apply list_lookup_singleton_Some in Hi as [? _]. apply list_lookup_singleton_Some in Hj as [? _]. lia.
Qed.

(** The state in which the names are compared: vnode and entry exist, the lock is held. *)
Definition entry_made (w : W) kd s : vfs := set_kd_heap (kd_heap s ++ [kd]) (set_world w s).

Lemma entry_made_table w kd s ps tbl :
  table s ps tbl -> table (entry_made w kd s) ps tbl /\
  Forall (fun p => p <> lenZ (kd_heap s)) ps.
Proof.
  intros []. split.
  - split; try done. eapply Forall2_impl; [done|]. intros p kd' Hp. simpl.
    rewrite nthZ_app_l; [done|]. apply nthZ_Some_lt in Hp. lia.
  - eapply Forall2_Forall_l; [done|]. apply Forall_forall. intros kd' _ p Hp. apply nthZ_Some_lt in Hp. lia.
Qed.

Lemma doadd_run volname s ps tbl dname mountable dev fs v w :
  table s ps tbl -> num (knowndevs s) < max_guys ->
  create_dev_vnode true true dev (world s) = Done (Some v) w ->
  names_of_volumes w volname (new_entry dname mountable dev v fs :: tbl) ->
  kd_ok (new_entry dname mountable dev v fs) ->
  let kd := new_entry dname mountable dev v fs in
  exists r s', vfs_doadd all_memory dname mountable dev fs s = Done r s' /\ world s' = w /\
  match r with
  | inl e => e = EEXIST /\ ~ Forall (apart volname kd) tbl /\ table s' ps tbl
  | inr _ => Forall (apart volname kd) tbl /\ table s' (ps ++ [lenZ (kd_heap s)]) (tbl ++ [kd])
  end.
Proof.
  intros Ht Hnum Hv Hvol Hok kd. destruct (entry_made_table w kd s ps tbl Ht) as [Ht1 Hfresh].
  set (s1 := entry_made w kd s) in *. destruct (table_locked _ _ _ true Ht1) as [Hr Hh].
  assert (existsb (clash volname (Some dname) (kd_rawname kd) (fs ≫= volname)) tbl = false <->
          Forall (apart volname kd) tbl) as Hclash.
  { rewrite <- not_true_iff_false, existsb_exists, Forall_forall. setoid_rewrite <- list_elem_of_In.
    split.
    - intros Hn kd' Hin. apply not_clash_apart, not_true_iff_false. intros Hc. apply Hn. by exists kd'.
    - intros Ha (kd' & Hin & Hc). specialize (Ha kd' Hin). apply not_clash_apart in Ha. simpl in *. congruence. }
  assert (vfs_doadd all_memory dname mountable dev fs s =
    (let! err := (if negb (existsb (clash volname (Some dname) (kd_rawname kd) (fs ≫= volname)) tbl)
                  then on_knowndevs (array_add true (lenZ (kd_heap s))) else fail EEXIST) in
     do! release_knowndevs in ret err) (set_knowndevs_lock true s1)) as Hrun.
  { unfold vfs_doadd. simpl. rewrite andb_false_r. unfold bind at 1, below at 1, zoom. rewrite Hv.
    unfold bind at 1, get. unfold bind at 1, put.
    change (set_kd_heap _ _) with s1.
    assert ((match fs with Some f => below (FSOP_GETVOLNAME f) | None => ret None end) s1 = Done (fs ≫= volname) s1) as Hfs.
    { destruct fs as [f|]; [|done]. apply below_volname. apply (Hvol kd f); [constructor|done]. }
    rewrite (bind_done _ _ _ _ _ Hfs).
    rewrite (bind_done _ _ _ _ _ (acquire_run s1 (tb_unlocked _ _ _ Ht1))).
    assert (names_of_volumes (world (set_knowndevs_lock true s1)) volname tbl) as Hvol'.
    { intros kd' f Hin. apply Hvol. by constructor. }
    pose proof (badnames_run volname (Some dname) (kd_rawname kd) (fs ≫= volname) _ _ _ Hr Hh eq_refl Hvol') as Hb.
    unfold kd at 1 in Hb. simpl in Hb. by rewrite (bind_done _ _ _ _ _ Hb). }
  rewrite Hrun. clear Hrun. destruct (existsb _ tbl) eqn:He.
  - exists (inl EEXIST), s1. split; [|split; [done|split; [done|split; [|done]]]].
    + simpl. unfold bind. simpl. unfold s1, entry_made, set_kd_heap, set_knowndevs_lock. simpl.
      by rewrite (tb_unlocked _ _ _ Ht).
    + rewrite <- Hclash. done.
  - pose proof (add_correct (knowndevs s) (Some <$> ps) true (lenZ (kd_heap s)) (tb_array _ _ _ Ht) Hnum) as Hadd.
    apply wp_done in Hadd as (r & a' & Hadd & Hr'). destruct r as [e|[]]; [naive_solver|].
    exists (inr tt), (set_knowndevs a' s1). split; [|split; [done|split; [by apply Hclash|]]].
    + simpl. unfold bind at 1, on_knowndevs, zoom. change (knowndevs (set_knowndevs_lock true s1)) with (knowndevs s).
      rewrite Hadd. unfold bind. simpl. unfold s1, entry_made, set_knowndevs, set_knowndevs_lock. simpl.
      by rewrite (tb_unlocked _ _ _ Ht).
    + destruct Ht1 as [_ Hh1 Hn1 Ho1 Hl1]. split; simpl.
      * rewrite fmap_app. apply Hr'.
      * apply Forall2_app; [done|]. constructor; [|done]. rewrite nthZ_to_nat by apply lenZ_nonneg.
        unfold lenZ. rewrite Nat2Z.id. by rewrite list_lookup_middle.
      * apply NoDup_app. split; [done|]. split; [|apply NoDup_singleton].
        intros p Hp ->%list_elem_of_singleton. rewrite Forall_forall in Hfresh. by apply (Hfresh _ Hp).
      * apply Forall_app. split; [done|]. by constructor.
      * done.
Qed.
End names.
