(* ===== verification/VfsPath.v ===== *)
(** * Pathnames (kern/fs/vfs/vfslookup.c, vfscwd.c, vfspath.c).

    A pathname is the list of its bytes without the NUL; [getdevice] cuts the string
    of its caller in two in place, which no caller looks at again. *)

From stdpp Require Import base numbers list gmap strings.
From Stdlib Require Import ZArith Lia.
From S2P Require Import Prelude Mem CopyInOut Uio Array Vnode Vfs VfsList.

Definition NAME_MAX : Z := 255.
Definition colon_char : Z := 58.
Definition slash_char : Z := 47.

(** The first ':' or '/' from index [i] on: ([slash], [colon]), -1 if there is none. *)
Fixpoint first_mark (path : list Z) (i : Z) : Z * Z :=
  match path with
  | [] => (-1, -1)
  | c :: path =>
      if c =? colon_char then (-1, i)
      else if c =? slash_char then (i, -1)
      else first_mark path (i + 1)
  end.

Fixpoint skip_slashes (path : list Z) : list Z :=
  match path with
  | c :: rest => if c =? slash_char then skip_slashes rest else path
  | [] => []
  end.

(** [strchr(s, c)]: the suffix of [s] it points to. *)
Fixpoint strchr_list (s : list Z) (c : Z) : option (list Z) :=
  match s with
  | [] => None
  | x :: s' => if x =? c then Some s else strchr_list s' c
  end.

Section vfspath.
Context {W V F : Type} `{FileLayer W V F} `{EqDecision F}.
Notation vfs := (vfs W V F).

(** ** The current directory (vfscwd.c) *)

Definition vfs_getcurdir : E vfs V :=
  let! s := get in
  match t_cwd s with
  | Some cwd => do! below (VOP_INCREF cwd) in ok cwd
  | None => fail ENOENT
  end.

Definition vfs_setcurdir (dir : V) : E vfs unit :=
  try! vtype := below (VOP_GETTYPE dir) in
  if negb (S_ISDIR vtype) then fail ENOTDIR
  else
    let! s := get in
    let old := t_cwd s in
    do! put (set_cwd (Some dir) s) in
    do! (match old with Some old => below (VOP_DECREF old) | None => ret tt end) in
    ok tt.

Definition vfs_clearcurdir : E vfs unit :=
  let! s := get in
  let old := t_cwd s in
  do! put (set_cwd None s) in
  do! (match old with Some old => below (VOP_DECREF old) | None => ret tt end) in
  ok tt.

(** ** Path translation (vfslookup.c) *)

Definition change_bootfs (newguy : option V) : M vfs unit :=
  do! acquire_bootfs in
  let! s := get in
  let oldguy := bootfs_vnode s in
  do! put (set_bootfs_vnode newguy s) in
  do! release_bootfs in
  match oldguy with Some oldguy => below (VOP_DECREF oldguy) | None => ret tt end.

(** The rest of the path, and the vnode to look it up from. *)
Definition getdevice (path : list Z) : E vfs (list Z * V) :=
  let '(slash, colon) := first_mark path 0 in
  if (colon <? 0) && negb (slash =? 0) then
    try! startvn := vfs_getcurdir in ok (path, startvn)
  else if 0 <? colon then
    let subpath := skip_slashes (drop (Z.to_nat (colon + 1)) path) in
    try! startvn := vfs_getroot (take (Z.to_nat colon) path) in
    ok (subpath, startvn)
  else
    do! assert_ ((colon =? 0) || (slash =? 0)) in
    let subpath := skip_slashes (drop 1 path) in
    if slash =? 0 then
      do! acquire_bootfs in
      let! s := get in
      match bootfs_vnode s with
      | None => do! release_bootfs in fail ENOENT
      | Some vn =>
          do! below (VOP_INCREF vn) in
          do! release_bootfs in
          ok (subpath, vn)
      end
    else
      try! vn := vfs_getcurdir in
      let! f := below (vn_fs vn) in
      match f with
      | None => panic
      | Some f =>
          let! startvn := below (FSOP_GETROOT f) in
          do! below (VOP_DECREF vn) in
          ok (subpath, startvn)
      end.

Definition vfs_lookparent (path : list Z) (buflen : Z) : E vfs (V * list Z) :=
  try! d := getdevice path in
  let! result := (if lenZ d.1 =? 0 then fail EINVAL
                  else below (VOP_LOOKPARENT d.2 d.1 buflen)) in
  do! below (VOP_DECREF d.2) in
  ret result.

Definition vfs_lookup (path : list Z) : E vfs V :=
  try! d := getdevice path in
  if lenZ d.1 =? 0 then ok d.2
  else
    let! result := below (VOP_LOOKUP d.2 d.1) in
    do! below (VOP_DECREF d.2) in
    ret result.

Definition vfs_chdir (path : list Z) : E vfs unit :=
  try! vn := vfs_lookup path in
  let! result := vfs_setcurdir vn in
  do! (match result with inl _ => below (VOP_DECREF vn) | inr _ => ret tt end) in
  ret result.

(** [snprintf] cuts the name to the [sizeof(tmp)-1 = NAME_MAX] bytes it may write,
    the NUL included. *)
Definition vfs_setbootfs (fsname : list Z) : E vfs unit :=
  let tmp := take (Z.to_nat (NAME_MAX - 1)) fsname in
  try! tmp := (match strchr_list tmp colon_char with
               | Some s => if 0 <? lenZ s then fail EINVAL else ok tmp
               | None => ok (tmp ++ [colon_char])
               end) in
  try! _ := vfs_chdir tmp in
  try! newguy := vfs_getcurdir in
  do! change_bootfs (Some newguy) in
  ok tt.

Definition vfs_clearbootfs : M vfs unit := change_bootfs None.

(** [uiomove(ptr, len, uio)] from a kernel string. *)
Definition move_string (s : list Z) : E (vfs * uenv) unit :=
  let! r := on_uenv (uiomove_on s 0 (lenZ s)) in ret r.1.

Definition vfs_getcwd : E (vfs * uenv) unit :=
  let! s := get in
  do! assert_ (bool_decide (uio_rw (xuio s.2) = UIO_READ)) in
  try! cwd := on_vfs vfs_getcurdir in
  let! f := on_vfs (below (vn_fs cwd)) in
  match f with
  | None => panic
  | Some f =>
      let! name := on_vfs (below (FSOP_GETVOLNAME f)) in
      let! name := (match name with
                    | Some n => ret (Some n)
                    | None => on_vfs (vfs_getdevname f)
                    end) in
      match name with
      | None => panic
      | Some name =>
          let! result :=
            (try! _ := move_string name in
             try! _ := move_string [colon_char] in
             below_io (VOP_NAMEFILE cwd)) in
          do! on_vfs (below (VOP_DECREF cwd)) in
          ret result
      end
  end.

(** ** Operations on pathnames (vfspath.c) *)

Definition vfs_open (path : list Z) (openflags : Z) : E vfs V :=
  let how := Z.land openflags O_ACCMODE in
  if negb ((how =? O_RDONLY) || (how =? O_WRONLY) || (how =? O_RDWR)) then fail EINVAL
  else
    let canwrite := negb (how =? O_RDONLY) in
    try! vn :=
      (if negb (Z.land openflags O_CREAT =? 0) then
         let excl := negb (Z.land openflags O_EXCL =? 0) in
         try! d := vfs_lookparent path (NAME_MAX + 1) in
         let! result := below (VOP_CREAT d.1 d.2 excl) in
         do! below (VOP_DECREF d.1) in
         ret result
       else vfs_lookup path) in
    let! result := below (VOP_OPEN vn openflags) in
    match result with
    | inl e => do! below (VOP_DECREF vn) in fail e
    | inr _ =>
        do! below (VOP_INCOPEN vn) in
        if negb (Z.land openflags O_TRUNC =? 0) then
          let! result := (if canwrite then below (VOP_TRUNCATE vn 0) else fail EINVAL) in
          match result with
          | inl e =>
              do! below (VOP_DECOPEN vn) in
              do! below (VOP_DECREF vn) in
              fail e
          | inr _ => ok vn
          end
        else ok vn
    end.

Definition vfs_close (vn : V) : M vfs unit :=
  do! below (VOP_DECOPEN vn) in
  below (VOP_DECREF vn).

(** An operation on a name in the directory a path leads to. *)
Definition in_parent (path : list Z) (op : V -> list Z -> E W unit) : E vfs unit :=
  try! d := vfs_lookparent path (NAME_MAX + 1) in
  let! result := below (op d.1 d.2) in
  do! below (VOP_DECREF d.1) in
  ret result.

Definition vfs_remove (path : list Z) : E vfs unit := in_parent path VOP_REMOVE.

(** Whether two vnodes belong to the same file system, and to one at all. *)
Definition same_fs (f1 f2 : option F) : bool :=
  bool_decide (is_Some f1) && bool_decide (is_Some f2) && bool_decide (f1 = f2).

Definition vfs_rename (oldpath newpath : list Z) : E vfs unit :=
  try! old := vfs_lookparent oldpath (NAME_MAX + 1) in
  let! new := vfs_lookparent newpath (NAME_MAX + 1) in
  match new with
  | inl e => do! below (VOP_DECREF old.1) in fail e
  | inr new =>
      let! f1 := below (vn_fs old.1) in
      let! f2 := below (vn_fs new.1) in
      if negb (same_fs f1 f2) then
        do! below (VOP_DECREF new.1) in
        do! below (VOP_DECREF old.1) in
        fail EXDEV
      else
        let! result := below (VOP_RENAME old.1 old.2 new.1 new.2) in
        do! below (VOP_DECREF new.1) in
        do! below (VOP_DECREF old.1) in
        ret result
  end.

Definition vfs_link (oldpath newpath : list Z) : E vfs unit :=
  try! oldfile := vfs_lookup oldpath in
  let! new := vfs_lookparent newpath (NAME_MAX + 1) in
  match new with
  | inl e => do! below (VOP_DECREF oldfile) in fail e
  | inr new =>
      let! f1 := below (vn_fs oldfile) in
      let! f2 := below (vn_fs new.1) in
      if negb (same_fs f1 f2) then
        do! below (VOP_DECREF new.1) in
        do! below (VOP_DECREF oldfile) in
        fail EXDEV
      else
        let! result := below (VOP_LINK new.1 new.2 oldfile) in
        do! below (VOP_DECREF new.1) in
        do! below (VOP_DECREF oldfile) in
        ret result
  end.

Definition vfs_symlink (contents path : list Z) : E vfs unit :=
  in_parent path (fun newdir newname => VOP_SYMLINK newdir newname contents).

Definition vfs_readlink (path : list Z) : E (vfs * uenv) unit :=
  try! vn := on_vfs (vfs_lookup path) in
  let! result := below_io (VOP_READLINK vn) in
  do! on_vfs (below (VOP_DECREF vn)) in
  ret result.

Definition vfs_mkdir (path : list Z) : E vfs unit := in_parent path VOP_MKDIR.
Definition vfs_rmdir (path : list Z) : E vfs unit := in_parent path VOP_RMDIR.
End vfspath.
