(* ===== verification/VfsBalance.v ===== *)
(** * Every vnode reference the VFS layer takes is given back or handed over.

    [ledger_layer] instruments any file layer with a ledger that counts the
    references (and opens) its operations hand out, by the contract of vnode.h: the
    lookups, [VOP_CREAT], [FSOP_GETROOT] and [VOP_INCREF] hand out one, [VOP_DECREF]
    takes one back. The ledger changes nothing the VFS layer can see, so no assumption
    on the layer below is needed. *)

From stdpp Require Import base numbers list gmap strings.
From Stdlib Require Import ZArith Lia.
From S2P Require Import Prelude Mem CopyInOut Uio Array Vnode Vfs VfsList VfsPath.

(** ** The ledger *)

Record ledger (V : Type) : Type := mk_ledger { handed : V -> Z; opened : V -> Z }.
Arguments mk_ledger {V}.
Arguments handed {V}.
Arguments opened {V}.

Section ledger.
Context {W V F : Type} `{EqDecision V}.

(** One reference to [v]. *)
Definition one (v u : V) : Z := if decide (u = v) then 1 else 0.
Definition one_opt (v : option V) (u : V) : Z := match v with Some v => one v u | None => 0 end.

Definition with_ledger {A} (m : M W A) : M (W * ledger V) A := zoom fst (fun w s => (w, s.2)) m.
Definition with_ledger_io {A} (m : M (W * uenv) A) : M ((W * ledger V) * uenv) A :=
  zoom (fun s => (s.1.1, s.2)) (fun t s => ((t.1, s.1.2), t.2)) m.
Definition note (refs opens : Z) (v : V) : M (W * ledger V) unit :=
  let! s := get in
  put (s.1, mk_ledger (fun u => handed s.2 u + refs * one v u) (fun u => opened s.2 u + opens * one v u)).
(** An operation that hands a reference to its result out. *)
Definition handing {A} (v : A -> V) (m : E W A) : E (W * ledger V) A :=
  try! a := with_ledger m in do! note 1 0 (v a) in ok a.

#[export] Instance ledger_layer `{L : FileLayer W V F} : FileLayer (W * ledger V) V F := {|
  vn_fs v := with_ledger (vn_fs v);
  VOP_OPEN v f := with_ledger (VOP_OPEN v f);
  VOP_GETTYPE v := with_ledger (VOP_GETTYPE v);
  VOP_TRUNCATE v n := with_ledger (VOP_TRUNCATE v n);
  VOP_READLINK v := with_ledger_io (VOP_READLINK v);
  VOP_NAMEFILE v := with_ledger_io (VOP_NAMEFILE v);
  VOP_CREAT v n x := handing id (VOP_CREAT v n x);
  VOP_SYMLINK v n c := with_ledger (VOP_SYMLINK v n c);
  VOP_MKDIR v n := with_ledger (VOP_MKDIR v n);
  VOP_LINK v n f := with_ledger (VOP_LINK v n f);
  VOP_REMOVE v n := with_ledger (VOP_REMOVE v n);
  VOP_RMDIR v n := with_ledger (VOP_RMDIR v n);
  VOP_RENAME v n v2 n2 := with_ledger (VOP_RENAME v n v2 n2);
  VOP_LOOKUP v p := handing id (VOP_LOOKUP v p);
  VOP_LOOKPARENT v p n := handing fst (VOP_LOOKPARENT v p n);
  VOP_INCREF v := do! with_ledger (VOP_INCREF v) in note 1 0 v;
  VOP_DECREF v := do! with_ledger (VOP_DECREF v) in note (-1) 0 v;
  VOP_INCOPEN v := do! with_ledger (VOP_INCOPEN v) in note 0 1 v;
  VOP_DECOPEN v := do! with_ledger (VOP_DECOPEN v) in note 0 (-1) v;
  FSOP_SYNC f := with_ledger (FSOP_SYNC f);
  FSOP_GETVOLNAME f := with_ledger (FSOP_GETVOLNAME f);
  FSOP_GETROOT f := let! v := with_ledger (FSOP_GETROOT f) in do! note 1 0 v in ret v;
  FSOP_UNMOUNT f := with_ledger (FSOP_UNMOUNT f);
  create_dev_vnode m1 m2 d := with_ledger (create_dev_vnode m1 m2 d);
|}.
End ledger.

(** ** Calls from above *)

(** The operations of vfs.h that deal in vnodes; each gives the vnode it returns. *)
Inductive vfs_call (V : Type) : Type :=
| call_open (path : list Z) (flags : Z)
| call_close (vn : V)
| call_lookup (path : list Z)
| call_remove (path : list Z)
| call_rename (oldpath newpath : list Z)
| call_link (oldpath newpath : list Z)
| call_symlink (contents path : list Z)
| call_mkdir (path : list Z)
| call_rmdir (path : list Z)
| call_chdir (path : list Z)
| call_clearcurdir
| call_setbootfs (name : list Z)
| call_clearbootfs.
Arguments call_open {V}.
Arguments call_close {V}.
Arguments call_lookup {V}.
Arguments call_remove {V}.
Arguments call_rename {V}.
Arguments call_link {V}.
Arguments call_symlink {V}.
Arguments call_mkdir {V}.
Arguments call_rmdir {V}.
Arguments call_chdir {V}.
Arguments call_clearcurdir {V}.
Arguments call_setbootfs {V}.
Arguments call_clearbootfs {V}.

Section calls.
Context {W V F : Type} `{FileLayer W V F} `{EqDecision V} `{EqDecision F}.

Definition no_vnode {S} (m : E S unit) : E S (option V) := try! _ := m in ok None.

Definition run_call (c : vfs_call V) : E (vfs W V F) (option V) :=
  match c with
  | call_open path flags => try! v := vfs_open path flags in ok (Some v)
  | call_close vn => do! vfs_close vn in ok None
  | call_lookup path => try! v := vfs_lookup path in ok (Some v)
  | call_remove path => no_vnode (vfs_remove path)
  | call_rename oldpath newpath => no_vnode (vfs_rename oldpath newpath)
  | call_link oldpath newpath => no_vnode (vfs_link oldpath newpath)
  | call_symlink contents path => no_vnode (vfs_symlink contents path)
  | call_mkdir path => no_vnode (vfs_mkdir path)
  | call_rmdir path => no_vnode (vfs_rmdir path)
  | call_chdir path => no_vnode (vfs_chdir path)
  | call_clearcurdir => no_vnode vfs_clearcurdir
  | call_setbootfs name => no_vnode (vfs_setbootfs name)
  | call_clearbootfs => do! vfs_clearbootfs in ok None
  end.

(** References the caller owns after the call, less those it owned before. *)
Definition call_refs (c : vfs_call V) (r : errno + option V) (u : V) : Z :=
  match c, r with
  | call_close vn, _ => - one vn u
  | _, inr (Some v) => one v u
  | _, _ => 0
  end.
Definition call_opens (c : vfs_call V) (r : errno + option V) (u : V) : Z :=
  match c, r with
  | call_close vn, _ => - one vn u
  | call_open _ _, inr (Some v) => one v u
  | _, _ => 0
  end.
End calls.

(** ** Balance *)

Section balance_of.
Context {W V F : Type} `{EqDecision V}.
Notation state := (vfs (W * ledger V) V F).

(** References handed out that neither the current directory nor the boot file system
    accounts for. *)
Definition loose (s : state) (u : V) : Z :=
  handed (world s).2 u - one_opt (t_cwd s) u - one_opt (bootfs_vnode s) u.
Definition opens (s : state) (u : V) : Z := opened (world s).2 u.

(** From [s] to [s'] the callers gained [dr] references and [dop] opens. *)
Definition moved (s s' : state) (dr dop : V -> Z) : Prop :=
  forall u, loose s' u = loose s u + dr u /\ opens s' u = opens s u + dop u.

Definition none (u : V) : Z := 0.

Lemma moved_refl s : moved s s none none.
Proof. intros u. unfold none. lia. Qed.

End balance_of.

Ltac at_vnode u :=
  intros u; cbv beta in *; repeat match goal with Hm : moved _ _ _ _ |- _ => specialize (Hm u) end;
  unfold none, loose, opens in *; simpl in *; lia.

Section balance.
Context {W V F : Type} `{L : FileLayer W V F} `{EqDecision V} `{EqDecision F}.
Notation state := (vfs (W * ledger V) V F).

(** [Q] for a computation that returns having moved what [dr] and [dop] say. *)
Definition moves {A} (m : M state A) (dr dop : A -> V -> Z) : Prop :=
  forall s, wlp m (fun a s' => moved s s' (dr a) (dop a)) s.

Lemma below_neutral {A} (m : M W A) (s : state) :
  wlp (below (with_ledger m)) (fun _ s' => moved s s' none none) s.
Proof.
  unfold below, with_ledger. apply wlp_zoom, wlp_zoom. intros a w _. at_vnode u.
Qed.

Lemma below_note r o v (s : state) :
  wlp (below (note (W := W) r o v))
      (fun _ s' => moved s s' (fun u => r * one v u) (fun u => o * one v u)) s.
Proof.
  unfold below, note. apply wlp_zoom, wlp_bind, wlp_get, wlp_put. at_vnode u.
Qed.

Lemma moves_ret {A} (a : A) dr dop :
  (forall u, dr a u = 0 /\ dop a u = 0) -> moves (ret a) dr dop.
Proof. intros Hd s. apply wlp_ret. intros u. specialize (Hd u). lia. Qed.

(** The second computation moves what the first left to move. *)
Lemma moves_bind {A B} (m : M state A) (f : A -> M state B) d1 o1 dr dop :
  moves m d1 o1 ->
  (forall a, moves (f a) (fun b u => dr b u - d1 a u) (fun b u => dop b u - o1 a u)) ->
  moves (bind m f) dr dop.
Proof.
  intros Hm Hf s. apply wlp_bind. eapply wlp_mono; [apply Hm|]. intros a s1 H1.
  eapply wlp_mono; [apply Hf|]. intros b s2 H2. at_vnode u.
Qed.

Lemma moves_tbind {A B} (m : E state A) (f : A -> E state B) d1 o1 dr dop :
  moves m d1 o1 ->
  (forall e u, dr (inl e) u = d1 (inl e) u /\ dop (inl e) u = o1 (inl e) u) ->
  (forall a, moves (f a) (fun b u => dr b u - d1 (inr a) u) (fun b u => dop b u - o1 (inr a) u)) ->
  moves (tbind m f) dr dop.
Proof.
  intros Hm He Hf. unfold tbind. eapply moves_bind; [exact Hm|]. intros [e|a]; [|apply Hf].
  apply moves_ret. intros u. specialize (He e u). simpl. lia.
Qed.

Lemma moves_get {B} (f : state -> M state B) dr dop :
  (forall s, moves (f s) dr dop) -> moves (bind get f) dr dop.
Proof. intros Hf s. apply wlp_bind, wlp_get, Hf. Qed.

Lemma moves_assert b : moves (assert_ b) (fun _ => none) (fun _ => none).
Proof. intros s. apply wlp_assert. intros _. apply moved_refl. Qed.

Lemma moves_panic {A} dr dop : moves (panic (A := A)) dr dop.
Proof. intros s. apply wlp_panic. Qed.

Lemma moves_of_option {A} (o : option A) : moves (of_option o) (fun _ => none) (fun _ => none).
Proof. intros s. apply wlp_of_option. intros a _. apply moved_refl. Qed.

Lemma moves_iterate {R} n i (body : Z -> M state (option R)) dr dop :
  (forall u, dr None u = 0 /\ dop None u = 0) ->
  (forall k, moves (body k) dr dop) -> moves (iterate n i body) dr dop.
Proof.
  intros Hn Hb s. apply wlp_iterate with (I := fun t => moved s t none none).
  - apply moved_refl.
  - intros k t Ht. eapply wlp_mono; [apply Hb|]. intros [r|] t' Ht' u; specialize (Ht u);
      specialize (Ht' u); specialize (Hn u); unfold none in *; lia.
  - intros t Ht u. specialize (Ht u). specialize (Hn u). unfold none in *. lia.
Qed.

Lemma moves_below {A} (m : M W A) : moves (below (with_ledger m)) (fun _ => none) (fun _ => none).
Proof. intros s. apply below_neutral. Qed.

Lemma below_bind {A B} (m : M (W * ledger V) A) (f : A -> M (W * ledger V) B) (s : state) :
  below (bind m f) s = bind (below m) (fun a => below (f a)) s.
Proof. unfold below, bind, zoom. by destruct (m (world s)). Qed.

Lemma moves_below_bind {A B} (m : M (W * ledger V) A) (f : A -> M (W * ledger V) B) dr dop :
  moves (bind (below m) (fun a => below (f a))) dr dop -> moves (below (bind m f)) dr dop.
Proof. intros Hm s b s'. rewrite below_bind. apply Hm. Qed.

Lemma moves_note r o v :
  moves (below (note (W := W) r o v)) (fun _ u => r * one v u) (fun _ u => o * one v u).
Proof. intros s. apply below_note. Qed.

Lemma moves_with_note {A} (m : M W A) r o v :
  moves (below (bind (with_ledger m) (fun _ => note r o v))) (fun _ u => r * one v u) (fun _ u => o * one v u).
Proof.
  apply moves_below_bind. eapply moves_bind; [apply moves_below|]. intros a s.
  eapply wlp_mono; [apply moves_note|]. intros [] s' Hm. at_vnode u.
Qed.

(** What an error or a vnode hands to the caller. *)
Definition gains {A} (v : A -> V) (r : errno + A) (u : V) : Z :=
  match r with inl _ => 0 | inr a => one (v a) u end.

Lemma moves_handing {A} (v : A -> V) (m : E W A) :
  moves (below (handing v m)) (gains v) (fun _ => none).
Proof.
  unfold handing, tbind. apply moves_below_bind. eapply moves_bind; [apply moves_below|].
  intros [e|a].
  - intros s. apply wlp_zoom, wlp_ret. unfold gains. at_vnode u.
  - apply moves_below_bind. eapply moves_bind; [apply moves_note|]. intros [] s.
    apply wlp_zoom, wlp_ret. unfold gains. at_vnode u.
Qed.

Lemma moves_getroot f :
  moves (below (FSOP_GETROOT f)) (fun v => one v) (fun _ => none).
Proof.
  simpl. apply moves_below_bind. eapply moves_bind; [apply moves_below|]. intros v.
  apply moves_below_bind. eapply moves_bind; [apply moves_note|]. intros [] s.
  apply wlp_zoom, wlp_ret. at_vnode u.
Qed.

Lemma moves_on_knowndevs {A} (m : M (array Z) A) : moves (on_knowndevs m) (fun _ => none) (fun _ => none).
Proof. intros s. apply wlp_zoom. intros a t _. at_vnode u. Qed.

(** ** The functions of the VFS layer *)

Lemma moves_acquire_knowndevs : moves acquire_knowndevs (fun _ => none) (fun _ => none).
Proof. intros s. apply wlp_bind, wlp_get, wlp_bind, wlp_assert. intros _. apply wlp_put. at_vnode u. Qed.

Lemma moves_release_knowndevs : moves release_knowndevs (fun _ => none) (fun _ => none).
Proof. intros s. apply wlp_bind, wlp_get, wlp_bind, wlp_assert. intros _. apply wlp_put. at_vnode u. Qed.

Lemma moves_acquire_bootfs : moves acquire_bootfs (fun _ => none) (fun _ => none).
Proof. intros s. apply wlp_bind, wlp_get, wlp_bind, wlp_assert. intros _. apply wlp_put. at_vnode u. Qed.

Lemma moves_release_bootfs : moves release_bootfs (fun _ => none) (fun _ => none).
Proof. intros s. apply wlp_bind, wlp_get, wlp_bind, wlp_assert. intros _. apply wlp_put. at_vnode u. Qed.

Lemma moves_incref v : moves (below (VOP_INCREF v)) (fun _ => one v) (fun _ => none).
Proof.
  intros s. eapply wlp_mono; [apply (moves_with_note (VOP_INCREF v) 1 0 v)|]. intros [] s' Hm. at_vnode u.
Qed.

Lemma moves_decref v : moves (below (VOP_DECREF v)) (fun _ u => - one v u) (fun _ => none).
Proof.
  intros s. eapply wlp_mono; [apply (moves_with_note (VOP_DECREF v) (-1) 0 v)|]. intros [] s' Hm. at_vnode u.
Qed.

Lemma moves_incopen v : moves (below (VOP_INCOPEN v)) (fun _ => none) (fun _ => one v).
Proof.
  intros s. eapply wlp_mono; [apply (moves_with_note (VOP_INCOPEN v) 0 1 v)|]. intros [] s' Hm. at_vnode u.
Qed.

Lemma moves_decopen v : moves (below (VOP_DECOPEN v)) (fun _ => none) (fun _ u => - one v u).
Proof.
  intros s. eapply wlp_mono; [apply (moves_with_note (VOP_DECOPEN v) 0 (-1) v)|]. intros [] s' Hm. at_vnode u.
Qed.
Lemma moves_ext {A} (m : M state A) d1 o1 d2 o2 :
  moves m d1 o1 -> (forall a u, d2 a u = d1 a u /\ o2 a u = o1 a u) -> moves m d2 o2.
Proof.
  intros Hm He s. eapply wlp_mono; [apply Hm|]. intros a s' Hs u. specialize (He a u). specialize (Hs u). lia.
Qed.

Lemma moves_assoc {A B C} (m : M state A) (f : A -> M state B) (g : B -> M state C) dr dop :
  moves (bind m (fun a => bind (f a) g)) dr dop -> moves (bind (bind m f) g) dr dop.
Proof. intros Hm s b s' Hrun. apply Hm. revert Hrun. unfold bind. by destruct (m s). Qed.

Lemma moves_unit {A B} (a : A) (f : A -> M state B) dr dop :
  moves (f a) dr dop -> moves (bind (ret a) f) dr dop.
Proof. done. Qed.

Lemma moves_stop {A B} (f : A -> M state B) dr dop : moves (bind panic f) dr dop.
Proof. intros s a s'. done. Qed.

End balance.

Create HintDb bal.
#[export] Hint Resolve moves_assert moves_of_option moves_below moves_handing moves_getroot
  moves_on_knowndevs moves_acquire_knowndevs moves_release_knowndevs moves_acquire_bootfs
  moves_release_bootfs moves_incref moves_decref moves_incopen moves_decopen : bal.

#[export] Hint Extern 5 (moves (below _) _ _) => first [apply moves_below | apply (moves_handing id) | apply (moves_handing fst)] : bal.

(** Computes what a composed computation moves. *)
Ltac bal_done :=
  first [apply moves_panic
        |apply moves_ret; let u := fresh "at_" in intros u; repeat match goal with |- context [gains _ ?r u] => is_var r; destruct r end;
         unfold gains, none, id; simpl; lia].
Ltac bal_step :=
  lazymatch goal with
  | |- moves (tbind _ _) _ _ => unfold tbind at 1
  | |- moves (bind (tbind _ _) _) _ _ => unfold tbind at 1
  | |- moves (bind (bind _ _) _) _ _ => apply moves_assoc
  | |- moves (bind get _) _ _ => apply moves_get; intros ?
  | |- moves (bind (ret _) _) _ _ => apply moves_unit
  | |- moves (bind (ok _) _) _ _ => apply moves_unit
  | |- moves (bind (fail _) _) _ _ => apply moves_unit
  | |- moves (bind (match ?x with _ => _ end) _) _ _ => destruct x
  | |- moves (bind panic _) _ _ => apply moves_stop
  | |- moves (bind _ _) _ _ => eapply moves_bind; [solve [eauto with bal nocore]|intros ?]
  | |- moves (match ?x with _ => _ end) _ _ => destruct x
  | |- moves _ _ _ => first [bal_done | eapply moves_ext; [solve [eauto with bal nocore]|intros ? ?; unfold gains, none, id; simpl; lia]]
  end.
Ltac bal := repeat (bal_step; cbv beta).

Section balance_vfs.
Context {W V F : Type} `{L : FileLayer W V F} `{EqDecision V} `{EqDecision F}.
Notation state := (vfs (W * ledger V) V F).

Lemma moves_kd_at k : moves (kd_at k : M state _) (fun _ => none) (fun _ => none).
Proof. unfold kd_at, get_kd. bal. Qed.
Hint Resolve moves_kd_at : bal.

Definition gains_opt (r : option (errno + V)) (u : V) : Z :=
  match r with Some (inr v) => one v u | _ => 0 end.

Lemma moves_getroot_kd devname kd :
  moves (getroot_kd devname kd : M state _) gains_opt (fun _ => none).
Proof.
  unfold getroot_kd, gains_opt. bal.
Qed.
Hint Resolve moves_getroot_kd : bal.

Lemma moves_getroot_loop n i devname :
  moves (iterate n i (fun i => let! kd := kd_at i in getroot_kd devname kd.2) : M state _) gains_opt (fun _ => none).
Proof. apply moves_iterate; [done|]. intros k. bal. Qed.
Hint Resolve moves_getroot_loop : bal.

Lemma moves_getroot_name devname : moves (vfs_getroot devname : M state _) (gains id) (fun _ => none).
Proof.
  unfold vfs_getroot. bal.
  apply moves_ret. intros u. destruct a1 as [[e|v]|]; unfold gains, none, id; simpl; lia.
Qed.
Hint Resolve moves_getroot_name : bal.

Lemma moves_getcurdir : moves (vfs_getcurdir : M state _) (gains id) (fun _ => none).
Proof. unfold vfs_getcurdir. bal. Qed.
Hint Resolve moves_getcurdir : bal.

Lemma moves_getdevice path : moves (getdevice path : M state _) (gains snd) (fun _ => none).
Proof. unfold getdevice. bal. Qed.

Hint Resolve moves_getdevice : bal.

Lemma moves_lookparent path n :
  moves (vfs_lookparent path n : M state _) (gains fst) (fun _ => none).
Proof. unfold vfs_lookparent. bal. Qed.
Hint Resolve moves_lookparent : bal.

Lemma moves_lookup path : moves (vfs_lookup path : M state _) (gains id) (fun _ => none).
Proof. unfold vfs_lookup. bal. Qed.
Hint Resolve moves_lookup : bal.

Lemma moves_open path flags :
  moves (vfs_open path flags : M state _) (gains id) (gains id).
Proof. unfold vfs_open. bal. Qed.

Lemma moves_close vn :
  moves (vfs_close vn : M state _) (fun _ u => - one vn u) (fun _ u => - one vn u).
Proof. unfold vfs_close. bal. Qed.

Lemma moves_in_parent path (op : V -> list Z -> E (W * ledger V) unit) :
  (forall v n, moves (below (op v n) : M state _) (fun _ => none) (fun _ => none)) ->
  moves (in_parent path op : M state _) (fun _ => none) (fun _ => none).
Proof. intros Hop. unfold in_parent. bal. Qed.

Lemma moves_rename p1 p2 : moves (vfs_rename p1 p2 : M state _) (fun _ => none) (fun _ => none).
Proof. unfold vfs_rename. bal. Qed.

Lemma moves_link p1 p2 : moves (vfs_link p1 p2 : M state _) (fun _ => none) (fun _ => none).
Proof. unfold vfs_link. bal. Qed.

(** A vnode that becomes the current directory is the current directory's. *)
Definition takes {A} (v : V) (r : errno + A) (u : V) : Z :=
  match r with inl _ => 0 | inr _ => - one v u end.

Lemma moves_change_bootfs v :
  moves (change_bootfs v : M state _) (fun _ u => - one_opt v u) (fun _ => none).
Proof.
  unfold change_bootfs. intros s. apply wlp_bind. eapply wlp_mono; [apply moves_acquire_bootfs|].
  intros [] s1 H1. apply wlp_bind, wlp_get, wlp_bind, wlp_put, wlp_bind.
  eapply wlp_mono; [apply moves_release_bootfs|]. intros [] s2 H2.
  destruct (bootfs_vnode s1) as [old|] eqn:Hold.
  - eapply wlp_mono; [apply moves_decref|]. intros [] s3 H3.
    cbv beta in *. intros u. specialize (H1 u). specialize (H2 u). specialize (H3 u).
    unfold none, loose, opens in *. simpl in *. rewrite Hold in *. simpl in *. lia.
  - apply wlp_ret. cbv beta in *. intros u. specialize (H1 u). specialize (H2 u).
    unfold none, loose, opens in *. simpl in *. rewrite Hold in *. simpl in *. lia.
Qed.

(** The current directory is changed, and the reference of the old one dropped. *)
Lemma moves_swap_cwd v s :
  wlp (do! put (set_cwd v s) in
       do! (match t_cwd s with Some old => below (VOP_DECREF old) | None => ret tt end) in
       ok tt : M state (errno + unit))
      (fun r s' => r = inr tt /\ moved s s' (fun u => - one_opt v u) none) s.
Proof.
  apply wlp_bind, wlp_put, wlp_bind. destruct (t_cwd s) as [old|] eqn:Hold.
  - eapply wlp_mono; [apply moves_decref|]. intros [] s3 H3. apply wlp_ret. split; [done|].
    cbv beta in *. intros u. specialize (H3 u).
    unfold none, loose, opens in *. simpl in *. rewrite Hold in *. simpl in *. lia.
  - apply wlp_ret, wlp_ret. split; [done|]. intros u. unfold none, loose, opens. simpl. rewrite Hold. simpl. lia.
Qed.

Lemma moves_setcurdir v : moves (vfs_setcurdir v : M state _) (takes v) (fun _ => none).
Proof.
  intros s. unfold vfs_setcurdir. apply wlp_tbind. eapply wlp_mono; [apply moves_below|].
  intros [e|ty] s1 H1; [unfold takes; at_vnode u|].
  destruct (negb (S_ISDIR ty)); [apply wlp_ret; unfold takes; at_vnode u|].
  apply wlp_bind, wlp_get. eapply wlp_mono; [apply (moves_swap_cwd (Some v))|].
  intros r s2 [-> H2]. unfold takes. at_vnode u.
Qed.
Hint Resolve moves_setcurdir moves_change_bootfs : bal.

Lemma moves_chdir path : moves (vfs_chdir path : M state _) (fun _ => none) (fun _ => none).
Proof. unfold vfs_chdir. bal. Qed.
Hint Resolve moves_chdir : bal.

Lemma moves_setbootfs name : moves (vfs_setbootfs name : M state _) (fun _ => none) (fun _ => none).
Proof. unfold vfs_setbootfs. bal. Qed.

Lemma moves_clearcurdir : moves (vfs_clearcurdir : M state _) (fun _ => none) (fun _ => none).
Proof.
  intros s. apply wlp_bind, wlp_get. eapply wlp_mono; [apply (moves_swap_cwd None)|].
  intros r s' [-> Hm]. at_vnode u.
Qed.
Lemma run_call_moves (c : vfs_call V) :
  moves (run_call c : M state _) (call_refs c) (call_opens c).
Proof.
  assert (forall (m : E state unit), moves m (fun _ => none) (fun _ => none) ->
            moves (no_vnode m) (fun r u => match r with inr (Some v) => one v u | _ => 0 end)
                               (fun r u => 0)) as Hno.
  { intros m Hm. unfold no_vnode. eapply moves_tbind; [exact Hm|done|]. intros []. by apply moves_ret. }
  destruct c; simpl; unfold vfs_remove, vfs_symlink, vfs_mkdir, vfs_rmdir.
  - eapply moves_tbind; [apply moves_open|done|]. intros v. apply moves_ret. unfold gains, id. simpl. lia.
  - eapply moves_bind; [apply moves_close|]. intros []. apply moves_ret. simpl. lia.
  - eapply moves_tbind; [apply moves_lookup|done|]. intros v. apply moves_ret. unfold gains, id, none. simpl. lia.
  - apply Hno, moves_in_parent. eauto with bal nocore.
  - apply Hno, moves_rename.
  - apply Hno, moves_link.
  - apply Hno, moves_in_parent. eauto with bal nocore.
  - apply Hno, moves_in_parent. eauto with bal nocore.
  - apply Hno, moves_in_parent. eauto with bal nocore.
  - apply Hno, moves_chdir.
  - apply Hno, moves_clearcurdir.
  - apply Hno, moves_setbootfs.
  - unfold vfs_clearbootfs. eapply moves_bind; [apply moves_change_bootfs|]. intros []. by apply moves_ret.
Qed.

(** A history of calls, and what the callers own after it. *)
Fixpoint run_calls (cs : list (vfs_call V)) : M state (list (errno + option V)) :=
  match cs with
  | [] => ret []
  | c :: cs => let! r := run_call c in let! rs := run_calls cs in ret (r :: rs)
  end.

Fixpoint total (count : vfs_call V -> errno + option V -> V -> Z)
    (cs : list (vfs_call V)) (rs : list (errno + option V)) (u : V) : Z :=
  match cs, rs with
  | c :: cs, r :: rs => count c r u + total count cs rs u
  | _, _ => 0
  end.

Lemma run_calls_moves cs :
  moves (run_calls cs) (total call_refs cs) (total call_opens cs).
Proof.
  induction cs as [|c cs IH]; simpl; [by apply moves_ret|].
  eapply moves_bind; [apply run_call_moves|]. intros r. eapply moves_bind; [exact IH|]. intros rs.
  apply moves_ret. intros u. lia.
Qed.
End balance_vfs.
