(* ===== verification/SfsIo.v ===== *)
(** * State of a mounted SFS and block I/O (kern/fs/sfs/sfs_io.c, kern/include/sfs.h).

    [struct sfs_fs] with the device it is mounted on, the vnodes it has loaded
    (allocated objects, reached by pointer), and the memory of the current address
    space, which a request may point into. The device is any [BlockDevice]. *)

From stdpp Require Import base numbers list gmap.
From Stdlib Require Import ZArith Lia.
From S2P Require Import Prelude Mem Cstring CopyInOut Uio BlockDev Lhd Bitmap Array Vnode SfsDisk.

Definition ptr : Type := positive.

Record sfs_vnode : Type := mk_sv {
  sv_v : vnode;
  sv_i : sfs_inode;
  sv_ino : Z;
  sv_dirty : bool;
}.

Record sfs_fs (D : Type) : Type := mk_fs {
  sfs_super_ : sfs_super;
  sfs_superdirty : bool;
  sfs_device : D;
  sfs_vnodes : array ptr;
  sfs_freemap : bitmap;
  sfs_freemapdirty : bool;
  sfs_heap : gmap ptr sfs_vnode;      (* the vnode structures kmalloc handed out *)
  sfs_umem : mem;
  sfs_space : option Z;
}.
Arguments mk_fs {D}.
Arguments sfs_super_ {D}.
Arguments sfs_superdirty {D}.
Arguments sfs_device {D}.
Arguments sfs_vnodes {D}.
Arguments sfs_freemap {D}.
Arguments sfs_freemapdirty {D}.
Arguments sfs_heap {D}.
Arguments sfs_umem {D}.
Arguments sfs_space {D}.

Section sfs_io.
Context {D : Type} `{BlockDevice D}.
Notation fs := (sfs_fs D).

Definition set_device (d : D) (s : fs) : fs :=
  mk_fs (sfs_super_ s) (sfs_superdirty s) d (sfs_vnodes s) (sfs_freemap s) (sfs_freemapdirty s)
    (sfs_heap s) (sfs_umem s) (sfs_space s).
Definition set_freemap (b : bitmap) (dirty : bool) (s : fs) : fs :=
  mk_fs (sfs_super_ s) (sfs_superdirty s) (sfs_device s) (sfs_vnodes s) b dirty
    (sfs_heap s) (sfs_umem s) (sfs_space s).
Definition set_superdirty (dirty : bool) (s : fs) : fs :=
  mk_fs (sfs_super_ s) dirty (sfs_device s) (sfs_vnodes s) (sfs_freemap s) (sfs_freemapdirty s)
    (sfs_heap s) (sfs_umem s) (sfs_space s).
Definition set_vnodes (a : array ptr) (s : fs) : fs :=
  mk_fs (sfs_super_ s) (sfs_superdirty s) (sfs_device s) a (sfs_freemap s) (sfs_freemapdirty s)
    (sfs_heap s) (sfs_umem s) (sfs_space s).
Definition set_heap (h : gmap ptr sfs_vnode) (s : fs) : fs :=
  mk_fs (sfs_super_ s) (sfs_superdirty s) (sfs_device s) (sfs_vnodes s) (sfs_freemap s) (sfs_freemapdirty s)
    h (sfs_umem s) (sfs_space s).
Definition set_umem (m : mem) (s : fs) : fs :=
  mk_fs (sfs_super_ s) (sfs_superdirty s) (sfs_device s) (sfs_vnodes s) (sfs_freemap s) (sfs_freemapdirty s)
    (sfs_heap s) m (sfs_space s).

(** A file system at work on a request. *)
Definition fsio : Type := fs * uio.

Definition fs_env (s : fsio) : uenv := mk_uenv (snd s) (sfs_umem (fst s)) (sfs_space (fst s)).
Definition put_env (e : uenv) (s : fsio) : fsio := (set_umem (umem e) (fst s), xuio e).

(** Operations on the request alone. *)
Definition on_env {A} (m : M uenv A) : M fsio A := zoom fs_env put_env m.
(** Operations on the file system alone. *)
Definition on_fs {A} (m : M fs A) : M fsio A := zoom fst (fun s t => (s, snd t)) m.

(** [sfs->sfs_device->d_io(sfs->sfs_device, uio)] *)
Definition device_io : E fsio unit :=
  zoom (fun s => (sfs_device (fst s), fs_env s))
       (fun t s => put_env (snd t) (set_device (fst t) (fst s), snd s)) d_io.

(** The [retry] loop, entered with [tries] retries done. *)
Fixpoint rwblock_retry (fuel : nat) (tries : Z) : E fsio unit :=
  let! r := device_io in
  match r with
  | inl EINVAL => panic
  | inl EIO =>
      if (tries =? 0) || (tries <? 10) then
        match fuel with
        | O => out_of_fuel
        | S fuel => rwblock_retry fuel (tries + 1)
        end
      else fail EIO
  | inl e => fail e
  | inr _ => ok tt
  end.

Definition sfs_rwblock : E fsio unit := rwblock_retry 10 0.

(** [SFSUIO(&ku, data, block, rw); return sfs_rwblock(sfs, &ku);], handing back
    what the buffer then holds. *)
Definition kernel_rwblock (data : list Z) (block : Z) (rw : uio_op) : E fs (list Z) :=
  let! pos := int_of (s32 block * SFS_BLOCKSIZE) in
  let ku := mk_kuio data SFS_BLOCKSIZE pos rw in
  fun s =>
    match sfs_rwblock (s, ku) with
    | Done (inr _) (s', ku') =>
        match uio_iovec ku' with
        | un_kbase obj _ => Done (inr obj) s'
        | un_ubase _ => Undef
        end
    | Done (inl e) (s', _) => Done (inl e) s'
    | Panic => Panic
    | Undef => Undef
    | OutOfFuel => OutOfFuel
    end.

Definition sfs_rblock (data : list Z) (block : Z) : E fs (list Z) := kernel_rwblock data block UIO_READ.
Definition sfs_wblock (data : list Z) (block : Z) : E fs unit :=
  try! _ := kernel_rwblock data block UIO_WRITE in ok tt.
End sfs_io.

(** ** The retry loop *)

Section retry.
Context {D : Type} `{BlockDevice D}.
Notation fs := (sfs_fs D).

(** Device I/O repeated while it fails with EIO: what the [n]th attempt saw. *)
Inductive attempts : nat -> fsio (D := D) -> errno + unit -> fsio -> Prop :=
| attempt_last s r s' : device_io s = Done r s' -> r <> inl EIO -> attempts 0 s r s'
| attempt_giveup s s' : device_io s = Done (inl EIO) s' -> attempts 0 s (inl EIO) s'
| attempt_retry n s s1 r s' :
    device_io s = Done (inl EIO) s1 -> attempts n s1 r s' -> attempts (S n) s r s'.

(** The loop ends after at most ten retries: the fuel is never used up. *)
Lemma rwblock_retry_total fuel tries s :
  0 <= tries -> tries + Z.of_nat fuel = 10 ->
  (forall t, device_io t <> OutOfFuel (S := fsio (D := D))) -> rwblock_retry fuel tries s <> OutOfFuel.
Proof.
  revert tries s. induction fuel as [|fuel IH]; intros tries s Ht Hf Hio; cbn [rwblock_retry]; unfold bind;
    pose proof (Hio s); destruct (device_io s) as [[[]|[]] s1| | |]; try done.
  - destruct (Z.eqb_spec tries 0); [lia|]. by destruct (Z.ltb_spec tries 10); [lia|].
  - destruct (Z.ltb_spec tries 10); [|lia]. rewrite orb_true_r. apply IH; [lia|lia|done].
Qed.

(** What the loop returns is what the last of at most eleven attempts returned; EIO
    only after all of them failed so; EINVAL never (it panics). *)
Lemma rwblock_retry_attempts fuel tries s r s' :
  0 <= tries -> tries + Z.of_nat fuel = 10 -> rwblock_retry fuel tries s = Done r s' ->
  exists n, (n <= fuel)%nat /\ attempts n s r s' /\ (r = inl EIO -> n = fuel) /\ r <> inl EINVAL.
Proof.
  revert tries s. induction fuel as [|fuel IH]; intros tries s Ht Hf; cbn [rwblock_retry]; unfold bind;
    (destruct (device_io s) as [[e|[]] s1| | |] eqn:Hd; [|..]; try done);
    try (intros [= <- <-]; exists 0%nat; split; [lia|]; split; [by apply attempt_last|done]);
    destruct e; try done;
    try (intros [= <- <-]; exists 0%nat; split; [lia|]; split; [by apply attempt_last|done]).
  - destruct (Z.eqb_spec tries 0); [lia|]. destruct (Z.ltb_spec tries 10); [lia|]. simpl.
    intros [= <- <-]. exists 0%nat. split; [lia|]. split; [by apply attempt_giveup|done].
  - destruct (Z.ltb_spec tries 10); [|lia]. rewrite orb_true_r. intros Hrun.
    destruct (IH (tries + 1) s1 ltac:(lia) ltac:(lia) Hrun) as (n & Hn & Ha & He & Hne).
    exists (S n). split; [lia|]. split; [by eapply attempt_retry|]. split; [|done].
    intros Hr. f_equal. by apply He.
Qed.
End retry.

(** ** Block I/O on a reliable device *)

Section blocks.
Context {D : Type} {B : BlockDevice D} {R : ReliableDevice B}.
Notation fs := (sfs_fs D).

(** The contents of block [b]. *)
Definition blk (s : fs) (b : Z) : list Z := sector (sfs_device s) b.
Definition dev_size (s : fs) : Z := d_blocks (sfs_device s).

(** The disk is in working order and its offsets fit an [off_t]. *)
Definition disk_ok (s : fs) : Prop := dev_ok (sfs_device s) /\ dev_size s <= 2 ^ 22 - 1.

(** [s'] is [s] but for the device, whose blocks are given by [f]. *)
Definition disk_becomes (s s' : fs) (f : Z -> list Z) : Prop :=
  exists d, s' = set_device d s /\ dev_ok d /\ d_blocks d = dev_size s /\ forall k, sector d k = f k.

Lemma disk_becomes_ok s s' f : disk_ok s -> disk_becomes s s' f -> disk_ok s'.
Proof. intros [Ho Hs] (d & -> & Hd & Hn & _). split; [done|]. unfold dev_size in *. simpl. lia. Qed.

Lemma disk_becomes_size s s' f : disk_becomes s s' f -> dev_size s' = dev_size s.
Proof. by intros (d & -> & _ & Hn & _). Qed.

Lemma disk_becomes_blk s s' f k : disk_becomes s s' f -> blk s' k = f k.
Proof. intros (d & -> & _ & _ & Hf). apply Hf. Qed.

Lemma disk_becomes_trans s1 s2 s3 f g :
  disk_becomes s1 s2 f -> disk_becomes s2 s3 g -> disk_becomes s1 s3 g.
Proof.
  intros (d & -> & _ & Hn & _) (d' & -> & Ho & Hn' & Hf). exists d'. split; [done|].
  unfold dev_size in *. simpl in Hn'. split; [done|]. split; [congruence|done].
Qed.

Lemma disk_refl s : disk_ok s -> disk_becomes s s (blk s).
Proof. intros [Ho _]. exists (sfs_device s). by destruct s. Qed.

Lemma block_request data b rw : 0 <= b < 2 ^ 22 - 1 -> lenZ data = SFS_BLOCKSIZE ->
  sector_request (mk_kuio data SFS_BLOCKSIZE (b * SFS_BLOCKSIZE) rw) b data 0.
Proof.
  intros Hb Hl. unfold SFS_BLOCKSIZE in *. split; simpl; try done.
  - split; simpl; try done; lia.
  - unfold can_move, SECTSIZE, is_u32, is_s32. simpl. lia.
Qed.

(** A request for one block, on the device: its state and the request's after. *)
Lemma device_read s u b obj off :
  disk_ok s -> 0 <= b < dev_size s -> sector_request u b obj off -> uio_rw u = UIO_READ ->
  exists s', disk_becomes s s' (blk s) /\
    device_io (s, u) = Done (inr tt) (s', advanced u SECTSIZE (un_kbase (splice obj off (blk s b)) (off + SECTSIZE))).
Proof.
  intros [Ho Hs] Hb Hq Hrw.
  destruct (dev_read (sfs_device s) (fs_env (s, u)) b obj off Ho Hb Hq Hrw) as (d' & Hrun & Hok & Hn & Hsec).
  exists (set_device d' s). split; [by exists d'|]. unfold device_io, zoom. simpl. rewrite Hrun.
  unfold put_env, sector_moved, set_uio. simpl. by destruct s.
Qed.

Lemma device_write s u b obj off :
  disk_ok s -> 0 <= b < dev_size s -> sector_request u b obj off -> uio_rw u = UIO_WRITE -> bytes_ok obj ->
  exists s', disk_becomes s s' (fun k => if bool_decide (k = b) then slice obj off SECTSIZE else blk s k) /\
    device_io (s, u) = Done (inr tt) (s', advanced u SECTSIZE (un_kbase obj (off + SECTSIZE))).
Proof.
  intros [Ho Hs] Hb Hq Hrw Hby.
  destruct (dev_write (sfs_device s) (fs_env (s, u)) b obj off Ho Hb Hq Hrw Hby) as (d' & Hrun & Hok & Hn & Hsec).
  exists (set_device d' s). split; [by exists d'|]. unfold device_io, zoom. simpl. rewrite Hrun.
  unfold put_env, sector_moved, set_uio. simpl. by destruct s.
Qed.

Lemma rwblock_first s r s' : device_io s = Done (inr r) s' -> sfs_rwblock s = Done (inr tt) s'.
Proof. intros Hrun. unfold sfs_rwblock. cbn [rwblock_retry]. unfold bind. by rewrite Hrun. Qed.

(** [sfs_rblock] reads the block; only the device's own state can change. *)
Lemma wp_rblock data b (Q : errno + list Z -> fs -> Prop) s :
  disk_ok s -> 0 <= b < dev_size s -> lenZ data = SFS_BLOCKSIZE ->
  (forall s', disk_becomes s s' (blk s) -> Q (inr (blk s b)) s') ->
  wp (sfs_rblock data b) Q s.
Proof.
  intros Hd Hb Hl HQ. pose proof Hd as [Ho Hs].
  destruct (sector_ok (sfs_device s) b Ho Hb) as [Hbl _].
  unfold sfs_rblock, kernel_rwblock. apply wp_bind, wp_int_of.
  rewrite s32_id by (unfold is_s32; lia). split; [unfold is_s32, SFS_BLOCKSIZE; lia|].
  destruct (device_read s (mk_kuio data SFS_BLOCKSIZE (b * SFS_BLOCKSIZE) UIO_READ) b data 0)
    as (s' & Hs' & Hrun); [done|done|apply block_request; (done || lia)|done|].
  unfold wp. rewrite (rwblock_first _ _ _ Hrun). simpl.
  rewrite splice_full by (unfold blk in *; rewrite Hbl, Hl; done). by apply HQ.
Qed.

Lemma wp_wblock data b (Q : errno + unit -> fs -> Prop) s :
  disk_ok s -> 0 <= b < dev_size s -> lenZ data = SFS_BLOCKSIZE -> bytes_ok data ->
  (forall s', disk_becomes s s' (fun k => if bool_decide (k = b) then data else blk s k) -> Q (inr tt) s') ->
  wp (sfs_wblock data b) Q s.
Proof.
  intros Hd Hb Hl Hby HQ. pose proof Hd as [Ho Hs].
  unfold sfs_wblock, kernel_rwblock. apply wp_tbind, wp_bind, wp_int_of.
  rewrite s32_id by (unfold is_s32; lia). split; [unfold is_s32, SFS_BLOCKSIZE; lia|].
  destruct (device_write s (mk_kuio data SFS_BLOCKSIZE (b * SFS_BLOCKSIZE) UIO_WRITE) b data 0)
    as (s' & Hs' & Hrun); [done|done|apply block_request; (done || lia)|done|done|].
  unfold wp. rewrite (rwblock_first _ _ _ Hrun). simpl. apply HQ.
  change SECTSIZE with SFS_BLOCKSIZE in Hs'. rewrite <- Hl, slice_full in Hs'. done.
Qed.
End blocks.

(** ** A write that fails once *)

Section lost_write.
Context {H : Type} `{LhdCard H}.

(** The driver takes the data out of the request before it starts the card. *)
Lemma lhd_write_media lh e b data h' buf' :
  lh_clear lh = 1 -> lh_done lh = 0 -> lenZ (lh_buf lh) = LHD_SECTSIZE -> b < lh_blocks lh -> 0 <= b ->
  sector_request (xuio e) b data 0 -> uio_rw (xuio e) = UIO_WRITE -> lenZ data = SFS_BLOCKSIZE ->
  card_op (lh_card lh) true b data = (h', buf', LHD_MEDIA) ->
  lhd_io (lh, e) = Done (inl EIO)
    (mk_lhd h' buf' 0 b (Some EIO) 1 0 (lh_blocks lh), sector_moved e 0 data).
Proof.
  intros Rc Rd Rb Hb Hb0 [Hk Ho Hn Hc] Hrw Hl Hop. pose proof Hc as (_ & Hil & _ & _ & Hs1 & Hs2).
  unfold SECTSIZE, is_s32, SFS_BLOCKSIZE in *. unfold lhd_io, bind at 1, get at 1. cbv beta iota.
  change LHD_SECTSIZE with 512. rewrite Ho, Hn, Z.quot_mul, Z.rem_mul by lia. change (512 / 512) with 1.
  change (512 mod 512) with 0. change (u32 0) with 0. simpl. rewrite (u32_id b) by (unfold is_u32; lia).
  rewrite u32_id by (unfold is_u32; lia). destruct (Z.ltb_spec (lh_blocks lh) (b + 1)); [lia|].
  change (Z.to_nat 1) with 1%nat. cbn [for_]. rewrite Hrw, Z.add_0_r, u32_id by (unfold is_u32; lia).
  apply tbind_fail. unfold lhd_sector.
  rewrite (bind_done _ _ _ tt (set_clear 0 lh, e)).
  2:{ unfold on_lh, zoom, P_clear, bind, get. simpl. by rewrite Rc. }
  assert (move_buf (set_clear 0 lh, e) = Done (inr tt) (set_buf data (set_clear 0 lh), sector_moved e 0 data)) as Hmv.
  { unfold move_buf. rewrite (bind_done _ _ _ (set_clear 0 lh, e) (set_clear 0 lh, e)) by done.
    rewrite (bind_done _ _ _ (inr tt, data) (set_clear 0 lh, sector_moved e 0 data)); [done|].
    unfold zoom, uiomove_on. cbn [fst snd lh_buf set_clear].
    rewrite (uiomove_kernel 0 LHD_SECTSIZE (lh_buf lh) e data 0 Hk Hc) by lia. rewrite Hrw. simpl.
    change LHD_SECTSIZE with 512.
    assert (slice data 0 512 = data) as -> by (rewrite <- Hl; apply slice_full).
    rewrite splice_full by (rewrite Rb; exact Hl). done. }
  rewrite (bind_done _ _ _ _ _ Hmv). cbv beta iota. set (e' := sector_moved e 0 data).
  rewrite (bind_done _ _ _ tt (set_sect b (set_buf data (set_clear 0 lh)), e')) by done.
  set (lh1 := mk_lhd h' buf' 0 b (Some EIO) 0 1 (lh_blocks lh)).
  rewrite (bind_done _ _ _ tt (lh1, e')).
  2:{ unfold on_lh, zoom, lhd_start, lhd_upd, bind, get, put. simpl. rewrite Hop. simpl.
      unfold set_result, set_stat, set_done. simpl. by rewrite Rd. }
  rewrite (bind_done _ _ _ tt (set_done 0 lh1, e')) by done.
  rewrite (bind_done _ _ _ (set_done 0 lh1, e') (set_done 0 lh1, e')) by done. done.
Qed.

(** A request with nothing left is a success, without any transfer. *)
Lemma lhd_io_nothing_left lh e k :
  uio_resid (xuio e) = 0 -> uio_offset (xuio e) = k * SECTSIZE -> 0 <= k <= lh_blocks lh -> lh_blocks lh < 2 ^ 31 ->
  lhd_io (lh, e) = Done (inr tt) (lh, e).
Proof.
  intros Hr Ho Hk Hb. unfold lhd_io, bind, get. change LHD_SECTSIZE with 512. unfold SECTSIZE in Ho.
  rewrite Ho, Hr, Z.quot_mul, Z.rem_mul by lia. change (0 / 512) with 0. change (0 mod 512) with 0.
  change (u32 0) with 0. simpl. rewrite (u32_id k), u32_id by (unfold is_u32; lia).
  destruct (Z.ltb_spec (lh_blocks lh) (k + 0)); [lia|]. done.
Qed.
End lost_write.

(** ** Properties *)

(** A block write that meets one media error is reported as done although the
    disk was never written: the driver has already moved the data out of the
    request when the error comes back, so the retry in [sfs_rwblock] runs on a
    request with no bytes left, which the driver answers with success without
    starting the card. *)
Theorem sfs_write_retry_loses_data {H} `{LhdCard H} (s : sfs_fs (lhd_softc H)) (b : Z) (data : list Z) (h' : H) (buf' : list Z) :
  let lh := sfs_device s in
  lh_clear lh = 1 -> lh_done lh = 0 -> lenZ (lh_buf lh) = LHD_SECTSIZE ->
  0 <= b < lh_blocks lh -> lh_blocks lh < 2 ^ 22 -> lenZ data = SFS_BLOCKSIZE ->
  card_op (lh_card lh) true b data = (h', buf', LHD_MEDIA) ->
  exists s', sfs_wblock data b s = Done (inr tt) s' /\ lh_card (sfs_device s') = h'.
Proof.
  intros lh Rc Rd Rb Hb Hmax Hl Hop.
  set (ku := mk_kuio data SFS_BLOCKSIZE (b * SFS_BLOCKSIZE) UIO_WRITE).
  set (lh1 := mk_lhd h' buf' 0 b (Some EIO) 1 0 (lh_blocks lh)).
  set (e1 := sector_moved (fs_env (s, ku)) 0 data).
  assert (sector_request ku b data 0) as Hq.
  { split; simpl; try done; [split; simpl; try done; lia|].
    unfold can_move, ku, mk_kuio. simpl. unfold SECTSIZE, is_u32, is_s32, SFS_BLOCKSIZE. lia. }
  exists (set_umem (sfs_umem s) (set_device lh1 s)). split; [|done].
  unfold sfs_wblock, kernel_rwblock. unfold tbind at 1, bind at 1 2, int_of.
  rewrite s32_id by (unfold is_s32; lia). unfold SFS_BLOCKSIZE in *.
  rewrite bool_decide_true by lia. unfold ret at 1. fold ku.
  assert (sfs_rwblock (s, ku) = Done (inr tt) (set_umem (sfs_umem s) (set_device lh1 s), xuio e1)) as Hrun.
  { unfold sfs_rwblock. cbn [rwblock_retry]. unfold bind at 1. unfold device_io at 1, zoom at 1.
    change (d_io (BlockDevice := lhd_device)) with (lhd_io (H := H)). cbn [fst snd].
    rewrite (lhd_write_media lh (fs_env (s, ku)) b data h' buf') by (done || lia). simpl.
    unfold bind at 1, device_io at 1, zoom at 1. cbn [fst snd put_env].
    change (d_io (BlockDevice := lhd_device)) with (lhd_io (H := H)).
    rewrite (lhd_io_nothing_left _ _ (b + 1)); [done| | | |]; simpl; unfold SECTSIZE; lia. }
  rewrite Hrun. done.
Qed.

Definition demo_fs {H} `{LhdCard H} (h : H) : sfs_fs (lhd_softc H) :=
  mk_fs (mk_super SFS_MAGIC 64 [] []) false (fresh_lhd h) (mk_array 0 0 None) (mk_bitmap 64 []) false ∅ ∅ None.

Lemma sfs_write_retry_loses_data_witness :
  exists s', sfs_wblock (replicate 512 7) 5 (demo_fs (mk_flaky ∅ 1)) = Done (inr tt) s' /\
             lh_card (sfs_device s') = mk_flaky ∅ 0.
Proof.
  apply (sfs_write_retry_loses_data (demo_fs (mk_flaky ∅ 1)) 5 (replicate 512 7) (mk_flaky ∅ 0) (replicate 512 7));
    try reflexivity; simpl; lia.
Defined.
