(* ===== verification/SfsTree.v ===== *)
(** * The tree of blocks of a file.

    The specification side of [sfs_bmap]: every place of an inode's direct,
    indirect and double indirect area where a block number can stand is a [node];
    [val] reads the number there, given the contents of the disk. The file is well
    formed when no block stands at two nodes and every block is in use. Putting a
    fresh, cleared block at an empty node changes the value of that node only. *)

From stdpp Require Import base numbers list.
From Stdlib Require Import ZArith Lia.
From S2P Require Import Prelude Mem SfsDisk.

Inductive node : Type :=
| NDir (k : Z)            (* sfi_direct[k] *)
| NInd                    (* sfi_indirect *)
| NInd1 (k : Z)           (* entry k of the indirect block *)
| NDbl                    (* sfi_doubleindirect *)
| NDbl1 (k : Z)           (* entry k of the double indirect block *)
| NDbl2 (k j : Z).        (* entry j of the block at NDbl1 k *)

#[export] Instance node_eq_dec : EqDecision node.
Proof. solve_decision. Defined.

Definition valid (n : node) : Prop :=
  match n with
  | NDir k => 0 <= k < SFS_NDIRECT
  | NInd | NDbl => True
  | NInd1 k | NDbl1 k => 0 <= k < SFS_DBPERIDB
  | NDbl2 k j => 0 <= k < SFS_DBPERIDB /\ 0 <= j < SFS_DBPERIDB
  end.

(** The node that holds a data block, by number of the block in the file. *)
Definition leaf_of (fileblock : Z) : node :=
  if fileblock <? 15 then NDir fileblock
  else if fileblock <? 15 + 128 then NInd1 (fileblock - 15)
  else NDbl2 ((fileblock - 143) / 128) ((fileblock - 143) mod 128).

Definition is_leaf (n : node) : Prop :=
  match n with NDir _ | NInd1 _ | NDbl2 _ _ => True | _ => False end.

(** Files this long never reach the triple indirect block. *)
Definition max_double : Z := 15 + 128 + 128 * 128.

Definition parent (n : node) : option (node * Z) :=
  match n with
  | NDir _ | NInd | NDbl => None
  | NInd1 k => Some (NInd, k)
  | NDbl1 k => Some (NDbl, k)
  | NDbl2 k j => Some (NDbl1 k, j)
  end.

Definition root (i : sfs_inode) (n : node) : Z :=
  match n with
  | NDir k => default 0 (nthZ (sfi_direct i) k)
  | NInd => sfi_indirect i
  | NDbl => sfi_doubleindirect i
  | _ => 0
  end.

(** Entry [k] of the pointer block [b] (0 is "no block"). *)
Definition entry (f : Z -> list Z) (b k : Z) : Z :=
  if b =? 0 then 0 else default 0 (nthZ (words (f b)) k).

Definition val (i : sfs_inode) (f : Z -> list Z) (n : node) : Z :=
  match n with
  | NInd1 k => entry f (sfi_indirect i) k
  | NDbl1 k => entry f (sfi_doubleindirect i) k
  | NDbl2 k j => entry f (entry f (sfi_doubleindirect i) k) j
  | _ => root i n
  end.

Lemma val_child i f n q k : parent n = Some (q, k) -> val i f n = entry f (val i f q) k.
Proof. destruct n; simpl; intros [= <- <-]; done. Qed.

Lemma val_root i f n : parent n = None -> val i f n = root i n.
Proof. by destruct n. Qed.

Lemma parent_inj n m q k : parent n = Some (q, k) -> parent m = Some (q, k) -> n = m.
Proof. destruct n, m; simpl; congruence. Qed.

Lemma parent_valid n q k : valid n -> parent n = Some (q, k) -> valid q /\ 0 <= k < SFS_DBPERIDB.
Proof. destruct n; simpl; intros Hv [= <- <-]; simpl; tauto. Qed.

Lemma leaf_of_valid fb : 0 <= fb < max_double -> valid (leaf_of fb) /\ is_leaf (leaf_of fb).
Proof.
  unfold max_double, leaf_of. intros Hf. destruct (Z.ltb_spec fb 15); [simpl; unfold SFS_NDIRECT; split; [lia|done]|].
  destruct (Z.ltb_spec fb (15 + 128)); [simpl; unfold SFS_DBPERIDB; split; [lia|done]|].
  split; [|done]. simpl. unfold SFS_DBPERIDB. split.
  - split; [apply Z.div_pos; lia|apply Z.div_lt_upper_bound; lia].
  - apply Z.mod_pos_bound. lia.
Qed.

Lemma leaf_of_inj a b : 0 <= a < max_double -> 0 <= b < max_double -> leaf_of a = leaf_of b -> a = b.
Proof.
  unfold leaf_of. intros Ha Hb. destruct (Z.ltb_spec a 15), (Z.ltb_spec b 15); try done; [congruence|..];
    destruct (Z.ltb_spec a (15 + 128)), (Z.ltb_spec b (15 + 128)); try done;
    intros [=]; try lia.
  pose proof (Z.div_mod (a - 143) 128). pose proof (Z.div_mod (b - 143) 128). lia.
Qed.

(** ** Well-formed files *)

(** No block at two nodes; every block in use. *)
Record tree_ok (i : sfs_inode) (f : Z -> list Z) (used : Z -> Prop) : Prop := {
  tree_used n : valid n -> val i f n <> 0 -> used (val i f n);
  tree_inj n m : valid n -> valid m -> val i f n = val i f m -> val i f n <> 0 -> n = m;
}.

Lemma tree_update i f used i' f' used' t b :
  tree_ok i f used -> ~ used b -> used' b -> (forall x, used x -> used' x) ->
  (forall n, valid n -> val i' f' n = if decide (n = t) then b else val i f n) ->
  tree_ok i' f' used'.
Proof.
  intros [Hu Hi] Hb Hb' Hm Hv. split.
  - intros n Hn. rewrite Hv by done. case_decide; [done|]. intros Hnz. by apply Hm, Hu.
  - intros n m Hn Hm'. rewrite !Hv by done. repeat case_decide; subst; try done.
    + intros -> Hnz. destruct Hb. by apply Hu.
    + intros He Hnz. destruct Hb. rewrite <- He. by apply Hu.
    + apply Hi; done.
Qed.

Lemma words_zero_block : words zero_block = zero_words.
Proof. reflexivity. Qed.

Lemma entry_zero_block f b k : f b = zero_block -> entry f b k = 0.
Proof.
  intros Hf. unfold entry. destruct (b =? 0); [done|]. rewrite Hf, words_zero_block.
  destruct (nthZ zero_words k) as [x|] eqn:Hx; [|done]. pose proof (nthZ_Some_lt _ _ _ Hx) as Hl.
  unfold zero_words in *. rewrite lenZ_replicate in Hl. rewrite nthZ_replicate in Hx by lia. simpl. congruence.
Qed.

(** Attaching the fresh block [b] at the empty node [t]: [f'] has [b] cleared, and,
    when [t] has a parent block [pb], its entry there set; nothing else differs. *)
Definition attached (i : sfs_inode) (f : Z -> list Z) (t : node) (b : Z) (i' : sfs_inode) (f' : Z -> list Z) : Prop :=
  f' b = zero_block /\
  match parent t with
  | None => (forall n, parent n = None -> valid n -> root i' n = if decide (n = t) then b else root i n) /\
            forall x, x <> b -> f' x = f x
  | Some (q, k) =>
      (forall n, parent n = None -> root i' n = root i n) /\
      words (f' (val i f q)) = setZ (words (f (val i f q))) k b /\
      lenZ (words (f (val i f q))) = SFS_DBPERIDB /\
      forall x, x <> b -> x <> val i f q -> f' x = f x
  end.

Section attach.
Context (i : sfs_inode) (f : Z -> list Z) (used : Z -> Prop) (t : node) (b : Z)
        (i' : sfs_inode) (f' : Z -> list Z).
Hypothesis Hok : tree_ok i f used.
Hypothesis Hfresh : ~ used b.
Hypothesis Hb0 : b <> 0.
Hypothesis Ht : valid t.
Hypothesis Hempty : val i f t = 0.
Hypothesis Hparent : forall q k, parent t = Some (q, k) -> val i f q <> 0.
Hypothesis Hatt : attached i f t b i' f'.

Definition value_ok (n : node) : Prop := val i' f' n = if decide (n = t) then b else val i f n.

Lemma value_root n : valid n -> parent n = None -> value_ok n.
Proof.
  intros Hn Hp. unfold value_ok. rewrite !val_root by done.
  destruct Hatt as [_ H]. destruct (parent t) as [[q k]|] eqn:Hpt.
  - destruct H as (Hr & _). rewrite Hr by done. by rewrite decide_False by congruence.
  - destruct H as (Hr & _). by apply Hr.
Qed.

(** The entries of a pointer block that is not touched. *)
Lemma entry_other q k : valid q -> (forall q' k', parent t = Some (q', k') -> q' <> q) ->
  entry f' (val i f q) k = entry f (val i f q) k.
Proof.
  intros Hq Hne. unfold entry. destruct (Z.eqb_spec (val i f q) 0) as [|H0]; [done|].
  pose proof (tree_used _ _ _ Hok q Hq H0) as Hu.
  assert (val i f q <> b) as Hb by (intros He; apply Hfresh; by rewrite <- He).
  destruct Hatt as [_ H]. destruct (parent t) as [[q' k']|] eqn:Hpt.
  - destruct H as (_ & _ & _ & Hx). rewrite Hx; [done|done|]. intros He.
    apply (Hne q' k' eq_refl). symmetry. destruct (parent_valid t q' k' Ht Hpt) as [Hq' _].
    by apply (tree_inj _ _ _ Hok).
  - destruct H as (_ & Hx). by rewrite Hx.
Qed.

Lemma value_child n q k : valid n -> parent n = Some (q, k) -> value_ok q -> value_ok n.
Proof.
  intros Hn Hp Hq. unfold value_ok in *. destruct (parent_valid n q k Hn Hp) as [Hvq Hk].
  rewrite (val_child i' f' n q k Hp), (val_child i f n q k Hp), Hq. case_decide as Hqt.
  - subst q. destruct Hatt as [Hz _]. rewrite entry_zero_block by done.
    rewrite decide_False.
    + rewrite Hempty. done.
    + intros ->. destruct t; simpl in Hp; congruence.
  - destruct (decide (fst <$> parent t = Some q)) as [Hpt|Hne].
    + apply fmap_Some in Hpt as ([q0 k'] & Hpt & Hq0). simpl in Hq0. subst q0.
      pose proof (Hparent q k' Hpt) as H0. destruct Hatt as [_ H]. rewrite Hpt in H.
      destruct H as (_ & Hw & Hl & _). destruct (parent_valid t q k' Ht Hpt) as [_ Hk'].
      unfold entry. rewrite (proj2 (Z.eqb_neq _ 0) H0), Hw.
      destruct (decide (n = t)) as [->|Hnt].
      * assert (k = k') as -> by congruence. by rewrite nthZ_setZ_eq by lia.
      * rewrite nthZ_setZ_ne; [done|]. intros ->. apply Hnt. by eapply parent_inj.
    + rewrite entry_other; [|done|].
      * rewrite decide_False; [done|]. intros ->. apply Hne. by rewrite Hp.
      * intros q' k' Hpt ->. apply Hne. by rewrite Hpt.
Qed.

Lemma attach_value n : valid n -> value_ok n.
Proof.
  intros Hn. destruct (parent n) as [[q k]|] eqn:Hp; [|by apply value_root].
  destruct (parent_valid n q k Hn Hp) as [Hq _]. apply (value_child n q k Hn Hp).
  destruct (parent q) as [[q' k']|] eqn:Hpq; [|by apply value_root].
  destruct (parent_valid q q' k' Hq Hpq) as [Hq' _]. apply (value_child q q' k' Hq Hpq).
  apply value_root; [done|]. destruct n; simpl in Hp; simplify_eq; simpl in Hpq; simplify_eq; done.
Qed.

Lemma attach_tree used' : used' b -> (forall x, used x -> used' x) -> tree_ok i' f' used'.
Proof. intros Hb Hm. eapply tree_update; [exact Hok|exact Hfresh|done|done|]. exact attach_value. Qed.
End attach.
