(* ===== verification/SfsBmap.v ===== *)
(** * Space allocation and the block map of SFS (assignment 3's sfs_vnode.c).

    [sfs_bmap] finds the disk block of a block of a file through the direct,
    indirect, double and triple indirect pointers of the inode. Its two nested
    functions work on the same local variables; here [loadbuffer] takes and returns
    [idblock] and the block buffer, [get_block] the buffer and the block. *)

From stdpp Require Import base numbers list gmap.
From Stdlib Require Import ZArith Lia.
From S2P Require Import Prelude Mem CopyInOut Uio BlockDev Lhd Bitmap Array Vnode SfsDisk SfsIo SfsTree.

Section bmap.
Context {D : Type} `{BlockDevice D}.
Notation fs := (sfs_fs D).

(** ** The vnode a pointer points to *)

Definition get_sv (p : ptr) : M fs sfs_vnode := let! s := get in of_option (sfs_heap s !! p).
Definition put_sv (p : ptr) (sv : sfs_vnode) : M fs unit :=
  let! s := get in put (set_heap (<[p := sv]> (sfs_heap s)) s).

Definition set_inode (i : sfs_inode) (dirty : bool) (sv : sfs_vnode) : sfs_vnode :=
  mk_sv (sv_v sv) i (sv_ino sv) dirty.

Definition with_size (n : Z) (i : sfs_inode) : sfs_inode :=
  mk_inode n (sfi_type i) (sfi_linkcount i) (sfi_direct i) (sfi_indirect i)
    (sfi_doubleindirect i) (sfi_tripleindirect i) (sfi_waste i) (sfi_blocks i).
Definition with_type (t : Z) (i : sfs_inode) : sfs_inode :=
  mk_inode (sfi_size i) t (sfi_linkcount i) (sfi_direct i) (sfi_indirect i)
    (sfi_doubleindirect i) (sfi_tripleindirect i) (sfi_waste i) (sfi_blocks i).
Definition with_linkcount (n : Z) (i : sfs_inode) : sfs_inode :=
  mk_inode (sfi_size i) (sfi_type i) n (sfi_direct i) (sfi_indirect i)
    (sfi_doubleindirect i) (sfi_tripleindirect i) (sfi_waste i) (sfi_blocks i).
Definition with_direct (d : list Z) (i : sfs_inode) : sfs_inode :=
  mk_inode (sfi_size i) (sfi_type i) (sfi_linkcount i) d (sfi_indirect i)
    (sfi_doubleindirect i) (sfi_tripleindirect i) (sfi_waste i) (sfi_blocks i).
Definition with_indirects (a b c : Z) (i : sfs_inode) : sfs_inode :=
  mk_inode (sfi_size i) (sfi_type i) (sfi_linkcount i) (sfi_direct i) a b c (sfi_waste i) (sfi_blocks i).
(** [sfi_blocks += n] *)
Definition add_blocks (n : Z) (i : sfs_inode) : sfs_inode :=
  mk_inode (sfi_size i) (sfi_type i) (sfi_linkcount i) (sfi_direct i) (sfi_indirect i)
    (sfi_doubleindirect i) (sfi_tripleindirect i) (sfi_waste i) (u32 (sfi_blocks i + n)).

(** Changing the inode of a loaded vnode: the new inode, and whether it is dirty now. *)
Definition upd_inode (p : ptr) (f : sfs_inode -> sfs_inode) : M fs unit :=
  let! sv := get_sv p in put_sv p (set_inode (f (sv_i sv)) (sv_dirty sv) sv).
Definition mark_dirty (p : ptr) : M fs unit :=
  let! sv := get_sv p in put_sv p (set_inode (sv_i sv) true sv).

(** ** Blocks *)

Definition sfs_clearblock (block : Z) : E fs unit := sfs_wblock zero_block block.

Definition sfs_sync_inode (p : ptr) : E fs unit :=
  let! sv := get_sv p in
  if sv_dirty sv then
    try! _ := sfs_wblock (enc_inode (sv_i sv)) (sv_ino sv) in
    let! sv := get_sv p in
    do! put_sv p (set_inode (sv_i sv) false sv) in
    ok tt
  else ok tt.

Definition on_freemap {A} (m : M bitmap A) : M fs A :=
  zoom sfs_freemap (fun b s => set_freemap b (sfs_freemapdirty s) s) m.
Definition freemap_dirty : M fs unit :=
  let! s := get in put (set_freemap (sfs_freemap s) true s).

Definition sfs_balloc : E fs Z :=
  try! diskblock := on_freemap bitmap_alloc in
  do! freemap_dirty in
  let! s := get in
  if sp_nblocks (sfs_super_ s) <=? diskblock then panic
  else
    try! _ := sfs_clearblock diskblock in
    ok diskblock.

Definition sfs_bfree (diskblock : Z) : M fs unit :=
  do! on_freemap (bitmap_unmark diskblock) in
  freemap_dirty.

Definition sfs_bused (diskblock : Z) : M fs bool :=
  let! s := get in
  if sp_nblocks (sfs_super_ s) <=? diskblock then panic
  else
    let! r := on_freemap (bitmap_isset diskblock) in
    ret (negb (r =? 0)).

(** ** sfs_bmap *)

(** The inode's pointer of the given indirection level, and replacing it. *)
Definition set_idpointer (idblevel block : Z) (i : sfs_inode) : sfs_inode :=
  if idblevel =? 1 then with_indirects block (sfi_doubleindirect i) (sfi_tripleindirect i) i
  else if idblevel =? 2 then with_indirects (sfi_indirect i) block (sfi_tripleindirect i) i
  else if idblevel =? 3 then with_indirects (sfi_indirect i) (sfi_doubleindirect i) block i
  else i.

Definition loadbuffer (p : ptr) (idblevel idblock block level : Z) : E fs (Z * list Z) :=
  if block =? 0 then
    try! block := sfs_balloc in
    do! upd_inode p (add_blocks 1) in
    do! (if level =? 0 then upd_inode p (set_idpointer idblevel block) else ret tt) in
    do! mark_dirty p in
    ok (block, zero_words)
  else
    try! bytes := sfs_rblock zero_block block in
    ok (idblock, words bytes).

Definition get_block (p : ptr) (doalloc : bool) (idblock : Z) (blockbuf : list Z) (blockno : Z)
  : E fs (Z * list Z) :=
  let! block := of_option (nthZ blockbuf blockno) in
  if (block =? 0) && doalloc then
    try! block := sfs_balloc in
    do! upd_inode p (add_blocks 1) in
    let blockbuf := setZ blockbuf blockno block in
    try! _ := sfs_wblock (unwords blockbuf) idblock in
    ok (block, blockbuf)
  else ok (block, blockbuf).

(** [if (block != 0 && !sfs_bused(sfs, block)) panic(...); *diskblock = block;] *)
Definition hand_back (block : Z) : E fs Z :=
  if block =? 0 then ok block
  else
    let! used := sfs_bused block in
    if used then ok block else panic.

Definition bmap_direct (p : ptr) (fileblock : Z) (doalloc : bool) : E fs Z :=
  let! sv := get_sv p in
  let! block := of_option (nthZ (sfi_direct (sv_i sv)) fileblock) in
  try! block :=
    (if (block =? 0) && doalloc then
       try! block := sfs_balloc in
       do! upd_inode p (add_blocks 1) in
       do! upd_inode p (fun i => with_direct (setZ (sfi_direct i) fileblock block) i) in
       do! mark_dirty p in
       ok block
     else ok block) in
  hand_back block.

(** From one pointer block to the next: its entry is loaded as the next buffer. *)
Definition next_level (p : ptr) (idblevel : Z) (doalloc : bool) (idblock : Z) (buf : list Z) (blockno : Z)
  : E fs (Z * list Z) :=
  try! r := get_block p doalloc idblock buf blockno in
  let block := fst r in
  loadbuffer p idblevel block block 1.

Definition sfs_bmap (p : ptr) (fileblock : Z) (doalloc : bool) : E fs Z :=
  if fileblock <? SFS_NDIRECT then bmap_direct p fileblock doalloc
  else
    let! sv := get_sv p in
    let DB := SFS_DBPERIDB in
    let fileblock := fileblock - SFS_NDIRECT in
    let idnum := fileblock / (DB + DB * DB + DB * DB * DB) in
    if 0 <? idnum then fail EINVAL
    else
      let idblevel := if DB * DB + DB <=? fileblock then 3 else if DB <=? fileblock then 2 else 1 in
      let '(fileblock, idblock) :=
        if idblevel =? 1 then (fileblock, sfi_indirect (sv_i sv))
        else if idblevel =? 2 then (fileblock - DB, sfi_doubleindirect (sv_i sv))
        else (fileblock - (DB * DB - DB), sfi_tripleindirect (sv_i sv)) in
      if (idblock =? 0) && negb doalloc then ok 0
      else
        try! r := loadbuffer p idblevel idblock idblock 0 in
        let '(idblock, blockbuf) := r in
        try! r :=
          (if idblevel =? 1 then get_block p doalloc idblock blockbuf (fileblock mod DB)
           else if idblevel =? 2 then
             try! r := next_level p idblevel doalloc idblock blockbuf (fileblock / DB) in
             get_block p doalloc (fst r) (snd r) (fileblock mod DB)
           else
             try! r := next_level p idblevel doalloc idblock blockbuf (fileblock / (DB * DB)) in
             try! r := next_level p idblevel doalloc (fst r) (snd r) (fileblock / DB) in
             get_block p doalloc (fst r) (snd r) (fileblock mod DB)) in
        hand_back (fst r).
End bmap.

(** ** The file system's invariant *)

Section alloc_correct.
Context {D : Type} {B : BlockDevice D} {R : ReliableDevice B}.
Notation fs := (sfs_fs D).

Definition nblocks (s : fs) : Z := sp_nblocks (sfs_super_ s).

(** The disk works, the free map covers the volume, and what mksfs marks in use is
    in use: the superblock and the bits beyond the end of the volume. *)
Record fs_inv (s : fs) : Prop := {
  fi_disk : disk_ok s;
  fi_map : wf (sfs_freemap s);
  fi_size : 0 < nblocks s <= dev_size s;
  fi_covers : nblocks s <= nbits (sfs_freemap s);
  fi_super : bit (sfs_freemap s) 0 = true;
  fi_tail : forall i, nblocks s <= i < nbits (sfs_freemap s) -> bit (sfs_freemap s) i = true;
}.

Definition used (s : fs) (b : Z) : Prop := 0 <= b < nblocks s /\ bit (sfs_freemap s) b = true.

(** Everything of the state but the disk, the free map and the vnodes. *)
Definition same_rest (s s' : fs) : Prop :=
  sfs_super_ s' = sfs_super_ s /\ sfs_superdirty s' = sfs_superdirty s /\ sfs_vnodes s' = sfs_vnodes s /\
  sfs_umem s' = sfs_umem s /\ sfs_space s' = sfs_space s /\ dev_size s' = dev_size s.

Lemma same_rest_refl s : same_rest s s.
Proof. done. Qed.

Lemma same_rest_trans s1 s2 s3 : same_rest s1 s2 -> same_rest s2 s3 -> same_rest s1 s3.
Proof.
  intros (? & ? & ? & ? & ? & ?) (? & ? & ? & ? & ? & ?). unfold same_rest. split_and!; congruence.
Qed.

Lemma disk_becomes_rest s s' f : disk_becomes s s' f -> same_rest s s'.
Proof. intros (d & -> & _ & Hn & _). done. Qed.

Lemma disk_becomes_inv s s' f : fs_inv s -> disk_becomes s s' f -> fs_inv s'.
Proof.
  intros [] Hd. pose proof (disk_becomes_ok _ _ _ fi_disk0 Hd). pose proof (disk_becomes_size _ _ _ Hd) as Hs.
  destruct Hd as (d & -> & _). split; try done. rewrite Hs. exact fi_size0.
Qed.

Lemma disk_becomes_used s s' f b : disk_becomes s s' f -> used s' b <-> used s b.
Proof. by intros (d & -> & _). Qed.

Lemma disk_becomes_heap s s' f : disk_becomes s s' f -> sfs_heap s' = sfs_heap s.
Proof. by intros (d & -> & _). Qed.

Lemma heap_inv s h : fs_inv s -> fs_inv (set_heap h s).
Proof. by intros []; split. Qed.

Lemma used_range s b : fs_inv s -> used s b -> 0 <= b < dev_size s.
Proof. intros Hi [Hb _]. pose proof (fi_size _ Hi). lia. Qed.

Lemma zero_block_bytes : bytes_ok zero_block.
Proof. apply Forall_replicate. unfold is_u8. lia. Qed.

Lemma blk_ok s b : fs_inv s -> 0 <= b < dev_size s -> lenZ (blk s b) = SFS_BLOCKSIZE /\ bytes_ok (blk s b).
Proof. intros Hi Hb. destruct (fi_disk _ Hi) as [Ho _]. by apply (sector_ok (sfs_device s) b). Qed.

(** What an allocation does. *)
Definition balloc_post (s : fs) (r : errno + Z) (s' : fs) : Prop :=
  match r with
  | inr b => ~ used s b /\ 0 < b < nblocks s /\ fs_inv s' /\ sfs_heap s' = sfs_heap s /\ same_rest s s' /\
             (forall x, used s' x <-> used s x \/ x = b) /\
             forall k, blk s' k = if bool_decide (k = b) then zero_block else blk s k
  | inl e => e = ENOSPC /\ s' = s /\ forall b, 0 <= b < nblocks s -> used s b
  end.

Lemma freemap_alloc_inv s i : fs_inv s -> 0 <= i < nbits (sfs_freemap s) -> bit (sfs_freemap s) i = false ->
  0 < i < nblocks s /\ fs_inv (set_freemap (set_bit (sfs_freemap s) i true) true s) /\
  forall x, used (set_freemap (set_bit (sfs_freemap s) i true) true s) x <-> used s x \/ x = i.
Proof.
  intros [] Hi Hc.
  assert (0 < i < nblocks s) as Hr.
  { split.
    - destruct (decide (i = 0)) as [->|]; [congruence|lia].
    - destruct (Z.lt_ge_cases i (nblocks s)) as [|Hge]; [done|]. rewrite fi_tail0 in Hc by lia. done. }
  assert (forall j, bit (set_bit (sfs_freemap s) i true) j = if decide (i = j) then true else bit (sfs_freemap s) j) as Hb.
  { intros j. apply bit_set_bit. by apply (index_in_words (sfs_freemap s) i). }
  split; [done|]. split.
  - split; try done; simpl.
    + by apply wf_set_bit.
    + by rewrite nbits_set_bit.
    + rewrite Hb. by case_decide.
    + rewrite nbits_set_bit. intros j Hj. rewrite Hb. case_decide; [done|]. by apply fi_tail0.
  - intros x. unfold used. simpl. rewrite Hb. change (nblocks (set_freemap _ _ s)) with (nblocks s).
    case_decide; naive_solver.
Qed.

Lemma set_freemap_twice b d b' d' (s : fs) : set_freemap b d (set_freemap b' d' s) = set_freemap b d s.
Proof. done. Qed.

Lemma balloc_correct s : fs_inv s -> wp sfs_balloc (balloc_post s) s.
Proof.
  intros Hi. unfold sfs_balloc. apply wp_tbind. unfold on_freemap. apply wp_zoom.
  eapply wp_mono; [apply alloc_correct, (fi_map _ Hi)|].
  intros [e|i] b' Hpost.
  - destruct Hpost as (-> & -> & Hfull). split; [done|]. split; [by destruct s|].
    intros b Hb. pose proof (fi_covers _ Hi). split; [lia|]. apply Hfull. lia.
  - destruct Hpost as (Hr & Hc & _ & ->).
    destruct (freemap_alloc_inv s i Hi Hr Hc) as (Hrange & Hinv & Hused). cbv beta iota.
    unfold freemap_dirty. wp_steps. simpl. rewrite set_freemap_twice. fold (nblocks s).
    destruct (Z.leb_spec (nblocks s) i); [lia|]. wp_step. simpl.
    set (s1 := set_freemap (set_bit (sfs_freemap s) i true) true s) in *.
    pose proof (fi_size _ Hi).
    apply wp_wblock; [by apply fi_disk|change (dev_size s1) with (dev_size s); lia|done|apply zero_block_bytes|].
    intros s' Hd. wp_steps. split; [intros [_ Hu]; congruence|]. split; [done|].
    split; [by eapply disk_becomes_inv|]. split; [by rewrite (disk_becomes_heap _ _ _ Hd)|].
    split; [apply (same_rest_trans _ s1); [done|by eapply disk_becomes_rest]|].
    split; [intros x; rewrite (disk_becomes_used _ _ _ _ Hd); apply Hused|].
    intros k. by rewrite (disk_becomes_blk _ _ _ _ Hd).
Qed.

Lemma bused_correct s b : fs_inv s -> used s b -> wp (sfs_bused b) (fun r s' => r = true /\ s' = s) s.
Proof.
  intros Hi [Hb Hu]. unfold sfs_bused. wp_step. unfold wp at 1, get. fold (nblocks s).
  destruct (Z.leb_spec (nblocks s) b); [lia|]. wp_step. unfold on_freemap. apply wp_zoom.
  pose proof (fi_covers _ Hi).
  destruct (isset_bit (sfs_freemap s) b (fi_map _ Hi)) as (z & Hrun & Hz); [lia|].
  eapply wp_of_eq; [exact Hrun|]. wp_steps. split; [|by destruct s].
  apply negb_true_iff, Z.eqb_neq. by apply Hz.
Qed.

Lemma bfree_correct s b : fs_inv s -> used s b -> b <> 0 ->
  wp (sfs_bfree b) (fun _ s' => fs_inv s' /\ sfs_heap s' = sfs_heap s /\ same_rest s s' /\
                      (forall x, used s' x <-> used s x /\ x <> b) /\ forall k, blk s' k = blk s k) s.
Proof.
  intros Hi [Hb Hu] Hb0. pose proof (fi_covers _ Hi). pose proof (fi_map _ Hi) as Hwf.
  unfold sfs_bfree. wp_step. unfold on_freemap. apply wp_zoom.
  eapply wp_of_eq; [rewrite unmark_run by (done || lia); by rewrite Hu|].
  unfold freemap_dirty. wp_steps. simpl. rewrite set_freemap_twice.
  assert (forall j, bit (set_bit (sfs_freemap s) b false) j = if decide (b = j) then false else bit (sfs_freemap s) j) as Hbit.
  { intros j. apply bit_set_bit. apply (index_in_words (sfs_freemap s) b); [done|lia]. }
  split; [destruct Hi; split; try done; simpl|].
  - apply wf_set_bit; [done|lia].
  - by rewrite nbits_set_bit.
  - rewrite Hbit. by case_decide.
  - rewrite nbits_set_bit. intros j Hj. rewrite Hbit. case_decide; [|by apply fi_tail0].
    subst. unfold nblocks in Hj, Hb. simpl in Hj. lia.
  - split; [done|]. split; [done|]. split; [|done]. intros x. unfold used. simpl. rewrite Hbit.
    change (nblocks (set_freemap _ _ _)) with (nblocks s). case_decide; naive_solver.
Qed.
End alloc_correct.

(** ** A file and its growth *)

Section bmap_correct.
Context {D : Type} {B : BlockDevice D} {R : ReliableDevice B}.
Notation fs := (sfs_fs D).

Definition fval (s : fs) (sv : sfs_vnode) (n : node) : Z := val (sv_i sv) (blk s) n.

(** The loaded vnode at [p] is [sv], and its file is well formed. *)
Record file_at (s : fs) (p : ptr) (sv : sfs_vnode) : Prop := {
  fa_heap : sfs_heap s !! p = Some sv;
  fa_inode : inode_ok (sv_i sv);
  fa_tree : tree_ok (sv_i sv) (blk s) (used s);
}.

(** Nothing of a vnode but block pointers, block count and dirtiness differs. *)
Definition same_meta (sv sv' : sfs_vnode) : Prop :=
  sv_v sv' = sv_v sv /\ sv_ino sv' = sv_ino sv /\ sfi_size (sv_i sv') = sfi_size (sv_i sv) /\
  sfi_type (sv_i sv') = sfi_type (sv_i sv) /\ sfi_linkcount (sv_i sv') = sfi_linkcount (sv_i sv).

(** From [s] to [s'] the file at [p] may have got blocks: nodes that had a block
    keep it, a new data block reads as zeros, a new block was free before, and no
    block in use is written except the file's own pointer blocks. *)
Record grows (s s' : fs) (p : ptr) (sv sv' : sfs_vnode) : Prop := {
  gr_inv : fs_inv s';
  gr_file : file_at s' p sv';
  gr_heap : sfs_heap s' = <[p := sv']> (sfs_heap s);
  gr_rest : same_rest s s';
  gr_meta : same_meta sv sv';
  gr_used x : used s x -> used s' x;
  gr_keep n : valid n -> fval s sv n <> 0 -> fval s' sv' n = fval s sv n;
  gr_fresh n : valid n -> fval s sv n = 0 -> fval s' sv' n <> 0 -> ~ used s (fval s' sv' n);
  gr_zero n : valid n -> is_leaf n -> fval s sv n = 0 -> fval s' sv' n <> 0 -> blk s' (fval s' sv' n) = zero_block;
  gr_frame x : used s x -> (forall n, valid n -> ~ is_leaf n -> fval s sv n <> x) -> blk s' x = blk s x;
}.

Lemma same_meta_refl sv : same_meta sv sv.
Proof. done. Qed.

Lemma grows_refl s p sv : fs_inv s -> file_at s p sv -> grows s s p sv sv.
Proof.
  intros Hi Hf. split; try done.
  by rewrite insert_id by apply Hf.
Qed.

Lemma val_disk i f g n : (forall b, f b = g b) -> val i f n = val i g n.
Proof. intros H. destruct n; simpl; unfold entry; by rewrite ?H. Qed.

(** Reading the disk changes nothing that can be seen. *)
Lemma grows_read s s' p sv : fs_inv s -> file_at s p sv -> disk_becomes s s' (blk s) -> grows s s' p sv sv.
Proof.
  intros Hi [Hh Ho Ht] Hd.
  assert (forall b, blk s' b = blk s b) as Hb by (intros b; by apply (disk_becomes_blk _ _ _ _ Hd)).
  assert (forall n, fval s' sv n = fval s sv n) as Hv by (intros n; by apply val_disk).
  assert (forall x, used s' x <-> used s x) as Hu by (intros x; by apply (disk_becomes_used _ _ _ _ Hd)).
  split; try done.
  - by eapply disk_becomes_inv.
  - split; [by rewrite (disk_becomes_heap _ _ _ Hd)|done|]. destruct Ht as [Htu Hti]. split.
    + intros n Hn. change (val (sv_i sv) (blk s') n) with (fval s' sv n). rewrite Hv, Hu. by apply Htu.
    + intros n m Hn Hm. change (fval s' sv n = fval s' sv m -> fval s' sv n <> 0 -> n = m).
      rewrite !Hv. by apply Hti.
  - rewrite (disk_becomes_heap _ _ _ Hd). by rewrite insert_id.
  - by eapply disk_becomes_rest.
  - intros x. apply Hu.
  - intros n Hn H0 H1. by rewrite Hv in H1.
  - intros n Hn _ H0 H1. by rewrite Hv in H1.
Qed.

Lemma grows_trans s1 s2 s3 p sv1 sv2 sv3 :
  file_at s1 p sv1 -> grows s1 s2 p sv1 sv2 -> grows s2 s3 p sv2 sv3 -> grows s1 s3 p sv1 sv3.
Proof.
  intros Hf1 G1 G2. pose proof (fa_tree _ _ _ (gr_file _ _ _ _ _ G1)) as T2.
  pose proof (fa_tree _ _ _ Hf1) as T1. split.
  - apply G2.
  - apply G2.
  - by rewrite (gr_heap _ _ _ _ _ G2), (gr_heap _ _ _ _ _ G1), insert_insert_eq.
  - eapply same_rest_trans; [apply G1|apply G2].
  - destruct (gr_meta _ _ _ _ _ G1) as (? & ? & ? & ? & ?), (gr_meta _ _ _ _ _ G2) as (? & ? & ? & ? & ?).
    unfold same_meta. split_and!; congruence.
  - intros x Hx. by apply (gr_used _ _ _ _ _ G2), (gr_used _ _ _ _ _ G1).
  - intros n Hn H0. pose proof (gr_keep _ _ _ _ _ G1 n Hn H0) as K1.
    rewrite (gr_keep _ _ _ _ _ G2 n Hn); [done|congruence].
  - intros n Hn H0 H3. destruct (decide (fval s2 sv2 n = 0)) as [H2|H2].
    + intros Hu. apply (gr_fresh _ _ _ _ _ G2 n Hn H2 H3). by apply (gr_used _ _ _ _ _ G1).
    + rewrite (gr_keep _ _ _ _ _ G2 n Hn H2). by apply (gr_fresh _ _ _ _ _ G1).
  - intros n Hn Hl H0 H3. destruct (decide (fval s2 sv2 n = 0)) as [H2|H2].
    + by apply (gr_zero _ _ _ _ _ G2).
    + rewrite (gr_keep _ _ _ _ _ G2 n Hn H2). rewrite (gr_frame _ _ _ _ _ G2).
      * by apply (gr_zero _ _ _ _ _ G1).
      * by apply (tree_used _ _ _ T2).
      * intros m Hm Hnl He. apply Hnl. assert (m = n) as -> by (apply (tree_inj _ _ _ T2); try done; unfold fval in *; congruence).
        done.
  - intros x Hx Hp. rewrite (gr_frame _ _ _ _ _ G2).
    + by apply (gr_frame _ _ _ _ _ G1).
    + by apply (gr_used _ _ _ _ _ G1).
    + intros n Hn Hnl He. destruct (decide (fval s1 sv1 n = 0)) as [H0|H0].
      * destruct (decide (x = 0)) as [->|Hx0].
        { by apply (Hp n). }
        apply (gr_fresh _ _ _ _ _ G1 n Hn H0); [congruence|]. by rewrite He.
      * apply (Hp n Hn Hnl). by rewrite <- (gr_keep _ _ _ _ _ G1 n Hn H0).
Qed.

Lemma length_words_blk s b : fs_inv s -> 0 <= b < dev_size s -> lenZ (words (blk s b)) = SFS_DBPERIDB /\ word_ok (words (blk s b)).
Proof.
  intros Hi Hb. destruct (blk_ok s b Hi Hb) as [Hl Hy]. unfold SFS_BLOCKSIZE, lenZ in Hl.
  assert (length (blk s b) = (4 * 128)%nat) as Hl' by lia. split.
  - unfold lenZ. by rewrite (length_words 128).
  - by apply (words_ok 128).
Qed.

(** One block attached: the common step of every allocation in [sfs_bmap]. *)
Lemma attach_grows s s' p sv sv' t b :
  fs_inv s -> file_at s p sv -> fs_inv s' -> valid t -> fval s sv t = 0 -> b <> 0 -> ~ used s b ->
  (forall q k, parent t = Some (q, k) -> fval s sv q <> 0) ->
  attached (sv_i sv) (blk s) t b (sv_i sv') (blk s') ->
  sfs_heap s' = <[p := sv']> (sfs_heap s) -> same_rest s s' -> same_meta sv sv' -> inode_ok (sv_i sv') ->
  (forall x, used s' x <-> used s x \/ x = b) ->
  grows s s' p sv sv' /\ fval s' sv' t = b.
Proof.
  intros Hi [Hh Ho Ht] Hi' Hvt H0 Hb0 Hfresh Hpar Hatt Hheap Hrest Hmeta Ho' Hused.
  assert (forall n, valid n -> fval s' sv' n = if decide (n = t) then b else fval s sv n) as Hval.
  { intros n Hn. by apply (attach_value (sv_i sv) (blk s) (used s) t b (sv_i sv') (blk s')). }
  split; [split|by rewrite Hval, decide_True].
  - exact Hi'.
  - split; [by rewrite Hheap, lookup_insert_eq|exact Ho'|].
    eapply tree_update; [exact Ht|exact Hfresh| | |exact Hval]; intros; apply Hused; auto.
  - exact Hheap.
  - exact Hrest.
  - exact Hmeta.
  - intros x Hx. apply Hused. auto.
  - intros n Hn Hne. rewrite Hval by done. case_decide; subst; congruence.
  - intros n Hn Hz Hne. rewrite Hval in Hne |- * by done. case_decide; congruence.
  - intros n Hn _ Hz Hne. rewrite Hval in Hne |- * by done. case_decide; [apply Hatt|congruence].
  - intros x Hx Hp. destruct Hatt as [_ Ha].
    assert (x <> b) by congruence. destruct (parent t) as [[q k]|] eqn:Hpt.
    + destruct Ha as (_ & _ & _ & Ha). apply Ha; [assumption|].
      destruct (parent_valid t q k Hvt Hpt) as [Hq _]. intros ->. apply (Hp q Hq); [|reflexivity].
      destruct t; simpl in Hpt; try discriminate; injection Hpt as <- _; by intros [].
    + destruct Ha as [_ Ha]. by apply Ha.
Qed.

Lemma inode_ok_add_blocks i n : inode_ok i -> inode_ok (add_blocks n i).
Proof. intros []. split; simpl; try done. apply u32_range. Qed.

Lemma wp_get_sv (s : fs) p sv (Q : sfs_vnode -> fs -> Prop) :
  sfs_heap s !! p = Some sv -> Q sv s -> wp (get_sv p) Q s.
Proof. intros Hh HQ. unfold get_sv. apply wp_bind. unfold wp at 1, get. rewrite Hh. done. Qed.

Lemma wp_upd_inode (s : fs) p sv f (Q : unit -> fs -> Prop) :
  sfs_heap s !! p = Some sv ->
  Q tt (set_heap (<[p := set_inode (f (sv_i sv)) (sv_dirty sv) sv]> (sfs_heap s)) s) ->
  wp (upd_inode p f) Q s.
Proof. intros Hh HQ. unfold upd_inode. apply wp_bind. eapply wp_get_sv; [done|]. exact HQ. Qed.

Lemma wp_mark_dirty (s : fs) p sv (Q : unit -> fs -> Prop) :
  sfs_heap s !! p = Some sv ->
  Q tt (set_heap (<[p := set_inode (sv_i sv) true sv]> (sfs_heap s)) s) -> wp (mark_dirty p) Q s.
Proof. intros Hh HQ. unfold mark_dirty. apply wp_bind. eapply wp_get_sv; [done|]. exact HQ. Qed.
End bmap_correct.

(** ** The steps of [sfs_bmap] *)

Section bmap_steps.
Context {D : Type} {B : BlockDevice D} {R : ReliableDevice B}.
Notation fs := (sfs_fs D).

Lemma set_heap_twice h h' (s : fs) : set_heap h (set_heap h' s) = set_heap h s.
Proof. done. Qed.

Lemma insert_set_heap p x y (s : fs) :
  set_heap (<[p := x]> (sfs_heap (set_heap (<[p := y]> (sfs_heap s)) s)))
           (set_heap (<[p := y]> (sfs_heap s)) s) = set_heap (<[p := x]> (sfs_heap s)) s.
Proof. simpl. by rewrite set_heap_twice, insert_insert_eq. Qed.

Lemma lookup_set_heap p y (s : fs) : sfs_heap (set_heap (<[p := y]> (sfs_heap s)) s) !! p = Some y.
Proof. apply lookup_insert_eq. Qed.

(** A pointer block of the inode, fetched or allocated. *)
Definition top_node (idblevel : Z) (t : node) : Prop :=
  (idblevel = 1 /\ t = NInd) \/ (idblevel = 2 /\ t = NDbl).

Lemma root_set_idpointer lvl t b i n : top_node lvl t -> parent n = None ->
  root (set_idpointer lvl b (add_blocks 1 i)) n = if decide (n = t) then b else root i n.
Proof. intros [[-> ->]|[-> ->]] Hp; destruct n; simpl; done. Qed.

Lemma inode_ok_idpointer lvl b i : inode_ok i -> is_u32 b -> inode_ok (set_idpointer lvl b i).
Proof. intros [] Hb. unfold set_idpointer. repeat case_match; by split. Qed.

Lemma meta_idpointer lvl b i :
  sfi_size (set_idpointer lvl b i) = sfi_size i /\ sfi_type (set_idpointer lvl b i) = sfi_type i /\
  sfi_linkcount (set_idpointer lvl b i) = sfi_linkcount i.
Proof. unfold set_idpointer. repeat case_match; done. Qed.

Lemma block_u32 (s : fs) b : fs_inv s -> 0 < b < nblocks s -> is_u32 b.
Proof.
  intros Hi Hb. pose proof (fi_size _ Hi). destruct (fi_disk _ Hi) as [_ Hd]. unfold is_u32. lia.
Qed.

Definition buffer_post (s : fs) (p : ptr) (sv : sfs_vnode) (t : node) (r : errno + (Z * list Z)) (s' : fs) : Prop :=
  exists sv', grows s s' p sv sv' /\
  match r with
  | inr (ib, buf) => ib = fval s' sv' t /\ ib <> 0 /\ buf = words (blk s' ib)
  | inl e => e = ENOSPC
  end.

(** A pointer block that exists is read. *)
Lemma loadbuffer_read s p sv lvl ib t level :
  fs_inv s -> file_at s p sv -> valid t -> fval s sv t = ib -> ib <> 0 ->
  wp (loadbuffer p lvl ib ib level)
     (fun r s' => disk_becomes s s' (blk s) /\ r = inr (ib, words (blk s ib))) s.
Proof.
  intros Hi Hf Ht Hv Hn0. unfold loadbuffer. rewrite (proj2 (Z.eqb_neq ib 0) Hn0).
  assert (used s ib) as Hu by (rewrite <- Hv; apply (fa_tree _ _ _ Hf); [done|unfold fval in Hv; congruence]).
  wp_step. apply wp_rblock; [apply Hi|by apply used_range|done|]. intros s' Hd. by wp_steps.
Qed.

Lemma loadbuffer_top s p sv lvl t :
  top_node lvl t -> fs_inv s -> file_at s p sv ->
  wp (loadbuffer p lvl (fval s sv t) (fval s sv t) 0) (buffer_post s p sv t) s.
Proof.
  intros Htop Hi Hf. assert (valid t) as Ht by (by destruct Htop as [[_ ->]|[_ ->]]).
  destruct (decide (fval s sv t = 0)) as [H0|H0].
  2:{ eapply wp_mono; [by apply (loadbuffer_read s p sv lvl _ t)|]. intros r s' [Hd ->].
      exists sv. split; [by apply grows_read|]. split; [|split; [done|by rewrite (disk_becomes_blk _ _ _ _ Hd)]].
      symmetry. apply val_disk. intros b. by apply (disk_becomes_blk _ _ _ _ Hd). }
  unfold loadbuffer. rewrite H0. change (0 =? 0) with true. cbv iota. wp_step.
  eapply wp_mono; [by apply balloc_correct|]. intros [e|b] s1 Hb.
  { destruct Hb as (-> & -> & _). exists sv. split; [by apply grows_refl|done]. }
  destruct Hb as (Hfresh & Hrange & Hi1 & Hh1 & Hr1 & Hu1 & Hblk).
  assert (sfs_heap s1 !! p = Some sv) as Hp by (rewrite Hh1; apply Hf).
  wp_step. eapply wp_upd_inode; [exact Hp|]. wp_step.
  eapply wp_upd_inode; [apply lookup_set_heap|]. rewrite insert_set_heap. wp_step.
  eapply wp_mark_dirty; [apply lookup_set_heap|]. rewrite insert_set_heap. wp_steps.
  set (sv' := set_inode (set_idpointer lvl b (add_blocks 1 (sv_i sv))) true sv).
  set (s4 := set_heap (<[p:=sv']> (sfs_heap s1)) s1).
  assert (parent t = None) as Hpt by (by destruct Htop as [[_ ->]|[_ ->]]).
  destruct (attach_grows s s4 p sv sv' t b) as [Hg Hv]; try done.
  - by apply heap_inv.
  - lia.
  - intros q k Hq. congruence.
  - split; [change (blk s1 b = zero_block); by rewrite Hblk, bool_decide_true|]. rewrite Hpt. split.
    + intros n Hn _. by apply root_set_idpointer.
    + intros x Hx. change (blk s4 x) with (blk s1 x). by rewrite Hblk, bool_decide_false.
  - unfold s4. simpl. by rewrite Hh1.
  - destruct (meta_idpointer lvl b (add_blocks 1 (sv_i sv))) as (Ha & Hb & Hc). done.
  - apply inode_ok_idpointer; [by apply inode_ok_add_blocks, Hf|by apply (block_u32 s)].
  - exists sv'. split; [exact Hg|]. split; [by rewrite <- Hv|]. split; [lia|].
    change (zero_words = words (blk s1 b)). by rewrite Hblk, bool_decide_true.
Qed.

(** The entry of a pointer block, fetched. *)
Lemma entry_nth s b k : fs_inv s -> used s b -> b <> 0 -> 0 <= k < SFS_DBPERIDB ->
  nthZ (words (blk s b)) k = Some (entry (blk s) b k).
Proof.
  intros Hi Hu Hb Hk. destruct (length_words_blk s b Hi) as [Hl _]; [by apply used_range|].
  destruct (nthZ_is_Some (words (blk s b)) k) as [x Hx]; [lia|].
  unfold entry. rewrite (proj2 (Z.eqb_neq b 0) Hb), Hx. done.
Qed.

(** [get_block] at the child [c] of the pointer block at [q]. *)
Lemma get_block_correct s p sv q c k :
  fs_inv s -> file_at s p sv -> valid c -> parent c = Some (q, k) -> fval s sv q <> 0 ->
  wp (get_block p true (fval s sv q) (words (blk s (fval s sv q))) k)
     (fun r s' => exists sv', grows s s' p sv sv' /\
        match r with
        | inr (b, buf) => b = fval s' sv' c /\ b <> 0
        | inl e => e = ENOSPC
        end) s.
Proof.
  intros Hi Hf Hc Hpar Hq0. destruct (parent_valid c q k Hc Hpar) as [Hq Hk].
  set (ib := fval s sv q) in *.
  assert (used s ib) as Hu by (by apply (tree_used _ _ _ (fa_tree _ _ _ Hf))).
  assert (fval s sv c = entry (blk s) ib k) as Hcv by (by apply val_child).
  unfold get_block. wp_step. rewrite (entry_nth s ib k) by done. rewrite <- Hcv. wp_step.
  eexists. split; [done|].
  destruct (Z.eqb_spec (fval s sv c) 0) as [H0|H0]; simpl.
  2:{ wp_steps. exists sv. split; [by apply grows_refl|done]. }
  wp_step. eapply wp_mono; [by apply balloc_correct|]. intros [e|b] s1 Hb.
  { destruct Hb as (-> & -> & _). exists sv. split; [by apply grows_refl|done]. }
  destruct Hb as (Hfresh & Hrange & Hi1 & Hh1 & Hr1 & Hu1 & Hblk).
  assert (sfs_heap s1 !! p = Some sv) as Hp by (rewrite Hh1; apply Hf).
  wp_step. eapply wp_upd_inode; [exact Hp|]. set (sv' := set_inode _ _ sv).
  set (s2 := set_heap (<[p:=sv']> (sfs_heap s1)) s1).
  assert (fs_inv s2) as Hi2 by (by apply heap_inv).
  assert (ib <> b) as Hne by congruence.
  assert (0 <= ib < dev_size s) as Hib by (by apply used_range).
  assert (dev_size s1 = dev_size s) as Hds by apply Hr1.
  destruct (length_words_blk s ib Hi Hib) as [Hwl Hwo].
  assert (lenZ (unwords (setZ (words (blk s ib)) k b)) = SFS_BLOCKSIZE) as Hul.
  { pose proof (lenZ_setZ (words (blk s ib)) k b) as Hs. unfold lenZ, SFS_BLOCKSIZE, SFS_DBPERIDB in *.
    rewrite length_unwords. lia. }
  wp_step. apply wp_wblock; [apply Hi2|change (dev_size s2) with (dev_size s1); lia|done|apply unwords_bytes|].
  intros s3 Hd. wp_steps.
  assert (forall x, blk s3 x = if bool_decide (x = ib) then unwords (setZ (words (blk s ib)) k b)
                               else if bool_decide (x = b) then zero_block else blk s x) as Hb3.
  { intros x. rewrite (disk_becomes_blk _ _ _ _ Hd). case_bool_decide; [done|]. apply Hblk. }
  destruct (attach_grows s s3 p sv sv' c b) as [Hg Hv]; try done.
  - by eapply disk_becomes_inv.
  - lia.
  - intros q' k' Hp'. rewrite Hpar in Hp'. by injection Hp' as <- <-.
  - split; [by rewrite Hb3, bool_decide_false, bool_decide_true|]. rewrite Hpar. fold (fval s sv q). fold ib.
    split; [done|]. split; [|split; [done|]].
    + rewrite Hb3, bool_decide_true by done. apply words_unwords. unfold setZ. case_decide; [|done].
      apply Forall_insert; [done|]. by apply (block_u32 s).
    + intros x Hx Hxi. by rewrite Hb3, !bool_decide_false.
  - rewrite (disk_becomes_heap _ _ _ Hd). unfold s2. simpl. by rewrite Hh1.
  - apply (same_rest_trans _ s1); [done|]. apply (same_rest_trans _ s2); [done|]. by eapply disk_becomes_rest.
  - by apply inode_ok_add_blocks, Hf.
  - intros x. rewrite (disk_becomes_used _ _ _ _ Hd). apply Hu1.
  - exists sv'. split; [done|]. split; [done|]. lia.
Qed.

Lemma hand_back_correct s p sv t : fs_inv s -> file_at s p sv -> valid t ->
  wp (hand_back (fval s sv t)) (fun r s' => r = inr (fval s sv t) /\ s' = s) s.
Proof.
  intros Hi Hf Ht. unfold hand_back. destruct (Z.eqb_spec (fval s sv t) 0) as [H0|H0]; [by wp_steps|].
  wp_step. eapply wp_mono; [apply bused_correct; [done|by apply (tree_used _ _ _ (fa_tree _ _ _ Hf))]|].
  intros r s' [-> ->]. by wp_steps.
Qed.

(** Going down one level. *)
Lemma next_level_correct s p sv q c k lvl :
  fs_inv s -> file_at s p sv -> valid c -> parent c = Some (q, k) -> fval s sv q <> 0 ->
  wp (next_level p lvl true (fval s sv q) (words (blk s (fval s sv q))) k) (buffer_post s p sv c) s.
Proof.
  intros Hi Hf Hc Hpar Hq. unfold next_level. wp_step.
  eapply wp_mono; [by apply (get_block_correct s p sv q c k)|].
  intros [e|[b buf]] s1 (sv1 & G1 & H1); [by exists sv1|]. destruct H1 as [Hb Hb0]. simpl.
  eapply wp_mono; [apply (loadbuffer_read s1 p sv1 lvl b c);
    [apply G1|apply G1|done|done|done]|].
  intros r s2 [Hd ->]. exists sv1. split.
  - eapply grows_trans; [done|exact G1|]. apply grows_read; [apply G1|apply G1|done].
  - split; [|split; [done|by rewrite (disk_becomes_blk _ _ _ _ Hd)]]. rewrite Hb. symmetry.
    apply val_disk. intros x. by apply (disk_becomes_blk _ _ _ _ Hd).
Qed.
End bmap_steps.

(** ** The block map *)

Section bmap_main.
Context {D : Type} {B : BlockDevice D} {R : ReliableDevice B}.
Notation fs := (sfs_fs D).

Lemma direct_val s p sv k : file_at s p sv -> 0 <= k < SFS_NDIRECT ->
  nthZ (sfi_direct (sv_i sv)) k = Some (fval s sv (NDir k)).
Proof.
  intros Hf Hk. pose proof (io_direct _ (fa_inode _ _ _ Hf)) as Hl. unfold SFS_NDIRECT in Hk.
  destruct (nthZ_is_Some (sfi_direct (sv_i sv)) k) as [x Hx]; [unfold lenZ; lia|].
  unfold fval. simpl. by rewrite Hx.
Qed.

(** What [sfs_bmap] with [doalloc] promises. *)
Definition bmap_post (s : fs) (p : ptr) (sv : sfs_vnode) (t : node) (r : errno + Z) (s' : fs) : Prop :=
  exists sv', grows s s' p sv sv' /\
  match r with
  | inr b => b = fval s' sv' t /\ b <> 0
  | inl e => e = ENOSPC
  end.

Lemma hand_back_post s s1 p sv sv1 t :
  file_at s p sv -> grows s s1 p sv sv1 -> valid t -> fval s1 sv1 t <> 0 ->
  wp (hand_back (fval s1 sv1 t)) (bmap_post s p sv t) s1.
Proof.
  intros Hf G Ht H0. eapply wp_mono; [apply (hand_back_correct s1 p sv1 t); [apply G|apply G|done]|].
  intros r s' [-> ->]. by exists sv1.
Qed.

Lemma bmap_direct_correct s p sv k : fs_inv s -> file_at s p sv -> 0 <= k < SFS_NDIRECT ->
  wp (bmap_direct p k true) (bmap_post s p sv (NDir k)) s.
Proof.
  intros Hi Hf Hk. unfold bmap_direct. wp_step. eapply wp_get_sv; [apply Hf|].
  wp_step. rewrite (direct_val s p sv k Hf Hk). wp_step. eexists. split; [done|]. wp_step.
  destruct (Z.eqb_spec (fval s sv (NDir k)) 0) as [H0|H0]; simpl.
  2:{ wp_step. apply (hand_back_post s s p sv sv (NDir k)); try done. by apply grows_refl. }
  wp_step. eapply wp_mono; [by apply balloc_correct|]. intros [e|b] s1 Hb.
  { destruct Hb as (-> & -> & _). exists sv. split; [by apply grows_refl|done]. }
  destruct Hb as (Hfresh & Hrange & Hi1 & Hh1 & Hr1 & Hu1 & Hblk).
  assert (sfs_heap s1 !! p = Some sv) as Hp by (rewrite Hh1; apply Hf).
  wp_step. eapply wp_upd_inode; [exact Hp|]. wp_step.
  eapply wp_upd_inode; [apply lookup_set_heap|]. rewrite insert_set_heap. wp_step.
  eapply wp_mark_dirty; [apply lookup_set_heap|]. rewrite insert_set_heap. wp_step.
  set (i' := with_direct (setZ (sfi_direct (sv_i sv)) k b) (add_blocks 1 (sv_i sv))).
  set (sv' := set_inode i' true sv). set (s4 := set_heap (<[p:=sv']> (sfs_heap s1)) s1).
  pose proof (fa_inode _ _ _ Hf) as Ho. pose proof (io_direct _ Ho) as Hdl.
  assert (lenZ (sfi_direct (sv_i sv)) = SFS_NDIRECT) as Hdz by (unfold lenZ, SFS_NDIRECT; lia).
  destruct (attach_grows s s4 p sv sv' (NDir k) b) as [Hg Hv]; try done.
  - by apply heap_inv.
  - lia.
  - split; [change (blk s1 b = zero_block); by rewrite Hblk, bool_decide_true|]. simpl. split.
    + intros n Hn Hvn. destruct n; simpl; try done. case_decide as He.
      * injection He as ->. by rewrite nthZ_setZ_eq by lia.
      * by rewrite nthZ_setZ_ne by congruence.
    + intros x Hx. change (blk s1 x = blk s x). by rewrite Hblk, bool_decide_false.
  - unfold s4. simpl. by rewrite Hh1.
  - destruct Ho. unfold sv', i'. split; simpl; try done; [| |apply u32_range].
    + unfold setZ. case_decide; [by rewrite length_insert|done].
    + unfold setZ. case_decide; [|done]. apply Forall_insert; [done|]. by apply (block_u32 s).
  - pose proof (hand_back_post s s4 p sv sv' (NDir k) Hf Hg Hk) as HB. rewrite Hv in HB. apply HB. lia.
Qed.

(** The arithmetic that picks the level. *)
Lemma leaf_of_level fb : 15 <= fb < max_double ->
  (fb < 143 /\ leaf_of fb = NInd1 (fb - 15)) \/
  (143 <= fb /\ leaf_of fb = NDbl2 ((fb - 143) / 128) ((fb - 143) mod 128)).
Proof.
  unfold max_double, leaf_of. intros Hf. destruct (Z.ltb_spec fb 15); [lia|].
  destruct (Z.ltb_spec fb (15 + 128)); [left|right]; split; done || lia.
Qed.

Lemma sfs_bmap_unfold p fb doalloc (s : fs) sv : 15 <= fb < max_double -> sfs_heap s !! p = Some sv ->
  sfs_bmap p fb doalloc s =
  (if fb <? 143 then
     if (sfi_indirect (sv_i sv) =? 0) && negb doalloc then ok 0
     else
       try! r := loadbuffer p 1 (sfi_indirect (sv_i sv)) (sfi_indirect (sv_i sv)) 0 in
       try! r := get_block p doalloc (fst r) (snd r) (fb - 15) in
       hand_back (fst r)
   else
     if (sfi_doubleindirect (sv_i sv) =? 0) && negb doalloc then ok 0
     else
       try! r := loadbuffer p 2 (sfi_doubleindirect (sv_i sv)) (sfi_doubleindirect (sv_i sv)) 0 in
       try! r := (try! r := next_level p 2 doalloc (fst r) (snd r) ((fb - 143) / 128) in
                  get_block p doalloc (fst r) (snd r) ((fb - 143) mod 128)) in
       hand_back (fst r)) s.
Proof.
  intros Hf Hh. unfold max_double in Hf. unfold sfs_bmap, SFS_NDIRECT, SFS_DBPERIDB.
  destruct (Z.ltb_spec fb 15); [lia|]. unfold bind at 1, get_sv. unfold bind at 1, get at 1. rewrite Hh. simpl.
  change (128 + 128 * 128 + 128 * 128 * 128) with 2113664.
  rewrite (Z.div_small (fb - 15)) by lia. simpl. change (128 * 128 + 128) with 16512.
  destruct (Z.leb_spec 16512 (fb - 15)); [lia|].
  destruct (Z.ltb_spec fb 143), (Z.leb_spec 128 (fb - 15)); try lia; simpl.
  - rewrite Z.mod_small by lia. case_match; [done|].
    unfold tbind, bind. destruct (loadbuffer _ _ _ _ _ _) as [[?|[? ?]] ?| | |]; done.
  - replace (fb - 15 - 128) with (fb - 143) by lia. case_match; [done|].
    unfold tbind, bind. destruct (loadbuffer _ _ _ _ _ _) as [[?|[? ?]] ?| | |]; done.
Qed.

Lemma bmap_alloc_correct s p sv fb : fs_inv s -> file_at s p sv -> 0 <= fb < max_double ->
  wp (sfs_bmap p fb true) (bmap_post s p sv (leaf_of fb)) s.
Proof.
  intros Hi Hf Hfb. destruct (Z.lt_ge_cases fb 15) as [Hd|Hd].
  { unfold sfs_bmap, leaf_of. change SFS_NDIRECT with 15. destruct (Z.ltb_spec fb 15); [|lia].
    apply bmap_direct_correct; [done|done|unfold SFS_NDIRECT; lia]. }
  destruct (leaf_of_valid fb Hfb) as [Hvl _]. unfold wp. rewrite (sfs_bmap_unfold _ _ _ _ sv) by (lia || apply Hf).
  rewrite !andb_false_r. destruct (leaf_of_level fb) as [[Hl He]|[Hl He]]; [lia| |];
    rewrite He in *; (destruct (Z.ltb_spec fb 143); [|lia]) || (destruct (Z.ltb_spec fb 143); [lia|]).
  - apply wp_tbind. eapply wp_mono; [apply (loadbuffer_top s p sv 1 NInd); [by left|done|done]|].
    intros [e|[ib buf]] s1 (sv1 & G1 & H1); [by exists sv1|]. destruct H1 as (-> & H0 & ->). cbn [fst snd].
    apply wp_tbind. eapply wp_mono; [apply (get_block_correct s1 p sv1 NInd (NInd1 (fb - 15)) (fb - 15));
      try done; apply G1|].
    intros [e|[b buf]] s2 (sv2 & G2 & H2); (assert (grows s s2 p sv sv2) as G by (by eapply grows_trans)); [by exists sv2|].
    destruct H2 as [-> Hb0]. cbn [fst snd]. by apply (hand_back_post s s2 p sv sv2).
  - assert (valid (NDbl1 ((fb - 143) / 128))) as Hv1 by apply Hvl.
    apply wp_tbind. eapply wp_mono; [apply (loadbuffer_top s p sv 2 NDbl); [by right|done|done]|].
    intros [e|[ib buf]] s1 (sv1 & G1 & H1); [by exists sv1|]. destruct H1 as (-> & H0 & ->). cbn [fst snd].
    apply wp_tbind, wp_tbind.
    eapply wp_mono; [apply (next_level_correct s1 p sv1 NDbl (NDbl1 ((fb - 143) / 128)) ((fb - 143) / 128) 2);
      try done; apply G1|].
    intros [e|[ib buf]] s2 (sv2 & G2 & H2); (assert (grows s s2 p sv sv2) as G by (by eapply grows_trans)); [by exists sv2|].
    destruct H2 as (-> & H0' & ->). cbn [fst snd].
    eapply wp_mono; [apply (get_block_correct s2 p sv2 (NDbl1 ((fb - 143) / 128))
      (NDbl2 ((fb - 143) / 128) ((fb - 143) mod 128)) ((fb - 143) mod 128)); try done; apply G2|].
    intros [e|[b buf]] s3 (sv3 & G3 & H3); (assert (grows s s3 p sv sv3) as G' by (by eapply grows_trans)); [by exists sv3|].
    destruct H3 as [-> Hb0]. cbn [fst snd]. by apply (hand_back_post s s3 p sv sv3).
Qed.
End bmap_main.

(** ** Looking up without allocating *)

Section bmap_lookup.
Context {D : Type} {B : BlockDevice D} {R : ReliableDevice B}.
Notation fs := (sfs_fs D).

(** No missing block in the middle of the double indirect tree on the way to [fb]. *)
Definition no_gap (s : fs) (sv : sfs_vnode) (fb : Z) : Prop :=
  forall k j, leaf_of fb = NDbl2 k j -> fval s sv NDbl <> 0 -> fval s sv (NDbl1 k) <> 0.

Lemma get_block_lookup s p sv q c k :
  fs_inv s -> file_at s p sv -> valid c -> parent c = Some (q, k) -> fval s sv q <> 0 ->
  get_block p false (fval s sv q) (words (blk s (fval s sv q))) k s =
  Done (inr (fval s sv c, words (blk s (fval s sv q)))) s.
Proof.
  intros Hi Hf Hc Hpar Hq0. destruct (parent_valid c q k Hc Hpar) as [Hq Hk].
  unfold get_block. rewrite (entry_nth s _ k); [|done|by apply (tree_used _ _ _ (fa_tree _ _ _ Hf))|done|done].
  assert (entry (blk s) (fval s sv q) k = fval s sv c) as -> by (symmetry; by apply val_child).
  rewrite (bind_done _ _ _ (fval s sv c) s) by done. by rewrite andb_false_r.
Qed.

Lemma fval_read s s' sv n : disk_becomes s s' (blk s) -> fval s' sv n = fval s sv n.
Proof. intros Hd. apply val_disk. intros b. by apply (disk_becomes_blk _ _ _ _ Hd). Qed.

Lemma words_read s s' b : disk_becomes s s' (blk s) -> words (blk s' b) = words (blk s b).
Proof. intros Hd. by rewrite (disk_becomes_blk _ _ _ _ Hd). Qed.

Definition looked_up (s : fs) (sv : sfs_vnode) (t : node) (r : errno + Z) (s' : fs) : Prop :=
  r = inr (fval s sv t) /\ disk_becomes s s' (blk s).

Lemma disk_read_trans s s1 s2 : disk_becomes s s1 (blk s) -> disk_becomes s1 s2 (blk s1) -> disk_becomes s s2 (blk s).
Proof.
  intros H1 H2. eapply disk_becomes_trans; [exact H1|]. destruct H2 as (d & -> & Ho & Hn & Hk).
  exists d. split; [done|]. split; [done|]. split; [done|]. intros k. rewrite Hk. by apply (disk_becomes_blk _ _ _ _ H1).
Qed.

Lemma lookup_hand_back s s1 p sv t : fs_inv s -> file_at s p sv -> valid t -> disk_becomes s s1 (blk s) ->
  wp (hand_back (fval s sv t)) (looked_up s sv t) s1.
Proof.
  intros Hi Hf Ht Hd. pose proof (grows_read s s1 p sv Hi Hf Hd) as G.
  rewrite <- (fval_read s s1 sv t Hd). eapply wp_mono; [apply (hand_back_correct s1 p sv t); [apply G|apply G|done]|].
  intros r s' [-> ->]. split; [by rewrite (fval_read s s1 sv t Hd)|done].
Qed.

Lemma bmap_lookup_correct s p sv fb : fs_inv s -> file_at s p sv -> 0 <= fb < max_double -> no_gap s sv fb ->
  wp (sfs_bmap p fb false) (looked_up s sv (leaf_of fb)) s.
Proof.
  intros Hi Hf Hfb Hgap. destruct (leaf_of_valid fb Hfb) as [Hvl _].
  destruct (Z.lt_ge_cases fb 15) as [Hlt|Hge].
  { unfold sfs_bmap, leaf_of in *. change SFS_NDIRECT with 15. destruct (Z.ltb_spec fb 15); [|lia].
    unfold bmap_direct. wp_step. eapply wp_get_sv; [apply Hf|]. wp_step.
    rewrite (direct_val s p sv fb Hf) by (unfold SFS_NDIRECT; lia). wp_step. eexists. split; [done|].
    rewrite andb_false_r. wp_step. wp_step.
    apply (lookup_hand_back s s p); [done|done|done|apply disk_refl, Hi]. }
  unfold wp. rewrite (sfs_bmap_unfold _ _ _ _ sv) by (lia || apply Hf). rewrite !andb_true_r.
  destruct (leaf_of_level fb) as [[Hl He]|[Hl He]]; [lia| |]; rewrite He in *;
    (destruct (Z.ltb_spec fb 143); [|lia]) || (destruct (Z.ltb_spec fb 143); [lia|]).
  - destruct (Z.eqb_spec (sfi_indirect (sv_i sv)) 0) as [H0|H0].
    { split; [|apply disk_refl, Hi]. unfold fval. simpl. unfold entry. by rewrite H0. }
    apply wp_tbind. eapply wp_mono; [by apply (loadbuffer_read s p sv 1 _ NInd)|].
    intros r s1 [Hd1 ->]. cbn [fst snd].
    pose proof (grows_read s s1 p sv Hi Hf Hd1) as G1.
    change (sfi_indirect (sv_i sv)) with (fval s sv NInd) in *.
    rewrite <- (fval_read s s1 sv NInd Hd1), <- (words_read s s1 _ Hd1).
    apply wp_tbind. unfold wp at 1.
    rewrite (get_block_lookup s1 p sv NInd (NInd1 (fb - 15)) (fb - 15)) by
      (done || apply G1 || by rewrite (fval_read s s1 sv _ Hd1)).
    cbn [fst snd]. rewrite (fval_read s s1 sv _ Hd1). by apply (lookup_hand_back s s1 p).
  - assert (valid (NDbl1 ((fb - 143) / 128))) as Hv1 by apply Hvl.
    destruct (Z.eqb_spec (sfi_doubleindirect (sv_i sv)) 0) as [H0|H0].
    { split; [|apply disk_refl, Hi]. unfold fval. simpl. unfold entry at 2. by rewrite H0. }
    specialize (Hgap _ _ He H0). set (k := (fb - 143) / 128) in *. set (j := (fb - 143) mod 128) in *.
    apply wp_tbind. eapply wp_mono; [by apply (loadbuffer_read s p sv 2 _ NDbl)|].
    intros r s1 [Hd1 ->]. cbn [fst snd]. pose proof (grows_read s s1 p sv Hi Hf Hd1) as G1.
    change (sfi_doubleindirect (sv_i sv)) with (fval s sv NDbl) in *.
    rewrite <- (fval_read s s1 sv NDbl Hd1), <- (words_read s s1 _ Hd1).
    apply wp_tbind, wp_tbind. unfold next_level. apply wp_tbind. unfold wp at 1.
    rewrite (get_block_lookup s1 p sv NDbl (NDbl1 k) k) by (done || apply G1 || by rewrite (fval_read s s1 sv _ Hd1)).
    cbn [fst snd].
    eapply wp_mono; [apply (loadbuffer_read s1 p sv 2 _ (NDbl1 k));
      (done || apply G1 || by rewrite (fval_read s s1 sv _ Hd1))|].
    intros r s2 [Hd2 ->]. cbn [fst snd].
    assert (disk_becomes s s2 (blk s)) as Hd by (by eapply disk_read_trans).
    pose proof (grows_read s s2 p sv Hi Hf Hd) as G2.
    rewrite <- (fval_read s1 s2 sv _ Hd2), <- (words_read s1 s2 _ Hd2). unfold wp at 1.
    rewrite (get_block_lookup s2 p sv (NDbl1 k) (NDbl2 k j) j) by
      (done || apply G2 || by rewrite (fval_read s s2 sv _ Hd)).
    cbn [fst snd]. rewrite (fval_read s s2 sv _ Hd). by apply (lookup_hand_back s s2 p).
Qed.

(** A gap: the entry of the double indirect block is empty. *)
Lemma bmap_gap s p sv fb k j :
  fs_inv s -> file_at s p sv -> 143 <= fb < max_double -> leaf_of fb = NDbl2 k j ->
  fval s sv NDbl <> 0 -> fval s sv (NDbl1 k) = 0 ->
  wp (sfs_bmap p fb false)
     (fun r s' => match r with
        | inr b => b = 0 /\ exists sv' lost,
            ~ used s lost /\ used s' lost /\ file_at s' p sv' /\
            (forall n, valid n -> fval s' sv' n = fval s sv n) /\
            sfi_blocks (sv_i sv') = u32 (sfi_blocks (sv_i sv) + 1)
        | inl e => e = ENOSPC
        end) s.
Proof.
  intros Hi Hf Hfb He H0 Hgap. destruct (leaf_of_valid fb) as [Hvl _]; [lia|].
  assert (k = (fb - 143) / 128 /\ j = (fb - 143) mod 128) as [Hk Hj].
  { destruct (leaf_of_level fb) as [[Hl He']|[Hl He']]; [lia|lia|]. rewrite He in He'. by injection He'. }
  rewrite He in Hvl. assert (valid (NDbl1 k)) as Hv1 by apply Hvl.
  unfold wp. rewrite (sfs_bmap_unfold _ _ _ _ sv) by (lia || apply Hf). rewrite !andb_true_r.
  destruct (Z.ltb_spec fb 143); [lia|]. change (sfi_doubleindirect (sv_i sv)) with (fval s sv NDbl).
  rewrite (proj2 (Z.eqb_neq _ 0) H0). rewrite <- Hk, <- Hj.
  apply wp_tbind. eapply wp_mono; [by apply (loadbuffer_read s p sv 2 _ NDbl)|].
  intros r s1 [Hd1 ->]. cbn [fst snd]. pose proof (grows_read s s1 p sv Hi Hf Hd1) as G1.
  rewrite <- (fval_read s s1 sv NDbl Hd1), <- (words_read s s1 _ Hd1).
  apply wp_tbind, wp_tbind. unfold next_level. apply wp_tbind. unfold wp at 1.
  rewrite (get_block_lookup s1 p sv NDbl (NDbl1 k) k) by (done || apply G1 || by rewrite (fval_read s s1 sv _ Hd1)).
  cbn [fst snd]. rewrite (fval_read s s1 sv _ Hd1), Hgap.
  unfold loadbuffer. change (0 =? 0) with true. change (1 =? 0) with false. cbv iota. apply wp_tbind.
  eapply wp_mono; [apply balloc_correct, G1|]. intros [e|b] s2 Hb; [apply Hb|].
  destruct Hb as (Hfresh & Hrange & Hi2 & Hh2 & Hr2 & Hu2 & Hblk).
  assert (sfs_heap s2 !! p = Some sv) as Hp2 by (rewrite Hh2; apply G1).
  wp_step. eapply wp_upd_inode; [exact Hp2|]. wp_steps.
  eapply wp_mark_dirty; [apply lookup_set_heap|]. rewrite insert_set_heap. wp_steps. cbn [fst snd].
  set (sv' := set_inode (add_blocks 1 (sv_i sv)) true sv).
  assert (nthZ zero_words j = Some 0) as Hz.
  { apply nthZ_replicate. destruct Hvl as [_ Hj']. unfold SFS_DBPERIDB in Hj'. lia. }
  unfold get_block. apply wp_bind, wp_of_option. exists 0. split; [done|]. simpl. split; [done|].
  set (s3 := set_heap (<[p:=sv']> (sfs_heap s2)) s2).
  assert (forall n, valid n -> fval s3 sv' n = fval s sv n) as Hsame.
  { intros n Hn. transitivity (fval s1 sv n); [|by apply fval_read].
    assert (forall x, used s1 x -> blk s3 x = blk s1 x) as Hbl.
    { intros x Hx. change (blk s2 x = blk s1 x). rewrite Hblk, bool_decide_false; [done|congruence]. }
    assert (forall q y, valid q -> fval s1 sv q = y -> forall i, entry (blk s3) y i = entry (blk s1) y i) as Hent.
    { intros q y Hq Hy i. unfold entry. destruct (Z.eqb_spec y 0) as [|Hy0]; [done|].
      rewrite Hbl; [done|]. rewrite <- Hy. apply (fa_tree _ _ _ (gr_file _ _ _ _ _ G1)); [done|].
      unfold fval in Hy. congruence. }
    destruct n; try done; unfold fval; simpl.
    - by apply (Hent NInd).
    - by apply (Hent NDbl).
    - rewrite (Hent NDbl _ I eq_refl). destruct Hn as [Hn _]. by apply (Hent (NDbl1 k0)). }
  exists sv', b. split.
  { intros Hu. apply Hfresh. by apply (disk_becomes_used _ _ _ _ Hd1). }
  split; [by apply Hu2; right|]. split; [|by split].
  split; [by apply lookup_insert_eq|by apply inode_ok_add_blocks, Hf|].
  pose proof (fa_tree _ _ _ Hf) as T. split.
  - intros n Hn Hne. change (used s3 (fval s3 sv' n)). change (fval s3 sv' n <> 0) in Hne. rewrite Hsame in Hne |- * by done.
    apply Hu2. left. apply (disk_becomes_used _ _ _ _ Hd1). by apply T.
  - intros n m Hn Hm. change (fval s3 sv' n = fval s3 sv' m -> fval s3 sv' n <> 0 -> n = m).
    rewrite !Hsame by done. by apply T.
Qed.
End bmap_lookup.

(** ** The triple indirect area *)

Section bmap_triple.
Context {D : Type} {B : BlockDevice D} {R : ReliableDevice B}.
Notation fs := (sfs_fs D).

(** The offset [sfs_bmap] uses for block [fb] of a file in the triple indirect area. *)
Definition triple_offset (fb : Z) : Z := fb - 15 - (128 * 128 - 128).

Lemma loadbuffer_used s p lvl ib level : fs_inv s -> used s ib -> ib <> 0 ->
  wp (loadbuffer p lvl ib ib level)
     (fun r s' => r = inr (ib, words (blk s ib)) /\ disk_becomes s s' (blk s)) s.
Proof.
  intros Hi Hu H0. unfold loadbuffer. rewrite (proj2 (Z.eqb_neq ib 0) H0).
  wp_step. apply wp_rblock; [apply Hi|by apply used_range|done|]. intros s' Hd. by wp_steps.
Qed.

Lemma get_block_outside p doalloc ib buf k (s : fs) : lenZ buf <= k -> get_block p doalloc ib buf k s = Undef.
Proof.
  intros Hk. unfold get_block. rewrite (proj2 (nthZ_None buf k)) by lia. done.
Qed.

Lemma tbind_undef {S A B'} (m : E S A) (k : A -> E S B') (s : S) : m s = Undef -> tbind m k s = Undef.
Proof. unfold tbind, bind. by intros ->. Qed.

Lemma wp_undef {S A B'} (m : E S A) (k : A -> E S B') (s : S) Q :
  wp m Q s -> (forall r s', Q r s' -> exists a, r = inr a /\ k a s' = Undef) -> tbind m k s = Undef.
Proof.
  intros Hm Hk. apply wp_done in Hm as (r & s' & Hrun & HQ). destruct (Hk r s' HQ) as (a & -> & Hu).
  by rewrite (tbind_done _ _ _ _ _ Hrun).
Qed.

Lemma bmap_triple_undef s p sv fb doalloc :
  fs_inv s -> sfs_heap s !! p = Some sv ->
  15 + 16256 + 16384 <= fb < 15 + 2113664 ->
  let t := sfi_tripleindirect (sv_i sv) in
  used s t -> t <> 0 ->
  (forall k, 0 <= k < 128 -> used s (entry (blk s) t k) /\ entry (blk s) t k <> 0) ->
  sfs_bmap p fb doalloc s = Undef.
Proof.
  intros Hi Hh Hfb t Hu H0 Hent. unfold sfs_bmap, SFS_NDIRECT, SFS_DBPERIDB.
  destruct (Z.ltb_spec fb 15); [lia|]. unfold bind at 1, get_sv. unfold bind at 1, get at 1. rewrite Hh.
  cbv beta iota delta [of_option ret]. change (128 + 128 * 128 + 128 * 128 * 128) with 2113664.
  rewrite (Z.div_small (fb - 15)) by lia. change (0 <? 0) with false. cbv iota.
  change (128 * 128 + 128) with 16512. destruct (Z.leb_spec 16512 (fb - 15)); [|lia].
  change (3 =? 1) with false. change (3 =? 2) with false. cbv iota beta zeta.
  fold t. rewrite (proj2 (Z.eqb_neq t 0) H0). simpl andb. cbv iota.
  change (128 * 128) with 16384. change (16384 - 128) with 16256.
  eapply wp_undef; [by apply (loadbuffer_used s p 3 t 0)|]. intros r s1 [-> Hd1].
  eexists. split; [done|]. cbv beta iota.
  pose proof (disk_becomes_inv _ _ _ Hi Hd1) as Hi1.
  destruct (length_words_blk s t Hi (used_range _ _ Hi Hu)) as [Hl _]. change SFS_DBPERIDB with 128 in Hl.
  set (f := fb - 15 - 16256). set (k := f / 16384).
  assert (0 <= k) as Hk0 by (apply Z.div_pos; lia).
  assert (128 <= f / 128) as Hk2 by (apply Z.div_le_lower_bound; lia).
  destruct (Z.lt_ge_cases k 128) as [Hk|Hk].
  2:{ apply tbind_undef, tbind_undef. unfold next_level. apply tbind_undef. apply get_block_outside. lia. }
  destruct (Hent k ltac:(lia)) as [Hu1 H01]. set (b := entry (blk s) t k) in *.
  assert (nthZ (words (blk s t)) k = Some b) as Hnth.
  { apply entry_nth; [done|done|done|]. change SFS_DBPERIDB with 128. lia. }
  assert (get_block p doalloc t (words (blk s t)) k s1 = Done (inr (b, words (blk s t))) s1) as Hgb.
  { unfold get_block. rewrite Hnth. unfold bind. simpl. by rewrite (proj2 (Z.eqb_neq b 0) H01). }
  assert (used s1 b) as Hu1' by (by apply (disk_becomes_used _ _ _ _ Hd1)).
  pose proof (loadbuffer_used s1 p 3 b 1 Hi1 Hu1' H01) as Hlb.
  apply wp_done in Hlb as (r & s2 & Hrun & -> & Hd2).
  assert (next_level p 3 doalloc t (words (blk s t)) k s1 = Done (inr (b, words (blk s1 b))) s2) as Hnl.
  { unfold next_level. rewrite (tbind_done _ _ _ _ _ Hgb). exact Hrun. }
  apply tbind_undef. rewrite (tbind_done _ _ _ _ _ Hnl). cbn [fst snd]. apply tbind_undef.
  unfold next_level. apply tbind_undef.
  destruct (length_words_blk s1 b Hi1 (used_range _ _ Hi1 Hu1')) as [Hl1 _]. change SFS_DBPERIDB with 128 in Hl1.
  apply get_block_outside. lia.
Qed.
End bmap_triple.

(** ** A small volume for examples: 64 blocks, of which the map lists [busy] in use *)

Definition demo_inode : sfs_inode :=
  mk_inode 0 SFS_TYPE_FILE 1 (replicate 15 0) 0 0 0 (replicate 107 0) 0.
Definition demo_sv (i : sfs_inode) (ino : Z) : sfs_vnode :=
  mk_sv (mk_vnode 1 0 true (Some sfs_fileops)) i ino false.
Definition demo_freemap (w0 w1 : Z) : bitmap := mk_bitmap 64 [w0; w1; 0; 0; 0; 0; 0; 0].

Section demo.

(** Blocks 0 to 15 as the bytes [w0] and [w1] say; the vnode at pointer 1. *)
Definition demo_volume (card : ram_card) (w0 w1 : Z) (i : sfs_inode) : sfs_fs (lhd_softc ram_card) :=
  mk_fs (mk_super SFS_MAGIC 64 [] []) false (fresh_lhd card) (mk_array 0 0 None)
    (demo_freemap w0 w1) false {[ 1%positive := demo_sv i 4 ]} ∅ None.

Lemma demo_volume_inv card w0 w1 i : is_u8 w0 -> is_u8 w1 -> Z.testbit w0 0 = true ->
  fs_inv (demo_volume card w0 w1 i).
Proof.
  intros H0 H1 Hb. split.
  - split; [apply fresh_lhd_ready|]. vm_compute. discriminate.
  - split; simpl; try done.
    + intros j w Hw. unfold nthZ in Hw. case_decide; [|done].
      destruct (Z.to_nat j) as [|[|[|[|[|[|[|[|?]]]]]]]]; simpl in Hw; simplify_eq; done.
    + change (lenZ [w0; w1; 0; 0; 0; 0; 0; 0]) with 8. lia.
  - done.
  - done.
  - exact Hb.
  - unfold nblocks. simpl. lia.
Qed.

Lemma demo_inode_ok : inode_ok demo_inode.
Proof. split; try done; by apply Forall_replicate. Qed.

Lemma demo_empty_tree card w0 w1 : file_at (demo_volume card w0 w1 demo_inode) 1%positive (demo_sv demo_inode 4).
Proof.
  split; [reflexivity|apply demo_inode_ok|].
  assert (forall f n, valid n -> val demo_inode f n = 0) as Hz.
  { intros f n Hn. destruct n as [k| | | | |]; try reflexivity.
    change (default 0 (nthZ (replicate 15 0) k) = 0). unfold valid, SFS_NDIRECT in Hn.
    by rewrite nthZ_replicate by lia. }
  split.
  - intros n Hn H. by rewrite Hz in H.
  - intros n m Hn _ _ H. by rewrite Hz in H.
Qed.
End demo.

(** ** Properties *)

(** C31. [sfs_bmap] with allocation, for any block below the triple indirect area:
    it either fails with ENOSPC or hands back a block in use; either way the file
    system and the file stay well formed (no block shared, none free), every block
    the file had stays where it was, a block newly given to the file was free
    before and, if it holds data, reads as zeros, and no other block in use is
    written except the file's own pointer blocks. A lookup without allocation then finds the same block. *)
Theorem bmap_alloc_then_lookup {D} {B : BlockDevice D} {R : ReliableDevice B} (s : sfs_fs D) (p : ptr)
    (sv : sfs_vnode) (fb : Z) :
  fs_inv s -> file_at s p sv -> 0 <= fb < max_double ->
  exists r s' sv', sfs_bmap p fb true s = Done r s' /\ grows s s' p sv sv' /\
  match r with
  | inr b => b <> 0 /\ used s' b /\ b = fval s' sv' (leaf_of fb) /\
             exists s'', sfs_bmap p fb false s' = Done (inr b) s'' /\ disk_becomes s' s'' (blk s')
  | inl e => e = ENOSPC
  end.
Proof.
  intros Hi Hf Hfb. destruct (leaf_of_valid fb Hfb) as [Hv _].
  destruct (wp_done _ _ _ (bmap_alloc_correct s p sv fb Hi Hf Hfb)) as (r & s' & Hrun & sv' & G & Hr).
  exists r, s', sv'. split; [done|]. split; [done|]. destruct r as [e|b]; [done|].
  destruct Hr as [-> H0]. split; [done|]. split.
  { by apply (fa_tree _ _ _ (gr_file _ _ _ _ _ G)). }
  split; [done|].
  assert (no_gap s' sv' fb) as Hgap.
  { intros k j He _ Hz. rewrite He in H0. apply H0. unfold fval in *. simpl in Hz |- *. by rewrite Hz. }
  destruct (wp_done _ _ _ (bmap_lookup_correct s' p sv' fb (gr_inv _ _ _ _ _ G) (gr_file _ _ _ _ _ G) Hfb Hgap))
    as (r & s'' & Hrun' & -> & Hd). by exists s''.
Qed.

Lemma bmap_alloc_then_lookup_witness :
  exists r s' sv', sfs_bmap 1%positive 200 true (demo_volume ∅ 31 0 demo_inode) = Done r s' /\
    grows (demo_volume ∅ 31 0 demo_inode) s' 1%positive (demo_sv demo_inode 4) sv' /\ r = inr 7.
Proof.
  destruct (bmap_alloc_then_lookup (demo_volume ∅ 31 0 demo_inode) 1%positive (demo_sv demo_inode 4) 200)
    as (r & s' & sv' & Hrun & G & _).
  - apply demo_volume_inv; [unfold is_u8; lia|unfold is_u8; lia|reflexivity].
  - apply demo_empty_tree.
  - unfold max_double. lia.
  - exists r, s', sv'. split; [exact Hrun|]. split; [exact G|].
    assert (match sfs_bmap 1%positive 200 true (demo_volume ∅ 31 0 demo_inode) with Done r _ => r | _ => inl EIO end = inr 7)
      as He by (vm_compute; reflexivity).
    rewrite Hrun in He. exact He.
Defined.

(** Reading a hole can consume disk space: when the double indirect block
    exists but has no block for the wanted range, [sfs_bmap] without [doalloc]
    still allocates one (its [loadbuffer] allocates whenever it is handed 0),
    answers "no block", and forgets it: the block is in use, counted in
    [sfi_blocks], and stands nowhere in the file. On a full disk the read fails
    with ENOSPC. *)
Theorem bmap_hole_leaks_block {D} {B : BlockDevice D} {R : ReliableDevice B} (s : sfs_fs D) (p : ptr)
    (sv : sfs_vnode) (fb k j : Z) :
  fs_inv s -> file_at s p sv -> 143 <= fb < max_double -> leaf_of fb = NDbl2 k j ->
  fval s sv NDbl <> 0 -> fval s sv (NDbl1 k) = 0 ->
  exists r s', sfs_bmap p fb false s = Done r s' /\
  match r with
  | inr b => b = 0 /\ exists sv' lost,
      ~ used s lost /\ used s' lost /\ file_at s' p sv' /\
      (forall n, valid n -> fval s' sv' n = fval s sv n) /\
      sfi_blocks (sv_i sv') = u32 (sfi_blocks (sv_i sv) + 1)
  | inl e => e = ENOSPC
  end.
Proof.
  intros Hi Hf Hfb He H0 Hgap.
  destruct (wp_done _ _ _ (bmap_gap s p sv fb k j Hi Hf Hfb He H0 Hgap)) as (r & s' & Hrun & Hr).
  exists r, s'. split; [done|]. by destruct r.
Qed.

(** A file whose double indirect block is block 5 and is empty. *)
Definition demo_double : sfs_inode :=
  mk_inode 0 SFS_TYPE_FILE 1 (replicate 15 0) 0 5 0 (replicate 107 0) 1.

Lemma demo_double_at : file_at (demo_volume ∅ 63 0 demo_double) 1%positive (demo_sv demo_double 4).
Proof.
  set (s := demo_volume ∅ 63 0 demo_double).
  assert (forall n, valid n -> val demo_double (blk s) n = if decide (n = NDbl) then 5 else 0) as Hz.
  { intros n Hn. destruct n as [k| |k| |k|k j]; simpl; try reflexivity.
    - change (default 0 (nthZ (replicate 15 0) k) = 0). unfold valid, SFS_NDIRECT in Hn.
      by rewrite nthZ_replicate by lia.
    - by apply entry_zero_block.
    - rewrite (entry_zero_block (blk s) 5) by done. reflexivity. }
  split; [reflexivity|split; try done; by apply Forall_replicate|]. split.
  - intros n Hn. change (sv_i (demo_sv demo_double 4)) with demo_double. rewrite Hz by done.
    case_decide; [|done]. intros _. split; [unfold nblocks; simpl; lia|reflexivity].
  - intros n m Hn Hm. change (sv_i (demo_sv demo_double 4)) with demo_double. rewrite !Hz by done.
    repeat case_decide; congruence || lia.
Qed.

Lemma bmap_hole_leaks_block_witness :
  exists r s', sfs_bmap 1%positive 200 false (demo_volume ∅ 63 0 demo_double) = Done r s' /\ r = inr 0.
Proof.
  destruct (bmap_hole_leaks_block (demo_volume ∅ 63 0 demo_double) 1%positive (demo_sv demo_double 4) 200 0 57)
    as (r & s' & Hrun & _).
  - apply demo_volume_inv; [unfold is_u8; lia|unfold is_u8; lia|reflexivity].
  - apply demo_double_at.
  - unfold max_double. lia.
  - reflexivity.
  - unfold fval. simpl. lia.
  - apply (entry_zero_block (blk (demo_volume ∅ 63 0 demo_double)) 5). reflexivity.
  - exists r, s'. split; [exact Hrun|].
    assert (match sfs_bmap 1%positive 200 false (demo_volume ∅ 63 0 demo_double) with Done r _ => r | _ => inl EIO end = inr 0)
      as He by (vm_compute; reflexivity).
    rewrite Hrun in He. exact He.
Defined.


(** A file whose triple indirect block is block 6, every entry of which is block 7. *)
Definition demo_triple : sfs_inode :=
  mk_inode 0 SFS_TYPE_FILE 1 (replicate 15 0) 0 0 6 (replicate 107 0) 2.
Definition demo_triple_disk : ram_card := {[ 6 := unwords (replicate 128 7) ]}.

