(* ===== verification/SfsFile.v ===== *)
(** * File I/O and truncation in SFS (assignment 3's sfs_vnode.c).

    [sfs_io] splits a request into a leading partial block, whole blocks and a
    trailing partial block. What the operations do is stated and proved in SfsRw.v
    and SfsTrunc.v. *)

From stdpp Require Import base numbers list gmap.
From Stdlib Require Import ZArith Lia.
From S2P Require Import Prelude Mem CopyInOut Uio BlockDev Lhd Bitmap Array Vnode SfsDisk SfsIo SfsTree SfsBmap.

Section file.
Context {D : Type} `{BlockDevice D}.
Notation fs := (sfs_fs D).

Definition get_uio : M (fsio (D := D)) uio := let! s := get in ret (snd s).
Definition put_uio (u : uio) : M (fsio (D := D)) unit := let! s := get in put (fst s, u).
Definition is_write (u : uio) : bool := bool_decide (uio_rw u = UIO_WRITE).

Definition sfs_partialio (p : ptr) (skipstart len : Z) : E (fsio (D := D)) unit :=
  let! u := get_uio in
  let doalloc := is_write u in
  do! assert_ (u32 (skipstart + len) <=? SFS_BLOCKSIZE) in
  let fileblock := u32 (Z.quot (uio_offset u) SFS_BLOCKSIZE) in
  try! diskblock := on_fs (sfs_bmap p fileblock doalloc) in
  try! iobuf :=
    (if diskblock =? 0 then
       do! assert_ (bool_decide (uio_rw u = UIO_READ)) in
       ok zero_block
     else on_fs (sfs_rblock zero_block diskblock)) in
  let! r := on_env (uiomove_on iobuf skipstart len) in
  match fst r with
  | inl e => fail e
  | inr _ => if is_write u then on_fs (sfs_wblock (snd r) diskblock) else ok tt
  end.

Definition sfs_blockio (p : ptr) : E (fsio (D := D)) unit :=
  let! u := get_uio in
  let doalloc := is_write u in
  let fileblock := u32 (Z.quot (uio_offset u) SFS_BLOCKSIZE) in
  try! diskblock := on_fs (sfs_bmap p fileblock doalloc) in
  if diskblock =? 0 then
    do! assert_ (bool_decide (uio_rw u = UIO_READ)) in
    on_env (uiomovezeros SFS_BLOCKSIZE)
  else
    let saveoff := uio_offset u in
    let diskoff := s32 (u32 (diskblock * SFS_BLOCKSIZE)) in
    do! assert_ (SFS_BLOCKSIZE <=? uio_resid u) in
    let saveres := s32 (uio_resid u) in
    let diskres := SFS_BLOCKSIZE in
    do! put_uio (set_resid (set_offset u diskoff) diskres) in
    let! result := sfs_rwblock in
    let! u := get_uio in
    let! d := int_of (uio_offset u - diskoff) in
    let! off := int_of (d + saveoff) in
    do! put_uio (set_resid (set_offset u off) (u32 (u32 (uio_resid u - diskres) + saveres))) in
    ret result.

(** The part of [sfs_io] between the end-of-file check and [out]. *)
Definition io_body (p : ptr) : E (fsio (D := D)) unit :=
  let! u := get_uio in
  let blkoff := u32 (Z.rem (uio_offset u) SFS_BLOCKSIZE) in
  try! _ :=
    (if blkoff =? 0 then ok tt
     else
       let len := SFS_BLOCKSIZE - blkoff in
       let len := if uio_resid u <? len then uio_resid u else len in
       sfs_partialio p blkoff len) in
  let! u := get_uio in
  if uio_resid u =? 0 then ok tt
  else
    do! assert_ (Z.rem (uio_offset u) SFS_BLOCKSIZE =? 0) in
    let nblocks := uio_resid u / SFS_BLOCKSIZE in
    try! _ := for_ (Z.to_nat nblocks) 0 (fun _ => sfs_blockio p) in
    let! u := get_uio in
    do! assert_ (uio_resid u <? SFS_BLOCKSIZE) in
    if 0 <? uio_resid u then sfs_partialio p 0 (uio_resid u) else ok tt.

(** From [out] on. *)
Definition io_out (p : ptr) (result : errno + unit) (extraresid : Z) : E (fsio (D := D)) unit :=
  let! u := get_uio in
  let! sv := on_fs (get_sv p) in
  do! (if is_write u && (s32 (sfi_size (sv_i sv)) <? uio_offset u) then
         do! on_fs (upd_inode p (with_size (u32 (uio_offset u)))) in
         on_fs (mark_dirty p)
       else ret tt) in
  do! put_uio (set_resid u (u32 (uio_resid u + extraresid))) in
  ret result.

Definition sfs_io (p : ptr) : E (fsio (D := D)) unit :=
  let! u := get_uio in
  if is_write u then
    let! result := io_body p in
    io_out p result 0
  else
    let! sv := on_fs (get_sv p) in
    let size := s32 (sfi_size (sv_i sv)) in
    let endpos := s32 (u32 (uio_offset u + uio_resid u)) in
    if size <=? uio_offset u then ok tt
    else if size <? endpos then
      let! d := int_of (endpos - size) in
      let extraresid := u32 d in
      do! assert_ (extraresid <? uio_resid u) in
      do! put_uio (set_resid u (u32 (uio_resid u - extraresid))) in
      let! result := io_body p in
      io_out p result extraresid
    else
      let! result := io_body p in
      io_out p result 0.

(** ** Truncation *)

(** One round over the direct blocks. *)
Definition truncate_direct (p : ptr) (blocklen i : Z) : E fs unit :=
  let! sv := get_sv p in
  let! block := of_option (nthZ (sfi_direct (sv_i sv)) i) in
  if (blocklen <=? i) && negb (block =? 0) then
    do! sfs_bfree block in
    do! upd_inode p (add_blocks (-1)) in
    do! upd_inode p (fun i' => with_direct (setZ (sfi_direct i') i 0) i') in
    do! mark_dirty p in
    ok tt
  else ok tt.

(** The state of the scan of the indirect block: the buffer and the two flags. *)
Definition idscan : Type := list Z * bool * bool.

Definition truncate_indirect (p : ptr) (blocklen baseblock j : Z) (st : idscan) : E fs idscan :=
  let '(idbuf, hasnonzero, iddirty) := st in
  let! b := of_option (nthZ idbuf j) in
  try! st :=
    (if (blocklen <? u32 (baseblock + j)) && negb (b =? 0) then
       do! sfs_bfree b in
       do! upd_inode p (add_blocks (-1)) in
       ok (setZ idbuf j 0, true)
     else ok (idbuf, iddirty)) in
  let '(idbuf, iddirty) := st in
  let! b := of_option (nthZ idbuf j) in
  ok (idbuf, if b =? 0 then hasnonzero else true, iddirty).

Fixpoint scan_indirect (n : nat) (p : ptr) (blocklen baseblock j : Z) (st : idscan) : E fs idscan :=
  match n with
  | O => ok st
  | S n =>
      try! st := truncate_indirect p blocklen baseblock j st in
      scan_indirect n p blocklen baseblock (j + 1) st
  end.

(** [if (sfi_doubleindirect != 0) { sfi_blocks--; sfi_doubleindirect = 0; }], and the same for the triple. *)
Definition clear_double (i : sfs_inode) : sfs_inode :=
  if sfi_doubleindirect i =? 0 then i
  else add_blocks (-1) (with_indirects (sfi_indirect i) 0 (sfi_tripleindirect i) i).
Definition clear_triple (i : sfs_inode) : sfs_inode :=
  if sfi_tripleindirect i =? 0 then i
  else add_blocks (-1) (with_indirects (sfi_indirect i) (sfi_doubleindirect i) 0 i).

(** The pointer block has become empty. *)
Definition drop_indirect (p : ptr) (idblock : Z) : M fs unit :=
  do! sfs_bfree idblock in
  do! upd_inode p (add_blocks (-1)) in
  do! upd_inode p (fun i => with_indirects 0 (sfi_doubleindirect i) (sfi_tripleindirect i) i) in
  do! upd_inode p clear_double in
  do! upd_inode p clear_triple in
  mark_dirty p.

Definition sfs_truncate (p : ptr) (len : Z) : E fs unit :=
  let! n := int_of (len + SFS_BLOCKSIZE - 1) in
  let blocklen := u32 (Z.quot n SFS_BLOCKSIZE) in
  try! _ := for_ (Z.to_nat SFS_NDIRECT) 0 (truncate_direct p blocklen) in
  let! sv := get_sv p in
  let idblock := sfi_indirect (sv_i sv) in
  let baseblock := SFS_NDIRECT in
  let highblock := baseblock + SFS_DBPERIDB - 1 in
  try! _ :=
    (if (blocklen <? highblock) && negb (idblock =? 0) then
       try! bytes := sfs_rblock zero_block idblock in
       try! st := scan_indirect (Z.to_nat SFS_DBPERIDB) p blocklen baseblock 0 (words bytes, false, false) in
       let '(idbuf, hasnonzero, iddirty) := st in
       if negb hasnonzero then do! drop_indirect p idblock in ok tt
       else if iddirty then sfs_wblock (unwords idbuf) idblock
       else ok tt
     else ok tt) in
  do! upd_inode p (with_size (u32 len)) in
  do! mark_dirty p in
  ok tt.
End file.
