(* ===== verification/SfsRw.v ===== *)
(** * What reading and writing an SFS file does.

    The contents of a file are a function from offsets to bytes ([fbyte]): holes and
    missing blocks read as zeros. [sfs_io] on a read delivers those bytes, clipped
    at the end of the file; on a write it changes the bytes it covers, and no others. *)

From stdpp Require Import base numbers list gmap.
From Stdlib Require Import ZArith Lia.
From S2P Require Import Prelude Mem CopyInOut Uio BlockDev Lhd Bitmap Array Vnode SfsDisk SfsIo SfsTree SfsBmap SfsFile.

(** ** Contents *)

Section contents.
Context {D : Type} {B : BlockDevice D} {R : ReliableDevice B}.
Notation fs := (sfs_fs D).

Definition fbyte (s : fs) (sv : sfs_vnode) (x : Z) : Z :=
  let b := fval s sv (leaf_of (x / 512)) in
  if b =? 0 then 0 else default 0 (nthZ (blk s b) (x mod 512)).

Definition fbytes (s : fs) (sv : sfs_vnode) (off n : Z) : list Z := map (fbyte s sv) (seqZ off n).

(** Offsets below this stay clear of the triple indirect area. *)
Definition max_offset : Z := max_double * 512.

Lemma offset_block x : 0 <= x < max_offset -> 0 <= x / 512 < max_double.
Proof.
  unfold max_offset. intros Hx. split; [apply Z.div_pos; lia|]. apply Z.div_lt_upper_bound; lia.
Qed.

Lemma lenZ_fbytes s sv off n : 0 <= n -> lenZ (fbytes s sv off n) = n.
Proof. intros. unfold lenZ, fbytes. rewrite length_map, length_seqZ. lia. Qed.

Lemma nthZ_fbytes s sv off n i : 0 <= i < n -> nthZ (fbytes s sv off n) i = Some (fbyte s sv (off + i)).
Proof.
  intros Hi. rewrite nthZ_to_nat by lia. unfold fbytes. rewrite list_lookup_fmap.
  rewrite (proj2 (lookup_seqZ off n (Z.to_nat i) (off + i))) by lia. done.
Qed.

Lemma fbytes_app s sv off n m : 0 <= n -> 0 <= m ->
  fbytes s sv off n ++ fbytes s sv (off + n) m = fbytes s sv off (n + m).
Proof. intros. unfold fbytes. by rewrite seqZ_app, map_app by lia. Qed.

Lemma fbytes_0 s sv off : fbytes s sv off 0 = [].
Proof. done. Qed.

Lemma fbytes_ext s s' sv sv' off n : (forall x, off <= x < off + n -> fbyte s' sv' x = fbyte s sv x) ->
  fbytes s' sv' off n = fbytes s sv off n.
Proof.
  intros H. unfold fbytes. apply list_fmap_ext. intros i x Hx. apply lookup_seqZ in Hx as [-> Hx]. apply H. lia.
Qed.

Lemma fbyte_read s s' sv x : disk_becomes s s' (blk s) -> fbyte s' sv x = fbyte s sv x.
Proof. intros Hd. unfold fbyte. by rewrite (fval_read _ _ _ _ Hd), (disk_becomes_blk _ _ _ _ Hd). Qed.

(** The bytes of a piece of one block. *)
Lemma fbytes_block s sv off n b : fs_inv s -> 0 <= b < dev_size s -> b <> 0 ->
  0 <= off -> 0 <= n -> off mod 512 + n <= 512 -> b = fval s sv (leaf_of (off / 512)) ->
  fbytes s sv off n = slice (blk s b) (off mod 512) n.
Proof.
  intros Hi Hb Hb0 Ho Hn Hfit Hv. destruct (blk_ok s b Hi Hb) as [Hl _]. unfold SFS_BLOCKSIZE in Hl.
  pose proof (Z.mod_pos_bound off 512). apply nthZ_ext.
  - rewrite lenZ_fbytes, lenZ_slice; lia.
  - rewrite lenZ_fbytes by lia. intros i Hi'. rewrite nthZ_fbytes, nthZ_slice by lia. unfold fbyte.
    assert ((off + i) / 512 = off / 512 /\ (off + i) mod 512 = off mod 512 + i) as [-> ->].
    { pose proof (Z.div_mod off 512). split.
      - symmetry. apply (Z.div_unique _ _ _ (off mod 512 + i)); lia.
      - symmetry. apply (Z.mod_unique _ _ (off / 512)); lia. }
    rewrite <- Hv, (proj2 (Z.eqb_neq b 0) Hb0).
    destruct (nthZ_is_Some (blk s b) (off mod 512 + i)) as [y Hy]; [lia|]. by rewrite Hy.
Qed.

Lemma fbytes_hole s sv off n : 0 <= off -> 0 <= n -> off mod 512 + n <= 512 ->
  fval s sv (leaf_of (off / 512)) = 0 -> fbytes s sv off n = replicate (Z.to_nat n) 0.
Proof.
  intros Ho Hn Hfit Hv. pose proof (Z.mod_pos_bound off 512). apply nthZ_ext.
  - rewrite lenZ_fbytes, lenZ_replicate; lia.
  - rewrite lenZ_fbytes by lia. intros i Hi'. rewrite nthZ_fbytes, nthZ_replicate by lia. unfold fbyte.
    assert ((off + i) / 512 = off / 512) as ->.
    { pose proof (Z.div_mod off 512). symmetry. apply (Z.div_unique _ _ _ (off mod 512 + i)); lia. }
    by rewrite Hv.
Qed.

(** ** Writing *)

(** From [s] to [s'] the bytes [bs] were stored at offset [off] of the file at [p]:
    the rest of the file reads as before, and so does every block that is not the
    file's own. *)
Record wrote (s s' : fs) (p : ptr) (sv sv' : sfs_vnode) (off : Z) (bs : list Z) : Prop := {
  wr_inv : fs_inv s';
  wr_file : file_at s' p sv';
  wr_heap : sfs_heap s' = <[p := sv']> (sfs_heap s);
  wr_rest : same_rest s s';
  wr_meta : same_meta sv sv';
  wr_used x : used s x -> used s' x;
  wr_keep n : valid n -> fval s sv n <> 0 -> fval s' sv' n = fval s sv n;
  wr_fresh n : valid n -> fval s sv n = 0 -> fval s' sv' n <> 0 -> ~ used s (fval s' sv' n);
  wr_byte x : 0 <= x < max_offset ->
    fbyte s' sv' x = if bool_decide (off <= x < off + lenZ bs) then default 0 (nthZ bs (x - off)) else fbyte s sv x;
  wr_alloc x : 0 <= x < max_offset -> off <= x < off + lenZ bs -> fval s' sv' (leaf_of (x / 512)) <> 0;
  wr_frame x : used s x -> (forall n, valid n -> fval s sv n <> x) -> blk s' x = blk s x;
}.

Lemma grows_fbyte s s' p sv sv' x : fs_inv s -> file_at s p sv -> grows s s' p sv sv' ->
  0 <= x < max_offset -> fbyte s' sv' x = fbyte s sv x.
Proof.
  intros Hi Hf G Hx. pose proof (fa_tree _ _ _ Hf) as T. unfold fbyte.
  destruct (leaf_of_valid (x / 512) (offset_block x Hx)) as [Hv Hl]. set (n := leaf_of (x / 512)) in *.
  destruct (Z.eqb_spec (fval s sv n) 0) as [H0|H0].
  - destruct (Z.eqb_spec (fval s' sv' n) 0) as [H1|H1]; [done|].
    rewrite (gr_zero _ _ _ _ _ G n Hv Hl H0 H1). pose proof (Z.mod_pos_bound x 512).
    unfold zero_block. rewrite nthZ_replicate by lia. done.
  - rewrite (gr_keep _ _ _ _ _ G n Hv H0), (proj2 (Z.eqb_neq _ 0) H0). f_equal. f_equal.
    apply (gr_frame _ _ _ _ _ G).
    + by apply (tree_used _ _ _ T).
    + intros m Hm Hnl He. apply Hnl.
      assert (m = n) as -> by (apply (tree_inj _ _ _ T); try done; unfold fval in *; congruence). done.
Qed.

Lemma grows_wrote s s' p sv sv' off : fs_inv s -> file_at s p sv -> grows s s' p sv sv' -> wrote s s' p sv sv' off [].
Proof.
  intros Hi Hf G. split; try apply G.
  - intros x Hx. rewrite bool_decide_false by (change (lenZ []) with 0; lia). by apply (grows_fbyte s s' p).
  - intros x _ Hx. change (lenZ []) with 0 in Hx. lia.
  - intros x Hx Hn. apply (gr_frame _ _ _ _ _ G); [done|]. intros n Hv _. by apply Hn.
Qed.

Lemma wrote_trans s1 s2 s3 p sv1 sv2 sv3 off bs bs' :
  file_at s1 p sv1 -> wrote s1 s2 p sv1 sv2 off bs -> wrote s2 s3 p sv2 sv3 (off + lenZ bs) bs' ->
  wrote s1 s3 p sv1 sv3 off (bs ++ bs').
Proof.
  intros Hf W1 W2. pose proof (lenZ_nonneg bs) as Hlb. pose proof (lenZ_nonneg bs') as Hlb'. split.
  - apply W2.
  - apply W2.
  - by rewrite (wr_heap _ _ _ _ _ _ _ W2), (wr_heap _ _ _ _ _ _ _ W1), insert_insert_eq.
  - eapply same_rest_trans; [apply W1|apply W2].
  - destruct (wr_meta _ _ _ _ _ _ _ W1) as (? & ? & ? & ? & ?), (wr_meta _ _ _ _ _ _ _ W2) as (? & ? & ? & ? & ?).
    unfold same_meta. split_and!; congruence.
  - intros x Hx. by apply (wr_used _ _ _ _ _ _ _ W2), (wr_used _ _ _ _ _ _ _ W1).
  - intros n Hn H0. pose proof (wr_keep _ _ _ _ _ _ _ W1 n Hn H0) as K1.
    rewrite (wr_keep _ _ _ _ _ _ _ W2 n Hn); [done|congruence].
  - intros n Hn H0 H3. destruct (decide (fval s2 sv2 n = 0)) as [H2|H2].
    + intros Hu. apply (wr_fresh _ _ _ _ _ _ _ W2 n Hn H2 H3). by apply (wr_used _ _ _ _ _ _ _ W1).
    + rewrite (wr_keep _ _ _ _ _ _ _ W2 n Hn H2). by apply (wr_fresh _ _ _ _ _ _ _ W1).
  - intros x Hx. rewrite (wr_byte _ _ _ _ _ _ _ W2 x Hx), (wr_byte _ _ _ _ _ _ _ W1 x Hx), lenZ_app.
    repeat case_bool_decide; try lia; try done.
    + unfold nthZ. repeat case_decide; try lia. rewrite lookup_app_r by (unfold lenZ in *; lia).
      do 2 f_equal. unfold lenZ in *. lia.
    + rewrite nthZ_app_l by lia. done.
  - intros x Hr. rewrite lenZ_app. intros Hx. destruct (decide (x < off + lenZ bs)) as [Hlt|Hge].
    + pose proof (wr_alloc _ _ _ _ _ _ _ W1 x Hr ltac:(lia)) as H0.
      rewrite (wr_keep _ _ _ _ _ _ _ W2); [done| |done]. by apply leaf_of_valid, offset_block.
    + apply (wr_alloc _ _ _ _ _ _ _ W2); [done|lia].
  - intros x Hx Hn. rewrite (wr_frame _ _ _ _ _ _ _ W2).
    + by apply (wr_frame _ _ _ _ _ _ _ W1).
    + by apply (wr_used _ _ _ _ _ _ _ W1).
    + intros n Hv He. destruct (decide (fval s1 sv1 n = 0)) as [H0|H0].
      * destruct (decide (x = 0)) as [->|Hx0]; [by apply (Hn n)|].
        apply (wr_fresh _ _ _ _ _ _ _ W1 n Hv H0); [congruence|]. by rewrite He.
      * apply (Hn n Hv). by rewrite <- (wr_keep _ _ _ _ _ _ _ W1 n Hv H0).
Qed.

(** Storing a data block changes no pointer. *)
Lemma leaf_write_fval s s' p sv t data : file_at s p sv -> valid t -> is_leaf t -> fval s sv t <> 0 ->
  (forall k, blk s' k = if bool_decide (k = fval s sv t) then data else blk s k) ->
  forall n, valid n -> fval s' sv n = fval s sv n.
Proof.
  intros Hf Ht Hl H0 Hb. pose proof (fa_tree _ _ _ Hf) as T.
  assert (forall q k, valid q -> ~ is_leaf q -> entry (blk s') (fval s sv q) k = entry (blk s) (fval s sv q) k) as He.
  { intros q k Hq Hql. unfold entry. destruct (Z.eqb_spec (fval s sv q) 0) as [|Hq0]; [done|].
    rewrite Hb, bool_decide_false; [done|]. intros Heq. apply Hql.
    assert (q = t) as -> by (by apply (tree_inj _ _ _ T)). done. }
  intros n Hn. destruct n; try done; unfold fval; simpl.
  - apply (He NInd); [exact I|intros []].
  - apply (He NDbl); [exact I|intros []].
  - destruct Hn as [Hk Hj]. pose proof (He NDbl k I ltac:(intros [])) as Hd. unfold fval in Hd. simpl in Hd. rewrite Hd.
    apply (He (NDbl1 k)); [exact Hk|intros []].
Qed.

Lemma block_offset off x : 0 <= off -> off mod 512 + (x - off) < 512 -> off <= x ->
  x / 512 = off / 512 /\ x mod 512 = off mod 512 + (x - off).
Proof.
  intros Ho Hx Hle. pose proof (Z.div_mod off 512). pose proof (Z.mod_pos_bound off 512). split.
  - symmetry. apply (Z.div_unique _ _ _ (off mod 512 + (x - off))); lia.
  - symmetry. apply (Z.mod_unique _ _ (off / 512)); lia.
Qed.

(** Storing a piece of the block of offset [off]. *)
Lemma leaf_write_wrote s s' p sv off bs : fs_inv s -> file_at s p sv -> 0 <= off < max_offset ->
  off mod 512 + lenZ bs <= 512 ->
  let b := fval s sv (leaf_of (off / 512)) in
  b <> 0 ->
  disk_becomes s s' (fun k => if bool_decide (k = b) then splice (blk s b) (off mod 512) bs else blk s k) ->
  wrote s s' p sv sv off bs.
Proof.
  intros Hi Hf Ho Hfit b H0 Hd. pose proof (fa_tree _ _ _ Hf) as T.
  destruct (leaf_of_valid (off / 512) (offset_block off Ho)) as [Hv Hl].
  assert (used s b) as Hub by (by apply (tree_used _ _ _ T)).
  destruct (blk_ok s b Hi (used_range _ _ Hi Hub)) as [Hlen _]. unfold SFS_BLOCKSIZE in Hlen.
  pose proof (Z.mod_pos_bound off 512) as Hm. pose proof (lenZ_nonneg bs) as Hn.
  assert (forall k, blk s' k = if bool_decide (k = b) then splice (blk s b) (off mod 512) bs else blk s k) as Hb
    by (intros k; by apply (disk_becomes_blk _ _ _ _ Hd)).
  assert (forall n, valid n -> fval s' sv n = fval s sv n) as Hval
    by (intros n; by eapply leaf_write_fval).
  assert (forall x, used s' x <-> used s x) as Hu by (intros x; by apply (disk_becomes_used _ _ _ _ Hd)).
  split.
  - by eapply disk_becomes_inv.
  - split; [rewrite (disk_becomes_heap _ _ _ Hd); apply Hf|apply Hf|]. split.
    + intros n Hvn. change (fval s' sv n <> 0 -> used s' (fval s' sv n)). rewrite Hval, Hu by done.
      by apply (tree_used _ _ _ T).
    + intros n m Hn' Hm'. change (fval s' sv n = fval s' sv m -> fval s' sv n <> 0 -> n = m).
      rewrite !Hval by done. by apply (tree_inj _ _ _ T).
  - rewrite (disk_becomes_heap _ _ _ Hd). by rewrite insert_id by apply Hf.
  - by eapply disk_becomes_rest.
  - done.
  - intros x. apply Hu.
  - intros n Hvn _. by apply Hval.
  - intros n Hvn Hz Hne. by rewrite Hval in Hne.
  - intros x Hx. destruct (leaf_of_valid (x / 512) (offset_block x Hx)) as [Hvx Hlx].
    unfold fbyte. rewrite Hval by done. set (y := fval s sv (leaf_of (x / 512))).
    destruct (decide (y = b)) as [Hy|Hy].
    + assert (x / 512 = off / 512) as Hblk.
      { apply leaf_of_inj; [by apply offset_block|by apply offset_block|]. apply (tree_inj _ _ _ T); try done.
        unfold y, fval in Hy. unfold fval in Hy. unfold y, fval in H0. congruence. }
      rewrite Hb, bool_decide_true by done. rewrite Hy, (proj2 (Z.eqb_neq b 0) H0).
      rewrite nthZ_splice by lia. pose proof (Z.div_mod x 512). pose proof (Z.div_mod off 512).
      replace (x mod 512 - off mod 512) with (x - off) by lia.
      repeat case_bool_decide; try lia; done.
    + rewrite Hb, bool_decide_false by done. case_bool_decide as Hr; [|done]. destruct Hy. unfold y.
      destruct (block_offset off x) as [-> _]; [lia|lia|lia|done].
  - intros x Hr Hx. destruct (block_offset off x) as [-> _]; [lia|lia|lia|]. by rewrite Hval.
  - intros x Hx Hne. rewrite Hb, bool_decide_false; [done|]. intros ->. by apply (Hne (leaf_of (off / 512))).
Qed.
End contents.

(** ** One request *)

Section requests.
Context {D : Type} {B : BlockDevice D} {R : ReliableDevice B}.
Notation fs := (sfs_fs D).
Notation fsio := (fsio (D := D)).

Lemma wp_on_fs {A} (m : M fs A) (Q : A -> fsio -> Prop) s u :
  wp (on_fs m) Q (s, u) <-> wp m (fun a s' => Q a (s', u)) s.
Proof. unfold on_fs. by rewrite wp_zoom. Qed.

Lemma wp_get_uio (Q : uio -> fsio -> Prop) s u : wp get_uio Q (s, u) <-> Q u (s, u).
Proof. done. Qed.

Lemma wp_put_uio u' (Q : unit -> fsio -> Prop) s u : wp (put_uio u') Q (s, u) <-> Q tt (s, u').
Proof. done. Qed.

Lemma set_umem_id (s : fs) : set_umem (sfs_umem s) s = s.
Proof. by destruct s. Qed.

(** A transfer between a local buffer and the request's kernel object. *)
Lemma wp_uiomove_on buf ptr n (Q : (errno + unit) * list Z -> fsio -> Prop) s u obj off :
  kernel_uio u obj off -> can_move u n -> 0 <= ptr -> ptr + n <= lenZ buf ->
  Q (inr tt, moved_buf (uio_rw u) buf obj ptr off n)
    (s, advanced u n (un_kbase (moved_obj (uio_rw u) buf obj ptr off n) (off + n))) ->
  wp (on_env (uiomove_on buf ptr n)) Q (s, u).
Proof.
  intros Hk Hc Hp Hl HQ. unfold on_env. apply wp_zoom. unfold uiomove_on, wp.
  rewrite (uiomove_kernel ptr n buf (fs_env (s, u)) obj off) by done.
  unfold put_env. cbn [fst snd xuio umem set_uio fs_env]. by rewrite set_umem_id.
Qed.

Lemma wp_uiomovezeros n (Q : errno + unit -> fsio -> Prop) s u obj off :
  kernel_uio u obj off -> can_move u n -> uio_rw u = UIO_READ ->
  Q (inr tt) (s, advanced u n (un_kbase (splice obj off (replicate (Z.to_nat n) 0)) (off + n))) ->
  wp (on_env (uiomovezeros n)) Q (s, u).
Proof.
  intros Hk Hc Hrw HQ. unfold on_env. apply wp_zoom. unfold wp.
  rewrite (uiomovezeros_kernel n (fs_env (s, u)) obj off) by done.
  unfold put_env. cbn [fst snd xuio umem set_uio fs_env]. by rewrite set_umem_id.
Qed.

(** The state [s] after reading [n] bytes of a request that began as [u]: nothing of
    the volume changed, the bytes of the file are in the request's object. *)
Definition has_read (s : fs) (sv : sfs_vnode) (u : uio) (obj : list Z) (o n : Z) (t : fsio) : Prop :=
  disk_becomes s (fst t) (blk s) /\
  snd t = advanced u n (un_kbase (splice obj o (fbytes s sv (uio_offset u) n)) (o + n)).

(** And after writing [n] bytes of it. *)
Definition has_written (s : fs) (p : ptr) (sv : sfs_vnode) (u : uio) (obj : list Z) (o n : Z) (t : fsio) : Prop :=
  exists sv', wrote s (fst t) p sv sv' (uio_offset u) (slice obj o n) /\
              snd t = advanced u n (un_kbase obj (o + n)).

Lemma has_read_0 s sv u obj o : fs_inv s -> kernel_uio u obj o -> has_read s sv u obj o 0 (s, u).
Proof.
  intros Hi Hk. split; [apply disk_refl, Hi|]. simpl. rewrite fbytes_0, splice_nil, Z.add_0_r.
  by rewrite advanced_0 by apply Hk.
Qed.

Lemma has_written_0 s p sv u obj o : fs_inv s -> file_at s p sv -> kernel_uio u obj o ->
  has_written s p sv u obj o 0 (s, u).
Proof.
  intros Hi Hf Hk. exists sv. rewrite slice_nil. split; [apply grows_wrote; [done|done|by apply grows_refl]|].
  simpl. rewrite Z.add_0_r. by rewrite advanced_0 by apply Hk.
Qed.

(** One more read composes with those before. *)
Lemma has_read_step s sv u obj o n m t t' : fs_inv s -> kernel_uio u obj o -> 0 <= n -> 0 <= m -> n + m <= iov_len u ->
  has_read s sv u obj o n t ->
  has_read (fst t) sv (snd t) (splice obj o (fbytes s sv (uio_offset u) n)) (o + n) m t' ->
  has_read s sv u obj o (n + m) t'.
Proof.
  intros Hi Hk Hn Hm Hfit [Hd Hu] [Hd' Hu']. pose proof (ku_fits _ _ _ Hk). pose proof (ku_off _ _ _ Hk).
  split; [by eapply disk_read_trans|]. rewrite Hu', Hu, advanced_advanced. f_equal.
  change (uio_offset (advanced u n _)) with (uio_offset u + n).
  rewrite (fbytes_ext s (fst t) sv sv (uio_offset u + n) m) by (intros x _; by apply fbyte_read).
  assert (lenZ (fbytes s sv (uio_offset u) n) = n) as Hl by (by apply lenZ_fbytes).
  assert (lenZ (fbytes s sv (uio_offset u + n) m) = m) as Hl' by (by apply lenZ_fbytes).
  rewrite <- Hl at 2. rewrite splice_splice by lia. rewrite fbytes_app by done. f_equal. lia.
Qed.

Lemma has_written_step s p sv u obj o n m t t' sv1 : file_at s p sv -> kernel_uio u obj o ->
  0 <= n -> 0 <= m -> n + m <= iov_len u ->
  wrote s (fst t) p sv sv1 (uio_offset u) (slice obj o n) -> snd t = advanced u n (un_kbase obj (o + n)) ->
  has_written (fst t) p sv1 (snd t) obj (o + n) m t' ->
  has_written s p sv u obj o (n + m) t'.
Proof.
  intros Hf Hk Hn Hm Hfit W Hu (sv2 & W' & Hu'). pose proof (ku_fits _ _ _ Hk). pose proof (ku_off _ _ _ Hk).
  exists sv2. split.
  - rewrite <- slice_app by lia. eapply wrote_trans; [exact Hf|exact W|]. rewrite lenZ_slice by lia.
    by rewrite Hu in W'.
  - rewrite Hu', Hu, advanced_advanced. f_equal. f_equal. lia.
Qed.
End requests.

(** ** Blocks and parts of blocks *)

Section pieces.
Context {D : Type} {B : BlockDevice D} {R : ReliableDevice B}.
Notation fs := (sfs_fs D).
Notation fsio := (fsio (D := D)).

(** The request's next [n] bytes lie within one block of the file. *)
Record piece (u : uio) (n : Z) : Prop := {
  pc_move : can_move u n;
  pc_off : 0 <= uio_offset u < max_offset;
  pc_fit : uio_offset u mod 512 + n <= 512;
}.

Lemma file_block off : 0 <= off < max_offset -> u32 (Z.quot off SFS_BLOCKSIZE) = off / 512.
Proof.
  intros Ho. rewrite Z.quot_div_nonneg by (unfold SFS_BLOCKSIZE; lia).
  pose proof (offset_block off Ho). unfold max_double in *. apply u32_id. unfold is_u32, SFS_BLOCKSIZE. lia.
Qed.

Lemma partialio_read s p sv u n obj o : fs_inv s -> file_at s p sv -> kernel_uio u obj o -> piece u n ->
  uio_rw u = UIO_READ -> no_gap s sv (uio_offset u / 512) ->
  wp (sfs_partialio p (uio_offset u mod 512) n)
     (fun r t => r = inr tt /\ has_read s sv u obj o n t) (s, u).
Proof.
  intros Hi Hf Hk [Hc Ho Hfit] Hrw Hgap. pose proof Hc as (Hn & _).
  pose proof (Z.mod_pos_bound (uio_offset u) 512) as Hm.
  unfold sfs_partialio. apply wp_bind, wp_get_uio. unfold is_write. rewrite Hrw, bool_decide_false by done.
  apply wp_bind, wp_assert. rewrite u32_id by (unfold is_u32; lia).
  split; [apply Z.leb_le; unfold SFS_BLOCKSIZE; lia|]. rewrite file_block by done.
  apply wp_tbind, wp_on_fs.
  eapply wp_mono; [apply bmap_lookup_correct; try done; by apply offset_block|]. intros r s1 [-> Hd].
  destruct (leaf_of_valid _ (offset_block _ Ho)) as [Hv _]. set (b := fval s sv (leaf_of (uio_offset u / 512))).
  assert (forall buf s2, lenZ buf = 512 -> disk_becomes s s2 (blk s) ->
    slice buf (uio_offset u mod 512) n = fbytes s sv (uio_offset u) n ->
    wp (let! r := on_env (uiomove_on buf (uio_offset u mod 512) n) in
        match fst r with inl e => fail e | inr _ => ok tt end)
       (fun r t => r = inr tt /\ has_read s sv u obj o n t) (s2, u)) as Hmove.
  { intros buf s2 Hl Hd2 Hs. apply wp_bind. eapply wp_uiomove_on; [done|done|lia|lia|].
    rewrite Hrw. cbn [fst]. apply wp_ret. split; [done|]. split; [done|]. unfold moved_obj. by rewrite Hs. }
  apply wp_tbind. destruct (Z.eqb_spec b 0) as [H0|H0].
  - rewrite bool_decide_true by done. apply wp_bind, wp_assert. split; [done|]. apply wp_ret.
    apply Hmove; [done|done|]. rewrite fbytes_hole by (done || lia).
    apply nthZ_ext; rewrite lenZ_slice by (change (lenZ zero_block) with 512; lia); [rewrite lenZ_replicate; lia|].
    intros i Hi'. rewrite nthZ_slice by lia. unfold zero_block. by rewrite !nthZ_replicate by lia.
  - assert (used s b) as Hu by (by apply (tree_used _ _ _ (fa_tree _ _ _ Hf))).
    pose proof (disk_becomes_inv _ _ _ Hi Hd) as Hi1. pose proof (used_range _ _ Hi Hu) as Hr.
    destruct (blk_ok s b Hi Hr) as [Hl _].
    apply wp_on_fs, wp_rblock; [apply Hi1|by rewrite (disk_becomes_size _ _ _ Hd)|done|].
    intros s2 Hd2. rewrite (disk_becomes_blk _ _ _ b Hd). apply Hmove; [done|by eapply disk_read_trans|].
    symmetry. apply fbytes_block; (done || lia).
Qed.

Lemma partialio_write s p sv u n obj o : fs_inv s -> file_at s p sv -> kernel_uio u obj o -> piece u n ->
  uio_rw u = UIO_WRITE -> bytes_ok obj ->
  wp (sfs_partialio p (uio_offset u mod 512) n)
     (fun r t => match r with
                 | inr _ => has_written s p sv u obj o n t
                 | inl e => e = ENOSPC /\ has_written s p sv u obj o 0 t
                 end) (s, u).
Proof.
  intros Hi Hf Hk [Hc Ho Hfit] Hrw Hby. pose proof Hc as (Hn & Hn' & _).
  pose proof (Z.mod_pos_bound (uio_offset u) 512) as Hm.
  pose proof (ku_off _ _ _ Hk) as Hok. pose proof (ku_fits _ _ _ Hk) as Hfits.
  unfold sfs_partialio. apply wp_bind, wp_get_uio. unfold is_write. rewrite Hrw, bool_decide_true by done.
  apply wp_bind, wp_assert. rewrite u32_id by (unfold is_u32; lia).
  split; [apply Z.leb_le; unfold SFS_BLOCKSIZE; lia|]. rewrite file_block by done.
  apply wp_tbind, wp_on_fs.
  eapply wp_mono; [apply (bmap_alloc_correct s p sv); try done; by apply offset_block|].
  intros [e|b] s1 (sv1 & G & Hr).
  { split; [done|]. exists sv1. rewrite slice_nil. split; [by apply grows_wrote|].
    cbn [snd]. rewrite Z.add_0_r. by rewrite advanced_0 by apply Hk. }
  destruct Hr as [-> H0]. set (b := fval s1 sv1 (leaf_of (uio_offset u / 512))) in *.
  destruct (leaf_of_valid _ (offset_block _ Ho)) as [Hv _].
  pose proof (gr_inv _ _ _ _ _ G) as Hi1. pose proof (gr_file _ _ _ _ _ G) as Hf1.
  assert (used s1 b) as Hu by (by apply (tree_used _ _ _ (fa_tree _ _ _ Hf1))).
  pose proof (used_range _ _ Hi1 Hu) as Hr. destruct (blk_ok s1 b Hi1 Hr) as [Hl Hyb]. unfold SFS_BLOCKSIZE in Hl.
  apply wp_tbind. rewrite (proj2 (Z.eqb_neq b 0) H0).
  apply wp_on_fs, wp_rblock; [apply Hi1|done|done|]. intros s2 Hd2.
  pose proof (disk_becomes_inv _ _ _ Hi1 Hd2) as Hi2.
  apply wp_bind. eapply wp_uiomove_on; [done|done|lia|lia|]. rewrite Hrw. cbn [fst snd moved_buf moved_obj].
  assert (lenZ (slice obj o n) = n) as Hls by (apply lenZ_slice; lia).
  apply wp_on_fs, wp_wblock.
  - apply Hi2.
  - by rewrite (disk_becomes_size _ _ _ Hd2).
  - rewrite lenZ_splice; lia || done.
  - unfold bytes_ok, splice, slice. apply Forall_app. split; [by apply Forall_take|]. apply Forall_app.
    split; [by apply Forall_take, Forall_drop|by apply Forall_drop].
  - intros s3 Hd3. exists sv1. split; [|done]. cbn [fst snd].
    change (slice obj o n) with ([] ++ slice obj o n). eapply wrote_trans; [exact Hf|by apply grows_wrote|].
    change (lenZ []) with 0. rewrite Z.add_0_r.
    apply leaf_write_wrote; [done|done|done|lia|done|].
    eapply disk_becomes_trans; [exact Hd2|]. destruct Hd3 as (d & -> & Hok3 & Hn3 & Hs3).
    exists d. split; [done|]. split; [done|]. split; [done|]. intros k. rewrite Hs3.
    fold b. by rewrite (disk_becomes_blk _ _ _ _ Hd2).
Qed.
(** A whole block, handed to the device with the request itself. *)
Lemma block_move u obj o b rw : kernel_uio u obj o -> can_move u SFS_BLOCKSIZE -> uio_rw u = rw ->
  0 < b < 2 ^ 22 - 1 ->
  sector_request (set_resid (set_offset u (b * SFS_BLOCKSIZE)) SFS_BLOCKSIZE) b obj o.
Proof.
  intros [Hb Hs Hsp Ho Hf] (Hn & Hl & Hr & Hi & _) Hrw Hrange. unfold SFS_BLOCKSIZE in *. split; simpl; try done.
  unfold can_move, SECTSIZE, is_u32, is_s32 in *. simpl. lia.
Qed.

(** What [sfs_blockio] leaves in the request after the device advanced it. *)
Lemma blockio_restore u b base : can_move u SFS_BLOCKSIZE -> 0 <= uio_offset u -> uio_resid u < 2 ^ 31 ->
  0 < b < 2 ^ 22 - 1 ->
  let diskoff := b * SFS_BLOCKSIZE in
  let u1 := advanced (set_resid (set_offset u diskoff) SFS_BLOCKSIZE) SECTSIZE base in
  forall (r : errno + unit) (s : fs) (Q : errno + unit -> fsio -> Prop),
  Q r (s, advanced u SFS_BLOCKSIZE base) ->
  wp (let! u' := get_uio in
      let! d := int_of (uio_offset u' - diskoff) in
      let! off := int_of (d + uio_offset u) in
      do! put_uio (set_resid (set_offset u' off)
                     (u32 (u32 (uio_resid u' - SFS_BLOCKSIZE) + s32 (uio_resid u)))) in
      ret r) Q (s, u1).
Proof.
  intros (Hn & Hl & Hr & Hi & Ho & Ho') Hoff Hres Hb diskoff u1 r s Q HQ. apply wp_bind, wp_get_uio.
  unfold is_u32, is_s32 in *. unfold u1 at 1. cbn [advanced set_resid set_offset uio_offset].
  change SECTSIZE with 512. change SFS_BLOCKSIZE with 512 in *.
  apply wp_bind, wp_int_of. replace (diskoff + 512 - diskoff) with 512 by lia.
  split; [unfold is_s32; lia|]. apply wp_bind, wp_int_of. split; [unfold is_s32; lia|].
  apply wp_bind, wp_put_uio, wp_ret. unfold u1, set_resid, set_offset, advanced in *. simpl. change SECTSIZE with 512.
  replace (512 + uio_offset u) with (uio_offset u + 512) by lia.
  assert (u32 (u32 (512 - 512 - 512) + s32 (uio_resid u)) = uio_resid u - 512) as ->; [|exact HQ].
  rewrite s32_id by (unfold is_s32; lia). change (u32 (512 - 512 - 512)) with (2 ^ 32 - 512).
  unfold u32. replace (2 ^ 32 - 512 + uio_resid u) with (uio_resid u - 512 + 1 * 2 ^ 32) by lia.
  rewrite Z.mod_add by lia. apply Z.mod_small. lia.
Qed.

Lemma blockio_read s p sv u obj o : fs_inv s -> file_at s p sv -> kernel_uio u obj o -> piece u SFS_BLOCKSIZE ->
  uio_rw u = UIO_READ -> uio_resid u < 2 ^ 31 -> no_gap s sv (uio_offset u / 512) ->
  wp (sfs_blockio p) (fun r t => r = inr tt /\ has_read s sv u obj o SFS_BLOCKSIZE t) (s, u).
Proof.
  intros Hi Hf Hk [Hc Ho Hfit] Hrw Hres Hgap. pose proof Hc as (Hn & Hl & _).
  pose proof (Z.mod_pos_bound (uio_offset u) 512) as Hm. unfold SFS_BLOCKSIZE in Hfit, Hn.
  assert (uio_offset u mod 512 = 0) as Hz by lia.
  unfold sfs_blockio. apply wp_bind, wp_get_uio. unfold is_write. rewrite Hrw, bool_decide_false by done.
  rewrite file_block by done. apply wp_tbind, wp_on_fs.
  eapply wp_mono; [apply bmap_lookup_correct; try done; by apply offset_block|]. intros r s1 [-> Hd].
  destruct (leaf_of_valid _ (offset_block _ Ho)) as [Hv _]. set (b := fval s sv (leaf_of (uio_offset u / 512))).
  destruct (Z.eqb_spec b 0) as [H0|H0].
  - rewrite bool_decide_true by done. apply wp_bind, wp_assert. split; [done|].
    eapply wp_uiomovezeros; [done|done|done|]. split; [done|]. split; [done|]. cbn [snd]. do 3 f_equal.
    symmetry. apply fbytes_hole; unfold SFS_BLOCKSIZE; (done || lia).
  - assert (used s b) as Hu by (by apply (tree_used _ _ _ (fa_tree _ _ _ Hf))).
    pose proof (disk_becomes_inv _ _ _ Hi Hd) as Hi1. pose proof (used_range _ _ Hi Hu) as Hr.
    pose proof (fi_disk _ Hi) as [_ Hmax].
    destruct (blk_ok s b Hi Hr) as [Hlen _].
    assert (s32 (u32 (b * SFS_BLOCKSIZE)) = b * SFS_BLOCKSIZE) as ->.
    { unfold SFS_BLOCKSIZE. rewrite u32_id, s32_id by (unfold is_u32, is_s32; lia). done. }
    apply wp_bind, wp_assert. split; [apply Z.leb_le; unfold SFS_BLOCKSIZE; lia|].
    apply wp_bind, wp_put_uio.
    set (u0 := set_resid (set_offset u (b * SFS_BLOCKSIZE)) SFS_BLOCKSIZE).
    assert (0 < b < 2 ^ 22 - 1) as Hb22 by lia.
    destruct (device_read s1 u0 b obj o) as (s2 & Hd2 & Hrun); try done; [apply Hi1| |by eapply block_move|].
    { by rewrite (disk_becomes_size _ _ _ Hd). }
    apply wp_bind. eapply wp_of_eq; [exact (rwblock_first _ _ _ Hrun)|].
    apply blockio_restore; [done|lia|done|done|]. split; [done|]. split; [by eapply disk_read_trans|]. cbn [snd].
    change SECTSIZE with SFS_BLOCKSIZE. do 3 f_equal. rewrite (disk_becomes_blk _ _ _ b Hd).
    rewrite (fbytes_block s sv (uio_offset u) SFS_BLOCKSIZE b) by (unfold SFS_BLOCKSIZE; done || lia).
    rewrite Hz, <- Hlen. symmetry. apply slice_full.
Qed.

Lemma blockio_write s p sv u obj o : fs_inv s -> file_at s p sv -> kernel_uio u obj o -> piece u SFS_BLOCKSIZE ->
  uio_rw u = UIO_WRITE -> uio_resid u < 2 ^ 31 -> bytes_ok obj ->
  wp (sfs_blockio p)
     (fun r t => match r with
                 | inr _ => has_written s p sv u obj o SFS_BLOCKSIZE t
                 | inl e => e = ENOSPC /\ has_written s p sv u obj o 0 t
                 end) (s, u).
Proof.
  intros Hi Hf Hk [Hc Ho Hfit] Hrw Hres Hby. pose proof Hc as (Hn & Hn' & _).
  pose proof (ku_off _ _ _ Hk) as Hok. pose proof (ku_fits _ _ _ Hk) as Hfits.
  pose proof (Z.mod_pos_bound (uio_offset u) 512) as Hm. unfold SFS_BLOCKSIZE in Hfit, Hn, Hn'.
  assert (uio_offset u mod 512 = 0) as Hz by lia.
  unfold sfs_blockio. apply wp_bind, wp_get_uio. unfold is_write. rewrite Hrw, bool_decide_true by done.
  rewrite file_block by done. apply wp_tbind, wp_on_fs.
  eapply wp_mono; [apply (bmap_alloc_correct s p sv); try done; by apply offset_block|].
  intros [e|b] s1 (sv1 & G & Hr).
  { split; [done|]. exists sv1. rewrite slice_nil. split; [by apply grows_wrote|].
    cbn [snd]. rewrite Z.add_0_r. by rewrite advanced_0 by apply Hk. }
  destruct Hr as [-> H0]. set (b := fval s1 sv1 (leaf_of (uio_offset u / 512))) in *.
  destruct (leaf_of_valid _ (offset_block _ Ho)) as [Hv _].
  pose proof (gr_inv _ _ _ _ _ G) as Hi1. pose proof (gr_file _ _ _ _ _ G) as Hf1.
  assert (used s1 b) as Hu by (by apply (tree_used _ _ _ (fa_tree _ _ _ Hf1))).
  pose proof (used_range _ _ Hi1 Hu) as Hr. destruct (blk_ok s1 b Hi1 Hr) as [Hl Hyb]. unfold SFS_BLOCKSIZE in Hl.
  pose proof (fi_disk _ Hi1) as [_ Hmax].
  rewrite (proj2 (Z.eqb_neq b 0) H0).
  assert (s32 (u32 (b * SFS_BLOCKSIZE)) = b * SFS_BLOCKSIZE) as ->.
  { unfold SFS_BLOCKSIZE. rewrite u32_id, s32_id by (unfold is_u32, is_s32; lia). done. }
  apply wp_bind, wp_assert. split; [apply Z.leb_le; unfold SFS_BLOCKSIZE; lia|].
  apply wp_bind, wp_put_uio.
  set (u0 := set_resid (set_offset u (b * SFS_BLOCKSIZE)) SFS_BLOCKSIZE).
  assert (0 < b < 2 ^ 22 - 1) as Hb22 by lia.
  destruct (device_write s1 u0 b obj o) as (s2 & Hd2 & Hrun); try done; [apply Hi1|by eapply block_move|].
  apply wp_bind. eapply wp_of_eq; [exact (rwblock_first _ _ _ Hrun)|].
  apply blockio_restore; [done|lia|done|done|]. exists sv1. split; [|done]. cbn [fst].
  change (slice obj o SFS_BLOCKSIZE) with ([] ++ slice obj o 512).
  eapply wrote_trans; [exact Hf|by apply grows_wrote|]. change (lenZ []) with 0. rewrite Z.add_0_r.
  assert (lenZ (slice obj o 512) = 512) as Hls by (apply lenZ_slice; lia).
  apply leaf_write_wrote; [done|done|done|lia|done|]. rewrite Hz.
  rewrite splice_full by (rewrite Hls; symmetry; exact Hl). exact Hd2.
Qed.
End pieces.

(** ** The whole request *)

Section request.
Context {D : Type} {B : BlockDevice D} {R : ReliableDevice B}.
Notation fs := (sfs_fs D).
Notation fsio := (fsio (D := D)).

(** A kernel request that stays below the triple indirect area. *)
Record io_request (u : uio) (obj : list Z) (o : Z) : Prop := {
  iq_kernel : kernel_uio u obj o;
  iq_move : can_move u (uio_resid u);
  iq_some : 0 < uio_resid u;
  iq_off : 0 <= uio_offset u < max_offset;
  iq_end : uio_offset u + uio_resid u <= max_offset;
}.

Definition no_gaps (s : fs) (sv : sfs_vnode) (off n : Z) : Prop :=
  forall x, off <= x < off + n -> no_gap s sv (x / 512).

Lemma no_gap_read s s' sv fb : disk_becomes s s' (blk s) -> no_gap s sv fb -> no_gap s' sv fb.
Proof. intros Hd Hg k j Hl. rewrite !(fval_read _ _ _ _ Hd). exact (Hg k j Hl). Qed.

Section at_point.
Context (s : fs) (p : ptr) (sv : sfs_vnode) (u : uio) (obj : list Z) (o : Z).
Hypothesis Hi : fs_inv s.
Hypothesis Hf : file_at s p sv.
Hypothesis Hq : io_request u obj o.

(** The part of the request that begins after [n] bytes. *)
Lemma rest_piece n m base : 0 <= n -> 0 <= m -> n + m <= uio_resid u -> uio_offset u + n < max_offset ->
  (uio_offset u + n) mod 512 + m <= 512 -> piece (advanced u n base) m.
Proof.
  intros Hn Hm Hnm Hlt Hfit. destruct Hq as [Hk Hc Hpos Ho He]. split; simpl; [|lia|done].
  eapply can_move_advanced; [|done|done]. eapply can_move_le; [exact Hc|lia].
Qed.

Definition reads (skip m : Z) (c : E fsio unit) : Prop :=
  forall s1 u1 obj1 o1, fs_inv s1 -> file_at s1 p sv -> kernel_uio u1 obj1 o1 -> piece u1 m ->
    uio_rw u1 = UIO_READ -> uio_resid u1 < 2 ^ 31 -> no_gap s1 sv (uio_offset u1 / 512) ->
    uio_offset u1 mod 512 = skip ->
    wp c (fun r t => r = inr tt /\ has_read s1 sv u1 obj1 o1 m t) (s1, u1).

Lemma read_more n m skip c t : reads skip m c -> uio_rw u = UIO_READ ->
  has_read s sv u obj o n t -> 0 <= n -> 0 <= m -> n + m <= uio_resid u -> uio_offset u + n < max_offset ->
  (uio_offset u + n) mod 512 = skip -> skip + m <= 512 -> no_gap s sv ((uio_offset u + n) / 512) ->
  wp c (fun r t => r = inr tt /\ has_read s sv u obj o (n + m) t) t.
Proof.
  intros Hc Hrw Hr Hn Hm Hnm Hlt Hskip Hfit Hg. pose proof Hr as [Hd Hu]. pose proof Hq as [Hk Hmv Hpos Ho He].
  pose proof Hmv as (_ & Hil & _). unfold max_offset, max_double in *.
  pose proof (grows_read s (fst t) p sv Hi Hf Hd) as G.
  assert (lenZ (fbytes s sv (uio_offset u) n) = n) as Hlb by (by apply lenZ_fbytes).
  pose proof (ku_fits _ _ _ Hk). pose proof (ku_off _ _ _ Hk).
  destruct t as [s1 u1]. cbn [fst snd] in *. subst u1.
  eapply wp_mono; [eapply Hc|].
  - apply G.
  - apply G.
  - eapply kernel_uio_advanced; [exact Hk|done|]. apply lenZ_splice; lia.
  - apply rest_piece; unfold max_offset, max_double; (done || lia).
  - done.
  - simpl. lia.
  - simpl. eapply no_gap_read; [exact Hd|exact Hg].
  - done.
  - intros r t' [-> Hr']. split; [done|]. eapply has_read_step; try done. lia.
Qed.

Definition writes (skip m : Z) (c : E fsio unit) : Prop :=
  forall s1 sv1 u1 obj1 o1, fs_inv s1 -> file_at s1 p sv1 -> kernel_uio u1 obj1 o1 -> piece u1 m ->
    uio_rw u1 = UIO_WRITE -> uio_resid u1 < 2 ^ 31 -> bytes_ok obj1 ->
    uio_offset u1 mod 512 = skip ->
    wp c (fun r t => match r with
                     | inr _ => has_written s1 p sv1 u1 obj1 o1 m t
                     | inl e => e = ENOSPC /\ has_written s1 p sv1 u1 obj1 o1 0 t
                     end) (s1, u1).

(** How far a write got: all [n] bytes, or fewer, up to a block boundary, and the
    disk is full. *)
Definition stopped_at (k : Z) : Prop := k = 0 \/ (uio_offset u + k) mod 512 = 0.
Definition write_post (n : Z) (r : errno + unit) (t : fsio) : Prop :=
  match r with
  | inr _ => has_written s p sv u obj o n t
  | inl e => e = ENOSPC /\ exists k, 0 <= k < n /\ stopped_at k /\ has_written s p sv u obj o k t
  end.

Lemma write_more n m skip c t : writes skip m c -> uio_rw u = UIO_WRITE -> bytes_ok obj ->
  has_written s p sv u obj o n t -> 0 <= n -> 0 < m -> n + m <= uio_resid u -> uio_offset u + n < max_offset ->
  (uio_offset u + n) mod 512 = skip -> skip + m <= 512 -> n = 0 \/ skip = 0 ->
  wp c (write_post (n + m)) t.
Proof.
  intros Hc Hrw Hby Hw Hn Hm Hnm Hlt Hskip Hfit Hst. pose proof Hw as (sv1 & W & Hu). pose proof Hq as [Hk Hmv Hpos Ho He].
  pose proof Hmv as (_ & Hil & _). unfold max_offset, max_double in *.
  pose proof (ku_fits _ _ _ Hk). pose proof (ku_off _ _ _ Hk).
  destruct t as [s1 u1]. cbn [fst snd] in *. subst u1.
  eapply wp_mono; [eapply Hc|].
  - apply W.
  - apply W.
  - eapply kernel_uio_advanced; [exact Hk|done|done].
  - apply rest_piece; unfold max_offset, max_double; (done || lia).
  - done.
  - simpl. lia.
  - done.
  - done.
  - intros [e|[]] t' Hr'.
    + destruct Hr' as [-> Hw']. split; [done|]. exists n. split; [lia|]. split; [unfold stopped_at; lia|].
      rewrite <- (Z.add_0_r n). apply (has_written_step s p sv u obj o n 0 (s1, advanced u n (un_kbase obj (o + n))) t' sv1); (done || lia).
    + apply (has_written_step s p sv u obj o n m (s1, advanced u n (un_kbase obj (o + n))) t' sv1); (done || lia).
Qed.
End at_point.

Lemma partialio_reads p sv skip m : reads p sv skip m (sfs_partialio p skip m).
Proof. intros s1 u1 obj1 o1 Hi Hf Hk Hp Hrw Hr Hg <-. by apply partialio_read. Qed.

Lemma blockio_reads p sv : reads p sv 0 SFS_BLOCKSIZE (sfs_blockio p).
Proof. intros s1 u1 obj1 o1 Hi Hf Hk Hp Hrw Hr Hg _. by apply blockio_read. Qed.

Lemma partialio_writes p skip m : writes p skip m (sfs_partialio p skip m).
Proof. intros s1 sv1 u1 obj1 o1 Hi Hf Hk Hp Hrw Hr Hb <-. by apply partialio_write. Qed.

Lemma blockio_writes p : writes p 0 SFS_BLOCKSIZE (sfs_blockio p).
Proof. intros s1 sv1 u1 obj1 o1 Hi Hf Hk Hp Hrw Hr Hb _. by apply blockio_write. Qed.
End request.

(** ** The body of [sfs_io], for reads and writes alike *)

Section body.
Context {D : Type} {B : BlockDevice D} {R : ReliableDevice B}.
Notation fsio := (fsio (D := D)).
Context (p : ptr) (u : uio) (obj : list Z) (o : Z).
(** [P n] holds after [n] bytes; [Qe] where a piece fails. *)
Context (P : Z -> fsio -> Prop) (Qe : errno -> fsio -> Prop).
Hypothesis Hq : io_request u obj o.
Hypothesis P_uio : forall n t, P n t -> exists b, snd t = advanced u n b.

Definition moves (skip m : Z) (c : E fsio unit) : Prop :=
  forall n t, P n t -> 0 <= n < uio_resid u -> 0 < m -> n + m <= uio_resid u -> n = 0 \/ skip = 0 ->
    (uio_offset u + n) mod 512 = skip -> skip + m <= 512 ->
    wp c (fun r t' => match r with inr _ => P (n + m) t' | inl e => Qe e t' end) t.

Hypothesis partial_moves : forall skip m, moves skip m (sfs_partialio p skip m).
Hypothesis block_moves : moves 0 SFS_BLOCKSIZE (sfs_blockio p).

Lemma rem_offset x : 0 <= x -> u32 (Z.rem x SFS_BLOCKSIZE) = x mod 512.
Proof.
  intros Hx. rewrite Z.rem_mod_nonneg by (unfold SFS_BLOCKSIZE; lia). pose proof (Z.mod_pos_bound x 512).
  apply u32_id. unfold is_u32, SFS_BLOCKSIZE. lia.
Qed.

Lemma wp_uio_at n t (Q : uio -> fsio -> Prop) : P n t -> (forall b, Q (advanced u n b) t) -> wp get_uio Q t.
Proof. intros HP HQ. destruct (P_uio n t HP) as [b Hb]. destruct t as [s u']. simpl in Hb. subst u'. apply wp_get_uio, HQ. Qed.

(** The whole blocks and what is left after them, from an aligned point. *)
Lemma body_aligned n t : P n t -> 0 <= n < uio_resid u -> (uio_offset u + n) mod 512 = 0 ->
  wp (try! _ := for_ (Z.to_nat ((uio_resid u - n) / SFS_BLOCKSIZE)) 0 (fun _ => sfs_blockio p) in
      let! u := get_uio in
      do! assert_ (uio_resid u <? SFS_BLOCKSIZE) in
      if 0 <? uio_resid u then sfs_partialio p 0 (uio_resid u) else ok tt)
     (fun r t' => match r with inr _ => P (uio_resid u) t' | inl e => Qe e t' end) t.
Proof.
  intros HP Hn Hal. change SFS_BLOCKSIZE with 512. set (k := (uio_resid u - n) / 512).
  pose proof (Z.div_mod (uio_resid u - n) 512 ltac:(lia)) as Hdm. fold k in Hdm.
  pose proof (Z.mod_pos_bound (uio_resid u - n) 512 ltac:(lia)) as Hmod.
  assert (0 <= k) as Hk by (apply Z.div_pos; lia).
  assert (forall i, (uio_offset u + (n + 512 * i)) mod 512 = 0) as Hali.
  { intros i. replace (uio_offset u + (n + 512 * i)) with (uio_offset u + n + i * 512) by lia. by rewrite Z.mod_add by lia. }
  apply wp_tbind. apply (wp_for (fun i t => P (n + 512 * i) t)).
  - by rewrite Z.mul_0_r, Z.add_0_r.
  - intros i t1 Hi HP1. eapply wp_mono; [apply (block_moves (n + 512 * i)); try done|].
    + lia.
    + change SFS_BLOCKSIZE with 512. lia.
    + by right.
    + intros [e|[]] t2; [done|]. change SFS_BLOCKSIZE with 512. by replace (n + 512 * i + 512) with (n + 512 * (i + 1)) by lia.
  - rewrite Z2Nat.id, Z.add_0_l by done. intros t1 HP1. apply wp_bind. eapply wp_uio_at; [exact HP1|]. intros b.
    cbn [uio_resid advanced]. replace (uio_resid u - (n + 512 * k)) with ((uio_resid u - n) mod 512) by lia.
    apply wp_bind, wp_assert. split; [apply Z.ltb_lt; lia|].
    destruct (Z.ltb_spec 0 ((uio_resid u - n) mod 512)) as [Hlt|Hge].
    + eapply wp_mono; [apply (partial_moves 0 _ (n + 512 * k)); try done; lia|].
      intros [e|[]] t2; [done|]. by replace (n + 512 * k + (uio_resid u - n) mod 512) with (uio_resid u) by lia.
    + apply wp_ret. by replace (uio_resid u) with (n + 512 * k) by lia.
Qed.

Lemma io_body_correct t : P 0 t ->
  wp (io_body p) (fun r t' => match r with inr _ => P (uio_resid u) t' | inl e => Qe e t' end) t.
Proof.
  intros HP. pose proof Hq as [_ Hmv Hpos Ho _]. pose proof (Z.mod_pos_bound (uio_offset u) 512 ltac:(lia)) as Hm.
  unfold io_body. apply wp_bind. eapply wp_uio_at; [exact HP|]. intros b. cbn [uio_offset uio_resid advanced].
  rewrite Z.add_0_r, Z.sub_0_r, rem_offset by lia. apply wp_tbind.
  set (n0 := if uio_offset u mod 512 =? 0 then 0
             else if uio_resid u <? SFS_BLOCKSIZE - uio_offset u mod 512 then uio_resid u
             else SFS_BLOCKSIZE - uio_offset u mod 512).
  assert (0 <= n0 <= uio_resid u /\ (n0 = uio_resid u \/ (n0 < uio_resid u /\ (uio_offset u + n0) mod 512 = 0))) as [Hn0 Hcase].
  { unfold n0. change SFS_BLOCKSIZE with 512. destruct (Z.eqb_spec (uio_offset u mod 512) 0) as [Hz|Hz].
    - split; [lia|]. right. rewrite Z.add_0_r. lia.
    - destruct (Z.ltb_spec (uio_resid u) (512 - uio_offset u mod 512)); [split; [lia|by left]|].
      split; [lia|]. destruct (decide (uio_resid u = 512 - uio_offset u mod 512)); [left; lia|right].
      split; [lia|]. pose proof (Z.div_mod (uio_offset u) 512 ltac:(lia)).
      replace (uio_offset u + (512 - uio_offset u mod 512)) with ((uio_offset u / 512 + 1) * 512) by lia.
      apply Z.mod_mul. lia. }
  eapply wp_mono with (Q := fun r t' => match r with inr _ => P n0 t' | inl e => Qe e t' end).
  { unfold n0. destruct (uio_offset u mod 512 =? 0); [by apply wp_ret|].
    set (m := if uio_resid u <? SFS_BLOCKSIZE - uio_offset u mod 512 then _ else _).
    assert (0 < m <= uio_resid u /\ uio_offset u mod 512 + m <= 512) as [Hm1 Hm2].
    { unfold m. change SFS_BLOCKSIZE with 512. destruct (Z.ltb_spec (uio_resid u) (512 - uio_offset u mod 512)); lia. }
    apply (partial_moves (uio_offset u mod 512) m 0); (done || lia || by rewrite Z.add_0_r). }
  intros [e|[]] t1 HP1; [done|]. apply wp_bind. eapply wp_uio_at; [exact HP1|]. intros b1.
  cbn [uio_offset uio_resid advanced]. destruct (Z.eqb_spec (uio_resid u - n0) 0) as [He|He].
  { apply wp_ret. by replace (uio_resid u) with n0 by lia. }
  destruct Hcase as [|[Hlt Hal]]; [lia|]. apply wp_bind, wp_assert. split.
  { rewrite Z.rem_mod_nonneg by (unfold SFS_BLOCKSIZE; lia). by apply Z.eqb_eq. }
  apply body_aligned; (done || lia).
Qed.
End body.

(** ** [sfs_io] *)

Section sfs_io.
Context {D : Type} {B : BlockDevice D} {R : ReliableDevice B}.
Notation fs := (sfs_fs D).
Notation fsio := (fsio (D := D)).

Lemma body_read s p sv u obj o : fs_inv s -> file_at s p sv -> io_request u obj o -> uio_rw u = UIO_READ ->
  no_gaps s sv (uio_offset u) (uio_resid u) ->
  wp (io_body p) (fun r t => r = inr tt /\ has_read s sv u obj o (uio_resid u) t) (s, u).
Proof.
  intros Hi Hf Hq Hrw Hg.
  eapply wp_mono; [apply (io_body_correct p u obj o (has_read s sv u obj o) (fun _ _ => False)); try done|].
  - intros n t [_ Hu]. eauto.
  - intros skip m n t HP Hn Hm Hnm Hst Hs Hfit.
    eapply wp_mono; [apply (read_more s p sv u obj o Hi Hf Hq n m skip); try done; try lia|].
    + apply partialio_reads.
    + pose proof (iq_end _ _ _ Hq). lia.
    + apply Hg. lia.
    + by intros r t' [-> Hr].
  - intros n t HP Hn Hm Hnm Hst Hs Hfit.
    eapply wp_mono; [apply (read_more s p sv u obj o Hi Hf Hq n SFS_BLOCKSIZE 0); try done; try lia|].
    + apply blockio_reads.
    + pose proof (iq_end _ _ _ Hq). lia.
    + apply Hg. lia.
    + by intros r t' [-> Hr].
  - apply has_read_0; [done|apply Hq].
  - intros [e|[]] t Hr; [done|]. done.
Qed.

Lemma body_write s p sv u obj o : fs_inv s -> file_at s p sv -> io_request u obj o -> uio_rw u = UIO_WRITE ->
  bytes_ok obj -> wp (io_body p) (write_post s p sv u obj o (uio_resid u)) (s, u).
Proof.
  intros Hi Hf Hq Hrw Hby. pose proof (iq_end _ _ _ Hq) as He.
  eapply wp_mono; [apply (io_body_correct p u obj o (has_written s p sv u obj o)
    (fun e t => write_post s p sv u obj o (uio_resid u) (inl e) t)); try done|].
  - intros n t (sv' & _ & Hu). eauto.
  - intros skip m n t HP Hn Hm Hnm Hst Hs Hfit.
    eapply wp_mono; [apply (write_more s p sv u obj o Hf Hq n m skip); try done; try lia; apply partialio_writes|].
    intros [e|[]] t'; [|done]. intros (-> & k & Hk & Hsk & Hw). split; [done|]. exists k. split; [lia|done].
  - intros n t HP Hn Hm Hnm Hst Hs Hfit.
    eapply wp_mono; [apply (write_more s p sv u obj o Hf Hq n SFS_BLOCKSIZE 0); try done; try lia; apply blockio_writes|].
    intros [e|[]] t'; [|done]. intros (-> & k & Hk & Hsk & Hw). split; [done|]. exists k. split; [lia|done].
  - apply has_written_0; [done|done|apply Hq].
  - by intros [e|[]] t Hr.
Qed.

(** Setting the size moves no block. *)
Lemma with_size_fbyte s n sv d x : fbyte s (set_inode (with_size n (sv_i sv)) d sv) x = fbyte s sv x.
Proof. unfold fbyte, fval. by destruct (leaf_of (x / 512)). Qed.

Lemma with_size_file s p sv n : fs_inv s -> file_at s p sv -> is_u32 n ->
  let sv' := set_inode (with_size n (sv_i sv)) true sv in
  let s' := set_heap (<[p := sv']> (sfs_heap s)) s in
  fs_inv s' /\ file_at s' p sv'.
Proof.
  intros Hi [Hh Ho Ht] Hn sv' s'. split; [by apply heap_inv|]. split.
  - apply lookup_insert_eq.
  - destruct Ho. split; simpl; done.
  - assert (forall m, val (sv_i sv') (blk s') m = val (sv_i sv) (blk s) m) as Hv by (by intros []).
    destruct Ht as [Hu Hj]. split.
    + intros m Hm. rewrite Hv. by apply Hu.
    + intros m m' Hm Hm'. rewrite !Hv. by apply Hj.
Qed.

(** What a write leaves: [n] bytes stored, the file as long as the last of them. *)
Record written (s s' : fs) (p : ptr) (sv sv' : sfs_vnode) (off : Z) (bs : list Z) : Prop := {
  wn_inv : fs_inv s';
  wn_file : file_at s' p sv';
  wn_size : sfi_size (sv_i sv') = Z.max (sfi_size (sv_i sv)) (off + lenZ bs);
  wn_meta : sv_v sv' = sv_v sv /\ sv_ino sv' = sv_ino sv /\ sfi_type (sv_i sv') = sfi_type (sv_i sv) /\
            sfi_linkcount (sv_i sv') = sfi_linkcount (sv_i sv);
  wn_keep n : valid n -> fval s sv n <> 0 -> fval s' sv' n = fval s sv n;
  wn_alloc x : 0 <= x < max_offset -> off <= x < off + lenZ bs -> fval s' sv' (leaf_of (x / 512)) <> 0;
  wn_bytes x : 0 <= x < max_offset ->
    fbyte s' sv' x = if bool_decide (off <= x < off + lenZ bs) then default 0 (nthZ bs (x - off)) else fbyte s sv x;
  wn_frame b : used s b -> (forall n, valid n -> fval s sv n <> b) -> used s' b /\ blk s' b = blk s b;
  wn_others q : q <> p -> sfs_heap s' !! q = sfs_heap s !! q;
}.

Lemma io_out_write s s1 p sv sv1 u base r n bs : wrote s s1 p sv sv1 (uio_offset u) bs -> uio_rw u = UIO_WRITE ->
  can_move u (uio_resid u) -> 0 <= n <= uio_resid u -> n = lenZ bs -> 0 <= uio_offset u -> uio_offset u + n <= max_offset ->
  is_u32 (sfi_size (sv_i sv)) -> sfi_size (sv_i sv) < 2 ^ 31 ->
  wp (io_out p r 0)
     (fun r' t => r' = r /\ snd t = advanced u n base /\ exists sv', written s (fst t) p sv sv' (uio_offset u) bs)
     (s1, advanced u n base).
Proof.
  intros W Hrw (_ & _ & Hres & _) Hn -> Ho He Hu32 Hsz. unfold max_offset, max_double in He.
  pose proof (wr_file _ _ _ _ _ _ _ W) as Hf1. destruct (wr_meta _ _ _ _ _ _ _ W) as (_ & _ & Hmsz & _).
  assert (u32 (uio_resid (advanced u (lenZ bs) base) + 0) = uio_resid (advanced u (lenZ bs) base)) as Hr0.
  { simpl. rewrite Z.add_0_r. apply u32_id. unfold is_u32 in *. lia. }
  unfold io_out. apply wp_bind, wp_get_uio. apply wp_bind, wp_on_fs. eapply wp_get_sv; [apply Hf1|].
  apply wp_bind. rewrite Hr0. assert (is_write (advanced u (lenZ bs) base) = true) as -> by (unfold is_write; simpl; by rewrite Hrw).
  simpl andb. rewrite Hmsz, s32_id by (unfold is_u32, is_s32 in *; lia).
  destruct (Z.ltb_spec (sfi_size (sv_i sv)) (uio_offset u + lenZ bs)) as [Hlt|Hge].
  - apply wp_bind, wp_on_fs. eapply wp_upd_inode; [apply Hf1|]. apply wp_on_fs.
    eapply wp_mark_dirty; [apply lookup_set_heap|]. rewrite insert_set_heap. apply wp_bind, wp_put_uio, wp_ret.
    split; [done|]. split; [done|]. cbn [fst].
    change (uio_offset (advanced u (lenZ bs) base)) with (uio_offset u + lenZ bs). rewrite (u32_id (uio_offset u + lenZ bs)) by (unfold is_u32; lia).
    set (z := uio_offset u + lenZ bs) in *.
    exists (set_inode (with_size z (sv_i sv1)) true sv1).
    destruct (with_size_file s1 p sv1 z) as [Hi' Hf']; [apply W|done|unfold is_u32; lia|].
    change (sv_i (set_inode _ _ _)) with (with_size z (sv_i sv1)) in *.
    destruct (wr_meta _ _ _ _ _ _ _ W) as (Hv & Hino & _ & Hty & Hlk).
    set (s' := set_heap _ _) in *.
    assert (forall n, fval s' (set_inode (with_size z (sv_i sv1)) true sv1) n = fval s1 sv1 n) as Hfv by (by intros []).
    split; [exact Hi'|exact Hf'|simpl; lia|done| | | | |].
    + intros n Hn' H0. rewrite Hfv. by apply W.
    + intros x Hr Hx. rewrite Hfv. by apply W.
    + intros x Hx. transitivity (fbyte s1 sv1 x); [|by apply W]. unfold fbyte, fval. by destruct (leaf_of (x / 512)).
    + intros b Hb Hnb. split; [change (used s1 b); by apply (wr_used _ _ _ _ _ _ _ W)|].
      change (blk s1 b = blk s b). by apply (wr_frame _ _ _ _ _ _ _ W).
    + intros q Hq. simpl. rewrite lookup_insert_ne, (wr_heap _ _ _ _ _ _ _ W), lookup_insert_ne by done. done.
  - apply wp_ret, wp_bind, wp_put_uio, wp_ret. split; [done|]. split; [done|]. cbn [fst].
    exists sv1. split; try apply W.
    + rewrite Hmsz. lia.
    + destruct (wr_meta _ _ _ _ _ _ _ W) as (? & ? & _ & ? & ?). done.
    + intros b Hb Hnb. split; [by apply (wr_used _ _ _ _ _ _ _ W)|by apply (wr_frame _ _ _ _ _ _ _ W)].
    + intros q Hq. by rewrite (wr_heap _ _ _ _ _ _ _ W), lookup_insert_ne.
Qed.
End sfs_io.

(** ** Properties *)

Lemma io_write {D} {B : BlockDevice D} {R : ReliableDevice B} (s : sfs_fs D) (p : ptr) (sv : sfs_vnode)
    (u : uio) (obj : list Z) (o : Z) :
  fs_inv s -> file_at s p sv -> sfi_size (sv_i sv) < 2 ^ 31 -> io_request u obj o -> uio_rw u = UIO_WRITE ->
  bytes_ok obj ->
  exists r n s' sv', sfs_io p (s, u) = Done r (s', advanced u n (un_kbase obj (o + n))) /\
    (r = inr tt /\ n = uio_resid u \/ r = inl ENOSPC /\ 0 <= n < uio_resid u /\ stopped_at u n) /\
    written s s' p sv sv' (uio_offset u) (slice obj o n).
Proof.
  intros Hi Hf Hsz Hq Hrw Hby. pose proof Hq as [Hk Hmv Hpos Ho He]. pose proof Hmv as (_ & Hil & _).
  pose proof (ku_off _ _ _ Hk). pose proof (ku_fits _ _ _ Hk).
  assert (wp (sfs_io p) (fun r t => exists n, (r = inr tt /\ n = uio_resid u \/ r = inl ENOSPC /\ 0 <= n < uio_resid u /\ stopped_at u n) /\
            snd t = advanced u n (un_kbase obj (o + n)) /\
            exists sv', written s (fst t) p sv sv' (uio_offset u) (slice obj o n)) (s, u)) as Hwp.
  { unfold sfs_io. apply wp_bind, wp_get_uio. unfold is_write at 1. rewrite Hrw, bool_decide_true by done.
    apply wp_bind. eapply wp_mono; [by apply (body_write s p sv u obj o)|]. intros r [s1 u1] Hpost.
    assert (exists n, 0 <= n <= uio_resid u /\ has_written s p sv u obj o n (s1, u1) /\
              (r = inr tt /\ n = uio_resid u \/ r = inl ENOSPC /\ 0 <= n < uio_resid u /\ stopped_at u n)) as (n & Hn & Hw & Hr).
    { destruct r as [e|[]]; [destruct Hpost as (-> & k & Hk' & Hsk & Hw); exists k|exists (uio_resid u)]; (split; [lia|]; split; [done|]); auto. }
    destruct Hw as (sv1 & W & Hu). cbn [fst snd] in *. subst u1.
    eapply wp_mono; [eapply (io_out_write s s1 p sv sv1 u _ r n); try done; try lia|].
    - symmetry. apply lenZ_slice; lia.
    - apply (fa_inode _ _ _ Hf).
    - intros r' t (-> & Hu & Hw). exists n. done. }
  apply wp_done in Hwp as (r & [s' u'] & Hrun & n & Hr & Hu & sv' & Hw). cbn [fst snd] in *. subst u'.
  by exists r, n, s', sv'.
Qed.


Definition demo_empty : sfs_fs (lhd_softc ram_card) := demo_volume ∅ 31 0 demo_inode.
Definition demo_io (obj : list Z) (off : Z) (rw : uio_op) : uio := mk_kuio obj (lenZ obj) off rw.

Lemma demo_request obj off rw : 0 < lenZ obj < 2 ^ 20 -> 0 <= off < 2 ^ 20 -> io_request (demo_io obj off rw) obj 0.
Proof.
  intros Hl Ho. unfold demo_io, max_offset, max_double. split; simpl; try lia.
  - split; simpl; done || lia.
  - unfold can_move, is_u32, is_s32. simpl. lia.
  - unfold max_offset, max_double. lia.
  - unfold max_offset, max_double. lia.
Qed.


Lemma io_read {D} {B : BlockDevice D} {R : ReliableDevice B} (s : sfs_fs D) (p : ptr) (sv : sfs_vnode)
    (u : uio) (obj : list Z) (o : Z) :
  fs_inv s -> file_at s p sv -> sfi_size (sv_i sv) < 2 ^ 31 -> io_request u obj o -> uio_rw u = UIO_READ ->
  let n := Z.max 0 (Z.min (uio_resid u) (sfi_size (sv_i sv) - uio_offset u)) in
  no_gaps s sv (uio_offset u) n ->
  exists s', sfs_io p (s, u) =
      Done (inr tt) (s', advanced u n (un_kbase (splice obj o (fbytes s sv (uio_offset u) n)) (o + n))) /\
    disk_becomes s s' (blk s).
Proof.
  intros Hi Hf Hsz Hq Hrw n Hg. pose proof Hq as [Hk Hmv Hpos Ho He]. pose proof Hmv as (_ & Hil & Hr32 & _).
  pose proof (fa_inode _ _ _ Hf) as Hio. destruct (io_size _ Hio) as [Hs0 _].
  unfold max_offset, max_double in *. unfold is_u32 in Hr32.
  assert (wp (sfs_io p) (fun r t => r = inr tt /\ disk_becomes s (fst t) (blk s) /\
    snd t = advanced u n (un_kbase (splice obj o (fbytes s sv (uio_offset u) n)) (o + n))) (s, u)) as Hwp.
  2:{ apply wp_done in Hwp as (r & [s' u'] & Hrun & -> & Hd & Hu). cbn [fst snd] in *. subst u'. by exists s'. }
  unfold sfs_io. apply wp_bind, wp_get_uio. unfold is_write at 1. rewrite Hrw, bool_decide_false by done.
  apply wp_bind, wp_on_fs. eapply wp_get_sv; [apply Hf|].
  rewrite (s32_id (sfi_size (sv_i sv))) by (unfold is_s32; lia).
  rewrite u32_id by (unfold is_u32; lia). rewrite s32_id by (unfold is_s32; lia).
  (* what follows the end-of-file check, on the clipped request *)
  assert (forall u0 extra, u0 = set_resid u n -> 0 < n -> n + extra = uio_resid u -> 0 <= extra ->
    wp (let! result := io_body p in io_out p result extra)
      (fun r t => r = inr tt /\ disk_becomes s (fst t) (blk s) /\
         snd t = advanced u n (un_kbase (splice obj o (fbytes s sv (uio_offset u) n)) (o + n))) (s, u0)) as Hrest.
  { intros u0 extra -> Hn Hx Hx0. apply wp_bind.
    eapply wp_mono; [apply (body_read s p sv (set_resid u n) obj o); try done|].
    - destruct Hk. split; simpl; unfold max_offset, max_double; try lia; [split; simpl; done|]. unfold can_move, is_u32, is_s32 in *. simpl. lia.
    - intros r [s1 u1] [-> [Hd Hu]]. cbn [fst snd] in *. subst u1.
      pose proof (gr_file _ _ _ _ _ (grows_read s s1 p sv Hi Hf Hd)) as Hf1.
      unfold io_out. apply wp_bind, wp_get_uio. apply wp_bind, wp_on_fs. eapply wp_get_sv; [apply Hf1|].
      unfold is_write. simpl uio_rw. rewrite Hrw, bool_decide_false by done. simpl andb. cbv iota.
      apply wp_bind, wp_ret, wp_bind, wp_put_uio, wp_ret. split; [done|]. split; [done|]. cbn [snd].
      unfold set_resid, advanced. simpl. f_equal. rewrite Z.sub_diag, Z.add_0_l, u32_id by (unfold is_u32; lia). lia. }
  destruct (Z.leb_spec (sfi_size (sv_i sv)) (uio_offset u)) as [Heof|Hlt].
  { apply wp_ret. split; [done|]. split; [apply disk_refl, Hi|]. assert (n = 0) as -> by lia. cbn [snd].
    rewrite fbytes_0, splice_nil, Z.add_0_r. by rewrite advanced_0 by apply Hk. }
  destruct (Z.ltb_spec (sfi_size (sv_i sv)) (uio_offset u + uio_resid u)) as [Hclip|Hfull].
  - apply wp_bind, wp_int_of. split; [unfold is_s32; lia|]. rewrite u32_id by (unfold is_u32; lia).
    apply wp_bind, wp_assert. split; [apply Z.ltb_lt; lia|]. apply wp_bind, wp_put_uio.
    apply Hrest; [|lia|lia|lia]. f_equal. rewrite u32_id by (unfold is_u32; lia). lia.
  - apply Hrest; [|lia|lia|lia]. assert (n = uio_resid u) as -> by lia. by destruct u.
Qed.


(** A file with one block, block 5 of the disk. *)
Definition one_block (size type : Z) : sfs_inode :=
  mk_inode size type 1 (5 :: replicate 14 0) 0 0 0 (replicate 107 0) 1.
Definition one_block_fs (content : list Z) (size type : Z) : sfs_fs (lhd_softc ram_card) :=
  demo_volume {[ 5 := content ]} 63 0 (one_block size type).

Lemma one_block_val size type f n : valid n -> val (one_block size type) f n = if decide (n = NDir 0) then 5 else 0.
Proof.
  intros Hn. destruct n as [k| | | | |]; try reflexivity.
  change (default 0 (nthZ (5 :: replicate 14 0) k) = if decide (NDir k = NDir 0) then 5 else 0).
  unfold valid, SFS_NDIRECT in Hn. destruct (decide (k = 0)) as [->|Hk]; [reflexivity|].
  rewrite decide_False by congruence. rewrite nthZ_to_nat by lia.
  replace (Z.to_nat k) with (S (Z.to_nat (k - 1))) by lia.
  change ((5 :: replicate 14 0) !! S (Z.to_nat (k - 1))) with (replicate 14 0 !! Z.to_nat (k - 1)).
  by rewrite lookup_replicate_2 by lia.
Qed.

Lemma one_block_file content size type : is_u32 size -> 0 <= type < 65536 ->
  fs_inv (one_block_fs content size type) /\
  file_at (one_block_fs content size type) 1%positive (demo_sv (one_block size type) 4).
Proof.
  intros Hs Ht. split; [apply demo_volume_inv; [unfold is_u8; lia|unfold is_u8; lia|reflexivity]|].
  split; [reflexivity|split; try done; repeat constructor; done|]. split.
  - intros n Hn. change (sv_i (demo_sv (one_block size type) 4)) with (one_block size type). rewrite one_block_val by done.
    case_decide; [|done]. intros _. split; [unfold nblocks; simpl; lia|reflexivity].
  - intros n m Hn Hm. change (sv_i (demo_sv (one_block size type) 4)) with (one_block size type). rewrite !one_block_val by done.
    repeat case_decide; congruence || lia.
Qed.

(** A file of 5 bytes: byte 3 is 42. *)
Definition demo_text : sfs_inode := one_block 5 SFS_TYPE_FILE.
Definition demo_text_fs : sfs_fs (lhd_softc ram_card) :=
  one_block_fs (0 :: 0 :: 0 :: 42 :: replicate 508 0) 5 SFS_TYPE_FILE.

Lemma demo_text_file : file_at demo_text_fs 1%positive (demo_sv demo_text 4).
Proof. apply one_block_file; [unfold is_u32; lia|unfold SFS_TYPE_FILE; lia]. Qed.

