(* ===== verification/SfsTrunc.v ===== *)
(** * What truncating an SFS file does.

    [sfs_truncate] keeps every byte below the new end and every block of other
    files, and the file it leaves is well formed. It does not free all it should:
    one data block past the end stays in the file, and the double and triple
    indirect trees are dropped without being freed. *)

From stdpp Require Import base numbers list gmap.
From Stdlib Require Import ZArith Lia.
From S2P Require Import Prelude Mem CopyInOut Uio BlockDev Lhd Bitmap Array Vnode SfsDisk SfsIo SfsTree SfsBmap SfsFile SfsRw.

(** ** Files that lose blocks *)

Section shrink.
Context {D : Type} {B : BlockDevice D} {R : ReliableDevice B}.
Notation fs := (sfs_fs D).

(** From [s] to [s'] the file at [p] lost blocks: only blocks of its own are freed,
    and of the disk only its indirect block may be rewritten. (Block 0 stands for
    "none" in a node.) *)
Record shrinks (s s' : fs) (p : ptr) (sv sv' : sfs_vnode) : Prop := {
  sh_inv : fs_inv s';
  sh_file : file_at s' p sv';
  sh_heap : sfs_heap s' = <[p := sv']> (sfs_heap s);
  sh_rest : same_rest s s';
  sh_meta : same_meta sv sv';
  sh_val n : valid n -> fval s' sv' n = fval s sv n \/ fval s' sv' n = 0;
  sh_used x : used s' x -> used s x;
  sh_free x : used s x -> (forall n, valid n -> fval s sv n = x -> x = 0) -> used s' x;
  sh_blk x : used s' x -> (x = fval s sv NInd -> x = 0) -> blk s' x = blk s x;
}.

Lemma shrinks_refl s p sv : fs_inv s -> file_at s p sv -> shrinks s s p sv sv.
Proof.
  intros Hi Hf. split; try done.
  - by rewrite insert_id by apply Hf.
  - by left.
Qed.

Lemma shrinks_trans s1 s2 s3 p sv1 sv2 sv3 :
  shrinks s1 s2 p sv1 sv2 -> shrinks s2 s3 p sv2 sv3 -> shrinks s1 s3 p sv1 sv3.
Proof.
  intros A C. split.
  - apply C.
  - apply C.
  - by rewrite (sh_heap _ _ _ _ _ C), (sh_heap _ _ _ _ _ A), insert_insert_eq.
  - eapply same_rest_trans; [apply A|apply C].
  - destruct (sh_meta _ _ _ _ _ A) as (? & ? & ? & ? & ?), (sh_meta _ _ _ _ _ C) as (? & ? & ? & ? & ?).
    unfold same_meta. split_and!; congruence.
  - intros n Hn. destruct (sh_val _ _ _ _ _ C n Hn) as [->|]; [by apply A|by right].
  - intros x Hx. by apply A, C.
  - intros x Hx Hn. apply C; [by apply A|]. intros n Hv He.
    destruct (sh_val _ _ _ _ _ A n Hv) as [Hs|Hs]; [|congruence]. apply (Hn n Hv). congruence.
  - intros x Hx Hn. rewrite (sh_blk _ _ _ _ _ C).
    + apply (sh_blk _ _ _ _ _ A); [by apply C|done].
    + done.
    + intros He. destruct (sh_val _ _ _ _ _ A NInd I) as [Hs|Hs]; [|congruence]. apply Hn. congruence.
Qed.

(** Emptying the nodes [C], of which the blocks at [F] are freed. *)
Lemma cut_shrinks s s' p sv sv' (C F : node -> Prop) `{!forall n, Decision (C n)} :
  fs_inv s -> file_at s p sv -> fs_inv s' -> sfs_heap s' = <[p := sv']> (sfs_heap s) -> same_rest s s' ->
  same_meta sv sv' -> inode_ok (sv_i sv') -> (forall n, F n -> C n) ->
  (forall n, valid n -> fval s' sv' n = if decide (C n) then 0 else fval s sv n) ->
  (forall x, used s' x <-> used s x /\ ~ exists n, valid n /\ F n /\ fval s sv n = x /\ x <> 0) ->
  (forall x, used s' x -> (x = fval s sv NInd -> x = 0) -> blk s' x = blk s x) ->
  shrinks s s' p sv sv'.
Proof.
  intros Hi Hf Hi' Hh Hr Hm Ho HFC Hv Hu Hb. pose proof (fa_tree _ _ _ Hf) as T. split; try done.
  - split; [by rewrite Hh, lookup_insert_eq|done|]. split.
    + intros n Hn. change (fval s' sv' n <> 0 -> used s' (fval s' sv' n)). rewrite Hv by done.
      case_decide as HC; [done|]. intros H0. apply Hu. split; [by apply (tree_used _ _ _ T)|].
      intros (m & Hm' & HF & He & _). apply HC.
      assert (n = m) as -> by (by apply (tree_inj _ _ _ T)). by apply HFC.
    + intros n m Hn Hm'. change (fval s' sv' n = fval s' sv' m -> fval s' sv' n <> 0 -> n = m).
      rewrite !Hv by done. repeat case_decide; try done. by apply (tree_inj _ _ _ T).
  - intros n Hn. rewrite Hv by done. case_decide; auto.
  - intros x Hx. by apply Hu.
  - intros x Hx Hn. apply Hu. split; [done|]. intros (n & Hvn & _ & He & H0). by apply H0, (Hn n).
Qed.

(** ** The direct blocks *)

Definition cut_direct (blocklen i : Z) (n : node) : Prop :=
  match n with NDir k => blocklen <= k < i | _ => False end.
#[export] Instance cut_direct_dec blocklen i n : Decision (cut_direct blocklen i n).
Proof. destruct n; simpl; apply _. Defined.

(** The state after the first [i] rounds. *)
Definition direct_done (s : fs) (p : ptr) (sv : sfs_vnode) (blocklen i : Z) (s' : fs) : Prop :=
  exists sv', shrinks s s' p sv sv' /\ (forall x, blk s' x = blk s x) /\
    forall n, valid n -> fval s' sv' n = if decide (cut_direct blocklen i n) then 0 else fval s sv n.

Lemma direct_round s p sv blocklen k : fs_inv s -> file_at s p sv -> 0 <= k < SFS_NDIRECT ->
  wp (truncate_direct p blocklen k)
     (fun r s' => r = inr tt /\ exists sv', shrinks s s' p sv sv' /\ (forall x, blk s' x = blk s x) /\
        forall n, valid n -> fval s' sv' n = if decide (n = NDir k /\ blocklen <= k) then 0 else fval s sv n) s.
Proof.
  intros Hi Hf Hk. unfold truncate_direct. apply wp_bind. eapply wp_get_sv; [apply Hf|].
  apply wp_bind. rewrite (direct_val s p sv k Hf Hk). apply wp_of_option. eexists. split; [done|].
  destruct ((blocklen <=? k) && negb (fval s sv (NDir k) =? 0)) eqn:Hc.
  2:{ apply wp_ret. split; [done|]. exists sv. split; [by apply shrinks_refl|]. split; [done|].
      intros n Hn. case_decide as Hd; [|done]. destruct Hd as [-> Hle]. apply Z.leb_le in Hle. rewrite Hle in Hc.
      simpl in Hc. by apply negb_false_iff, Z.eqb_eq in Hc. }
  apply andb_true_iff in Hc as [Hle H0]. apply Z.leb_le in Hle. apply negb_true_iff, Z.eqb_neq in H0.
  assert (used s (fval s sv (NDir k))) as Hu by (by apply (tree_used _ _ _ (fa_tree _ _ _ Hf))).
  apply wp_bind. eapply wp_mono; [by apply bfree_correct|]. intros _ s1 (Hi1 & Hh1 & Hr1 & Hu1 & Hb1). cbv beta.
  assert (sfs_heap s1 !! p = Some sv) as Hp1 by (rewrite Hh1; apply Hf).
  apply wp_bind. eapply wp_upd_inode; [exact Hp1|]. apply wp_bind. eapply wp_upd_inode; [apply lookup_set_heap|].
  rewrite insert_set_heap. apply wp_bind. eapply wp_mark_dirty; [apply lookup_set_heap|]. rewrite insert_set_heap.
  apply wp_ret. split; [done|].
  set (sv' := set_inode (with_direct (setZ (sfi_direct (sv_i sv)) k 0) (add_blocks (-1) (sv_i sv))) true sv).
  set (s' := set_heap (<[p := sv']> (sfs_heap s1)) s1).
  pose proof (io_direct _ (fa_inode _ _ _ Hf)) as Hl.
  assert (forall n, valid n -> fval s' sv' n = if decide (n = NDir k /\ blocklen <= k) then 0 else fval s sv n) as Hv.
  { intros n Hn. assert (forall b e, entry (blk s') b e = entry (blk s) b e) as He.
    { intros b e. unfold entry. change (blk s' b) with (blk s1 b). by rewrite Hb1. }
    destruct n as [k'| | | | |]; rewrite ?(decide_False (P := _ = NDir k /\ _)) by (intros [? _]; done);
      unfold fval; simpl; rewrite ?He; try done.
    destruct (decide (k' = k)) as [->|Hne].
    - rewrite decide_True by done. rewrite nthZ_setZ_eq; [done|unfold lenZ, SFS_NDIRECT in *; lia].
    - rewrite decide_False by (intros [[= ->] _]; done). by rewrite nthZ_setZ_ne by done. }
  exists sv'. change (shrinks s s' p sv sv' /\ (forall x, blk s' x = blk s x) /\
    forall n, valid n -> fval s' sv' n = if decide (n = NDir k /\ blocklen <= k) then 0 else fval s sv n).
  split; [|split; [exact Hb1|exact Hv]].
  apply (cut_shrinks s s' p sv sv' (fun n => n = NDir k /\ blocklen <= k) (fun n => n = NDir k)); try done.
  - by apply heap_inv.
  - change (<[p := sv']> (sfs_heap s1) = <[p := sv']> (sfs_heap s)). by rewrite Hh1.
  - destruct (fa_inode _ _ _ Hf). unfold sv'; split; simpl; try done.
    + pose proof (lenZ_setZ (sfi_direct (sv_i sv)) k 0) as Hs. unfold lenZ in Hs. lia.
    + unfold setZ. rewrite decide_True by lia. apply Forall_insert; [done|]. unfold is_u32. lia.
    + apply u32_range.
  - intros x. change (used s' x) with (used s1 x). rewrite Hu1. split; intros [Hx Hne]; (split; [done|]).
    + intros (n & _ & -> & He & _). by apply Hne.
    + intros ->. apply Hne. by exists (NDir k).
  - intros x _ _. change (blk s1 x = blk s x). apply Hb1.
Qed.

Lemma direct_rounds s p sv blocklen : fs_inv s -> file_at s p sv ->
  wp (for_ (Z.to_nat SFS_NDIRECT) 0 (truncate_direct p blocklen))
     (fun r s' => r = inr tt /\ direct_done s p sv blocklen SFS_NDIRECT s') s.
Proof.
  intros Hi Hf. apply (wp_for (direct_done s p sv blocklen)).
  - exists sv. split; [by apply shrinks_refl|]. split; [done|]. intros n Hn. rewrite decide_False; [done|].
    destruct n; simpl in *; first [lia|intros []].
  - intros k s1 Hk (sv1 & S1 & Hb1 & Hv1). change (Z.of_nat (Z.to_nat SFS_NDIRECT)) with SFS_NDIRECT in Hk.
    eapply wp_mono; [apply (direct_round s1 p sv1); [apply S1|apply S1|lia]|].
    intros r s2 (-> & sv2 & S2 & Hb2 & Hv2). exists sv2. split; [by eapply shrinks_trans|].
    split; [intros x; by rewrite Hb2|]. intros n Hn. rewrite Hv2, Hv1 by done.
    destruct (decide (n = NDir k /\ blocklen <= k)) as [[-> Hle]|Hno].
    { rewrite decide_True; [done|]. simpl. lia. }
    destruct (decide (cut_direct blocklen k n)) as [Hc|Hc]; destruct (decide (cut_direct blocklen (k + 1) n)) as [Hc'|Hc'];
      try done; destruct n as [k'| | | | |]; simpl in Hc, Hc'; try done; [lia|].
    destruct Hno. split; [f_equal; lia|lia].
  - intros s' Hs'. split; [done|]. exact Hs'.
Qed.
End shrink.

(** ** The indirect block *)

Section scan.
Context {D : Type} {B : BlockDevice D} {R : ReliableDevice B}.
Notation fs := (sfs_fs D).
Context (s1 : fs) (p : ptr) (sv1 : sfs_vnode) (blocklen : Z).
Hypothesis Hi : fs_inv s1.
Hypothesis Hf : file_at s1 p sv1.
Notation id := (fval s1 sv1 NInd).
Hypothesis Hid : id <> 0.

Definition with_blocks (b : Z) (i : sfs_inode) : sfs_inode :=
  mk_inode (sfi_size i) (sfi_type i) (sfi_linkcount i) (sfi_direct i) (sfi_indirect i)
    (sfi_doubleindirect i) (sfi_tripleindirect i) (sfi_waste i) b.

Definition cut (k : Z) : Prop := blocklen < 15 + k.
#[local] Instance cut_dec k : Decision (cut k).
Proof. unfold cut. apply _. Defined.

Notation ent k := (entry (blk s1) id k).

Lemma ent_val k : ent k = fval s1 sv1 (NInd1 k).
Proof. done. Qed.

(** After [j] entries of the indirect block. *)
Record scanned (j : Z) (s' : fs) (svj : sfs_vnode) (st : idscan) : Prop := {
  sc_inv : fs_inv s';
  sc_heap : sfs_heap s' = <[p := svj]> (sfs_heap s1);
  sc_rest : same_rest s1 s';
  sc_blk x : blk s' x = blk s1 x;
  sc_vnode : exists b, is_u32 b /\ svj = set_inode (with_blocks b (sv_i sv1)) (sv_dirty sv1) sv1;
  sc_len : lenZ st.1.1 = SFS_DBPERIDB;
  sc_buf k : 0 <= k < SFS_DBPERIDB -> nthZ st.1.1 k = Some (if decide (k < j /\ cut k) then 0 else ent k);
  sc_used x : used s' x <-> used s1 x /\ ~ exists k, 0 <= k < j /\ cut k /\ ent k = x /\ x <> 0;
  sc_keep : st.1.2 = false -> forall k, 0 <= k < j -> ~ cut k -> ent k = 0;
  sc_some : st.1.2 = true -> exists k, 0 <= k < j /\ ~ cut k /\ ent k <> 0;
  sc_clean : st.2 = false -> forall k, 0 <= k < j -> cut k -> ent k = 0;
}.

Lemma id_used : used s1 id.
Proof. by apply (tree_used _ _ _ (fa_tree _ _ _ Hf)). Qed.

Lemma ent_used k : 0 <= k < SFS_DBPERIDB -> ent k <> 0 -> used s1 (ent k).
Proof. intros Hk H0. by apply (tree_used _ _ _ (fa_tree _ _ _ Hf) (NInd1 k)). Qed.

Lemma ent_inj k k' : 0 <= k < SFS_DBPERIDB -> 0 <= k' < SFS_DBPERIDB -> ent k = ent k' -> ent k <> 0 -> k = k'.
Proof. intros Hk Hk' He H0. assert (NInd1 k = NInd1 k') as [=]; [|done]. by apply (tree_inj _ _ _ (fa_tree _ _ _ Hf)). Qed.

Lemma scan_start : scanned 0 s1 sv1 (words (blk s1 id), false, false).
Proof.
  destruct (length_words_blk s1 id Hi (used_range _ _ Hi id_used)) as [Hl _].
  split; cbn [fst snd]; try done; try lia.
  - by rewrite insert_id by apply Hf.
  - exists (sfi_blocks (sv_i sv1)). split; [apply (fa_inode _ _ _ Hf)|]. destruct sv1 as [v i ino d]. by destruct i.
  - intros k Hk. rewrite decide_False by lia. apply entry_nth; (done || apply id_used).
  - intros x. split; [|tauto]. intros Hx. split; [done|]. intros (k & Hk & _). lia.
Qed.

(** One entry. *)
Lemma scan_one j s' svj st : scanned j s' svj st -> 0 <= j < SFS_DBPERIDB ->
  wp (truncate_indirect p blocklen SFS_NDIRECT j st)
     (fun r t => exists svj' st', r = inr st' /\ scanned (j + 1) t svj' st') s'.
Proof.
  intros Hs Hj. destruct st as [[buf hz] dirty]. pose proof Hs as [I1 I2 I3 I4 I5 I6 I7 I8 I9 Isome I10]. cbn [fst snd] in *.
  unfold truncate_indirect. apply wp_bind, wp_of_option.
  assert (nthZ buf j = Some (ent j)) as Hbj by (rewrite I7 by done; by rewrite decide_False by lia).
  eexists. split; [exact Hbj|]. rewrite u32_id by (unfold is_u32, SFS_NDIRECT, SFS_DBPERIDB in *; lia).
  change SFS_NDIRECT with 15 in *.
  destruct ((blocklen <? 15 + j) && negb (ent j =? 0)) eqn:Hc.
  - apply andb_true_iff in Hc as [Hcut H0]. apply Z.ltb_lt in Hcut. apply negb_true_iff, Z.eqb_neq in H0.
    assert (used s' (ent j)) as Hu.
    { apply I8. split; [by apply ent_used|]. intros (k & Hk & _ & He & _).
      assert (k = j); [|lia]. apply ent_inj; [unfold SFS_DBPERIDB in *; lia|done|done|congruence]. }
    apply wp_tbind, wp_bind. eapply wp_mono; [by apply bfree_correct|].
    intros _ t (Ht1 & Ht2 & Ht3 & Ht4 & Ht5). cbv beta.
    apply wp_bind. eapply wp_upd_inode; [rewrite Ht2, I2; apply lookup_insert_eq|]. apply wp_ret. cbv beta iota.
    apply wp_bind, wp_of_option. eexists. split; [apply nthZ_setZ_eq; unfold SFS_DBPERIDB in *; lia|]. apply wp_ret.
    eexists _, _. split; [done|]. cbn [Z.eqb]. change (0 =? 0) with true. cbv iota. split; cbn [fst snd].
    + by apply heap_inv.
    + simpl. rewrite Ht2, I2, insert_insert_eq. done.
    + eapply same_rest_trans; [exact I3|exact Ht3].
    + intros x. change (blk t x = blk s1 x). by rewrite Ht5.
    + destruct I5 as (b & Hb & ->). eexists. split; [|reflexivity]. apply u32_range.
    + by rewrite lenZ_setZ.
    + intros k Hk. destruct (decide (k = j)) as [->|Hne].
      * rewrite nthZ_setZ_eq by (unfold SFS_DBPERIDB in *; lia). by rewrite decide_True by (unfold cut; lia).
      * rewrite nthZ_setZ_ne, I7 by done. destruct (decide (k < j /\ cut k)), (decide (k < j + 1 /\ cut k)); try done; unfold cut in *; lia.
    + intros x. change (used t x <-> used s1 x /\ ~ exists k, 0 <= k < j + 1 /\ cut k /\ ent k = x /\ x <> 0).
      rewrite Ht4, I8. split.
      * intros [[Hx Hno] Hne]. split; [done|]. intros (k & Hk & Hck & He & Hx0). destruct (decide (k = j)) as [->|]; [congruence|].
        apply Hno. exists k. split; [lia|done].
      * intros [Hx Hno]. split; [split; [done|]|].
        -- intros (k & Hk & Hrest). apply Hno. exists k. split; [lia|done].
        -- intros ->. apply Hno. exists j. split; [lia|]. by split; [unfold cut; lia|].
    + intros Hz k Hk Hck. destruct (decide (k = j)) as [->|]; [unfold cut in Hck; lia|]. apply I9; [done|lia|done].
    + intros Hz. destruct (Isome Hz) as (k & Hk & Hrest). exists k. split; [lia|done].
    + done.
  - apply wp_tbind, wp_ret. cbv beta iota. apply wp_bind, wp_of_option. eexists. split; [exact Hbj|]. apply wp_ret.
    assert (cut j -> ent j = 0) as Hz.
    { unfold cut. intros Hcut. apply Z.ltb_lt in Hcut. rewrite Hcut in Hc. simpl in Hc. by apply negb_false_iff, Z.eqb_eq in Hc. }
    eexists svj, _. split; [done|]. split; cbn [fst snd]; try done.
    + intros k Hk. rewrite I7 by done. destruct (decide (k = j)) as [->|Hne].
      * rewrite decide_False by lia. case_decide as Hd; [|done]. f_equal. apply Hz, Hd.
      * destruct (decide (k < j /\ cut k)), (decide (k < j + 1 /\ cut k)); try done; unfold cut in *; lia.
    + intros x. rewrite I8. split; intros [Hx Hno]; (split; [done|]); intros (k & Hk & Hck & He & Hx0).
      * destruct (decide (k = j)) as [->|]; [rewrite (Hz Hck) in He; congruence|]. apply Hno. exists k. split; [lia|done].
      * apply Hno. exists k. split; [lia|done].
    + destruct (Z.eqb_spec (ent j) 0) as [H0|H0]; [|done]. intros Hh k Hk Hck.
      destruct (decide (k = j)) as [->|]; [done|]. apply I9; [done|lia|done].
    + destruct (Z.eqb_spec (ent j) 0) as [H0|H0].
      * intros Hh. destruct (Isome Hh) as (k & Hk & Hrest). exists k. split; [lia|done].
      * intros _. exists j. split; [lia|]. split; [|done]. intros Hck. by apply H0, Hz.
    + intros Hd k Hk Hck. destruct (decide (k = j)) as [->|]; [by apply Hz|]. apply I10; [done|lia|done].
Qed.

Lemma scan_all n : forall j s' svj st, scanned j s' svj st -> 0 <= j -> j + Z.of_nat n = SFS_DBPERIDB ->
  wp (scan_indirect n p blocklen SFS_NDIRECT j st)
     (fun r t => exists svj' st', r = inr st' /\ scanned SFS_DBPERIDB t svj' st') s'.
Proof.
  induction n as [|n IH]; intros j s' svj st Hs Hj Hn; cbn [scan_indirect].
  - apply wp_ret. exists svj, st. split; [done|]. by replace SFS_DBPERIDB with j by lia.
  - apply wp_tbind. eapply wp_mono; [eapply scan_one; [exact Hs|lia]|]. intros r t (svj' & st' & -> & Hs').
    eapply IH; [exact Hs'|lia|lia].
Qed.
End scan.

(** ** The whole truncation *)

Section truncate.
Context {D : Type} {B : BlockDevice D} {R : ReliableDevice B}.
Notation fs := (sfs_fs D).

(** Nodes beyond the end of a file of [blocklen] blocks, as [sfs_truncate] sees it. *)
Definition past (blocklen : Z) (n : node) : Prop :=
  match n with
  | NDir k => blocklen <= k
  | NInd1 k => blocklen < 15 + k
  | _ => blocklen < 142
  end.

(** Nodes whose blocks [sfs_truncate] may free. *)
Definition freed (blocklen : Z) (n : node) : Prop :=
  match n with
  | NDir k => blocklen <= k
  | NInd1 k => blocklen < 142 /\ blocklen < 15 + k
  | NInd => blocklen < 142
  | _ => False
  end.

Record indirect_cut (s s' : fs) (p : ptr) (sv sv' : sfs_vnode) (blocklen : Z) : Prop := {
  ic_shrinks : shrinks s s' p sv sv';
  ic_val n : valid n -> fval s' sv' n = fval s sv n \/ fval s' sv' n = 0 /\ past blocklen n;
  ic_cut k : 0 <= k < SFS_DBPERIDB -> blocklen < 142 -> blocklen < 15 + k -> fval s' sv' (NInd1 k) = 0;
  ic_used n : valid n -> fval s sv n <> 0 -> ~ freed blocklen n -> used s' (fval s sv n);
  ic_drop : blocklen < 142 -> fval s sv NInd <> 0 ->
    (forall k, 0 <= k < SFS_DBPERIDB -> ~ blocklen < 15 + k -> fval s sv (NInd1 k) = 0) -> fval s' sv' NDbl = 0;
}.

(** Cutting [C] and freeing [F], for [C] made of nodes past the end. *)
Lemma cut_indirect s s' p sv sv' blocklen (C F : node -> Prop) `{!forall n, Decision (C n)} :
  file_at s p sv -> shrinks s s' p sv sv' -> (forall n, valid n -> C n -> past blocklen n \/ fval s sv n = 0) ->
  (forall n, valid n -> F n -> freed blocklen n) ->
  (forall n, valid n -> fval s' sv' n = if decide (C n) then 0 else fval s sv n) ->
  (forall x, used s' x <-> used s x /\ ~ exists n, valid n /\ F n /\ fval s sv n = x /\ x <> 0) ->
  (forall k, blocklen < 15 + k -> C (NInd1 k)) ->
  (~ C NDbl -> exists k, 0 <= k < SFS_DBPERIDB /\ ~ blocklen < 15 + k /\ fval s sv (NInd1 k) <> 0) ->
  indirect_cut s s' p sv sv' blocklen.
Proof.
  intros Hf Hsh HC HF Hv Hu Hcut Hdbl. pose proof (fa_tree _ _ _ Hf) as T. split; try done.
  - intros n Hn. rewrite Hv by done. case_decide as Hc; [|auto]. destruct (HC n Hn Hc) as [|H0]; [by right|left; by rewrite H0].
  - intros k Hk _ Hlt. rewrite Hv by done. by rewrite decide_True by auto.
  - intros n Hn H0 Hfree. apply Hu. split; [by apply (tree_used _ _ _ T)|].
    intros (m & Hm & HFm & He & _). apply Hfree. apply HF; [done|].
    assert (n = m) as -> by (by apply (tree_inj _ _ _ T)). done.
  - intros Hlt H0 Hz. rewrite Hv by done. destruct (decide (C NDbl)) as [|Hn]; [done|].
    destruct (Hdbl Hn) as (k & Hk & Hge & Hne). destruct Hne. by apply Hz.
Qed.

Definition drop_cut (n : node) : Prop := match n with NDir _ => False | _ => True end.
#[local] Instance drop_cut_dec n : Decision (drop_cut n).
Proof. destruct n; apply _. Defined.
Definition drop_free (blocklen : Z) (n : node) : Prop :=
  match n with NInd => True | NInd1 k => blocklen < 15 + k | _ => False end.

Lemma clear_double_ok i : inode_ok i ->
  inode_ok (clear_double i) /\ sfi_direct (clear_double i) = sfi_direct i /\ sfi_indirect (clear_double i) = sfi_indirect i /\
  sfi_doubleindirect (clear_double i) = 0 /\ sfi_size (clear_double i) = sfi_size i /\
  sfi_type (clear_double i) = sfi_type i /\ sfi_linkcount (clear_double i) = sfi_linkcount i.
Proof.
  intros Hi. unfold clear_double. destruct (Z.eqb_spec (sfi_doubleindirect i) 0); [done|].
  split; [|done]. destruct Hi. split; simpl; try done; apply u32_range.
Qed.

Lemma clear_triple_ok i : inode_ok i ->
  inode_ok (clear_triple i) /\ sfi_direct (clear_triple i) = sfi_direct i /\ sfi_indirect (clear_triple i) = sfi_indirect i /\
  sfi_doubleindirect (clear_triple i) = sfi_doubleindirect i /\ sfi_size (clear_triple i) = sfi_size i /\
  sfi_type (clear_triple i) = sfi_type i /\ sfi_linkcount (clear_triple i) = sfi_linkcount i.
Proof.
  intros Hi. unfold clear_triple. destruct (Z.eqb_spec (sfi_tripleindirect i) 0); [done|].
  split; [|done]. destruct Hi. split; simpl; try done; apply u32_range.
Qed.

(** Nothing is left in the indirect block: it is freed, and every indirect pointer of
    the inode is cleared. *)
Lemma drop_correct s1 p sv1 blocklen s2 sv2 buf dirty : fs_inv s1 -> file_at s1 p sv1 -> fval s1 sv1 NInd <> 0 ->
  blocklen < 142 -> scanned s1 p sv1 blocklen SFS_DBPERIDB s2 sv2 (buf, false, dirty) ->
  wp (drop_indirect p (fval s1 sv1 NInd))
     (fun _ s' => exists sv', indirect_cut s1 s' p sv1 sv' blocklen) s2.
Proof.
  intros Hi Hf Hid Hlt [I1 I2 I3 I4 (b0 & Hb0 & I5) I6 I7 I8 I9 Isome I10]. cbn [fst snd] in *.
  pose proof (fa_tree _ _ _ Hf) as T. set (id := fval s1 sv1 NInd) in *.
  assert (used s2 id) as Hu2.
  { apply I8. split; [by apply (tree_used _ _ _ T NInd)|]. intros (k & Hk & _ & He & H0).
    assert (NInd1 k = NInd) as [=]. apply (tree_inj _ _ _ T (NInd1 k) NInd); [exact Hk|exact I|exact He|].
    change (entry (blk s1) id k <> 0). congruence. }
  unfold drop_indirect. apply wp_bind. eapply wp_mono; [by apply bfree_correct|].
  intros _ t (Ht1 & Ht2 & Ht3 & Ht4 & Ht5). cbv beta.
  apply wp_bind. eapply wp_upd_inode; [rewrite Ht2, I2; apply lookup_insert_eq|].
  apply wp_bind. eapply wp_upd_inode; [apply lookup_set_heap|]. rewrite insert_set_heap.
  apply wp_bind. eapply wp_upd_inode; [apply lookup_set_heap|]. rewrite insert_set_heap.
  apply wp_bind. eapply wp_upd_inode; [apply lookup_set_heap|]. rewrite insert_set_heap.
  eapply wp_mark_dirty; [apply lookup_set_heap|]. rewrite insert_set_heap. cbn [sv_i sv_dirty set_inode].
  match goal with |- exists sv', indirect_cut _ (set_heap (<[_ := ?x]> _) _) _ _ _ _ => set (sv' := x) end.
  set (s' := set_heap _ _).
  assert (inode_ok (sv_i sv') /\ sfi_direct (sv_i sv') = sfi_direct (sv_i sv1) /\ sfi_indirect (sv_i sv') = 0 /\
          sfi_doubleindirect (sv_i sv') = 0 /\ same_meta sv1 sv') as (Hok & Hdir & Hind & Hdbl & Hmeta).
  { unfold sv'. rewrite I5. destruct (fa_inode _ _ _ Hf). cbn [sv_i set_inode]. set (i := with_indirects 0 _ _ _).
    assert (inode_ok i) as Hi0 by (split; simpl; try done; apply u32_range).
    destruct (clear_double_ok i Hi0) as (Ha & Hd1 & Hi1 & Hb1 & Hs1 & Ht1' & Hl1).
    destruct (clear_triple_ok _ Ha) as (Ha' & Hd2 & Hi2 & Hb2 & Hs2 & Ht2' & Hl2).
    unfold same_meta. cbn [sv_i sv_v sv_ino set_inode]. rewrite Hd2, Hd1, Hi2, Hi1, Hb2, Hs2, Hs1, Ht2', Ht1', Hl2, Hl1.
    done. }
  clearbody sv'.
  assert (forall n, valid n -> fval s' sv' n = if decide (drop_cut n) then 0 else fval s1 sv1 n) as Hv.
  { intros n Hn. destruct n; [rewrite decide_False by (intros [])|rewrite decide_True by exact I..];
      unfold fval; simpl; rewrite ?Hdir, ?Hind, ?Hdbl; reflexivity. }
  assert (forall x, used s' x <-> used s1 x /\ ~ exists n, valid n /\ drop_free blocklen n /\ fval s1 sv1 n = x /\ x <> 0) as Hused.
  { intros x. change (used s' x) with (used t x). rewrite Ht4, I8. split.
    - intros [[Hx Hno] Hne]. split; [done|]. intros (n & Hn & HF & He & H0). destruct n as [k| |k| |k|k j]; simpl in HF; try done.
      apply Hno. exists k. split; [exact Hn|]. done.
    - intros [Hx Hno]. split; [split; [done|]|].
      + intros (k & Hk & Hc & He & H0). apply Hno. by exists (NInd1 k).
      + intros ->. apply Hno. by exists NInd. }
  assert (shrinks s1 s' p sv1 sv') as Hsh.
  { apply (cut_shrinks s1 s' p sv1 sv' drop_cut (drop_free blocklen)); try done.
    - by apply heap_inv.
    - change (<[p := sv']> (sfs_heap t) = <[p := sv']> (sfs_heap s1)). by rewrite Ht2, I2, insert_insert_eq.
    - eapply same_rest_trans; [exact I3|exact Ht3].
    - by intros [].
    - intros x _ _. change (blk t x = blk s1 x). by rewrite Ht5. }
  exists sv'. apply (cut_indirect s1 s' p sv1 sv' blocklen drop_cut (drop_free blocklen)); try done.
  - intros [k| |k| |k|k j] Hn Hc; simpl in *; try done; auto.
    destruct (decide (blocklen < 15 + k)) as [|Hge]; [by left|right]. by apply I9.
  - intros [k| |k| |k|k j] Hn Hc; simpl in *; done.
Qed.

(** Something is left in the indirect block: the blocks past the end are freed. *)
Definition keep_cut (blocklen : Z) (n : node) : Prop :=
  match n with NInd1 k => blocklen < 15 + k | _ => False end.
#[local] Instance keep_cut_dec blocklen n : Decision (keep_cut blocklen n).
Proof. destruct n; simpl; apply _. Defined.

Lemma keep_correct s1 p sv1 blocklen s2 sv2 s3 buf dirty : fs_inv s1 -> file_at s1 p sv1 -> fval s1 sv1 NInd <> 0 ->
  blocklen < 142 -> scanned s1 p sv1 blocklen SFS_DBPERIDB s2 sv2 (buf, true, dirty) ->
  fs_inv s3 -> sfs_heap s3 = sfs_heap s2 -> same_rest s2 s3 -> (forall x, used s3 x <-> used s2 x) ->
  words (blk s3 (fval s1 sv1 NInd)) = buf -> (forall x, x <> fval s1 sv1 NInd -> blk s3 x = blk s2 x) ->
  indirect_cut s1 s3 p sv1 sv2 blocklen.
Proof.
  intros Hi Hf Hid Hlt [I1 I2 I3 I4 (b0 & Hb0 & I5) I6 I7 I8 I9 Isome I10] H3 Hh3 Hr3 Hu3 Hw3 Hb3. cbn [fst snd] in *.
  pose proof (fa_tree _ _ _ Hf) as T. set (id := fval s1 sv1 NInd) in *.
  assert (forall q, valid q -> q <> NInd -> forall k, entry (blk s3) (fval s1 sv1 q) k = entry (blk s1) (fval s1 sv1 q) k) as Hent.
  { intros q Hq Hne k. unfold entry. destruct (Z.eqb_spec (fval s1 sv1 q) 0) as [|H0]; [done|].
    rewrite Hb3, I4; [done|]. intros He. apply Hne. by apply (tree_inj _ _ _ T). }
  assert (forall n, valid n -> fval s3 sv2 n = if decide (keep_cut blocklen n) then 0 else fval s1 sv1 n) as Hv.
  { intros n Hn. rewrite I5. destruct n as [k| |k| |k|k j]; try (rewrite decide_False by (intros []); try reflexivity).
    - unfold fval. cbn [val sv_i set_inode with_blocks sfi_indirect]. change (sfi_indirect (sv_i sv1)) with id.
      unfold entry. rewrite (proj2 (Z.eqb_neq id 0) Hid), Hw3, I7 by exact Hn. simpl.
      destruct (decide (k < SFS_DBPERIDB /\ cut blocklen k)) as [[_ Hc]|Hc], (decide (blocklen < 15 + k)) as [Hc'|Hc'];
        simpl in Hn; unfold cut in *; try done; try lia. unfold entry. by rewrite (proj2 (Z.eqb_neq id 0) Hid).
    - by apply (Hent NDbl).
    - unfold fval. simpl. change (sfi_doubleindirect (sv_i sv1)) with (fval s1 sv1 NDbl).
      rewrite (Hent NDbl I) by done. destruct Hn as [Hk Hj]. by apply (Hent (NDbl1 k)). }
  assert (forall x, used s3 x <-> used s1 x /\ ~ exists n, valid n /\ keep_cut blocklen n /\ fval s1 sv1 n = x /\ x <> 0) as Hused.
  { intros x. rewrite Hu3, I8. split; intros [Hx Hno]; (split; [done|]).
    - intros (n & Hn & HF & He & H0). destruct n as [k| |k| |k|k j]; simpl in HF; try done.
      apply Hno. exists k. split; [exact Hn|]. done.
    - intros (k & Hk & Hc & He & H0). apply Hno. by exists (NInd1 k). }
  apply (cut_indirect s1 s3 p sv1 sv2 blocklen (keep_cut blocklen) (keep_cut blocklen)); try done.
  - apply (cut_shrinks s1 s3 p sv1 sv2 (keep_cut blocklen) (keep_cut blocklen)); try done.
    + by rewrite Hh3.
    + by eapply same_rest_trans.
    + by rewrite I5.
    + rewrite I5. destruct (fa_inode _ _ _ Hf). by split.
    + intros x Hx Hne. rewrite Hb3, I4; [done|]. intros He. apply Hid. rewrite <- He. by apply Hne.
  - intros [k| |k| |k|k j] Hn Hc; simpl in *; try done; auto.
  - intros [k| |k| |k|k j] Hn Hc; simpl in *; try done; auto.
  - intros _. by apply Isome.
Qed.

(** [sfs_truncate] once the direct blocks are done. *)
Definition truncate_rest (p : ptr) (len blocklen : Z) : E fs unit :=
  let! sv := get_sv p in
  let idblock := sfi_indirect (sv_i sv) in
  let baseblock := SFS_NDIRECT in
  let highblock := baseblock + SFS_DBPERIDB - 1 in
  try! _ :=
    (if (blocklen <? highblock) && negb (idblock =? 0) then
       try! bytes := sfs_rblock zero_block idblock in
       try! st := scan_indirect (Z.to_nat SFS_DBPERIDB) p blocklen baseblock 0 (words bytes, false, false) in
       let '(idbuf, hasnonzero, iddirty) := st in
       if negb hasnonzero then do! drop_indirect p idblock in ok tt
       else if iddirty then sfs_wblock (unwords idbuf) idblock
       else ok tt
     else ok tt) in
  do! upd_inode p (with_size (u32 len)) in
  do! mark_dirty p in
  ok tt.

(** The scan's buffer as a block. *)
Lemma scan_buf_ok s1 p sv1 blocklen s2 sv2 st : fs_inv s1 -> file_at s1 p sv1 -> fval s1 sv1 NInd <> 0 ->
  scanned s1 p sv1 blocklen SFS_DBPERIDB s2 sv2 st ->
  word_ok st.1.1 /\ length (unwords st.1.1) = 512%nat /\
  (st.2 = false -> st.1.1 = words (blk s1 (fval s1 sv1 NInd))).
Proof.
  intros Hi Hf Hid [I1 I2 I3 I4 I5 I6 I7 I8 I9 Isome I10].
  destruct (length_words_blk s1 (fval s1 sv1 NInd) Hi) as [Hl Hw]; [apply used_range; [done|by eapply id_used]|].
  assert (forall k, 0 <= k < SFS_DBPERIDB -> nthZ (words (blk s1 (fval s1 sv1 NInd))) k = Some (entry (blk s1) (fval s1 sv1 NInd) k)) as He.
  { intros k Hk. apply entry_nth; (done || by eapply id_used). }
  assert (forall k, 0 <= k < SFS_DBPERIDB -> is_u32 (entry (blk s1) (fval s1 sv1 NInd) k)) as Hu.
  { intros k Hk. specialize (He k Hk). rewrite nthZ_to_nat in He by lia. eapply Forall_lookup_1; [exact Hw|exact He]. }
  split_and!.
  - apply Forall_lookup. intros i x Hx. pose proof (lookup_lt_Some _ _ _ Hx) as Hlt. unfold lenZ in I6.
    specialize (I7 (Z.of_nat i)). rewrite nthZ_to_nat, Nat2Z.id, Hx in I7 by lia. specialize (I7 ltac:(lia)).
    injection I7 as ->. case_decide; [unfold is_u32; lia|]. apply Hu. lia.
  - rewrite length_unwords. unfold lenZ, SFS_DBPERIDB in I6. lia.
  - intros Hclean. apply nthZ_ext; [lia|]. intros k Hk. rewrite I7, He by lia. f_equal. case_decide as Hd; [|done].
    symmetry. apply I10; [done|lia|apply Hd].
Qed.

Lemma same_cut s p sv blocklen : fs_inv s -> file_at s p sv -> (blocklen < 142 -> fval s sv NInd = 0) ->
  indirect_cut s s p sv sv blocklen.
Proof.
  intros Hi Hf Hz. split.
  - by apply shrinks_refl.
  - intros n Hn. by left.
  - intros k Hk Hlt _. unfold fval. simpl. specialize (Hz Hlt). unfold fval in Hz. simpl in Hz. rewrite Hz. reflexivity.
  - intros n Hn H0 _. by apply (tree_used _ _ _ (fa_tree _ _ _ Hf)).
  - intros Hlt H0. by rewrite Hz in H0.
Qed.

(** The indirect block dealt with and the size set. *)
Definition rest_post (s : fs) (p : ptr) (sv : sfs_vnode) (len blocklen : Z) (r : errno + unit) (s' : fs) : Prop :=
  r = inr tt /\ exists s2 sv2, indirect_cut s s2 p sv sv2 blocklen /\
    s' = set_heap (<[p := set_inode (with_size (u32 len) (sv_i sv2)) true sv2]> (sfs_heap s2)) s2.

Lemma indirect_cut_read s s1 s2 p sv sv2 blocklen : fs_inv s -> file_at s p sv -> disk_becomes s s1 (blk s) ->
  indirect_cut s1 s2 p sv sv2 blocklen -> indirect_cut s s2 p sv sv2 blocklen.
Proof.
  intros Hi Hf Hd [A V C U K]. assert (forall n, fval s1 sv n = fval s sv n) as He by (intros n; by apply fval_read).
  assert (forall x, used s1 x <-> used s x) as Hu by (intros x; by apply (disk_becomes_used _ _ _ _ Hd)).
  split.
  - destruct A as [A1 A2 A3 A4 A5 A6 A7 A8 A9]. split; try done.
    + by rewrite A3, (disk_becomes_heap _ _ _ Hd).
    + eapply same_rest_trans; [by eapply disk_becomes_rest|exact A4].
    + intros n Hn. rewrite <- He. by apply A6.
    + intros x Hx. by apply Hu, A7.
    + intros x Hx Hn. apply A8; [by apply Hu|]. intros n Hv. rewrite He. by apply Hn.
    + intros x Hx Hn. rewrite <- (disk_becomes_blk _ _ _ x Hd). apply A9; [done|]. by rewrite He.
  - intros n Hn. rewrite <- He. by apply V.
  - exact C.
  - intros n Hn. rewrite <- He. by apply U.
  - intros Hlt. rewrite <- (He NInd). intros H0 Hz. apply K; try done. intros k Hk Hge. rewrite He. by apply Hz.
Qed.

Lemma rest_correct s p sv len blocklen : fs_inv s -> file_at s p sv ->
  wp (truncate_rest p len blocklen) (rest_post s p sv len blocklen) s.
Proof.
  intros Hi Hf. unfold truncate_rest. apply wp_bind. eapply wp_get_sv; [apply Hf|].
  change (sfi_indirect (sv_i sv)) with (fval s sv NInd). change (SFS_NDIRECT + SFS_DBPERIDB - 1) with 142.
  assert (forall s2 sv2, indirect_cut s s2 p sv sv2 blocklen ->
    wp (do! upd_inode p (with_size (u32 len)) in do! mark_dirty p in ok tt) (rest_post s p sv len blocklen) s2) as Hend.
  { intros s2 sv2 Hc. pose proof (sh_file _ _ _ _ _ (ic_shrinks _ _ _ _ _ _ Hc)) as Hf2.
    apply wp_bind. eapply wp_upd_inode; [apply Hf2|]. apply wp_bind. eapply wp_mark_dirty; [apply lookup_set_heap|].
    rewrite insert_set_heap. apply wp_ret. split; [done|]. by exists s2, sv2. }
  apply wp_tbind. destruct ((blocklen <? 142) && negb (fval s sv NInd =? 0)) eqn:Hc.
  2:{ apply wp_ret. apply Hend with sv. apply same_cut; [done|done|]. intros Hlt. apply Z.ltb_lt in Hlt. rewrite Hlt in Hc.
      simpl in Hc. by apply negb_false_iff, Z.eqb_eq in Hc. }
  apply andb_true_iff in Hc as [Hlt Hid]. apply Z.ltb_lt in Hlt. apply negb_true_iff, Z.eqb_neq in Hid.
  assert (used s (fval s sv NInd)) as Hu by (by apply (tree_used _ _ _ (fa_tree _ _ _ Hf))).
  apply wp_tbind. apply wp_rblock; [apply Hi|by apply used_range|done|]. intros s1 Hd1.
  pose proof (grows_read s s1 p sv Hi Hf Hd1) as G. pose proof (gr_inv _ _ _ _ _ G) as Hi1.
  pose proof (gr_file _ _ _ _ _ G) as Hf1. pose proof (fval_read s s1 sv NInd Hd1) as He.
  rewrite <- (words_read s s1 _ Hd1), <- He. rewrite <- He in Hid.
  apply wp_tbind. eapply wp_mono; [eapply (scan_all s1 p sv blocklen Hf1); [by apply scan_start|done|reflexivity]|].
  intros r s2 (sv2 & [[buf hz] dirty] & -> & Hs). cbv beta iota.
  destruct (scan_buf_ok s1 p sv blocklen s2 sv2 _ Hi1 Hf1 Hid Hs) as (Hwok & Hlen & Hclean). cbn [fst snd] in *.
  destruct hz; simpl negb; cbv iota.
  - destruct dirty.
    + assert (used s2 (fval s1 sv NInd)) as Hu2.
      { apply (sc_used _ _ _ _ _ _ _ _ Hs). split; [by eapply id_used|]. intros (k & Hk & _ & Hek & _).
        assert (NInd1 k = NInd) as [=]. apply (tree_inj _ _ _ (fa_tree _ _ _ Hf1) (NInd1 k) NInd); [exact Hk|exact I|exact Hek|].
        change (entry (blk s1) (fval s1 sv NInd) k <> 0). congruence. }
      pose proof (sc_inv _ _ _ _ _ _ _ _ Hs) as Hi2.
      apply wp_wblock; [apply Hi2|by apply used_range|unfold lenZ; by rewrite Hlen|apply unwords_bytes|].
      intros s3 Hd3. apply Hend with sv2. eapply indirect_cut_read; [done|done|exact Hd1|].
      apply (keep_correct s1 p sv blocklen s2 sv2 s3 buf true); try done.
      * by eapply disk_becomes_inv.
      * by rewrite (disk_becomes_heap _ _ _ Hd3).
      * by eapply disk_becomes_rest.
      * intros x. by apply (disk_becomes_used _ _ _ _ Hd3).
      * rewrite (disk_becomes_blk _ _ _ _ Hd3), bool_decide_true by done. by apply words_unwords.
      * intros x Hx. by rewrite (disk_becomes_blk _ _ _ _ Hd3), bool_decide_false.
    + apply wp_ret. apply Hend with sv2. eapply indirect_cut_read; [done|done|exact Hd1|].
      apply (keep_correct s1 p sv blocklen s2 sv2 s2 buf false); try done.
      * apply Hs.
      * rewrite (sc_blk _ _ _ _ _ _ _ _ Hs). symmetry. by apply Hclean.
  - apply wp_bind. eapply wp_mono; [by eapply (drop_correct s1 p sv blocklen s2 sv2)|].
    intros _ s3 (sv3 & Hc). apply wp_ret. apply Hend with sv3. by eapply indirect_cut_read.
Qed.
End truncate.

(** ** Properties *)

Section whole.
Context {D : Type} {B : BlockDevice D} {R : ReliableDevice B}.
Notation fs := (sfs_fs D).

Definition blocks_of (len : Z) : Z := (len + 511) / 512.

Lemma truncate_split s p sv len : fs_inv s -> file_at s p sv -> 0 <= len < 2 ^ 31 - 511 ->
  exists s0 s1 sv0 sv1, direct_done s p sv (blocks_of len) SFS_NDIRECT s0 /\
    shrinks s s0 p sv sv0 /\ (forall x, blk s0 x = blk s x) /\
    (forall n, valid n -> fval s0 sv0 n = if decide (cut_direct (blocks_of len) SFS_NDIRECT n) then 0 else fval s sv n) /\
    indirect_cut s0 s1 p sv0 sv1 (blocks_of len) /\
    sfs_truncate p len s = Done (inr tt)
      (set_heap (<[p := set_inode (with_size (u32 len) (sv_i sv1)) true sv1]> (sfs_heap s1)) s1).
Proof.
  intros Hi Hf Hlen.
  assert (wp (sfs_truncate p len) (fun r s' => r = inr tt /\ exists s0 s1 sv0 sv1, direct_done s p sv (blocks_of len) SFS_NDIRECT s0 /\
    shrinks s s0 p sv sv0 /\ (forall x, blk s0 x = blk s x) /\
    (forall n, valid n -> fval s0 sv0 n = if decide (cut_direct (blocks_of len) SFS_NDIRECT n) then 0 else fval s sv n) /\
    indirect_cut s0 s1 p sv0 sv1 (blocks_of len) /\
    s' = set_heap (<[p := set_inode (with_size (u32 len) (sv_i sv1)) true sv1]> (sfs_heap s1)) s1) s) as Hwp.
  { unfold sfs_truncate. apply wp_bind, wp_int_of. change SFS_BLOCKSIZE with 512.
    split; [unfold is_s32; lia|]. replace (len + 512 - 1) with (len + 511) by lia.
    rewrite Z.quot_div_nonneg by lia. fold (blocks_of len).
    assert (0 <= blocks_of len < 2 ^ 31) as Hb.
    { unfold blocks_of. split; [apply Z.div_pos; lia|]. apply Z.div_lt_upper_bound; lia. }
    rewrite u32_id by (unfold is_u32; lia). apply wp_tbind.
    eapply wp_mono; [by apply (direct_rounds s p sv)|]. intros r s0 [-> Hdir]. pose proof Hdir as (sv0 & S0 & B0 & V0).
    change (wp (truncate_rest p len (blocks_of len)) (fun r s' => r = inr tt /\ exists s0 s1 sv0 sv1,
      direct_done s p sv (blocks_of len) SFS_NDIRECT s0 /\
      shrinks s s0 p sv sv0 /\ (forall x, blk s0 x = blk s x) /\
      (forall n, valid n -> fval s0 sv0 n = if decide (cut_direct (blocks_of len) SFS_NDIRECT n) then 0 else fval s sv n) /\
      indirect_cut s0 s1 p sv0 sv1 (blocks_of len) /\
      s' = set_heap (<[p := set_inode (with_size (u32 len) (sv_i sv1)) true sv1]> (sfs_heap s1)) s1) s0).
    eapply wp_mono; [apply (rest_correct s0 p sv0 len (blocks_of len)); apply S0|].
    intros r s' (-> & s1 & sv1 & Hc & ->). split; [done|]. by exists s0, s1, sv0, sv1. }
  apply wp_done in Hwp as (r & s' & Hrun & -> & s0 & s1 & sv0 & sv1 & H1 & H2 & H3 & H4 & H5 & ->).
  exists s0, s1, sv0, sv1. done.
Qed.

(** The end state of a truncation. *)
Record truncated (s s' : fs) (p : ptr) (sv sv' : sfs_vnode) (len : Z) : Prop := {
  tr_inv : fs_inv s';
  tr_file : file_at s' p sv';
  tr_size : sfi_size (sv_i sv') = len;
  tr_bytes x : 0 <= x < max_offset -> x < len -> fbyte s' sv' x = fbyte s sv x;
  tr_used b : used s' b -> used s b;
  tr_frame b : used s b -> (forall n, valid n -> fval s sv n <> b) -> used s' b /\ blk s' b = blk s b;
  tr_others q : q <> p -> sfs_heap s' !! q = sfs_heap s !! q;
}.

Lemma past_byte len x : x < len -> ~ past (blocks_of len) (leaf_of (x / 512)).
Proof.
  intros Hx. assert (x / 512 < blocks_of len) as Hlt.
  { unfold blocks_of. apply Z.div_lt_upper_bound; [lia|]. pose proof (Z.div_mod (len + 511) 512).
    pose proof (Z.mod_pos_bound (len + 511) 512). lia. }
  unfold leaf_of. destruct (Z.ltb_spec (x / 512) 15); [simpl; lia|].
  destruct (Z.ltb_spec (x / 512) (15 + 128)); simpl; lia.
Qed.

Lemma size_state s1 p sv1 len : fs_inv s1 -> file_at s1 p sv1 -> 0 <= len < 2 ^ 31 ->
  let sv' := set_inode (with_size (u32 len) (sv_i sv1)) true sv1 in
  let s' := set_heap (<[p := sv']> (sfs_heap s1)) s1 in
  fs_inv s' /\ file_at s' p sv' /\ sfi_size (sv_i sv') = len /\ (forall n, fval s' sv' n = fval s1 sv1 n) /\
  (forall x, used s' x <-> used s1 x) /\ (forall x, blk s' x = blk s1 x).
Proof.
  intros Hi Hf Hlen sv' s'. destruct (with_size_file s1 p sv1 (u32 len) Hi Hf (u32_range len)) as [Hi' Hf'].
  split; [exact Hi'|]. split; [exact Hf'|]. split; [simpl; apply u32_id; unfold is_u32; lia|].
  split; [by intros []|]. done.
Qed.
End whole.

(** C15. Truncating a file to [len] bytes succeeds; the file is then [len] bytes long
    and well formed, every byte below the new end is unchanged, no block becomes
    used, and nothing that belongs to another file is freed or written. *)
Theorem sfs_truncate_keeps {D} {B : BlockDevice D} {R : ReliableDevice B} (s : sfs_fs D) (p : ptr) (sv : sfs_vnode) (len : Z) :
  fs_inv s -> file_at s p sv -> 0 <= len < 2 ^ 31 - 511 ->
  exists s' sv', sfs_truncate p len s = Done (inr tt) s' /\ truncated s s' p sv sv' len.
Proof.
  intros Hi Hf Hlen. destruct (truncate_split s p sv len Hi Hf Hlen) as (s0 & s1 & sv0 & sv1 & _ & S0 & B0 & V0 & Hc & Hrun).
  pose proof (ic_shrinks _ _ _ _ _ _ Hc) as S1. pose proof (shrinks_trans _ _ _ _ _ _ _ S0 S1) as S.
  destruct (size_state s1 p sv1 len) as (Hi' & Hf' & Hsz & Hv & Hu & Hb); [apply S|apply S|lia|].
  eexists _, _. split; [exact Hrun|]. split; try done.
  - intros x Hx Hlt. pose proof (past_byte len x Hlt) as Hpast.
    destruct (leaf_of_valid (x / 512) (offset_block x Hx)) as [Hvl Hl]. unfold fbyte. rewrite Hv, Hb.
    assert (fval s0 sv0 (leaf_of (x / 512)) = fval s sv (leaf_of (x / 512))) as He0.
    { rewrite V0 by done. rewrite decide_False; [done|]. intros Hcd. apply Hpast. destruct (leaf_of (x / 512)); simpl in *; lia || done. }
    assert (fval s1 sv1 (leaf_of (x / 512)) = fval s sv (leaf_of (x / 512))) as He.
    { destruct (ic_val _ _ _ _ _ _ Hc _ Hvl) as [Hs|[_ Hp]]; [congruence|done]. }
    rewrite He. destruct (Z.eqb_spec (fval s sv (leaf_of (x / 512))) 0) as [|H0]; [done|].
    rewrite (sh_blk _ _ _ _ _ S); [done| |].
    + rewrite <- He. rewrite <- He in H0. by apply (tree_used _ _ _ (fa_tree _ _ _ (sh_file _ _ _ _ _ S))).
    + intros Hn. assert (leaf_of (x / 512) = NInd) as Hbad by (by apply (tree_inj _ _ _ (fa_tree _ _ _ Hf))).
      rewrite Hbad in Hl. destruct Hl.
  - intros b Hbu. by apply (sh_used _ _ _ _ _ S).
  - intros b Hbu Hno. assert (used s1 b) as Hu1 by (apply (sh_free _ _ _ _ _ S); [done|]; intros n Hn He; by destruct (Hno n Hn)).
    split; [done|]. rewrite Hb. apply (sh_blk _ _ _ _ _ S); [done|]. intros He. destruct (Hno NInd I). done.
  - intros q Hq. simpl. by rewrite lookup_insert_ne, (sh_heap _ _ _ _ _ S), lookup_insert_ne.
Qed.

Lemma sfs_truncate_keeps_witness :
  exists s' sv', sfs_truncate 1%positive 4 demo_text_fs = Done (inr tt) s' /\
    truncated demo_text_fs s' 1%positive (demo_sv demo_text 4) sv' 4 /\ fbyte s' sv' 3 = 42.
Proof.
  destruct (sfs_truncate_keeps demo_text_fs 1%positive (demo_sv demo_text 4) 4) as (s' & sv' & Hrun & Ht).
  - apply demo_volume_inv; [unfold is_u8; lia|unfold is_u8; lia|reflexivity].
  - apply demo_text_file.
  - lia.
  - exists s', sv'. split; [exact Hrun|]. split; [exact Ht|].
    rewrite (tr_bytes _ _ _ _ _ _ Ht 3); [vm_compute; reflexivity|unfold max_offset, max_double; lia|lia].
Defined.


(** A file with one block behind the indirect block (6, its only entry being 7) and an
    empty double indirect block (8). *)
Definition demo_long : sfs_inode :=
  mk_inode (16 * 512) SFS_TYPE_FILE 1 (replicate 15 0) 6 8 0 (replicate 107 0) 3.
Definition demo_long_disk : ram_card := {[ 6 := unwords (7 :: replicate 127 0); 7 := replicate 512 9 ]}.
Definition demo_long_fs : sfs_fs (lhd_softc ram_card) := demo_volume demo_long_disk 255 1 demo_long.

Lemma demo_long_file : file_at demo_long_fs 1%positive (demo_sv demo_long 4).
Proof.
  assert (forall k, 0 <= k < 128 -> entry (blk demo_long_fs) 6 k = if decide (k = 0) then 7 else 0) as He.
  { intros k Hk. unfold entry. change (6 =? 0) with false. cbv iota.
    assert (blk demo_long_fs 6 = unwords (7 :: replicate 127 0)) as -> by (vm_compute; reflexivity).
    rewrite words_unwords by (apply Forall_cons; split; [unfold is_u32; lia|]; apply Forall_replicate; unfold is_u32; lia).
    rewrite nthZ_to_nat by lia. case_decide as Hk0; [by subst|].
    replace (Z.to_nat k) with (S (Z.to_nat (k - 1))) by lia.
    change ((7 :: replicate 127 0) !! S (Z.to_nat (k - 1))) with (replicate 127 0 !! Z.to_nat (k - 1)).
    by rewrite lookup_replicate_2 by lia. }
  assert (forall k, entry (blk demo_long_fs) 8 k = 0) as He8.
  { intros k. apply entry_zero_block. vm_compute. reflexivity. }
  assert (forall n, valid n -> val demo_long (blk demo_long_fs) n =
    if decide (n = NInd) then 6 else if decide (n = NInd1 0) then 7 else if decide (n = NDbl) then 8 else 0) as Hz.
  { intros n Hn. destruct n as [k| |k| |k|k j]; try reflexivity.
    - change (default 0 (nthZ (replicate 15 0) k) = 0). simpl in Hn. unfold SFS_NDIRECT in Hn. by rewrite nthZ_replicate by lia.
    - change (entry (blk demo_long_fs) 6 k = if decide (NInd1 k = NInd1 0) then 7 else 0).
      rewrite He by exact Hn. repeat case_decide; congruence.
    - change (entry (blk demo_long_fs) 8 k = 0). apply He8.
    - change (entry (blk demo_long_fs) (entry (blk demo_long_fs) 8 k) j = 0). by rewrite He8. }
  split; [reflexivity|split; try done; by apply Forall_replicate|]. split.
  - intros n Hn. change (sv_i (demo_sv demo_long 4)) with demo_long. rewrite Hz by done.
    repeat case_decide; try done; (intros _; split; [unfold nblocks; simpl; lia|reflexivity]).
  - intros n m Hn Hm. change (sv_i (demo_sv demo_long 4)) with demo_long. rewrite !Hz by done.
    repeat case_decide; congruence || lia.
Qed.

