(* ===== verification/SfsDir.v ===== *)
(** * Directories and vnode operations of SFS (assignment 3's sfs_vnode.c).

    Directory slots, the table of loaded vnodes, and the operations the VFS layer
    calls through the tables [sfs_fileops] and [sfs_dirops] (the [vop_*] definitions
    are the dispatch of the [VOP_*] macros of kern/include/vnode.h). A C string is
    the list of its bytes without the final NUL; Cstring.v proves what the string
    functions do on those. Whether an allocation succeeds is an argument. *)

From stdpp Require Import base numbers list gmap fin_sets infinite.
From Stdlib Require Import ZArith Lia.
From S2P Require Import Prelude Mem CopyInOut Uio BlockDev Lhd Bitmap Array Vnode SfsDisk SfsIo SfsTree SfsBmap SfsFile.

(** The bytes before the first NUL. *)
Fixpoint c_string (bs : list Z) : list Z :=
  match bs with
  | [] => []
  | b :: bs => if b =? 0 then [] else b :: c_string bs
  end.

Definition sizeof_dir : Z := 64.

Section dir.
Context {D : Type} `{BlockDevice D}.
Notation fs := (sfs_fs D).

(** ** Directory slots *)

(** [mk_kuio(&ku, sd, sizeof(struct sfs_dir), pos, rw); sfs_io(sv, &ku)]: the buffer
    and the residue after it. *)
Definition dir_io (p : ptr) (buf : list Z) (pos : Z) (rw : uio_op) : E fs (list Z * Z) :=
  fun s =>
    match sfs_io p (s, mk_kuio buf sizeof_dir pos rw) with
    | Done (inr _) (s', ku) =>
        match uio_iovec ku with
        | un_kbase obj _ => Done (inr (obj, uio_resid ku)) s'
        | un_ubase _ => Undef
        end
    | Done (inl e) (s', _) => Done (inl e) s'
    | Panic => Panic
    | Undef => Undef
    | OutOfFuel => OutOfFuel
    end.

(** [sd] is the caller's structure, uninitialised before the call. *)
Definition sfs_readdir (p : ptr) (sd : list Z) (slot : Z) : E fs sfs_dir :=
  let actualpos := s32 (u32 (slot * sizeof_dir)) in
  try! r := dir_io p sd actualpos UIO_READ in
  if 0 <? r.2 then panic else ok (dec_dir r.1).

Definition sfs_writedir (p : ptr) (sd : sfs_dir) (slot : Z) : E fs unit :=
  do! assert_ (0 <=? slot) in
  let actualpos := s32 (u32 (slot * sizeof_dir)) in
  try! r := dir_io p (enc_dir sd) actualpos UIO_WRITE in
  if 0 <? r.2 then panic else ok tt.

Definition sfs_dir_nentries (p : ptr) : M fs Z :=
  let! sv := get_sv p in
  do! assert_ (sfi_type (sv_i sv) =? SFS_TYPE_DIR) in
  let size := s32 (sfi_size (sv_i sv)) in
  if negb (u32 size mod sizeof_dir =? 0) then panic
  else ret (s32 (u32 size / sizeof_dir)).

(** The results of a search: inode and slot of the entry found, and a free slot. *)
Record search : Type := mk_search { found : option (Z * Z); emptyslot : option Z }.

(** An uninitialised [struct sfs_dir]. *)
Definition junk_dir : list Z := replicate 64 0.

Definition findname_slot (p : ptr) (name : list Z) (i : Z) (st : search) : E fs search :=
  try! tsd := sfs_readdir p junk_dir i in
  if sfd_ino tsd =? SFS_NOINO then ok (mk_search (found st) (Some i))
  else
    let sfd_name' := setZ (sfd_name tsd) (SFS_NAMELEN - 1) 0 in
    if bool_decide (c_string sfd_name' = name) then
      do! assert_ (bool_decide (found st = None)) in
      ok (mk_search (Some (sfd_ino tsd, i)) (emptyslot st))
    else ok st.

Fixpoint findname_loop (n : nat) (p : ptr) (name : list Z) (i : Z) (st : search) : E fs search :=
  match n with
  | O => ok st
  | S n => try! st := findname_slot p name i st in findname_loop n p name (i + 1) st
  end.

(** Fails on a read error; a search that finds nothing is [found = None], for which
    the code returns ENOENT. *)
Definition sfs_dir_findname (p : ptr) (name : list Z) : E fs search :=
  let! nentries := sfs_dir_nentries p in
  findname_loop (Z.to_nat nentries) p name 0 (mk_search None None).

Definition sfs_dir_link (p : ptr) (name : list Z) (ino : Z) : E fs Z :=
  try! st := sfs_dir_findname p name in
  match found st with
  | Some _ => fail EEXIST
  | None =>
      if SFS_NAMELEN <? lenZ name + 1 then fail ENAMETOOLONG
      else
        let! slot := (match emptyslot st with
                      | Some i => ret i
                      | None => sfs_dir_nentries p
                      end) in
        let sd := mk_dir ino (name ++ replicate (Z.to_nat (SFS_NAMELEN - lenZ name)) 0) in
        try! _ := sfs_writedir p sd slot in
        ok slot
  end.

Definition sfs_dir_unlink (p : ptr) (slot : Z) : E fs unit :=
  sfs_writedir p (mk_dir SFS_NOINO (replicate 60 0)) slot.

(** ** Loaded vnodes *)

Definition get_vnode (p : ptr) (s : fs) : option vnode := sv_v <$> sfs_heap s !! p.
Definition set_vnode (p : ptr) (v : vnode) (s : fs) : fs :=
  set_heap (alter (fun sv => mk_sv v (sv_i sv) (sv_ino sv) (sv_dirty sv)) p (sfs_heap s)) s.

Definition on_vnodes {A} (m : M (array ptr) A) : M fs A := zoom sfs_vnodes set_vnodes m.

(** [kfree(sv)] *)
Definition kfree_sv (p : ptr) : M fs unit :=
  let! s := get in put (set_heap (delete p (sfs_heap s)) s).

Definition VOP_INCREF (p : ptr) : M fs unit := vnode_incref (get_vnode p) (set_vnode p).
Definition VOP_KILL (p : ptr) : M fs unit := vnode_kill (get_vnode p) (set_vnode p).

(** Which of the three allocations of [sfs_loadvnode] succeed: the vnode structure,
    its lock, and room in the table. *)
Record memory : Type := mk_memory { mem_vnode : bool; mem_lock : bool; mem_table : bool }.

(** The search of the table for inode [ino]. *)
Definition find_loaded (ino forcetype : Z) : M fs (option ptr) :=
  let! num := on_vnodes array_getnum in
  iterate (Z.to_nat num) 0 (fun i =>
    let! p := on_vnodes (array_getguy i) in
    let! sv := get_sv p in
    let! used := sfs_bused (sv_ino sv) in
    do! assert_ used in
    if sv_ino sv =? ino then
      do! assert_ (forcetype =? SFS_TYPE_INVAL) in
      do! VOP_INCREF p in
      ret (Some p)
    else ret None).

Definition sfs_loadvnode (m : memory) (ino forcetype : Z) : E fs ptr :=
  let! loaded := find_loaded ino forcetype in
  match loaded with
  | Some p => ok p
  | None =>
      if negb (mem_vnode m) then fail ENOMEM
      else
        let! used := sfs_bused ino in
        do! assert_ used in
        try! bytes := sfs_rblock zero_block ino in
        let i := dec_inode bytes in
        do! assert_ ((forcetype =? SFS_TYPE_INVAL) || (sfi_type i =? SFS_TYPE_INVAL)) in
        let i := if forcetype =? SFS_TYPE_INVAL then i else with_type (u16 forcetype) i in
        let dirty := negb (forcetype =? SFS_TYPE_INVAL) in
        let! ops := (if sfi_type i =? SFS_TYPE_FILE then ret sfs_fileops
                     else if sfi_type i =? SFS_TYPE_DIR then ret sfs_dirops
                     else panic) in
        match vnode_init (mem_lock m) ops with
        | inl e => fail e
        | inr v =>
            let! s := get in
            let p : ptr := base.fresh (dom (sfs_heap s) : gset ptr) in
            do! put (set_heap (<[p := mk_sv v i ino dirty]> (sfs_heap s)) s) in
            let! r := on_vnodes (array_add (mem_table m) p) in
            match r with
            | inl e => do! VOP_KILL p in do! kfree_sv p in fail e
            | inr _ => ok p
            end
        end
  end.

Definition sfs_lookonce (m : memory) (p : ptr) (name : list Z) : E fs (ptr * Z) :=
  try! st := sfs_dir_findname p name in
  match found st with
  | None => fail ENOENT
  | Some (ino, slot) =>
      try! q := sfs_loadvnode m ino SFS_TYPE_INVAL in
      let! sv := get_sv q in
      if sfi_linkcount (sv_i sv) =? 0 then panic else ok (q, slot)
  end.

Definition sfs_makeobj (m : memory) (type : Z) : E fs ptr :=
  try! ino := sfs_balloc in
  sfs_loadvnode m ino type.

(** ** Vnode operations *)

Definition sfs_open (openflags : Z) : E fs unit :=
  if negb (Z.land openflags O_APPEND =? 0) then fail EUNIMP else ok tt.

Definition sfs_opendir (openflags : Z) : E fs unit :=
  if negb (Z.land openflags O_ACCMODE =? O_RDONLY) then fail EISDIR
  else if negb (Z.land openflags O_APPEND =? 0) then fail EISDIR
  else ok tt.

Definition sfs_read (p : ptr) : E (fsio (D := D)) unit :=
  let! u := get_uio in
  do! assert_ (bool_decide (uio_rw u = UIO_READ)) in
  sfs_io p.

Definition sfs_write (p : ptr) : E (fsio (D := D)) unit :=
  let! u := get_uio in
  do! assert_ (bool_decide (uio_rw u = UIO_WRITE)) in
  sfs_io p.

Definition sfs_ioctl : E fs unit := fail EINVAL.

Definition sfs_gettype (p : ptr) : E fs Z :=
  let! sv := get_sv p in
  if sfi_type (sv_i sv) =? SFS_TYPE_FILE then ok S_IFREG
  else if sfi_type (sv_i sv) =? SFS_TYPE_DIR then ok S_IFDIR
  else panic.

Definition sfs_tryseek (pos : Z) : E fs unit := if pos <? 0 then fail EINVAL else ok tt.

Definition sfs_fsync (p : ptr) : E fs unit := sfs_sync_inode p.

Definition sfs_mmap : E fs unit := fail EUNIMP.

Definition sfs_namefile (p : ptr) : E (fsio (D := D)) unit :=
  let! sv := on_fs (get_sv p) in
  do! assert_ (sv_ino sv =? SFS_ROOT_LOCATION) in
  ok tt.

(** The checks of [__VOP], and the table they lead to. *)
Definition vop_table (p : ptr) (op : vop) : M fs vn_optable :=
  let! v := vn_read (get_vnode p) in
  do! assert_ (vnode_check v op) in
  of_option (vn_ops v).

(** An entry of [sfs_fileops] and the same entry of [sfs_dirops]. *)
Definition dispatch {A} (p : ptr) (file dir : E fs A) : E fs A :=
  let! ops := vop_table p vop_other in
  match ops with
  | sfs_fileops => file
  | sfs_dirops => dir
  | _ => undef
  end.
Definition dispatch_io (p : ptr) (file dir : E (fsio (D := D)) unit) : E (fsio (D := D)) unit :=
  let! ops := on_fs (vop_table p vop_other) in
  match ops with
  | sfs_fileops => file
  | sfs_dirops => dir
  | _ => undef
  end.

Definition VOP_OPEN (p : ptr) (flags : Z) : E fs unit := dispatch p (sfs_open flags) (sfs_opendir flags).
Definition VOP_READ (p : ptr) := dispatch_io p (sfs_read p) (fail EISDIR).
Definition VOP_READLINK (p : ptr) := dispatch_io p (fail ENOTDIR) (fail EISDIR).
Definition VOP_GETDIRENTRY (p : ptr) := dispatch_io p (fail ENOTDIR) (fail EUNIMP).
Definition VOP_WRITE (p : ptr) := dispatch_io p (sfs_write p) (fail EISDIR).
Definition VOP_IOCTL (p : ptr) : E fs unit := dispatch p sfs_ioctl sfs_ioctl.
Definition VOP_GETTYPE (p : ptr) : E fs Z := dispatch p (sfs_gettype p) (sfs_gettype p).
Definition VOP_TRYSEEK (p : ptr) (pos : Z) : E fs unit := dispatch p (sfs_tryseek pos) (fail EUNIMP).
Definition VOP_FSYNC (p : ptr) : E fs unit := dispatch p (sfs_fsync p) (sfs_fsync p).
Definition VOP_MMAP (p : ptr) : E fs unit := dispatch p sfs_mmap (fail EISDIR).
Definition VOP_TRUNCATE (p : ptr) (len : Z) : E fs unit := dispatch p (sfs_truncate p len) (fail EISDIR).
Definition VOP_NAMEFILE (p : ptr) := dispatch_io p (fail ENOTDIR) (sfs_namefile p).
Definition VOP_SYMLINK (p : ptr) : E fs unit := dispatch p (fail ENOTDIR) (fail EUNIMP).
Definition VOP_MKDIR (p : ptr) : E fs unit := dispatch p (fail ENOTDIR) (fail EUNIMP).
Definition VOP_RMDIR (p : ptr) : E fs unit := dispatch p (fail ENOTDIR) (fail EUNIMP).

Definition sfs_stat (p : ptr) : E fs stat :=
  try! mode := VOP_GETTYPE p in
  let! sv := get_sv p in
  ok (mk_stat mode 0 (s32 (sfi_size (sv_i sv))) (sfi_blocks (sv_i sv))).
Definition VOP_STAT (p : ptr) : E fs stat := dispatch p (sfs_stat p) (sfs_stat p).

Definition sfs_close (p : ptr) : E fs unit := VOP_FSYNC p.
Definition VOP_CLOSE (p : ptr) : E fs unit := dispatch p (sfs_close p) (sfs_close p).

(** The index of the vnode in the table. *)
Definition find_index (p : ptr) : M fs (option Z) :=
  let! num := on_vnodes array_getnum in
  iterate (Z.to_nat num) 0 (fun i =>
    let! q := on_vnodes (array_getguy i) in
    ret (if bool_decide (q = p) then Some i else None)).

Definition sfs_reclaim (p : ptr) : E fs unit :=
  let! v := vn_read (get_vnode p) in
  if negb (vn_refcount v =? 1) then fail EBUSY
  else
    let! sv := get_sv p in
    try! _ := (if sfi_linkcount (sv_i sv) =? 0 then VOP_TRUNCATE p 0 else ok tt) in
    try! _ := sfs_sync_inode p in
    let! sv := get_sv p in
    do! (if sfi_linkcount (sv_i sv) =? 0 then
           do! sfs_bfree (sv_ino sv) in upd_inode p (add_blocks (-1))
         else ret tt) in
    let! ix := find_index p in
    match ix with
    | None => panic
    | Some ix =>
        do! on_vnodes (array_remove ix) in
        do! VOP_KILL p in
        do! kfree_sv p in
        ok tt
    end.

(** [VOP_RECLAIM] leads to [sfs_reclaim] from both tables. *)
Definition VOP_DECREF (p : ptr) : M fs unit := vnode_decref (get_vnode p) (set_vnode p) (sfs_reclaim p).
Definition VOP_INCOPEN (p : ptr) : M fs unit := vnode_incopen (get_vnode p) (set_vnode p).
Definition VOP_DECOPEN (p : ptr) : M fs unit := vnode_decopen (get_vnode p) (set_vnode p) (VOP_CLOSE p).

(** ** Names *)

Definition sfs_creat (m : memory) (p : ptr) (name : list Z) (excl : bool) : E fs ptr :=
  try! st := sfs_dir_findname p name in
  match found st with
  | Some (ino, _) =>
      if excl then fail EEXIST
      else sfs_loadvnode m ino SFS_TYPE_INVAL
  | None =>
      try! newguy := sfs_makeobj m SFS_TYPE_FILE in
      let! sv := get_sv newguy in
      let! r := sfs_dir_link p name (sv_ino sv) in
      match r with
      | inl e => do! VOP_DECREF newguy in fail e
      | inr _ =>
          do! upd_inode newguy (fun i => with_linkcount (u16 (sfi_linkcount i + 1)) i) in
          do! mark_dirty newguy in
          ok newguy
      end
  end.

Definition sfs_link (p : ptr) (name : list Z) (file : ptr) : E fs unit :=
  let! f := get_sv file in
  try! _ := sfs_dir_link p name (sv_ino f) in
  do! upd_inode file (fun i => with_linkcount (u16 (sfi_linkcount i + 1)) i) in
  do! mark_dirty file in
  ok tt.

Definition sfs_remove (m : memory) (p : ptr) (name : list Z) : E fs unit :=
  try! r := sfs_lookonce m p name in
  let '(victim, slot) := r in
  let! result := sfs_dir_unlink p slot in
  do! (match result with
       | inr _ =>
           let! sv := get_sv victim in
           do! assert_ (0 <? sfi_linkcount (sv_i sv)) in
           do! upd_inode victim (fun i => with_linkcount (sfi_linkcount i - 1) i) in
           mark_dirty victim
       | inl _ => ret tt
       end) in
  do! VOP_DECREF victim in
  ret result.

Definition sfs_rename (m : memory) (d1 : ptr) (n1 : list Z) (d2 : ptr) (n2 : list Z) : E fs unit :=
  do! assert_ (bool_decide (d1 = d2)) in
  let! sv := get_sv d1 in
  do! assert_ (sv_ino sv =? SFS_ROOT_LOCATION) in
  try! r := sfs_lookonce m d1 n1 in
  let '(g1, slot1) := r in
  let! gsv := get_sv g1 in
  do! assert_ (sfi_type (sv_i gsv) =? SFS_TYPE_FILE) in
  let! r := sfs_dir_link d1 n2 (sv_ino gsv) in
  match r with
  | inl e => do! VOP_DECREF g1 in fail e
  | inr slot2 =>
      do! upd_inode g1 (fun i => with_linkcount (u16 (sfi_linkcount i + 1)) i) in
      do! mark_dirty g1 in
      let! r := sfs_dir_unlink d1 slot1 in
      match r with
      | inl e =>
          let! r2 := sfs_dir_unlink d1 slot2 in
          match r2 with
          | inl _ => panic
          | inr _ => do! VOP_DECREF g1 in fail e
          end
      | inr _ =>
          let! gsv := get_sv g1 in
          do! assert_ (0 <? sfi_linkcount (sv_i gsv)) in
          do! upd_inode g1 (fun i => with_linkcount (sfi_linkcount i - 1) i) in
          do! mark_dirty g1 in
          do! VOP_DECREF g1 in
          ok tt
      end
  end.

(** The directory and the string copied to the caller's buffer. *)
Definition sfs_lookparent (p : ptr) (path : list Z) (buflen : Z) : E fs (ptr * list Z) :=
  let! sv := get_sv p in
  if negb (sfi_type (sv_i sv) =? SFS_TYPE_DIR) then fail ENOTDIR
  else if buflen <? lenZ path + 1 then fail ENAMETOOLONG
  else
    do! VOP_INCREF p in
    ok (p, path).

Definition sfs_lookup (m : memory) (p : ptr) (path : list Z) : E fs ptr :=
  let! sv := get_sv p in
  if negb (sfi_type (sv_i sv) =? SFS_TYPE_DIR) then fail ENOTDIR
  else
    try! r := sfs_lookonce m p path in
    ok r.1.

Definition sfs_getroot (m : memory) : M fs ptr :=
  let! r := sfs_loadvnode m SFS_ROOT_LOCATION SFS_TYPE_INVAL in
  match r with
  | inl _ => panic
  | inr p => ret p
  end.

Definition VOP_CREAT (m : memory) (p : ptr) (name : list Z) (excl : bool) : E fs ptr :=
  dispatch p (fail ENOTDIR) (sfs_creat m p name excl).
Definition VOP_LINK (p : ptr) (name : list Z) (file : ptr) : E fs unit :=
  dispatch p (fail ENOTDIR) (sfs_link p name file).
Definition VOP_REMOVE (m : memory) (p : ptr) (name : list Z) : E fs unit :=
  dispatch p (fail ENOTDIR) (sfs_remove m p name).
Definition VOP_RENAME (m : memory) (d1 : ptr) (n1 : list Z) (d2 : ptr) (n2 : list Z) : E fs unit :=
  dispatch d1 (fail ENOTDIR) (sfs_rename m d1 n1 d2 n2).
Definition VOP_LOOKUP (m : memory) (p : ptr) (path : list Z) : E fs ptr :=
  dispatch p (fail ENOTDIR) (sfs_lookup m p path).
Definition VOP_LOOKPARENT (p : ptr) (path : list Z) (buflen : Z) : E fs (ptr * list Z) :=
  dispatch p (fail ENOTDIR) (sfs_lookparent p path buflen).
End dir.
