(* ===== verification/SfsDirSpec.v ===== *)
(** * What the directory operations of SFS do.

    A directory is a file whose bytes are slots of 64 bytes; the specification reads
    it as a table from slots to entries. Searching is a lookup in it, linking adds an
    entry and keeps all others, unlinking empties a slot. *)

From stdpp Require Import base numbers list gmap.
From Stdlib Require Import ZArith Lia.
From S2P Require Import Prelude Mem CopyInOut Uio BlockDev Lhd Bitmap Array Vnode SfsDisk SfsIo SfsTree SfsBmap SfsFile SfsRw SfsDir.

Section slots.
Context {D : Type} {B : BlockDevice D} {R : ReliableDevice B}.
Notation fs := (sfs_fs D).

(** Entry [i] of the directory, its name as a C string, and their number. *)
Definition dentry (s : fs) (sv : sfs_vnode) (i : Z) : sfs_dir := dec_dir (fbytes s sv (64 * i) 64).
Definition dname (d : sfs_dir) : list Z := c_string (setZ (sfd_name d) (SFS_NAMELEN - 1) 0).
Definition nentries (sv : sfs_vnode) : Z := sfi_size (sv_i sv) / 64.

(** The name [name] stands in slot [i], for inode [ino]. *)
Definition dir_has (s : fs) (sv : sfs_vnode) (i : Z) (name : list Z) (ino : Z) : Prop :=
  0 <= i < nentries sv /\ sfd_ino (dentry s sv i) = ino /\ ino <> SFS_NOINO /\ dname (dentry s sv i) = name.

(** A well-formed directory: whole slots, within reach of the double indirect block
    and without holes; every name at most once. *)
Record dir_at (s : fs) (p : ptr) (sv : sfs_vnode) : Prop := {
  da_file : file_at s p sv;
  da_type : sfi_type (sv_i sv) = SFS_TYPE_DIR;
  da_whole : sfi_size (sv_i sv) mod 64 = 0;
  da_size : sfi_size (sv_i sv) <= max_offset;
  da_dense x : 0 <= x < sfi_size (sv_i sv) -> fval s sv (leaf_of (x / 512)) <> 0;
  da_names i j name a b : dir_has s sv i name a -> dir_has s sv j name b -> i = j;
}.

Lemma da_slots s p sv : dir_at s p sv -> sfi_size (sv_i sv) = 64 * nentries sv /\ 0 <= nentries sv <= max_offset / 64.
Proof.
  intros []. unfold nentries, max_offset, max_double in *.
  pose proof (Z.div_mod (sfi_size (sv_i sv)) 64). destruct (io_size _ (fa_inode _ _ _ da_file0)) as [H0 _].
  split; [lia|]. split; [apply Z.div_pos; lia|]. by apply Z.div_le_mono.
Qed.

Lemma fbyte_u8 s p sv x : fs_inv s -> file_at s p sv -> 0 <= x < max_offset -> is_u8 (fbyte s sv x).
Proof.
  intros Hi Hf Hx. unfold fbyte. destruct (Z.eqb_spec (fval s sv (leaf_of (x / 512))) 0) as [|H0]; [done|].
  destruct (leaf_of_valid (x / 512) (offset_block x Hx)) as [Hv _].
  assert (used s (fval s sv (leaf_of (x / 512)))) as Hu by (by apply (tree_used _ _ _ (fa_tree _ _ _ Hf))).
  destruct (blk_ok s _ Hi (used_range _ _ Hi Hu)) as [Hl Hb]. unfold SFS_BLOCKSIZE in Hl.
  pose proof (Z.mod_pos_bound x 512). destruct (nthZ_is_Some (blk s (fval s sv (leaf_of (x / 512)))) (x mod 512)) as [y Hy]; [lia|].
  rewrite Hy. simpl. rewrite nthZ_to_nat in Hy by lia. by eapply Forall_lookup_1 in Hb.
Qed.

Lemma slot_request buf i rw : lenZ buf = 64 -> 0 <= i -> 64 * i + 64 <= max_offset ->
  s32 (u32 (i * sizeof_dir)) = 64 * i /\ io_request (mk_kuio buf sizeof_dir (64 * i) rw) buf 0.
Proof.
  unfold max_offset, max_double. intros Hl Hi Hm. unfold sizeof_dir. split.
  - rewrite u32_id, s32_id by (unfold is_u32, is_s32; lia). lia.
  - split; simpl; unfold max_offset, max_double; try lia.
    + split; simpl; done || lia.
    + unfold can_move, is_u32, is_s32. simpl. lia.
Qed.

Lemma has_slot_gap s p sv i : dir_at s p sv -> 0 <= i < nentries sv -> no_gaps s sv (64 * i) 64.
Proof.
  intros Hd Hi x Hx k j Hl _ Hz. destruct (da_slots _ _ _ Hd). apply (da_dense _ _ _ Hd x); [lia|]. rewrite Hl.
  unfold fval in *. simpl in *. by rewrite Hz.
Qed.

(** Reading a slot that exists. *)
Lemma readdir_correct s p sv i : fs_inv s -> dir_at s p sv -> 0 <= i < nentries sv ->
  wp (sfs_readdir p junk_dir i) (fun r s' => r = inr (dentry s sv i) /\ disk_becomes s s' (blk s)) s.
Proof.
  intros Hi Hd Hn. destruct (da_slots _ _ _ Hd) as [Hsz [_ Hmax]].
  assert (64 * i + 64 <= max_offset) as Hm by (unfold max_offset, max_double in *; change ((15 + 128 + 128 * 128) * 512 / 64) with 132216 in Hmax; lia).
  destruct (slot_request junk_dir i UIO_READ eq_refl ltac:(lia) Hm) as [Hpos Hq].
  unfold sfs_readdir. rewrite Hpos. apply wp_tbind. unfold dir_io, wp at 1.
  destruct (io_read s p sv (mk_kuio junk_dir sizeof_dir (64 * i) UIO_READ) junk_dir 0) as (s' & Hrun & Hb);
    [done|apply Hd|unfold max_offset, max_double in *; pose proof (da_size _ _ _ Hd); unfold max_offset, max_double in *; lia|done|done| |].
  - simpl. change sizeof_dir with 64.
    replace (Z.max 0 (Z.min 64 (sfi_size (sv_i sv) - 64 * i))) with 64 by lia. by eapply has_slot_gap.
  - revert Hrun. simpl. change sizeof_dir with 64.
    replace (Z.max 0 (Z.min 64 (sfi_size (sv_i sv) - 64 * i))) with 64 by lia. intros ->. simpl.
    change (0 <? 64 - 64) with false. cbv iota. apply wp_ret. split; [|done].
    rewrite splice_full by (rewrite lenZ_fbytes by lia; done). done.
Qed.

Lemma nentries_correct s p sv : dir_at s p sv -> sfs_dir_nentries p s = Done (nentries sv) s.
Proof.
  intros Hd. destruct (da_slots _ _ _ Hd) as [Hsz [Hn0 Hmax]]. pose proof (da_size _ _ _ Hd) as Hs.
  unfold max_offset, max_double in *. change ((15 + 128 + 128 * 128) * 512 / 64) with 132216 in Hmax.
  unfold sfs_dir_nentries, get_sv, bind, get, assert_. rewrite (fa_heap _ _ _ (da_file _ _ _ Hd)).
  cbn [of_option ret]. unfold ret. rewrite (da_type _ _ _ Hd). simpl. rewrite s32_id, u32_id by (unfold is_s32, is_u32; lia).
  unfold sizeof_dir. rewrite (da_whole _ _ _ Hd). simpl. fold (nentries sv). rewrite s32_id by (unfold is_s32; lia). done.
Qed.

(** The view of a directory does not depend on the device's own state. *)
Lemma dir_read s s' p sv : fs_inv s -> dir_at s p sv -> disk_becomes s s' (blk s) ->
  fs_inv s' /\ dir_at s' p sv /\ (forall i, dentry s' sv i = dentry s sv i).
Proof.
  intros Hi Hd Hb. pose proof (grows_read s s' p sv Hi (da_file _ _ _ Hd) Hb) as G.
  assert (forall i, dentry s' sv i = dentry s sv i) as He.
  { intros i. unfold dentry. f_equal. apply fbytes_ext. intros x _. by apply fbyte_read. }
  split; [apply G|]. split; [|done]. destruct Hd. split; try done.
  - apply G.
  - intros x Hx. rewrite (fval_read _ _ _ _ Hb). by apply da_dense0.
  - intros i j name a b (? & Ha & ? & Hna) (? & Hb' & ? & Hnb). rewrite He in Ha, Hna, Hb', Hnb.
    apply (da_names0 i j name a b); done.
Qed.

(** ** Searching *)

(** What a search that looked at the slots below [j] knows. *)
Record searched (s : fs) (sv : sfs_vnode) (name : list Z) (j : Z) (st : search) : Prop := {
  se_found : match found st with
             | Some (ino, i) => i < j /\ dir_has s sv i name ino
             | None => forall i ino, i < j -> ~ dir_has s sv i name ino
             end;
  se_empty : match emptyslot st with
             | Some i => 0 <= i < j /\ sfd_ino (dentry s sv i) = SFS_NOINO
             | None => forall i, 0 <= i < j -> sfd_ino (dentry s sv i) <> SFS_NOINO
             end;
}.

Lemma findname_one s p sv name j st s1 : fs_inv s -> dir_at s p sv -> disk_becomes s s1 (blk s) ->
  0 <= j < nentries sv -> searched s sv name j st ->
  wp (findname_slot p name j st)
     (fun r s' => exists st', r = inr st' /\ searched s sv name (j + 1) st' /\ disk_becomes s s' (blk s)) s1.
Proof.
  intros Hi Hd Hb Hj [Hf He]. destruct (dir_read s s1 p sv Hi Hd Hb) as (Hi1 & Hd1 & Hde).
  unfold findname_slot. apply wp_tbind. eapply wp_mono; [by apply (readdir_correct s1 p sv j)|].
  intros r s2 [-> Hb2]. cbv beta iota. rewrite Hde.
  assert (disk_becomes s s2 (blk s)) as Hb' by (by eapply disk_read_trans).
  destruct (Z.eqb_spec (sfd_ino (dentry s sv j)) SFS_NOINO) as [H0|H0].
  { apply wp_ret. eexists. split; [done|]. split; [|done]. split; simpl.
    - destruct (found st) as [[ino i]|]; [split; [lia|apply Hf]|]. intros i ino Hlt Hh.
      destruct (decide (i = j)) as [->|]; [|apply (Hf i ino); [lia|done]]. destruct Hh as (_ & <- & Hne & _). done.
    - split; [lia|done]. }
  assert (forall st', emptyslot st' = emptyslot st -> match emptyslot st' with
             | Some i => 0 <= i < j + 1 /\ sfd_ino (dentry s sv i) = SFS_NOINO
             | None => forall i, 0 <= i < j + 1 -> sfd_ino (dentry s sv i) <> SFS_NOINO
             end) as Hempty.
  { intros st' ->. destruct (emptyslot st) as [i|]; [split; [lia|apply He]|]. intros i Hlt.
    destruct (decide (i = j)) as [->|]; [done|apply He; lia]. }
  fold (dname (dentry s sv j)). case_bool_decide as Hn.
  - assert (dir_has s sv j name (sfd_ino (dentry s sv j))) as Hhas by done.
    assert (found st = None) as Hnone.
    { destruct (found st) as [[ino i]|]; [|done]. destruct Hf as [Hlt Hh].
      assert (i = j) by (by eapply (da_names _ _ _ Hd)). lia. }
    rewrite bool_decide_true by done. apply wp_bind, wp_assert. split; [done|]. apply wp_ret.
    eexists. split; [done|]. split; [|done]. split; simpl; [split; [lia|done]|]. by apply Hempty.
  - apply wp_ret. exists st. split; [done|]. split; [|done]. split; [|by apply Hempty].
    destruct (found st) as [[ino i]|]; [split; [lia|apply Hf]|]. intros i ino Hlt Hh.
    destruct (decide (i = j)) as [->|]; [|apply (Hf i ino); [lia|done]]. by destruct Hh as (_ & _ & _ & ?).
Qed.

Lemma findname_all s p sv name n : forall j st s1, fs_inv s -> dir_at s p sv -> disk_becomes s s1 (blk s) ->
  0 <= j -> j + Z.of_nat n = nentries sv -> searched s sv name j st ->
  wp (findname_loop n p name j st)
     (fun r s' => exists st', r = inr st' /\ searched s sv name (nentries sv) st' /\ disk_becomes s s' (blk s)) s1.
Proof.
  induction n as [|n IH]; intros j st s1 Hi Hd Hb Hj Hn Hs; cbn [findname_loop].
  - apply wp_ret. exists st. split; [done|]. split; [|done]. by replace (nentries sv) with j by lia.
  - apply wp_tbind. eapply wp_mono; [apply (findname_one s p sv name j st s1); try done; lia|].
    intros r s2 (st' & -> & Hs' & Hb'). cbv beta iota. apply IH; try done; lia.
Qed.

Lemma findname_correct s p sv name : fs_inv s -> dir_at s p sv ->
  wp (sfs_dir_findname p name)
     (fun r s' => exists st, r = inr st /\ searched s sv name (nentries sv) st /\ disk_becomes s s' (blk s)) s.
Proof.
  intros Hi Hd. unfold sfs_dir_findname. apply wp_bind. eapply wp_of_eq; [by apply (nentries_correct s p sv)|].
  destruct (da_slots _ _ _ Hd) as [_ [Hn _]].
  apply findname_all; try done; [apply disk_refl, Hi|lia|]. split; simpl; [|lia].
  intros i ino Hlt (Hr & _). lia.
Qed.

(** ** Writing a slot *)

(** From [s] to [s'] slot [i] became [d], which may be the slot after the last. *)
Record slot_written (s s' : fs) (p : ptr) (sv sv' : sfs_vnode) (i : Z) (d : sfs_dir) : Prop := {
  sw_inv : fs_inv s';
  sw_file : file_at s' p sv';
  sw_type : sfi_type (sv_i sv') = sfi_type (sv_i sv);
  sw_ino : sv_ino sv' = sv_ino sv;
  sw_size : sfi_size (sv_i sv') = Z.max (sfi_size (sv_i sv)) (64 * i + 64);
  sw_entry j : 0 <= j -> 64 * j + 64 <= max_offset ->
    dentry s' sv' j = if decide (j = i) then d else dentry s sv j;
  sw_dense x : 0 <= x < max_offset -> fval s sv (leaf_of (x / 512)) <> 0 \/ 64 * i <= x < 64 * i + 64 ->
    fval s' sv' (leaf_of (x / 512)) <> 0;
  sw_frame b : used s b -> (forall n, valid n -> fval s sv n <> b) -> used s' b /\ blk s' b = blk s b;
  sw_others q : q <> p -> sfs_heap s' !! q = sfs_heap s !! q;
}.

Lemma dir_enc_bytes d : dir_ok d -> bytes_ok (enc_dir d).
Proof.
  intros []. unfold enc_dir. apply Forall_app. split; [|done]. repeat constructor; apply is_u8_u8.
Qed.

(** Nothing stored: the directory reads as before. *)
Lemma written_nothing s s' p sv sv' off : fs_inv s -> dir_at s p sv -> 0 <= off <= sfi_size (sv_i sv) ->
  written s s' p sv sv' off [] -> fs_inv s' /\ dir_at s' p sv' /\ (forall i, 0 <= i < nentries sv -> dentry s' sv' i = dentry s sv i) /\
    nentries sv' = nentries sv.
Proof.
  intros Hi Hd Hoff W. destruct (da_slots _ _ _ Hd) as [Hsz [Hn0 _]]. pose proof (da_size _ _ _ Hd) as Hmax.
  destruct (wn_meta _ _ _ _ _ _ _ W) as (_ & _ & Hty & _).
  assert (sfi_size (sv_i sv') = sfi_size (sv_i sv)) as Hsz'.
  { rewrite (wn_size _ _ _ _ _ _ _ W). change (lenZ []) with 0. lia. }
  assert (nentries sv' = nentries sv) as Hn' by (unfold nentries; by rewrite Hsz').
  assert (forall i, 0 <= i < nentries sv -> dentry s' sv' i = dentry s sv i) as He.
  { intros i Hi'. unfold dentry. f_equal. apply fbytes_ext. intros x Hx.
    rewrite (wn_bytes _ _ _ _ _ _ _ W) by lia. rewrite bool_decide_false by (change (lenZ []) with 0; lia). done. }
  split; [apply W|]. split; [|done]. destruct Hd. split.
  - apply W.
  - congruence.
  - by rewrite Hsz'.
  - by rewrite Hsz'.
  - intros x. rewrite Hsz'. intros Hx. rewrite (wn_keep _ _ _ _ _ _ _ W); [by apply da_dense0| |by apply da_dense0].
    apply leaf_of_valid, offset_block. lia.
  - intros i j name a b (Hi' & Ha & ? & Hna) (Hj' & Hb & ? & Hnb). rewrite Hn' in Hi', Hj'.
    rewrite He in Ha, Hna, Hb, Hnb by done. by apply (da_names0 i j name a b).
Qed.

Lemma writedir_correct s p sv i d : fs_inv s -> dir_at s p sv -> dir_ok d -> 0 <= i <= nentries sv -> 64 * i + 64 <= max_offset ->
  wp (sfs_writedir p d i)
     (fun r s' => match r with
        | inr _ => exists sv', slot_written s s' p sv sv' i d
        | inl e => e = ENOSPC /\ exists sv', written s s' p sv sv' (64 * i) []
        end) s.
Proof.
  intros Hi Hd Hok Hi' Hm. destruct (da_slots _ _ _ Hd) as [Hsz [Hn0 _]]. pose proof (da_size _ _ _ Hd) as Hmax.
  assert (lenZ (enc_dir d) = 64) as Hl by (unfold lenZ; by rewrite length_enc_dir).
  destruct (slot_request (enc_dir d) i UIO_WRITE Hl ltac:(lia) Hm) as [Hpos Hq].
  unfold sfs_writedir. apply wp_bind, wp_assert. split; [apply Z.leb_le; lia|]. rewrite Hpos.
  destruct (io_write s p sv (mk_kuio (enc_dir d) sizeof_dir (64 * i) UIO_WRITE) (enc_dir d) 0)
    as (r & n & s' & sv' & Hrun & Hr & W); [done|apply Hd|unfold max_offset, max_double in *; lia|done|done|by apply dir_enc_bytes|].
  apply wp_tbind. unfold dir_io, wp at 1. rewrite Hrun. simpl in Hr. change (uio_offset (mk_kuio _ _ _ _)) with (64 * i) in W.
  unfold sizeof_dir, stopped_at in *. simpl in Hr.
  destruct Hr as [[-> ->]|(-> & Hn & Hst)].
  2:{ assert (n = 0) as ->.
      { destruct Hst as [|Hst]; [done|]. pose proof (Z.div_mod (64 * i + n) 512). lia. }
      split; [done|]. exists sv'. rewrite slice_nil in W. exact W. }
  simpl. change (0 <? 64 - 64) with false. cbv iota. apply wp_ret.
  assert (slice (enc_dir d) 0 64 = enc_dir d) as Hs by (rewrite <- Hl; apply slice_full). rewrite Hs in W.
  destruct (wn_meta _ _ _ _ _ _ _ W) as (_ & Hino & Hty & _).
  exists sv'. split; try done; try apply W.
  - rewrite (wn_size _ _ _ _ _ _ _ W), Hl. done.
  - intros j Hj Hjm. unfold dentry. destruct (decide (j = i)) as [->|Hne].
    + transitivity (dec_dir (enc_dir d)); [f_equal|by apply dec_enc_dir]. apply nthZ_ext; [rewrite lenZ_fbytes by lia; lia|].
      rewrite lenZ_fbytes by lia. intros k Hk. rewrite nthZ_fbytes by done.
      rewrite (wn_bytes _ _ _ _ _ _ _ W) by lia. rewrite bool_decide_true by lia.
      replace (64 * i + k - 64 * i) with k by lia. destruct (nthZ_is_Some (enc_dir d) k) as [y Hy]; [lia|]. by rewrite Hy.
    + f_equal. apply fbytes_ext. intros x Hx. rewrite (wn_bytes _ _ _ _ _ _ _ W) by lia.
      rewrite bool_decide_false by lia. done.
  - intros x Hx [H0|Hr]; [|apply (wn_alloc _ _ _ _ _ _ _ W); [done|lia]].
    rewrite (wn_keep _ _ _ _ _ _ _ W); [done| |done]. by apply leaf_of_valid, offset_block.
Qed.
End slots.

(** ** Linking and unlinking *)

Section link.
Context {D : Type} {B : BlockDevice D} {R : ReliableDevice B}.
Notation fs := (sfs_fs D).

(** A file name that fits a slot. *)
Record name_ok (name : list Z) : Prop := {
  no_bytes : Forall (fun b => is_u8 b /\ b <> 0) name;
  no_len : lenZ name < SFS_NAMELEN;
}.

Lemma c_string_app name rest : Forall (fun b => is_u8 b /\ b <> 0) name -> c_string (name ++ 0 :: rest) = name.
Proof.
  induction 1 as [|b name [_ Hb] _ IH]; [done|]. simpl. rewrite (proj2 (Z.eqb_neq b 0) Hb). by f_equal.
Qed.

Definition new_entry (name : list Z) (ino : Z) : sfs_dir :=
  mk_dir ino (name ++ replicate (Z.to_nat (SFS_NAMELEN - lenZ name)) 0).

Lemma new_entry_ok name ino : name_ok name -> is_u32 ino -> dir_ok (new_entry name ino) /\ dname (new_entry name ino) = name.
Proof.
  intros [Hb Hl] Hi. unfold SFS_NAMELEN in *. pose proof (lenZ_nonneg name) as H0.
  assert (length (name ++ replicate (Z.to_nat (60 - lenZ name)) 0) = 60%nat) as Hlen.
  { rewrite length_app, length_replicate. unfold lenZ in *. lia. }
  split.
  - split; simpl; [done|exact Hlen|]. apply Forall_app. split.
    + eapply Forall_impl; [exact Hb|]. by intros b [? _].
    + apply Forall_replicate. unfold is_u8. lia.
  - unfold dname. cbn [sfd_name new_entry].
    change (c_string (setZ (name ++ replicate (Z.to_nat (60 - lenZ name)) 0) 59 0) = name).
    rewrite setZ_id.
    + replace (Z.to_nat (60 - lenZ name)) with (S (Z.to_nat (59 - lenZ name))) by lia. by apply c_string_app.
    + rewrite nthZ_to_nat by lia. rewrite lookup_app_r by (unfold lenZ in *; lia).
      apply lookup_replicate_2. unfold lenZ in *. lia.
Qed.

Definition empty_entry : sfs_dir := mk_dir SFS_NOINO (replicate 60 0).

Lemma empty_entry_ok : dir_ok empty_entry.
Proof. split; [done|done|]. unfold byte_ok, empty_entry. apply Forall_replicate. unfold is_u8. lia. Qed.

(** The directory after slot [i] was written, if the entry's name is free elsewhere. *)
Lemma slot_dir s s' p sv sv' i d : dir_at s p sv -> slot_written s s' p sv sv' i d ->
  0 <= i <= nentries sv -> 64 * i + 64 <= max_offset ->
  (sfd_ino d <> SFS_NOINO -> forall j a, dir_has s sv j (dname d) a -> j = i) ->
  dir_at s' p sv' /\
  (forall j name a, dir_has s' sv' j name a <->
     if decide (j = i) then a = sfd_ino d /\ a <> SFS_NOINO /\ name = dname d else dir_has s sv j name a).
Proof.
  intros Hd W Hi Hm Hfree. destruct (da_slots _ _ _ Hd) as [Hsz [Hn0 _]]. pose proof (da_size _ _ _ Hd) as Hmax.
  assert (sfi_size (sv_i sv') = 64 * Z.max (nentries sv) (i + 1)) as Hsz' by (rewrite (sw_size _ _ _ _ _ _ _ W); lia).
  assert (nentries sv' = Z.max (nentries sv) (i + 1)) as Hn'.
  { unfold nentries. rewrite Hsz'. rewrite Z.mul_comm. apply Z.div_mul. lia. }
  assert (forall j name a, dir_has s' sv' j name a <->
     if decide (j = i) then a = sfd_ino d /\ a <> SFS_NOINO /\ name = dname d else dir_has s sv j name a) as Hhas.
  { intros j name a. unfold dir_has. rewrite Hn'. destruct (decide (j = i)) as [->|Hne].
    - rewrite (sw_entry _ _ _ _ _ _ _ W) by lia. rewrite decide_True by done. split; [intros (_ & <- & ? & <-); done|].
      intros (-> & ? & ->). split; [lia|done].
    - split; intros (Hj & Hrest).
      + rewrite (sw_entry _ _ _ _ _ _ _ W), decide_False in Hrest by (done || lia). split; [lia|done].
      + rewrite (sw_entry _ _ _ _ _ _ _ W), decide_False by (done || lia). split; [lia|done]. }
  split; [|exact Hhas]. split.
  - apply W.
  - rewrite (sw_type _ _ _ _ _ _ _ W). apply Hd.
  - rewrite Hsz', Z.mul_comm. apply Z.mod_mul. lia.
  - lia.
  - intros x Hx. rewrite Hsz' in Hx. apply (sw_dense _ _ _ _ _ _ _ W); [lia|].
    destruct (decide (x < sfi_size (sv_i sv))) as [Hlt|]; [left; apply (da_dense _ _ _ Hd); lia|right; lia].
  - intros j k name a b Ha Hb. apply Hhas in Ha, Hb. destruct (decide (j = i)) as [->|Hj], (decide (k = i)) as [->|Hk]; try done.
    + destruct Ha as (-> & Hne & ->). symmetry. by eapply Hfree.
    + destruct Hb as (-> & Hne & ->). by eapply Hfree.
    + by apply (da_names _ _ _ Hd j k name a b).
Qed.

(** Nothing outside the directory at [p] changed. *)
Definition outside_same (s s' : fs) (p : ptr) (sv : sfs_vnode) : Prop :=
  (forall b, used s b -> (forall n, valid n -> fval s sv n <> b) -> used s' b /\ blk s' b = blk s b) /\
  forall q, q <> p -> sfs_heap s' !! q = sfs_heap s !! q.

Lemma outside_read s s' p sv : disk_becomes s s' (blk s) -> outside_same s s' p sv.
Proof.
  intros Hb. split.
  - intros b Hu _. split; [by apply (disk_becomes_used _ _ _ _ Hb)|by apply (disk_becomes_blk _ _ _ _ Hb)].
  - intros q _. by rewrite (disk_becomes_heap _ _ _ Hb).
Qed.

Lemma outside_trans s1 s2 s3 p sv : disk_becomes s1 s2 (blk s1) -> outside_same s2 s3 p sv -> outside_same s1 s3 p sv.
Proof.
  intros Hb [Hd Hh]. split.
  - intros b Hu Hn. destruct (Hd b) as [Hu' Hb'].
    + by apply (disk_becomes_used _ _ _ _ Hb).
    + intros n Hv. rewrite (fval_read _ _ _ _ Hb). by apply Hn.
    + split; [done|]. by rewrite Hb', (disk_becomes_blk _ _ _ _ Hb).
  - intros q Hq. by rewrite Hh, (disk_becomes_heap _ _ _ Hb).
Qed.

(** The directory holds the same names, for the same inodes, in the same slots. *)
Definition same_names (s s' : fs) (sv sv' : sfs_vnode) : Prop :=
  forall i name a, dir_has s' sv' i name a <-> dir_has s sv i name a.

Definition link_post (s : fs) (p : ptr) (sv : sfs_vnode) (name : list Z) (ino : Z) (r : errno + Z) (s' : fs) : Prop :=
  exists sv', fs_inv s' /\ dir_at s' p sv' /\ outside_same s s' p sv /\
  match r with
  | inr slot => (forall i a, ~ dir_has s sv i name a) /\
                forall i n a, dir_has s' sv' i n a <-> i = slot /\ n = name /\ a = ino \/ dir_has s sv i n a
  | inl e => same_names s s' sv sv' /\
             ((e = EEXIST /\ exists i a, dir_has s sv i name a) \/
              (e = ENAMETOOLONG /\ SFS_NAMELEN <= lenZ name) \/ e = ENOSPC)
  end.

Lemma same_names_read s s' sv : disk_becomes s s' (blk s) -> same_names s s' sv sv.
Proof.
  intros Hb i name a. unfold dir_has. assert (dentry s' sv i = dentry s sv i) as ->; [|done].
  unfold dentry. f_equal. apply fbytes_ext. intros x _. by apply fbyte_read.
Qed.

Lemma link_correct s p sv name ino : fs_inv s -> dir_at s p sv -> sfi_size (sv_i sv) + 64 <= max_offset ->
  Forall (fun b => is_u8 b /\ b <> 0) name -> is_u32 ino -> ino <> SFS_NOINO ->
  wp (sfs_dir_link p name ino) (link_post s p sv name ino) s.
Proof.
  intros Hi Hd Hroom Hb Hu Hino. destruct (da_slots _ _ _ Hd) as [Hsz [Hn0 _]].
  unfold sfs_dir_link. apply wp_tbind. eapply wp_mono; [by apply (findname_correct s p sv name)|].
  intros r s1 (st & -> & [Hfound Hempty] & Hb1). cbv beta iota.
  destruct (dir_read s s1 p sv Hi Hd Hb1) as (Hi1 & Hd1 & He1). pose proof (same_names_read s s1 sv Hb1) as Hsame.
  destruct (found st) as [[a i]|].
  { apply wp_ret. exists sv. split; [done|]. split; [done|]. split; [by apply outside_read|].
    split; [done|]. left. split; [done|]. exists i, a. apply Hfound. }
  assert (forall i a, ~ dir_has s sv i name a) as Hfresh.
  { intros i a Hh. apply (Hfound i a); [|done]. apply Hh. }
  destruct (Z.ltb_spec SFS_NAMELEN (lenZ name + 1)) as [Hlong|Hshort].
  { apply wp_ret. exists sv. split; [done|]. split; [done|]. split; [by apply outside_read|]. split; [done|].
    right. left. split; [done|]. lia. }
  apply wp_bind. eapply wp_mono with (Q := fun slot s' => s' = s1 /\ 0 <= slot <= nentries sv /\
    forall n a, ~ dir_has s sv slot n a).
  { destruct (emptyslot st) as [i|].
    - apply wp_ret. split; [done|]. split; [lia|]. intros n a (_ & Hz & Hne & _). destruct Hempty. congruence.
    - eapply wp_of_eq; [by apply (nentries_correct s1 p sv)|]. split; [done|]. split; [lia|].
      intros n a (Hr & _). lia. }
  intros slot s1' (-> & Hslot & Hfree). fold (new_entry name ino).
  destruct (new_entry_ok name ino) as [Hok Hname]; [split; [done|lia]|done|].
  apply wp_tbind. eapply wp_mono; [apply (writedir_correct s1 p sv slot (new_entry name ino)); try done; lia|].
  intros [e|[]] s2.
  - intros [-> (sv' & W)]. destruct (written_nothing s1 s2 p sv sv' (64 * slot)) as (Hi2 & Hd2 & He2 & Hn2); [done|done|lia|done|].
    exists sv'. split; [done|]. split; [done|]. split.
    { eapply outside_trans; [exact Hb1|]. split; apply W. }
    split; [|by right; right]. intros i n a. rewrite <- (Hsame i n a). unfold dir_has. rewrite Hn2.
    split; intros (Hr & Hrest); rewrite He2 in * by done; done.
  - intros (sv' & W). cbv beta iota. apply wp_ret.
    destruct (slot_dir s1 s2 p sv sv' slot (new_entry name ino) Hd1 W) as [Hd2 Hhas]; [done|lia| |].
    { intros _ j a Hh. rewrite Hname in Hh. apply Hsame in Hh. by apply Hfresh in Hh. }
    exists sv'. split; [apply W|]. split; [done|]. split.
    { eapply outside_trans; [exact Hb1|]. split; apply W. }
    split; [done|]. intros i n a. rewrite Hhas, Hname. cbn [sfd_ino new_entry]. case_decide as Hdec.
    + subst i. split.
      * intros (-> & _ & ->). by left.
      * intros [(_ & -> & ->)|Hh]; [done|]. by apply Hfree in Hh.
    + rewrite (Hsame i n a). split; [by right|]. intros [(-> & _)|Hh]; done.
Qed.

Lemma unlink_correct s p sv slot : fs_inv s -> dir_at s p sv -> 0 <= slot < nentries sv ->
  wp (sfs_dir_unlink p slot)
     (fun r s' => exists sv', fs_inv s' /\ dir_at s' p sv' /\ outside_same s s' p sv /\
        match r with
        | inr _ => forall i n a, dir_has s' sv' i n a <-> i <> slot /\ dir_has s sv i n a
        | inl e => e = ENOSPC /\ same_names s s' sv sv'
        end) s.
Proof.
  intros Hi Hd Hslot. destruct (da_slots _ _ _ Hd) as [Hsz [Hn0 _]]. pose proof (da_size _ _ _ Hd) as Hmax.
  unfold sfs_dir_unlink. fold empty_entry.
  eapply wp_mono; [apply (writedir_correct s p sv slot empty_entry); try done; [apply empty_entry_ok|lia|lia]|].
  intros [e|[]] s'.
  - intros [-> (sv' & W)]. destruct (written_nothing s s' p sv sv' (64 * slot)) as (Hi2 & Hd2 & He2 & Hn2); [done|done|lia|done|].
    exists sv'. split; [done|]. split; [done|]. split; [split; apply W|]. split; [done|].
    intros i n a. unfold dir_has. rewrite Hn2. split; intros (Hr & Hrest); rewrite He2 in * by done; done.
  - intros (sv' & W). destruct (slot_dir s s' p sv sv' slot empty_entry Hd W) as [Hd2 Hhas]; [lia|lia|done|].
    exists sv'. split; [apply W|]. split; [done|]. split; [split; apply W|].
    intros i n a. rewrite Hhas. case_decide as Hdec.
    + split; [|by intros []]. intros (-> & Hne & _). by destruct Hne.
    + naive_solver.
Qed.
End link.

(** ** Properties *)

(** C30. A search of a well-formed directory finds exactly the names that are there:
    [found] is the inode and slot of the entry with that name, and [None] (ENOENT)
    only if there is none; the free slot reported is a free slot, and none is
    reported only if every slot is taken. Nothing on the volume changes. *)
Theorem sfs_dir_findname_decides {D} {B : BlockDevice D} {R : ReliableDevice B} (s : sfs_fs D) (p : ptr) (sv : sfs_vnode)
    (name : list Z) :
  fs_inv s -> dir_at s p sv ->
  exists st s', sfs_dir_findname p name s = Done (inr st) s' /\ disk_becomes s s' (blk s) /\
    (forall ino i, found st = Some (ino, i) <-> dir_has s sv i name ino) /\
    match emptyslot st with
    | Some i => 0 <= i < nentries sv /\ sfd_ino (dentry s sv i) = SFS_NOINO
    | None => forall i, 0 <= i < nentries sv -> sfd_ino (dentry s sv i) <> SFS_NOINO
    end.
Proof.
  intros Hi Hd. destruct (wp_done _ _ _ (findname_correct s p sv name Hi Hd)) as (r & s' & Hrun & st & -> & [Hf He] & Hb).
  exists st, s'. split; [done|]. split; [done|]. split; [|done]. intros ino i.
  destruct (found st) as [[ino' i']|].
  - destruct Hf as [_ Hf]. split; [by intros [= <- <-]|]. intros Hh.
    assert (i = i') as -> by (by apply (da_names _ _ _ Hd i i' name ino ino')).
    destruct Hf as (_ & <- & _), Hh as (_ & <- & _). done.
  - split; [done|]. intros Hh. destruct (Hf i ino); [apply Hh|done].
Qed.



(** A directory with the entry "a", for inode 9, in its only slot. *)
Definition demo_dir_inode : sfs_inode := one_block 64 SFS_TYPE_DIR.
Definition demo_dir_fs : sfs_fs (lhd_softc ram_card) :=
  one_block_fs (enc_dir (new_entry [97] 9) ++ replicate 448 0) 64 SFS_TYPE_DIR.
Notation demo_dir := (demo_sv demo_dir_inode 4).

Lemma demo_dir_entry : dentry demo_dir_fs demo_dir 0 = new_entry [97] 9.
Proof. vm_compute. reflexivity. Qed.

Lemma demo_dir_at : fs_inv demo_dir_fs /\ dir_at demo_dir_fs 1%positive demo_dir.
Proof.
  destruct (one_block_file (enc_dir (new_entry [97] 9) ++ replicate 448 0) 64 SFS_TYPE_DIR) as [Hi Hf];
    [unfold is_u32; lia|unfold SFS_TYPE_DIR; lia|].
  split; [exact Hi|]. split; [exact Hf|reflexivity|reflexivity| | |].
  - vm_compute. discriminate.
  - intros x Hx. change (sfi_size (sv_i demo_dir)) with 64 in Hx.
    replace (x / 512) with 0 by (symmetry; apply Z.div_small; lia). unfold fval.
    change (sv_i demo_dir) with (one_block 64 SFS_TYPE_DIR). rewrite one_block_val by (simpl; unfold SFS_NDIRECT; lia).
    change (leaf_of 0) with (NDir 0). by rewrite decide_True by done.
  - intros i j name a b (Hri & _) (Hrj & _). change (nentries demo_dir) with 1 in *. lia.
Qed.

Lemma sfs_dir_findname_decides_witness :
  exists st s', sfs_dir_findname 1%positive [97] demo_dir_fs = Done (inr st) s' /\ found st = Some (9, 0).
Proof.
  destruct demo_dir_at as [Hi Hd].
  destruct (sfs_dir_findname_decides demo_dir_fs 1%positive demo_dir [97] Hi Hd) as (st & s' & Hrun & _ & Hf & _).
  exists st, s'. split; [exact Hrun|]. apply Hf. split; [split; vm_compute; congruence|].
  rewrite demo_dir_entry. split; [reflexivity|]. split; [discriminate|reflexivity].
Defined.


