(* ===== verification/SfsFs.v ===== *)
(** * Mounting, syncing and unmounting an SFS volume (kern/fs/sfs/sfs_fs.c).

    [sfs_sync] writes the loaded inodes, the free map and the superblock; mounting
    reads superblock and free map back. The round trip is proved for a volume with no
    loaded vnodes, which is what [sfs_unmount] insists on. *)

From stdpp Require Import base numbers list gmap.
From Stdlib Require Import ZArith Lia.
From S2P Require Import Prelude Mem CopyInOut Uio BlockDev Lhd Bitmap Array Vnode SfsDisk SfsIo SfsTree SfsBmap SfsFile SfsDir.

Section sfs_fs.
Context {D : Type} `{BlockDevice D}.
Notation fs := (sfs_fs D).

Definition SFS_FS_BITMAPSIZE (s : fs) : Z := SFS_BITMAPSIZE (sp_nblocks (sfs_super_ s)).
Definition SFS_FS_BITBLOCKS (s : fs) : Z := SFS_BITBLOCKS (sp_nblocks (sfs_super_ s)).

(** One sector of the bitmap; its data area has to be there. *)
Definition map_sector (rw : uio_op) (j : Z) : E fs unit :=
  let! bitdata := on_freemap bitmap_getdata in
  let off := j * SFS_BLOCKSIZE in
  if off + SFS_BLOCKSIZE <=? lenZ bitdata then
    match rw with
    | UIO_READ =>
        try! bytes := sfs_rblock (slice bitdata off SFS_BLOCKSIZE) (SFS_MAP_LOCATION + j) in
        let! s := get in
        do! put (set_freemap (set_v (sfs_freemap s) (splice bitdata off bytes)) (sfs_freemapdirty s) s) in
        ok tt
    | UIO_WRITE => sfs_wblock (slice bitdata off SFS_BLOCKSIZE) (SFS_MAP_LOCATION + j)
    end
  else undef.

Definition sfs_mapio (rw : uio_op) : E fs unit :=
  let! s := get in
  let mapsize := SFS_FS_BITBLOCKS s in
  for_ (Z.to_nat mapsize) 0 (map_sector rw).

Definition sfs_sync : E fs unit :=
  let! num := on_vnodes array_getnum in
  do! iterate (Z.to_nat num) 0 (fun i =>
    let! p := on_vnodes (array_getguy i) in
    do! VOP_FSYNC p in              (* an error is dropped *)
    ret (None (A := unit))) in
  let! s := get in
  try! _ := (if sfs_freemapdirty s then
               try! _ := sfs_mapio UIO_WRITE in
               let! s := get in
               do! put (set_freemap (sfs_freemap s) false s) in ok tt
             else ok tt) in
  let! s := get in
  if sfs_superdirty s then
    try! _ := sfs_wblock (enc_super (sfs_super_ s)) SFS_SB_LOCATION in
    let! s := get in
    do! put (set_superdirty false s) in ok tt
  else ok tt.

Definition sfs_getvolname : M fs (list Z) := let! s := get in ret (c_string (sp_volname (sfs_super_ s))).

(** On success the structure is gone. *)
Definition sfs_unmount : E fs unit :=
  let! num := on_vnodes array_getnum in
  if 0 <? num then fail EBUSY
  else
    let! s := get in
    do! assert_ (negb (sfs_superdirty s)) in
    do! assert_ (negb (sfs_freemapdirty s)) in
    ok tt.

Definition set_super (sp : sfs_super) (s : fs) : fs :=
  mk_fs sp (sfs_superdirty s) (sfs_device s) (sfs_vnodes s) (sfs_freemap s) (sfs_freemapdirty s)
    (sfs_heap s) (sfs_umem s) (sfs_space s).

(** The structure [sfs_domount] allocates, with its device set: the other fields are
    not yet initialised. *)
Definition raw_fs (dev : D) (um : mem) (space : option Z) : fs :=
  mk_fs (mk_super 0 0 [] []) false dev (mk_array 0 0 None) (mk_bitmap 0 []) false ∅ um space.

(** [sfs_domount] on that structure. The arguments say which allocations succeed: the
    structure, its array, and the two of [bitmap_create]. *)
Definition sfs_domount (m_fs m_array m_map m_bits : bool) : E fs unit :=
  let! s := get in
  if negb (d_blocksize (sfs_device s) =? SFS_BLOCKSIZE) then fail ENXIO
  else if negb m_fs then fail ENOMEM
  else
    let! a := array_create (A := ptr) m_array in
    match a with
    | None => fail ENOMEM
    | Some a =>
        do! put (set_vnodes a s) in
        try! bytes := sfs_rblock zero_block SFS_SB_LOCATION in
        let sp := dec_super bytes in
        if negb (sp_magic sp =? SFS_MAGIC) then fail EINVAL
        else
          let sp := mk_super (sp_magic sp) (sp_nblocks sp)
                      (setZ (sp_volname sp) (SFS_VOLNAME_SIZE - 1) 0) (sp_reserved sp) in
          let! s := get in
          do! put (set_super sp s) in
          let! b := bitmap_create m_map m_bits (SFS_BITMAPSIZE (sp_nblocks sp)) in
          match b with
          | None => fail ENOMEM
          | Some b =>
              let! s := get in
              do! put (set_freemap b (sfs_freemapdirty s) s) in
              try! _ := sfs_mapio UIO_READ in
              let! s := get in
              do! put (set_superdirty false (set_freemap (sfs_freemap s) false s)) in
              ok tt
          end
    end.
End sfs_fs.

(** ** Writing the volume and reading it back *)

Section roundtrip.
Context {D : Type} {B : BlockDevice D} {R : ReliableDevice B}.
Notation fs := (sfs_fs D).

(** What mksfs guarantees of a volume, beyond the free map's own invariant: the map
    fills its sectors, and these are on the disk. *)
Record volume_ok (s : fs) : Prop := {
  vo_inv : fs_inv s;
  vo_super : super_ok (sfs_super_ s);
  vo_magic : sp_magic (sfs_super_ s) = SFS_MAGIC;
  vo_name : nthZ (sp_volname (sfs_super_ s)) (SFS_VOLNAME_SIZE - 1) = Some 0;
  vo_bits : nbits (sfs_freemap s) = SFS_FS_BITMAPSIZE s;
  vo_room : SFS_MAP_LOCATION + SFS_FS_BITBLOCKS s <= dev_size s;
}.

Lemma bitblocks_eq n : 0 < n < 2 ^ 22 ->
  SFS_BITMAPSIZE n = 4096 * ((n + 4095) / 4096) /\ SFS_BITBLOCKS n = (n + 4095) / 4096 /\ 0 < (n + 4095) / 4096 <= 2 ^ 11.
Proof.
  intros Hn. assert (0 < (n + 4095) / 4096 <= 2 ^ 11) as Hk.
  { split; [apply Z.div_str_pos; lia|]. apply Z.div_le_upper_bound; lia. }
  assert (SFS_BITMAPSIZE n = 4096 * ((n + 4095) / 4096)) as Hs.
  { unfold SFS_BITMAPSIZE, SFS_ROUNDUP, SFS_BLOCKBITS, SFS_BLOCKSIZE. change (512 * 8) with 4096.
    replace (n + 4096 - 1) with (n + 4095) by lia.
    rewrite (u32_id (n + 4095)) by (unfold is_u32; lia). rewrite u32_id by (unfold is_u32; lia). lia. }
  split; [done|]. split; [|done]. unfold SFS_BITBLOCKS. rewrite Hs. unfold SFS_BLOCKBITS, SFS_BLOCKSIZE.
  change (512 * 8) with 4096. rewrite Z.mul_comm. apply Z.div_mul. lia.
Qed.

Lemma volume_map s : volume_ok s -> lenZ (v (sfs_freemap s)) = 512 * SFS_FS_BITBLOCKS s /\ 0 < SFS_FS_BITBLOCKS s <= 2 ^ 11.
Proof.
  intros []. pose proof (fi_size _ vo_inv0) as Hs. destruct (fi_disk _ vo_inv0) as [_ Hm].
  destruct (bitblocks_eq (nblocks s)) as (H1 & H2 & H3); [lia|]. unfold SFS_FS_BITBLOCKS, SFS_FS_BITMAPSIZE in *.
  fold (nblocks s) in *. rewrite (wf_len _ (fi_map _ vo_inv0)), vo_bits0, H1, H2. split; [|lia].
  symmetry. apply Z.div_unique with (r := 7); lia.
Qed.

(** The sector of the map at block [b], as it is in memory. *)
Definition map_block (s : fs) (b : Z) : list Z := slice (v (sfs_freemap s)) ((b - 2) * 512) 512.

Definition map_on_disk (s : fs) : Prop :=
  forall b, 2 <= b < 2 + SFS_FS_BITBLOCKS s -> blk s b = map_block s b.

Lemma map_block_ok s b : volume_ok s -> 2 <= b < 2 + SFS_FS_BITBLOCKS s ->
  lenZ (map_block s b) = 512 /\ bytes_ok (map_block s b).
Proof.
  intros Hv Hb. destruct (volume_map s Hv) as [Hl Hk]. split; [apply lenZ_slice; lia|].
  apply Forall_take, Forall_drop, Forall_lookup. intros i w Hw.
  apply (wf_u8 _ (fi_map _ (vo_inv _ Hv)) (Z.of_nat i)). rewrite nthZ_to_nat, Nat2Z.id by lia. done.
Qed.

Lemma mapio_write s : volume_ok s ->
  wp (sfs_mapio UIO_WRITE)
     (fun r s' => r = inr tt /\
        disk_becomes s s' (fun b => if bool_decide (2 <= b < 2 + SFS_FS_BITBLOCKS s) then map_block s b else blk s b)) s.
Proof.
  intros Hv. destruct (volume_map s Hv) as [Hl Hk]. pose proof (vo_inv _ Hv) as Hi. pose proof (vo_room _ Hv) as Hr.
  unfold SFS_MAP_LOCATION in Hr. unfold sfs_mapio. apply wp_bind, wp_get.
  apply (wp_for (fun j s' => disk_becomes s s' (fun b => if bool_decide (2 <= b < 2 + j) then map_block s b else blk s b))).
  - pose proof (disk_refl s (fi_disk _ Hi)) as (d & He & Ho & Hn & Hs). exists d. split; [done|]. split; [done|]. split; [done|].
    intros k. rewrite Hs. by rewrite bool_decide_false by lia.
  - intros j s1 Hj Hd. rewrite Z2Nat.id in Hj by lia. unfold map_sector. apply wp_bind. unfold on_freemap. apply wp_zoom.
    unfold bitmap_getdata. wp_steps.
    assert (set_freemap (sfs_freemap s1) (sfs_freemapdirty s1) s1 = s1) as -> by (by destruct s1).
    assert (sfs_freemap s1 = sfs_freemap s) as -> by (by destruct Hd as (d & -> & _)).
    change SFS_BLOCKSIZE with 512. destruct (Z.leb_spec (j * 512 + 512) (lenZ (v (sfs_freemap s)))); [|lia].
    unfold SFS_MAP_LOCATION.
    assert (slice (v (sfs_freemap s)) (j * 512) 512 = map_block s (2 + j)) as -> by (unfold map_block; do 2 f_equal; lia).
    destruct (map_block_ok s (2 + j) Hv) as [Hml Hmb]; [lia|].
    pose proof (disk_becomes_inv _ _ _ Hi Hd) as Hi1.
    apply wp_wblock; [apply Hi1|rewrite (disk_becomes_size _ _ _ Hd); lia|done|done|].
    intros s2 Hd2. eapply disk_becomes_trans; [exact Hd|]. destruct Hd2 as (d & -> & Ho & Hn & Hs).
    exists d. split; [done|]. split; [done|]. split; [done|]. intros k. rewrite Hs, (disk_becomes_blk _ _ _ k Hd).
    case_bool_decide as Hkj; [subst k; by rewrite bool_decide_true by lia|].
    repeat case_bool_decide; done || lia.
  - intros s' Hd. split; [done|]. rewrite Z2Nat.id, Z.add_0_l in Hd by lia. exact Hd.
Qed.

(** Reading the map into a bitmap of the right size, [m] being what is on disk. *)
Lemma mapio_read s (m : list Z) : disk_ok s -> 0 <= SFS_FS_BITBLOCKS s -> SFS_MAP_LOCATION + SFS_FS_BITBLOCKS s <= dev_size s ->
  lenZ (v (sfs_freemap s)) = 512 * SFS_FS_BITBLOCKS s -> lenZ m = 512 * SFS_FS_BITBLOCKS s ->
  (forall b, 2 <= b < 2 + SFS_FS_BITBLOCKS s -> blk s b = slice m ((b - 2) * 512) 512) ->
  wp (sfs_mapio UIO_READ)
     (fun r s' => r = inr tt /\ exists s1, disk_becomes s s1 (blk s) /\
        s' = set_freemap (mk_bitmap (nbits (sfs_freemap s)) m) (sfs_freemapdirty s) s1) s.
Proof.
  intros Hdk Hk Hr Hl Hm Hb. unfold SFS_MAP_LOCATION in Hr. unfold sfs_mapio. apply wp_bind, wp_get.
  apply (wp_for (fun j s' => exists s1 w, disk_becomes s s1 (blk s) /\ lenZ w = lenZ m /\
    s' = set_freemap (mk_bitmap (nbits (sfs_freemap s)) w) (sfs_freemapdirty s) s1 /\
    forall i, 0 <= i < j * 512 -> nthZ w i = nthZ m i)).
  - exists s, (v (sfs_freemap s)). split; [by apply disk_refl|]. split; [lia|]. split; [|intros; lia].
    destruct s as [? ? ? ? [] ? ? ? ?]. done.
  - intros j s' Hj (s1 & w & Hd & Hw & -> & Hi). rewrite Z2Nat.id in Hj by lia. unfold map_sector. apply wp_bind. unfold on_freemap.
    apply wp_zoom. unfold bitmap_getdata. wp_steps. cbn [sfs_freemap set_freemap v].
    change SFS_BLOCKSIZE with 512. destruct (Z.leb_spec (j * 512 + 512) (lenZ w)); [|lia].
    set (sw := set_freemap (mk_bitmap (nbits (sfs_freemap s)) w) (sfs_freemapdirty s) s1).
    apply wp_tbind. apply wp_rblock.
    + pose proof (disk_becomes_ok _ _ _ Hdk Hd) as Hok. exact Hok.
    + change (0 <= SFS_MAP_LOCATION + j < dev_size s1). rewrite (disk_becomes_size _ _ _ Hd). unfold SFS_MAP_LOCATION. lia.
    + change (lenZ (slice w (j * 512) 512) = 512). apply lenZ_slice; lia.
    + intros s2 (d & -> & Ho & Hn & Hs). apply wp_bind, wp_get, wp_bind, wp_put, wp_ret.
      match goal with |- context [splice w (j * 512) ?x] => assert (x = slice m (j * 512) 512) as -> end.
      { change (blk s1 (2 + j) = slice m (j * 512) 512). rewrite (disk_becomes_blk _ _ _ _ Hd), Hb by lia. f_equal. lia. }
      assert (lenZ (slice m (j * 512) 512) = 512) as Hsl by (apply lenZ_slice; lia).
      exists (set_device d s1), (splice w (j * 512) (slice m (j * 512) 512)).
      split.
      { eapply disk_becomes_trans; [exact Hd|]. exists d. split; [done|]. split; [done|]. split; [done|].
        intros k. rewrite Hs. change (blk sw k) with (blk s1 k). by apply (disk_becomes_blk _ _ _ _ Hd). }
      split; [rewrite lenZ_splice; lia|]. split; [done|]. intros i Hi'. rewrite nthZ_splice by lia.
      case_bool_decide as Hr'; [rewrite nthZ_slice by lia; f_equal; lia|]. apply Hi. lia.
  - intros s' (s1 & w & Hd & Hw & -> & Hi). rewrite Z2Nat.id, Z.add_0_l in Hi by lia. split; [done|].
    exists s1. split; [done|]. f_equal. f_equal. apply nthZ_ext; [done|]. intros i Hi'. apply Hi. lia.
Qed.

(** A volume all of which is on its disk. *)
Record on_disk (s : fs) (sp : sfs_super) (b : bitmap) : Prop := {
  od_super : blk s 0 = enc_super sp;
  od_map k : 2 <= k < 2 + SFS_BITBLOCKS (sp_nblocks sp) -> blk s k = slice (v b) ((k - 2) * 512) 512;
}.

Lemma enc_super_bytes sp : super_ok sp -> bytes_ok (enc_super sp).
Proof.
  intros []. unfold enc_super. repeat (apply Forall_app; split); try apply unwords_bytes; try done;
    repeat constructor; apply is_u8_u8.
Qed.

Lemma sync_unloaded s : volume_ok s -> num (sfs_vnodes s) = 0 ->
  (sfs_freemapdirty s = false -> map_on_disk s) -> (sfs_superdirty s = false -> blk s 0 = enc_super (sfs_super_ s)) ->
  wp sfs_sync (fun r s' => r = inr tt /\ sfs_freemapdirty s' = false /\ sfs_superdirty s' = false /\
     sfs_super_ s' = sfs_super_ s /\ sfs_freemap s' = sfs_freemap s /\ sfs_vnodes s' = sfs_vnodes s /\ dev_size s' = dev_size s /\
     disk_ok s' /\ on_disk s' (sfs_super_ s) (sfs_freemap s) /\
     forall b, b <> 0 -> ~ 2 <= b < 2 + SFS_FS_BITBLOCKS s -> blk s' b = blk s b) s.
Proof.
  intros Hv Hn Hmap Hsup. destruct (volume_map s Hv) as [_ Hk]. pose proof (vo_inv _ Hv) as Hi. pose proof (vo_room _ Hv) as Hroom.
  unfold SFS_MAP_LOCATION in Hroom. pose proof (fi_size _ Hi) as Hsz.
  unfold sfs_sync. apply wp_bind. unfold on_vnodes. apply wp_zoom. unfold array_getnum. wp_steps. rewrite Hn.
  change (Z.to_nat 0) with 0%nat. cbn [iterate]. wp_steps.
  assert (set_vnodes (sfs_vnodes s) s = s) as -> by (by destruct s).
  eapply wp_mono with (Q := fun r s1 => r = inr tt /\ disk_becomes (set_freemap (sfs_freemap s) false s) s1
    (fun b => if bool_decide (2 <= b < 2 + SFS_FS_BITBLOCKS s) then map_block s b else blk s b)).
  { destruct (sfs_freemapdirty s) eqn:Hdirty.
    - apply wp_tbind. eapply wp_mono; [by apply mapio_write|]. intros r s1 [-> (d & -> & Ho & Hnb & Hs)]. cbv beta iota.
      apply wp_bind, wp_get, wp_bind, wp_put, wp_ret. split; [done|]. by exists d.
    - apply wp_ret. split; [done|]. destruct (fi_disk _ Hi) as [Ho _]. exists (sfs_device s).
      split; [destruct s; simpl in Hdirty; by subst|]. split; [done|]. split; [done|]. intros k. case_bool_decide; [|done].
      by apply (Hmap eq_refl). }
  intros r s1 [-> Hd1]. cbv beta iota. apply wp_bind, wp_get.
  set (s0 := set_freemap (sfs_freemap s) false s) in *.
  assert (fs_inv s0) as Hi0 by (destruct Hi; by split).
  pose proof (disk_becomes_inv _ _ _ Hi0 Hd1) as Hi1.
  assert (sfs_superdirty s1 = sfs_superdirty s /\ sfs_super_ s1 = sfs_super_ s) as [Hsd Hss] by (destruct Hd1 as (d & -> & _); done).
  rewrite Hsd, Hss. pose proof (disk_becomes_size _ _ _ Hd1) as Hdev1. change (dev_size s0) with (dev_size s) in Hdev1.
  destruct (sfs_superdirty s) eqn:Hdirty.
  - apply wp_tbind. apply wp_wblock; [apply Hi1|unfold SFS_SB_LOCATION; lia| |by apply enc_super_bytes, Hv|].
    { unfold lenZ. by rewrite length_enc_super by apply Hv. }
    intros s2 Hd2. wp_steps. split; [done|].
    pose proof (disk_becomes_trans _ _ _ _ _ Hd1 Hd2) as (d & -> & Ho & Hnb & Hs).
    repeat (split; [done|]).
    split; [split; [done|]; unfold dev_size in *; simpl in *; destruct (fi_disk _ Hi); unfold dev_size in *; lia|].
    split; [split|].
    + change (blk _ 0) with (sector d 0). by rewrite Hs, bool_decide_true.
    + intros k Hkr. change (blk _ k) with (sector d k). rewrite Hs, bool_decide_false by (unfold SFS_SB_LOCATION; lia).
      rewrite (disk_becomes_blk _ _ _ _ Hd1), bool_decide_true; [done|exact Hkr].
    + intros b Hb0 Hbr. change (sector d b = blk s b). rewrite Hs, bool_decide_false by (unfold SFS_SB_LOCATION; lia).
      by rewrite (disk_becomes_blk _ _ _ _ Hd1), bool_decide_false.
  - apply wp_ret. destruct Hd1 as (d & -> & Ho & Hnb & Hs). split; [done|].
    repeat (split; [done|]).
    split; [split; [done|]; unfold dev_size in *; simpl in *; destruct (fi_disk _ Hi); unfold dev_size in *; lia|].
    split; [split|].
    + change (blk _ 0) with (sector d 0). rewrite Hs, bool_decide_false by lia. by apply Hsup.
    + intros k Hkr. change (blk _ k) with (sector d k). by rewrite Hs, bool_decide_true by exact Hkr.
    + intros b Hb0 Hbr. change (sector d b = blk s b). by rewrite Hs, bool_decide_false.
Qed.

(** Mounting what is on disk. *)
Lemma domount_correct (dev : D) um space sp b : dev_ok dev -> d_blocks dev <= 2 ^ 22 - 1 -> d_blocksize dev = SFS_BLOCKSIZE ->
  super_ok sp -> sp_magic sp = SFS_MAGIC -> nthZ (sp_volname sp) (SFS_VOLNAME_SIZE - 1) = Some 0 ->
  0 < sp_nblocks sp <= d_blocks dev -> SFS_MAP_LOCATION + SFS_BITBLOCKS (sp_nblocks sp) <= d_blocks dev ->
  nbits b = SFS_BITMAPSIZE (sp_nblocks sp) -> lenZ (v b) = 512 * SFS_BITBLOCKS (sp_nblocks sp) ->
  on_disk (raw_fs dev um space) sp b ->
  wp (sfs_domount true true true true)
     (fun r s' => r = inr tt /\ sfs_super_ s' = sp /\ sfs_freemap s' = b /\ sfs_freemapdirty s' = false /\
        sfs_superdirty s' = false /\ num (sfs_vnodes s') = 0 /\ sfs_heap s' = ∅ /\ dev_ok (sfs_device s') /\
        d_blocks (sfs_device s') = d_blocks dev /\ forall k, sector (sfs_device s') k = sector dev k)
     (raw_fs dev um space).
Proof.
  intros Ho Hmax Hbs Hsp Hmagic Hname Hnb Hroom Hbits Hlen [Hs0 Hsm].
  destruct (bitblocks_eq (sp_nblocks sp)) as (E1 & E2 & E3); [lia|].
  unfold sfs_domount. apply wp_bind, wp_get. cbn [sfs_device raw_fs]. rewrite Hbs. change (SFS_BLOCKSIZE =? SFS_BLOCKSIZE) with true.
  change (negb true) with false. cbv iota. apply wp_bind. unfold array_create. apply wp_ret, wp_bind, wp_put.
  assert (set_vnodes (mk_array 0 0 None) (raw_fs dev um space) = raw_fs dev um space) as -> by done.
  assert (disk_ok (raw_fs dev um space)) as Hdk by done.
  apply wp_tbind, wp_rblock; [done|unfold SFS_SB_LOCATION; change (0 <= 0 < d_blocks dev); lia|done|]. intros s1 Hd1.
  match goal with |- context [dec_super ?x] => assert (x = enc_super sp) as -> by exact Hs0 end.
  rewrite dec_enc_super by done. rewrite Hmagic. change (SFS_MAGIC =? SFS_MAGIC) with true. change (negb true) with false. cbv iota.
  assert (mk_super SFS_MAGIC (sp_nblocks sp) (setZ (sp_volname sp) (SFS_VOLNAME_SIZE - 1) 0) (sp_reserved sp) = sp) as ->.
  { rewrite (setZ_id _ _ _ Hname), <- Hmagic. by destruct sp. }
  apply wp_bind, wp_get, wp_bind, wp_put, wp_bind.
  destruct (create_correct (SFS_BITMAPSIZE (sp_nblocks sp)) (set_super sp s1)) as (b0 & Hrun & Hb0).
  { rewrite E1. unfold max_nbits, BITS_PER_WORD, CHAR_BIT. lia. }
  eapply wp_of_eq; [exact Hrun|]. destruct Hb0 as (Hwf0 & Hnb0 & _). cbv beta iota.
  apply wp_bind, wp_get, wp_bind, wp_put.
  set (s2 := set_freemap b0 (sfs_freemapdirty (set_super sp s1)) (set_super sp s1)).
  destruct Hd1 as (d1 & -> & Ho1 & Hn1 & Hk1). change (dev_size (raw_fs dev um space)) with (d_blocks dev) in Hn1.
  apply wp_tbind. eapply wp_mono; [apply (mapio_read s2 (v b))|].
  - split; [exact Ho1|]. change (d_blocks d1 <= 2 ^ 22 - 1). lia.
  - unfold SFS_FS_BITBLOCKS. simpl. lia.
  - change (dev_size s2) with (d_blocks d1). change (SFS_FS_BITBLOCKS s2) with (SFS_BITBLOCKS (sp_nblocks sp)). lia.
  - change (SFS_FS_BITBLOCKS s2) with (SFS_BITBLOCKS (sp_nblocks sp)). change (sfs_freemap s2) with b0.
    rewrite (wf_len _ Hwf0), Hnb0, E1, E2. symmetry. apply Z.div_unique with (r := 7); lia.
  - change (SFS_FS_BITBLOCKS s2) with (SFS_BITBLOCKS (sp_nblocks sp)). done.
  - intros k Hk. change (SFS_FS_BITBLOCKS s2) with (SFS_BITBLOCKS (sp_nblocks sp)) in Hk.
    change (blk s2 k) with (sector d1 k). rewrite Hk1. by apply Hsm.
  - intros r s3 (-> & s4 & (d4 & -> & Ho4 & Hn4 & Hk4) & ->). cbv beta iota. apply wp_bind, wp_get, wp_bind, wp_put, wp_ret.
    split; [done|]. split; [done|]. split; [simpl; rewrite Hnb0, <- Hbits; by destruct b|].
    split; [done|]. split; [done|]. split; [done|]. split; [done|]. split; [exact Ho4|].
    split; [change (d_blocks d4 = d_blocks dev); rewrite Hn4; exact Hn1|]. intros k. change (sector d4 k = sector dev k). rewrite Hk4. change (blk s2 k) with (sector d1 k). by rewrite Hk1.
Qed.
End roundtrip.

(** ** Properties *)

(** C17. Unmounting loses nothing: on a volume with no loaded vnodes [sfs_sync]
    succeeds, [sfs_unmount] is then allowed, and mounting the same device again
    yields the superblock and the free map that were in memory, whatever of them had
    not been written before; outside superblock and map no block is written. *)
Theorem sync_then_mount {D} {B : BlockDevice D} {R : ReliableDevice B} (s : sfs_fs D) (um : mem) (space : option Z) :
  volume_ok s -> num (sfs_vnodes s) = 0 -> (forall d : D, d_blocksize d = SFS_BLOCKSIZE) ->
  (sfs_freemapdirty s = false -> map_on_disk s) -> (sfs_superdirty s = false -> blk s 0 = enc_super (sfs_super_ s)) ->
  exists s1 s2, sfs_sync s = Done (inr tt) s1 /\ sfs_unmount s1 = Done (inr tt) s1 /\
    sfs_domount true true true true (raw_fs (sfs_device s1) um space) = Done (inr tt) s2 /\
    sfs_super_ s2 = sfs_super_ s /\ sfs_freemap s2 = sfs_freemap s /\
    forall b, b <> 0 -> ~ 2 <= b < 2 + SFS_FS_BITBLOCKS s -> blk s2 b = blk s b.
Proof.
  intros Hv Hn Hbs Hmap Hsup.
  destruct (wp_done _ _ _ (sync_unloaded s Hv Hn Hmap Hsup)) as (r & s1 & Hrun & -> & F1 & F2 & Esp & Eb & Ev & Esz & Hdk & Hod & Hframe).
  destruct (volume_map s Hv) as [Hl Hk]. pose proof (fi_size _ (vo_inv _ Hv)) as Hsz.
  assert (dev_size s1 = d_blocks (sfs_device s1)) as Hds by done.
  pose proof (domount_correct (sfs_device s1) um space (sfs_super_ s) (sfs_freemap s)) as Hm.
  assert (on_disk (raw_fs (sfs_device s1) um space) (sfs_super_ s) (sfs_freemap s)) as Hod' by (destruct Hod; by split).
  destruct (wp_done _ _ _ (Hm ltac:(apply Hdk) ltac:(rewrite <- Hds; apply Hdk) (Hbs _) (vo_super _ Hv) (vo_magic _ Hv) (vo_name _ Hv)
    ltac:(rewrite <- Hds, Esz; exact Hsz) ltac:(rewrite <- Hds, Esz; apply (vo_room _ Hv)) (vo_bits _ Hv) Hl Hod'))
    as (r & s2 & Hrun2 & -> & G1 & G2 & _ & _ & _ & _ & _ & _ & Hsec).
  exists s1, s2. split; [done|]. split.
  { assert (set_vnodes (sfs_vnodes s1) s1 = s1) as He by (by destruct s1).
    unfold sfs_unmount, on_vnodes, zoom, array_getnum, bind, get, ret. rewrite He, Ev, Hn. change (0 <? 0) with false.
    cbv beta iota. rewrite F2. cbn. by rewrite F1. }
  split; [done|]. split; [done|]. split; [done|]. intros b Hb0 Hbr. unfold blk at 1. rewrite Hsec. by apply Hframe.
Qed.

(** A volume of 64 blocks, never written. *)
Definition demo_super : sfs_super := mk_super SFS_MAGIC 64 (replicate 32 0) (replicate 118 0).
Definition demo_map : bitmap := mk_bitmap 4096 (7 :: replicate 7 0 ++ replicate 504 255).
Definition demo_fresh_volume : sfs_fs (lhd_softc ram_card) :=
  mk_fs demo_super true (fresh_lhd ∅) (mk_array 0 0 None) demo_map true ∅ ∅ None.

Lemma demo_map_bit i : 64 <= i < 4096 -> bit demo_map i = true.
Proof.
  intros Hi. unfold bit. unfold BITS_PER_WORD, CHAR_BIT. change (v demo_map) with ((7 :: replicate 7 0) ++ replicate 504 255).
  assert (8 <= i / 8 < 512) as Hd by (split; [apply Z.div_le_lower_bound; lia|apply Z.div_lt_upper_bound; lia]).
  rewrite nthZ_to_nat by lia. rewrite lookup_app_r by (simpl; lia). simpl length.
  rewrite lookup_replicate_2 by lia. pose proof (Z.mod_pos_bound i 8).
  change 255 with (Z.ones 8). apply Z.ones_spec_low. lia.
Qed.

Lemma demo_fresh_volume_ok : volume_ok demo_fresh_volume.
Proof.
  split.
  - split.
    + split; [apply fresh_lhd_ready|]. vm_compute. discriminate.
    + split; [split; vm_compute; discriminate|vm_compute; reflexivity| |].
      * intros i w Hw. assert (Forall is_u8 (v demo_map)) as Hf.
        { change (v demo_map) with ((7 :: replicate 7 0) ++ replicate 504 255). apply Forall_app. split.
          - repeat constructor; unfold is_u8; lia.
          - apply Forall_replicate. unfold is_u8. lia. }
        unfold nthZ in Hw. case_decide; [|done]. by eapply Forall_lookup_1.
      * intros i Hi. change (8 * lenZ (v (sfs_freemap demo_fresh_volume))) with 4096 in Hi. change (nbits (sfs_freemap demo_fresh_volume)) with 4096 in Hi. lia.
    + done.
    + vm_compute. discriminate.
    + reflexivity.
    + intros i Hi. apply demo_map_bit. exact Hi.
  - split; try done; [apply Forall_replicate; unfold is_u8; lia|apply Forall_replicate; unfold is_u32; lia].
  - reflexivity.
  - reflexivity.
  - vm_compute. reflexivity.
  - vm_compute. discriminate.
Qed.

Lemma sync_then_mount_witness :
  exists s1 s2, sfs_sync demo_fresh_volume = Done (inr tt) s1 /\
    sfs_domount true true true true (raw_fs (sfs_device s1) ∅ None) = Done (inr tt) s2 /\
    sfs_super_ s2 = demo_super /\ sfs_freemap s2 = demo_map.
Proof.
  destruct (sync_then_mount demo_fresh_volume ∅ None) as (s1 & s2 & Hsync & _ & Hmount & Hsp & Hb & _).
  - apply demo_fresh_volume_ok.
  - reflexivity.
  - intros d. reflexivity.
  - discriminate.
  - discriminate.
  - exists s1, s2. split; [exact Hsync|]. split; [exact Hmount|]. split; [exact Hsp|exact Hb].
Defined.
