(* ===== verification/System.v ===== *)
(** * The file system stack put together.

    One state holds the disks, the device vnodes over them and the mounted SFS
    volumes; [system_layer] makes it a [FileLayer]. A vnode pointer is a device's or a
    volume's, a file system pointer is a volume's number. A volume reads and writes
    the same disk as the raw device. Whether allocations succeed is an argument. *)

From stdpp Require Import base numbers list gmap strings.
From Stdlib Require Import ZArith Lia.
From S2P Require Import Prelude Mem CopyInOut Uio BlockDev Lhd Bitmap Array SfsDisk Vnode SfsIo SfsTree SfsBmap SfsFile SfsDir SfsFs Device Vfs VfsList VfsPath VfsBalance.

Section system.
Context {D : Type} `{BlockDevice D} (m : SfsDir.memory).

(** A mounted volume: its disk, and the file system but for [sfs_device]. *)
Record volume : Type := mk_volume { vol_disk : Z; vol_fs : sfs_fs D }.

Record system : Type := mk_system {
  sy_devs : devs (list D);
  sy_volumes : list (option volume);       (* None once unmounted *)
}.

(** ** Disks as devices *)

Definition disk_io (k : Z) : E (list D * uenv) unit :=
  fun s =>
    match nthZ s.1 k with
    | None => Undef
    | Some d =>
        match BlockDev.d_io (d, s.2) with
        | Done r t => Done r (setZ s.1 k t.1, t.2)
        | Panic => Panic
        | Undef => Undef
        | OutOfFuel => OutOfFuel
        end
    end.

Definition disk_device (k : Z) (d : D) : device (list D) :=
  mk_device (fun _ => lhd_open) lhd_close (disk_io k) (fun _ _ => lhd_ioctl)
    (BlockDev.d_blocks d) (BlockDev.d_blocksize d) (Some k).

(** ** Running an operation of a volume *)

Definition set_device (d : D) (f : sfs_fs D) : sfs_fs D :=
  mk_fs (sfs_super_ f) (sfs_superdirty f) d (sfs_vnodes f) (sfs_freemap f) (sfs_freemapdirty f)
    (sfs_heap f) (sfs_umem f) (sfs_space f).

Definition volume_view (k : Z) (s : system) : option (sfs_fs D) :=
  vol ← nthZ (sy_volumes s) k; vol ← vol;
  d ← nthZ (dv_state (sy_devs s)) (vol_disk vol);
  Some (set_device d (vol_fs vol)).

Definition set_disk (k : Z) (d : D) (s : system) : system :=
  let v := sy_devs s in
  mk_system (mk_devs (setZ (dv_state v) k d) (dv_devices v) (dv_vnodes v)) (sy_volumes s).

Definition put_volume (k : Z) (f : sfs_fs D) (s : system) : system :=
  match nthZ (sy_volumes s) k with
  | Some (Some vol) =>
      let s := set_disk (vol_disk vol) (sfs_device f) s in
      mk_system (sy_devs s) (setZ (sy_volumes s) k (Some (mk_volume (vol_disk vol) f)))
  | _ => s
  end.

Definition on_volume {A} (k : Z) (op : M (sfs_fs D) A) : M system A :=
  fun s =>
    match volume_view k s with
    | None => Undef
    | Some f =>
        match op f with
        | Done a f => Done a (put_volume k f s)
        | Panic => Panic
        | Undef => Undef
        | OutOfFuel => OutOfFuel
        end
    end.

Definition on_volume_io {A} (k : Z) (op : M (fsio (D := D)) A) : M (system * uenv) A :=
  fun s =>
    match volume_view k s.1 with
    | None => Undef
    | Some f =>
        let f := mk_fs (sfs_super_ f) (sfs_superdirty f) (sfs_device f) (sfs_vnodes f) (sfs_freemap f)
                   (sfs_freemapdirty f) (sfs_heap f) (umem s.2) (curspace s.2) in
        match op (f, xuio s.2) with
        | Done a t => Done a (put_volume k t.1 s.1, fs_env t)
        | Panic => Panic
        | Undef => Undef
        | OutOfFuel => OutOfFuel
        end
    end.

Definition on_dev {A} (op : M (devs (list D)) A) : M system A :=
  zoom sy_devs (fun d s => mk_system d (sy_volumes s)) op.
Definition on_dev_io {A} (op : M (devs (list D) * uenv) A) : M (system * uenv) A :=
  zoom (fun s => (sy_devs s.1, s.2)) (fun t s => (mk_system t.1 (sy_volumes s.1), t.2)) op.

(** ** Vnodes of both kinds *)

Definition vn : Type := Z + (Z * ptr).

Definition either {A} (v : vn) (dev : Z -> M (devs (list D)) A) (file : ptr -> M (sfs_fs D) A) : M system A :=
  match v with
  | inl d => on_dev (dev d)
  | inr (k, p) => on_volume k (file p)
  end.
Definition either_io {A} (v : vn) (dev : Z -> M (devs (list D) * uenv) A) (file : ptr -> M (fsio (D := D)) A)
  : M (system * uenv) A :=
  match v with
  | inl d => on_dev_io (dev d)
  | inr (k, p) => on_volume_io k (file p)
  end.

(** A vnode of volume [k] as a vnode of the system, and a device's. *)
Definition up {S} (k : Z) (op : E S ptr) : E S vn := try! p := op in ok (inr (k, p)).
Definition updev {S} (op : E S Z) : E S vn := try! v := op in ok (inl v).

(** The two vnodes of [VOP_LINK] and [VOP_RENAME] are of one file system. *)
Definition same_volume {A} (k : Z) (v : vn) (op : ptr -> M (sfs_fs D) A) : M system A :=
  match v with
  | inr (k', p) => if k =? k' then on_volume k (op p) else undef
  | inl _ => undef
  end.

Definition forget_volume (k : Z) : M system unit :=
  let! s := get in put (mk_system (sy_devs s) (setZ (sy_volumes s) k None)).

#[export] Instance system_layer : FileLayer system vn Z := {|
  vn_fs v := ret (match v with inl _ => None | inr (k, _) => Some k end);
  VOP_OPEN v f := either v (fun d => dev_vop d (dev_open d f)) (fun p => SfsDir.VOP_OPEN p f);
  VOP_GETTYPE v := either v (fun d => dev_vop d (dev_gettype d)) (fun p => SfsDir.VOP_GETTYPE p);
  VOP_TRUNCATE v n := either v (fun d => dev_vop d (dev_truncate d n)) (fun p => SfsDir.VOP_TRUNCATE p n);
  VOP_READLINK v := either_io v (fun d => dev_vop_io d null_io) SfsDir.VOP_READLINK;
  VOP_NAMEFILE v := either_io v (fun d => dev_vop_io d dev_namefile) SfsDir.VOP_NAMEFILE;
  VOP_CREAT v n x := match v with
                     | inl d => on_dev (updev (dev_vop d null_creat))
                     | inr (k, p) => on_volume k (up k (SfsDir.VOP_CREAT m p n x))
                     end;
  VOP_SYMLINK v n c := either v (fun d => dev_vop d null_symlink) SfsDir.VOP_SYMLINK;
  VOP_MKDIR v n := either v (fun d => dev_vop d null_nameop) SfsDir.VOP_MKDIR;
  VOP_LINK v n f := match v with
                    | inl d => on_dev (dev_vop d null_link)
                    | inr (k, p) => same_volume k f (SfsDir.VOP_LINK p n)
                    end;
  VOP_REMOVE v n := either v (fun d => dev_vop d null_nameop) (fun p => SfsDir.VOP_REMOVE m p n);
  VOP_RMDIR v n := either v (fun d => dev_vop d null_nameop) SfsDir.VOP_RMDIR;
  VOP_RENAME v n v2 n2 := match v with
                          | inl d => on_dev (dev_vop d null_rename)
                          | inr (k, p) => same_volume k v2 (fun q => SfsDir.VOP_RENAME m p n q n2)
                          end;
  VOP_LOOKUP v path := match v with
                       | inl d => on_dev (updev (dev_vop d (dev_lookup d path)))
                       | inr (k, p) => on_volume k (up k (SfsDir.VOP_LOOKUP m p path))
                       end;
  VOP_LOOKPARENT v path n :=
    match v with
    | inl d => on_dev (try! r := dev_vop d dev_lookparent in ok (inl r.1, r.2))
    | inr (k, p) => on_volume k (try! r := SfsDir.VOP_LOOKPARENT p path n in ok (inr (k, r.1), r.2))
    end;
  VOP_INCREF v := either v dev_incref SfsDir.VOP_INCREF;
  VOP_DECREF v := either v dev_decref SfsDir.VOP_DECREF;
  VOP_INCOPEN v := either v dev_incopen SfsDir.VOP_INCOPEN;
  VOP_DECOPEN v := either v dev_decopen SfsDir.VOP_DECOPEN;
  FSOP_SYNC k := on_volume k sfs_sync;
  FSOP_GETVOLNAME k := let! n := on_volume k sfs_getvolname in ret (Some n);
  FSOP_GETROOT k := on_volume k (let! p := sfs_getroot m in ret (inr (k, p)));
  FSOP_UNMOUNT k := try! _ := on_volume k sfs_unmount in do! forget_volume k in ok tt;
  create_dev_vnode m1 m2 d := on_dev (let! v := dev_create_vnode m1 m2 d in ret (inl <$> v));
|}.

(** [sfs_domount] on the device [dev] of the disk it is for. *)
Definition mount_sfs (m_fs m_array m_map m_bits : bool) (dev : Z) : E system Z :=
  let! s := get in
  let! dv := of_option (nthZ (dv_devices (sy_devs s)) dev) in
  let! k := of_option (d_data dv) in
  let! d := of_option (nthZ (dv_state (sy_devs s)) k) in
  fun s =>
    match sfs_domount m_fs m_array m_map m_bits (raw_fs d ∅ None) with
    | Done r f =>
        let s := set_disk k (sfs_device f) s in
        match r with
        | inl e => Done (inl e) s
        | inr _ => Done (inr (lenZ (sy_volumes s)))
                        (mk_system (sy_devs s) (sy_volumes s ++ [Some (mk_volume k f)]))
        end
    | Panic => Panic
    | Undef => Undef
    | OutOfFuel => OutOfFuel
    end.

Definition sfs_mount (device : list Z) : E (vfs system vn Z) unit :=
  vfs_mount device (mount_sfs true true true true).
End system.
