(* ===== verification/VfsSpec.v ===== *)
(** * What the VFS layer promises.

    Properties of the list of named devices, of path translation and of the reference
    counts, over any file layer, with the system of System.v as the instance their
    examples run on. *)

From stdpp Require Import base numbers list gmap strings.
From Stdlib Require Import ZArith Lia.
From S2P Require Import Prelude Mem CopyInOut Uio BlockDev Lhd Bitmap Array SfsDisk Vnode SfsIo SfsTree SfsBmap SfsFile SfsDir SfsFs Device Vfs VfsList VfsNames VfsPath VfsBalance System.

(** ** The forms of a path *)

Inductive origin : Type :=
| from_cwd
| from_device (name : list Z)
| from_boot
| from_volume.

Definition plain (c : Z) : Prop := c <> colon_char /\ c <> slash_char.

Inductive path_form : list Z -> origin -> list Z -> Prop :=
| form_name path : Forall plain path -> path_form path from_cwd path
| form_relative a rest : Forall plain a -> a <> [] ->
    path_form (a ++ slash_char :: rest) from_cwd (a ++ slash_char :: rest)
| form_device a rest : Forall plain a -> a <> [] ->
    path_form (a ++ colon_char :: rest) (from_device a) (skip_slashes rest)
| form_boot rest : path_form (slash_char :: rest) from_boot (skip_slashes rest)
| form_volume rest : path_form (colon_char :: rest) from_volume (skip_slashes rest).

Lemma path_has_form path : exists o sub, path_form path o sub.
Proof.
  assert (Forall plain path \/ exists a c rest, path = a ++ c :: rest /\ Forall plain a /\ (c = colon_char \/ c = slash_char))
    as [Hp|(a & c & rest & -> & Ha & Hc)].
  { induction path as [|x path IH]; [by left|].
    destruct (decide (x = colon_char \/ x = slash_char)) as [Hx|Hx].
    - right. by exists [], x, path.
    - destruct IH as [IH|(a & c & rest & -> & Ha & Hc)].
      + left. constructor; [unfold plain; tauto|done].
      + right. exists (x :: a), c, rest. split; [done|]. split; [|done]. constructor; [unfold plain; tauto|done]. }
  - do 2 eexists. by apply form_name.
  - destruct a as [|x a], Hc as [-> | ->]; do 2 eexists.
    + apply form_volume.
    + apply form_boot.
    + by apply form_device.
    + by apply form_relative.
Qed.

Lemma first_mark_plain a rest i :
  Forall plain a -> first_mark (a ++ rest) i = first_mark rest (i + lenZ a).
Proof.
  intros Ha. revert i. induction Ha as [|x a [Hc Hs] Ha IH]; intros i; simpl.
  - by rewrite Z.add_0_r.
  - destruct (Z.eqb_spec x colon_char) as [|_]; [done|]. destruct (Z.eqb_spec x slash_char) as [|_]; [done|].
    rewrite IH. f_equal. unfold lenZ. simpl. lia.
Qed.

Lemma first_mark_slash rest i : first_mark (slash_char :: rest) i = (i, -1).
Proof. done. Qed.

Lemma first_mark_colon rest i : first_mark (colon_char :: rest) i = (-1, i).
Proof. done. Qed.

Lemma first_mark_path path : Forall plain path -> first_mark path 0 = (-1, -1).
Proof. intros Hp. rewrite <- (app_nil_r path). by rewrite first_mark_plain. Qed.

Lemma drop_name (a rest : list Z) c : drop (Z.to_nat (lenZ a + 1)) (a ++ c :: rest) = rest.
Proof.
  unfold lenZ. replace (Z.to_nat (Z.of_nat (length a) + 1)) with (length a + 1)%nat by lia.
  rewrite <- drop_drop, drop_app_length. done.
Qed.

Lemma take_name (a rest : list Z) : take (Z.to_nat (lenZ a)) (a ++ rest) = a.
Proof. unfold lenZ. rewrite Nat2Z.id. apply take_app_length. Qed.

Section forms.
Context {W V F : Type} `{FileLayer W V F} `{EqDecision F}.
Notation vfs := (vfs W V F).

(** The vnode a path starts from. *)
Definition start (o : origin) : E vfs V :=
  match o with
  | from_cwd => vfs_getcurdir
  | from_device name => vfs_getroot name
  | from_boot =>
      let! s := get in
      match bootfs_vnode s with
      | None => fail ENOENT
      | Some v => do! below (VOP_INCREF v) in ok v
      end
  | from_volume =>
      try! vn := vfs_getcurdir in
      let! f := below (vn_fs vn) in
      match f with
      | None => panic
      | Some f =>
          let! root := below (FSOP_GETROOT f) in
          do! below (VOP_DECREF vn) in
          ok root
      end
  end.

Lemma getdevice_start path o sub (s : vfs) :
  path_form path o sub -> bootfs_lock s = false ->
  getdevice path s = (try! v := start o in ok (sub, v)) s.
Proof.
  intros Hf Hl. unfold getdevice. destruct Hf as [path Hp|a rest Ha Hn|a rest Ha Hn|rest|rest].
  - by rewrite first_mark_path.
  - rewrite first_mark_plain by done. rewrite ?first_mark_slash, ?first_mark_colon.
    assert (0 < lenZ a) by (destruct a; [done|]; unfold lenZ; simpl; lia).
    destruct (Z.eqb_spec (0 + lenZ a) 0); [lia|]. done.
  - rewrite first_mark_plain by done. rewrite ?first_mark_slash, ?first_mark_colon.
    assert (0 < lenZ a) by (destruct a; [done|]; unfold lenZ; simpl; lia).
    rewrite Z.add_0_l. destruct (Z.ltb_spec (lenZ a) 0); [lia|]. destruct (Z.ltb_spec 0 (lenZ a)); [|lia].
    simpl. by rewrite drop_name, take_name.
  - rewrite first_mark_slash. destruct s as [w a h l b bl c]. simpl in Hl. subst bl.
    unfold start, acquire_bootfs, release_bootfs, tbind, ok, bind, get, put, assert_, below, zoom, fail, ret. simpl.
    destruct b as [v|]; [|done]. simpl. destruct (VOP_INCREF v w); reflexivity.
  - rewrite first_mark_colon. unfold start, tbind, bind, ok, ret, fail. simpl.
    destruct (vfs_getcurdir s) as [[e|x] s1| | |]; simpl; [reflexivity| |reflexivity..].
    destruct (below (vn_fs x) s1) as [[f|] s2| | |]; simpl; [|reflexivity..].
    destruct (below (FSOP_GETROOT f) s2) as [r s3| | |]; simpl; [|reflexivity..].
    by destruct (below (VOP_DECREF x) s3).
Qed.
End forms.

(** ** A system to run on *)

Notation disk := (lhd_softc ram_card).
Notation demo_vfs := (vfs (system (D := disk)) vn Z).

Definition demo_memory : SfsDir.memory := mk_memory true true true.
#[export] Instance demo_layer : FileLayer (system (D := disk)) vn Z := system_layer demo_memory.

(** The null device is registered, that of a disk exists. *)
Definition demo_null : dev_vnode := mk_dv (mk_vnode 1 0 true (Some dev_vnode_ops)) (Some 0).
Definition demo_system : system :=
  mk_system (mk_devs [] [null_device; disk_device 0 (fresh_lhd ∅)] [demo_null]) [].
Definition null_entry : knowndev vn Z := mk_kd (str "null") None (Some 0) (inl 0) None.
Definition demo_state {W} (w : W) : vfs W vn Z :=
  mk_vfs w (mk_array 1 2 (Some [Some 0; None])) [null_entry] false None false None.

Lemma demo_table {W} (w : W) : table (demo_state w) [0] [null_entry].
Proof.
  split; simpl; [|by repeat constructor|by apply NoDup_singleton| |done].
  - split; simpl; done || (unfold max_guys; lia) || (intros _; by eexists).
  - constructor; [|done]. split; [by eexists|]. intros [x Hx]. discriminate Hx.
Qed.

(** ** Properties *)

(** C7. Every reference is accounted for: whatever the file systems below answer, over
    any history of VFS calls that returns (opening, closing, looking up, removing,
    renaming, linking, changing the current directory and the boot file system, each
    succeeding or failing on any of its paths) the references handed out and not given
    back are the ones the callers hold, one per vnode returned and not closed, plus
    those of the current directory and the boot file system; and the open count grows
    with each successful open and shrinks with each close. *)
Theorem vfs_calls_balanced {W V F} `{L : FileLayer W V F} `{EqDecision V} `{EqDecision F}
    (cs : list (vfs_call V)) (s s' : vfs (W * ledger V) V F) (rs : list (errno + option V)) :
  run_calls cs s = Done rs s' ->
  forall u, loose s' u = loose s u + total call_refs cs rs u /\
            opens s' u = opens s u + total call_opens cs rs u.
Proof. intros Hrun. exact (run_calls_moves cs s rs s' Hrun). Qed.

Definition demo_ledger : vfs (system (D := disk) * ledger vn) vn Z :=
  demo_state (demo_system, mk_ledger (fun _ => 0) (fun _ => 0)).
Definition demo_calls : list (vfs_call vn) :=
  [call_open (str "null:") 2; call_lookup (str "null:x"); call_chdir (str "null:"); call_close (inl 0)].
Definition demo_answers : list (errno + option vn) := [inr (Some (inl 0)); inl ENOENT; inl ENOTDIR; inr None].

Lemma vfs_calls_balanced_witness :
  exists s', run_calls demo_calls demo_ledger = Done demo_answers s' /\
  forall u, loose s' u = 0 /\ opens s' u = 0.
Proof.
  assert (match run_calls demo_calls demo_ledger with Done rs _ => rs = demo_answers | _ => False end) as Hrs
    by (vm_compute; reflexivity).
  revert Hrs. generalize (vfs_calls_balanced demo_calls demo_ledger).
  generalize (run_calls demo_calls demo_ledger). intros o Hbal Hrs.
  destruct o as [rs s'| | |]; [subst rs|destruct Hrs..]. exists s'. split; [reflexivity|].
  intros u. destruct (Hbal s' demo_answers eq_refl u) as [H1 H2]. rewrite H1, H2. unfold loose, opens. simpl. lia.
Defined.

(** A name leads where the comment on [struct knowndev] says: [vfs_getroot] takes
    the first device of the list that answers to the name; a device or volume name of
    a mounted file system gives the root of the file system, the name of a mountable
    device without one gives ENXIO, the raw name, or the name of a device that cannot
    be mounted, the device itself; no device, ENODEV. The vnode comes with a
    reference, and the table is not changed. *)
Theorem vfs_getroot_resolves {W V F} `{FileLayer W V F} `{EqDecision F} (s : vfs W V F) (ps : list Z)
    (tbl : list (knowndev V F)) (volname : F -> option (list Z)) (devname : list Z) :
  table s ps tbl -> names_of_volumes (world s) volname tbl ->
  vfs_getroot devname s =
  match resolve volname devname tbl with Some t => obtain t s | None => Done (inl ENODEV) s end.
Proof. apply getroot_resolves. Qed.

Lemma vfs_getroot_resolves_witness :
  exists s', vfs_getroot (str "null") (demo_state demo_system) = Done (inr (inl 0)) s' /\
  vfs_getroot (str "nul") (demo_state demo_system) = Done (inl ENODEV) (demo_state demo_system).
Proof.
  assert (names_of_volumes (world (demo_state demo_system)) (fun _ => None) [null_entry]) as Hv.
  { intros kd f ->%list_elem_of_singleton Hf. discriminate Hf. }
  eexists. split.
  - rewrite (vfs_getroot_resolves (demo_state demo_system) [0] [null_entry] (fun _ => None) (str "null") (demo_table _) Hv).
    reflexivity.
  - rewrite (vfs_getroot_resolves (demo_state demo_system) [0] [null_entry] (fun _ => None) (str "nul") (demo_table _) Hv).
    reflexivity.
Defined.

(** C33. Registering keeps names apart: with memory to spare [vfs_doadd] answers
    EEXIST, and leaves the table alone, exactly when a name of the new entry (its
    device name, its raw name, the name of its volume) is a name of an entry there;
    otherwise it appends the entry, so that if no name led to two entries before, none
    does after, the new names lead to the new entry, and the others where they led. *)
Theorem vfs_doadd_registers {W V F} `{FileLayer W V F} `{EqDecision F} (s : vfs W V F) (ps : list Z)
    (tbl : list (knowndev V F)) (volname : F -> option (list Z)) (dname : list Z) (mountable : bool)
    (dev : option Z) (fs : option F) (v : V) (w : W) :
  table s ps tbl -> num (knowndevs s) < max_guys ->
  create_dev_vnode true true dev (world s) = Done (Some v) w ->
  names_of_volumes w volname (new_entry dname mountable dev v fs :: tbl) ->
  kd_ok (new_entry dname mountable dev v fs) ->
  let kd := new_entry dname mountable dev v fs in
  exists r s', vfs_doadd all_memory dname mountable dev fs s = Done r s' /\
  match r with
  | inl e => e = EEXIST /\ table s' ps tbl /\ exists n, n ∈ names volname kd /\ resolve volname n tbl <> None
  | inr _ =>
      (exists p, table s' (ps ++ [p]) (tbl ++ [kd])) /\
      (names_apart volname tbl -> names_apart volname (tbl ++ [kd])) /\
      (forall n, n ∈ names volname kd -> resolve volname n (tbl ++ [kd]) = answer volname n kd) /\
      (forall n, n ∉ names volname kd -> resolve volname n (tbl ++ [kd]) = resolve volname n tbl)
  end.
Proof.
  intros Ht Hn Hc Hv Hok kd.
  destruct (doadd_run volname s ps tbl dname mountable dev fs v w Ht Hn Hc Hv Hok) as (r & s' & Hrun & _ & Hr).
  exists r, s'. split; [done|]. destruct r as [e|[]]; destruct Hr as [Hr1 Hr2].
  - destruct Hr2 as [Hna Ht']. split; [done|]. split; [done|].
    apply not_Forall_Exists in Hna; [|intros kd'; destruct (clash volname (Some dname) (kd_rawname kd) (fs ≫= volname) kd') eqn:Hcl;
      [right|left; by apply not_clash_apart]; intros Ha; apply not_clash_apart in Ha; simpl in *; congruence].
    apply Exists_exists in Hna as (kd' & Hin & Hap).
    destruct (decide (Exists (fun n => n ∈ names volname kd') (names volname kd))) as [He|He].
    + apply Exists_exists in He as (n & Hk & Hk'). exists n. split; [done|]. rewrite resolve_none, Forall_forall.
      intros Hall. by apply (Hall kd').
    + exfalso. apply Hap. intros n Hk Hk'. apply He, Exists_exists. by exists n.
  - split; [by eexists|]. split; [intros Ha; by apply names_apart_snoc|].
    assert (forall n, resolve volname n [kd] = answer volname n kd) as H1.
    { intros n. simpl. by destruct (answer volname n kd). }
    split; intros n Hk; rewrite resolve_app, H1.
    + assert (resolve volname n tbl = None) as ->; [|done]. apply resolve_none, Forall_forall.
      intros kd' Hin. rewrite Forall_forall in Hr1. by apply (Hr1 kd' Hin).
    + rewrite <- answer_names in Hk. destruct (answer volname n kd); [by destruct Hk|]. by destruct (resolve volname n tbl).
Qed.

Lemma vfs_doadd_registers_witness :
  exists s', vfs_adddev all_memory (str "lhd0") 1 true (demo_state demo_system) = Done (inr tt) s' /\
  (exists p, table s' [0; p] [null_entry; mk_kd (str "lhd0") (Some (str "lhd0raw")) (Some 1) (inl 1) None]).
Proof.
  destruct (vfs_doadd_registers (demo_state demo_system) [0] [null_entry] (fun _ => None) (str "lhd0") true (Some 1) None
    (inl 1 : vn) (mk_system (mk_devs (dv_state (sy_devs demo_system)) (dv_devices (sy_devs demo_system))
       [demo_null; mk_dv (mk_vnode 1 0 true (Some dev_vnode_ops)) (Some 1)]) []))
    as (r & s' & Hrun & Hr).
  - apply demo_table.
  - reflexivity.
  - reflexivity.
  - intros kd f [-> | ->%list_elem_of_singleton]%elem_of_cons Hf; discriminate Hf.
  - split; intros _; eexists; reflexivity.
  - exists s'. destruct r as [e|[]].
    + exfalso. destruct Hr as (_ & _ & n & [->|[->|Hn%elem_of_nil]%elem_of_cons]%elem_of_cons & Hres); [| |done];
        apply Hres; reflexivity.
    + split; [exact Hrun|]. destruct Hr as [Hp _]. exact Hp.
Defined.

(** Every path has one of five forms, and each starts where it should: [name] and
    [dir/...] at the current directory with the whole path, [dev:...] at the root of
    the device, [/...] at the boot file system's root, [:...] at the root of the
    current directory's file system; the slashes after the colon or the leading slash
    are skipped. *)
Theorem getdevice_by_form {W V F} `{FileLayer W V F} `{EqDecision F} (path : list Z) (s : vfs W V F) :
  bootfs_lock s = false ->
  (exists o sub, path_form path o sub) /\
  forall o sub, path_form path o sub -> getdevice path s = (try! v := start o in ok (sub, v)) s.
Proof. intros Hl. split; [apply path_has_form|]. intros o sub Hf. by apply getdevice_start. Qed.

Lemma getdevice_by_form_witness :
  getdevice (str "null://a") (demo_state demo_system) =
  (try! v := vfs_getroot (str "null") in ok (str "a", v)) (demo_state demo_system).
Proof.
  apply (proj2 (getdevice_by_form (str "null://a") (demo_state demo_system) eq_refl) (from_device (str "null")) (str "a")).
  refine (form_device (str "null") (str "//a") _ _); [|discriminate].
  repeat constructor; discriminate.
Defined.

(** [vfs_setbootfs] never accepts a name with a colon: the comment allows one at
    the end, but the test is on the text from the colon on, which is never empty. *)
Theorem vfs_setbootfs_refuses_colon {W V F} `{FileLayer W V F} `{EqDecision F} (name : list Z) (s : vfs W V F) :
  colon_char ∈ name -> lenZ name < NAME_MAX ->
  vfs_setbootfs name s = Done (inl EINVAL) s.
Proof.
  intros Hin Hlen. unfold vfs_setbootfs. rewrite take_ge by (unfold lenZ, NAME_MAX in *; lia).
  assert (exists c rest, strchr_list name colon_char = Some (c :: rest)) as (c & rest & ->); [|done].
  clear Hlen. induction name as [|x name IH]; [by apply elem_of_nil in Hin|]. simpl.
  destruct (Z.eqb_spec x colon_char) as [|Hx]; [by eexists _, _|].
  apply elem_of_cons in Hin as [?|?]; [done|by apply IH].
Qed.

Lemma vfs_setbootfs_refuses_colon_witness :
  vfs_setbootfs (str "null:") (demo_state demo_system) = Done (inl EINVAL) (demo_state demo_system).
Proof.
  apply (vfs_setbootfs_refuses_colon (str "null:") (demo_state demo_system)); [|reflexivity].
  apply list_elem_of_lookup_2 with 4%nat. reflexivity.
Defined.
