(* ===== verification/Mksfs.v ===== *)
(** * Making an SFS volume (sbin/mksfs/mksfs.c and disk.c, as built for OS/161).

    A user program over the disk as a file. [DiskFile] stands for the system calls it
    makes; [DiskFileLaws] is what their documentation says of an open file of fixed
    size, short writes included. [None] is an exit of the program with an error. *)

From stdpp Require Import base numbers list gmap strings.
From Stdlib Require Import ZArith Lia.
From S2P Require Import Prelude Mem Cstring Uio BlockDev Lhd Bitmap Array SfsDisk SfsIo SfsTree SfsBmap SfsFile SfsDir SfsFs VfsPath.

Definition MAXBITBLOCKS : Z := 32.
Definition BLOCKSIZE : Z := 512.

(** open (for reading and writing), fstat (the size), lseek from the start, write, close. *)
Class DiskFile (X : Type) : Type := {
  df_open : list Z -> E X Z;
  df_fstat : E X Z;
  df_lseek : Z -> E X Z;
  df_write : list Z -> E X Z;
  df_close : E X unit;
}.

(** [exits] binds: an error ends the program. *)
Definition obind {S A B} (m : M S (option A)) (f : A -> M S (option B)) : M S (option B) :=
  bind m (fun r => match r with Some a => f a | None => ret None end).
Notation "'run!' x ':=' m 'in' k" := (obind m (fun x => k))
  (at level 10, x pattern, m at level 100, k at level 200) : os_scope.
Definition errx {S A} : M S (option A) := ret None.
(** A failed system call that the program does not survive. *)
Definition or_die {S A} (m : E S A) : M S (option A) :=
  let! r := m in ret (match r with inr a => Some a | inl _ => None end).

Section mksfs.
Context {X : Type} `{DiskFile X}.

(** The globals of disk.c and mksfs.c. *)
Record mksfs : Type := mk_mksfs { os : X; fd : Z; nblocks : Z; bitbuf : list Z }.

Definition sys {A} (m : M X A) : M mksfs A :=
  zoom os (fun x s => mk_mksfs x (fd s) (nblocks s) (bitbuf s)) m.
Definition set_disk_of (f n : Z) (s : mksfs) : mksfs := mk_mksfs (os s) f n (bitbuf s).
Definition set_bitbuf (b : list Z) (s : mksfs) : mksfs := mk_mksfs (os s) (fd s) (nblocks s) b.

Definition opendisk (path : list Z) : M mksfs (option unit) :=
  let! s := get in
  do! assert_ (fd s <? 0) in
  run! f := or_die (sys (df_open path)) in
  let! s := get in
  do! put (set_disk_of f (nblocks s) s) in
  run! size := or_die (sys df_fstat) in
  let! s := get in
  do! put (set_disk_of f (u32 (Z.quot size BLOCKSIZE)) s) in
  ret (Some tt).

Definition diskblocksize : M mksfs Z := let! s := get in do! assert_ (0 <=? fd s) in ret BLOCKSIZE.
Definition diskblocks : M mksfs Z := let! s := get in do! assert_ (0 <=? fd s) in ret (nblocks s).

(** The loop of [diskwrite] on what is left to write: every round that is not cut short
    by EAGAIN writes a byte at least. *)
Fixpoint write_all (fuel : nat) (rest : list Z) : M mksfs (option unit) :=
  match rest, fuel with
  | [], _ => ret (Some tt)
  | _, O => out_of_fuel
  | _, S fuel =>
      let! r := sys (df_write rest) in
      match r with
      | inl EAGAIN => write_all fuel rest
      | inl _ => errx
      | inr len => if len =? 0 then errx else write_all fuel (drop (Z.to_nat len) rest)
      end
  end.

Definition diskwrite (data : list Z) (block : Z) : M mksfs (option unit) :=
  let! s := get in
  do! assert_ (0 <=? fd s) in
  run! _ := or_die (sys (df_lseek (s32 (u32 (block * BLOCKSIZE))))) in
  write_all (Z.to_nat BLOCKSIZE) (take (Z.to_nat BLOCKSIZE) data).

Definition closedisk : M mksfs (option unit) :=
  let! s := get in
  do! assert_ (0 <=? fd s) in
  run! _ := or_die (sys df_close) in
  let! s := get in
  do! put (set_disk_of (-1) (nblocks s) s) in
  ret (Some tt).

(** [check], of the sizes of the structures of SfsDisk.v. *)
Definition check : M mksfs unit :=
  do! assert_ (lenZ (enc_super (mk_super 0 0 (replicate 32 0) (replicate 118 0))) =? SFS_BLOCKSIZE) in
  do! assert_ (lenZ (enc_inode (mk_inode 0 0 0 (replicate 15 0) 0 0 0 (replicate 107 0) 0)) =? SFS_BLOCKSIZE) in
  assert_ (SFS_BLOCKSIZE mod lenZ (enc_dir (mk_dir 0 (replicate 60 0))) =? 0).

Definition writesuper (volname : list Z) (n : Z) : M mksfs (option unit) :=
  if SFS_VOLNAME_SIZE <=? lenZ volname then errx
  else
    diskwrite (enc_super (mk_super SFS_MAGIC n (volname ++ replicate (32 - length volname) 0) (replicate 118 0)))
      SFS_SB_LOCATION.

(** The inode [writerootdir] fills in. *)
Definition root_inode : sfs_inode := mk_inode 0 SFS_TYPE_DIR 1 (replicate 15 0) 0 0 0 (replicate 107 0) 0.

Definition writerootdir : M mksfs (option unit) := diskwrite (enc_inode root_inode) SFS_ROOT_LOCATION.

Definition doallocbit (bit : Z) : M mksfs unit :=
  let! s := get in
  let byte := bit / CHAR_BIT in
  let mask := u8 (Z.shiftl 1 (bit mod CHAR_BIT)) in
  let! w := of_option (nthZ (bitbuf s) byte) in
  do! assert_ (Z.land w mask =? 0) in
  put (set_bitbuf (setZ (bitbuf s) byte (Z.lor w mask)) s).

(** [for (i=from; i<to; i++) doallocbit(base + i);] *)
Definition allocbits (base from to : Z) : M mksfs unit :=
  do! iterate (Z.to_nat (to - from)) from (fun i => do! doallocbit (base + i) in ret (None (A := unit))) in ret tt.

Definition write_bits (i : Z) : M mksfs (option unit) :=
  let! s := get in
  diskwrite (drop (Z.to_nat (i * SFS_BLOCKSIZE)) (bitbuf s)) (SFS_MAP_LOCATION + i).

Definition writebitmap (fsblocks : Z) : M mksfs (option unit) :=
  let nbits := SFS_BITMAPSIZE fsblocks in
  let nb := SFS_BITBLOCKS fsblocks in
  if MAXBITBLOCKS <? nb then errx
  else
    do! doallocbit SFS_SB_LOCATION in
    do! doallocbit SFS_ROOT_LOCATION in
    do! allocbits SFS_MAP_LOCATION 0 nb in
    do! allocbits 0 fsblocks nbits in
    let! r := iterate (Z.to_nat nb) 0 (fun i =>
      let! r := write_bits i in
      ret (match r with Some _ => None | None => Some tt end)) in
    match r with None => ret (Some tt) | Some _ => errx end.

(** The volume name of the argument: one trailing colon goes, others and slashes are
    not allowed. *)
Definition volume_name (arg : list Z) : option (list Z) :=
  let name :=
    match strchr_list arg colon_char with
    | None => Some arg
    | Some s => if lenZ s =? 1 then Some (take (length arg - 1) arg) else None
    end in
  match name with
  | None => None
  | Some n => match strchr_list n slash_char with Some _ => None | None => Some n end
  end.

(** [main]: [argv] without the NULL at its end. *)
Definition main (argv : list (list Z)) : M mksfs (option unit) :=
  match argv with
  | [_; disk; volarg] =>
      do! check in
      match volume_name volarg with
      | None => errx
      | Some volname =>
          run! _ := opendisk disk in
          let! blocksize := diskblocksize in
          if negb (blocksize =? SFS_BLOCKSIZE) then errx
          else
            let! size := diskblocks in
            run! _ := writesuper volname size in
            run! _ := writerootdir in
            run! _ := writebitmap size in
            closedisk
      end
  | _ => errx
  end.
End mksfs.
Arguments mksfs : clear implicits.
