(* ===== verification/MksfsSpec.v ===== *)
(** * A volume mksfs has made can be mounted, and is empty and well formed. *)

From stdpp Require Import base numbers list gmap strings.
From Stdlib Require Import ZArith Lia.
From S2P Require Import Prelude Mem Cstring Uio BlockDev Lhd Bitmap Array SfsDisk SfsIo SfsTree SfsBmap SfsFile SfsDir SfsFs VfsPath Mksfs.

(** ** An open file of fixed size *)

Class DiskFileLaws (X : Type) `{DiskFile X} : Type := {
  df_size : X -> Z;
  byte_at : X -> Z -> Z;
  df_pos : X -> Z;
  df_ok : X -> Prop;
  df_named : X -> list Z -> Prop;
  open_works x path : df_named x path ->
    exists f x', df_open path x = Done (inr f) x' /\ 0 <= f /\ df_ok x' /\
    df_size x' = df_size x /\ forall i, byte_at x' i = byte_at x i;
  fstat_works x : df_ok x ->
    exists x', df_fstat x = Done (inr (df_size x)) x' /\ df_ok x' /\
    df_size x' = df_size x /\ forall i, byte_at x' i = byte_at x i;
  lseek_works x p : df_ok x -> 0 <= p <= df_size x ->
    exists x', df_lseek p x = Done (inr p) x' /\ df_ok x' /\ df_pos x' = p /\
    df_size x' = df_size x /\ forall i, byte_at x' i = byte_at x i;
  (* some of the bytes at least are written *)
  write_works x bs : df_ok x -> bs <> [] -> 0 <= df_pos x -> df_pos x + lenZ bs <= df_size x ->
    exists n x', df_write bs x = Done (inr n) x' /\ 1 <= n <= lenZ bs /\ df_ok x' /\ df_pos x' = df_pos x + n /\
    df_size x' = df_size x /\
    forall i, byte_at x' i = if bool_decide (df_pos x <= i < df_pos x + n) then default 0 (nthZ bs (i - df_pos x)) else byte_at x i;
  close_works x : df_ok x ->
    exists x', df_close x = Done (inr tt) x' /\ df_size x' = df_size x /\ forall i, byte_at x' i = byte_at x i;
}.

Section writing.
Context {X : Type} `{DF : DiskFile X} `{!DiskFileLaws X}.
Notation mksfs := (mksfs X).

(** Block [b] of the disk. *)
Definition file_block (x : X) (b : Z) : list Z := map (byte_at x) (seqZ (512 * b) 512).

Definition same_vars (s s' : mksfs) : Prop := fd s' = fd s /\ nblocks s' = nblocks s /\ bitbuf s' = bitbuf s.

Definition wrote (s s' : mksfs) (off : Z) (data : list Z) : Prop :=
  same_vars s s' /\ df_ok (os s') /\ df_size (os s') = df_size (os s) /\
  forall i, byte_at (os s') i =
    if bool_decide (off <= i < off + lenZ data) then default 0 (nthZ data (i - off)) else byte_at (os s) i.

Lemma nthZ_drop {A} (l : list A) n i : 0 <= n -> 0 <= i -> nthZ (drop (Z.to_nat n) l) i = nthZ l (n + i).
Proof. intros Hn Hi. rewrite !nthZ_to_nat by lia. rewrite lookup_drop. f_equal. lia. Qed.

Lemma write_all_correct fuel rest (s : mksfs) :
  df_ok (os s) -> 0 <= df_pos (os s) -> df_pos (os s) + lenZ rest <= df_size (os s) -> (length rest <= fuel)%nat ->
  wp (write_all fuel rest) (fun r s' => r = Some tt /\ wrote s s' (df_pos (os s)) rest) s.
Proof.
  revert rest s. induction fuel as [|fuel IH]; intros rest s Hok Hp Hs Hl.
  - destruct rest; [|simpl in Hl; lia]. apply wp_ret. split; [done|]. split; [done|]. split; [done|]. split; [done|].
    intros i. rewrite bool_decide_false; [done|]. unfold lenZ. simpl. lia.
  - destruct rest as [|b rest].
    + apply wp_ret. split; [done|]. split; [done|]. split; [done|]. split; [done|].
      intros i. rewrite bool_decide_false; [done|]. unfold lenZ. simpl. lia.
    + set (bs := b :: rest) in *.
      destruct (write_works (os s) bs Hok ltac:(done) Hp Hs) as (n & x' & Hw & Hn & Hok' & Hp' & Hs' & Hb).
      unfold write_all; fold (write_all (X := X)). change (match bs with [] => ret (Some tt) | _ :: _ => ?x end) with x.
      apply wp_bind. unfold sys. apply wp_zoom. eapply wp_of_eq; [exact Hw|]. cbv beta iota.
      destruct (Z.eqb_spec n 0); [lia|].
      assert (lenZ (drop (Z.to_nat n) bs) = lenZ bs - n) as Hd.
      { unfold lenZ in *. rewrite length_drop. lia. }
      eapply wp_mono; [apply IH; simpl; try done; rewrite ?Hp', ?Hs', ?Hd; try lia|].
      { unfold lenZ in *. rewrite length_drop. unfold bs in *. simpl in *. lia. }
      cbn [os]. intros r s' [-> ((E1 & E2 & E3) & Ho & Hz & Hby)]. split; [done|].
      split; [done|]. split; [done|]. split; [simpl in Hz; lia|]. intros i. rewrite Hby. cbn [os]. rewrite Hb, Hp', Hd.
      repeat case_bool_decide; try lia; try done.
      rewrite nthZ_drop by lia. do 2 f_equal. lia.
Qed.

(** One block is written. *)
Definition put_block (s s' : mksfs) (block : Z) (data : list Z) : Prop :=
  same_vars s s' /\ df_ok (os s') /\ df_size (os s') = df_size (os s) /\
  forall b, file_block (os s') b = if bool_decide (b = block) then data else file_block (os s) b.

Lemma lenZ_file_block x b : lenZ (file_block x b) = 512.
Proof. unfold file_block, lenZ. rewrite length_map, length_seqZ. done. Qed.

Lemma nthZ_file_block x b i : 0 <= i < 512 -> nthZ (file_block x b) i = Some (byte_at x (512 * b + i)).
Proof.
  intros Hi. unfold file_block. rewrite nthZ_to_nat by lia. rewrite list_lookup_fmap.
  rewrite (lookup_seqZ_lt (512 * b) 512 (Z.to_nat i)) by lia. simpl. do 2 f_equal. lia.
Qed.

Lemma file_block_eq x x' b b' :
  (forall i, 0 <= i < 512 -> byte_at x' (512 * b' + i) = byte_at x (512 * b + i)) -> file_block x' b' = file_block x b.
Proof.
  intros Hb. apply nthZ_ext; [by rewrite !lenZ_file_block|]. intros i Hi. rewrite lenZ_file_block in Hi.
  rewrite !nthZ_file_block by lia. f_equal. by apply Hb.
Qed.

Lemma diskwrite_correct data block (s : mksfs) :
  0 <= fd s -> df_ok (os s) -> 0 <= block -> 512 * (block + 1) <= df_size (os s) -> df_size (os s) < 2 ^ 31 ->
  512 <= lenZ data ->
  wp (diskwrite data block) (fun r s' => r = Some tt /\ put_block s s' block (take 512 data)) s.
Proof.
  intros Hf Hok Hb Hs Hm Hd. unfold diskwrite. apply wp_bind, wp_get, wp_bind, wp_assert.
  split; [destruct (Z.leb_spec 0 (fd s)); [done|lia]|].
  unfold BLOCKSIZE. rewrite u32_id by (unfold is_u32; lia). rewrite s32_id by (unfold is_s32; lia).
  destruct (lseek_works (os s) (block * 512) Hok ltac:(lia)) as (x & Hl & Hok1 & Hp1 & Hs1 & Hb1).
  unfold obind. apply wp_bind. unfold or_die. apply wp_bind. unfold sys. apply wp_zoom. eapply wp_of_eq; [exact Hl|].
  cbv beta. apply wp_ret. cbv beta iota. change (Z.to_nat 512) with 512%nat.
  assert (lenZ (take 512 data) = 512) as Hl512 by (unfold lenZ in *; rewrite length_take; lia).
  eapply wp_mono; [apply write_all_correct; simpl; try done; rewrite ?Hl512; try lia|].
  { rewrite length_take. lia. }
  cbn [os]. intros r s' [-> (Hv & Ho & Hz & Hby)]. split; [done|]. split; [done|]. split; [done|]. split; [cbn [os] in Hz; lia|].
  intros b. case_bool_decide as Hbb.
  - subst b. apply nthZ_ext; [rewrite lenZ_file_block; lia|]. intros i Hi. rewrite lenZ_file_block in Hi.
    rewrite nthZ_file_block, Hby, bool_decide_true by (rewrite ?Hl512, ?Hp1; lia).
    destruct (nthZ_is_Some (take 512 data) i ltac:(lia)) as [y Hy]. rewrite Hy. f_equal.
    rewrite Hp1. replace (512 * block + i - block * 512) with i by lia. by rewrite Hy.
  - apply file_block_eq. intros i Hi. rewrite Hby, bool_decide_false; [cbn [os]; by rewrite Hb1|].
    rewrite Hl512, Hp1. lia.
Qed.
End writing.

(** ** The free map *)

Section bits.
Context {X : Type} `{DF : DiskFile X}.
Notation mksfs := (mksfs X).

(** The buffer as a bitmap. *)
Definition as_map (l : list Z) : bitmap := mk_bitmap (8 * lenZ l) l.

Definition same_disk (s s' : mksfs) : Prop := os s' = os s /\ fd s' = fd s /\ nblocks s' = nblocks s.

(** The bits from [lo] to [hi] are now set as well. *)
Definition bits_set (s s' : mksfs) (lo hi : Z) : Prop :=
  same_disk s s' /\ lenZ (bitbuf s') = lenZ (bitbuf s) /\ wf (as_map (bitbuf s')) /\
  forall j, bit (as_map (bitbuf s')) j = if bool_decide (lo <= j < hi) then true else bit (as_map (bitbuf s)) j.

Lemma doallocbit_correct i (s : mksfs) :
  wf (as_map (bitbuf s)) -> 0 <= i < 8 * lenZ (bitbuf s) -> bit (as_map (bitbuf s)) i = false ->
  wp (doallocbit i) (fun _ s' => bits_set s s' i (i + 1)) s.
Proof.
  intros Hwf Hi Hb. set (b := as_map (bitbuf s)) in *.
  pose proof (index_in_words b i Hwf Hi) as Hq. destruct (nthZ_is_Some _ _ Hq) as [w Hw].
  assert (set_bit b i true = as_map (setZ (bitbuf s) (i / 8) (Z.lor w (2 ^ (i mod 8))))) as Hset.
  { unfold set_bit. change BITS_PER_WORD with 8. rewrite Hw. unfold as_map, set_v. simpl. by rewrite lenZ_setZ. }
  unfold doallocbit. apply wp_bind, wp_get, wp_bind, wp_of_option. change CHAR_BIT with 8.
  rewrite mask_pow2 by apply mod8_range. exists w. split; [exact Hw|].
  apply wp_bind, wp_assert. pose proof (mod8_range i). split.
  { apply Z.eqb_eq, land_bit_0; [lia|]. by rewrite (bit_at _ _ _ Hw) in Hb. }
  apply wp_put. split; [done|]. split; [simpl; by rewrite lenZ_setZ|]. simpl. rewrite <- Hset. split; [by apply wf_set_bit|].
  intros j. rewrite bit_set_bit by done. case_decide; case_bool_decide; try lia; done.
Qed.

Lemma allocbits_correct base from to (s : mksfs) :
  wf (as_map (bitbuf s)) -> from <= to -> 0 <= base + from -> base + to <= 8 * lenZ (bitbuf s) ->
  (forall j, base + from <= j < base + to -> bit (as_map (bitbuf s)) j = false) ->
  wp (allocbits base from to) (fun _ s' => bits_set s s' (base + from) (base + to)) s.
Proof.
  intros Hwf Hft Hlo Hhi Hclear. unfold allocbits. apply wp_bind.
  apply wp_iterate with (I := fun k s' => bits_set s s' (base + from) (base + k)).
  - split; [done|]. split; [done|]. split; [done|]. intros j. by rewrite bool_decide_false by lia.
  - intros k t Hk ((E1 & E2 & E3) & Hl & Hw & Hb). rewrite Z2Nat.id in Hk by lia. apply wp_bind.
    eapply wp_mono; [apply doallocbit_correct; [done|lia|]|].
    { rewrite Hb, bool_decide_false by lia. apply Hclear. lia. }
    intros [] t' ((F1 & F2 & F3) & Hl' & Hw' & Hb'). apply wp_ret. split; [split; [congruence|split; congruence]|].
    split; [congruence|]. split; [done|]. intros j. rewrite Hb', Hb. repeat case_bool_decide; done || lia.
  - intros t Ht. apply wp_ret. rewrite Z2Nat.id in Ht by lia. replace (from + (to - from)) with to in Ht by lia. done.
Qed.
End bits.

Section making.
Context {X : Type} `{DF : DiskFile X} `{!DiskFileLaws X}.
Notation mksfs := (mksfs X).

(** The disk is open and has [n] blocks. *)
Definition ready (s : mksfs) (n : Z) : Prop :=
  0 <= fd s /\ df_ok (os s) /\ df_size (os s) = 512 * n /\ nblocks s = n.

Lemma put_block_ready s s' b data n : ready s n -> put_block s s' b data -> ready s' n.
Proof. intros (H1 & H2 & H3 & H4) ((E1 & E2 & E3) & Ho & Hs & _). unfold ready. rewrite E1, E2. split; [done|]. split; [done|]. split; [lia|done]. Qed.

Definition padded (name : list Z) : list Z := name ++ replicate (32 - length name) 0.
Definition new_super (name : list Z) (n : Z) : sfs_super := mk_super SFS_MAGIC n (padded name) (replicate 118 0).

Lemma root_inode_ok : inode_ok root_inode.
Proof. split; try done; try (by apply Forall_replicate). Qed.

Lemma new_super_ok name n : byte_ok name -> lenZ name < SFS_VOLNAME_SIZE -> is_u32 n -> super_ok (new_super name n).
Proof.
  unfold SFS_VOLNAME_SIZE, new_super. intros Hb Hl Hn. split; cbn [sp_magic sp_nblocks sp_volname sp_reserved]; try done.
  - unfold padded, lenZ in *. rewrite length_app, length_replicate. lia.
  - apply Forall_app. split; [done|]. apply Forall_replicate. unfold is_u8. lia.
  - apply Forall_replicate. unfold is_u32. lia.
Qed.

Lemma bitblocks_range n : 0 < n <= 131072 -> 0 < SFS_BITBLOCKS n <= 32 /\ SFS_BITMAPSIZE n = 4096 * SFS_BITBLOCKS n /\ n <= SFS_BITMAPSIZE n.
Proof.
  intros Hn. destruct (bitblocks_eq n) as (E1 & E2 & E3); [lia|]. rewrite E1, E2. pose proof (Z.div_mod (n + 4095) 4096).
  pose proof (Z.mod_pos_bound (n + 4095) 4096). split; [lia|]. split; [done|lia].
Qed.

(** What [writebitmap] leaves in its buffer. *)
Definition used_at_first (n i : Z) : bool := bool_decide (0 <= i < 2 + SFS_BITBLOCKS n) || bool_decide (n <= i < SFS_BITMAPSIZE n).

Definition zero_bits : list Z := replicate (Z.to_nat (MAXBITBLOCKS * SFS_BLOCKSIZE)) 0.

Lemma zero_bits_wf : lenZ zero_bits = 16384 /\ wf (as_map zero_bits) /\ forall j, bit (as_map zero_bits) j = false.
Proof.
  assert (lenZ zero_bits = 16384) as Hl by (unfold zero_bits; by rewrite lenZ_replicate).
  split; [done|]. split.
  - split; simpl.
    + rewrite Hl. unfold max_nbits, BITS_PER_WORD, CHAR_BIT. lia.
    + rewrite Hl. done.
    + intros i w Hw. pose proof (nthZ_Some_lt _ _ _ Hw) as Hi. rewrite Hl in Hi. unfold zero_bits in Hw.
      rewrite nthZ_replicate in Hw by (unfold MAXBITBLOCKS, SFS_BLOCKSIZE; lia). inv Hw. unfold is_u8. lia.
    + intros i. lia.
  - intros j. unfold bit. destruct (nthZ (v (as_map zero_bits)) (j / BITS_PER_WORD)) as [w|] eqn:Hw; [|done].
    pose proof (nthZ_Some_lt _ _ _ Hw) as Hi. simpl in Hw, Hi. rewrite Hl in Hi. unfold zero_bits in Hw.
    rewrite nthZ_replicate in Hw by (unfold MAXBITBLOCKS, SFS_BLOCKSIZE; lia). inv Hw. apply Z.bits_0.
Qed.

(** The blocks of the map are those of the buffer. *)
Definition map_written (s s' : mksfs) (nb : Z) : Prop :=
  same_vars s s' /\ df_ok (os s') /\ df_size (os s') = df_size (os s) /\
  forall b, file_block (os s') b =
    if bool_decide (2 <= b < 2 + nb) then slice (bitbuf s) ((b - 2) * 512) 512 else file_block (os s) b.

Lemma map_write_correct nb n (s : mksfs) :
  ready s n -> 0 <= nb <= 32 -> 2 + nb <= n -> n <= 131072 -> lenZ (bitbuf s) = 16384 ->
  wp (iterate (Z.to_nat nb) 0 (fun i =>
        let! r := write_bits i in ret (match r with Some _ => None | None => Some tt end)))
     (fun r s' => r = None /\ map_written s s' nb) s.
Proof.
  intros (Hf & Hok & Hs & Hn) Hnb Hfit Hmax Hl.
  apply wp_iterate with (I := fun k s' => map_written s s' k).
  - split; [done|]. split; [done|]. split; [done|]. intros b. by rewrite bool_decide_false by lia.
  - intros k t Hk ((E1 & E2 & E3) & Ho & Hz & Hb). rewrite Z2Nat.id in Hk by lia. apply wp_bind.
    unfold write_bits. apply wp_bind, wp_get. unfold SFS_BLOCKSIZE, SFS_MAP_LOCATION.
    eapply wp_mono; [apply diskwrite_correct; [lia|done|lia|lia|lia|]|].
    { unfold lenZ in *. rewrite length_drop, E3. lia. }
    intros r t' (-> & (F1 & F2 & F3) & Ho' & Hz' & Hb'). apply wp_ret.
    split; [split; [congruence|split; congruence]|]. split; [done|]. split; [congruence|]. intros b. rewrite Hb', Hb, E3.
    unfold slice. repeat case_bool_decide; try lia; try done. subst b. do 2 f_equal. f_equal. lia.
  - intros t Ht. rewrite Z2Nat.id in Ht by lia. done.
Qed.

Lemma writebitmap_correct n (s : mksfs) :
  ready s n -> bitbuf s = zero_bits -> 2 + SFS_BITBLOCKS n <= n -> n <= 131072 ->
  wp (writebitmap n) (fun r s' => r = Some tt /\ ready s' n /\
    lenZ (bitbuf s') = 16384 /\ wf (as_map (bitbuf s')) /\ (forall i, bit (as_map (bitbuf s')) i = used_at_first n i) /\
    forall b, file_block (os s') b =
      if bool_decide (2 <= b < 2 + SFS_BITBLOCKS n) then slice (bitbuf s') ((b - 2) * 512) 512 else file_block (os s) b) s.
Proof.
  intros Hr Hz Hfit Hmax. destruct zero_bits_wf as (Zl & Zw & Zb).
  assert (0 < n) as Hpos.
  { destruct Hr as (_ & _ & Hs & _). destruct (Z.lt_ge_cases 0 n); [done|]. exfalso.
    assert (0 <= SFS_BITBLOCKS n); [|lia]. unfold SFS_BITBLOCKS, SFS_BITMAPSIZE, SFS_ROUNDUP. apply Z.div_pos; [apply u32_range|done]. }
  destruct (bitblocks_range n) as (Hnb & Hbm & Hle); [lia|].
  unfold writebitmap, MAXBITBLOCKS. destruct (Z.ltb_spec 32 (SFS_BITBLOCKS n)); [lia|].
  unfold SFS_SB_LOCATION, SFS_ROOT_LOCATION, SFS_MAP_LOCATION.
  apply wp_bind. eapply wp_mono; [apply doallocbit_correct; rewrite Hz; [done|lia|apply Zb]|].
  intros [] s1 (D1 & L1 & W1 & B1). apply wp_bind.
  eapply wp_mono; [apply doallocbit_correct; [done|rewrite L1, Hz; lia|]|].
  { rewrite B1, Hz, Zb. by rewrite bool_decide_false by lia. }
  intros [] s2 (D2 & L2 & W2 & B2). apply wp_bind.
  eapply wp_mono; [apply allocbits_correct; [done|lia|lia|rewrite L2, L1, Hz; lia|]|].
  { intros j Hj. rewrite B2, B1, Hz, Zb. by rewrite !bool_decide_false by lia. }
  intros [] s3 (D3 & L3 & W3 & B3). apply wp_bind.
  eapply wp_mono; [apply allocbits_correct; [done|lia|lia|rewrite L3, L2, L1, Hz; lia|]|].
  { intros j Hj. rewrite B3, B2, B1, Hz, Zb. by rewrite !bool_decide_false by lia. }
  intros [] s4 (D4 & L4 & W4 & B4).
  assert (same_disk s s4) as (E1 & E2 & E3).
  { destruct D1 as (? & ? & ?), D2 as (? & ? & ?), D3 as (? & ? & ?), D4 as (? & ? & ?). split; [congruence|]. split; congruence. }
  assert (lenZ (bitbuf s4) = 16384) as L by (rewrite L4, L3, L2, L1, Hz; done).
  assert (ready s4 n) as Hr4 by (destruct Hr as (? & ? & ? & ?); unfold ready; by rewrite E1, E2, E3).
  apply wp_bind. eapply wp_mono; [apply (map_write_correct _ n); done || lia|].
  intros r s5 (-> & (F1 & F2 & F3) & Ho & Hs & Hb). apply wp_ret. split; [done|].
  split; [destruct Hr4 as (? & ? & ? & ?); split; [lia|]; split; [done|]; split; [lia|congruence]|].
  rewrite F3. split; [done|]. split; [done|]. split.
  - intros i. rewrite B4, B3, B2, B1, Hz, Zb. unfold used_at_first. repeat case_bool_decide; try done; lia.
  - intros b. rewrite Hb. by rewrite E1.
Qed.
End making.

(** ** The whole program *)

Section whole.
Context {X : Type} `{DF : DiskFile X} `{!DiskFileLaws X}.
Notation mksfs := (mksfs X).

(** A C string as an argument. *)
Definition arg_ok (a : list Z) : Prop := Forall (fun c => is_u8 c /\ c <> 0) a.

Lemma volume_name_prefix arg name : volume_name arg = Some name -> exists k, name = take k arg.
Proof.
  unfold volume_name. intros Hv. destruct (strchr_list arg colon_char) as [s|].
  - destruct (lenZ s =? 1); [|done]. destruct (strchr_list _ slash_char); [done|]. inv Hv. by eexists.
  - destruct (strchr_list arg slash_char); [done|]. inv Hv. exists (length name). by rewrite firstn_all.
Qed.

Lemma c_string_padded name : arg_ok name -> lenZ name < SFS_VOLNAME_SIZE -> c_string (padded name) = name.
Proof.
  intros Ha Hl. unfold padded. assert (exists k, (32 - length name)%nat = S k) as (k & ->).
  { unfold lenZ, SFS_VOLNAME_SIZE in Hl. exists (31 - length name)%nat. lia. }
  clear Hl. induction Ha as [|c name [_ Hc] _ IH]; [done|]. rewrite <- app_comm_cons. simpl. destruct (Z.eqb_spec c 0); [done|]. f_equal. exact IH.
Qed.

(** What is on the disk when the program is done. *)
Record made (x : X) (name : list Z) (n : Z) (buf : list Z) : Prop := {
  made_super : file_block x 0 = enc_super (new_super name n);
  made_root : file_block x 1 = enc_inode root_inode;
  made_map b : 2 <= b < 2 + SFS_BITBLOCKS n -> file_block x b = slice buf ((b - 2) * 512) 512;
  made_len : lenZ buf = 16384;
  made_wf : wf (as_map buf);
  made_bits i : bit (as_map buf) i = used_at_first n i;
}.

Lemma opendisk_correct path n (s : mksfs) :
  fd s < 0 -> df_named (os s) path -> df_size (os s) = 512 * n -> 0 <= n < 2 ^ 32 ->
  wp (opendisk path) (fun r s' => r = Some tt /\ ready s' n /\ bitbuf s' = bitbuf s /\
    forall b, file_block (os s') b = file_block (os s) b) s.
Proof.
  intros Hf Hn Hs Hr. destruct (open_works (os s) path Hn) as (f & x & Ho & Hf' & Hok & Hs1 & Hb1).
  destruct (fstat_works x Hok) as (x2 & Hst & Hok2 & Hs2 & Hb2).
  unfold opendisk, obind, or_die, sys. apply wp_bind, wp_get, wp_bind, wp_assert.
  split; [destruct (Z.ltb_spec (fd s) 0); [done|lia]|].
  apply wp_bind, wp_bind, wp_zoom. eapply wp_of_eq; [exact Ho|]. apply wp_ret. cbv beta iota.
  apply wp_bind, wp_get, wp_bind, wp_put, wp_bind, wp_bind, wp_zoom. eapply wp_of_eq; [exact Hst|]. apply wp_ret. cbv beta iota.
  apply wp_bind, wp_get, wp_bind, wp_put, wp_ret. split; [done|]. simpl.
  split; [|split; [done|intros b; apply file_block_eq; intros i _; by rewrite Hb2, Hb1]]. unfold ready. simpl.
  split; [done|]. split; [done|]. split; [lia|]. rewrite Hs1, Hs. unfold BLOCKSIZE.
  rewrite (Z.mul_comm 512), Z.quot_mul by lia. by apply u32_id.
Qed.

Lemma sys_check (s : mksfs) : check s = Done tt s.
Proof. reflexivity. Qed.

Lemma main_correct a0 path arg name n (s : mksfs) :
  fd s < 0 -> bitbuf s = zero_bits -> df_named (os s) path -> df_size (os s) = 512 * n ->
  2 + SFS_BITBLOCKS n <= n <= 131072 -> volume_name arg = Some name -> arg_ok name -> lenZ name < SFS_VOLNAME_SIZE ->
  wp (main [a0; path; arg]) (fun r s' => r = Some tt /\ df_size (os s') = 512 * n /\ made (os s') name n (bitbuf s') /\
    forall b, ~ 0 <= b < 2 + SFS_BITBLOCKS n -> file_block (os s') b = file_block (os s) b) s.
Proof.
  intros Hf Hz Hnm Hs [Hfit Hmax] Hv Ha Hl.
  assert (0 <= SFS_BITBLOCKS n) as H0.
  { unfold SFS_BITBLOCKS, SFS_BITMAPSIZE, SFS_ROUNDUP. apply Z.div_pos; [apply u32_range|done]. }
  assert (byte_ok name) as Hby by (eapply Forall_impl; [exact Ha|]; by intros c []).
  assert (super_ok (new_super name n)) as Hsp by (apply new_super_ok; [done|done|unfold is_u32; lia]).
  unfold main. apply wp_bind. eapply wp_of_eq; [apply sys_check|]. rewrite Hv. unfold obind. apply wp_bind.
  eapply wp_mono; [apply (opendisk_correct path n); done || lia|]. intros r s1 (-> & Hr1 & Hz1 & Hb1). cbv beta iota.
  apply wp_bind. unfold diskblocksize. apply wp_bind, wp_get, wp_bind, wp_assert. pose proof Hr1 as (Hf1 & Hok1 & Hs1 & Hn1).
  split; [destruct (Z.leb_spec 0 (fd s1)); [done|lia]|]. apply wp_ret. change (negb (BLOCKSIZE =? SFS_BLOCKSIZE)) with false. cbv iota.
  apply wp_bind. unfold diskblocks. apply wp_bind, wp_get, wp_bind, wp_assert.
  split; [destruct (Z.leb_spec 0 (fd s1)); [done|lia]|]. apply wp_ret. rewrite Hn1.
  apply wp_bind. unfold writesuper. destruct (Z.leb_spec SFS_VOLNAME_SIZE (lenZ name)); [lia|].
  change (name ++ replicate (32 - length name) 0) with (padded name).
  change (mk_super SFS_MAGIC n (padded name) (replicate 118 0)) with (new_super name n).
  pose proof (length_enc_super _ Hsp) as Hle. pose proof (length_enc_inode _ root_inode_ok) as Hli.
  eapply wp_mono; [apply diskwrite_correct; try done; unfold SFS_SB_LOCATION; try lia; unfold lenZ; lia|].
  intros r s2 (-> & Hp2). cbv beta iota. pose proof (put_block_ready _ _ _ _ _ Hr1 Hp2) as Hr2.
  destruct Hp2 as ((_ & _ & Eb2) & _ & _ & Hb2). rewrite firstn_all2 in Hb2 by lia.
  pose proof Hr2 as (Hf2 & Hok2 & Hs2 & Hn2).
  apply wp_bind. unfold writerootdir.
  eapply wp_mono; [apply diskwrite_correct; try done; unfold SFS_ROOT_LOCATION; try lia; unfold lenZ; lia|].
  intros r s3 (-> & Hp3). cbv beta iota. pose proof (put_block_ready _ _ _ _ _ Hr2 Hp3) as Hr3.
  destruct Hp3 as ((_ & _ & Eb3) & _ & _ & Hb3). rewrite firstn_all2 in Hb3 by lia.
  apply wp_bind. eapply wp_mono; [apply (writebitmap_correct n); [done|congruence|lia|lia]|].
  intros r s4 (-> & (Hf4 & Hok4 & Hs4 & _) & Hl4 & Hw4 & Hbits & Hb4). cbv beta iota.
  destruct (close_works (os s4) Hok4) as (x5 & Hc & Hs5 & Hby5).
  unfold closedisk, obind, or_die, sys. apply wp_bind, wp_get, wp_bind, wp_assert.
  split; [destruct (Z.leb_spec 0 (fd s4)); [done|lia]|]. apply wp_bind, wp_bind, wp_zoom. eapply wp_of_eq; [exact Hc|].
  apply wp_ret. cbv beta iota. apply wp_bind, wp_get, wp_bind, wp_put, wp_ret. split; [done|]. cbn [os set_disk_of].
  split; [lia|].
  assert (forall b, file_block x5 b = file_block (os s4) b) as Hfb.
  { intros b. apply file_block_eq. intros i _. apply Hby5. }
  split; [|intros b Hb; rewrite Hfb, Hb4, Hb3, Hb2, Hb1; unfold SFS_ROOT_LOCATION, SFS_SB_LOCATION;
    repeat case_bool_decide; done || lia].
  split; cbn [bitbuf set_disk_of]; try done.
  - rewrite Hfb, Hb4, Hb3, Hb2. unfold SFS_ROOT_LOCATION, SFS_SB_LOCATION. repeat case_bool_decide; done || lia.
  - rewrite Hfb, Hb4, Hb3. unfold SFS_ROOT_LOCATION. repeat case_bool_decide; done || lia.
  - intros b Hb. rewrite Hfb, Hb4. by rewrite bool_decide_true by lia.
Qed.
End whole.

(** ** Mounting the new volume *)

Section mounting.
Context {X : Type} `{DF : DiskFile X} `{!DiskFileLaws X}.
Context {D : Type} {B : BlockDevice D} {R : ReliableDevice B}.

Definition new_map (n : Z) (buf : list Z) : bitmap := mk_bitmap (SFS_BITMAPSIZE n) (slice buf 0 (512 * SFS_BITBLOCKS n)).

(** A map of whole blocks reads as the buffer it is cut from. *)
Lemma new_map_ok n buf :
  0 < n <= 131072 -> lenZ buf = 16384 -> wf (as_map buf) ->
  wf (new_map n buf) /\ lenZ (v (new_map n buf)) = 512 * SFS_BITBLOCKS n /\
  forall i, 0 <= i < SFS_BITMAPSIZE n -> bit (new_map n buf) i = bit (as_map buf) i.
Proof.
  intros Hn Hl Hw. destruct (bitblocks_range n Hn) as (Hb & Hs & _).
  assert (lenZ (slice buf 0 (512 * SFS_BITBLOCKS n)) = 512 * SFS_BITBLOCKS n) as Hls by (apply lenZ_slice; lia).
  assert (forall i, 0 <= i < 512 * SFS_BITBLOCKS n -> nthZ (slice buf 0 (512 * SFS_BITBLOCKS n)) i = nthZ buf i) as Hn'.
  { intros i Hi. by rewrite nthZ_slice by lia. }
  split; [split; simpl|].
  - rewrite Hs. unfold max_nbits, BITS_PER_WORD, CHAR_BIT. lia.
  - rewrite Hls, Hs. apply Z.div_unique with (r := 7); lia.
  - intros i w Hi. pose proof (nthZ_Some_lt _ _ _ Hi). rewrite Hn' in Hi by lia. by apply (wf_u8 _ Hw i).
  - rewrite Hls, Hs. intros i. lia.
  - split; [exact Hls|]. intros i Hi. unfold bit. change BITS_PER_WORD with 8. simpl. rewrite Hn'; [done|].
    split; [apply Z.div_pos; lia|apply Z.div_lt_upper_bound; lia].
Qed.

Lemma mount_made (x : X) name n buf (dev : D) um space :
  made x name n buf -> arg_ok name -> lenZ name < SFS_VOLNAME_SIZE -> 2 + SFS_BITBLOCKS n <= n <= 131072 ->
  dev_ok dev -> d_blocks dev = n -> d_blocksize dev = SFS_BLOCKSIZE ->
  (forall k, 0 <= k < n -> sector dev k = file_block x k) ->
  wp (sfs_domount true true true true)
     (fun r s => r = inr tt /\ volume_ok s /\ sfs_super_ s = new_super name n /\ sfs_freemap s = new_map n buf /\
        num (sfs_vnodes s) = 0 /\ forall k, 0 <= k < n -> blk s k = file_block x k)
     (raw_fs dev um space).
Proof.
  intros [M0 M1 Mm Ml Mw Mb] Ha Hl [Hfit Hmax] Hd Hdn Hbs Hsec.
  assert (0 < n) as Hpos.
  { assert (0 <= SFS_BITBLOCKS n); [|lia]. unfold SFS_BITBLOCKS, SFS_BITMAPSIZE, SFS_ROUNDUP. apply Z.div_pos; [apply u32_range|done]. }
  destruct (bitblocks_range n) as (Hnb & Hbm & Hle); [lia|].
  destruct (new_map_ok n buf) as (Nw & Nl & Nb); [lia|done|done|].
  assert (byte_ok name) as Hby by (eapply Forall_impl; [exact Ha|]; by intros c []).
  assert (super_ok (new_super name n)) as Hsp by (apply new_super_ok; [done|done|unfold is_u32; lia]).
  assert (nthZ (sp_volname (new_super name n)) (SFS_VOLNAME_SIZE - 1) = Some 0) as Hname.
  { unfold SFS_VOLNAME_SIZE, lenZ in *. cbn [sp_volname new_super]. unfold padded. rewrite nthZ_to_nat by lia.
    rewrite lookup_app_r by lia. apply lookup_replicate_2. lia. }
  eapply wp_mono; [apply (domount_correct dev um space (new_super name n) (new_map n buf)); cbn [sp_nblocks new_super]; try done; try lia|].
  - unfold SFS_MAP_LOCATION. lia.
  - split; cbn [sp_nblocks new_super]; [change (blk (raw_fs dev um space) 0) with (sector dev 0)|
      intros k Hk; change (blk (raw_fs dev um space) k) with (sector dev k)]; rewrite Hsec by lia; [done|].
    rewrite Mm by done. unfold new_map, slice. cbn [v]. rewrite drop_0.
    rewrite skipn_firstn_comm, firstn_firstn. f_equal. lia.
  - intros r s (-> & Esp & Em & Ed & Esd & Ev & Eh & Hdok & Hdb & Hsame). split; [done|].
    assert (SfsBmap.nblocks s = n) as En by (unfold SfsBmap.nblocks; by rewrite Esp).
    assert (forall k, 0 <= k < n -> blk s k = file_block x k) as Hblk by (intros k Hk; unfold blk; rewrite Hsame; by apply Hsec).
    assert (dev_size s = n) as Eds by (unfold dev_size; lia).
    split; [|done]. split.
    + split; rewrite ?En, ?Em.
      * split; [done|lia].
      * done.
      * lia.
      * simpl. lia.
      * rewrite Nb by lia. rewrite Mb. unfold used_at_first. by rewrite bool_decide_true by lia.
      * intros i Hi. change (nbits (new_map n buf)) with (SFS_BITMAPSIZE n) in Hi. rewrite Nb, Mb by lia.
        unfold used_at_first. rewrite (bool_decide_true (n <= i < _)) by lia. by rewrite orb_true_r.
    + by rewrite Esp.
    + by rewrite Esp.
    + by rewrite Esp.
    + unfold SFS_FS_BITMAPSIZE. by rewrite Em, Esp.
    + unfold SFS_FS_BITBLOCKS. rewrite Esp, Eds. unfold SFS_MAP_LOCATION. simpl. lia.
Qed.

Lemma new_volume_used name n buf (s : sfs_fs D) b :
  sfs_super_ s = new_super name n -> sfs_freemap s = new_map n buf -> 0 < n <= 131072 -> lenZ buf = 16384 -> wf (as_map buf) ->
  2 + SFS_BITBLOCKS n <= n -> (forall i, bit (as_map buf) i = used_at_first n i) -> used s b <-> 0 <= b < 2 + SFS_BITBLOCKS n.
Proof.
  intros Es Em Hn Hl Hw Hfit Hb. destruct (bitblocks_range n Hn) as (_ & _ & Hle). unfold used, SfsBmap.nblocks. rewrite Es, Em.
  change (sp_nblocks (new_super name n)) with n. destruct (new_map_ok n buf Hn Hl Hw) as (_ & _ & Nb).
  split; [intros [Hr Hu]|intros Hr; split; [lia|]]; rewrite Nb in * by lia; rewrite Hb in *; unfold used_at_first in *.
  - rewrite (bool_decide_false (n <= b < _)), orb_false_r in Hu by lia. by apply bool_decide_eq_true in Hu.
  - by rewrite bool_decide_true by lia.
Qed.
End mounting.

(** ** A disk file to run on: writes are cut at 100 bytes *)

Record ram_file : Type := mk_ram_file { rf_bytes : gmap Z Z; rf_pos : Z }.

Fixpoint store_bytes (m : gmap Z Z) (p : Z) (bs : list Z) : gmap Z Z :=
  match bs with [] => m | b :: bs => store_bytes (<[p := b]> m) (p + 1) bs end.

#[export] Instance ram_disk_file : DiskFile ram_file := {
  df_open _ := let! x := get in do! put (mk_ram_file (rf_bytes x) 0) in ok 3;
  df_fstat := ok (512 * 64);
  df_lseek p := let! x := get in do! put (mk_ram_file (rf_bytes x) p) in ok p;
  df_write bs :=
    let! x := get in
    let n := lenZ (take 100 bs) in
    do! put (mk_ram_file (store_bytes (rf_bytes x) (rf_pos x) (take 100 bs)) (rf_pos x + n)) in ok n;
  df_close := ok tt;
}.

Definition ram_byte (x : ram_file) (i : Z) : Z := default 0 (rf_bytes x !! i).

Lemma store_bytes_lookup bs m p i :
  default 0 (store_bytes m p bs !! i) =
  if bool_decide (p <= i < p + lenZ bs) then default 0 (nthZ bs (i - p)) else default 0 (m !! i).
Proof.
  revert m p. induction bs as [|b bs IH]; intros m p; simpl.
  - rewrite bool_decide_false; [done|]. unfold lenZ. simpl. lia.
  - rewrite IH. assert (lenZ (b :: bs) = lenZ bs + 1) as -> by (unfold lenZ; simpl; lia).
    pose proof (lenZ_nonneg bs). destruct (decide (i = p)) as [->|Hne].
    + rewrite bool_decide_false, bool_decide_true by lia. rewrite lookup_insert_eq, Z.sub_diag. done.
    + rewrite lookup_insert_ne by done. repeat case_bool_decide; try lia; try done.
      rewrite (nthZ_to_nat (b :: bs)) by lia. replace (Z.to_nat (i - p)) with (S (Z.to_nat (i - (p + 1)))) by lia.
      simpl. by rewrite nthZ_to_nat by lia.
Qed.

#[export] Instance ram_disk_laws : DiskFileLaws ram_file.
Proof.
  refine {| df_size _ := 512 * 64; byte_at := ram_byte; df_pos := rf_pos; df_ok _ := True; df_named _ _ := True |}.
  - intros x path _. by do 2 eexists.
  - intros x _. by eexists.
  - intros x p _ _. by eexists.
  - intros x bs _ Hbs Hp Hs. assert (1 <= lenZ (take 100 bs) <= lenZ bs) as Hl.
    { unfold lenZ. rewrite length_take. destruct bs; [done|]. cbn [length]. lia. }
    exists (lenZ (take 100 bs)), (mk_ram_file (store_bytes (rf_bytes x) (rf_pos x) (take 100 bs)) (rf_pos x + lenZ (take 100 bs))).
    split; [reflexivity|]. split; [done|]. split; [done|]. split; [done|]. split; [done|].
    intros i. unfold ram_byte. simpl rf_bytes. rewrite store_bytes_lookup. case_bool_decide as Hi; [|done].
    f_equal. rewrite !nthZ_to_nat by lia. apply lookup_take_lt. unfold lenZ in *. rewrite length_take in *. lia.
  - intros x _. by eexists.
Defined.

(** ** Properties *)

(** C18. What mksfs makes, the kernel mounts: run on a disk of [n] blocks (big enough for
    the map, at most 64 MB), [main] succeeds however short the writes are, and writes
    nothing but superblock, root directory and free map. On a device with those blocks
    [sfs_domount] succeeds; the volume has the name given, is well formed as the file
    system operations require, exactly superblock, root directory and map are in use,
    and the root directory is empty. *)
Theorem mksfs_then_mount {X} {DF : DiskFile X} {DL : DiskFileLaws X} {D} {B : BlockDevice D} {R : ReliableDevice B}
    (s : mksfs X) (a0 path arg name : list Z) (n : Z) (dev : D) (um : mem) (space : option Z) :
  fd s < 0 -> bitbuf s = zero_bits -> df_named (os s) path -> df_size (os s) = 512 * n ->
  2 + SFS_BITBLOCKS n <= n <= 131072 -> volume_name arg = Some name -> arg_ok arg -> lenZ name < SFS_VOLNAME_SIZE ->
  exists s', main [a0; path; arg] s = Done (Some tt) s' /\
  (forall b, ~ 0 <= b < 2 + SFS_BITBLOCKS n -> file_block (os s') b = file_block (os s) b) /\
  (dev_ok dev -> d_blocks dev = n -> d_blocksize dev = SFS_BLOCKSIZE ->
   (forall k, 0 <= k < n -> sector dev k = file_block (os s') k) ->
   exists s2, sfs_domount true true true true (raw_fs dev um space) = Done (inr tt) s2 /\ volume_ok s2 /\
   sfs_getvolname s2 = Done name s2 /\ (forall b, used s2 b <-> 0 <= b < 2 + SFS_BITBLOCKS n) /\
   dec_inode (blk s2 SFS_ROOT_LOCATION) = root_inode).
Proof.
  intros Hf Hz Hn Hs Hfit Hv Ha Hl.
  assert (arg_ok name) as Han by (destruct (volume_name_prefix _ _ Hv) as (k & ->); by apply Forall_take).
  destruct (wp_done _ _ _ (main_correct a0 path arg name n s Hf Hz Hn Hs Hfit Hv Han Hl)) as (r & s' & Hrun & -> & _ & Hm & Hrest).
  exists s'. split; [exact Hrun|]. split; [exact Hrest|]. intros Hd Hdn Hbs Hsec.
  destruct (wp_done _ _ _ (mount_made (os s') name n (bitbuf s') dev um space Hm Han Hl Hfit Hd Hdn Hbs Hsec))
    as (r & s2 & Hmnt & -> & Hvol & Esp & Em & _ & Hblk).
  exists s2. split; [exact Hmnt|]. split; [exact Hvol|]. split; [unfold sfs_getvolname, bind, get, ret; rewrite Esp; change (sp_volname (new_super name n)) with (padded name);
    by rewrite c_string_padded|].
  assert (0 < n) as Hpos by (pose proof (fi_size _ (vo_inv _ Hvol)) as Hsz; unfold SfsBmap.nblocks in Hsz; rewrite Esp in Hsz; simpl in Hsz; lia).
  split; [intros b; apply (new_volume_used name n (bitbuf s')); try done; try lia; apply Hm|].
  rewrite Hblk by (unfold SFS_ROOT_LOCATION; pose proof (bitblocks_range n); lia).
  unfold SFS_ROOT_LOCATION. rewrite (made_root _ _ _ _ Hm). apply dec_enc_inode, root_inode_ok.
Qed.

(** The card once the program has run on a blank disk of 64 blocks. *)
Definition demo_new_disk : mksfs ram_file := mk_mksfs (mk_ram_file ∅ 0) (-1) 0 zero_bits.

Lemma demo_blank b : file_block (os demo_new_disk) b = blank.
Proof.
  apply nthZ_ext; [by rewrite lenZ_file_block|]. intros i Hi. rewrite lenZ_file_block in Hi.
  rewrite nthZ_file_block by done. unfold blank. by rewrite nthZ_replicate by lia.
Qed.

Definition demo_card_with (x : ram_file) : ram_card := <[0 := file_block x 0]> (<[1 := file_block x 1]> {[2 := file_block x 2]}).

Lemma mksfs_then_mount_witness :
  exists s', main [str "mksfs"; str "lhd0raw:"; str "vol:"] demo_new_disk = Done (Some tt) s' /\
  match sfs_domount true true true true (raw_fs (fresh_lhd (demo_card_with (os s'))) ∅ None) with
  | Done (inr _) s2 => sfs_getvolname s2 = Done (str "vol") s2
  | _ => False
  end.
Proof.
  destruct (main [str "mksfs"; str "lhd0raw:"; str "vol:"] demo_new_disk) as [[[]|] s1| | |] eqn:Hrun;
    try (exfalso; assert (match main [str "mksfs"; str "lhd0raw:"; str "vol:"] demo_new_disk with Done (Some _) _ => true | _ => false end = true)
           as Hb by (vm_compute; reflexivity); rewrite Hrun in Hb; discriminate Hb).
  assert (match main [str "mksfs"; str "lhd0raw:"; str "vol:"] demo_new_disk with
          | Done _ s1 => bool_decide (Forall (fun b => lenZ (file_block (os s1) b) = 512 /\ bytes_ok (file_block (os s1) b)) [0; 1; 2])
          | _ => false end = true) as Hb by (vm_compute; reflexivity).
  rewrite Hrun in Hb. apply bool_decide_eq_true in Hb.
  destruct (mksfs_then_mount demo_new_disk (str "mksfs") (str "lhd0raw:") (str "vol:") (str "vol") 64
    (fresh_lhd (demo_card_with (os s1))) ∅ None) as (s' & Hrun' & Hrest & Hm).
  { reflexivity. } { reflexivity. } { exact I. } { reflexivity. } { split; discriminate. } { reflexivity. }
  { change (str "vol:") with [118; 111; 108; 58].
    repeat (constructor; [split; [unfold is_u8; lia|discriminate]|]); constructor. }
  { reflexivity. }
  assert (s' = s1) as -> by congruence. exists s1. split; [reflexivity|].
  destruct Hm as (s2 & Hmnt & _ & Hname & _).
  - apply fresh_lhd_ready.
  - reflexivity.
  - reflexivity.
  - intros k Hk. change (ram_sector (demo_card_with (os s1)) k = file_block (os s1) k). unfold ram_sector, demo_card_with.
    rewrite !Forall_cons in Hb. destruct Hb as (H0 & H1 & H2 & _).
    destruct (decide (k = 0)) as [->|]; [by rewrite lookup_insert_eq, bool_decide_true|]. rewrite lookup_insert_ne by done.
    destruct (decide (k = 1)) as [->|]; [by rewrite lookup_insert_eq, bool_decide_true|]. rewrite lookup_insert_ne by done.
    destruct (decide (k = 2)) as [->|]; [by rewrite lookup_singleton_eq, bool_decide_true|]. rewrite lookup_singleton_ne by done.
    rewrite Hrest; [by rewrite demo_blank|]. change (SFS_BITBLOCKS 64) with 1. lia.
  - rewrite Hmnt. exact Hname.
Defined.
