(* ===== verification/Printf.v ===== *)
(** * Formatted printing (lib/libc/__printf.c, lib/libc/snprintf.c).

    The printf shared by the kernel and the C library. The arguments of a call are a
    list ([va_list]); taking one at another type than it was passed at is undefined.
    The client is a state of type [X] that text is sent to. A string is the list of its
    bytes without the NUL. *)

From stdpp Require Import base numbers list strings.
From Stdlib Require Import ZArith Lia.
From S2P Require Import Prelude SfsDir VfsPath.

(** An argument as it was passed. *)
Inductive va : Type :=
| va_int (z : Z)                       (* int or unsigned int *)
| va_long (z : Z)
| va_ptr (a : Z)
| va_str (s : option (list Z)).        (* None: NULL *)

Inductive numsize : Type := INTSZ | LONGSZ.

Record PF (X : Type) : Type := mk_pf {
  clientdata : X;
  ap : list va;
  charcount : Z;
  in_pct : bool;
  size : numsize;
  pf_num : Z;
  sign : bool;
  spacing : Z;
  rightspc : bool;
  fillchar : Z;
  pf_base : Z;
  baseprefix : bool;
  altformat : bool;
}.
Arguments mk_pf {X}.
Arguments clientdata {X}.
Arguments ap {X}.
Arguments charcount {X}.
Arguments in_pct {X}.
Arguments size {X}.
Arguments pf_num {X}.
Arguments sign {X}.
Arguments spacing {X}.
Arguments rightspc {X}.
Arguments fillchar {X}.
Arguments pf_base {X}.
Arguments baseprefix {X}.
Arguments altformat {X}.

Definition chr (s : string) : Z := hd 0 (str s).
Arguments chr s%_string.

(** Space for an [unsigned long] in base 8 and a NUL, and one more. *)
Definition NUMBER_BUF_SIZE : Z := 4 * 8 / 3 + 2.

Definition strchr_in (set : list Z) (ch : Z) : bool :=
  match strchr_list set ch with Some _ => true | None => false end.

Section printf.
Context {X : Type} (sendfunc : list Z -> X -> X).
Notation pf := (PF X).

Definition pf_print (txt : list Z) : M pf unit :=
  let! p := get in
  put (mk_pf (sendfunc txt (clientdata p)) (ap p) (s32 (u32 (charcount p + lenZ txt))) (in_pct p) (size p)
         (pf_num p) (sign p) (spacing p) (rightspc p) (fillchar p) (pf_base p) (baseprefix p) (altformat p)).

Definition pf_endfield : M pf unit :=
  let! p := get in
  put (mk_pf (clientdata p) (ap p) (charcount p) false INTSZ 0 false 0 false 32 0 false false).

Definition set_flags (sz : numsize) (spc : Z) (right : bool) (fill : Z) (alt : bool) (p : pf) : pf :=
  mk_pf (clientdata p) (ap p) (charcount p) (in_pct p) sz (pf_num p) (sign p) spc right fill
    (pf_base p) (baseprefix p) alt.

Definition pf_modifier (ch : Z) : M pf unit :=
  let! p := get in
  let keep := set_flags (size p) (spacing p) (rightspc p) (fillchar p) (altformat p) in
  if ch =? chr "#" then put (set_flags (size p) (spacing p) (rightspc p) (fillchar p) true p)
  else if ch =? chr "-" then put (set_flags (size p) (spacing p) true (fillchar p) (altformat p) p)
  else if ch =? chr "l" then
    match size p with
    | LONGSZ => put (keep p)
    | INTSZ => put (set_flags LONGSZ (spacing p) (rightspc p) (fillchar p) (altformat p) p)
    end
  else if ch =? chr "q" then put (set_flags LONGSZ (spacing p) (rightspc p) (fillchar p) (altformat p) p)
  else if ch =? chr "0" then
    if 0 <? spacing p then
      let! n := int_of (spacing p * 10) in
      put (set_flags (size p) n (rightspc p) (fillchar p) (altformat p) p)
    else put (set_flags (size p) (spacing p) (rightspc p) (chr "0") (altformat p) p)
  else
    do! assert_ ((chr "0" <? ch) && (ch <=? chr "9")) in
    let! n := int_of (spacing p * 10) in
    let! n := int_of (n + (ch - chr "0")) in
    put (set_flags (size p) n (rightspc p) (fillchar p) (altformat p) p).

(** [va_arg], at the four types it is used with. *)
Definition take_arg {A} (f : va -> option A) : M pf A :=
  let! p := get in
  match ap p with
  | [] => undef
  | a :: rest =>
      let! x := of_option (f a) in
      do! put (mk_pf (clientdata p) rest (charcount p) (in_pct p) (size p) (pf_num p) (sign p) (spacing p)
                (rightspc p) (fillchar p) (pf_base p) (baseprefix p) (altformat p)) in
      ret x
  end.
Definition as_int (a : va) : option Z := match a with va_int z => Some z | _ => None end.
Definition as_long (a : va) : option Z := match a with va_long z => Some z | _ => None end.
Definition as_ptr (a : va) : option Z := match a with va_ptr z => Some z | _ => None end.
Definition as_str (a : va) : option (option (list Z)) := match a with va_str s => Some s | _ => None end.

Definition set_num (n : Z) (neg : bool) : M pf unit :=
  let! p := get in
  put (mk_pf (clientdata p) (ap p) (charcount p) (in_pct p) (size p) (u32 n) neg (spacing p) (rightspc p)
         (fillchar p) (pf_base p) (baseprefix p) (altformat p)).

Definition pf_getnum (ch : Z) : M pf unit :=
  let! p := get in
  if ch =? chr "p" then
    let! a := take_arg as_ptr in set_num a (sign p)
  else if ch =? chr "d" then
    let! z := take_arg (match size p with INTSZ => as_int | LONGSZ => as_long end) in
    let signednum := s32 z in
    if signednum <? 0 then let! n := int_of (- signednum) in set_num n true
    else set_num signednum (sign p)
  else
    let! z := take_arg (match size p with INTSZ => as_int | LONGSZ => as_long end) in
    set_num z (sign p).

Definition pf_setbase (ch : Z) : M pf unit :=
  let! p := get in
  let base :=
    if (ch =? chr "d") || (ch =? chr "u") then 10
    else if (ch =? chr "x") || (ch =? chr "p") then 16
    else if ch =? chr "o" then 8 else pf_base p in
  put (mk_pf (clientdata p) (ap p) (charcount p) (in_pct p) (size p) (pf_num p) (sign p) (spacing p) (rightspc p)
         (fillchar p) base (if altformat p || (ch =? chr "p") then true else baseprefix p) (altformat p)).

Definition pf_fill (spc : Z) : M pf unit :=
  let! p := get in
  let f := fillchar p in
  do! iterate (Z.to_nat spc) 0 (fun _ => do! pf_print [f] in ret (None (A := unit))) in
  ret tt.

Definition when {S} (b : bool) (m : M S unit) : M S unit := if b then m else ret tt.

Definition pf_printstuff (prefix prefix2 stuff : list Z) : M pf unit :=
  let! p := get in
  let len := s32 (u32 (lenZ prefix + lenZ prefix2 + lenZ stuff)) in
  let! spc := (if len <? spacing p then int_of (spacing p - len) else ret 0) in
  do! when ((0 <? spc) && negb (rightspc p) && negb (fillchar p =? chr "0")) (pf_fill spc) in
  do! pf_print prefix in
  do! pf_print prefix2 in
  do! when ((0 <? spc) && negb (rightspc p) && (fillchar p =? chr "0")) (pf_fill spc) in
  do! pf_print stuff in
  when ((0 <? spc) && rightspc p) (pf_fill spc).

(** The loop of [pf_printnum]: [slots] are the slots of the buffer still free, to the
    left of the digits [done]; a digit past the left end is a store out of bounds. *)
Fixpoint print_digits (slots : nat) (xnum base : Z) (done : list Z) : option (list Z) :=
  match slots with
  | O => None
  | S slots =>
      match nthZ (str "0123456789abcdef") (xnum mod base) with
      | None => None
      | Some c =>
          let xnum := xnum / base in
          if 0 <? xnum then print_digits slots xnum base (c :: done) else Some (c :: done)
      end
  end.

Definition pf_printnum : M pf unit :=
  let! p := get in
  if pf_base p =? 0 then undef
  else
    let! x := of_option (print_digits (Z.to_nat (NUMBER_BUF_SIZE - 1)) (pf_num p) (pf_base p) []) in
    let bprefix :=
      if baseprefix p && (pf_base p =? 16) then str "0x"
      else if baseprefix p && (pf_base p =? 8) then str "0"
      else [] in
    let sprefix := if sign p then str "-" else [] in
    pf_printstuff sprefix bprefix x.

Definition pf_send (ch : Z) : M pf unit :=
  do! assert_ (negb (ch =? 0)) in
  let! p := get in
  if negb (in_pct p) && negb (ch =? chr "%") then pf_print [ch]
  else if negb (in_pct p) then
    put (mk_pf (clientdata p) (ap p) (charcount p) true (size p) (pf_num p) (sign p) (spacing p) (rightspc p)
           (fillchar p) (pf_base p) (baseprefix p) (altformat p))
  else if strchr_in (str "#-ql0123456789") ch then pf_modifier ch
  else if strchr_in (str "doupx") ch then
    do! pf_getnum ch in
    do! pf_setbase ch in
    do! pf_printnum in
    pf_endfield
  else if ch =? chr "s" then
    let! s := take_arg as_str in
    do! pf_printstuff [] [] (match s with Some s => s | None => str "(null)" end) in
    pf_endfield
  else
    let! c := (if ch =? chr "c" then let! z := take_arg as_int in ret (u8 z) else ret ch) in
    do! pf_printstuff [] [] (c_string [c; 0]) in
    pf_endfield.

Fixpoint send_all (format : list Z) : M pf unit :=
  match format with
  | [] => ret tt
  | ch :: format => do! pf_send ch in send_all format
  end.

(** [__vprintf]: gives the count of characters and the client. *)
Definition vprintf (format : list Z) (args : list va) : M X Z :=
  zoom (fun x => mk_pf x args 0 false INTSZ 0 false 0 false 32 0 false false) (fun p _ => clientdata p)
    (do! pf_endfield in
     do! send_all format in
     let! p := get in ret (charcount p)).
End printf.

(** ** snprintf *)

(** The buffer, as the object it is part of; storing outside of it would be undefined. *)
Record SNP : Type := mk_snp { snp_buf : list Z; snp_buflen : Z; snp_bufpos : Z; snp_bad : bool }.

Definition snprintf_send1 (c : Z) (s : SNP) : SNP :=
  if snp_bufpos s <? snp_buflen s then
    match nthZ (snp_buf s) (snp_bufpos s) with
    | None => mk_snp (snp_buf s) (snp_buflen s) (snp_bufpos s) true
    | Some _ => mk_snp (setZ (snp_buf s) (snp_bufpos s) c) (snp_buflen s) (u32 (snp_bufpos s + 1)) (snp_bad s)
    end
  else s.

Definition snprintf_send (data : list Z) (s : SNP) : SNP := fold_left (fun s c => snprintf_send1 c s) data s.

(** [vsnprintf] on the buffer [buf]; [snprintf] only makes the [va_list]. *)
Definition vsnprintf (len : Z) (fmt : list Z) (args : list va) : M (list Z) Z :=
  let! buf := get in
  let snp := mk_snp buf (if len =? 0 then 0 else len - 1) 0 false in
  fun _ =>
    match vprintf snprintf_send fmt args snp with
    | Done chars snp =>
        if snp_bad snp then Undef
        else if 0 <? len then
          match nthZ (snp_buf snp) (snp_bufpos snp) with
          | None => Undef
          | Some _ => Done chars (setZ (snp_buf snp) (snp_bufpos snp) 0)
          end
        else Done chars (snp_buf snp)
    | Panic => Panic
    | Undef => Undef
    | OutOfFuel => OutOfFuel
    end.

Definition snprintf := vsnprintf.
