(* ===== verification/PrintfSpec.v ===== *)
(** * What printing does: formatted output equals a reference rendering.

    A format is read as a list of pieces: literal characters and directives, each a list
    of modifiers and a type. [render] says what text they stand for, given the
    arguments; [None] where C gives the call no meaning. *)

From stdpp Require Import base numbers list gmap strings.
From Stdlib Require Import ZArith Lia.
From S2P Require Import Prelude Mem Cstring SfsDir VfsPath Printf.

(** ** The reference *)

Inductive piece : Type :=
| Lit (c : Z)
| Dir (ms : list Z) (ty : Z)
| Cut (ms : list Z).                 (* the format ends within a directive *)

Definition is_mod (c : Z) : bool := bool_decide (c ∈ str "#-ql0123456789").
Definition is_int_type (c : Z) : bool := bool_decide (c ∈ str "doupx").

(** [st]: the modifiers so far, within a directive. *)
Fixpoint pieces (st : option (list Z)) (fmt : list Z) : list piece :=
  match fmt, st with
  | [], None => []
  | [], Some ms => [Cut ms]
  | c :: fmt, None => if c =? chr "%" then pieces (Some []) fmt else Lit c :: pieces None fmt
  | c :: fmt, Some ms => if is_mod c then pieces (Some (ms ++ [c])) fmt else Dir ms c :: pieces None fmt
  end.

Definition digit (c : Z) : bool := (chr "0" <=? c) && (c <=? chr "9").
Definition digits (ms : list Z) : list Z := List.filter digit ms.
Definition width (ms : list Z) : Z := dec_value 0 (digits ms).
Definition zero_pad (ms : list Z) : bool := match digits ms with c :: _ => c =? chr "0" | [] => false end.
Definition left_align (ms : list Z) : bool := bool_decide (chr "-" ∈ ms).
Definition alt_form (ms : list Z) : bool := bool_decide (chr "#" ∈ ms).
Definition long_arg (ms : list Z) : bool := bool_decide (chr "l" ∈ ms \/ chr "q" ∈ ms).

Definition pad (ms : list Z) (prefix text : list Z) : list Z :=
  let fill := replicate (Z.to_nat (width ms - lenZ (prefix ++ text))) (if zero_pad ms then chr "0" else chr " ") in
  if left_align ms then prefix ++ text ++ fill
  else if zero_pad ms then prefix ++ fill ++ text
  else fill ++ prefix ++ text.

(** The numeral of [n], most significant digit first. *)
Fixpoint numeral_digits (fuel : nat) (base n : Z) : list Z :=
  match fuel with
  | O => []
  | S fuel => if n <? base then [n] else numeral_digits fuel base (n / base) ++ [n mod base]
  end.
Definition digit_char (d : Z) : Z := default 0 (nthZ (str "0123456789abcdef") d).
Definition numeral_of (base n : Z) : list Z := map digit_char (numeral_digits 32 base n).

(** Prefix and digits of a number. *)
Definition number (ms : list Z) (ty : Z) (a : va) : option (list Z * list Z) :=
  if ty =? chr "p" then z ← as_ptr a; Some (str "0x", numeral_of 16 (u32 z))
  else
    z ← (if long_arg ms then as_long a else as_int a);
    if ty =? chr "d" then
      if s32 z =? - 2 ^ 31 then None
      else Some (if s32 z <? 0 then str "-" else [], numeral_of 10 (Z.abs (s32 z)))
    else if ty =? chr "x" then Some (if alt_form ms then str "0x" else [], numeral_of 16 (u32 z))
    else if ty =? chr "o" then Some (if alt_form ms then str "0" else [], numeral_of 8 (u32 z))
    else Some ([], numeral_of 10 (u32 z)).

Definition text_of (ty : Z) (a : va) : option (list Z) :=
  if ty =? chr "s" then s ← as_str a; Some (default (str "(null)") s)
  else z ← as_int a; Some (c_string [u8 z; 0]).

(** The text of a directive, and the arguments left. *)
Definition directive (ms : list Z) (ty : Z) (args : list va) : option (list Z * list va) :=
  if negb (is_int_type ty) && negb (ty =? chr "s") && negb (ty =? chr "c") then Some (pad ms [] [ty], args)
  else
    match args with
    | [] => None
    | a :: rest =>
        if is_int_type ty then r ← number ms ty a; Some (pad ms r.1 r.2, rest)
        else t ← text_of ty a; Some (pad ms [] t, rest)
    end.

Fixpoint render (ps : list piece) (args : list va) : option (list Z) :=
  match ps with
  | [] => Some []
  | Lit c :: ps => out ← render ps args; Some (c :: out)
  | Cut ms :: ps => if width ms <? 2 ^ 31 then render ps args else None
  | Dir ms ty :: ps =>
      if width ms <? 2 ^ 31 then
        r ← directive ms ty args; out ← render ps r.2; Some (r.1 ++ out)
      else None
  end.

Definition formatted (fmt : list Z) (args : list va) : option (list Z) := render (pieces None fmt) args.

(** ** Numerals *)

Definition base_ok (b : Z) : Prop := b = 8 \/ b = 10 \/ b = 16.

Lemma digit_char_at b d : base_ok b -> 0 <= d < b -> nthZ (str "0123456789abcdef") d = Some (digit_char d).
Proof.
  intros Hb Hd. unfold digit_char. destruct (nthZ_is_Some (str "0123456789abcdef") d) as [c Hc]; [|by rewrite Hc].
  change (lenZ _) with 16. destruct Hb as [->|[->| ->]]; lia.
Qed.

Lemma numeral_digits_short f b n : (length (numeral_digits f b n) <= f)%nat.
Proof.
  revert n. induction f as [|f IH]; intros n; simpl; [lia|]. destruct (n <? b); simpl; [lia|].
  rewrite length_app. simpl. specialize (IH (n / b)). lia.
Qed.

Lemma numeral_digits_ok b fuel n : base_ok b -> 0 <= n < b ^ Z.of_nat fuel -> (0 < fuel)%nat ->
  Forall (fun d => 0 <= d < b) (numeral_digits fuel b n) /\ numeral_digits fuel b n <> [].
Proof.
  intros Hb. assert (0 < b) as Hpos by (destruct Hb as [->|[->| ->]]; lia).
  revert n. induction fuel as [|fuel IH]; intros n Hn Hf; [lia|]. simpl.
  destruct (Z.ltb_spec n b); [split; [constructor; [lia|constructor]|done]|]. split; [|by destruct (numeral_digits fuel b (n / b))].
  apply Forall_app. split; [|constructor; [by apply Z.mod_pos_bound|constructor]].
  destruct fuel as [|fuel]; [simpl; constructor|]. apply IH; [|lia].
  rewrite Nat2Z.inj_succ, Z.pow_succ_r in Hn by lia. split; [apply Z.div_pos; lia|]. apply Z.div_lt_upper_bound; lia.
Qed.

(** More fuel changes nothing. *)
Lemma numeral_fuel b f1 f2 n : base_ok b -> 0 <= n < b ^ Z.of_nat f1 -> n < b ^ Z.of_nat f2 -> (0 < f1)%nat -> (0 < f2)%nat ->
  numeral_digits f1 b n = numeral_digits f2 b n.
Proof.
  intros Hb. assert (1 < b) as Hpos by (destruct Hb as [->|[->| ->]]; lia).
  revert f2 n. induction f1 as [|f1 IH]; intros [|f2] n Hn Hn2 H1 H2; try lia. simpl.
  destruct (Z.ltb_spec n b) as [|Hge]; [done|]. f_equal.
  rewrite !Nat2Z.inj_succ, !Z.pow_succ_r in * by lia.
  assert (forall k, (k = 0)%nat -> n < b * b ^ Z.of_nat k -> False) as Hz by (intros k -> Hk; simpl in Hk; lia).
  apply IH; [split; [apply Z.div_pos; lia|apply Z.div_lt_upper_bound; lia]|apply Z.div_lt_upper_bound; lia| |].
  - destruct f1; [exfalso; eapply Hz; [reflexivity|apply Hn]|lia].
  - destruct f2; [exfalso; eapply Hz; [reflexivity|apply Hn2]|lia].
Qed.

Lemma print_digits_numeral b slots n acc :
  base_ok b -> 0 <= n < b ^ Z.of_nat slots -> (0 < slots)%nat ->
  print_digits slots n b acc = Some (map digit_char (numeral_digits slots b n) ++ acc).
Proof.
  intros Hb. assert (1 < b) as Hpos by (destruct Hb as [->|[->| ->]]; lia).
  revert n acc. induction slots as [|slots IH]; intros n acc Hn Hs; [lia|]. simpl.
  rewrite (digit_char_at b) by (done || by apply Z.mod_pos_bound; lia).
  rewrite Nat2Z.inj_succ, Z.pow_succ_r in Hn by lia.
  destruct (Z.ltb_spec n b) as [Hlt|Hge].
  - rewrite Z.div_small, Z.mod_small by lia. done.
  - assert (0 < n / b) by (apply Z.div_str_pos; lia). destruct (Z.ltb_spec 0 (n / b)); [|lia].
    rewrite IH; [by rewrite map_app, <- app_assoc| |].
    + split; [lia|]. apply Z.div_lt_upper_bound; lia.
    + destruct slots; [|lia]. simpl in Hn. lia.
Qed.

(** Eleven places are enough for 32 bits. *)
Lemma print_num_fits b n : base_ok b -> is_u32 n ->
  print_digits (Z.to_nat (NUMBER_BUF_SIZE - 1)) n b [] = Some (numeral_of b n).
Proof.
  intros Hb Hn. change (Z.to_nat (NUMBER_BUF_SIZE - 1)) with 11%nat. unfold is_u32 in Hn.
  assert (n < b ^ Z.of_nat 11 /\ n < b ^ Z.of_nat 32) as [H1 H2].
  { assert (2 ^ 32 <= b ^ Z.of_nat 11 /\ 2 ^ 32 <= b ^ Z.of_nat 32); [|lia].
    destruct Hb as [->|[->| ->]]; split; vm_compute; discriminate. }
  rewrite print_digits_numeral by (done || lia). rewrite app_nil_r. unfold numeral_of.
  by rewrite (numeral_fuel b 11 32) by (done || lia).
Qed.

(** ** The steps of the code *)

Lemma bind_undef {S A B} (m : M S A) (f : A -> M S B) s : m s = Undef -> bind m f s = Undef.
Proof. unfold bind. by intros ->. Qed.

Section steps.
Context {X : Type} (sendfunc : list Z -> X -> X).
Hypothesis send_nil : forall x, sendfunc [] x = x.
Hypothesis send_app : forall a b x, sendfunc (a ++ b) x = sendfunc b (sendfunc a x).
Notation pf := (PF X).

Definition cnt (k : Z) : Z := s32 (u32 k).

Lemma cnt_add k n : s32 (u32 (cnt k + n)) = cnt (k + n).
Proof.
  unfold cnt. rewrite !s32_u32. unfold s32.
  replace ((k + 2 ^ 31) mod 2 ^ 32 - 2 ^ 31 + n + 2 ^ 31) with ((k + 2 ^ 31) mod 2 ^ 32 + n) by lia.
  rewrite Z.add_mod_idemp_l by lia. do 2 f_equal. lia.
Qed.

(** [p] with other text sent and counted. *)
Definition out (x : X) (k : Z) (p : pf) : pf :=
  mk_pf x (ap p) (cnt k) (in_pct p) (size p) (pf_num p) (sign p) (spacing p) (rightspc p) (fillchar p)
    (pf_base p) (baseprefix p) (altformat p).

Lemma pf_print_out txt x k p :
  pf_print sendfunc txt (out x k p) = Done tt (out (sendfunc txt x) (k + lenZ txt) p).
Proof. unfold pf_print. simpl_m. unfold out. simpl. by rewrite cnt_add. Qed.

Lemma pf_fill_out n x k p :
  pf_fill sendfunc n (out x k p) =
  Done tt (out (sendfunc (replicate (Z.to_nat n) (fillchar p)) x) (k + Z.of_nat (Z.to_nat n)) p).
Proof.
  assert (forall m i x k, iterate m i (fun _ => do! pf_print sendfunc [fillchar p] in ret (None (A := unit))) (out x k p)
    = Done None (out (sendfunc (replicate m (fillchar p)) x) (k + Z.of_nat m) p)) as Hi.
  { induction m as [|m IH]; intros i y j.
    - simpl. rewrite send_nil. by rewrite Z.add_0_r.
    - simpl iterate. rewrite (bind_done _ _ _ None (out (sendfunc [fillchar p] y) (j + 1) p)).
      2: { by rewrite (bind_done _ _ _ _ _ (pf_print_out _ _ _ _)). }
      rewrite IH. rewrite <- send_app. simpl. do 2 f_equal. lia. }
  unfold pf_fill. unfold bind at 1, get at 1. change (fillchar (out x k p)) with (fillchar p).
  by rewrite (bind_done _ _ _ _ _ (Hi _ _ _ _)).
Qed.

Lemma when_false (p : pf) m : when false m p = Done tt p.
Proof. done. Qed.

(** The text of a field, from the state of the directive. *)
Definition field (p : pf) (prefix text : list Z) : list Z :=
  let fill := replicate (Z.to_nat (spacing p - lenZ (prefix ++ text))) (fillchar p) in
  if rightspc p then prefix ++ text ++ fill
  else if fillchar p =? chr "0" then prefix ++ fill ++ text
  else fill ++ prefix ++ text.

Lemma printstuff_out prefix prefix2 text x k p :
  is_s32 (spacing p) -> lenZ prefix + lenZ prefix2 + lenZ text < 2 ^ 31 ->
  pf_printstuff sendfunc prefix prefix2 text (out x k p) =
  Done tt (out (sendfunc (field p (prefix ++ prefix2) text) x) (k + lenZ (field p (prefix ++ prefix2) text)) p).
Proof.
  intros Hs Hl. unfold is_s32 in Hs. unfold pf_printstuff. unfold bind at 1, get at 1.
  pose proof (lenZ_nonneg prefix). pose proof (lenZ_nonneg prefix2). pose proof (lenZ_nonneg text).
  rewrite u32_id by (unfold is_u32; lia). rewrite s32_id by (unfold is_s32; lia).
  change (spacing (out x k p)) with (spacing p). change (rightspc (out x k p)) with (rightspc p).
  change (fillchar (out x k p)) with (fillchar p).
  set (len := lenZ prefix + lenZ prefix2 + lenZ text) in *.
  assert (lenZ ((prefix ++ prefix2) ++ text) = len) as Hlen by (unfold len; rewrite !lenZ_app; lia).
  set (spc := if len <? spacing p then spacing p - len else 0).
  rewrite (bind_done _ _ _ spc (out x k p)).
  2: { unfold spc. destruct (Z.ltb_spec len (spacing p)); [|done]. unfold int_of. by rewrite bool_decide_true by lia. }
  assert (Z.to_nat (spacing p - len) = Z.to_nat spc) as Hspc by (unfold spc; destruct (Z.ltb_spec len (spacing p)); lia).
  assert (0 <= spc) as Hspc0 by (unfold spc; destruct (Z.ltb_spec len (spacing p)); lia).
  unfold field. rewrite Hlen, Hspc. set (fill := replicate (Z.to_nat spc) (fillchar p)).
  assert (spc = 0 -> fill = []) as Hz by (intros E; unfold fill; by rewrite E).
  assert (forall (b : bool) x k, (0 <? spc) && b = true ->
    when ((0 <? spc) && b) (pf_fill sendfunc spc) (out x k p) = Done tt (out (sendfunc fill x) (k + lenZ fill) p)) as Hfill.
  { intros b y j ->. simpl. rewrite pf_fill_out. unfold fill. rewrite lenZ_replicate. done. }
  assert (forall (b : bool) x k, b = false -> when ((0 <? spc) && b) (pf_fill sendfunc spc) (out x k p) = Done tt (out x k p)) as Hnone.
  { intros b y j ->. by rewrite andb_false_r. }
  assert (forall (b : bool) x k, spc = 0 -> when ((0 <? spc) && b) (pf_fill sendfunc spc) (out x k p) = Done tt (out x k p)) as Hnospc.
  { intros b y j ->. done. }
  rewrite <- !andb_assoc.
  destruct (Z.eq_dec spc 0) as [E|E].
  - rewrite (bind_done _ _ _ _ _ (Hnospc _ _ _ E)), (bind_done _ _ _ _ _ (pf_print_out _ _ _ _)),
      (bind_done _ _ _ _ _ (pf_print_out _ _ _ _)), (bind_done _ _ _ _ _ (Hnospc _ _ _ E)),
      (bind_done _ _ _ _ _ (pf_print_out _ _ _ _)), Hnospc by done.
    rewrite (Hz E), app_nil_r. simpl app. rewrite <- !send_app, !app_assoc. do 2 f_equal;
      destruct (rightspc p), (fillchar p =? chr "0"); rewrite ?lenZ_app, ?app_nil_l; done || lia.
  - assert (0 <? spc = true) as Hp by (apply Z.ltb_lt; lia).
    destruct (rightspc p) eqn:Hr; simpl negb; [|destruct (fillchar p =? chr "0") eqn:Hf; simpl negb].
    + rewrite (bind_done _ _ _ _ _ (Hnone _ _ _ eq_refl)), (bind_done _ _ _ _ _ (pf_print_out _ _ _ _)),
        (bind_done _ _ _ _ _ (pf_print_out _ _ _ _)), (bind_done _ _ _ _ _ (Hnone _ _ _ eq_refl)),
        (bind_done _ _ _ _ _ (pf_print_out _ _ _ _)), Hfill by (by rewrite Hp).
      rewrite <- !send_app, !app_assoc. do 2 f_equal. rewrite !lenZ_app. lia.
    + rewrite (bind_done _ _ _ _ _ (Hnone _ _ _ eq_refl)), (bind_done _ _ _ _ _ (pf_print_out _ _ _ _)),
        (bind_done _ _ _ _ _ (pf_print_out _ _ _ _)).
      erewrite bind_done by (apply Hfill; by rewrite Hp).
      rewrite (bind_done _ _ _ _ _ (pf_print_out _ _ _ _)), Hnone by done.
      rewrite <- !send_app, !app_assoc. do 2 f_equal. rewrite !lenZ_app. lia.
    + erewrite bind_done by (apply Hfill; by rewrite Hp).
      rewrite (bind_done _ _ _ _ _ (pf_print_out _ _ _ _)),
        (bind_done _ _ _ _ _ (pf_print_out _ _ _ _)), (bind_done _ _ _ _ _ (Hnone _ _ _ eq_refl)),
        (bind_done _ _ _ _ _ (pf_print_out _ _ _ _)), Hnone by done.
      rewrite <- !send_app, !app_assoc. do 2 f_equal. rewrite !lenZ_app. lia.
Qed.

(** ** Modifiers *)

Lemma strchr_in_elem set c : strchr_in set c = bool_decide (c ∈ set).
Proof.
  unfold strchr_in. induction set as [|x set IH]; simpl; [done|].
  destruct (Z.eqb_spec x c) as [->|Hne].
  - by rewrite bool_decide_true by set_solver.
  - rewrite IH. apply bool_decide_ext. set_solver.
Qed.

Lemma digits_snoc ms c : digits (ms ++ [c]) = digits ms ++ (if digit c then [c] else []).
Proof. unfold digits. by rewrite List.filter_app. Qed.

Lemma width_snoc ms c : width (ms ++ [c]) = if digit c then width ms * 10 + (c - 48) else width ms.
Proof. unfold width. rewrite digits_snoc. destruct (digit c); [|by rewrite app_nil_r]. unfold dec_value. by rewrite foldl_app. Qed.

Lemma zero_pad_snoc ms c :
  zero_pad (ms ++ [c]) = match digits ms with [] => digit c && (c =? chr "0") | _ => zero_pad ms end.
Proof. unfold zero_pad. rewrite digits_snoc. destruct (digits ms), (digit c); done. Qed.

Lemma digits_all ms : Forall (fun c => 48 <= c <= 57) (digits ms).
Proof.
  unfold digits. induction ms as [|c ms IH]; simpl; [constructor|]. unfold digit.
  destruct (Z.leb_spec (chr "0") c), (Z.leb_spec c (chr "9")); simpl; try done. constructor; [|done].
  change (chr "0") with 48 in *. change (chr "9") with 57 in *. lia.
Qed.

Lemma dec_value_grows ds v : Forall (fun c => 48 <= c <= 57) ds -> 0 <= v -> v <= dec_value v ds.
Proof.
  intros Hd. revert v. induction Hd as [|d ds Hd _ IH]; intros v Hv; [unfold dec_value; simpl; lia|].
  change (dec_value v (d :: ds)) with (dec_value (v * 10 + (d - 48)) ds).
  specialize (IH (v * 10 + (d - 48)) ltac:(lia)). lia.
Qed.

Lemma width_nonneg ms : 0 <= width ms.
Proof. apply dec_value_grows; [apply digits_all|lia]. Qed.

Lemma width_snoc_le ms c : width ms <= width (ms ++ [c]).
Proof.
  unfold width. rewrite digits_snoc. unfold dec_value. rewrite foldl_app. fold (dec_value 0 (digits ms)).
  apply (dec_value_grows (if digit c then [c] else [])); [|apply width_nonneg].
  pose proof (digits_all [c]) as Hd. unfold digits in Hd. simpl in Hd. by destruct (digit c).
Qed.

(** No width yet, although there are digits: they are zeros. *)
Lemma width_zero ms : width ms = 0 -> digits ms <> [] -> zero_pad ms = true.
Proof.
  unfold width, zero_pad. pose proof (digits_all ms) as Hd. destruct (digits ms) as [|d ds]; [done|]. intros Hw _.
  apply Forall_cons in Hd as [Hd Hds]. change (dec_value 0 (d :: ds)) with (dec_value (d - 48) ds) in Hw.
  pose proof (dec_value_grows ds (d - 48) Hds ltac:(lia)). change (chr "0") with 48. apply Z.eqb_eq. lia.
Qed.

(** The state within a directive, and between directives. *)
Definition in_dir (x : X) (k : Z) (args : list va) (ms : list Z) : pf :=
  mk_pf x args (cnt k) true (if long_arg ms then LONGSZ else INTSZ) 0 false (width ms) (left_align ms)
    (if zero_pad ms then chr "0" else chr " ") 0 false (alt_form ms).
Definition idle (x : X) (k : Z) (args : list va) : pf :=
  mk_pf x args (cnt k) false INTSZ 0 false 0 false 32 0 false false.

Lemma snoc_elem {A} (a : A) l c : a ∈ l ++ [c] <-> a ∈ l \/ c = a.
Proof. set_solver. Qed.

Lemma flag_snoc (ms : list Z) f c : bool_decide (f ∈ ms ++ [c]) = bool_decide (f ∈ ms) || (c =? f).
Proof.
  destruct (Z.eqb_spec c f) as [->|Hne]; rewrite ?orb_true_r, ?orb_false_r.
  - apply bool_decide_true, snoc_elem. by right.
  - apply bool_decide_ext. rewrite snoc_elem. naive_solver.
Qed.

Lemma long_snoc ms c : long_arg (ms ++ [c]) = long_arg ms || (c =? chr "l") || (c =? chr "q").
Proof.
  unfold long_arg. rewrite !bool_decide_or, !flag_snoc.
  destruct (bool_decide _), (bool_decide _), (c =? chr "l"), (c =? chr "q"); done.
Qed.

Lemma digit_modifier c : c ∈ str "123456789" -> 48 < c <= 57.
Proof. change (str "123456789") with [49; 50; 51; 52; 53; 54; 55; 56; 57]. intros H. rewrite !elem_of_cons in H. set_solver by lia. Qed.

Lemma modifier_step c x k args ms :
  is_mod c = true -> width ms < 2 ^ 31 ->
  pf_modifier c (in_dir x k args ms) =
  if width (ms ++ [c]) <? 2 ^ 31 then Done tt (in_dir x k args (ms ++ [c])) else Undef.
Proof.
  intros Hm Hw. pose proof (width_nonneg ms) as H0.
  unfold is_mod in Hm. apply bool_decide_eq_true in Hm.
  assert (c = chr "#" \/ c = chr "-" \/ c = chr "l" \/ c = chr "q" \/ c = chr "0" \/ 48 < c <= 57) as Hc.
  { change (str "#-ql0123456789") with ([35; 45; 113; 108; 48] ++ str "123456789") in Hm.
    rewrite elem_of_app in Hm. destruct Hm as [Hm|Hm]; [|right; right; right; right; right; by apply digit_modifier].
    rewrite !elem_of_cons, elem_of_nil in Hm. tauto. }
  unfold in_dir, alt_form, left_align. rewrite !flag_snoc, long_snoc, width_snoc, zero_pad_snoc.
  pose proof (width_zero ms) as Hz. unfold pf_modifier. unfold bind at 1, get at 1.
  destruct Hc as [->|[->|[->|[->|[->|Hc]]]]].
  - simpl. destruct (Z.ltb_spec (width ms) (2 ^ 31)); [|lia]. unfold put, set_flags. simpl.
    rewrite !orb_false_r, ?orb_true_r. unfold zero_pad. by destruct (digits ms).
  - simpl. destruct (Z.ltb_spec (width ms) (2 ^ 31)); [|lia]. unfold put, set_flags. simpl.
    rewrite !orb_false_r, ?orb_true_r. unfold zero_pad. by destruct (digits ms).
  - simpl. destruct (Z.ltb_spec (width ms) (2 ^ 31)); [|lia]. unfold put, set_flags. simpl.
    rewrite !orb_false_r, ?orb_true_r. unfold zero_pad. destruct (long_arg ms), (digits ms); done.
  - simpl. destruct (Z.ltb_spec (width ms) (2 ^ 31)); [|lia]. unfold put, set_flags. simpl.
    rewrite !orb_false_r, ?orb_true_r. unfold zero_pad. destruct (digits ms); done.
  - simpl. change (chr "0" - 48) with 0. rewrite !orb_false_r.
    destruct (Z.ltb_spec 0 (width ms)) as [Hp|Hp].
    + unfold int_of. case_bool_decide as Hb.
      * destruct (Z.ltb_spec (width ms * 10 + 0) (2 ^ 31)); [|lia]. unfold bind, ret, put, set_flags. simpl.
        rewrite Z.add_0_r. do 2 f_equal. unfold zero_pad. destruct (digits ms) eqn:Hd; [|done].
        exfalso. unfold width in Hp. rewrite Hd in Hp. unfold dec_value in Hp. simpl in Hp. lia.
      * destruct (Z.ltb_spec (width ms * 10 + 0) (2 ^ 31)); [lia|]. done.
    + assert (width ms = 0) as E by lia. rewrite E. change (0 * 10 + 0 <? 2 ^ 31) with true. cbv iota.
      unfold put, set_flags. simpl. do 2 f_equal.
      destruct (digits ms) eqn:Hd; [done|]. by rewrite Hz.
  - assert (digit c = true) as Hdg.
    { unfold digit. change (chr "0") with 48. change (chr "9") with 57. apply andb_true_iff. lia. }
    rewrite Hdg. change (chr "#") with 35. change (chr "-") with 45. change (chr "l") with 108. change (chr "q") with 113.
    change (chr "0") with 48. change (chr "9") with 57.
    destruct (Z.eqb_spec c 35), (Z.eqb_spec c 45), (Z.eqb_spec c 108), (Z.eqb_spec c 113), (Z.eqb_spec c 48); try lia.
    rewrite !orb_false_r. change (spacing _) with (width ms).
    assert ((48 <? c) && (c <=? 57) = true) as -> by (apply andb_true_iff; lia). unfold bind at 1. simpl assert_. unfold ret at 1.
    unfold int_of. case_bool_decide as Hb.
    + unfold bind at 1, ret at 1. case_bool_decide as Hb2.
      * destruct (Z.ltb_spec (width ms * 10 + (c - 48)) (2 ^ 31)); [|lia]. unfold bind, ret, put, set_flags. simpl.
        do 2 f_equal. unfold zero_pad. destruct (digits ms) eqn:Hd; [|done]. done.
      * destruct (Z.ltb_spec (width ms * 10 + (c - 48)) (2 ^ 31)); [lia|]. done.
    + destruct (Z.ltb_spec (width ms * 10 + (c - 48)) (2 ^ 31)); [lia|]. done.
Qed.

(** ** Directives *)

Lemma field_pad x k args ms prefix text num neg base bp :
  field (mk_pf x args (cnt k) true (if long_arg ms then LONGSZ else INTSZ) num neg (width ms) (left_align ms)
    (if zero_pad ms then chr "0" else chr " ") base bp (alt_form ms)) prefix text = pad ms prefix text.
Proof. unfold field, pad. simpl. by destruct (zero_pad ms). Qed.

Lemma endfield_out x k (p : pf) : pf_endfield (out x k p) = Done tt (idle x k (ap p)).
Proof. done. Qed.

Lemma numeral_short base n : lenZ (numeral_of base n) <= 32.
Proof.
  unfold numeral_of, lenZ. rewrite length_map. pose proof (numeral_digits_short 32 base n). lia.
Qed.

(** Printing the number that [pf_getnum] and [pf_setbase] have left. *)
Lemma printnum_out x k args ms num (neg : bool) base (bp : bool) (pre : list Z) :
  base_ok base -> is_u32 num -> width ms < 2 ^ 31 ->
  pre = (if neg then str "-" else []) ++ (if bp && (base =? 16) then str "0x" else if bp && (base =? 8) then str "0" else []) ->
  let p := mk_pf x args (cnt k) true (if long_arg ms then LONGSZ else INTSZ) num neg (width ms) (left_align ms)
    (if zero_pad ms then chr "0" else chr " ") base bp (alt_form ms) in
  pf_printnum sendfunc p =
  Done tt (out (sendfunc (pad ms pre (numeral_of base num)) x) (k + lenZ (pad ms pre (numeral_of base num))) p).
Proof.
  intros Hb Hn Hw Hpre p. unfold pf_printnum. unfold bind at 1, get at 1. change (pf_base p) with base.
  change (pf_num p) with num. change (baseprefix p) with bp. change (sign p) with neg.
  destruct (Z.eqb_spec base 0); [destruct Hb as [->|[->| ->]]; done|].
  rewrite (bind_done _ _ _ (numeral_of base num) p) by (rewrite print_num_fits by done; done).
  pose proof (width_nonneg ms). pose proof (numeral_short base num).
  change p with (out x k p) at 1. rewrite printstuff_out.
  - rewrite <- Hpre. unfold p. by rewrite field_pad.
  - unfold is_s32. simpl. lia.
  - assert (forall b : bool, lenZ (if b then str "-" else []) <= 1) by (intros []; done).
    assert (lenZ (if bp && (base =? 16) then str "0x" else if bp && (base =? 8) then str "0" else []) <= 2).
    { by destruct (bp && (base =? 16)), (bp && (base =? 8)). }
    specialize (H1 neg). lia.
Qed.

Definition num_state (x : X) (k : Z) (args : list va) (ms : list Z) (num : Z) (neg : bool) (base : Z) (bp : bool) : pf :=
  mk_pf x args (cnt k) true (if long_arg ms then LONGSZ else INTSZ) num neg (width ms) (left_align ms)
    (if zero_pad ms then chr "0" else chr " ") base bp (alt_form ms).

(** What [pf_getnum] takes. *)
Definition taken (ms : list Z) (ty : Z) (a : va) : option (Z * bool) :=
  if ty =? chr "p" then z ← as_ptr a; Some (u32 z, false)
  else
    z ← (if long_arg ms then as_long a else as_int a);
    if ty =? chr "d" then
      if s32 z =? - 2 ^ 31 then None else Some (Z.abs (s32 z), s32 z <? 0)
    else Some (u32 z, false).

Lemma getnum_step x k a rest ms ty :
  pf_getnum ty (in_dir x k (a :: rest) ms) =
  match taken ms ty a with Some (n, neg) => Done tt (num_state x k rest ms n neg 0 false) | None => Undef end.
Proof.
  unfold pf_getnum, taken. unfold bind at 1, get at 1. change (sign (in_dir _ _ _ _)) with false.
  change (size (in_dir x k (a :: rest) ms)) with (if long_arg ms then LONGSZ else INTSZ).
  assert (forall A B (f : va -> option A) (g : A -> M pf B), bind (take_arg f) g (in_dir x k (a :: rest) ms) =
    match f a with Some v => g v (in_dir x k rest ms) | None => Undef end) as Ht.
  { intros A B f g. unfold take_arg, bind, get. simpl. by destruct (f a). }
  assert (forall n neg, is_u32 n -> set_num n neg (in_dir x k rest ms) = Done tt (num_state x k rest ms n neg 0 false)) as Hset.
  { intros n neg Hn. unfold set_num, in_dir, num_state. simpl_m. by rewrite u32_id. }
  assert (forall z neg, set_num z neg (in_dir x k rest ms) = Done tt (num_state x k rest ms (u32 z) neg 0 false)) as Hset' by done.
  destruct (ty =? chr "p"); [rewrite Ht; by destruct (as_ptr a)|].
  assert ((match (if long_arg ms then LONGSZ else INTSZ) with INTSZ => as_int | LONGSZ => as_long end) =
    if long_arg ms then as_long else as_int) as -> by (by destruct (long_arg ms)).
  assert ((if long_arg ms then as_long a else as_int a) = (if long_arg ms then as_long else as_int) a) as -> by (by destruct (long_arg ms)).
  destruct (ty =? chr "d"); rewrite Ht; destruct ((if long_arg ms then as_long else as_int) a) as [z|]; simpl; try done.
  pose proof (s32_range z) as Hr. unfold is_s32 in Hr. destruct (Z.eqb_spec (s32 z) (- 2 ^ 31)) as [E|E].
  - rewrite E. done.
  - destruct (Z.ltb_spec (s32 z) 0) as [Hneg|Hneg].
    + unfold int_of. rewrite bool_decide_true by lia. unfold bind, ret. rewrite Hset by (unfold is_u32; lia).
      by rewrite Z.abs_neq by lia.
    + rewrite Hset by (unfold is_u32; lia). by rewrite Z.abs_eq by lia.
Qed.

Definition base_of (ty : Z) : Z :=
  if (ty =? chr "d") || (ty =? chr "u") then 10 else if (ty =? chr "x") || (ty =? chr "p") then 16 else if ty =? chr "o" then 8 else 0.

Lemma setbase_step x k rest ms ty n neg :
  pf_setbase ty (num_state x k rest ms n neg 0 false) =
  Done tt (num_state x k rest ms n neg (base_of ty) (alt_form ms || (ty =? chr "p"))).
Proof. unfold pf_setbase, num_state. simpl_m. unfold base_of. by destruct (alt_form ms || (ty =? chr "p")). Qed.

Lemma int_type_cases ty : is_int_type ty = true -> ty = chr "d" \/ ty = chr "o" \/ ty = chr "u" \/ ty = chr "p" \/ ty = chr "x".
Proof.
  unfold is_int_type. intros H%bool_decide_eq_true. change (str "doupx") with [chr "d"; chr "o"; chr "u"; chr "p"; chr "x"] in H.
  rewrite !elem_of_cons, elem_of_nil in H. tauto.
Qed.

(** [number] is what is taken, printed in its base. *)
Lemma number_taken ms ty a : is_int_type ty = true ->
  number ms ty a = match taken ms ty a with
    | Some (n, neg) =>
        Some ((if neg then str "-" else []) ++
              (if (alt_form ms || (ty =? chr "p")) && (base_of ty =? 16) then str "0x"
               else if (alt_form ms || (ty =? chr "p")) && (base_of ty =? 8) then str "0" else []),
              numeral_of (base_of ty) n)
    | None => None end.
Proof.
  intros Hty. unfold number, taken.
  destruct (int_type_cases ty Hty) as [->|[->|[->|[->| ->]]]]; simpl.
  - destruct (if long_arg ms then as_long a else as_int a) as [z|]; simpl; [|done].
    destruct (s32 z =? - 2 ^ 31); simpl; [done|]. by destruct (alt_form ms), (s32 z <? 0).
  - destruct (if long_arg ms then as_long a else as_int a) as [z|]; simpl; [|done]. by destruct (alt_form ms).
  - destruct (if long_arg ms then as_long a else as_int a) as [z|]; simpl; [|done]. by destruct (alt_form ms).
  - destruct (as_ptr a) as [z|]; simpl; [|done]. by destruct (alt_form ms).
  - destruct (if long_arg ms then as_long a else as_int a) as [z|]; simpl; [|done]. by destruct (alt_form ms).
Qed.

Lemma taken_u32 ms ty a n neg : taken ms ty a = Some (n, neg) -> is_u32 n.
Proof.
  unfold taken. destruct (ty =? chr "p").
  - destruct (as_ptr a); simpl; [|done]. intros [= <- _]. apply u32_range.
  - destruct (if long_arg ms then as_long a else as_int a) as [z|]; simpl; [|done]. destruct (ty =? chr "d").
    + pose proof (s32_range z) as Hr. unfold is_s32 in Hr. destruct (Z.eqb_spec (s32 z) (- 2 ^ 31)); [done|].
      intros [= <- _]. unfold is_u32. lia.
    + intros [= <- _]. apply u32_range.
Qed.

Definition va_short (a : va) : Prop := match a with va_str (Some s) => lenZ s < 2 ^ 31 | _ => True end.

(** The text of the directive was sent. *)
Definition field_sent (x : X) (k : Z) (r : option (list Z * list va)) : outcome pf unit :=
  match r with
  | Some (txt, rest) => Done tt (idle (sendfunc txt x) (k + lenZ txt) rest)
  | None => Undef
  end.

Lemma number_step x k a rest ms ty :
  is_int_type ty = true -> width ms < 2 ^ 31 ->
  (do! pf_getnum ty in do! pf_setbase ty in do! pf_printnum sendfunc in pf_endfield) (in_dir x k (a :: rest) ms) =
  field_sent x k (r ← number ms ty a; Some (pad ms r.1 r.2, rest)).
Proof.
  intros Hty Hw. rewrite number_taken by done. unfold bind at 1. rewrite getnum_step.
  destruct (taken ms ty a) as [[n neg]|] eqn:Ht; [|done]. rewrite (bind_done _ _ _ _ _ (setbase_step _ _ _ _ _ _ _)).
  assert (base_ok (base_of ty)) as Hb.
  { unfold base_ok. destruct (int_type_cases ty Hty) as [->|[->|[->|[->| ->]]]]; vm_compute; tauto. }
  rewrite (bind_done _ _ _ _ _ (printnum_out x k rest ms n neg (base_of ty) (alt_form ms || (ty =? chr "p")) _ Hb
    (taken_u32 _ _ _ _ _ Ht) Hw eq_refl)). by rewrite endfield_out.
Qed.

Lemma stuff_step x k rest ms txt :
  width ms < 2 ^ 31 -> lenZ txt < 2 ^ 31 ->
  (do! pf_printstuff sendfunc [] [] txt in pf_endfield) (in_dir x k rest ms) =
  field_sent x k (Some (pad ms [] txt, rest)).
Proof.
  intros Hw Hl. pose proof (width_nonneg ms). change (in_dir x k rest ms) with (out x k (in_dir x k rest ms)) at 1.
  rewrite (bind_done _ _ _ _ _ (printstuff_out [] [] txt x k (in_dir x k rest ms) ltac:(unfold is_s32; simpl; lia)
    ltac:(unfold lenZ in *; simpl; lia))).
  rewrite endfield_out. unfold in_dir at 1 2. by rewrite field_pad.
Qed.

Lemma take_arg_cons {A B} (f : va -> option A) (g : A -> M pf B) x k a rest ms :
  bind (take_arg f) g (in_dir x k (a :: rest) ms) = match f a with Some v => g v (in_dir x k rest ms) | None => Undef end.
Proof. unfold take_arg, bind, get. simpl. by destruct (f a). Qed.

Lemma directive_step x k args ms ty :
  is_mod ty = false -> ty <> 0 -> width ms < 2 ^ 31 -> Forall va_short args ->
  pf_send sendfunc ty (in_dir x k args ms) = field_sent x k (directive ms ty args).
Proof.
  intros Hm H0 Hw Hs. unfold pf_send. rewrite (proj2 (Z.eqb_neq ty 0) H0). unfold bind at 1. simpl assert_. unfold ret at 1.
  unfold bind at 1, get at 1. simpl in_pct. simpl. rewrite !strchr_in_elem. fold (is_mod ty). fold (is_int_type ty). rewrite Hm.
  unfold directive. destruct (is_int_type ty) eqn:Hty; simpl.
  - destruct args as [|a rest]; [|by apply number_step].
    unfold pf_getnum, bind at 1. unfold bind at 1, get at 1. unfold take_arg.
    destruct (ty =? chr "p"), (ty =? chr "d"); done.
  - destruct (Z.eqb_spec ty (chr "s")) as [->|Hns]; simpl.
    + destruct args as [|a rest]; [done|]. rewrite take_arg_cons. unfold text_of. simpl.
      apply Forall_cons in Hs as [Ha _]. destruct a as [| | |[s|]]; simpl; try done.
      * by apply stuff_step.
      * by apply (stuff_step x k rest ms (str "(null)")).
    + destruct (Z.eqb_spec ty (chr "c")) as [->|Hnc]; simpl.
      * destruct args as [|a rest]; [done|].
        assert (forall (m : Z -> M pf unit), (let! c := (let! z := take_arg as_int in ret (u8 z)) in m c) (in_dir x k (a :: rest) ms) =
          match as_int a with Some z => m (u8 z) (in_dir x k rest ms) | None => Undef end) as Hta.
        { intros m. unfold take_arg, bind, get. simpl. by destruct (as_int a). }
        rewrite Hta. unfold text_of. simpl. destruct (as_int a) as [z|]; simpl; [|done].
        apply (stuff_step x k rest ms (c_string [u8 z; 0])); [done|]. simpl. by destruct (u8 z =? 0).
      * unfold bind at 1, ret at 1. simpl. rewrite (proj2 (Z.eqb_neq ty 0) H0). by apply (stuff_step x k args ms [ty]).
Qed.

(** ** Whole formats *)

Definition state_of (st : option (list Z)) (x : X) (k : Z) (args : list va) : pf :=
  match st with None => idle x k args | Some ms => in_dir x k args ms end.
Definition st_ok (st : option (list Z)) : Prop := match st with None => True | Some ms => width ms < 2 ^ 31 end.

(** Too wide already: no text. *)
Lemma render_wide fmt ms args : 2 ^ 31 <= width ms -> render (pieces (Some ms) fmt) args = None.
Proof.
  revert ms. induction fmt as [|c fmt IH]; intros ms Hw; simpl.
  - destruct (Z.ltb_spec (width ms) (2 ^ 31)); [lia|done].
  - destruct (is_mod c).
    + apply IH. pose proof (width_snoc_le ms c). lia.
    + simpl. destruct (Z.ltb_spec (width ms) (2 ^ 31)); [lia|done].
Qed.

Lemma directive_short ms ty args txt rest : directive ms ty args = Some (txt, rest) -> Forall va_short args -> Forall va_short rest.
Proof.
  unfold directive. intros Hd Hs. destruct (negb _ && _ && _); [by simplify_eq/=|]. destruct args as [|a args]; [done|].
  apply Forall_cons in Hs as [_ Hs]. destruct (is_int_type ty).
  - destruct (number ms ty a); simpl in Hd; by simplify_eq.
  - destruct (text_of ty a); simpl in Hd; by simplify_eq.
Qed.

Lemma send_all_render fmt st x k args :
  Forall (fun c => c <> 0) fmt -> st_ok st -> Forall va_short args ->
  match render (pieces st fmt) args with
  | Some txt => exists p, send_all sendfunc fmt (state_of st x k args) = Done tt p /\
      clientdata p = sendfunc txt x /\ charcount p = cnt (k + lenZ txt)
  | None => send_all sendfunc fmt (state_of st x k args) = Undef
  end.
Proof.
  revert st x k args. induction fmt as [|c fmt IH]; intros st x k args Hz Hst Hs.
  - destruct st as [ms|]; simpl in *.
    + destruct (Z.ltb_spec (width ms) (2 ^ 31)); [|lia]. eexists. split; [done|]. simpl. by rewrite send_nil, Z.add_0_r.
    + eexists. split; [done|]. simpl. by rewrite send_nil, Z.add_0_r.
  - apply Forall_cons in Hz as [Hc Hz]. destruct st as [ms|]; simpl in Hst |- *.
    + destruct (is_mod c) eqn:Hm.
      * assert (pf_send sendfunc c (in_dir x k args ms) = pf_modifier c (in_dir x k args ms)) as Hsend.
        { unfold pf_send. rewrite (proj2 (Z.eqb_neq c 0) Hc). unfold bind at 1. simpl assert_. unfold ret at 1.
          unfold bind at 1, get at 1. simpl. rewrite strchr_in_elem. fold (is_mod c). by rewrite Hm. }
        rewrite modifier_step in Hsend by done.
        destruct (Z.ltb_spec (width (ms ++ [c])) (2 ^ 31)) as [Hw|Hw].
        -- rewrite (bind_done _ _ _ _ _ Hsend). exact (IH (Some (ms ++ [c])) x k args Hz Hw Hs).
        -- rewrite render_wide by done. by rewrite bind_undef.
      * pose proof (directive_step x k args ms c Hm Hc Hst Hs) as Hsend. simpl. destruct (Z.ltb_spec (width ms) (2 ^ 31)); [|lia].
        destruct (directive ms c args) as [[txt rest]|] eqn:Hd; simpl in *; [|by rewrite bind_undef].
        rewrite (bind_done _ _ _ _ _ Hsend).
        specialize (IH None (sendfunc txt x) (k + lenZ txt) rest Hz I (directive_short _ _ _ _ _ Hd Hs)). simpl in IH.
        destruct (render (pieces None fmt) rest) as [txt2|]; simpl; [|done]. destruct IH as (p & Hrun & Hp & Hk).
        exists p. split; [done|]. by rewrite send_app, lenZ_app, Z.add_assoc.
    + destruct (Z.eqb_spec c (chr "%")) as [->|Hne].
      * assert (pf_send sendfunc (chr "%") (idle x k args) = Done tt (in_dir x k args [])) as Hsend by done.
        rewrite (bind_done _ _ _ _ _ Hsend). exact (IH (Some []) x k args Hz ltac:(done) Hs).
      * assert (pf_send sendfunc c (idle x k args) = Done tt (idle (sendfunc [c] x) (k + 1) args)) as Hsend.
        { unfold pf_send. rewrite (proj2 (Z.eqb_neq c 0) Hc). unfold bind at 1. simpl assert_. unfold ret at 1.
          unfold bind at 1, get at 1. simpl. rewrite (proj2 (Z.eqb_neq c (chr "%")) Hne). simpl.
          change (idle x k args) with (out x k (idle x k args)) at 1. by rewrite pf_print_out. }
        rewrite (bind_done _ _ _ _ _ Hsend). specialize (IH None (sendfunc [c] x) (k + 1) args Hz I Hs). simpl in IH |- *.
        destruct (render (pieces None fmt) args) as [txt2|]; simpl; [|done]. destruct IH as (p & Hrun & Hp & Hk).
        exists p. split; [done|]. change (c :: txt2) with ([c] ++ txt2). rewrite send_app, lenZ_app, Z.add_assoc. done.
Qed.

Lemma vprintf_render fmt args x :
  Forall (fun c => c <> 0) fmt -> Forall va_short args ->
  vprintf sendfunc fmt args x =
  match formatted fmt args with Some txt => Done (cnt (lenZ txt)) (sendfunc txt x) | None => Undef end.
Proof.
  intros Hz Hs. pose proof (send_all_render fmt None x 0 args Hz I Hs) as Hr. unfold formatted. simpl in Hr.
  unfold vprintf, zoom. rewrite (bind_done _ _ _ tt (idle x 0 args)) by done.
  destruct (render (pieces None fmt) args) as [txt|].
  - destruct Hr as (p & Hrun & Hp & Hk). rewrite (bind_done _ _ _ _ _ Hrun). unfold bind, get, ret. by rewrite Hp, Hk.
  - unfold bind. by rewrite Hr.
Qed.
End steps.

(** ** snprintf *)

Lemma setZ_app_length {A} (l r : list A) x y : setZ (l ++ x :: r) (lenZ l) y = l ++ y :: r.
Proof.
  unfold setZ, lenZ. rewrite decide_True by lia. rewrite Nat2Z.id.
  rewrite insert_app_r_alt by lia. by rewrite Nat.sub_diag.
Qed.

Lemma nthZ_app_length {A} (l r : list A) x : nthZ (l ++ x :: r) (lenZ l) = Some x.
Proof. unfold lenZ. rewrite nthZ_to_nat by lia. rewrite Nat2Z.id. by rewrite list_lookup_middle. Qed.

Lemma snprintf_send_run data done rest buflen bad :
  lenZ done <= buflen <= lenZ done + lenZ rest -> is_u32 buflen ->
  snprintf_send data (mk_snp (done ++ rest) buflen (lenZ done) bad) =
  let w := take (Z.to_nat (buflen - lenZ done)) data in
  mk_snp (done ++ w ++ drop (length w) rest) buflen (lenZ done + lenZ w) bad.
Proof.
  intros Hb Hu. unfold is_u32 in Hu. revert done rest Hb. induction data as [|c data IH]; intros done rest Hb.
  - simpl. rewrite take_nil. simpl. by rewrite drop_0, Z.add_0_r.
  - change (snprintf_send (c :: data) ?s) with (snprintf_send data (snprintf_send1 c s)).
    unfold snprintf_send1. simpl snp_bufpos. simpl snp_buflen. pose proof (lenZ_nonneg done).
    destruct (Z.ltb_spec (lenZ done) buflen) as [Hlt|Hge].
    + destruct rest as [|y rest]; [unfold lenZ in *; simpl in *; lia|]. simpl snp_buf.
      rewrite nthZ_app_length, setZ_app_length, u32_id by (unfold is_u32; lia).
      replace (done ++ c :: rest) with ((done ++ [c]) ++ rest) by (by rewrite <- app_assoc).
      assert (lenZ (done ++ [c]) = lenZ done + 1) as E by (rewrite lenZ_app; done).
      assert (lenZ (y :: rest) = lenZ rest + 1) as E2 by (unfold lenZ; simpl; lia).
      rewrite <- E, IH by lia. cbv zeta. rewrite E.
      replace (Z.to_nat (buflen - lenZ done)) with (S (Z.to_nat (buflen - (lenZ done + 1)))) by lia.
      set (w := take (Z.to_nat (buflen - (lenZ done + 1))) data). simpl take. fold w. rewrite <- !app_assoc. simpl.
      f_equal. unfold lenZ. simpl. lia.
    + replace (Z.to_nat (buflen - lenZ done)) with 0%nat by lia. simpl. rewrite drop_0, Z.add_0_r.
      clear IH. assert (buflen = lenZ done) as -> by lia. induction data as [|d data IH]; [done|].
      change (snprintf_send (d :: data) ?s) with (snprintf_send data (snprintf_send1 d s)).
      unfold snprintf_send1. simpl. by rewrite Z.ltb_irrefl.
Qed.

(** The buffer after [len] bytes at most, the NUL included, have been printed to it. *)
Definition printed_to (buf : list Z) (len : Z) (txt : list Z) : list Z :=
  if len =? 0 then buf
  else let w := take (Z.to_nat (len - 1)) txt in w ++ [0] ++ drop (S (length w)) buf.

Lemma vsnprintf_run len fmt args buf :
  Forall (fun c => c <> 0) fmt -> Forall va_short args -> is_u32 len -> len <= lenZ buf ->
  vsnprintf len fmt args buf =
  match formatted fmt args with Some txt => Done (cnt (lenZ txt)) (printed_to buf len txt) | None => Undef end.
Proof.
  intros Hz Hs Hu Hl. unfold is_u32 in Hu. unfold vsnprintf. unfold bind at 1, get at 1.
  rewrite vprintf_render; [|done|intros a b x; apply fold_left_app|done|done].
  destruct (formatted fmt args) as [txt|]; [|done]. unfold printed_to. destruct (Z.eqb_spec len 0) as [->|Hne].
  - pose proof (snprintf_send_run txt [] buf 0 false ltac:(unfold lenZ in *; simpl; lia) ltac:(unfold is_u32; lia)) as Hr.
    simpl in Hr. change (lenZ (@nil Z)) with 0 in Hr. by rewrite Hr.
  - pose proof (snprintf_send_run txt [] buf (len - 1) false ltac:(unfold lenZ in *; simpl; lia) ltac:(unfold is_u32; lia)) as Hr.
    change (lenZ (@nil Z)) with 0 in Hr. rewrite Z.sub_0_r in Hr. simpl app in Hr. rewrite Hr. cbv zeta. simpl snp_bad. cbv iota.
    destruct (Z.ltb_spec 0 len); [|lia]. simpl snp_buf. simpl snp_bufpos. set (w := take (Z.to_nat (len - 1)) txt).
    assert (length w < length buf)%nat as Hlw by (unfold w, lenZ in *; rewrite length_take; lia).
    destruct (drop (length w) buf) as [|y rest] eqn:Hd; [apply (f_equal length) in Hd; rewrite length_drop in Hd; simpl in Hd; lia|].
    change (0 + lenZ w) with (lenZ w). rewrite nthZ_app_length, setZ_app_length. do 2 f_equal. simpl. f_equal.
    replace (S (length w)) with (length w + 1)%nat by lia. by rewrite <- drop_drop, Hd.
Qed.

(** ** Decimal numerals read back *)

Lemma decimal_char d : 0 <= d < 10 -> digit_char d = 48 + d.
Proof.
  intros Hd. assert (d = 0 \/ d = 1 \/ d = 2 \/ d = 3 \/ d = 4 \/ d = 5 \/ d = 6 \/ d = 7 \/ d = 8 \/ d = 9) as Hc by lia.
  destruct Hc as [->|[->|[->|[->|[->|[->|[->|[->|[->| ->]]]]]]]]]; reflexivity.
Qed.

Lemma decimal_value f n : 0 <= n < 10 ^ Z.of_nat f -> (0 < f)%nat ->
  dec_value 0 (map digit_char (numeral_digits f 10 n)) = n.
Proof.
  revert n. induction f as [|f IH]; intros n Hn Hf; [lia|]. simpl. destruct (Z.ltb_spec n 10) as [Hlt|Hge].
  - simpl. rewrite decimal_char by lia. unfold dec_value. simpl. lia.
  - rewrite map_app. unfold dec_value. rewrite foldl_app. fold (dec_value 0 (map digit_char (numeral_digits f 10 (n / 10)))).
    rewrite Nat2Z.inj_succ, Z.pow_succ_r in Hn by lia. rewrite IH.
    + simpl. rewrite decimal_char by (apply Z.mod_pos_bound; lia). pose proof (Z.div_mod n 10). lia.
    + split; [apply Z.div_pos; lia|apply Z.div_lt_upper_bound; lia].
    + destruct f; [simpl in Hn; lia|lia].
Qed.

Lemma decimal_digits n : 0 <= n < 2 ^ 32 ->
  dec_value 0 (numeral_of 10 n) = n /\ Forall is_digit (numeral_of 10 n) /\ numeral_of 10 n <> [].
Proof.
  intros Hn. assert (n < 10 ^ Z.of_nat 32) as H32 by (assert (2 ^ 32 <= 10 ^ Z.of_nat 32) by (vm_compute; discriminate); lia).
  split; [apply decimal_value; lia|].
  destruct (numeral_digits_ok 10 32 n ltac:(unfold base_ok; tauto) ltac:(lia) ltac:(lia)) as [Hd Hne]. split.
  - unfold numeral_of. apply Forall_map. eapply Forall_impl; [exact Hd|]. intros d Hdd. cbv beta in *. rewrite decimal_char by done.
    unfold is_digit. lia.
  - unfold numeral_of. by destruct (numeral_digits 32 10 n).
Qed.

Lemma decimal_short n : 0 <= n < 2 ^ 32 -> 1 <= lenZ (numeral_of 10 n) <= 10.
Proof.
  intros Hn. destruct (decimal_digits n Hn) as (_ & _ & Hne). split.
  - unfold lenZ. destruct (numeral_of 10 n); [done|]. cbn [length]. lia.
  - assert (10 ^ Z.of_nat 10 = 10000000000) as E by reflexivity.
    assert (2 ^ 32 <= 10 ^ Z.of_nat 32) by (vm_compute; discriminate).
    unfold numeral_of, lenZ. rewrite length_map, (numeral_fuel 10 32 10); [|unfold base_ok; tauto|lia|lia|lia|lia].
    pose proof (numeral_digits_short 10 10 n). lia.
Qed.

Lemma formatted_decimal z : - 2 ^ 31 < z < 2 ^ 31 ->
  formatted (str "%d") [va_int z] = Some ((if z <? 0 then str "-" else []) ++ numeral_of 10 (Z.abs z)).
Proof.
  intros Hz. unfold formatted. change (pieces None (str "%d")) with [Dir [] (chr "d")].
  change (render [Dir [] (chr "d")] [va_int z]) with
    (match directive [] (chr "d") [va_int z] with Some r => Some (r.1 ++ []) | None => None end).
  unfold directive. simpl. unfold number. simpl. rewrite s32_id by (unfold is_s32; lia).
  destruct (Z.eqb_spec z (- 2 ^ 31)); [lia|]. simpl. rewrite app_nil_r. unfold pad.
  change (width []) with 0. change (left_align []) with false. change (zero_pad []) with false. cbv iota.
  rewrite Z2Nat.nonpos; [done|]. match goal with |- 0 - lenZ ?l <= 0 => pose proof (lenZ_nonneg l) end. lia.
Qed.

(** ** Properties *)


Definition demo_format : list Z := str "%-05d|%#x|%3s|".
Definition demo_args : list va := [va_int 42; va_int 255; va_str (Some (str "ab"))].

Lemma demo_format_ok : Forall (fun c => c <> 0) demo_format /\ Forall va_short demo_args.
Proof. split; [apply (bool_decide_eq_true_1 (Forall (fun c => c <> 0) demo_format)); vm_compute; reflexivity|]. repeat constructor. Qed.


(** [snprintf] stays in its buffer: it stores the first [len - 1] characters of the
    text and a NUL after them, nothing when [len] is 0, and leaves the rest of the
    buffer; it returns the length of the whole text. *)
Theorem snprintf_truncates (len : Z) (fmt : list Z) (args : list va) (buf txt : list Z) :
  Forall (fun c => c <> 0) fmt -> Forall va_short args -> is_u32 len -> len <= lenZ buf ->
  formatted fmt args = Some txt ->
  exists buf', snprintf len fmt args buf = Done (s32 (u32 (lenZ txt))) buf' /\ lenZ buf' = lenZ buf /\
  (forall i, len <= i -> nthZ buf' i = nthZ buf i) /\
  (0 < len -> exists rest, buf' = take (Z.to_nat (len - 1)) txt ++ [0] ++ rest).
Proof.
  intros Hz Hs Hu Hl Hf. unfold snprintf. rewrite vsnprintf_run, Hf by done. eexists. split; [reflexivity|].
  unfold is_u32 in Hu. unfold printed_to. destruct (Z.eqb_spec len 0) as [->|Hne]; [split; [done|]; split; [done|lia]|].
  set (w := take (Z.to_nat (len - 1)) txt).
  assert (length w <= Z.to_nat (len - 1))%nat as Hw by (unfold w; rewrite length_take; lia).
  split; [unfold lenZ in *; rewrite !length_app, length_drop; simpl; lia|]. split; [|intros _; by eexists].
  intros i Hi. rewrite !nthZ_to_nat by lia. rewrite lookup_app_r by lia. simpl.
  destruct (Z.to_nat i - length w)%nat as [|k] eqn:Hk; [lia|]. simpl. rewrite lookup_drop. f_equal. lia.
Qed.

Lemma snprintf_truncates_witness :
  exists buf', snprintf 6 demo_format demo_args (replicate 8 1) = Done 15 buf' /\ lenZ buf' = 8 /\
  exists rest, buf' = str "42000" ++ [0] ++ rest.
Proof.
  destruct (snprintf_truncates 6 demo_format demo_args (replicate 8 1) (str "42000|0xff| ab|")) as (b & Hr & Hl & _ & Hb);
    [apply demo_format_ok|apply demo_format_ok|unfold is_u32; lia|discriminate|reflexivity|].
  exists b. split; [exact Hr|]. split; [exact Hl|]. apply Hb. lia.
Defined.

(** C29. Printing and reading an int: what [snprintf] prints for %d into a buffer of 12
    bytes or more, [atoi] reads back as the same number (the least int apart, which
    printf negates). *)
Theorem snprintf_then_atoi (z len : Z) (buf : list Z) (m : mem) (a : Z) :
  - 2 ^ 31 < z < 2 ^ 31 -> 12 <= len < 2 ^ 32 -> len <= lenZ buf ->
  exists n buf', snprintf len (str "%d") [va_int z] buf = Done n buf' /\
  (bytes_at m a (take (Z.to_nat (n + 1)) buf') -> atoi a m = Done (inr z) m).
Proof.
  intros Hz Hl Hb. destruct (decimal_digits (Z.abs z)) as (Hv & Hd & Hne); [lia|].
  pose proof (formatted_decimal z Hz) as Hf.
  set (txt := (if z <? 0 then str "-" else []) ++ numeral_of 10 (Z.abs z)) in *.
  assert (1 <= lenZ txt <= 11) as Ht.
  { destruct (decimal_short (Z.abs z)) as [H1 H2]; [lia|]. unfold txt. rewrite lenZ_app.
    destruct (z <? 0); [change (lenZ (str "-")) with 1|change (lenZ []) with 0]; lia. }
  exists (lenZ txt). eexists. split.
  { unfold snprintf. rewrite vsnprintf_run; [rewrite Hf|repeat (constructor; [discriminate|]); constructor|repeat constructor|unfold is_u32; lia|done].
    unfold cnt. rewrite u32_id by (unfold is_u32; lia). by rewrite s32_id by (unfold is_s32; lia). }
  unfold printed_to. destruct (Z.eqb_spec len 0); [lia|]. rewrite (firstn_all2 txt) by (unfold lenZ in *; lia).
  replace (Z.to_nat (lenZ txt + 1)) with (length txt + 1)%nat by (unfold lenZ; lia).
  rewrite take_app_add. simpl take. rewrite take_0. intros Hby.
  assert (cstr m a (numeral [] (z <? 0) (numeral_of 10 (Z.abs z)) [])) as Hc.
  { unfold numeral. rewrite app_nil_r. simpl app. split; [|exact Hby].
    unfold nonzero_bytes. apply Forall_app. split.
    - destruct (z <? 0); [constructor; [unfold is_u8; lia|constructor]|constructor].
    - eapply Forall_impl; [exact Hd|]. unfold is_digit, is_u8. simpl. lia. }
  rewrite (atoi_correct m a [] (z <? 0) (numeral_of 10 (Z.abs z)) [] ltac:(constructor) Hd Hne ltac:(simpl; tauto) Hc).
  rewrite Hv, s32_id by (unfold is_s32; destruct (z <? 0); lia). do 2 f_equal. destruct (Z.ltb_spec z 0); lia.
Qed.

Lemma done_inj {S A} (a b : A) (s t : S) : Done a s = Done b t -> a = b /\ s = t.
Proof. by intros [= -> ->]. Qed.

Definition demo_printed : mem := list_to_map (imap (fun i b => (100 + Z.of_nat i, b)) (str "-2147483647" ++ [0])).

Lemma snprintf_then_atoi_witness :
  exists n buf', snprintf 12 (str "%d") [va_int (-2147483647)] (replicate 12 1) = Done n buf' /\
  atoi 100 demo_printed = Done (inr (-2147483647)) demo_printed.
Proof.
  destruct (snprintf_then_atoi (-2147483647) 12 (replicate 12 1) demo_printed 100) as (n & b & Hr & Ha);
    [lia|lia|vm_compute; discriminate|].
  exists n, b. split; [exact Hr|]. apply Ha.
  assert (n = 11 /\ b = str "-2147483647" ++ [0]) as [-> ->].
  { assert (snprintf 12 (str "%d") [va_int (-2147483647)] (replicate 12 1) = Done 11 (str "-2147483647" ++ [0])) as Hc
      by (vm_compute; reflexivity).
    exact (done_inj _ _ _ _ (eq_trans (eq_sym Hr) Hc)). }
  vm_compute. repeat split.
Defined.
