(* ===== verification/FileTable.v ===== *)
(** * Open files and their system calls (assignment 3's file.c and syscall.c).

    Over the VFS layer: the table of open files of the whole system, and for each thread
    its table of descriptors. [FileIO] is the part of a vnode's operations these calls
    use beside those of [FileLayer]. A call runs in one go, as the VFS operations do. *)

From stdpp Require Import base numbers list gmap.
From Stdlib Require Import ZArith Lia.
From S2P Require Import Prelude Mem CopyInOut Uio Array Vnode Vfs VfsList VfsPath SfsDir.

(** kern/unistd.h, kern/limits.h, kern/callno.h *)
Definition SEEK_SET : Z := 0.
Definition SEEK_CUR : Z := 1.
Definition SEEK_END : Z := 2.
Definition PATH_MAX : Z := 1024.
Definition SYS_open : Z := 4.
Definition SYS_read : Z := 5.
Definition SYS_write : Z := 6.
Definition SYS_close : Z := 7.
Definition SYS_reboot : Z := 8.
Definition SYS_sync : Z := 9.
Definition SYS_lseek : Z := 13.
Definition SYS_fstat : Z := 16.

Definition MAX_OPEN_FILES : Z := 64.
Definition MAX_FD : Z := 16.

Class FileIO (W V : Type) : Type := {
  VOP_READ : V -> E (W * uenv) unit;
  VOP_WRITE : V -> E (W * uenv) unit;
  VOP_STAT : V -> E W stat;
  VOP_TRYSEEK : V -> Z -> E W unit;
}.

(** [vn]: NULL, [BUSY_OFTE], or a vnode. *)
Inductive file_vn (V : Type) : Type := NO_VN | BUSY_OFTE | VN (v : V).
Arguments NO_VN {V}.
Arguments BUSY_OFTE {V}.
Arguments VN {V}.

Record ofte (V : Type) : Type := mk_ofte { fp : Z; flags : Z; count : Z; vn : file_vn V }.
Arguments mk_ofte {V}.
Arguments fp {V}.
Arguments flags {V}.
Arguments count {V}.
Arguments vn {V}.

Inductive fd_access : Type := F_READ | F_WRITE | F_ANY.

Section files.
Context {W V F : Type} `{FileLayer W V F} `{FileIO W V} `{EqDecision V} `{EqDecision F}.

(** A pointer to an [ofte] is its index in [oft]. [fdts] holds the threads' tables;
    [pathname] is the static buffer of [sys_open]. *)
Record files : Type := mk_files {
  fvfs : vfs W V F;
  oft : list (ofte V);
  fdts : gmap Z (list (option Z));
  curthread : Z;
  pathname : list Z;
  fmem : mem;               (* of the current address space *)
  t_vmspace : option Z;
}.

Definition set_fvfs (v : vfs W V F) (s : files) : files :=
  mk_files v (oft s) (fdts s) (curthread s) (pathname s) (fmem s) (t_vmspace s).
Definition set_oft (l : list (ofte V)) (s : files) : files :=
  mk_files (fvfs s) l (fdts s) (curthread s) (pathname s) (fmem s) (t_vmspace s).
Definition set_fdts (m : gmap Z (list (option Z))) (s : files) : files :=
  mk_files (fvfs s) (oft s) m (curthread s) (pathname s) (fmem s) (t_vmspace s).
Definition set_copied (p : list Z) (m : mem) (s : files) : files :=
  mk_files (fvfs s) (oft s) (fdts s) (curthread s) p m (t_vmspace s).

Definition vfs_do {A} (m : M (vfs W V F) A) : M files A := zoom fvfs set_fvfs m.
Definition vn_do {A} (m : M W A) : M files A := vfs_do (below m).

(** A transfer between a vnode and user memory; gives the request as it is left. *)
Definition vn_io (u : uio) (m : E (W * uenv) unit) : E files uio :=
  fun s =>
    match below_io m (fvfs s, mk_uenv u (fmem s) (t_vmspace s)) with
    | Done r t => Done (match r with inl e => inl e | inr _ => inr (xuio t.2) end)
                       (set_copied (pathname s) (umem t.2) (set_fvfs t.1 s))
    | Panic => Panic
    | Undef => Undef
    | OutOfFuel => OutOfFuel
    end.

Definition get_ofte (i : Z) : M files (ofte V) := let! s := get in of_option (nthZ (oft s) i).
Definition put_ofte (i : Z) (o : ofte V) : M files unit :=
  let! s := get in put (set_oft (setZ (oft s) i o) s).
(** [curthread->t_fdt->fd[fd]], and assigning to it. *)
Definition get_fd (fd : Z) : M files (option Z) :=
  let! s := get in let! t := of_option (fdts s !! curthread s) in of_option (nthZ t fd).
Definition put_fd (fd : Z) (p : option Z) : M files unit :=
  let! s := get in
  let! t := of_option (fdts s !! curthread s) in
  do! of_option (nthZ t fd) in
  put (set_fdts (<[curthread s := setZ t fd p]> (fdts s)) s).
(** The open file of a descriptor that is not NULL. *)
Definition open_file (fd : Z) : M files (Z * ofte V) :=
  let! p := get_fd fd in
  let! p := of_option p in
  let! o := get_ofte p in
  ret (p, o).
(** Its vnode, dereferenced. *)
Definition file_vnode (o : ofte V) : M files V :=
  match vn o with VN v => ret v | _ => undef end.

Definition mk_uio (ubuf len pos : Z) (rw : uio_op) (space : option Z) : uio :=
  Uio.mk_uio (un_ubase ubuf) len pos len UIO_USERSPACE rw space.

Definition check_fd_access (filehandle : Z) (acc : fd_access) : E files unit :=
  if (filehandle <? 0) || (MAX_FD <=? filehandle) then fail EBADF
  else
    let! p := get_fd filehandle in
    match p with
    | None => fail EBADF
    | Some p =>
        let! o := get_ofte p in
        let mode := Z.land (flags o) O_ACCMODE in
        if mode =? O_RDONLY then match acc with F_WRITE => fail EBADF | _ => ok tt end
        else if mode =? O_WRONLY then match acc with F_READ => fail EBADF | _ => ok tt end
        else if mode =? O_RDWR then ok tt
        else panic
    end.

(** ** The table of open files *)

Definition oft_alloc : M files (option Z) :=
  iterate (Z.to_nat MAX_OPEN_FILES) 0 (fun i =>
    let! o := get_ofte i in
    match vn o with
    | NO_VN => do! put_ofte i (mk_ofte (fp o) (flags o) 1 BUSY_OFTE) in ret (Some i)
    | _ => ret None
    end).

Definition oft_free (p : Z) : M files Z :=
  let! o := get_ofte p in
  let! c := int_of (count o - 1) in
  do! put_ofte p (mk_ofte (fp o) (flags o) c (if c =? 0 then NO_VN else vn o)) in
  ret c.

Definition oft_bootstrap : M files unit :=
  let! _ := iterate (Z.to_nat MAX_OPEN_FILES) 0 (fun i =>
    let! o := get_ofte i in
    do! put_ofte i (mk_ofte (fp o) (flags o) (count o) NO_VN) in
    ret (None (A := unit))) in
  ret tt.

(** ** System calls *)

(** From [oft_alloc] on; [path] is the pathname, wherever it is kept. *)
Definition open_at (path : list Z) (oflags fd : Z) : E files Z :=
  let! oftp := oft_alloc in
  match oftp with
  | None => do! put_fd fd None in fail ENFILE
  | Some oftp =>
      let! r := vfs_do (vfs_open path oflags) in
      match r with
      | inl e =>
          let! _ := oft_free oftp in
          do! put_fd fd None in
          fail e
      | inr v =>
          do! put_fd fd (Some oftp) in
          let! o := get_ofte oftp in
          do! put_ofte oftp (mk_ofte 0 oflags (count o) (VN v)) in
          ok fd
      end
  end.

Definition sys_open (filename oflags : Z) : E files Z :=
  try! len :=
    zoom (fun s => (pathname s, fmem s)) (fun t s => set_copied t.1 t.2 s)
      (pinned (copyinstr filename KBUF PATH_MAX)) in
  let! fd := iterate (Z.to_nat MAX_FD) 0 (fun i =>
    let! p := get_fd i in ret (match p with None => Some i | Some _ => None end)) in
  match fd with
  | None => fail EMFILE
  | Some fd => let! s := get in open_at (c_string (pathname s)) oflags fd
  end.

Definition sys_kopen (filename : list Z) (oflags fd : Z) : E files Z :=
  let! p := get_fd fd in
  match p with
  | Some _ => fail EMFILE
  | None => open_at filename oflags fd
  end.

(** The common end of [sys_read] and [sys_write]. *)
Definition transfer (filehandle buf size : Z) (rw : uio_op) (op : V -> E (W * uenv) unit) : E files Z :=
  let! f := open_file filehandle in
  let! s := get in
  let! v := file_vnode f.2 in
  try! io := vn_io (mk_uio buf size (fp f.2) rw (t_vmspace s)) (op v) in
  let! f := open_file filehandle in
  let! n := int_of (uio_offset io - fp f.2) in
  do! put_ofte f.1 (mk_ofte (uio_offset io) (flags f.2) (count f.2) (vn f.2)) in
  ok n.

Definition sys_read (filehandle buf size : Z) : E files Z :=
  try! _ := check_fd_access filehandle F_READ in
  transfer filehandle buf size UIO_READ VOP_READ.

Definition sys_write (filehandle buf size : Z) : E files Z :=
  try! _ := check_fd_access filehandle F_WRITE in
  transfer filehandle buf size UIO_WRITE VOP_WRITE.

Definition sys_close (filehandle : Z) : E files unit :=
  try! _ := check_fd_access filehandle F_ANY in
  let! f := open_file filehandle in
  let! r := oft_free f.1 in
  do! (if r =? 0 then let! v := file_vnode f.2 in vfs_do (vfs_close v) else ret tt) in
  do! put_fd filehandle None in
  ok tt.

(** The error of [VOP_TRYSEEK] counts only when it is negative. *)
Definition sys_lseek (filehandle pos code : Z) : E files Z :=
  try! _ := check_fd_access filehandle F_ANY in
  let! f := open_file filehandle in
  try! newfp :=
    (if code =? SEEK_SET then ok pos
     else if code =? SEEK_CUR then let! n := int_of (fp f.2 + pos) in ok n
     else if code =? SEEK_END then
       let! v := file_vnode f.2 in
       try! st := vn_do (VOP_STAT v) in
       let! n := int_of (st_size st + pos) in ok n
     else fail EINVAL) in
  if newfp <? 0 then fail EINVAL
  else
    let! v := file_vnode f.2 in
    let! r := vn_do (VOP_TRYSEEK v newfp) in
    match r with
    | inl e =>
        if errno_code e <? 0 then fail e
        else do! put_ofte f.1 (mk_ofte newfp (flags f.2) (count f.2) (vn f.2)) in ok newfp
    | inr _ => do! put_ofte f.1 (mk_ofte newfp (flags f.2) (count f.2) (vn f.2)) in ok newfp
    end.

(** A store into the user's structure without [copyout]: a trap there is a panic, and an
    address of the kernel is written all the same. *)
Definition user_store32 (a w : Z) : M files unit :=
  if USERTOP <=? a then undef
  else
    let! r := zoom fmem (fun m s => set_copied (pathname s) m s) (store32 a w) in
    match r with inl _ => panic | inr _ => ret tt end.

(** The descriptor is not checked. *)
Definition sys_fstat (fd statbuf : Z) : E files unit :=
  let! f := open_file fd in
  let! v := file_vnode f.2 in
  try! st := vn_do (VOP_STAT v) in
  do! user_store32 statbuf (st_mode st) in
  do! user_store32 (statbuf + 4) (st_nlink st) in
  do! user_store32 (statbuf + 8) (u32 (st_size st)) in
  do! user_store32 (statbuf + 12) (st_blocks st) in
  ok tt.

Definition sys_sync : M files unit := let! _ := vfs_do vfs_sync in ret tt.

(** ** The dispatcher (syscall.c) *)

Record trapframe : Type := mk_tf { tf_v0 : Z; tf_a0 : Z; tf_a1 : Z; tf_a2 : Z; tf_a3 : Z; tf_epc : Z }.

(** [err] and [retval] after a call; [None] is a variable without a value. *)
Definition returns {A} (retval : A -> Z) (m : E files A) : M files (option Z * Z) :=
  let! r := m in
  ret (match r with inl e => (Some (errno_code e), 0) | inr a => (Some 0, retval a) end).

(** [sys_reboot] is in kern/main. *)
Definition mips_syscall (sys_reboot : Z -> E files unit) (tf : trapframe) : M files trapframe :=
  let callno := s32 (tf_v0 tf) in
  let! r :=
    (if callno =? SYS_reboot then returns (fun _ => 0) (sys_reboot (s32 (tf_a0 tf)))
     else if callno =? SYS_open then returns id (sys_open (tf_a0 tf) (s32 (tf_a1 tf)))
     else if callno =? SYS_read then returns id (sys_read (s32 (tf_a0 tf)) (tf_a1 tf) (tf_a2 tf))
     else if callno =? SYS_write then returns id (sys_write (s32 (tf_a0 tf)) (tf_a1 tf) (tf_a2 tf))
     else if callno =? SYS_close then returns (fun _ => 0) (sys_close (s32 (tf_a0 tf)))
     else if callno =? SYS_lseek then returns id (sys_lseek (s32 (tf_a0 tf)) (s32 (tf_a1 tf)) (s32 (tf_a2 tf)))
     else if callno =? SYS_fstat then returns (fun _ => 0) (sys_fstat (s32 (tf_a0 tf)) (tf_a1 tf))
     else if callno =? SYS_sync then do! sys_sync in ret (None, 0)
     else ret (Some (errno_code ENOSYS), 0)) in
  let! err := of_option r.1 in
  ret (if err =? 0 then mk_tf (u32 r.2) (tf_a0 tf) (tf_a1 tf) (tf_a2 tf) 0 (u32 (tf_epc tf + 4))
       else mk_tf (u32 err) (tf_a0 tf) (tf_a1 tf) (tf_a2 tf) 1 (u32 (tf_epc tf + 4))).
End files.
Arguments files : clear implicits.
