(* ===== verification/FileSpec.v ===== *)
(** * What the open file tables promise.

    [tables_ok] is the invariant of the two tables: an entry is in use exactly when one
    descriptor of one thread refers to it. Over the ledger of VfsBalance.v, an entry in
    use stands for one reference and one open of its vnode, whatever the system calls
    do. *)

From stdpp Require Import base numbers list gmap strings.
From Stdlib Require Import ZArith Lia.
From S2P Require Import Prelude Mem CopyInOut Uio BlockDev Lhd Array Vnode Device Vfs VfsList VfsPath VfsBalance SfsDir SfsFs System VfsSpec FileTable.

(** ** The tables *)

Section tables.
Context {V : Type} `{EqDecision V}.
Implicit Types (l : list (ofte V)) (m : gmap Z (list (option Z))).

(** Descriptor [fd] of thread [t] refers to entry [p]. *)
Definition refers m (t fd p : Z) : Prop :=
  exists tbl, m !! t = Some tbl /\ nthZ tbl fd = Some (Some p).

Record tables_ok l m : Prop := {
  to_len : lenZ l = MAX_OPEN_FILES;
  to_fds t tbl : m !! t = Some tbl -> lenZ tbl = MAX_FD;
  to_used t fd p : refers m t fd p -> exists o v, nthZ l p = Some o /\ vn o = VN v /\ count o = 1;
  to_once t fd t' fd' p : refers m t fd p -> refers m t' fd' p -> t = t' /\ fd = fd';
  to_free p o : nthZ l p = Some o -> (forall t fd, ~ refers m t fd p) -> vn o = NO_VN;
}.

(** The entries that hold vnode [u]. *)
Definition holds_vn (o : ofte V) (u : V) : Z := match vn o with VN v => one v u | _ => 0 end.
Fixpoint held l (u : V) : Z := match l with [] => 0 | o :: l => holds_vn o u + held l u end.

Lemma held_set l p o o' u :
  nthZ l p = Some o -> held (setZ l p o') u = held l u - holds_vn o u + holds_vn o' u.
Proof.
  intros Hp. pose proof (nthZ_Some_lt _ _ _ Hp) as Hb. revert Hp. unfold setZ, nthZ.
  rewrite !decide_True by lia. generalize (Z.to_nat p) as n. clear Hb p. induction l as [|x l IH]; intros [|n]; simpl; try done.
  - intros [= ->]. lia.
  - intros Hn. rewrite IH by done. lia.
Qed.

(** [fd] of thread [t] is made [q]. *)
Lemma refers_set m t tbl fd q t' fd' p :
  m !! t = Some tbl -> 0 <= fd < lenZ tbl ->
  refers (<[t := setZ tbl fd q]> m) t' fd' p <->
  (t' = t /\ fd' = fd /\ q = Some p) \/ (~ (t' = t /\ fd' = fd) /\ refers m t' fd' p).
Proof.
  intros Ht Hb. unfold refers. destruct (decide (t' = t)) as [->|Hne].
  - rewrite lookup_insert_eq. destruct (decide (fd' = fd)) as [->|Hnf].
    + split.
      * intros (? & [= <-] & Hq). rewrite nthZ_setZ_eq in Hq by done. left. by inv Hq.
      * intros [(_ & _ & ->)|[[] _]]; [|done]. eexists. split; [done|]. by rewrite nthZ_setZ_eq.
    + split.
      * intros (? & [= <-] & Hq). rewrite nthZ_setZ_ne in Hq by done. right. split; [naive_solver|]. by exists tbl.
      * intros [(_ & ? & _)|(_ & tbl' & ? & Hq)]; [done|]. simplify_eq. eexists. split; [done|]. by rewrite nthZ_setZ_ne.
  - rewrite lookup_insert_ne by done. naive_solver.
Qed.

Lemma refers_bound l m t fd p : tables_ok l m -> refers m t fd p -> 0 <= p < MAX_OPEN_FILES.
Proof. intros Hok Hr. destruct (to_used _ _ Hok _ _ _ Hr) as (o & v & Hp & _). apply nthZ_Some_lt in Hp. by rewrite (to_len _ _ Hok) in Hp. Qed.

Lemma fds_len_set m t tbl fd q :
  (forall t tbl, m !! t = Some tbl -> lenZ tbl = MAX_FD) -> m !! t = Some tbl ->
  forall t' tbl', <[t := setZ tbl fd q]> m !! t' = Some tbl' -> lenZ tbl' = MAX_FD.
Proof.
  intros Hl Ht t' tbl'. destruct (decide (t' = t)) as [->|Hne].
  - rewrite lookup_insert_eq. intros [= <-]. rewrite lenZ_setZ. by eapply Hl.
  - rewrite lookup_insert_ne by done. apply Hl.
Qed.

(** The position or the flags of an entry change. *)
Lemma tables_moved l m p o o' :
  tables_ok l m -> nthZ l p = Some o -> vn o' = vn o -> count o' = count o ->
  tables_ok (setZ l p o') m.
Proof.
  intros [Hl Hf Hu Ho Hr] Hp Hv Hc. pose proof (nthZ_Some_lt _ _ _ Hp) as Hb. split; try done.
  - by rewrite lenZ_setZ.
  - intros t fd q Hq. destruct (Hu t fd q Hq) as (o1 & v & H1 & H2 & H3).
    destruct (decide (q = p)) as [->|Hne].
    + exists o', v. rewrite nthZ_setZ_eq by done. simplify_eq. by rewrite Hv, Hc.
    + exists o1, v. by rewrite nthZ_setZ_ne.
  - intros q o1 Hq Hn. destruct (decide (q = p)) as [->|Hne].
    + rewrite nthZ_setZ_eq in Hq by done. inv Hq. rewrite Hv. by apply (Hr p o).
    + rewrite nthZ_setZ_ne in Hq by done. by apply (Hr q o1).
Qed.

(** A free entry and a free descriptor come into use together. *)
Lemma tables_opened l m t tbl fd p o o' v :
  tables_ok l m -> m !! t = Some tbl -> nthZ tbl fd = Some None ->
  nthZ l p = Some o -> vn o = NO_VN -> vn o' = VN v -> count o' = 1 ->
  tables_ok (setZ l p o') (<[t := setZ tbl fd (Some p)]> m).
Proof.
  intros [Hl Hf Hu Ho Hr] Ht Hfd Hp Hvo Hv Hc.
  pose proof (nthZ_Some_lt _ _ _ Hp) as Hb. pose proof (nthZ_Some_lt _ _ _ Hfd) as Hbf.
  assert (forall t fd, ~ refers m t fd p) as Hnone.
  { intros t' fd' Hq. destruct (Hu _ _ _ Hq) as (o1 & v1 & ? & ? & _). simplify_eq. congruence. }
  split.
  - by rewrite lenZ_setZ.
  - by apply fds_len_set.
  - intros t' fd' q. rewrite refers_set by done. intros [(-> & -> & [= <-])|[_ Hq]].
    + exists o', v. by rewrite nthZ_setZ_eq.
    + rewrite nthZ_setZ_ne; [by eapply Hu|]. intros <-. by eapply Hnone.
  - intros t1 f1 t2 f2 q. rewrite !refers_set by done.
    intros [(-> & -> & [= <-])|[_ H1]] [(-> & -> & ?)|[_ H2]]; simplify_eq; try done.
    + by edestruct Hnone.
    + by edestruct Hnone.
    + by eapply Ho.
  - intros q o1 Hq Hn. destruct (decide (q = p)) as [->|Hne].
    + exfalso. apply (Hn t fd). rewrite refers_set by done. by left.
    + rewrite nthZ_setZ_ne in Hq by done. apply (Hr q o1 Hq). intros t' fd' Hq'. apply (Hn t' fd').
      rewrite refers_set by done. right. split; [|done]. intros [-> ->].
      destruct Hq' as (tbl' & ? & ?). simplify_eq.
Qed.

(** An entry and its descriptor go out of use together. *)
Lemma tables_closed l m t tbl fd p o' :
  tables_ok l m -> m !! t = Some tbl -> nthZ tbl fd = Some (Some p) -> vn o' = NO_VN ->
  tables_ok (setZ l p o') (<[t := setZ tbl fd None]> m).
Proof.
  intros Hok Ht Hfd Hv. pose proof (nthZ_Some_lt _ _ _ Hfd) as Hbf.
  assert (refers m t fd p) as Hrp by (by exists tbl).
  pose proof (refers_bound _ _ _ _ _ Hok Hrp) as Hb.
  destruct Hok as [Hl Hf Hu Ho Hr]. rewrite <- Hl in Hb. split.
  - by rewrite lenZ_setZ.
  - by apply fds_len_set.
  - intros t' fd' q. rewrite refers_set by done. intros [(_ & _ & ?)|[Hne Hq]]; [done|].
    rewrite nthZ_setZ_ne; [by eapply Hu|]. intros <-. apply Hne. by eapply Ho.
  - intros t1 f1 t2 f2 q. rewrite !refers_set by done.
    intros [(_ & _ & ?)|[_ H1]] [(_ & _ & ?)|[_ H2]]; try done. by eapply Ho.
  - intros q o1 Hq Hn. destruct (decide (q = p)) as [->|Hne].
    + rewrite nthZ_setZ_eq in Hq by done. by inv Hq.
    + rewrite nthZ_setZ_ne in Hq by done. apply (Hr q o1 Hq). intros t' fd' Hq'. apply (Hn t' fd').
      rewrite refers_set by done. right. split; [|done]. intros [-> ->].
      destruct Hq' as (tbl' & ? & ?). simplify_eq.
Qed.
End tables.

(** ** Calls *)

(** A call of file.c, and the thread that makes it with its memory. *)
Inductive file_call : Type :=
| do_open (filename oflags : Z)
| do_kopen (filename : list Z) (oflags fd : Z)
| do_read (filehandle buf size : Z)
| do_write (filehandle buf size : Z)
| do_close (filehandle : Z)
| do_lseek (filehandle pos code : Z)
| do_fstat (fd statbuf : Z)
| do_sync.

Record caller : Type := mk_caller { by_thread : Z; with_mem : mem; with_space : option Z }.

Section calls.
Context {W V F : Type} `{FileLayer W V F} `{FileIO W V} `{EqDecision V} `{EqDecision F}.
Notation state := (files W V F).

Definition ends {A} (m : E state A) : M state unit := let! _ := m in ret tt.

Definition run_file_call (c : file_call) : M state unit :=
  match c with
  | do_open filename oflags => ends (sys_open filename oflags)
  | do_kopen filename oflags fd => ends (sys_kopen filename oflags fd)
  | do_read filehandle buf size => ends (sys_read filehandle buf size)
  | do_write filehandle buf size => ends (sys_write filehandle buf size)
  | do_close filehandle => ends (sys_close filehandle)
  | do_lseek filehandle pos code => ends (sys_lseek filehandle pos code)
  | do_fstat fd statbuf => ends (sys_fstat fd statbuf)
  | do_sync => sys_sync
  end.

Definition as_caller (c : caller) (s : state) : state :=
  mk_files (fvfs s) (oft s) (fdts s) (by_thread c) (pathname s) (with_mem c) (with_space c).

Fixpoint run_file_calls (cs : list (caller * file_call)) : M state unit :=
  match cs with
  | [] => ret tt
  | (c, call) :: cs =>
      let! s := get in
      do! put (as_caller c s) in
      do! run_file_call call in
      run_file_calls cs
  end.
End calls.

(** The ledger does not change what the layer reads and writes. *)
#[export] Instance ledger_files {W V} `{FileIO W V} : FileIO (W * ledger V) V := {|
  VOP_READ v := with_ledger_io (VOP_READ v);
  VOP_WRITE v := with_ledger_io (VOP_WRITE v);
  VOP_STAT v := with_ledger (VOP_STAT v);
  VOP_TRYSEEK v n := with_ledger (VOP_TRYSEEK v n);
|}.

Section balance_files.
Context {W V F : Type} `{L : FileLayer W V F} `{IO : FileIO W V} `{EqDecision V} `{EqDecision F}.
Notation state := (files (W * ledger V) V F).

Definition tables (s : state) : Prop := tables_ok (oft s) (fdts s).

(** The tables hold as many references and opens more as the VFS layer handed out. *)
Definition kept (s s' : state) : Prop :=
  tables s' /\ forall u,
  loose (fvfs s') u - held (oft s') u = loose (fvfs s) u - held (oft s) u /\
  opens (fvfs s') u - held (oft s') u = opens (fvfs s) u - held (oft s) u.

Definition keeps {A} (m : M state A) : Prop :=
  forall s, tables s -> wlp m (fun _ s' => kept s s') s.

(** The tables are as they were, and nothing is taken or given back. *)
Definition same_files (s s' : state) : Prop :=
  oft s' = oft s /\ fdts s' = fdts s /\ curthread s' = curthread s /\ moved (fvfs s) (fvfs s') none none.

Lemma kept_refl s : tables s -> kept s s.
Proof. intros Hs. by split. Qed.

Lemma kept_trans s1 s2 s3 : kept s1 s2 -> kept s2 s3 -> kept s1 s3.
Proof. intros [H1 E1] [H2 E2]. split; [done|]. intros u. specialize (E1 u). specialize (E2 u). lia. Qed.

Lemma same_refl s : same_files s s.
Proof. repeat split; try done; unfold none; lia. Qed.

Lemma same_kept s s' : tables s -> same_files s s' -> kept s s'.
Proof.
  intros Hs (Ho & Hf & _ & Hm). unfold kept, tables. rewrite Ho, Hf. split; [done|].
  intros u. specialize (Hm u). unfold none in Hm. lia.
Qed.

Lemma same_vfs {A} (m : M (vfs (W * ledger V) V F) A) (s : state) :
  moves m (fun _ => none) (fun _ => none) -> wlp (vfs_do m) (fun _ s' => same_files s s') s.
Proof. intros Hm. apply wlp_zoom. eapply wlp_mono; [apply Hm|]. by intros a v Hv. Qed.

Lemma same_vn {A} (m : M W A) (s : state) :
  wlp (vn_do (with_ledger m)) (fun _ s' => same_files s s') s.
Proof. apply same_vfs, moves_below. Qed.

Lemma same_io u (m : E (W * uenv) unit) (s : state) :
  wlp (vn_io u (with_ledger_io m)) (fun _ s' => same_files s s') s.
Proof.
  intros a s'. unfold vn_io, below_io, zoom, with_ledger_io, zoom. simpl.
  destruct (m _) as [r t| | |]; [|done..]. intros [= <- <-]. repeat split; simpl; unfold none, loose, opens; simpl; lia.
Qed.

(** What the reads of the tables give. *)
Lemma wlp_get_ofte p (Q : ofte V -> state -> Prop) s :
  (forall o, nthZ (oft s) p = Some o -> Q o s) -> wlp (get_ofte p) Q s.
Proof. intros HQ. apply wlp_bind, wlp_get, wlp_of_option. exact HQ. Qed.

Lemma wlp_put_ofte p o (Q : unit -> state -> Prop) s :
  Q tt (set_oft (setZ (oft s) p o) s) -> wlp (put_ofte p o) Q s.
Proof. intros HQ. by apply wlp_bind, wlp_get, wlp_put. Qed.

Lemma wlp_get_fd fd (Q : option Z -> state -> Prop) s :
  (forall tbl p, fdts s !! curthread s = Some tbl -> nthZ tbl fd = Some p -> Q p s) -> wlp (get_fd fd) Q s.
Proof. intros HQ. apply wlp_bind, wlp_get, wlp_bind, wlp_of_option. intros tbl Ht. apply wlp_of_option. intros p Hp. by eapply HQ. Qed.

Lemma wlp_put_fd fd p (Q : unit -> state -> Prop) s :
  (forall tbl q, fdts s !! curthread s = Some tbl -> nthZ tbl fd = Some q ->
     Q tt (set_fdts (<[curthread s := setZ tbl fd p]> (fdts s)) s)) ->
  wlp (put_fd fd p) Q s.
Proof.
  intros HQ. apply wlp_bind, wlp_get, wlp_bind, wlp_of_option. intros tbl Ht. apply wlp_bind, wlp_of_option.
  intros q Hq. apply wlp_put. by eapply HQ.
Qed.

Lemma wlp_open_file fd (Q : Z * ofte V -> state -> Prop) s :
  (forall p o, refers (fdts s) (curthread s) fd p -> nthZ (oft s) p = Some o -> Q (p, o) s) ->
  wlp (open_file fd) Q s.
Proof.
  intros HQ. apply wlp_bind, wlp_get_fd. intros tbl q Ht Hq. apply wlp_bind, wlp_of_option. intros p ->.
  apply wlp_bind, wlp_get_ofte. intros o Ho. apply wlp_ret, HQ; [by exists tbl|done].
Qed.

Lemma wlp_file_vnode o (Q : V -> state -> Prop) s : (forall v, vn o = VN v -> Q v s) -> wlp (file_vnode o) Q s.
Proof. intros HQ. unfold file_vnode. destruct (vn o); [apply wlp_undef..|]. by apply wlp_ret, HQ. Qed.

Lemma wlp_check_fd fd acc (Q : errno + unit -> state -> Prop) s :
  (forall e, Q (inl e) s) -> Q (inr tt) s -> wlp (check_fd_access fd acc) Q s.
Proof.
  intros He Hk. unfold check_fd_access. destruct (_ || _); [apply wlp_ret, He|].
  apply wlp_bind, wlp_get_fd. intros tbl [p|] Ht Hp; [|apply wlp_ret, He].
  apply wlp_bind, wlp_get_ofte. intros o Ho.
  repeat case_match; first [apply wlp_ret; done | apply wlp_panic].
Qed.

(** ** The calls keep the tables *)

Lemma kept_moved s p o o' :
  tables s -> nthZ (oft s) p = Some o -> vn o' = vn o -> count o' = count o ->
  kept s (set_oft (setZ (oft s) p o') s).
Proof.
  intros Hs Hp Hv Hc. split; [by eapply tables_moved|]. intros u. simpl.
  rewrite (held_set _ _ _ _ _ Hp). unfold holds_vn. rewrite Hv. lia.
Qed.

Lemma same_tables s s' : tables s -> same_files s s' -> tables s'.
Proof. intros Hs Hm. by apply (same_kept s s'). Qed.

Lemma keeps_ends {A} (m : E state A) : keeps m -> keeps (ends m).
Proof. intros Hm s Hs. apply wlp_bind. eapply wlp_mono; [by apply Hm|]. intros a s' Hk. by apply wlp_ret. Qed.

Lemma keeps_transfer fd buf n rw (op : V -> E (W * uenv) unit) :
  keeps (transfer fd buf n rw (fun v => with_ledger_io (op v)) : E state Z).
Proof.
  intros s Hs. apply wlp_bind, wlp_open_file. intros p o Hr Ho. apply wlp_bind, wlp_get, wlp_bind, wlp_file_vnode.
  intros v Hv. apply wlp_tbind. eapply wlp_mono; [apply same_io|]. intros [e|io] s1 Hm1; [by apply same_kept|].
  apply wlp_bind, wlp_open_file. intros p1 o1 Hr1 Ho1. apply wlp_bind, wlp_int_of. intros _.
  apply wlp_bind, wlp_put_ofte, wlp_ret. eapply kept_trans; [by apply same_kept|].
  eapply kept_moved; try done. by eapply same_tables.
Qed.

Lemma keeps_lseek fd pos code : keeps (sys_lseek fd pos code : E state Z).
Proof.
  intros s Hs. apply wlp_tbind, wlp_check_fd; [intros e; by apply kept_refl|].
  apply wlp_bind, wlp_open_file. intros p o Hr Ho. apply wlp_tbind.
  eapply wlp_mono with (Q := fun _ s1 => same_files s s1).
  { repeat case_match; [apply wlp_ret, same_refl| |
      |apply wlp_ret, same_refl].
    - apply wlp_bind, wlp_int_of. intros _. apply wlp_ret, same_refl.
    - apply wlp_bind, wlp_file_vnode. intros v Hv. apply wlp_tbind. eapply wlp_mono; [apply same_vn|].
      intros [e|st] s1 Hm1; [done|]. apply wlp_bind, wlp_int_of. intros _. by apply wlp_ret. }
  intros [e|n] s1 Hm1; [by apply same_kept|]. case_match; [by apply wlp_ret, same_kept|].
  apply wlp_bind, wlp_file_vnode. intros v Hv. apply wlp_bind. eapply wlp_mono; [apply same_vn|]. intros r s2 Hm2.
  assert (kept s s2) as Hk by (eapply kept_trans; [by apply same_kept|apply same_kept; [by eapply same_tables|done]]).
  assert (kept s2 (set_oft (setZ (oft s2) p (mk_ofte n (flags o) (count o) (vn o))) s2)) as Hm.
  { eapply (kept_moved _ _ o); [apply Hk| |done..]. destruct Hm1 as (E1 & _), Hm2 as (E2 & _). by rewrite E2, E1. }
  repeat case_match; [by apply wlp_ret|apply wlp_bind, wlp_put_ofte, wlp_ret; exact (kept_trans _ _ _ Hk Hm)..].
Qed.

Lemma same_user_store a w (s : state) : wlp (user_store32 a w) (fun _ s' => same_files s s') s.
Proof.
  unfold user_store32. case_match; [apply wlp_undef|]. apply wlp_bind, wlp_zoom. intros [e|[]] m _; [apply wlp_panic|].
  apply wlp_ret. repeat split; simpl; unfold none; lia.
Qed.

Lemma same_trans s1 s2 s3 : same_files s1 s2 -> same_files s2 s3 -> same_files s1 s3.
Proof.
  intros (? & ? & ? & Hm1) (? & ? & ? & Hm2). repeat split; try congruence; specialize (Hm1 u); specialize (Hm2 u); unfold none in *; lia.
Qed.

Lemma keeps_fstat fd buf : keeps (sys_fstat fd buf : E state unit).
Proof.
  intros s Hs. eapply wlp_mono with (Q := fun _ s1 => same_files s s1); [|intros; by apply same_kept].
  apply wlp_bind, wlp_open_file. intros p o Hr Ho. apply wlp_bind, wlp_file_vnode. intros v Hv.
  apply wlp_tbind. eapply wlp_mono; [apply same_vn|]. intros [e|st] s1 Hm1; [done|].
  apply wlp_bind. eapply wlp_mono; [apply same_user_store|]. intros [] s2 Hm2.
  apply wlp_bind. eapply wlp_mono; [apply same_user_store|]. intros [] s3 Hm3.
  apply wlp_bind. eapply wlp_mono; [apply same_user_store|]. intros [] s4 Hm4.
  apply wlp_bind. eapply wlp_mono; [apply same_user_store|]. intros [] s5 Hm5.
  apply wlp_ret. eauto using same_trans.
Qed.

(** [oft_alloc] takes a free entry and changes nothing else. *)
Lemma oft_alloc_takes (s : state) :
  wlp oft_alloc (fun r s' => match r with
    | None => s' = s
    | Some p => exists o, nthZ (oft s) p = Some o /\ vn o = NO_VN /\
        s' = set_oft (setZ (oft s) p (mk_ofte (fp o) (flags o) 1 BUSY_OFTE)) s
    end) s.
Proof.
  apply wlp_iterate with (I := fun t => t = s); [done| |done].
  intros i t ->. apply wlp_bind, wlp_get_ofte. intros o Ho. destruct (vn o) eqn:Hv; [|by apply wlp_ret..].
  apply wlp_bind, wlp_put_ofte, wlp_ret. by exists o.
Qed.

(** After a failed [vfs_open]: the entry is freed again. *)
Lemma same_but_busy s s1 p o :
  nthZ (oft s) p = Some o -> vn o = NO_VN -> tables s ->
  same_files (set_oft (setZ (oft s) p (mk_ofte (fp o) (flags o) 1 BUSY_OFTE)) s) s1 ->
  tables_ok (setZ (oft s1) p (mk_ofte (fp o) (flags o) 0 NO_VN)) (fdts s1).
Proof.
  intros Hp Hv Hs (Ho & Hf & _). pose proof (nthZ_Some_lt _ _ _ Hp) as Hb. rewrite Ho, Hf. simpl. rewrite setZ_setZ.
  destruct Hs as [Hl Hfd Hu Hon Hfr].
  assert (forall q, q <> p \/ nthZ (oft s) q = Some o) as Hq by (intros q; destruct (decide (q = p)) as [->|]; auto).
  assert (forall t fd, ~ refers (fdts s) t fd p) as Hnone.
  { intros t fd Hr. destruct (Hu t fd p Hr) as (o1 & v & ? & ? & _). simplify_eq. congruence. }
  split; try done.
  - by rewrite lenZ_setZ.
  - intros t fd q Hr. destruct (Hq q) as [Hne|Hsome].
    + rewrite nthZ_setZ_ne by done. by eapply Hu.
    + exfalso. destruct (Hu t fd q Hr) as (o1 & v & ? & ? & _). simplify_eq. congruence.
  - intros q o1. destruct (decide (q = p)) as [->|Hne].
    + rewrite nthZ_setZ_eq by done. by intros [= <-].
    + rewrite nthZ_setZ_ne by done. apply Hfr.
Qed.

Lemma put_none_id (s : state) fd :
  wlp (get_fd fd) (fun p _ => p = None) s ->
  wlp (put_fd fd None) (fun _ s' => s' = s) s.
Proof.
  intros Hg. apply wlp_put_fd. intros tbl q Ht Hq.
  assert (q = None) as ->.
  { revert Hg. unfold wlp, get_fd. simpl_m. rewrite Ht. simpl. rewrite Hq. simpl. unfold ret. intros Hg. by eapply Hg. }
  rewrite setZ_id by done. rewrite insert_id by done. by destruct s.
Qed.

Lemma keeps_open_at path oflags fd (s : state) tbl :
  tables s -> fdts s !! curthread s = Some tbl -> nthZ tbl fd = Some None ->
  wlp (open_at path oflags fd) (fun _ s' => kept s s') s.
Proof.
  intros Hs Ht Hfd. apply wlp_bind. eapply wlp_mono; [apply oft_alloc_takes|]. intros [p|] s1.
  2: { intros ->. apply wlp_bind, wlp_put_fd. intros tbl' q ? ?. apply wlp_ret. simplify_eq.
       rewrite setZ_id, insert_id by done. destruct s. by apply kept_refl. }
  intros (o & Hp & Hv & ->). pose proof (nthZ_Some_lt _ _ _ Hp) as Hb.
  apply wlp_bind, wlp_zoom. eapply wlp_mono; [apply moves_open|]. intros [e|v] w Hw; cbv beta.
  - apply wlp_bind, wlp_bind, wlp_get_ofte. simpl. rewrite nthZ_setZ_eq by done. intros ? [= <-]. simpl.
    apply wlp_bind, wlp_int_of. intros _. apply wlp_bind, wlp_put_ofte, wlp_ret.
    apply wlp_bind, wlp_put_fd. simpl. intros tbl' q ? ?. simplify_eq. apply wlp_ret.
    rewrite setZ_id, insert_id by done. rewrite setZ_setZ. split.
    + pose proof (same_but_busy s (set_oft (setZ (oft s) p (mk_ofte (fp o) (flags o) 1 BUSY_OFTE)) s) p o Hp Hv Hs (same_refl _)) as Hok.
      simpl in Hok. by rewrite setZ_setZ in Hok.
    + intros u. specialize (Hw u). simpl in *. rewrite (held_set _ _ _ _ _ Hp). unfold holds_vn. rewrite Hv. simpl.
      unfold none, gains in Hw. simpl in Hw. lia.
  - apply wlp_bind, wlp_put_fd. simpl. intros tbl' q ? ?. simplify_eq.
    apply wlp_bind, wlp_get_ofte. simpl. rewrite nthZ_setZ_eq by done. intros ? [= <-]. simpl.
    apply wlp_bind, wlp_put_ofte, wlp_ret. simpl. rewrite setZ_setZ. split.
    + by eapply tables_opened.
    + intros u. specialize (Hw u). simpl in *. rewrite (held_set _ _ _ _ _ Hp). unfold holds_vn. rewrite Hv. simpl.
      unfold gains, id in Hw. simpl in Hw. lia.
Qed.

Lemma keeps_open filename oflags : keeps (sys_open filename oflags : E state Z).
Proof.
  intros s Hs. apply wlp_tbind, wlp_zoom. intros [e|n] [path m] _; cbn [fst snd].
  { split; [done|]. intros u. simpl. lia. }
  set (s1 := set_copied path m s).
  assert (tables s1) as Hs1 by done. assert (kept s s1) as Hk by (split; [done|]; intros u; simpl; lia).
  clearbody s1. apply wlp_bind.
  apply wlp_iterate with (I := fun t => t = s1); [done| |].
  - intros i t ->. apply wlp_bind, wlp_get_fd. intros tbl [q|] Ht Hq; apply wlp_ret; [done|].
    apply wlp_bind, wlp_get. eapply wlp_mono; [by eapply keeps_open_at|]. intros r s2 H2. by eapply kept_trans.
  - intros t ->. by apply wlp_ret.
Qed.

Lemma keeps_kopen filename oflags fd : keeps (sys_kopen filename oflags fd : E state Z).
Proof.
  intros s Hs. apply wlp_bind, wlp_get_fd. intros tbl [q|] Ht Hq; [by apply wlp_ret, kept_refl|].
  by eapply keeps_open_at.
Qed.

Lemma keeps_close fd : keeps (sys_close fd : E state unit).
Proof.
  intros s Hs. apply wlp_tbind, wlp_check_fd; [intros e; by apply kept_refl|].
  apply wlp_bind, wlp_open_file. intros p o Hr Ho. simpl.
  destruct (to_used _ _ Hs _ _ _ Hr) as (o1 & v & ? & Hv & Hc). simplify_eq.
  apply wlp_bind, wlp_bind, wlp_get_ofte. intros ? ?. simplify_eq. rewrite Hc.
  apply wlp_bind, wlp_int_of. intros _. apply wlp_bind, wlp_put_ofte, wlp_ret. simpl.
  apply wlp_bind, wlp_bind, wlp_file_vnode. intros v' Hv'. simplify_eq.
  apply wlp_zoom. eapply wlp_mono; [apply moves_close|]. intros [] w Hw. cbv beta. simpl in Hw.
  apply wlp_bind, wlp_put_fd. simpl. intros tbl q Ht Hq. apply wlp_ret.
  destruct Hr as (tbl' & ? & Hq'). simplify_eq. split.
  - by eapply tables_closed.
  - intros u. specialize (Hw u). simpl in *. rewrite (held_set _ _ _ _ _ Ho). unfold holds_vn. rewrite Hv. simpl. assert (v' = v) as -> by congruence. lia.
Qed.

Lemma keeps_sync : keeps (sys_sync : M state unit).
Proof.
  intros s Hs. apply wlp_bind. eapply wlp_mono; [apply same_vfs|intros r s1 Hs1; by apply wlp_ret, same_kept].
  unfold vfs_sync. eapply moves_bind; [apply moves_acquire_knowndevs|]. intros [].
  eapply moves_bind; [apply moves_on_knowndevs|]. intros num.
  eapply moves_bind with (d1 := fun _ => none) (o1 := fun _ => none).
  { apply moves_iterate; [done|]. intros k. unfold kd_at, get_kd. bal. }
  intros r. bal.
Qed.

Lemma keeps_call c : keeps (run_file_call c : M state unit).
Proof.
  destruct c; simpl.
  - apply keeps_ends, keeps_open.
  - apply keeps_ends, keeps_kopen.
  - apply keeps_ends. intros s Hs. apply wlp_tbind, wlp_check_fd; [intros e; by apply kept_refl|by apply keeps_transfer].
  - apply keeps_ends. intros s Hs. apply wlp_tbind, wlp_check_fd; [intros e; by apply kept_refl|by apply keeps_transfer].
  - apply keeps_ends, keeps_close.
  - apply keeps_ends, keeps_lseek.
  - apply keeps_ends, keeps_fstat.
  - apply keeps_sync.
Qed.

Lemma keeps_calls cs : keeps (run_file_calls cs : M state unit).
Proof.
  induction cs as [|[c call] cs IH]; intros s Hs; [by apply wlp_ret, kept_refl|].
  apply wlp_bind, wlp_get, wlp_bind, wlp_put, wlp_bind. eapply wlp_mono; [by apply keeps_call|].
  intros [] s1 H1. eapply wlp_mono; [apply IH; apply H1|]. intros [] s2 H2.
  eapply kept_trans; [|done]. exact H1.
Qed.
End balance_files.

(** ** What a call does *)

Section outcomes.
Context {W V F : Type} `{L : FileLayer W V F} `{IO : FileIO W V} `{EqDecision V} `{EqDecision F}.
Notation state := (files W V F).

Lemma get_ofte_at p o (s : state) : nthZ (oft s) p = Some o -> get_ofte p s = Done o s.
Proof. intros Hp. unfold get_ofte. simpl_m. by rewrite Hp. Qed.

Lemma put_ofte_at p o (s : state) : put_ofte p o s = Done tt (set_oft (setZ (oft s) p o) s).
Proof. done. Qed.

Lemma get_fd_at tbl fd p (s : state) :
  fdts s !! curthread s = Some tbl -> nthZ tbl fd = Some p -> get_fd fd s = Done p s.
Proof. intros Ht Hp. unfold get_fd. simpl_m. rewrite Ht. simpl. by rewrite Hp. Qed.

Lemma put_fd_at tbl fd p q (s : state) :
  fdts s !! curthread s = Some tbl -> nthZ tbl fd = Some p ->
  put_fd fd q s = Done tt (set_fdts (<[curthread s := setZ tbl fd q]> (fdts s)) s).
Proof. intros Ht Hp. unfold put_fd. simpl_m. rewrite Ht. simpl. by rewrite Hp. Qed.

Lemma vfs_do_at {A} (m : M (vfs W V F) A) a w (s : state) :
  m (fvfs s) = Done a w -> vfs_do m s = Done a (set_fvfs w s).
Proof. intros Hm. unfold vfs_do, zoom. by rewrite Hm. Qed.

Lemma open_file_at tbl fd p o (s : state) :
  fdts s !! curthread s = Some tbl -> nthZ tbl fd = Some (Some p) -> nthZ (oft s) p = Some o ->
  open_file fd s = Done (p, o) s.
Proof.
  intros Ht Hp Ho. unfold open_file. rewrite (bind_done _ _ _ _ _ (get_fd_at _ _ _ _ Ht Hp)).
  simpl. unfold bind at 1. simpl. by rewrite (bind_done _ _ _ _ _ (get_ofte_at _ _ _ Ho)).
Qed.

(** A free entry is found from the bottom. *)
Definition unused (o : ofte V) : Prop := vn o = NO_VN.

Lemma oft_alloc_first p o (s : state) :
  lenZ (oft s) = MAX_OPEN_FILES -> first_at unused (oft s) p -> nthZ (oft s) p = Some o ->
  oft_alloc s = Done (Some p) (set_oft (setZ (oft s) p (mk_ofte (fp o) (flags o) 1 BUSY_OFTE)) s).
Proof.
  intros Hl [(o1 & Hp & Hu) Hb] Ho. simplify_eq. pose proof (nthZ_Some_lt _ _ _ Hp) as Hlt.
  apply iterate_first with (k := p); [rewrite Z2Nat.id by done; lia| |].
  - intros j Hj. destruct (nthZ_is_Some (oft s) j) as [oj Hoj]; [lia|].
    rewrite (bind_done _ _ _ _ _ (get_ofte_at _ _ _ Hoj)). pose proof (Hb j oj ltac:(lia) Hoj) as Hn.
    unfold unused in Hn. by destruct (vn oj).
  - rewrite (bind_done _ _ _ _ _ (get_ofte_at _ _ _ Hp)). unfold unused in Hu. by rewrite Hu.
Qed.

Lemma oft_alloc_full (s : state) :
  lenZ (oft s) = MAX_OPEN_FILES -> nowhere unused (oft s) -> oft_alloc s = Done None s.
Proof.
  intros Hl Hn. apply iterate_none. intros j Hj. rewrite Z2Nat.id in Hj by done.
  destruct (nthZ_is_Some (oft s) j) as [oj Hoj]; [lia|].
  rewrite (bind_done _ _ _ _ _ (get_ofte_at _ _ _ Hoj)). specialize (Hn j oj Hoj).
  unfold unused in Hn. by destruct (vn oj).
Qed.

(** The entry [oft_alloc] took is given back when [vfs_open] fails. *)
Definition refused_entry (o : ofte V) : ofte V := mk_ofte (fp o) (flags o) 0 NO_VN.

Lemma open_at_run path oflags fd tbl p o r w (s : state) :
  lenZ (oft s) = MAX_OPEN_FILES -> fdts s !! curthread s = Some tbl -> nthZ tbl fd = Some None ->
  first_at unused (oft s) p -> nthZ (oft s) p = Some o ->
  vfs_open path oflags (fvfs s) = Done r w ->
  open_at path oflags fd s =
  match r with
  | inl e => Done (inl e) (set_fvfs w (set_oft (setZ (oft s) p (refused_entry o)) s))
  | inr v => Done (inr fd) (set_fvfs w (set_oft (setZ (oft s) p (mk_ofte 0 oflags 1 (VN v)))
                             (set_fdts (<[curthread s := setZ tbl fd (Some p)]> (fdts s)) s)))
  end.
Proof.
  intros Hl Ht Hfd Hf Ho Hv. pose proof (nthZ_Some_lt _ _ _ Ho) as Hlt. unfold open_at.
  rewrite (bind_done _ _ _ _ _ (oft_alloc_first _ _ _ Hl Hf Ho)).
  erewrite bind_done by (apply vfs_do_at; exact Hv). destruct r as [e|v].
  - unfold oft_free. erewrite bind_done.
    2: { erewrite bind_done by (apply get_ofte_at; simpl; by rewrite nthZ_setZ_eq). simpl.
         unfold int_of. rewrite bool_decide_true by lia. unfold bind at 1. simpl.
         erewrite bind_done by apply put_ofte_at. done. }
    erewrite bind_done by (eapply put_fd_at; [exact Ht|exact Hfd]). simpl.
    rewrite setZ_setZ, (setZ_id tbl), insert_id by done. done.
  - erewrite bind_done by (eapply put_fd_at; [exact Ht|exact Hfd]).
    erewrite bind_done by (apply get_ofte_at; simpl; by rewrite nthZ_setZ_eq).
    erewrite bind_done by apply put_ofte_at. simpl. by rewrite setZ_setZ.
Qed.

(** The pathname as [sys_open] finds it in its buffer. *)
Definition fetches (filename : Z) (s : state) (path : list Z) (m : mem) : Prop :=
  exists n, pinned (copyinstr filename KBUF PATH_MAX) (pathname s, fmem s) = Done (inr n) (path, m).

Lemma sys_open_run filename oflags path m tbl (s : state) :
  lenZ tbl = MAX_FD -> fdts s !! curthread s = Some tbl -> fetches filename s path m ->
  (nowhere (fun q => q = None) tbl -> sys_open filename oflags s = Done (inl EMFILE) (set_copied path m s)) /\
  (forall fd, first_at (fun q => q = None) tbl fd ->
     sys_open filename oflags s = open_at (c_string path) oflags fd (set_copied path m s)).
Proof.
  intros Hl Ht (n & Hc). unfold sys_open.
  assert (forall A (f : Z -> E state A), tbind (zoom (fun s => (pathname s, fmem s)) (fun t s => set_copied t.1 t.2 s)
      (pinned (copyinstr filename KBUF PATH_MAX))) f s = f n (set_copied path m s)) as Hz.
  { intros A f. apply tbind_done. unfold zoom. by rewrite Hc. }
  rewrite Hz. split.
  - intros Hn. erewrite bind_done; cycle 1; [apply iterate_none|reflexivity].
    intros j Hj. rewrite Z2Nat.id in Hj by done.
    destruct (nthZ_is_Some tbl j) as [q Hq]; [lia|]. erewrite bind_done by (eapply get_fd_at; [exact Ht|exact Hq]).
    specialize (Hn j q Hq). by destruct q.
  - intros fd [(q & Hfd & ->) Hb]. pose proof (nthZ_Some_lt _ _ _ Hfd) as Hlt.
    erewrite bind_done; cycle 1; [apply iterate_first with (k := fd) (r := fd) (s' := set_copied path m s); [rewrite Z2Nat.id by done; lia| |]|reflexivity].
    + intros j Hj. destruct (nthZ_is_Some tbl j) as [q Hq]; [lia|].
      erewrite bind_done by (eapply get_fd_at; [exact Ht|exact Hq]).
      specialize (Hb j q ltac:(lia) Hq). by destruct q.
    + by erewrite bind_done by (eapply get_fd_at; [exact Ht|exact Hfd]).
Qed.

(** ** Descriptors *)

(** What [check_fd_access] lets through. *)
Definition allows (o : ofte V) (acc : fd_access) : bool :=
  match acc with
  | F_ANY => true
  | F_READ => negb (Z.land (flags o) O_ACCMODE =? O_WRONLY)
  | F_WRITE => negb (Z.land (flags o) O_ACCMODE =? O_RDONLY)
  end.

Lemma check_fd_open tbl fd p o acc (s : state) :
  fdts s !! curthread s = Some tbl -> 0 <= fd < MAX_FD -> nthZ tbl fd = Some (Some p) -> nthZ (oft s) p = Some o ->
  Z.land (flags o) O_ACCMODE <> O_ACCMODE ->
  check_fd_access fd acc s = Done (if allows o acc then inr tt else inl EBADF) s.
Proof.
  intros Ht Hfd Hp Ho Hm. unfold check_fd_access.
  destruct (Z.ltb_spec fd 0); [lia|]. destruct (Z.leb_spec MAX_FD fd); [lia|]. simpl.
  erewrite bind_done by (eapply get_fd_at; [exact Ht|exact Hp]).
  cbv beta iota. erewrite bind_done by (eapply get_ofte_at; exact Ho). unfold allows.
  assert (Z.land (flags o) O_ACCMODE = 0 \/ Z.land (flags o) O_ACCMODE = 1 \/ Z.land (flags o) O_ACCMODE = 2) as Hc.
  { pose proof (Z.land_ones (flags o) 2 ltac:(lia)) as Hl. change (Z.ones 2) with O_ACCMODE in Hl.
    pose proof (Z.mod_pos_bound (flags o) (2 ^ 2) ltac:(lia)). change O_ACCMODE with 3 in *. lia. }
  destruct Hc as [-> | [-> | ->]]; by destruct acc.
Qed.

(** A number that is no descriptor of the thread. *)
Definition no_descriptor (s : state) (fd : Z) : Prop :=
  exists tbl, fdts s !! curthread s = Some tbl /\ lenZ tbl = MAX_FD /\ forall p, nthZ tbl fd <> Some (Some p).

Lemma check_fd_none fd acc (s : state) : no_descriptor s fd -> check_fd_access fd acc s = Done (inl EBADF) s.
Proof.
  intros (tbl & Ht & Hl & Hp). unfold check_fd_access.
  destruct (Z.ltb_spec fd 0); [done|]. destruct (Z.leb_spec MAX_FD fd); [done|]. simpl.
  destruct (nthZ_is_Some tbl fd) as [[p|] Hq]; [lia|by destruct (Hp p)|].
  by erewrite bind_done by (eapply get_fd_at; [exact Ht|exact Hq]).
Qed.

Lemma sys_close_run tbl fd p o v w (s : state) :
  fdts s !! curthread s = Some tbl -> 0 <= fd < MAX_FD -> nthZ tbl fd = Some (Some p) -> nthZ (oft s) p = Some o ->
  Z.land (flags o) O_ACCMODE <> O_ACCMODE -> count o = 1 -> vn o = VN v ->
  vfs_close v (fvfs s) = Done tt w ->
  sys_close fd s = Done (inr tt) (set_fvfs w (set_oft (setZ (oft s) p (refused_entry o))
                     (set_fdts (<[curthread s := setZ tbl fd None]> (fdts s)) s))).
Proof.
  intros Ht Hb Hfd Ho Hm Hc Hv Hw. unfold sys_close.
  erewrite tbind_done by (eapply (check_fd_open _ _ _ _ F_ANY); done). simpl.
  erewrite bind_done by (by eapply open_file_at). simpl.
  unfold oft_free. erewrite bind_done.
  2: { erewrite bind_done by (by apply get_ofte_at). rewrite Hc. simpl. reflexivity. }
  simpl. unfold file_vnode. rewrite Hv. erewrite bind_done by (apply vfs_do_at; exact Hw).
  by erewrite bind_done by (eapply put_fd_at; [exact Ht|exact Hfd]).
Qed.

(** The position of an open file moves. *)
Definition seek_to (p : Z) (o : ofte V) (n : Z) (s : state) : state :=
  set_oft (setZ (oft s) p (mk_ofte n (flags o) (count o) (vn o))) s.

Lemma lseek_set_run tbl fd p o v pos r w (s : state) :
  fdts s !! curthread s = Some tbl -> 0 <= fd < MAX_FD -> nthZ tbl fd = Some (Some p) -> nthZ (oft s) p = Some o ->
  Z.land (flags o) O_ACCMODE <> O_ACCMODE -> vn o = VN v -> 0 <= pos ->
  VOP_TRYSEEK v pos (world (fvfs s)) = Done r w ->
  sys_lseek fd pos SEEK_SET s =
  Done (inr pos) (seek_to p o pos (set_fvfs (set_world w (fvfs s)) s)).
Proof.
  intros Ht Hb Hfd Ho Hm Hv Hpos Hr. unfold sys_lseek.
  erewrite tbind_done by (eapply (check_fd_open _ _ _ _ F_ANY); done). simpl.
  erewrite bind_done by (by eapply open_file_at). simpl.
  rewrite tbind_ok. destruct (Z.ltb_spec pos 0); [lia|]. unfold file_vnode. rewrite Hv.
  unfold bind at 1. simpl. erewrite bind_done by (apply vfs_do_at; unfold below, zoom; rewrite Hr; reflexivity).
  unfold seek_to. rewrite Hv. destruct r as [e|[]]; [|done]. assert (errno_code e <? 0 = false) as -> by (by destruct e). done.
Qed.
End outcomes.

(** ** The system's vnodes as files *)

Section system_files.
Context {D : Type} `{BlockDevice D}.

#[export] Instance system_files : FileIO (system (D := D)) System.vn := {|
  VOP_READ v := either_io v (fun d => dev_vop_io d (dev_read d)) SfsDir.VOP_READ;
  VOP_WRITE v := either_io v (fun d => dev_vop_io d (dev_write d)) SfsDir.VOP_WRITE;
  VOP_STAT v := either v (fun d => dev_vop d (dev_stat d)) SfsDir.VOP_STAT;
  VOP_TRYSEEK v n := either v (fun d => dev_vop d (dev_tryseek d n)) (fun p => SfsDir.VOP_TRYSEEK p n);
|}.
End system_files.

(** ** Witness data: one thread, the null device, "null:" in user memory *)

Definition demo_user : mem := list_to_map (imap (fun i b => (4096 + Z.of_nat i, b)) (str "null:" ++ [0])).
Definition demo_table16 : list (option Z) := replicate 16 None.
Definition demo_files {W} (w : W) : files W System.vn Z :=
  mk_files (demo_state w) (replicate 64 (mk_ofte 0 0 0 NO_VN)) {[7 := demo_table16]} 7 (replicate 1024 0) demo_user (Some 0).
Definition demo_ledger : system * ledger System.vn := (demo_system, mk_ledger (fun _ => 0) (fun _ => 0)).
Definition demo_caller : caller := mk_caller 7 demo_user (Some 0).

Lemma demo_no_refs t fd p : ~ refers {[7 := demo_table16]} t fd p.
Proof.
  intros (tbl & [<- <-]%lookup_singleton_Some & Hq). pose proof (nthZ_Some_lt _ _ _ Hq) as Hb.
  unfold demo_table16 in *. rewrite lenZ_replicate in Hb. by rewrite nthZ_replicate in Hq.
Qed.

Lemma demo_tables_ok {W} (w : W) : tables_ok (oft (demo_files w)) (fdts (demo_files w)).
Proof.
  unfold demo_files. split; cbn [oft fdts].
  - done.
  - intros t tbl [_ <-]%lookup_singleton_Some. done.
  - intros t fd p Hr. by apply demo_no_refs in Hr.
  - intros t fd t' fd' p Hr. by apply demo_no_refs in Hr.
  - intros p o Hp _. pose proof (nthZ_Some_lt _ _ _ Hp) as Hb.
    rewrite (nthZ_replicate 64) in Hp; [by inv Hp|]. exact Hb.
Qed.

Lemma held_unused {V} `{EqDecision V} (l : list (ofte V)) u :
  (forall p o, nthZ l p = Some o -> vn o = NO_VN) -> held l u = 0.
Proof.
  intros Hl. induction l as [|o l IH]; simpl; [done|]. unfold holds_vn. rewrite (Hl 0 o eq_refl), IH; [done|].
  intros p o' Hp. pose proof (nthZ_Some_lt _ _ _ Hp). apply (Hl (p + 1)).
  rewrite nthZ_to_nat in * by lia. replace (Z.to_nat (p + 1)) with (S (Z.to_nat p)) by lia. done.
Qed.

(** ** Properties *)


Definition demo_calls : list (caller * file_call) :=
  [(demo_caller, do_open 4096 O_RDWR); (demo_caller, do_open 4096 O_RDONLY); (demo_caller, do_write 0 4096 3);
   (demo_caller, do_close 0); (demo_caller, do_close 0)].


(** C20. [sys_open] on every branch, once the pathname is fetched: EMFILE when the thread
    has no free descriptor, else ENFILE when the open file table is full, in both cases
    without a call of the VFS layer; else the error of [vfs_open], with both tables as
    they were but for the count of a free entry; else the lowest free descriptor now
    stands for the lowest free entry, which holds the vnode at position 0. *)
Theorem sys_open_outcome {W V F} `{FileLayer W V F} `{FileIO W V} `{EqDecision V} `{EqDecision F}
    (s : files W V F) (filename oflags : Z) (path : list Z) (m : mem) (tbl : list (option Z)) :
  tables_ok (oft s) (fdts s) -> fdts s !! curthread s = Some tbl -> fetches filename s path m ->
  let s1 := set_copied path m s in
  (nowhere (fun q => q = None) tbl -> sys_open filename oflags s = Done (inl EMFILE) s1) /\
  forall fd, first_at (fun q => q = None) tbl fd ->
  (nowhere unused (oft s) -> sys_open filename oflags s = Done (inl ENFILE) s1) /\
  forall p o, first_at unused (oft s) p -> nthZ (oft s) p = Some o ->
  forall r w, vfs_open (c_string path) oflags (fvfs s) = Done r w ->
  sys_open filename oflags s =
  match r with
  | inl e => Done (inl e) (set_fvfs w (set_oft (setZ (oft s) p (mk_ofte (fp o) (flags o) 0 NO_VN)) s1))
  | inr v => Done (inr fd) (set_fvfs w (set_oft (setZ (oft s) p (mk_ofte 0 oflags 1 (VN v)))
                             (set_fdts (<[curthread s := setZ tbl fd (Some p)]> (fdts s)) s1)))
  end.
Proof.
  intros Hs Ht Hf. cbv zeta. destruct (sys_open_run filename oflags path m tbl s (to_fds _ _ Hs _ _ Ht) Ht Hf) as [Hfull Hrun].
  split; [exact Hfull|]. intros fd Hfd. rewrite (Hrun fd Hfd). pose proof Hfd as [(q & Hq & ->) _]. split.
  - intros Hn. unfold open_at. rewrite (bind_done _ _ _ _ _ (oft_alloc_full (set_copied path m s) (to_len _ _ Hs) Hn)).
    erewrite bind_done by (eapply put_fd_at; [exact Ht|exact Hq]). simpl. rewrite setZ_id, insert_id by done. done.
  - intros p o Hp Ho r w Hv. by rewrite (open_at_run _ _ fd tbl p o r w (set_copied path m s) (to_len _ _ Hs) Ht Hq Hp Ho Hv).
Qed.

Lemma demo_fetches {W} (w : W) : exists path m, fetches 4096 (demo_files w) path m /\ c_string path = str "null:".
Proof.
  assert (match pinned (copyinstr 4096 KBUF PATH_MAX) (replicate 1024 0, demo_user) with
          | Done (inr _) (p, _) => bool_decide (c_string p = str "null:") | _ => false end = true) as Hb
    by (vm_compute; reflexivity).
  destruct (pinned (copyinstr 4096 KBUF PATH_MAX) (replicate 1024 0, demo_user)) as [[e|n] [p m]| | |] eqn:Hr; try discriminate Hb.
  apply bool_decide_eq_true in Hb. exists p, m. split; [by exists n|done].
Qed.

Lemma first_of {A} (P : A -> Prop) (l : list A) a : nthZ l 0 = Some a -> P a -> first_at P l 0.
Proof. intros Hl Ha. split; [by exists a|]. intros j a' Hj. lia. Qed.

Lemma demo_first_unused : first_at unused (oft (demo_files demo_system)) 0.
Proof. apply (first_of _ _ (mk_ofte 0 0 0 NO_VN)); reflexivity. Qed.

Lemma sys_open_outcome_witness :
  exists s', sys_open 4096 O_RDWR (demo_files demo_system) = Done (inr 0) s' /\
  nthZ (oft s') 0 = Some (mk_ofte 0 O_RDWR 1 (VN (inl 0))).
Proof.
  destruct (demo_fetches demo_system) as (path & m & Hf & Hp).
  destruct (sys_open_outcome (demo_files demo_system) 4096 O_RDWR path m demo_table16 (demo_tables_ok _) eq_refl Hf)
    as [_ Hrun].
  destruct (Hrun 0 (first_of _ demo_table16 None eq_refl eq_refl)) as [_ Hrun1].
  destruct (vfs_open (c_string path) O_RDWR (fvfs (demo_files demo_system))) as [r w| | |] eqn:Hv;
    pose proof Hv as Hv'; rewrite Hp in Hv'; try discriminate Hv'.
  eexists. split.
  - rewrite (Hrun1 0 (mk_ofte 0 0 0 NO_VN) demo_first_unused eq_refl r w eq_refl). inversion Hv'; subst. reflexivity.
  - reflexivity.
Defined.

(** C21. Opening and closing are inverse: [sys_close] of the descriptor [sys_open] gave
    puts the descriptors back as they were and frees the entry again, and a second
    [sys_close] gives EBADF. *)
Theorem sys_close_undoes_open {W V F} `{FileLayer W V F} `{FileIO W V} `{EqDecision V} `{EqDecision F}
    (s s' : files W V F) (filename oflags fd p : Z) (path : list Z) (m : mem) (tbl : list (option Z)) (v : V)
    (w w' : vfs W V F) :
  tables_ok (oft s) (fdts s) -> fdts s !! curthread s = Some tbl -> fetches filename s path m ->
  first_at (fun q => q = None) tbl fd -> first_at unused (oft s) p ->
  Z.land oflags O_ACCMODE <> O_ACCMODE ->
  vfs_open (c_string path) oflags (fvfs s) = Done (inr v) w -> vfs_close v w = Done tt w' ->
  sys_open filename oflags s = Done (inr fd) s' ->
  exists s2, sys_close fd s' = Done (inr tt) s2 /\ fvfs s2 = w' /\ fdts s2 = fdts s /\
  oft s2 = setZ (oft s) p (mk_ofte 0 oflags 0 NO_VN) /\ sys_close fd s2 = Done (inl EBADF) s2.
Proof.
  intros Hs Ht Hf Hfd Hp Hm Hv Hw Hrun. pose proof (to_fds _ _ Hs _ _ Ht) as Hl.
  destruct (sys_open_run filename oflags path m tbl s Hl Ht Hf) as [_ Ho]. rewrite (Ho fd Hfd) in Hrun.
  pose proof Hfd as [(q & Hq & ->) _]. pose proof Hp as [(o & Hpo & _) _].
  pose proof (nthZ_Some_lt _ _ _ Hq) as Hb. pose proof (nthZ_Some_lt _ _ _ Hpo) as Hbp.
  rewrite (open_at_run _ _ fd tbl p o (inr v) w (set_copied path m s) (to_len _ _ Hs) Ht Hq Hp Hpo Hv) in Hrun.
  inv Hrun. eexists. split.
  { eapply (sys_close_run _ _ p (mk_ofte 0 oflags 1 (VN v))); [apply lookup_insert_eq|lia|by apply nthZ_setZ_eq
      |by apply nthZ_setZ_eq|done|done|done|done]. }
  simpl. rewrite !setZ_setZ, insert_insert_eq, (setZ_id tbl), insert_id by done.
  repeat (split; [done|]). unfold sys_close. erewrite tbind_fail; [done|]. apply check_fd_none.
  exists tbl. split; [done|]. split; [done|]. intros p'. by rewrite Hq.
Qed.

Lemma sys_close_undoes_open_witness :
  exists s1 s2, sys_open 4096 O_RDWR (demo_files demo_system) = Done (inr 0) s1 /\
  sys_close 0 s1 = Done (inr tt) s2 /\ fdts s2 = {[7 := demo_table16]}.
Proof.
  destruct (demo_fetches demo_system) as (path & m & Hf & Hp).
  destruct (sys_open 4096 O_RDWR (demo_files demo_system)) as [[e|fd] s1| | |] eqn:Hrun;
    try (exfalso; assert (match sys_open 4096 O_RDWR (demo_files demo_system) with Done (inr _) _ => true | _ => false end = true)
           as Hb by (vm_compute; reflexivity); rewrite Hrun in Hb; discriminate Hb).
  assert (match sys_open 4096 O_RDWR (demo_files demo_system) with Done (inr n) _ => n =? 0 | _ => false end = true)
    as Hz by (vm_compute; reflexivity). rewrite Hrun in Hz. apply Z.eqb_eq in Hz. subst fd.
  destruct (vfs_open (c_string path) O_RDWR (fvfs (demo_files demo_system))) as [[e|v] w| | |] eqn:Hv;
    pose proof Hv as Hv'; rewrite Hp in Hv'; try discriminate Hv'.
  destruct (vfs_close v w) as [[] w'| | |] eqn:Hw; pose proof Hw as Hw';
    injection Hv' as Ev Ew; rewrite <- Ev, <- Ew in Hw'; try discriminate Hw'.
  destruct (sys_close_undoes_open (demo_files demo_system) s1 4096 O_RDWR 0 0 path m demo_table16 v w w'
    (demo_tables_ok _) eq_refl Hf (first_of _ demo_table16 None eq_refl eq_refl)
    demo_first_unused ltac:(discriminate) Hv Hw Hrun) as (s2 & Hc & _ & Hfd & _).
  exists s1, s2. split; [first [exact Hrun | reflexivity]|]. split; [exact Hc|exact Hfd].
Defined.

(** The system call numbers that take a descriptor and check it. *)
Definition checks_descriptor (callno : Z) : Prop :=
  callno = SYS_read \/ callno = SYS_write \/ callno = SYS_close \/ callno = SYS_lseek.
Definition unknown_call (callno : Z) : Prop :=
  ~ (callno ∈ [SYS_reboot; SYS_open; SYS_read; SYS_write; SYS_close; SYS_lseek; SYS_fstat; SYS_sync]).

Definition failed (e : errno) (tf : trapframe) : trapframe :=
  mk_tf (errno_code e) (tf_a0 tf) (tf_a1 tf) (tf_a2 tf) 1 (u32 (tf_epc tf + 4)).

(** C35. What user code gets back for a bad call: a number the kernel does not know gives
    ENOSYS, and [read], [write], [close] and [lseek] of anything but an open descriptor
    of the thread give EBADF, with the error flag set, the program counter past the
    system call, and no effect at all. *)
Theorem mips_syscall_rejects {W V F} `{FileLayer W V F} `{FileIO W V} `{EqDecision V} `{EqDecision F}
    (sys_reboot : Z -> E (files W V F) unit) (s : files W V F) (tf : trapframe) :
  (unknown_call (s32 (tf_v0 tf)) -> mips_syscall sys_reboot tf s = Done (failed ENOSYS tf) s) /\
  (checks_descriptor (s32 (tf_v0 tf)) -> no_descriptor s (s32 (tf_a0 tf)) ->
   mips_syscall sys_reboot tf s = Done (failed EBADF tf) s).
Proof.
  split.
  - intros Hn. unfold unknown_call in Hn. rewrite !not_elem_of_cons in Hn.
    destruct Hn as (? & ? & ? & ? & ? & ? & ? & ? & _). unfold mips_syscall.
    rewrite !(proj2 (Z.eqb_neq _ _)) by done. done.
  - intros Hc Hd. unfold mips_syscall, sys_read, sys_write, sys_close, sys_lseek.
    destruct Hc as [-> | [-> | [-> | ->]]]; simpl; unfold returns, tbind, bind; by rewrite check_fd_none.
Qed.

Lemma mips_syscall_rejects_witness :
  mips_syscall (fun _ => ok tt) (mk_tf SYS_close 3 0 0 0 4096) (demo_files demo_system) =
  Done (mk_tf 26 3 0 0 1 4100) (demo_files demo_system).
Proof.
  apply (mips_syscall_rejects (fun _ => ok tt) (demo_files demo_system) (mk_tf SYS_close 3 0 0 0 4096)).
  - right. right. left. reflexivity.
  - exists demo_table16. split; [reflexivity|]. split; [reflexivity|]. intros p. discriminate.
Defined.

(** [sys_lseek] never hears a refusal: it tests the result of [VOP_TRYSEEK] for being
    negative, and error numbers are positive. Whatever the vnode answers, a seek of an
    open descriptor to a position that is not negative succeeds and moves the file
    there. *)
Theorem sys_lseek_ignores_refusal {W V F} `{FileLayer W V F} `{FileIO W V} `{EqDecision V} `{EqDecision F}
    (s : files W V F) (tbl : list (option Z)) (fd p pos : Z) (o : ofte V) (v : V) (r : errno + unit) (w : W) :
  tables_ok (oft s) (fdts s) -> fdts s !! curthread s = Some tbl -> nthZ tbl fd = Some (Some p) ->
  nthZ (oft s) p = Some o -> Z.land (flags o) O_ACCMODE <> O_ACCMODE -> vn o = VN v -> 0 <= pos ->
  VOP_TRYSEEK v pos (world (fvfs s)) = Done r w ->
  exists s', sys_lseek fd pos SEEK_SET s = Done (inr pos) s' /\
  nthZ (oft s') p = Some (mk_ofte pos (flags o) (count o) (vn o)).
Proof.
  intros Hs Ht Hp Ho Hm Hv Hpos Hr. pose proof (nthZ_Some_lt _ _ _ Hp) as Hb. pose proof (nthZ_Some_lt _ _ _ Ho) as Hbo.
  rewrite (to_fds _ _ Hs _ _ Ht) in Hb. eexists. split; [by eapply lseek_set_run|].
  simpl. by rewrite nthZ_setZ_eq.
Qed.

Definition demo_open_null : files system System.vn Z :=
  set_oft (setZ (replicate 64 (mk_ofte 0 0 0 NO_VN)) 0 (mk_ofte 0 O_RDWR 1 (VN (inl 0))))
    (set_fdts {[7 := setZ demo_table16 0 (Some 0)]} (demo_files demo_system)).

Lemma demo_open_ok : tables_ok (oft demo_open_null) (fdts demo_open_null).
Proof.
  assert (fdts demo_open_null = <[7 := setZ demo_table16 0 (Some 0)]> {[7 := demo_table16]}) as -> by reflexivity.
  apply (tables_opened (oft (demo_files demo_system)) _ 7 demo_table16 0 0 (mk_ofte 0 0 0 NO_VN) _ (inl 0)); try reflexivity.
  apply demo_tables_ok.
Qed.

Lemma sys_lseek_ignores_refusal_witness :
  VOP_TRYSEEK (inl 0) 5 demo_system = Done (inl ESPIPE) demo_system /\
  exists s', sys_lseek 0 5 SEEK_SET demo_open_null = Done (inr 5) s'.
Proof.
  assert (VOP_TRYSEEK (inl 0) 5 demo_system = Done (inl ESPIPE) demo_system) as Hr by reflexivity.
  split; [exact Hr|].
  destruct (sys_lseek_ignores_refusal demo_open_null (setZ demo_table16 0 (Some 0)) 0 0 5 (mk_ofte 0 O_RDWR 1 (VN (inl 0)))
    (inl 0) (inl ESPIPE) demo_system demo_open_ok) as (s' & Hs & _);
    [reflexivity|reflexivity|reflexivity|discriminate|reflexivity|lia|exact Hr|].
  exists s'. exact Hs.
Defined.

(** Two calls leave what C defines: after [SYS_sync] the dispatcher tests an error
    variable that nothing has set, and [SYS_fstat] indexes the descriptor table with
    the number user code gave, unchecked. *)
Theorem mips_syscall_undefined {W V F} `{FileLayer W V F} `{FileIO W V} `{EqDecision V} `{EqDecision F}
    (sys_reboot : Z -> E (files W V F) unit) (s : files W V F) (tf : trapframe) :
  (s32 (tf_v0 tf) = SYS_sync -> forall tf' s', mips_syscall sys_reboot tf s <> Done tf' s') /\
  (s32 (tf_v0 tf) = SYS_fstat -> no_descriptor s (s32 (tf_a0 tf)) -> mips_syscall sys_reboot tf s = Undef).
Proof.
  split.
  - intros Hc tf' s'. unfold mips_syscall. rewrite Hc. simpl. unfold bind at 1 2. by destruct (sys_sync s).
  - intros Hc (tbl & Ht & Hl & Hp). unfold mips_syscall. rewrite Hc. simpl.
    unfold returns, sys_fstat, open_file, get_fd. simpl_m. rewrite Ht. simpl.
    destruct (nthZ tbl (s32 (tf_a0 tf))) as [[p|]|] eqn:Hq; [by destruct (Hp p)|done..].
Qed.

Lemma mips_syscall_undefined_witness :
  mips_syscall (fun _ => ok tt) (mk_tf SYS_fstat 20 0 0 0 4096) (demo_files demo_system) = Undef.
Proof.
  apply (mips_syscall_undefined (fun _ => ok tt) (demo_files demo_system) (mk_tf SYS_fstat 20 0 0 0 4096)).
  - reflexivity.
  - exists demo_table16. split; [reflexivity|]. split; [reflexivity|]. intros p. discriminate.
Defined.
