(* ===== verification/AddrSpace.v ===== *)
(** * Address spaces and page faults (kern/arch/mips/mips/dumbvm.c, kern/include/addrspace.h).

    An address space is two regions and a stack, each backed by one run of physical
    pages. The structures live in blocks of the kernel heap, which takes its own pages
    from the same [ram]; [spaces] says which structure is at an address. The heap's own
    words are in [kmem]; [vmem] holds the bytes of the pages handed out, by their kernel
    address. The TLB is the list of its entries. *)

From stdpp Require Import base numbers list gmap.
From Stdlib Require Import ZArith Lia.
From S2P Require Import Prelude Ram Kheap Mem.

Definition DUMBVM_STACKPAGES : Z := 12.
Definition VM_FAULT_READ : Z := 0.
Definition VM_FAULT_WRITE : Z := 1.
Definition VM_FAULT_READONLY : Z := 2.

Definition NUM_TLB : Z := 64.
Definition TLBLO_DIRTY : Z := 0x400.
Definition TLBLO_VALID : Z := 0x200.
Definition TLBHI_INVALID (entryno : Z) : Z := u32 (Z.shiftl (0x80000 + entryno) 12).
Definition TLBLO_INVALID : Z := 0.

Record addrspace : Type := mk_as {
  as_vbase1 : Z; as_pbase1 : Z; as_npages1 : Z;
  as_vbase2 : Z; as_pbase2 : Z; as_npages2 : Z;
  as_stackpbase : Z;
}.

Definition sizeof_addrspace : Z := 28.

Definition set_region1 (v n : Z) (a : addrspace) : addrspace :=
  mk_as v (as_pbase1 a) n (as_vbase2 a) (as_pbase2 a) (as_npages2 a) (as_stackpbase a).
Definition set_region2 (v n : Z) (a : addrspace) : addrspace :=
  mk_as (as_vbase1 a) (as_pbase1 a) (as_npages1 a) v (as_pbase2 a) n (as_stackpbase a).
Definition set_pbase1 (p : Z) (a : addrspace) : addrspace :=
  mk_as (as_vbase1 a) p (as_npages1 a) (as_vbase2 a) (as_pbase2 a) (as_npages2 a) (as_stackpbase a).
Definition set_pbase2 (p : Z) (a : addrspace) : addrspace :=
  mk_as (as_vbase1 a) (as_pbase1 a) (as_npages1 a) (as_vbase2 a) p (as_npages2 a) (as_stackpbase a).
Definition set_stackpbase (p : Z) (a : addrspace) : addrspace :=
  mk_as (as_vbase1 a) (as_pbase1 a) (as_npages1 a) (as_vbase2 a) (as_pbase2 a) (as_npages2 a) p.

Record vmstate : Type := mk_vm {
  vheap : heap ram;
  spaces : gmap Z addrspace;
  vmem : mem;
  tlb : list (Z * Z);           (* TLB entries: high and low word *)
  vspl : Z;                     (* curspl *)
  t_vmspace : option Z;         (* curthread->t_vmspace *)
}.

Definition set_vheap (h : heap ram) (v : vmstate) : vmstate := mk_vm h (spaces v) (vmem v) (tlb v) (vspl v) (t_vmspace v).
Definition set_spaces (m : gmap Z addrspace) (v : vmstate) : vmstate := mk_vm (vheap v) m (vmem v) (tlb v) (vspl v) (t_vmspace v).
Definition set_vmem (m : mem) (v : vmstate) : vmstate := mk_vm (vheap v) (spaces v) m (tlb v) (vspl v) (t_vmspace v).
Definition set_tlb (l : list (Z * Z)) (v : vmstate) : vmstate := mk_vm (vheap v) (spaces v) (vmem v) l (vspl v) (t_vmspace v).
Definition set_vspl (n : Z) (v : vmstate) : vmstate := mk_vm (vheap v) (spaces v) (vmem v) (tlb v) n (t_vmspace v).
Definition set_t_vmspace (p : option Z) (v : vmstate) : vmstate := mk_vm (vheap v) (spaces v) (vmem v) (tlb v) (vspl v) p.

Definition on_heap {A} (m : M (heap ram) A) : M vmstate A := zoom vheap set_vheap m.
Definition get_space (p : Z) : M vmstate addrspace := let! v := get in of_option (spaces v !! p).
Definition put_space (p : Z) (a : addrspace) : M vmstate unit :=
  let! v := get in put (set_spaces (<[p := a]> (spaces v)) v).

(** ** Interrupt level *)

Definition SPL_HIGH : Z := 15.
Definition splx (newspl : Z) : M vmstate Z :=
  let! v := get in do! put (set_vspl newspl v) in ret (vspl v).
Definition splhigh : M vmstate Z := splx SPL_HIGH.

(** ** The TLB (kern/arch/mips/include/tlb.h) *)

Definition TLB_Read (i : Z) : M vmstate (Z * Z) := let! v := get in of_option (nthZ (tlb v) i).
Definition TLB_Write (entryhi entrylo i : Z) : M vmstate unit :=
  let! v := get in put (set_tlb (setZ (tlb v) i (entryhi, entrylo)) v).

(** ** dumbvm.c *)

Definition vm_getppages (npages : Z) : M vmstate Z :=
  let! spl := splhigh in
  let! addr := on_heap (on_pages (ram_stealmem npages)) in
  do! splx spl in
  ret addr.

Definition page_aligned (a : Z) : bool := Z.land a PAGE_FRAME =? a.

(** The assertions of [vm_fault] on the address space. *)
Definition assert_set_up (a : addrspace) : M vmstate unit :=
  do! assert_ (negb (as_vbase1 a =? 0)) in
  do! assert_ (negb (as_pbase1 a =? 0)) in
  do! assert_ (negb (as_npages1 a =? 0)) in
  do! assert_ (negb (as_vbase2 a =? 0)) in
  do! assert_ (negb (as_pbase2 a =? 0)) in
  do! assert_ (negb (as_npages2 a =? 0)) in
  do! assert_ (negb (as_stackpbase a =? 0)) in
  do! assert_ (page_aligned (as_vbase1 a)) in
  do! assert_ (page_aligned (as_pbase1 a)) in
  do! assert_ (page_aligned (as_vbase2 a)) in
  do! assert_ (page_aligned (as_pbase2 a)) in
  assert_ (page_aligned (as_stackpbase a)).

(** The physical page of a page address, if a region has it. *)
Definition fault_paddr (a : addrspace) (fa : Z) : option Z :=
  let vbase1 := as_vbase1 a in
  let vtop1 := u32 (vbase1 + u32 (as_npages1 a * PAGE_SIZE)) in
  let vbase2 := as_vbase2 a in
  let vtop2 := u32 (vbase2 + u32 (as_npages2 a * PAGE_SIZE)) in
  let stackbase := USERSTACK - DUMBVM_STACKPAGES * PAGE_SIZE in
  let stacktop := USERSTACK in
  if (vbase1 <=? fa) && (fa <? vtop1) then Some (u32 (fa - vbase1 + as_pbase1 a))
  else if (vbase2 <=? fa) && (fa <? vtop2) then Some (u32 (fa - vbase2 + as_pbase2 a))
  else if (stackbase <=? fa) && (fa <? stacktop) then Some (u32 (fa - stackbase + as_stackpbase a))
  else None.

(** The loop over the TLB: stores the translation in the first invalid entry. *)
Definition tlb_insert (faultaddress paddr : Z) : M vmstate (option unit) :=
  iterate (Z.to_nat NUM_TLB) 0 (fun i =>
    let! (ehi, elo) := TLB_Read i in
    if negb (Z.land elo TLBLO_VALID =? 0) then ret None
    else
      let ehi := faultaddress in
      let elo := Z.lor (Z.lor paddr TLBLO_DIRTY) TLBLO_VALID in
      do! TLB_Write ehi elo i in
      ret (Some tt)).

Definition vm_fault (faulttype faultaddress : Z) : E vmstate unit :=
  let! spl := splhigh in
  let faultaddress := Z.land faultaddress PAGE_FRAME in
  if faulttype =? VM_FAULT_READONLY then panic
  else if (faulttype =? VM_FAULT_READ) || (faulttype =? VM_FAULT_WRITE) then
    let! v := get in
    match t_vmspace v with
    | None => fail EFAULT
    | Some p =>
        let! a := get_space p in
        do! assert_set_up a in
        match fault_paddr a faultaddress with
        | None => do! splx spl in fail EFAULT
        | Some paddr =>
            do! assert_ (page_aligned paddr) in
            let! r := tlb_insert faultaddress paddr in
            do! splx spl in
            match r with
            | Some _ => ok tt
            | None => fail EFAULT
            end
        end
    end
  else do! splx spl in fail EINVAL.

Definition as_create : M vmstate (option Z) :=
  let! p := on_heap (kmalloc sizeof_addrspace) in
  if p =? 0 then ret None
  else do! put_space p (mk_as 0 0 0 0 0 0 0) in ret (Some p).

Definition as_destroy (p : Z) : M vmstate unit :=
  do! on_heap (kfree p) in
  let! v := get in
  put (set_spaces (delete p (spaces v)) v).

(** The address space itself is not looked at. *)
Definition as_activate (p : option Z) : M vmstate unit :=
  let! spl := splhigh in
  let! _ := iterate (Z.to_nat NUM_TLB) 0 (fun i =>
    do! TLB_Write (TLBHI_INVALID i) TLBLO_INVALID i in ret (None (A := unit))) in
  do! splx spl in
  ret tt.

Definition as_define_region (p vaddr sz readable writeable executable : Z) : E vmstate unit :=
  let vaddr := Z.land vaddr PAGE_FRAME in
  let sz := Z.land (u32 (u32 (sz + PAGE_SIZE) - 1)) PAGE_FRAME in
  let npages := sz / PAGE_SIZE in
  let! a := get_space p in
  if as_vbase1 a =? 0 then do! put_space p (set_region1 vaddr npages a) in ok tt
  else if as_vbase2 a =? 0 then do! put_space p (set_region2 vaddr npages a) in ok tt
  else fail EUNIMP.

Definition as_prepare_load (p : Z) : E vmstate unit :=
  let! a := get_space p in
  do! assert_ (as_pbase1 a =? 0) in
  do! assert_ (as_pbase2 a =? 0) in
  do! assert_ (as_stackpbase a =? 0) in
  let! pa := vm_getppages (as_npages1 a) in
  let a := set_pbase1 pa a in
  do! put_space p a in
  if pa =? 0 then fail ENOMEM
  else
    let! pa := vm_getppages (as_npages2 a) in
    let a := set_pbase2 pa a in
    do! put_space p a in
    if pa =? 0 then fail ENOMEM
    else
      let! pa := vm_getppages DUMBVM_STACKPAGES in
      let a := set_stackpbase pa a in
      do! put_space p a in
      if pa =? 0 then fail ENOMEM else ok tt.

Definition as_complete_load (p : Z) : E vmstate unit := ok tt.

(** Returns [*stackptr]. *)
Definition as_define_stack (p : Z) : E vmstate Z :=
  let! a := get_space p in
  do! assert_ (negb (as_stackpbase a =? 0)) in
  ok USERSTACK.

(** [memmove] between kernel addresses of physical pages; a trap there is fatal. *)
Definition move_pages (to from npages : Z) : M vmstate unit :=
  let! r := zoom vmem set_vmem
    (memmove (PADDR_TO_KVADDR to) (PADDR_TO_KVADDR from) (u32 (npages * PAGE_SIZE))) in
  match r with inl _ => panic | inr _ => ret tt end.

(** Returns [*ret]. *)
Definition as_copy (old : Z) : E vmstate Z :=
  let! new := as_create in
  match new with
  | None => fail ENOMEM
  | Some new =>
      let! o := get_space old in
      let! n := get_space new in
      do! put_space new (set_region2 (as_vbase2 o) (as_npages2 o) (set_region1 (as_vbase1 o) (as_npages1 o) n)) in
      let! r := as_prepare_load new in
      match r with
      | inl _ => do! as_destroy new in fail ENOMEM
      | inr _ =>
          let! n := get_space new in
          do! assert_ (negb (as_pbase1 n =? 0)) in
          do! assert_ (negb (as_pbase2 n =? 0)) in
          do! assert_ (negb (as_stackpbase n =? 0)) in
          let! o := get_space old in
          do! move_pages (as_pbase1 n) (as_pbase1 o) (as_npages1 o) in
          do! move_pages (as_pbase2 n) (as_pbase2 o) (as_npages2 o) in
          do! move_pages (as_stackpbase n) (as_stackpbase o) DUMBVM_STACKPAGES in
          ok new
      end
  end.
