(* ===== verification/AddrSpaceSpec.v ===== *)
(** * What address spaces promise: the pages of different spaces are apart, a copy has
    the bytes of the original, and a page fault loads the one right translation. *)

From stdpp Require Import base numbers list gmap.
From Stdlib Require Import ZArith Lia.
From S2P Require Import Prelude Mem Ram Kheap KheapPages KheapSpec AddrSpace.

(** ** The heap never changes how much memory there is *)

Definition top_of (h : heap ram) : Z := lastpaddr (hpages h).

Definition keeps_top {A} (m : M (heap ram) A) : Prop := forall h, wlp m (fun _ h' => top_of h' = top_of h) h.

Section keeps_top.
Lemma top_ret {A} (a : A) : keeps_top (ret a).
Proof. intros h. by apply wlp_ret. Qed.
Lemma top_bind {A B} (m : M (heap ram) A) (f : A -> M (heap ram) B) :
  keeps_top m -> (forall a, keeps_top (f a)) -> keeps_top (bind m f).
Proof.
  intros Hm Hf h. apply wlp_bind. eapply wlp_mono; [apply Hm|]. intros a h' He.
  eapply wlp_mono; [apply Hf|]. cbv beta. congruence.
Qed.
Lemma top_get {A} (f : heap ram -> M (heap ram) A) :
  (forall h, wlp (f h) (fun _ h' => top_of h' = top_of h) h) -> keeps_top (bind get f).
Proof. intros Hf h. apply wlp_bind, wlp_get, Hf. Qed.
Lemma top_assert b : keeps_top (assert_ b).
Proof. intros h. apply wlp_assert. done. Qed.
Lemma top_option {A} (o : option A) : keeps_top (of_option o).
Proof. intros h. apply wlp_of_option. done. Qed.
Lemma top_panic {A} : keeps_top (panic (A := A)).
Proof. intros h. apply wlp_panic. Qed.
Lemma top_fuel {A} : keeps_top (out_of_fuel (A := A)).
Proof. intros h a h' [=]. Qed.
Lemma top_iterate {R} n : forall i (body : Z -> M (heap ram) (option R)),
  (forall k, keeps_top (body k)) -> keeps_top (iterate n i body).
Proof.
  induction n as [|n IH]; intros i body Hb; simpl; [apply top_ret|]. apply top_bind; [apply Hb|].
  intros [r|]; [apply top_ret|by apply IH].
Qed.
Lemma top_alloc n : keeps_top (on_pages (alloc_kpages n)).
Proof.
  intros h. unfold on_pages. simpl. unfold ram_alloc_kpages, getppages, ram_stealmem, top_of. wlp_steps.
  repeat (case_match; wlp_steps; try done).
Qed.
Lemma top_free n : keeps_top (on_pages (free_kpages n)).
Proof. intros h. unfold on_pages. simpl. unfold ram_free_kpages, top_of. by wlp_steps. Qed.
End keeps_top.

Ltac top_step :=
  lazymatch goal with
  | |- keeps_top (ret _) => apply top_ret
  | |- keeps_top (assert_ _) => apply top_assert
  | |- keeps_top (of_option _) => apply top_option
  | |- keeps_top panic => apply top_panic
  | |- keeps_top out_of_fuel => apply top_fuel
  | |- keeps_top (iterate _ _ _) => apply top_iterate; intros ?
  | |- keeps_top (on_pages (alloc_kpages _)) => apply top_alloc
  | |- keeps_top (on_pages (free_kpages _)) => apply top_free
  | |- keeps_top (bind get _) => apply top_get; intros ?; wlp_steps; done
  | |- keeps_top (bind _ _) => apply top_bind; [|intros ?]
  | |- keeps_top (if _ then _ else _) => case_match
  | |- keeps_top (match _ with _ => _ end) => case_match
  | |- _ => solve [auto with heap_top]
  end.
Ltac top_all := repeat (top_step; cbv beta zeta).

Lemma top_get_pageref i : keeps_top (get_pageref i).
Proof. apply top_get. intros h. by wlp_steps. Qed.
Lemma top_put_pageref i x : keeps_top (put_pageref i x).
Proof. apply top_get. intros h. by wlp_steps. Qed.
Lemma top_get_inuse i : keeps_top (get_inuse i).
Proof. apply top_get. intros h. by wlp_steps. Qed.
Lemma top_put_inuse i x : keeps_top (put_inuse i x).
Proof. apply top_get. intros h. by wlp_steps. Qed.
Lemma top_load a : keeps_top (load a).
Proof. apply top_get. intros h. by wlp_steps. Qed.
Lemma top_store a w : keeps_top (store a w).
Proof. apply top_get. intros h. by wlp_steps. Qed.
Lemma top_size b : keeps_top (size_of_type b).
Proof. apply top_option. Qed.

Create HintDb heap_top.
#[export] Hint Resolve top_get_pageref top_put_pageref top_get_inuse top_put_inuse top_load top_store top_size : heap_top.

Lemma top_kmalloc sz : keeps_top (kmalloc sz).
Proof.
  unfold kmalloc. case_match; [apply top_alloc|]. unfold subpage_kmalloc, blocktype.
  assert (forall fuel b pr, keeps_top (find_free fuel b pr)) as Hfind.
  { induction fuel as [|fuel IH]; intros b [i|]; cbn [find_free]; top_all. }
  assert (forall pr, keeps_top (doalloc pr)) as Hdo by (intros pr; unfold doalloc; top_all).
  assert (forall b, keeps_top (fresh_page b)) as Hfresh.
  { intros b. unfold fresh_page, allocpageref, freepageref, link_blocks, push_front, samesize, all_pages.
    cbn [ch_head ch_set_head]. top_all. }
  unfold samesize. cbn [ch_head]. top_all.
Qed.

Lemma top_kfree p : keeps_top (kfree p).
Proof.
  unfold kfree. case_match; [apply top_ret|].
  assert (forall fuel a pr, keeps_top (find_page fuel a pr)) as Hfind.
  { induction fuel as [|fuel IH]; intros a [i|]; cbn [find_page]; top_all. }
  assert (forall fuel c guy pr, (keeps_top (ch_head c)) -> (forall q, keeps_top (ch_set_head c q)) ->
    keeps_top (remove_from fuel c guy pr)) as Hrem.
  { induction fuel as [|fuel IH]; intros c [g|] pr Hh Hs; cbn [remove_from]; unfold read_link, write_link; top_all. }
  assert (forall pr b, keeps_top (remove_lists pr b)) as Hl.
  { intros pr b. unfold remove_lists, samesize, all_pages. top_all; apply Hrem; cbn [ch_head ch_set_head]; intros; top_all. }
  unfold subpage_kfree, fill_deadbeef, freepageref, all_pages. cbn [ch_head]. top_all.
Qed.

(** ** The translation a space defines *)

Definition in_region (vb pb n va : Z) : bool := (0 <? pb) && (vb <=? va) && (va <? vb + n * PAGE_SIZE).

Definition STACKBASE : Z := USERSTACK - DUMBVM_STACKPAGES * PAGE_SIZE.

(** The physical address of a user address. *)
Definition translate (a : addrspace) (va : Z) : option Z :=
  if in_region (as_vbase1 a) (as_pbase1 a) (as_npages1 a) va then Some (as_pbase1 a + (va - as_vbase1 a))
  else if in_region (as_vbase2 a) (as_pbase2 a) (as_npages2 a) va then Some (as_pbase2 a + (va - as_vbase2 a))
  else if in_region STACKBASE (as_stackpbase a) DUMBVM_STACKPAGES va then Some (as_stackpbase a + (va - STACKBASE))
  else None.

Record region_ok (vb pb n : Z) : Prop := {
  rg_virt : 0 < vb /\ vb mod PAGE_SIZE = 0 /\ vb + n * PAGE_SIZE <= USERTOP;
  rg_phys : 0 < pb /\ pb mod PAGE_SIZE = 0 /\ pb + n * PAGE_SIZE <= 2 ^ 29;
  rg_size : 0 < n;
}.

(** A space that a program can run in. *)
Definition as_ready (a : addrspace) : Prop :=
  region_ok (as_vbase1 a) (as_pbase1 a) (as_npages1 a) /\
  region_ok (as_vbase2 a) (as_pbase2 a) (as_npages2 a) /\
  region_ok STACKBASE (as_stackpbase a) DUMBVM_STACKPAGES.

Lemma in_region_iff vb pb n va : in_region vb pb n va = true <-> 0 < pb /\ vb <= va < vb + n * PAGE_SIZE.
Proof. unfold in_region. rewrite !andb_true_iff, !Z.ltb_lt, Z.leb_le. lia. Qed.

Lemma page_aligned_mod x : is_u32 x -> page_aligned x = (x mod PAGE_SIZE =? 0).
Proof.
  intros Hx. unfold page_aligned. rewrite land_frame by done.
  destruct (Z.eqb_spec (x mod PAGE_SIZE) 0), (Z.eqb_spec (x - x mod PAGE_SIZE) x); done || lia.
Qed.

(** A region as [vm_fault] tests it. *)
Lemma region_test vb pb n fa : region_ok vb pb n -> is_u32 fa ->
  (vb <=? fa) && (fa <? u32 (vb + u32 (n * PAGE_SIZE))) = in_region vb pb n fa.
Proof.
  intros [(Hv & _ & Ht) (Hp & _ & Hpt) Hn] Hfa. unfold in_region, USERTOP, MIPS_KSEG0 in *.
  rewrite (u32_id (n * PAGE_SIZE)), u32_id by (unfold is_u32, PAGE_SIZE in *; lia).
  by rewrite (proj2 (Z.ltb_lt 0 pb)).
Qed.

Lemma region_paddr vb pb n fa : region_ok vb pb n -> in_region vb pb n fa = true ->
  u32 (fa - vb + pb) = pb + (fa - vb) /\ 0 < pb + (fa - vb) < 2 ^ 29 /\
  (fa mod PAGE_SIZE = 0 -> (pb + (fa - vb)) mod PAGE_SIZE = 0).
Proof.
  intros [(Hv & Hvm & Ht) (Hp & Hpm & Hpt) Hn] (_ & Hin)%in_region_iff. unfold PAGE_SIZE in *.
  split; [rewrite u32_id by (unfold is_u32; lia); lia|]. split; [lia|]. intros Hfa.
  rewrite Z.add_mod, Hpm, Zminus_mod, Hfa, Hvm by lia. done.
Qed.

Lemma fault_paddr_translate a fa : as_ready a -> is_u32 fa -> fault_paddr a fa = translate a fa.
Proof.
  intros (H1 & H2 & H3) Hfa. unfold fault_paddr, translate.
  rewrite (region_test _ _ _ _ H1 Hfa), (region_test _ _ _ _ H2 Hfa).
  pose proof (region_test _ _ _ _ H3 Hfa) as Ht3.
  change (u32 (STACKBASE + u32 (DUMBVM_STACKPAGES * PAGE_SIZE))) with USERSTACK in Ht3.
  fold STACKBASE. rewrite Ht3.
  destruct (in_region (as_vbase1 a) _ _ fa) eqn:E1; [by rewrite (proj1 (region_paddr _ _ _ _ H1 E1))|].
  destruct (in_region (as_vbase2 a) _ _ fa) eqn:E2; [by rewrite (proj1 (region_paddr _ _ _ _ H2 E2))|].
  destruct (in_region STACKBASE _ _ fa) eqn:E3; [by rewrite (proj1 (region_paddr _ _ _ _ H3 E3))|done].
Qed.

(** A user address is in one of the regions, and goes to the pages behind it. *)
Lemma translate_cases a va pa : translate a va = Some pa -> exists vb pb n,
  in_region vb pb n va = true /\ pa = pb + (va - vb) /\
  ((vb, pb, n) = (as_vbase1 a, as_pbase1 a, as_npages1 a) \/ (vb, pb, n) = (as_vbase2 a, as_pbase2 a, as_npages2 a) \/
   (vb, pb, n) = (STACKBASE, as_stackpbase a, DUMBVM_STACKPAGES)).
Proof.
  unfold translate. intros Ht.
  destruct (in_region (as_vbase1 a) _ _ va) eqn:E1; [injection Ht as <-; eauto 10|].
  destruct (in_region (as_vbase2 a) _ _ va) eqn:E2; [injection Ht as <-; eauto 10|].
  destruct (in_region STACKBASE _ _ va) eqn:E3; [injection Ht as <-; eauto 10|done].
Qed.

Lemma translate_range a va pa : as_ready a -> translate a va = Some pa ->
  0 < pa < 2 ^ 29 /\ 0 < va < USERTOP /\ (va mod PAGE_SIZE = 0 -> pa mod PAGE_SIZE = 0).
Proof.
  intros (H1 & H2 & H3) (vb & pb & n & Hin & -> & Hc)%translate_cases.
  assert (region_ok vb pb n) as Hr by (destruct Hc as [[= -> -> ->]|[[= -> -> ->]|[= -> -> ->]]]; done).
  destruct (region_paddr _ _ _ _ Hr Hin) as (_ & Hb & Hm). split; [done|]. split; [|done].
  apply in_region_iff in Hin. destruct Hr. lia.
Qed.

Lemma stack_translates a va : as_ready a -> STACKBASE <= va < USERTOP -> is_Some (translate a va).
Proof.
  intros (_ & _ & [_ (Hp & _) _]) Hva. unfold translate.
  assert (in_region STACKBASE (as_stackpbase a) DUMBVM_STACKPAGES va = true) as ->.
  { apply in_region_iff. split; [done|]. unfold STACKBASE, USERSTACK in *. lia. }
  repeat case_match; by eexists.
Qed.

Definition page_of (va : Z) : Z := va - va mod PAGE_SIZE.

Lemma page_of_facts va : 0 <= va ->
  0 <= page_of va <= va /\ va < page_of va + PAGE_SIZE /\ page_of va mod PAGE_SIZE = 0 /\
  page_of va + va mod PAGE_SIZE = va /\ page_of va = (va / PAGE_SIZE) * PAGE_SIZE.
Proof.
  intros Hva. unfold page_of, PAGE_SIZE in *. pose proof (Z.div_mod va 4096 ltac:(lia)).
  pose proof (Z.mod_pos_bound va 4096 ltac:(lia)). assert (0 <= va / 4096) by (apply Z.div_pos; lia).
  assert (va - va mod 4096 = va / 4096 * 4096) as He by lia.
  repeat split; try lia. rewrite He. apply Z.mod_mul. lia.
Qed.

Lemma in_region_page vb pb n va : vb mod PAGE_SIZE = 0 -> 0 <= va -> in_region vb pb n (page_of va) = in_region vb pb n va.
Proof.
  intros Hv Hva. destruct (page_of_facts va Hva) as (H1 & H2 & _ & _ & He). unfold in_region, PAGE_SIZE in *.
  pose proof (Z.div_mod vb 4096 ltac:(lia)). rewrite !(andb_comm (0 <? pb)), <- !andb_assoc.
  destruct (Z.leb_spec vb (page_of va)), (Z.leb_spec vb va), (Z.ltb_spec (page_of va) (vb + n * 4096)),
    (Z.ltb_spec va (vb + n * 4096)); simpl; done || lia.
Qed.

Lemma translate_page a va : as_ready a -> 0 <= va ->
  translate a va = (fun q => q + va mod PAGE_SIZE) <$> translate a (page_of va).
Proof.
  intros ([(_ & H1 & _) _ _] & [(_ & H2 & _) _ _] & _) Hva. unfold translate.
  rewrite !in_region_page by done. unfold page_of. repeat case_match; simpl; try done; f_equal; lia.
Qed.

(** ** A page fault *)

Definition invalid (e : Z * Z) : Prop := Z.land (snd e) TLBLO_VALID = 0.

(** The entry that a fault fills. *)
Definition free_slot (l : list (Z * Z)) : option Z := (fun x => Z.of_nat (fst x)) <$> list_find invalid l.

(** The low word of an entry that maps to the page [pa]. *)
Definition entry_lo (pa : Z) : Z := Z.lor (Z.lor pa TLBLO_DIRTY) TLBLO_VALID.

Lemma free_slot_first l i : free_slot l = Some i -> first_at invalid l i /\ 0 <= i < lenZ l.
Proof.
  unfold free_slot. intros ((j & e) & (Hj & He & Hf)%list_find_Some & ->)%fmap_Some. simpl.
  assert (j < length l)%nat by (by apply lookup_lt_Some in Hj). split; [|unfold lenZ; lia]. split.
  - exists e. by rewrite nthZ_to_nat, Nat2Z.id by lia.
  - intros k a Hk Ha. rewrite nthZ_to_nat in Ha by lia. apply (Hf _ _ Ha). lia.
Qed.

Lemma free_slot_none l : free_slot l = None -> nowhere invalid l.
Proof.
  unfold free_slot. rewrite fmap_None, list_find_None, Forall_lookup. intros Hf.
  intros j a Ha. pose proof (nthZ_Some_lt _ _ _ Ha). rewrite nthZ_to_nat in Ha by lia. by eapply Hf.
Qed.

Lemma tlb_insert_run v fa pa : lenZ (tlb v) = NUM_TLB ->
  tlb_insert fa pa v = match free_slot (tlb v) with
                       | Some i => Done (Some tt) (set_tlb (setZ (tlb v) i (fa, entry_lo pa)) v)
                       | None => Done None v
                       end.
Proof.
  intros Hl. unfold tlb_insert.
  assert (forall j e, nthZ (tlb v) j = Some e -> ~ invalid e ->
    (let! (_, elo) := TLB_Read j in
     if negb (Z.land elo TLBLO_VALID =? 0) then ret None
     else do! TLB_Write fa (entry_lo pa) j in ret (Some tt)) v = Done None v) as Hskip.
  { intros j [ehi elo] Hj Hv. unfold invalid in Hv. cbn [snd] in Hv. unfold TLB_Read. simpl_m. rewrite Hj. simpl.
    by rewrite (proj2 (Z.eqb_neq _ _) Hv). }
  destruct (free_slot (tlb v)) as [i|] eqn:Hf.
  - destruct (free_slot_first _ _ Hf) as [[((ehi & elo) & Hi & Hv) Hbefore] Hr]. apply iterate_first with (k := i).
    + rewrite Hl in Hr. by rewrite Z2Nat.id.
    + intros j Hj. destruct (nthZ_is_Some (tlb v) j ltac:(lia)) as [e He]. by eapply Hskip, Hbefore.
    + unfold invalid in Hv. cbn [snd] in Hv. unfold TLB_Read. simpl_m. rewrite Hi. simpl. by rewrite Hv.
  - apply iterate_none. intros j Hj. destruct (nthZ_is_Some (tlb v) j) as [e He]; [by rewrite Hl, Z2Nat.id in *|].
    eapply Hskip; [done|]. by eapply free_slot_none.
Qed.

Lemma assert_set_up_ok a v : as_ready a -> assert_set_up a v = Done tt v.
Proof.
  intros ([(Hv1 & Hm1 & Ht1) (Hp1 & Hq1 & Hb1) Hn1] & [(Hv2 & Hm2 & Ht2) (Hp2 & Hq2 & Hb2) Hn2] &
    [_ (Hp3 & Hq3 & Hb3) _]).
  unfold assert_set_up, USERTOP, MIPS_KSEG0 in *. rewrite !(proj2 (Z.eqb_neq _ 0)) by lia.
  by rewrite !page_aligned_mod, Hm1, Hq1, Hm2, Hq2, Hq3 by (unfold is_u32, PAGE_SIZE, DUMBVM_STACKPAGES in *; lia).
Qed.

Lemma set_vspl_back s v : set_vspl (vspl v) (set_vspl s v) = v.
Proof. by destruct v. Qed.

Lemma vm_fault_run v p a ft fa :
  t_vmspace v = Some p -> spaces v !! p = Some a -> as_ready a -> lenZ (tlb v) = NUM_TLB -> is_u32 fa ->
  ft = VM_FAULT_READ \/ ft = VM_FAULT_WRITE ->
  vm_fault ft fa v =
    match translate a (page_of fa), free_slot (tlb v) with
    | Some pa, Some i => Done (inr tt) (set_tlb (setZ (tlb v) i (page_of fa, entry_lo pa)) v)
    | _, _ => Done (inl EFAULT) v
    end.
Proof.
  intros Hp Ha Hr Hl Hfa Hft. destruct (page_of_facts fa) as (Hpg & _ & Hm & _); [by destruct Hfa|].
  assert (is_u32 (page_of fa)) as Hpu by (unfold is_u32 in *; lia).
  unfold vm_fault. rewrite land_frame by done. fold (page_of fa).
  erewrite bind_done; [|reflexivity]. cbv zeta.
  assert ((ft =? VM_FAULT_READONLY) = false /\ (ft =? VM_FAULT_READ) || (ft =? VM_FAULT_WRITE) = true) as [-> ->]
    by (destruct Hft as [->| ->]; done).
  erewrite bind_done; [|reflexivity]. cbn [t_vmspace set_vspl]. rewrite Hp.
  erewrite bind_done; [|unfold get_space; simpl_m; by rewrite Ha].
  erewrite bind_done; [|by apply assert_set_up_ok].
  rewrite fault_paddr_translate by done.
  destruct (translate a (page_of fa)) as [pa|] eqn:Ht; [|simpl_m; by rewrite set_vspl_back].
  destruct (translate_range _ _ _ Hr Ht) as (Hpa & _ & Hpm).
  rewrite page_aligned_mod, Hpm by (done || (unfold is_u32; lia)).
  erewrite bind_done; [|reflexivity]. unfold bind at 1. rewrite tlb_insert_run by done. cbn [tlb set_vspl].
  destruct (free_slot (tlb v)); simpl_m; by destruct v.
Qed.

(** ** Who has which pages *)

(** The pages behind a region: their kernel address and size. *)
Definition run_of (pb n : Z) : list (Z * Z) :=
  if pb =? 0 then [] else [(pb + MIPS_KSEG0, n * PAGE_SIZE)].
Definition as_runs (a : addrspace) : list (Z * Z) :=
  run_of (as_pbase1 a) (as_npages1 a) ++ run_of (as_pbase2 a) (as_npages2 a) ++ run_of (as_stackpbase a) DUMBVM_STACKPAGES.

(** The blocks [live] of the heap are out, [owner] says to which space; every space has
    its structure and its pages among them, and the pages are physical memory. *)
Record vm_ok (v : vmstate) (live owner : gmap Z Z) : Prop := {
  vo_heap : heap_has (vheap v) live;
  vo_mem : mapped (vmem v) MIPS_KSEG0 (top_of (vheap v));
  vo_bytes : byte_mem (vmem v);
  vo_struct p a : spaces v !! p = Some a -> owner !! p = Some p /\ is_Some (live !! p);
  vo_runs p a b n : spaces v !! p = Some a -> (b, n) ∈ as_runs a ->
    owner !! b = Some p /\ live !! b = Some n /\ b + n <= MIPS_KSEG0 + top_of (vheap v);
  vo_apart p a : spaces v !! p = Some a -> NoDup (p :: (as_runs a).*1);
  vo_owned b p : owner !! b = Some p -> is_Some (live !! b);
}.

(** Which space is current, and the TLB, do not matter for that. *)
Lemma vm_ok_cur v live owner q : vm_ok v live owner -> vm_ok (set_t_vmspace q v) live owner.
Proof. intros []. by split. Qed.
Lemma vm_ok_tlb v live owner l : vm_ok v live owner -> vm_ok (set_tlb l v) live owner.
Proof. intros []. by split. Qed.

(** The physical address of a user address of the space at [p], and its byte. *)
Definition user_paddr (v : vmstate) (p va : Z) : option Z := a ← spaces v !! p; translate a va.
Definition user_byte (v : vmstate) (p va : Z) : option Z := pa ← user_paddr v p va; vmem v !! (pa + MIPS_KSEG0).

(** A physical address lies in a run of its space. *)
Lemma translate_run a va pa : translate a va = Some pa ->
  exists b n, (b, n) ∈ as_runs a /\ b <= pa + MIPS_KSEG0 < b + n.
Proof.
  intros (vb & pb & n & (Hpos & Hin)%in_region_iff & -> & Hc)%translate_cases.
  exists (pb + MIPS_KSEG0), (n * PAGE_SIZE). split; [|lia].
  assert ((pb + MIPS_KSEG0, n * PAGE_SIZE) ∈ run_of pb n) as Hrun.
  { unfold run_of. rewrite (proj2 (Z.eqb_neq pb 0)) by lia. by apply list_elem_of_singleton. }
  unfold as_runs. rewrite !elem_of_app. destruct Hc as [[= -> -> ->]|[[= -> -> ->]|[= -> -> ->]]]; auto.
Qed.

(** No byte belongs to two spaces. *)
Lemma user_paddr_apart v live owner p q va vb pa pb : vm_ok v live owner -> p <> q ->
  user_paddr v p va = Some pa -> user_paddr v q vb = Some pb -> pa <> pb.
Proof.
  intros Hv Hne (a & Ha & Hta)%bind_Some (b & Hb & Htb)%bind_Some.
  destruct (translate_run _ _ _ Hta) as (x & n & Hx & Hxr). destruct (translate_run _ _ _ Htb) as (y & m & Hy & Hyr).
  destruct (vo_runs _ _ _ Hv _ _ _ _ Ha Hx) as (Hxo & Hxl & _). destruct (vo_runs _ _ _ Hv _ _ _ _ Hb Hy) as (Hyo & Hyl & _).
  assert (x <> y) by congruence. destruct (heap_has_apart _ _ _ _ _ _ (vo_heap _ _ _ Hv) Hxl Hyl); [done|lia|lia].
Qed.

Lemma wp_with {S A} (m : M S A) (Q R : A -> S -> Prop) s :
  wp m Q s -> wlp m R s -> wp m (fun a s' => Q a s' /\ R a s') s.
Proof. unfold wp, wlp. destruct (m s); naive_solver. Qed.

(** Pages straight from [ram] are a block of the heap's. *)
Lemma getppages_gives (v : vmstate) live n : heap_has (vheap v) live -> 0 < n <= 2 ^ 19 ->
  wp (vm_getppages n) (fun pa v' => exists h', v' = set_vheap h' v /\ top_of h' = top_of (vheap v) /\
    if pa =? 0 then heap_has h' live
    else live !! (pa + MIPS_KSEG0) = None /\ heap_has h' (<[pa + MIPS_KSEG0 := n * PAGE_SIZE]> live) /\
         0 < pa /\ pa mod PAGE_SIZE = 0 /\ pa + n * PAGE_SIZE <= top_of (vheap v)) v.
Proof.
  intros Hh Hn. pose proof Hh as (gs & runs & Ho & _).
  destruct (ho_runs _ _ _ Ho) as (Hal & Hf & Hl & _).
  pose proof (pages_given (vheap v) live n Hh Hn) as Hk.
  unfold on_pages in Hk. apply wp_zoom in Hk. simpl in Hk. unfold ram_alloc_kpages, getppages in Hk.
  rewrite s32_id, u32_id in Hk by (unfold is_s32, is_u32; lia). apply wp_bind in Hk.
  unfold wp in Hk. rewrite stealmem_fits in Hk by done.
  unfold vm_getppages, on_heap, on_pages. wp_steps. unfold splhigh, splx. wp_steps. cbn [vheap set_vspl].
  unfold wp. rewrite stealmem_fits by done. unfold top_of.
  destruct (Z.ltb_spec (lastpaddr (hpages (vheap v))) (firstpaddr (hpages (vheap v)) + n * PAGE_SIZE)) as [Hfull|Hroom]; simpl_m.
  - exists (vheap v). split; [by destruct v as [[] ? ? ? ? ?]|]. by split.
  - destruct (Z.eqb_spec (firstpaddr (hpages (vheap v))) 0) as [|Hnz]; [lia|].
    assert (PADDR_TO_KVADDR (firstpaddr (hpages (vheap v))) = firstpaddr (hpages (vheap v)) + MIPS_KSEG0) as He.
    { unfold PADDR_TO_KVADDR. apply u32_id. unfold is_u32, MIPS_KSEG0; lia. }
    rewrite He in Hk. rewrite (proj2 (Z.eqb_neq _ 0)) in Hk by (unfold MIPS_KSEG0; lia). destruct Hk as (_ & Hnone & Hh').
    eexists. split; [destruct v as [[] ? ? ? ? ?]; reflexivity|]. split; [done|].
    split; [done|]. split; [exact Hh'|]. split; [lia|]. by split.
Qed.

(** ** Changing one space *)

Definition with_space (v : vmstate) (h : heap ram) (p : Z) (a : addrspace) : vmstate :=
  set_spaces (<[p := a]> (spaces v)) (set_vheap h v).

Lemma give_run v live owner p a a' b n h' :
  vm_ok v live owner -> spaces v !! p = Some a -> live !! b = None -> heap_has h' (<[b := n]> live) ->
  top_of h' = top_of (vheap v) -> b + n <= MIPS_KSEG0 + top_of h' -> as_runs a' ≡ₚ (b, n) :: as_runs a ->
  vm_ok (with_space v h' p a') (<[b := n]> live) (<[b := p]> owner).
Proof.
  intros [Hh Hm Hby Hs Hr Ha Ho] Hp Hb Hh' Ht Hfit Hperm.
  assert (forall x, is_Some (live !! x) -> x <> b) as Hne by (intros x [? ?] ->; congruence).
  assert (forall q c k m, spaces v !! q = Some c -> (k, m) ∈ as_runs c -> k <> b) as Hrne.
  { intros q c k m Hq Hk. apply Hne. destruct (Hr _ _ _ _ Hq Hk) as (_ & -> & _). by eexists. }
  split; simpl; try done; try by rewrite Ht.
  - intros q c [[<- <-]|[Hqp Hq]]%lookup_insert_Some; [destruct (Hs _ _ Hp)|destruct (Hs _ _ Hq)]; by rewrite !lookup_insert_ne by (symmetry; auto).
  - intros q c k m [[<- <-]|[Hqp Hq]]%lookup_insert_Some Hk.
    + rewrite Hperm in Hk. apply elem_of_cons in Hk as [[= -> ->]|Hk]; [by rewrite !lookup_insert_eq|].
      pose proof (Hrne _ _ _ _ Hp Hk). rewrite !lookup_insert_ne, Ht by auto. by eapply Hr.
    + pose proof (Hrne _ _ _ _ Hq Hk). rewrite !lookup_insert_ne, Ht by auto. by eapply Hr.
  - intros q c [[<- <-]|[Hqp Hq]]%lookup_insert_Some; [|by eapply Ha].
    rewrite Hperm. simpl. pose proof (Ha _ _ Hp) as [Hnp Hnd]%NoDup_cons. destruct (Hs _ _ Hp) as [_ Hlp].
    apply NoDup_cons. split.
    + apply not_elem_of_cons. split; [by apply Hne|done].
    + apply NoDup_cons. split; [|done]. intros ([k m] & -> & Hk)%list_elem_of_fmap. simpl in *. by eapply Hrne.
  - intros k q Hk. destruct (decide (k = b)) as [->|Hkb]; [rewrite lookup_insert_eq; by eexists|].
    rewrite lookup_insert_ne in Hk |- * by done. by eapply Ho.
Qed.

(** A page allocation that failed changes nothing that matters. *)
Lemma keep_space v live owner p a h' :
  vm_ok v live owner -> spaces v !! p = Some a -> heap_has h' live -> top_of h' = top_of (vheap v) ->
  vm_ok (with_space v h' p a) live owner.
Proof.
  intros [Hh Hm Hby Hs Hr Ha Ho] Hp Hh' Ht. unfold with_space. rewrite insert_id by done.
  split; simpl; try done; rewrite Ht; done.
Qed.

(** The same pages, other bounds. *)
Lemma move_space v live owner p a a' : vm_ok v live owner -> spaces v !! p = Some a -> as_runs a' = as_runs a ->
  vm_ok (set_spaces (<[p := a']> (spaces v)) v) live owner.
Proof.
  intros [Hh Hm Hby Hs Hr Ha Ho] Hp He. split; simpl; try done.
  - intros q c [[<- <-]|[Hqp Hq]]%lookup_insert_Some; eauto.
  - intros q c k m [[<- <-]|[Hqp Hq]]%lookup_insert_Some Hk; [rewrite He in Hk|]; eauto.
  - intros q c [[<- <-]|[Hqp Hq]]%lookup_insert_Some; [rewrite He|]; eauto.
Qed.

(** ** Creating and destroying *)

Lemma as_create_ok v live owner : vm_ok v live owner ->
  wp as_create (fun r v' => exists h', top_of h' = top_of (vheap v) /\
    match r with
    | None => v' = set_vheap h' v /\ vm_ok v' live owner
    | Some p => v' = with_space v h' p (mk_as 0 0 0 0 0 0 0) /\ spaces v !! p = None /\ exists n,
        vm_ok v' (<[p := n]> live) (<[p := p]> owner)
    end) v.
Proof.
  intros Hv. pose proof Hv as [Hh Hm Hby Hs Hr Ha Ho]. unfold as_create, on_heap. wp_steps.
  eapply wp_mono; [apply wp_with; [apply kmalloc_gives; [exact Hh|by unfold sizeof_addrspace]|apply top_kmalloc]|].
  intros p h' [[_ Hp] Ht]. destruct (Z.eqb_spec p 0) as [->|Hnz].
  - wp_steps. exists h'. split; [done|]. split; [done|]. split; simpl; try done; by rewrite Ht.
  - destruct Hp as (Hnone & n & Hn & Hh'). unfold put_space. wp_steps. exists h'. split; [done|]. split; [done|].
    assert (forall x, is_Some (live !! x) -> x <> p) as Hne by (intros x [? ?] ->; congruence).
    split; [destruct (spaces v !! p) eqn:Hsp; [|done]; apply Hs in Hsp as [_ Hl]; by apply Hne in Hl|].
    exists n. split; simpl; try done; try by rewrite Ht.
    + intros q c [[<- <-]|[Hqp Hq]]%lookup_insert_Some; [rewrite !lookup_insert_eq; split; [done|by eexists]|].
      rewrite !lookup_insert_ne by done. by eapply Hs.
    + intros q c k m [[<- <-]|[Hqp Hq]]%lookup_insert_Some Hk; [by apply elem_of_nil in Hk|].
      destruct (Hr _ _ _ _ Hq Hk) as (H1 & H2 & H3). assert (k <> p) by (apply Hne; by eexists).
      by rewrite !lookup_insert_ne, Ht by auto.
    + intros q c [[<- <-]|[Hqp Hq]]%lookup_insert_Some; [|by eapply Ha]. apply NoDup_singleton.
    + intros k q Hk. destruct (decide (k = p)) as [->|Hkb]; [rewrite lookup_insert_eq; by eexists|].
      rewrite lookup_insert_ne in Hk |- * by done. by eapply Ho.
Qed.

Lemma as_destroy_ok v live owner p a : vm_ok v live owner -> spaces v !! p = Some a ->
  wp (as_destroy p) (fun _ v' => exists h', v' = set_spaces (delete p (spaces v)) (set_vheap h' v) /\
    vm_ok v' (delete p live) (delete p owner)) v.
Proof.
  intros [Hh Hm Hby Hs Hr Ha Ho] Hp. destruct (Hs _ _ Hp) as [_ [n Hl]]. unfold as_destroy, on_heap. wp_steps.
  eapply wp_mono; [apply wp_with; [by eapply kfree_takes|apply top_kfree]|].
  intros [] h' [[_ Hh'] Ht]. wp_steps. exists h'. split; [done|].
  assert (forall q c, spaces v !! q = Some c -> q <> p -> forall k m, (k, m) ∈ as_runs c -> k <> p) as Hne.
  { intros q c Hq Hqp k m Hk ->. destruct (Hr _ _ _ _ Hq Hk) as [Hko _]. destruct (Hs _ _ Hp). congruence. }
  split; simpl; try done; try by rewrite Ht.
  - intros q c [Hqp Hq]%lookup_delete_Some. rewrite !lookup_delete_ne by done. by eapply Hs.
  - intros q c k m [Hqp Hq]%lookup_delete_Some Hk. pose proof (Hne _ _ Hq ltac:(auto) _ _ Hk).
    rewrite !lookup_delete_ne, Ht by auto. by eapply Hr.
  - intros q c [Hqp Hq]%lookup_delete_Some. by eapply Ha.
  - intros k q [Hkp Hk]%lookup_delete_Some. rewrite lookup_delete_ne by done. by eapply Ho.
Qed.

(** ** Getting the pages *)

Lemma prepare_step v live owner p a n (f : Z -> addrspace) (k : Z -> E vmstate unit) (Q : errno + unit -> vmstate -> Prop) :
  vm_ok v live owner -> spaces v !! p = Some a -> 0 < n <= 2 ^ 19 -> f 0 = a ->
  (forall pa, 0 < pa -> as_runs (f pa) ≡ₚ (pa + MIPS_KSEG0, n * PAGE_SIZE) :: as_runs a) ->
  (forall h', vm_ok (with_space v h' p a) live owner -> Q (inl ENOMEM) (with_space v h' p a)) ->
  (forall pa h', 0 < pa -> pa mod PAGE_SIZE = 0 ->
    vm_ok (with_space v h' p (f pa)) (<[pa + MIPS_KSEG0 := n * PAGE_SIZE]> live) (<[pa + MIPS_KSEG0 := p]> owner) ->
    wp (k pa) Q (with_space v h' p (f pa))) ->
  wp (let! pa := vm_getppages n in do! put_space p (f pa) in if pa =? 0 then fail ENOMEM else k pa) Q v.
Proof.
  intros Hv Hp Hn Hf0 Hf Hfail Hk. wp_steps. eapply wp_mono; [apply getppages_gives; [apply Hv|done]|].
  intros pa v' (h' & -> & Ht & Hpa). unfold put_space. wp_steps. cbn [spaces set_vheap].
  destruct (Z.eqb_spec pa 0) as [->|Hnz].
  - wp_steps. rewrite Hf0. apply Hfail. by apply keep_space.
  - destruct Hpa as (Hnone & Hh' & Hpos & Hm & Hfit). apply Hk; [done|done|].
    apply give_run with (a := a); auto. lia.
Qed.

(** Two spaces of the same shape: the same user addresses. *)
Definition same_shape (a b : addrspace) : Prop :=
  as_vbase1 a = as_vbase1 b /\ as_npages1 a = as_npages1 b /\ as_vbase2 a = as_vbase2 b /\ as_npages2 a = as_npages2 b.

Definition has_pages (a : addrspace) : Prop :=
  (0 < as_pbase1 a /\ as_pbase1 a mod PAGE_SIZE = 0) /\ (0 < as_pbase2 a /\ as_pbase2 a mod PAGE_SIZE = 0) /\
  (0 < as_stackpbase a /\ as_stackpbase a mod PAGE_SIZE = 0).

Lemma with_space_twice v h p a h' a' : with_space (with_space v h p a) h' p a' = with_space v h' p a'.
Proof. unfold with_space. simpl. by rewrite insert_insert_eq. Qed.

Lemma as_prepare_load_ok v live owner p a :
  vm_ok v live owner -> spaces v !! p = Some a ->
  as_pbase1 a = 0 -> as_pbase2 a = 0 -> as_stackpbase a = 0 ->
  0 < as_npages1 a <= 2 ^ 19 -> 0 < as_npages2 a <= 2 ^ 19 ->
  wp (as_prepare_load p) (fun r v' => exists h' a' live' owner',
    v' = with_space v h' p a' /\ vm_ok v' live' owner' /\ same_shape a' a /\
    match r with inl e => e = ENOMEM | inr _ => has_pages a' end) v.
Proof.
  intros Hv Hp H1 H2 H3 Hn1 Hn2. unfold as_prepare_load. apply wp_bind. unfold get_space. wp_steps. exists a. split; [done|].
  apply wp_bind, wp_assert. split; [by rewrite H1|]. apply wp_bind, wp_assert. split; [by rewrite H2|]. apply wp_bind, wp_assert. split; [by rewrite H3|].
  assert (forall n, run_of 0 n = []) as Hr0 by done.
  assert (forall pa n, 0 < pa -> run_of pa n = [(pa + MIPS_KSEG0, n * PAGE_SIZE)]) as Hr.
  { intros pa n Hpa. unfold run_of. by rewrite (proj2 (Z.eqb_neq pa 0)) by lia. }
  apply (prepare_step v live owner p a (as_npages1 a) (fun pa => set_pbase1 pa a)); [done|done|done| | | |].
  - rewrite <- H1. by destruct a.
  - intros pa Hpa. unfold as_runs. simpl. by rewrite H1, H2, H3, !Hr0, Hr.
  - intros h' Hv'. exists h', a, live, owner. split; [done|]. split; [exact Hv'|]. by repeat split.
  - intros p1 h1 Hp1 Hm1 Hv1. set (a1 := set_pbase1 p1 a) in *.
    eapply (prepare_step _ _ _ p a1 (as_npages2 a1) (fun pa => set_pbase2 pa a1)); [exact Hv1|apply lookup_insert_eq|done| | | |].
    + unfold a1. rewrite <- H2. by destruct a.
    + intros pa Hpa. unfold as_runs, a1. simpl. rewrite H2, H3, !Hr0, !Hr by done. simpl. by rewrite Permutation_swap.
    + intros h' Hv'. eexists h', a1, _, _. rewrite with_space_twice in Hv' |- *. split; [done|]. split; [exact Hv'|]. by repeat split.
    + intros p2 h2 Hp2 Hm2 Hv2. set (a2 := set_pbase2 p2 a1) in *.
      eapply (prepare_step _ _ _ p a2 DUMBVM_STACKPAGES (fun pa => set_stackpbase pa a2)); [exact Hv2|apply lookup_insert_eq|by unfold DUMBVM_STACKPAGES| | | |].
      * unfold a2, a1. rewrite <- H3. by destruct a.
      * intros pa Hpa. unfold as_runs, a2, a1. simpl. rewrite H3, !Hr0, !Hr by done. simpl.
        by rewrite (Permutation_swap _ (pa + MIPS_KSEG0, _)), (Permutation_swap _ (pa + MIPS_KSEG0, _)).
      * intros h' Hv'. eexists h', a2, _, _. rewrite !with_space_twice in Hv' |- *. split; [done|]. split; [exact Hv'|]. by repeat split.
      * intros p3 h3 Hp3 Hm3 Hv3. apply wp_ret. rewrite !with_space_twice in Hv3 |- *.
        eexists h3, _, _, _. split; [reflexivity|]. split; [exact Hv3|]. by repeat split.
Qed.

(** ** Copying pages *)

Record pages_copied (m : mem) (to from n : Z) (m' : mem) : Prop := {
  pc_moved i : 0 <= i < n * PAGE_SIZE -> m' !! (to + MIPS_KSEG0 + i) = m !! (from + MIPS_KSEG0 + i);
  pc_rest x : ~ (to + MIPS_KSEG0 <= x < to + MIPS_KSEG0 + n * PAGE_SIZE) -> m' !! x = m !! x;
  pc_bytes : byte_mem m';
}.

Lemma move_pages_ok v live owner p q a b to from n :
  vm_ok v live owner -> spaces v !! p = Some a -> spaces v !! q = Some b -> 0 < to -> 0 < from -> 0 < n ->
  (to + MIPS_KSEG0, n * PAGE_SIZE) ∈ as_runs a -> (from + MIPS_KSEG0, n * PAGE_SIZE) ∈ as_runs b ->
  wp (move_pages to from n) (fun _ v' => exists m', v' = set_vmem m' v /\ pages_copied (vmem v) to from n m' /\
    vm_ok v' live owner) v.
Proof.
  intros Hv Hp Hq Ht Hf Hn Hto Hfrom. pose proof Hv as [Hh Hm Hby Hs Hr Ha Ho].
  destruct (Hr _ _ _ _ Hp Hto) as (_ & Htl & Htop). destruct (Hr _ _ _ _ Hq Hfrom) as (_ & Hfl & Hfop).
  destruct (heap_has_positive _ _ _ _ Hh Htl) as (_ & _ & Htb & _).
  destruct (heap_has_positive _ _ _ _ Hh Hfl) as (_ & _ & Hfb & _).
  assert (PADDR_TO_KVADDR to = to + MIPS_KSEG0 /\ PADDR_TO_KVADDR from = from + MIPS_KSEG0 /\
    u32 (n * PAGE_SIZE) = n * PAGE_SIZE /\ 0 <= n * PAGE_SIZE) as (Et & Ef & En & Hn0).
  { unfold PADDR_TO_KVADDR, MIPS_KSEG0, PAGE_SIZE in *. rewrite !u32_id by (unfold is_u32; lia). lia. }
  assert (forall x, 0 < x -> x + MIPS_KSEG0 + n * PAGE_SIZE <= MIPS_KSEG0 + top_of (vheap v) ->
    mapped (vmem v) (x + MIPS_KSEG0) (n * PAGE_SIZE)) as Hmap.
  { intros x Hx Hxt i Hi. replace (x + MIPS_KSEG0 + i) with (MIPS_KSEG0 + (x + i)) by lia. apply Hm. lia. }
  unfold move_pages. rewrite Et, Ef, En. wp_steps.
  eapply wp_mono; [apply memmove_correct; [by apply Hmap|by apply Hmap|done|done]|].
  intros r m' [-> Hc]. apply wp_ret. exists m'. split; [done|].
  assert (pages_copied (vmem v) to from n m') as Hpc.
  { split.
    - intros i Hi. rewrite Hc, bool_decide_true by lia. unfold source. f_equal. lia.
    - intros x Hx. by rewrite Hc, bool_decide_false by lia.
    - intros x y Hx. rewrite Hc in Hx. case_bool_decide; [by eapply Hby|by eapply Hby]. }
  split; [done|]. split; simpl; try done; [|by apply Hpc].
  intros i Hi. rewrite Hc. case_bool_decide as Hin; [|by apply Hm].
  unfold source. apply (Hmap from); [done|lia|lia].
Qed.

(** ** Copying a space *)

(** The three copies of [as_copy], when no target meets another run. *)
Definition clear_of (b n c m : Z) : Prop := b + n * PAGE_SIZE <= c \/ c + m * PAGE_SIZE <= b.

Lemma copies_compose m0 m1 m2 m3 t1 t2 t3 f1 f2 f3 n1 n2 n3 :
  pages_copied m0 t1 f1 n1 m1 -> pages_copied m1 t2 f2 n2 m2 -> pages_copied m2 t3 f3 n3 m3 ->
  clear_of t1 n1 t2 n2 -> clear_of t1 n1 t3 n3 -> clear_of t2 n2 t3 n3 ->
  clear_of f2 n2 t1 n1 -> clear_of f3 n3 t1 n1 -> clear_of f3 n3 t2 n2 ->
  (forall i, 0 <= i < n1 * PAGE_SIZE -> m3 !! (t1 + MIPS_KSEG0 + i) = m0 !! (f1 + MIPS_KSEG0 + i)) /\
  (forall i, 0 <= i < n2 * PAGE_SIZE -> m3 !! (t2 + MIPS_KSEG0 + i) = m0 !! (f2 + MIPS_KSEG0 + i)) /\
  (forall i, 0 <= i < n3 * PAGE_SIZE -> m3 !! (t3 + MIPS_KSEG0 + i) = m0 !! (f3 + MIPS_KSEG0 + i)) /\
  (forall x, (x < t1 + MIPS_KSEG0 \/ t1 + MIPS_KSEG0 + n1 * PAGE_SIZE <= x) ->
     (x < t2 + MIPS_KSEG0 \/ t2 + MIPS_KSEG0 + n2 * PAGE_SIZE <= x) ->
     (x < t3 + MIPS_KSEG0 \/ t3 + MIPS_KSEG0 + n3 * PAGE_SIZE <= x) -> m3 !! x = m0 !! x).
Proof.
  unfold clear_of. intros [H1 R1 _] [H2 R2 _] [H3 R3 _] A12 A13 A23 F21 F31 F32. repeat split.
  - intros i Hi. rewrite R3, R2, H1 by lia. done.
  - intros i Hi. rewrite R3, H2, R1 by lia. done.
  - intros i Hi. rewrite H3, R2, R1 by lia. done.
  - intros x X1 X2 X3. rewrite R3, R2, R1 by lia. done.
Qed.

Lemma has_pages_runs a : has_pages a ->
  as_runs a = [(as_pbase1 a + MIPS_KSEG0, as_npages1 a * PAGE_SIZE); (as_pbase2 a + MIPS_KSEG0, as_npages2 a * PAGE_SIZE);
               (as_stackpbase a + MIPS_KSEG0, DUMBVM_STACKPAGES * PAGE_SIZE)].
Proof. intros ([] & [] & []). unfold as_runs, run_of. by rewrite !(proj2 (Z.eqb_neq _ 0)) by lia. Qed.

Lemma has_pages_in a : has_pages a ->
  (as_pbase1 a + MIPS_KSEG0, as_npages1 a * PAGE_SIZE) ∈ as_runs a /\ (as_pbase2 a + MIPS_KSEG0, as_npages2 a * PAGE_SIZE) ∈ as_runs a /\
  (as_stackpbase a + MIPS_KSEG0, DUMBVM_STACKPAGES * PAGE_SIZE) ∈ as_runs a.
Proof. intros ->%has_pages_runs. rewrite !elem_of_cons. split_and!; auto. Qed.

(** Runs of different spaces, and different runs of one space, have no page in common. *)
Lemma runs_apart v live owner p q a b x n y m : vm_ok v live owner -> p <> q ->
  spaces v !! p = Some a -> spaces v !! q = Some b -> (x + MIPS_KSEG0, n * PAGE_SIZE) ∈ as_runs a ->
  (y + MIPS_KSEG0, m * PAGE_SIZE) ∈ as_runs b -> clear_of x n y m.
Proof.
  intros Hv Hne Ha Hb Hx Hy. destruct (vo_runs _ _ _ Hv _ _ _ _ Ha Hx) as (Hxo & Hxl & _).
  destruct (vo_runs _ _ _ Hv _ _ _ _ Hb Hy) as (Hyo & Hyl & _).
  assert (x + MIPS_KSEG0 <> y + MIPS_KSEG0) by congruence. unfold clear_of.
  destruct (heap_has_apart _ _ _ _ _ _ (vo_heap _ _ _ Hv) Hxl Hyl); [done|lia|lia].
Qed.

Lemma own_runs_apart v live owner p a x n y m : vm_ok v live owner -> spaces v !! p = Some a ->
  (x + MIPS_KSEG0, n * PAGE_SIZE) ∈ as_runs a -> (y + MIPS_KSEG0, m * PAGE_SIZE) ∈ as_runs a -> x <> y -> clear_of x n y m.
Proof.
  intros Hv Ha Hx Hy Hne. destruct (vo_runs _ _ _ Hv _ _ _ _ Ha Hx) as (_ & Hxl & _).
  destruct (vo_runs _ _ _ Hv _ _ _ _ Ha Hy) as (_ & Hyl & _). unfold clear_of.
  destruct (heap_has_apart _ _ _ _ _ _ (vo_heap _ _ _ Hv) Hxl Hyl); lia.
Qed.

(** The user addresses of two spaces of one shape correspond. *)
Lemma translate_shape n o va : same_shape n o -> has_pages n -> has_pages o ->
  (exists i, 0 <= i < as_npages1 o * PAGE_SIZE /\ translate n va = Some (as_pbase1 n + i) /\ translate o va = Some (as_pbase1 o + i)) \/
  (exists i, 0 <= i < as_npages2 o * PAGE_SIZE /\ translate n va = Some (as_pbase2 n + i) /\ translate o va = Some (as_pbase2 o + i)) \/
  (exists i, 0 <= i < DUMBVM_STACKPAGES * PAGE_SIZE /\ translate n va = Some (as_stackpbase n + i) /\ translate o va = Some (as_stackpbase o + i)) \/
  (translate n va = None /\ translate o va = None).
Proof.
  intros (Hv1 & Hn1 & Hv2 & Hn2) ([P1 _] & [P2 _] & [P3 _]) ([Q1 _] & [Q2 _] & [Q3 _]). unfold translate.
  rewrite Hv1, Hn1, Hv2, Hn2.
  assert (forall vb n x y, 0 < x -> 0 < y -> in_region vb x n va = in_region vb y n va) as He.
  { intros vb k x y Hx Hy. unfold in_region. by rewrite !(proj2 (Z.ltb_lt 0 _)). }
  rewrite (He _ _ (as_pbase1 n) (as_pbase1 o)), (He _ _ (as_pbase2 n) (as_pbase2 o)), (He _ _ (as_stackpbase n) (as_stackpbase o)) by done.
  repeat match goal with |- context [if ?b then _ else _] => destruct b eqn:?E end.
  - left. apply in_region_iff in E. eexists. split; [|done]. lia.
  - right; left. apply in_region_iff in E0. eexists. split; [|done]. lia.
  - right; right; left. apply in_region_iff in E1. eexists. split; [|done]. lia.
  - auto.
Qed.

(** The bytes of user space do not depend on the heap, nor on spaces of others. *)
Lemma user_byte_same v v' q : spaces v' !! q = spaces v !! q -> vmem v' = vmem v ->
  forall va, user_byte v' q va = user_byte v q va.
Proof. intros Hs Hm va. unfold user_byte, user_paddr. by rewrite Hs, Hm. Qed.

(** What stays when one space is added or changed. *)
Definition others_kept (v v' : vmstate) : Prop :=
  tlb v' = tlb v /\ t_vmspace v' = t_vmspace v /\ vspl v' = vspl v /\
  forall q, is_Some (spaces v !! q) ->
    spaces v' !! q = spaces v !! q /\ forall va, user_byte v' q va = user_byte v q va.

(** The three [memmove]s give the new space the bytes of the old one. *)
Lemma copy_pages_ok v live owner new old n o :
  vm_ok v live owner -> spaces v !! new = Some n -> spaces v !! old = Some o -> new <> old ->
  same_shape n o -> has_pages n -> has_pages o -> 0 < as_npages1 o -> 0 < as_npages2 o ->
  wp (do! move_pages (as_pbase1 n) (as_pbase1 o) (as_npages1 o) in
      do! move_pages (as_pbase2 n) (as_pbase2 o) (as_npages2 o) in
      do! move_pages (as_stackpbase n) (as_stackpbase o) DUMBVM_STACKPAGES in
      ok new)
    (fun r v' => r = inr new /\ exists m, v' = set_vmem m v /\ vm_ok v' live owner /\
      (forall va, user_byte v' new va = user_byte v old va) /\
      forall q, q <> new -> forall va, user_byte v' q va = user_byte v q va) v.
Proof.
  intros Hv Hn Ho Hne Hsh Hpn Hpo H1 H2. pose proof (has_pages_runs _ Hpn) as Rn.
  pose proof Hsh as (_ & En1 & _ & En2). rewrite En1, En2 in Rn. pose proof Hpn as ([P1 _] & [P2 _] & [P3 _]). pose proof Hpo as ([Q1 _] & [Q2 _] & [Q3 _]).
  destruct (has_pages_in _ Hpn) as (I1 & I2 & I3). destruct (has_pages_in _ Hpo) as (J1 & J2 & J3). rewrite En1, En2 in *.
  assert (NoDup (as_runs n).*1) as Hnd by (by eapply NoDup_cons, vo_apart).
  rewrite Rn in Hnd. simpl in Hnd. rewrite !NoDup_cons, !not_elem_of_cons in Hnd. destruct Hnd as ((D12 & D13 & _) & (D23 & _) & _).
  wp_steps. eapply wp_mono; [eapply (move_pages_ok v live owner new old n o);
    [done|done|done|lia|lia|done|exact I1|exact J1]|].
  intros [] v1 (m1 & -> & C1 & Hv1). wp_steps. eapply wp_mono; [eapply (move_pages_ok _ live owner new old n o);
    [exact Hv1|done|done|lia|lia|done|exact I2|exact J2]|].
  intros [] v2 (m2 & -> & C2 & Hv2). wp_steps. eapply wp_mono; [eapply (move_pages_ok _ live owner new old n o);
    [exact Hv2|done|done|lia|lia|by unfold DUMBVM_STACKPAGES|exact I3|exact J3]|].
  intros [] v3 (m3 & -> & C3 & Hv3). wp_steps. split; [done|]. exists m3. simpl in C1, C2, C3, Hv3 |- *. split; [done|]. split; [exact Hv3|].
  assert (forall x k y m, (x + MIPS_KSEG0, k * PAGE_SIZE) ∈ as_runs n -> (y + MIPS_KSEG0, m * PAGE_SIZE) ∈ as_runs n ->
    x <> y -> clear_of x k y m) as Ann by (intros; eapply (own_runs_apart v live owner new n); eauto).
  assert (forall x k y m, (x + MIPS_KSEG0, k * PAGE_SIZE) ∈ as_runs o -> (y + MIPS_KSEG0, m * PAGE_SIZE) ∈ as_runs n ->
    clear_of x k y m) as Aon by (intros; eapply (runs_apart v live owner old new o n); eauto).
  destruct (copies_compose _ _ _ _ _ _ _ _ _ _ _ _ _ C1 C2 C3 (Ann _ _ _ _ I1 I2 ltac:(lia)) (Ann _ _ _ _ I1 I3 ltac:(lia))
    (Ann _ _ _ _ I2 I3 ltac:(lia)) (Aon _ _ _ _ J2 I1) (Aon _ _ _ _ J3 I1) (Aon _ _ _ _ J3 I2)) as (M1 & M2 & M3 & Rest).
  split.
  - intros va. unfold user_byte, user_paddr. simpl. rewrite Hn, Ho. simpl.
    destruct (translate_shape n o va Hsh Hpn Hpo) as [(i & Hi & -> & ->)|[(i & Hi & -> & ->)|[(i & Hi & -> & ->)|[-> ->]]]]; simpl; try done.
    + rewrite (Z.add_shuffle0 _ i), (Z.add_shuffle0 _ i). by apply M1.
    + rewrite (Z.add_shuffle0 _ i), (Z.add_shuffle0 _ i). by apply M2.
    + rewrite (Z.add_shuffle0 _ i), (Z.add_shuffle0 _ i). by apply M3.
  - intros q Hq va. unfold user_byte, user_paddr. simpl. destruct (spaces v !! q) as [b|] eqn:Hb; simpl; [|done].
    destruct (translate b va) as [pa|] eqn:Ht; simpl; [|done].
    destruct (translate_run _ _ _ Ht) as (x & k & Hx & Hxr). destruct (vo_runs _ _ _ Hv _ _ _ _ Hb Hx) as (Hxo & Hxl & _).
    assert (forall y m, (y, m) ∈ as_runs n -> pa + MIPS_KSEG0 < y \/ y + m <= pa + MIPS_KSEG0) as Hout.
    { intros y m Hy. destruct (vo_runs _ _ _ Hv _ _ _ _ Hn Hy) as (Hyo & Hyl & _). assert (x <> y) by congruence.
      destruct (heap_has_apart _ _ _ _ _ _ (vo_heap _ _ _ Hv) Hxl Hyl); [done|lia|lia]. }
    apply Rest; by apply Hout.
Qed.

Lemma others_kept_same v v' : tlb v' = tlb v -> t_vmspace v' = t_vmspace v -> vspl v' = vspl v -> vmem v' = vmem v ->
  (forall q, is_Some (spaces v !! q) -> spaces v' !! q = spaces v !! q) -> others_kept v v'.
Proof. intros Ht Hc Hs Hm Hq. split_and!; auto. intros q Hi. split; [by apply Hq|]. by apply user_byte_same; [apply Hq|]. Qed.

(** A space that [as_copy] can copy. *)
Definition copyable (o : addrspace) : Prop :=
  has_pages o /\ 0 < as_npages1 o <= 2 ^ 19 /\ 0 < as_npages2 o <= 2 ^ 19.

Lemma as_copy_ok v live owner old o : vm_ok v live owner -> spaces v !! old = Some o -> copyable o ->
  wp (as_copy old) (fun r v' => others_kept v v' /\ exists live' owner', vm_ok v' live' owner' /\
    match r with
    | inl e => e = ENOMEM /\ spaces v' = spaces v
    | inr new => spaces v !! new = None /\ (exists n, spaces v' !! new = Some n /\ same_shape n o /\ has_pages n) /\
        forall va, user_byte v' new va = user_byte v old va
    end) v.
Proof.
  intros Hv Ho (Hpo & Hn1 & Hn2). unfold as_copy. wp_steps. eapply wp_mono; [by eapply as_create_ok|].
  intros [new|] v0 (h0 & Ht0 & Hcase).
  2: { destruct Hcase as [-> Hv0]. wp_steps. split; [by apply others_kept_same|]. by exists live, owner. }
  destruct Hcase as (-> & Hnew & k & Hv0). assert (new <> old) as Hne by congruence.
  unfold get_space at 1. wp_steps. exists o. split; [simpl; by rewrite lookup_insert_ne|].
  unfold get_space at 1. wp_steps. eexists. split; [apply lookup_insert_eq|]. unfold put_space at 1. wp_steps.
  set (n0 := set_region2 _ _ _). pose proof (move_space _ _ _ new _ n0 Hv0 (lookup_insert_eq _ _ _) ltac:(done)) as Hv1.
  eapply wp_mono; [eapply as_prepare_load_ok; [exact Hv1|apply lookup_insert_eq|done|done|done|done|done]|].
  intros r v2 (h2 & n & live2 & owner2 & -> & Hv2 & Hsh & Hr).
  assert (same_shape n o) as Hsh' by exact Hsh.
  assert (spaces (with_space (set_spaces (<[new:=n0]> (spaces (with_space v h0 new (mk_as 0 0 0 0 0 0 0))))
    (with_space v h0 new (mk_as 0 0 0 0 0 0 0))) h2 new n) = <[new := n]> (spaces v)) as Hsp.
  { simpl. by rewrite !insert_insert_eq. }
  destruct r as [e|[]].
  - wp_steps. eapply wp_mono; [eapply as_destroy_ok; [exact Hv2|apply lookup_insert_eq]|].
    intros [] v3 (h3 & -> & Hv3). wp_steps. rewrite Hsp, delete_insert_id in Hv3 |- * by done.
    split; [by apply others_kept_same|]. by eexists _, _.
  - unfold get_space at 1. wp_steps. exists n. split; [apply lookup_insert_eq|]. pose proof Hr as ([P1 _] & [P2 _] & [P3 _]).
    rewrite !(proj2 (Z.eqb_neq _ 0)) by lia. do 3 (apply wp_bind, wp_assert; split; [done|]).
    unfold get_space. wp_steps. exists o. split; [rewrite Hsp; by rewrite lookup_insert_ne|].
    eapply wp_mono; [eapply (copy_pages_ok _ live2 owner2 new old n o);
      [exact Hv2|apply lookup_insert_eq|rewrite Hsp; by rewrite lookup_insert_ne|done..|lia|lia]|].
    intros r v3 (-> & m & -> & Hv3 & Hcp & Hrest). simpl in Hsp.
    assert (forall q va, q <> new -> user_byte (set_vmem m (with_space (set_spaces (<[new:=n0]> (spaces (with_space v h0 new (mk_as 0 0 0 0 0 0 0))))
      (with_space v h0 new (mk_as 0 0 0 0 0 0 0))) h2 new n)) q va = user_byte v q va) as Hkeep.
    { intros q va Hq. rewrite Hrest by done. apply user_byte_same; [|done]. simpl. by rewrite Hsp, lookup_insert_ne. }
    split.
    + split_and!; try done. intros q [c Hc]. assert (q <> new) by congruence. split; [simpl; by rewrite Hsp, lookup_insert_ne|].
      intros va. by apply Hkeep.
    + exists live2, owner2. split; [exact Hv3|]. split; [done|]. split.
      * exists n. split; [|done]. simpl. rewrite Hsp. apply lookup_insert_eq.
      * intros va. rewrite Hcp. apply user_byte_same; [|done]. simpl. by rewrite Hsp, lookup_insert_ne.
Qed.

(** ** Spaces that are ready *)

(** A region of user space: whole pages, not the first. *)
Definition virt_ok (vb n : Z) : Prop :=
  0 < vb /\ vb mod PAGE_SIZE = 0 /\ 0 < n /\ vb + n * PAGE_SIZE <= USERTOP.

Lemma ready_of v live owner p a : vm_ok v live owner -> spaces v !! p = Some a -> has_pages a ->
  virt_ok (as_vbase1 a) (as_npages1 a) -> virt_ok (as_vbase2 a) (as_npages2 a) -> as_ready a.
Proof.
  intros Hv Ha Hp (V1 & M1 & N1 & T1) (V2 & M2 & N2 & T2). destruct (has_pages_in _ Hp) as (I1 & I2 & I3).
  destruct Hp as ([P1 Q1] & [P2 Q2] & [P3 Q3]).
  assert (forall x n, (x + MIPS_KSEG0, n * PAGE_SIZE) ∈ as_runs a -> x + n * PAGE_SIZE <= 2 ^ 29) as Hb.
  { intros x n Hx. destruct (vo_runs _ _ _ Hv _ _ _ _ Ha Hx) as (_ & Hl & _).
    destruct (heap_has_positive _ _ _ _ (vo_heap _ _ _ Hv) Hl) as (_ & _ & Ht & _). lia. }
  split; [|split]; split; auto; by vm_compute.
Qed.

(** A new space with two regions and its pages. *)
Definition make_space (va1 sz1 va2 sz2 : Z) : E vmstate Z :=
  let! p := as_create in
  match p with
  | None => fail ENOMEM
  | Some p =>
      try! _ := as_define_region p va1 sz1 1 1 1 in
      try! _ := as_define_region p va2 sz2 1 1 1 in
      try! _ := as_prepare_load p in
      ok p
  end.

Lemma define_size sz : 0 <= sz <= 2 ^ 31 ->
  Z.land (u32 (u32 (sz + PAGE_SIZE) - 1)) PAGE_FRAME / PAGE_SIZE = (sz + PAGE_SIZE - 1) / PAGE_SIZE.
Proof.
  intros Hs. unfold PAGE_SIZE. rewrite (u32_id (sz + 4096)), u32_id by (unfold is_u32; lia).
  rewrite land_frame by (unfold is_u32; lia). unfold PAGE_SIZE.
  pose proof (Z.div_mod (sz + 4096 - 1) 4096 ltac:(lia)).
  replace (sz + 4096 - 1 - (sz + 4096 - 1) mod 4096) with ((sz + 4096 - 1) / 4096 * 4096) by lia. by rewrite Z.div_mul.
Qed.

Lemma define_first v p a va sz r w x : spaces v !! p = Some a -> as_vbase1 a = 0 -> is_u32 va -> 0 <= sz <= 2 ^ 31 ->
  as_define_region p va sz r w x v =
    Done (inr tt) (set_spaces (<[p := set_region1 (page_of va) ((sz + PAGE_SIZE - 1) / PAGE_SIZE) a]> (spaces v)) v).
Proof.
  intros Ha H0 Hva Hs. unfold as_define_region, get_space, put_space. simpl_m. rewrite Ha. simpl. rewrite H0. simpl.
  by rewrite define_size, land_frame by done.
Qed.

Lemma define_second v p a va sz r w x : spaces v !! p = Some a -> as_vbase1 a <> 0 -> as_vbase2 a = 0 -> is_u32 va ->
  0 <= sz <= 2 ^ 31 ->
  as_define_region p va sz r w x v =
    Done (inr tt) (set_spaces (<[p := set_region2 (page_of va) ((sz + PAGE_SIZE - 1) / PAGE_SIZE) a]> (spaces v)) v).
Proof.
  intros Ha H1 H0 Hva Hs. unfold as_define_region, get_space, put_space. simpl_m. rewrite Ha. simpl.
  rewrite (proj2 (Z.eqb_neq _ _) H1), H0. simpl. by rewrite define_size, land_frame by done.
Qed.

Lemma make_space_ok v live owner va1 sz1 va2 sz2 :
  vm_ok v live owner -> is_u32 va1 -> is_u32 va2 -> 0 < sz1 <= 2 ^ 31 -> 0 < sz2 <= 2 ^ 31 ->
  virt_ok (page_of va1) ((sz1 + PAGE_SIZE - 1) / PAGE_SIZE) -> virt_ok (page_of va2) ((sz2 + PAGE_SIZE - 1) / PAGE_SIZE) ->
  wp (make_space va1 sz1 va2 sz2) (fun r v' => tlb v' = tlb v /\ vmem v' = vmem v /\ t_vmspace v' = t_vmspace v /\
    exists live' owner', vm_ok v' live' owner' /\
    match r with inl e => e = ENOMEM | inr p => exists a, spaces v' !! p = Some a /\ as_ready a /\ copyable a end) v.
Proof.
  intros Hv Hu1 Hu2 Hs1 Hs2 V1 V2. unfold make_space. wp_steps. eapply wp_mono; [by eapply as_create_ok|].
  intros [p|] v0 (h0 & Ht0 & Hc); [|destruct Hc as [-> Hv0]; wp_steps; split_and!; try done; by eexists _, _].
  destruct Hc as (-> & Hp & k & Hv0). set (n1 := (sz1 + PAGE_SIZE - 1) / PAGE_SIZE) in *. set (n2 := (sz2 + PAGE_SIZE - 1) / PAGE_SIZE) in *.
  assert (forall n, virt_ok (page_of va1) n \/ virt_ok (page_of va2) n -> 0 < n <= 2 ^ 19) as Hn.
  { unfold virt_ok, PAGE_SIZE, USERTOP, MIPS_KSEG0. intros n [Hn|Hn]; lia. }
  wp_steps. eapply wp_of_eq; [apply define_first; [apply lookup_insert_eq|done|done|lia]|]. wp_steps.
  fold n1. set (a1 := set_region1 (page_of va1) n1 _).
  pose proof (move_space _ _ _ p _ a1 Hv0 (lookup_insert_eq _ _ _) ltac:(done)) as Hv1.
  cbv beta iota. wp_steps. eapply wp_of_eq; [apply (define_second _ p a1); [apply lookup_insert_eq|unfold virt_ok in V1; simpl; lia|done|done|lia]|].
  cbv beta iota. wp_steps. fold n2. set (a2 := set_region2 (page_of va2) n2 a1).
  pose proof (move_space _ _ _ p _ a2 Hv1 (lookup_insert_eq _ _ _) ltac:(done)) as Hv2.
  eapply wp_mono; [eapply (as_prepare_load_ok _ _ _ p a2); [exact Hv2|apply lookup_insert_eq|done|done|done|apply Hn; by left|apply Hn; by right]|].
  intros r v3 (h3 & a3 & live3 & owner3 & -> & Hv3 & (E1 & E2 & E3 & E4) & Hr).
  destruct r as [e|[]]; wp_steps; (split; [done|]); (split; [done|]); (split; [done|]); exists live3, owner3; (split; [exact Hv3|]); [done|].
  exists a3. split; [apply lookup_insert_eq|].
  assert (as_ready a3) as Hrd.
  { eapply ready_of; [exact Hv3|apply lookup_insert_eq|done|rewrite E1, E2; exact V1|rewrite E3, E4; exact V2]. }
  split; [done|]. split; [done|]. rewrite E2, E4. split; apply Hn; auto.
Qed.

(** ** Segments that are too big *)

Lemma stealmem_rewinds s k : 0 < k -> 0 < firstpaddr s - k * PAGE_SIZE -> firstpaddr s <= lastpaddr s <= 2 ^ 29 ->
  ram_stealmem (2 ^ 20 - k) s = Done (firstpaddr s) (mk_ram (firstfree s) (firstpaddr s - k * PAGE_SIZE) (lastpaddr s)).
Proof.
  intros Hk Hf Hl. unfold ram_stealmem, PAGE_SIZE in *. simpl_m.
  rewrite (u32_id ((2 ^ 20 - k) * 4096)) by (unfold is_u32; lia).
  assert (u32 (firstpaddr s + (2 ^ 20 - k) * 4096) = firstpaddr s - k * 4096) as ->.
  { unfold u32. replace (firstpaddr s + (2 ^ 20 - k) * 4096) with (firstpaddr s - k * 4096 + 1 * 2 ^ 32) by lia.
    rewrite Z.mod_add, Z.mod_small by lia. done. }
  by destruct (Z.ltb_spec (lastpaddr s) (firstpaddr s - k * 4096)); [lia|].
Qed.

Lemma define_huge k : 0 < k <= 2 ^ 19 -> Z.land (u32 (u32 (2 ^ 32 - k * PAGE_SIZE + PAGE_SIZE) - 1)) PAGE_FRAME / PAGE_SIZE = 2 ^ 20 - k.
Proof.
  intros Hk. unfold PAGE_SIZE.
  assert (u32 (u32 (2 ^ 32 - k * 4096 + 4096) - 1) = 2 ^ 32 - k * 4096 + 4095) as ->.
  { destruct (Z.eq_dec k 1) as [->|Hk1]; [done|]. rewrite (u32_id (2 ^ 32 - k * 4096 + 4096)), u32_id by (unfold is_u32; lia). lia. }
  rewrite land_frame by (unfold is_u32; lia). unfold PAGE_SIZE.
  replace (2 ^ 32 - k * 4096 + 4095) with (4095 + (2 ^ 20 - k) * 4096) by lia.
  rewrite Z.mod_add by lia. change (4095 mod 4096) with 4095.
  replace (4095 + (2 ^ 20 - k) * 4096 - 4095) with ((2 ^ 20 - k) * 4096) by lia. by rewrite Z.div_mul.
Qed.

(** [n] pages as [vm_getppages] takes them. *)
Lemma getppages_run v n pa r : ram_stealmem n (hpages (vheap v)) = Done pa r ->
  vm_getppages n v = Done pa (set_vheap (set_hpages r (vheap v)) v).
Proof.
  intros Hrun. unfold vm_getppages, splhigh, splx, on_heap, on_pages, zoom. simpl_m. rewrite Hrun. by destruct v.
Qed.

Lemma prepare_run p v n pa r (f : Z -> addrspace) (k : Z -> E vmstate unit) :
  ram_stealmem n (hpages (vheap v)) = Done pa r -> pa <> 0 ->
  (let! pa := vm_getppages n in do! put_space p (f pa) in if pa =? 0 then fail ENOMEM else k pa) v =
  k pa (with_space v (set_hpages r (vheap v)) p (f pa)).
Proof.
  intros Hrun Hne. rewrite (bind_done _ _ _ _ _ (getppages_run _ _ _ _ Hrun)). unfold put_space. simpl_m.
  by rewrite (proj2 (Z.eqb_neq _ _) Hne).
Qed.

Lemma prepare_rewinds v p va1 va2 k :
  spaces v !! p = Some (mk_as 0 0 0 0 0 0 0) -> PAGE_SIZE <= va1 < 2 ^ 32 -> PAGE_SIZE <= va2 < 2 ^ 32 ->
  let f := firstpaddr (hpages (vheap v)) in
  0 < k -> 0 < f - k * PAGE_SIZE -> f + 13 * PAGE_SIZE <= lastpaddr (hpages (vheap v)) <= 2 ^ 29 ->
  exists v' a, (try! _ := as_define_region p va1 (2 ^ 32 - k * PAGE_SIZE) 1 1 1 in
                try! _ := as_define_region p va2 PAGE_SIZE 1 1 1 in
                as_prepare_load p) v = Done (inr tt) v' /\
    spaces v' !! p = Some a /\ as_pbase1 a = f /\ as_pbase2 a = f - k * PAGE_SIZE.
Proof.
  intros Hp Hva1 Hva2 f Hk Hf Hl. assert (k <= 2 ^ 17) by (unfold f, PAGE_SIZE in *; lia).
  destruct (page_of_facts va1) as (H1 & H1' & _); [unfold PAGE_SIZE in *; lia|].
  destruct (page_of_facts va2) as (H2 & H2' & _); [unfold PAGE_SIZE in *; lia|].
  set (a1 := mk_as (page_of va1) 0 (2 ^ 20 - k) 0 0 0 0).
  set (a2 := mk_as (page_of va1) 0 (2 ^ 20 - k) (page_of va2) 0 1 0).
  set (v2 := set_spaces (<[p := a2]> (spaces v)) v).
  assert ((try! _ := as_define_region p va1 (2 ^ 32 - k * PAGE_SIZE) 1 1 1 in
           try! _ := as_define_region p va2 PAGE_SIZE 1 1 1 in as_prepare_load p) v = as_prepare_load p v2) as ->.
  { rewrite (tbind_done _ _ _ tt (set_spaces (<[p := a1]> (spaces v)) v)).
    2: { unfold as_define_region, get_space, put_space. simpl_m. rewrite Hp. simpl. rewrite define_huge by lia.
         rewrite land_frame by (unfold is_u32, PAGE_SIZE in *; lia). done. }
    rewrite (tbind_done _ _ _ tt v2); [done|].
    rewrite (define_second _ p a1); try (unfold is_u32, PAGE_SIZE in *; simpl; lia || done || apply lookup_insert_eq).
    simpl. by rewrite insert_insert_eq. }
  set (r0 := hpages (vheap v)) in *.
  pose proof (stealmem_rewinds r0 k Hk Hf ltac:(unfold f, PAGE_SIZE in *; lia)) as S1.
  set (r1 := mk_ram (firstfree r0) (f - k * PAGE_SIZE) (lastpaddr r0)) in *.
  pose proof (stealmem_fits r1 1 ltac:(lia) ltac:(simpl; unfold f, PAGE_SIZE in *; lia) ltac:(simpl; unfold f, PAGE_SIZE in *; lia)) as S2.
  rewrite (proj2 (Z.ltb_ge _ _)) in S2 by (simpl; unfold f, PAGE_SIZE in *; lia). cbn [firstpaddr firstfree lastpaddr r1] in S2.
  set (r2 := mk_ram _ _ _) in S2.
  pose proof (stealmem_fits r2 12 ltac:(lia) ltac:(simpl; unfold f, PAGE_SIZE in *; lia) ltac:(simpl; unfold f, PAGE_SIZE in *; lia)) as S3.
  rewrite (proj2 (Z.ltb_ge _ _)) in S3 by (simpl; unfold f, PAGE_SIZE in *; lia). cbn [firstpaddr firstfree lastpaddr r2] in S3.
  unfold as_prepare_load. rewrite (bind_done _ _ _ a2 v2) by (unfold get_space; simpl_m; by rewrite lookup_insert_eq).
  do 3 (erewrite bind_done; [|reflexivity]). cbv zeta.
  assert (firstpaddr r0 <> 0 /\ f - k * PAGE_SIZE <> 0 /\ f - k * PAGE_SIZE + 1 * PAGE_SIZE <> 0) as (N1 & N2 & N3)
    by (unfold f, PAGE_SIZE in *; lia).
  erewrite (prepare_run p v2 _ _ _ (fun pa => set_pbase1 pa a2)); [|exact S1|done].
  erewrite (prepare_run p _ _ _ _ (fun pa => set_pbase2 pa _)); [|exact S2|done].
  erewrite (prepare_run p _ _ _ _ (fun pa => set_stackpbase pa _)); [|exact S3|done].
  eexists _, _. split; [reflexivity|]. split; [apply lookup_insert_eq|done].
Qed.

(** ** Properties *)

(** C14. A page fault of a running program loads exactly one translation: the page of the
    fault address goes to the physical page that its space has for it, in the first
    invalid TLB entry, and nothing else changes. Outside the regions, and when all 64
    entries are valid, the fault is [EFAULT] and nothing changes at all. *)
Theorem vm_fault_installs v p a ft fa :
  t_vmspace v = Some p -> spaces v !! p = Some a -> as_ready a -> lenZ (tlb v) = NUM_TLB -> is_u32 fa ->
  ft = VM_FAULT_READ \/ ft = VM_FAULT_WRITE ->
  vm_fault ft fa v =
    match translate a (page_of fa), free_slot (tlb v) with
    | Some pa, Some i => Done (inr tt) (set_tlb (setZ (tlb v) i (page_of fa, entry_lo pa)) v)
    | _, _ => Done (inl EFAULT) v
    end.
Proof. apply vm_fault_run. Qed.

(** C13. [as_copy] either runs out of memory, leaving every space as it was, or makes a
    new space that has at every user address the byte the old one has; all other spaces
    and their bytes stay, and no byte of the new space is a byte of another one. *)
Theorem as_copy_separate v live owner old o : vm_ok v live owner -> spaces v !! old = Some o -> copyable o ->
  exists r v' live' owner', as_copy old v = Done r v' /\ vm_ok v' live' owner' /\ others_kept v v' /\
    match r with
    | inl e => e = ENOMEM /\ spaces v' = spaces v
    | inr new => spaces v !! new = None /\ (forall va, user_byte v' new va = user_byte v old va) /\
        forall q va vb pa pb, q <> new -> user_paddr v' new va = Some pa -> user_paddr v' q vb = Some pb -> pa <> pb
    end.
Proof.
  intros Hv Ho Hc. destruct (wp_done _ _ _ (as_copy_ok v live owner old o Hv Ho Hc)) as (r & v' & Hrun & Hk & live' & owner' & Hv' & Hr).
  exists r, v', live', owner'. split_and!; try done. destruct r as [e|new]; [done|]. destruct Hr as (Hn & _ & Hb).
  split_and!; try done. intros q va vb pa pb Hq Hpa Hpb. by eapply (user_paddr_apart v' live' owner' new q).
Qed.

(** A segment of almost 4 GB is accepted: the size wraps in [ram_stealmem], which
    hands out the memory from the first free page on and moves the first free page
    [k] pages {e down}, so the next region gets pages that were in use before. *)
Theorem as_prepare_load_rewinds v p va1 va2 k :
  spaces v !! p = Some (mk_as 0 0 0 0 0 0 0) -> PAGE_SIZE <= va1 < 2 ^ 32 -> PAGE_SIZE <= va2 < 2 ^ 32 ->
  0 < k -> 0 < firstpaddr (hpages (vheap v)) - k * PAGE_SIZE ->
  firstpaddr (hpages (vheap v)) + 13 * PAGE_SIZE <= lastpaddr (hpages (vheap v)) <= 2 ^ 29 ->
  exists v' a, (try! _ := as_define_region p va1 (2 ^ 32 - k * PAGE_SIZE) 1 1 1 in
                try! _ := as_define_region p va2 PAGE_SIZE 1 1 1 in
                as_prepare_load p) v = Done (inr tt) v' /\
    spaces v' !! p = Some a /\ as_pbase1 a = firstpaddr (hpages (vheap v)) /\
    as_pbase2 a = firstpaddr (hpages (vheap v)) - k * PAGE_SIZE.
Proof. apply prepare_rewinds. Qed.

(** ** A machine with 40 pages, 4 of them taken by the kernel *)

Fixpoint zeros_from (n : nat) (a : Z) : mem :=
  match n with O => ∅ | S n => <[a := 0]> (zeros_from n (a + 1)) end.

Lemma zeros_from_lookup n : forall a x, zeros_from n a !! x = if bool_decide (a <= x < a + Z.of_nat n) then Some 0 else None.
Proof.
  induction n as [|n IH]; intros a x; cbn [zeros_from].
  - rewrite bool_decide_false by lia. apply lookup_empty.
  - rewrite lookup_insert_case, IH. repeat case_decide; repeat case_bool_decide; done || lia.
Qed.

Definition small_ram : ram := mk_ram 0 (4 * PAGE_SIZE) (40 * PAGE_SIZE).
Definition small_mem : mem := zeros_from (Z.to_nat (40 * PAGE_SIZE)) MIPS_KSEG0.
Definition vm_over (m : mem) : vmstate := mk_vm (empty_heap small_ram) ∅ m (replicate 64 (MIPS_KSEG0, 0)) 0 None.
Definition small_vm : vmstate := vm_over small_mem.

Lemma small_vm_ok : vm_ok small_vm ∅ ∅.
Proof.
  assert (forall x b, small_mem !! x = Some b -> b = 0) as Hz.
  { intros x b. unfold small_mem. rewrite zeros_from_lookup. case_bool_decide; congruence. }
  assert (mapped small_mem MIPS_KSEG0 (40 * PAGE_SIZE)) as Hm.
  { intros i Hi. unfold small_mem. rewrite zeros_from_lookup, bool_decide_true by (rewrite Z2Nat.id by (unfold PAGE_SIZE; lia); lia).
    by eexists. }
  assert (forall p a, spaces small_vm !! p <> Some a) as Hs by (intros p a; cbn [spaces small_vm vm_over]; by rewrite lookup_empty).
  split.
  - apply empty_heap_has. split; [by vm_compute|]. split; [vm_compute; done|]. split; [vm_compute; done|]. split; intros; by rewrite lookup_empty in *.
  - exact Hm.
  - cbn [vmem small_vm vm_over]. intros x b Hb. rewrite (Hz x b Hb). unfold is_u8. lia.
  - intros p a Ha. exfalso. exact (Hs _ _ Ha).
  - intros p a b n Ha. exfalso. exact (Hs _ _ Ha).
  - intros p a Ha. exfalso. exact (Hs _ _ Ha).
  - intros b p Hb. rewrite lookup_empty in Hb. discriminate Hb.
Qed.

(** There are pages enough, whatever they hold. *)
Lemma enough_pages m : match make_space 0x400010 100 0x10000000 5000 (vm_over m) with Done (inr _) _ => true | _ => false end = true.
Proof. vm_compute. reflexivity. Qed.

Lemma small_space : exists p v live owner a,
  make_space 0x400010 100 0x10000000 5000 small_vm = Done (inr p) v /\ vm_ok v live owner /\
  spaces v !! p = Some a /\ as_ready a /\ copyable a /\ tlb v = tlb small_vm.
Proof.
  assert (virt_ok (page_of 0x400010) ((100 + PAGE_SIZE - 1) / PAGE_SIZE)) as V1 by (by vm_compute).
  assert (virt_ok (page_of 0x10000000) ((5000 + PAGE_SIZE - 1) / PAGE_SIZE)) as V2 by (by vm_compute).
  pose proof (make_space_ok small_vm ∅ ∅ 0x400010 100 0x10000000 5000 small_vm_ok
    ltac:(unfold is_u32; lia) ltac:(unfold is_u32; lia) ltac:(lia) ltac:(lia) V1 V2) as Hw.
  apply wp_done in Hw as (r & v & Hrun & Htlb & _ & _ & live & owner & Hv & Hr).
  pose proof (enough_pages small_mem) as Hb. fold small_vm in Hb.
  rewrite Hrun in Hb. destruct r as [e|p]; [discriminate Hb|]. destruct Hr as (a & Ha & Hrd & Hc).
  exists p, v, live, owner, a. exact (conj Hrun (conj Hv (conj Ha (conj Hrd (conj Hc Htlb))))).
Qed.

Lemma vm_fault_installs_witness :
  exists p v a, make_space 0x400010 100 0x10000000 5000 small_vm = Done (inr p) v /\ as_ready a /\
    exists pa, translate a 0x7fff5000 = Some pa /\
    vm_fault VM_FAULT_WRITE 0x7fff5008 (set_t_vmspace (Some p) v) =
      Done (inr tt) (set_tlb (setZ (tlb v) 0 (0x7fff5000, entry_lo pa)) (set_t_vmspace (Some p) v)).
Proof.
  destruct small_space as (p & v & live & owner & a & Hrun & Hv & Ha & Hr & _ & Ht).
  exists p, v, a. split; [exact Hrun|]. split; [exact Hr|].
  assert (lenZ (tlb (set_t_vmspace (Some p) v)) = NUM_TLB) as Hl by (cbn [tlb set_t_vmspace]; rewrite Ht; reflexivity).
  pose proof (vm_fault_installs (set_t_vmspace (Some p) v) p a VM_FAULT_WRITE 0x7fff5008 eq_refl Ha Hr Hl
    ltac:(unfold is_u32; lia) (or_intror eq_refl)) as Hf.
  change (page_of 0x7fff5008) with 0x7fff5000 in Hf. cbn [tlb set_t_vmspace] in Hf |- *.
  assert (free_slot (tlb v) = Some 0) as Hs by (rewrite Ht; reflexivity).
  rewrite Hs in Hf.
  destruct (stack_translates a 0x7fff5000 Hr) as [pa Hpa];
    [clear; unfold STACKBASE, USERSTACK, USERTOP, MIPS_KSEG0, DUMBVM_STACKPAGES, PAGE_SIZE; lia|].
  rewrite Hpa in Hf. exists pa. split; [exact Hpa|exact Hf].
Defined.

Lemma as_copy_separate_witness :
  exists p v r v', make_space 0x400010 100 0x10000000 5000 small_vm = Done (inr p) v /\ as_copy p v = Done r v' /\
    match r with
    | inl e => e = ENOMEM
    | inr new => forall va, user_byte v' new va = user_byte v p va
    end.
Proof.
  destruct small_space as (p & v & live & owner & a & Hrun & Hv & Ha & Hr & Hc & Ht).
  destruct (as_copy_separate v live owner p a Hv Ha Hc) as (r & v' & live' & owner' & Hcopy & _ & _ & Hcase).
  exists p, v, r, v'. split; [exact Hrun|]. split; [exact Hcopy|]. destruct r as [e|new]; apply Hcase.
Defined.

(** A segment of 4 GB less two pages. *)
Lemma as_prepare_load_rewinds_witness :
  exists v' a, (try! _ := as_define_region 7 0x400000 (2 ^ 32 - 2 * PAGE_SIZE) 1 1 1 in
                try! _ := as_define_region 7 0x500000 PAGE_SIZE 1 1 1 in
                as_prepare_load 7) (set_spaces {[7 := mk_as 0 0 0 0 0 0 0]} small_vm) = Done (inr tt) v' /\
    spaces v' !! 7 = Some a /\ as_pbase1 a = 4 * PAGE_SIZE /\ as_pbase2 a = 4 * PAGE_SIZE - 2 * PAGE_SIZE.
Proof.
  apply (as_prepare_load_rewinds (set_spaces {[7 := mk_as 0 0 0 0 0 0 0]} small_vm) 7 0x400000 0x500000 2);
    [reflexivity|unfold PAGE_SIZE; lia|unfold PAGE_SIZE; lia|lia|reflexivity|split; vm_compute; discriminate].
Defined.
