(* ===== verification/Trap.v ===== *)
(** * Traps (kern/arch/mips/mips/trap.c), and the accesses that raise them.

    The interrupt and system call handlers are those of [Synch] and [FileTable], which
    run over states of their own; here they are arguments. The frame keeps the registers
    that the C code looks at; those a system call reads and writes are [tf_regs]. *)

From stdpp Require Import base numbers list gmap.
From Stdlib Require Import ZArith Lia.
From S2P Require Import Prelude FileTable Ram Mem AddrSpace.

Definition NTRAPCODES : Z := 13.
Definition EX_IRQ : Z := 0.
Definition EX_MOD : Z := 1.
Definition EX_TLBL : Z := 2.
Definition EX_TLBS : Z := 3.
Definition EX_IBE : Z := 6.
Definition EX_DBE : Z := 7.
Definition EX_SYS : Z := 8.
Definition CCA_CODE : Z := 0x3c.
Definition CCA_CODESHIFT : Z := 2.
Definition CST_IEp : Z := 4.
Definition CST_KUp : Z := 8.
Definition CST_IRQMASK : Z := 0xff00.
Definition STACK_SIZE : Z := 4096.

Record frame : Type := mk_frame {
  tf_vaddr : Z; tf_status : Z; tf_cause : Z; tf_sp : Z;
  tf_regs : trapframe;                    (* v0, a0 to a3, epc *)
}.

Definition set_epc (e : Z) (tf : frame) : frame :=
  let r := tf_regs tf in
  mk_frame (tf_vaddr tf) (tf_status tf) (tf_cause tf) (tf_sp tf)
    (mk_tf (tf_v0 r) (tf_a0 r) (tf_a1 r) (tf_a2 r) (tf_a3 r) e).
Definition set_regs (r : trapframe) (tf : frame) : frame :=
  mk_frame (tf_vaddr tf) (tf_status tf) (tf_cause tf) (tf_sp tf) r.

(** The current thread: its stack, and [t_pcb.pcb_badfaultfunc]. *)
Record kthread : Type := mk_kthread { t_stack : option Z; pcb_badfaultfunc : option Z }.

Section trap.
Context {R : Type}.

Record cpu : Type := mk_cpu {
  cvm : vmstate;
  curthread : option kthread;
  curkstack : Z;
  crest : R;                              (* what only the handlers use *)
}.

Definition set_cvm (v : vmstate) (c : cpu) : cpu := mk_cpu v (curthread c) (curkstack c) (crest c).
Definition on_vm {A} (m : M vmstate A) : M cpu A := zoom cvm set_cvm m.
Definition set_curspl (n : Z) : M cpu unit := on_vm (let! v := get in put (set_vspl n v)).

Context (mips_interrupt : Z -> M cpu unit) (mips_syscall : trapframe -> M cpu trapframe).

(** The machine stops: there is no way to kill a thread yet. *)
Definition kill_curthread (epc code vaddr : Z) : M cpu unit :=
  do! assert_ (code <? NTRAPCODES) in
  panic.

Definition check_kstack (tf_addr : Z) : M cpu unit :=
  let! c := get in
  assert_ (Z.land (u32 (curkstack c - 1)) 0xffffe000 =? Z.land tf_addr 0xffffe000).

(** From the label [done] on. *)
Definition trap_done (savespl tf_addr : Z) (tf : frame) : M cpu frame :=
  do! on_vm splhigh in
  do! set_curspl savespl in
  do! check_kstack tf_addr in
  ret tf.

(** The fault is fatal, unless a copy from or to user space is prepared for it. *)
Definition fatal_fault (savespl tf_addr code : Z) (tf : frame) : M cpu frame :=
  let iskern := Z.land (tf_status tf) CST_KUp =? 0 in
  if negb iskern then
    do! kill_curthread (tf_epc (tf_regs tf)) code (tf_vaddr tf) in
    trap_done savespl tf_addr tf
  else
    let! c := get in
    match curthread c with
    | Some t =>
        match pcb_badfaultfunc t with
        | Some f => trap_done savespl tf_addr (set_epc f tf)
        | None => panic
        end
    | None => panic
    end.

(** [tf_addr] is the address of the frame; returns the frame to resume with. *)
Definition mips_trap (tf_addr : Z) (tf : frame) : M cpu frame :=
  let! c := get in
  let savespl := vspl (cvm c) in
  do! set_curspl SPL_HIGH in
  let code := Z.shiftr (Z.land (tf_cause tf) CCA_CODE) CCA_CODESHIFT in
  do! assert_ (code <? NTRAPCODES) in
  do! match curthread c with
      | Some t =>
          match t_stack t with
          | Some stack => assert_ ((stack <? tf_addr) && (tf_addr <? u32 (stack + STACK_SIZE)))
          | None => ret tt
          end
      | None => ret tt
      end in
  if code =? EX_IRQ then
    do! mips_interrupt (tf_cause tf) in
    trap_done savespl tf_addr tf
  else
    do! on_vm (splx savespl) in
    if code =? EX_SYS then
      let! c := get in
      do! assert_ (vspl (cvm c) =? 0) in
      let! r := mips_syscall (tf_regs tf) in
      trap_done savespl tf_addr (set_regs r tf)
    else
      let fault ft :=
        let! r := on_vm (vm_fault ft (tf_vaddr tf)) in
        match r with
        | inr _ => trap_done savespl tf_addr tf
        | inl _ => fatal_fault savespl tf_addr code tf
        end in
      if code =? EX_MOD then fault VM_FAULT_READONLY
      else if code =? EX_TLBL then fault VM_FAULT_READ
      else if code =? EX_TLBS then fault VM_FAULT_WRITE
      else if (code =? EX_IBE) || (code =? EX_DBE) then panic
      else fatal_fault savespl tf_addr code tf.

(** Returns the frame that the processor goes to user mode with. *)
Definition mips_usermode (tf_addr : Z) (tf : frame) : M cpu frame :=
  do! on_vm splhigh in
  do! set_curspl 0 in
  do! check_kstack tf_addr in
  ret tf.

Definition md_usermode (tf_addr argc argv stack entry : Z) : M cpu frame :=
  mips_usermode tf_addr
    (mk_frame 0 (Z.lor (Z.lor CST_IRQMASK CST_IEp) CST_KUp) 0 stack
       (mk_tf 0 (u32 argc) argv 0 0 entry)).
End trap.
Arguments cpu : clear implicits.
