(* ===== verification/TrapSpec.v ===== *)
(** * Page faults and traps together: the memory that copies from and to user space see.

    [CopyInOut] lets a copy run on a map of bytes, where touching an absent address stops
    it with [EFAULT]. Here that map is refined: an access of the kernel goes through the
    TLB, a miss traps to [mips_trap], [vm_fault] loads the translation and the access is
    taken again, or the trap resumes at [pcb_badfaultfunc]. *)

From stdpp Require Import base numbers list gmap.
From Stdlib Require Import ZArith Lia.
From S2P Require Import Prelude FileTable Ram Kheap KheapPages KheapSpec Mem AddrSpace AddrSpaceSpec Trap.

(** ** TLB entries *)

Lemma lor_low pa b : is_u32 pa -> pa mod PAGE_SIZE = 0 -> 0 <= b < PAGE_SIZE -> Z.lor pa b = pa + b.
Proof.
  intros Hu Hm Hb. rewrite <- (MKPAB_sum pa b) by done. unfold MKPAB.
  rewrite land_frame, land_low, Hm, Z.sub_0_r, Z.mod_small by (done || lia). done.
Qed.

Lemma entry_lo_page pa : is_u32 (pa + PAGE_SIZE) -> 0 <= pa -> pa mod PAGE_SIZE = 0 -> Z.land (entry_lo pa) PAGE_FRAME = pa.
Proof.
  intros Hu H0 Hm. assert (is_u32 pa) as Hpa by (unfold is_u32, PAGE_SIZE in *; lia).
  unfold entry_lo. rewrite <- Z.lor_assoc. change (Z.lor TLBLO_DIRTY TLBLO_VALID) with 1536.
  rewrite lor_low by (done || (unfold PAGE_SIZE; lia)). unfold is_u32, PAGE_SIZE in *.
  rewrite land_frame by (unfold is_u32; lia). unfold PAGE_SIZE.
  rewrite Z.add_mod, Hm by lia. change ((0 + 1536 mod 4096) mod 4096) with 1536. lia.
Qed.

Lemma entry_lo_valid pa : Z.land (entry_lo pa) TLBLO_VALID <> 0.
Proof. unfold entry_lo. rewrite Z.land_lor_distr_l, Z.lor_eq_0_iff. by intros [_ ?]. Qed.

Lemma entry_lo_dirty pa : Z.land (entry_lo pa) TLBLO_DIRTY <> 0.
Proof. unfold entry_lo. rewrite !Z.land_lor_distr_l, !Z.lor_eq_0_iff. by intros [[_ ?] _]. Qed.

(** The TLB agrees with the space: valid entries translate as it does, invalid ones are
    outside user space, and no user page has two entries. *)
Record tlb_sound (a : addrspace) (l : list (Z * Z)) : Prop := {
  ts_len : lenZ l = NUM_TLB;
  ts_valid i e : nthZ l i = Some e -> ~ invalid e ->
    exists pa, translate a (fst e) = Some pa /\ snd e = entry_lo pa /\ fst e mod PAGE_SIZE = 0;
  ts_invalid i e : nthZ l i = Some e -> invalid e -> USERTOP <= fst e;
  ts_unique i j e e' : nthZ l i = Some e -> nthZ l j = Some e' -> fst e = fst e' -> fst e < USERTOP -> i = j;
}.

(** The entry the processor finds for an address. *)
Definition tlb_entry (l : list (Z * Z)) (va : Z) : option Z :=
  (fun x => snd (snd x)) <$> list_find (fun e => fst e = page_of va) l.

Lemma tlb_entry_none l va i e : tlb_entry l va = None -> nthZ l i = Some e -> fst e <> page_of va.
Proof.
  unfold tlb_entry. rewrite fmap_None, list_find_None, Forall_lookup. intros Hf Hi.
  pose proof (nthZ_Some_lt _ _ _ Hi). rewrite nthZ_to_nat in Hi by lia. by eapply Hf.
Qed.

Lemma tlb_entry_some l va elo : tlb_entry l va = Some elo -> exists i, nthZ l i = Some (page_of va, elo).
Proof.
  unfold tlb_entry. intros ((j & ehi & lo) & (Hj & He & _)%list_find_Some & ->)%fmap_Some. simpl in *. subst ehi.
  exists (Z.of_nat j). by rewrite nthZ_to_nat, Nat2Z.id by lia.
Qed.

Lemma tlb_entry_sound a l va elo : as_ready a -> tlb_sound a l -> 0 <= va < USERTOP -> tlb_entry l va = Some elo ->
  exists pa, translate a (page_of va) = Some pa /\ elo = entry_lo pa.
Proof.
  intros Hr Hs Hva (i & Hi)%tlb_entry_some. destruct (page_of_facts va) as (Hp & _); [lia|].
  destruct (decide (invalid (page_of va, elo))) as [Hinv|Hv].
  - pose proof (ts_invalid _ _ Hs _ _ Hi Hinv). simpl in *. lia.
  - destruct (ts_valid _ _ Hs _ _ Hi Hv) as (pa & Ht & He & _). by exists pa.
Qed.

(** [vm_fault]'s entry keeps the TLB in agreement. *)
Lemma tlb_sound_fill a l va pa i : as_ready a -> tlb_sound a l -> 0 <= va < USERTOP ->
  translate a (page_of va) = Some pa -> tlb_entry l va = None -> free_slot l = Some i ->
  tlb_sound a (setZ l i (page_of va, entry_lo pa)).
Proof.
  intros Hr [Hl Hv Hi Hu] Hva Ht Hn Hf. destruct (free_slot_first _ _ Hf) as [_ Hir].
  destruct (page_of_facts va) as (_ & _ & Hm & _); [lia|].
  assert (forall j e, nthZ (setZ l i (page_of va, entry_lo pa)) j = Some e ->
    (j = i /\ e = (page_of va, entry_lo pa)) \/ (j <> i /\ nthZ l j = Some e)) as Hcase.
  { intros j e Hj. destruct (decide (j = i)) as [->|Hne]; [rewrite nthZ_setZ_eq in Hj by done; left; by injection Hj as <-|].
    rewrite nthZ_setZ_ne in Hj by lia. by right. }
  split.
  - by rewrite lenZ_setZ.
  - intros j e [[-> ->]|[_ Hj]]%Hcase Hne; [exists pa; by simpl|by eapply Hv].
  - intros j e [[-> ->]|[_ Hj]]%Hcase Hne; [by apply entry_lo_valid in Hne|by eapply Hi].
  - intros j k e e' [[-> ->]|[_ Hj]]%Hcase [[-> ->]|[_ Hk]]%Hcase He Hlt; simpl in *; [done| | |by eapply Hu].
    + by apply (tlb_entry_none _ _ _ _ Hn) in Hk.
    + by apply (tlb_entry_none _ _ _ _ Hn) in Hj.
Qed.

(** ** After [as_activate] the TLB agrees with every space *)

Definition flushed : list (Z * Z) := (fun i => (TLBHI_INVALID (Z.of_nat i), TLBLO_INVALID)) <$> seq 0 64.

Lemma as_activate_run v p : length (tlb v) = 64%nat -> as_activate p v = Done tt (set_tlb flushed v).
Proof.
  intros Hl. destruct v as [h s m l n q]. simpl in Hl. unfold as_activate, splhigh, splx.
  do 64 (destruct l as [|? l]; [done|]). by destruct l.
Qed.

Lemma flushed_entry i e : nthZ flushed i = Some e -> 0 <= i < 64 /\ e = (MIPS_KSEG0 + i * PAGE_SIZE, 0).
Proof.
  intros Hi. pose proof (nthZ_Some_lt _ _ _ Hi) as Hr. change (lenZ flushed) with 64 in Hr. split; [done|].
  unfold flushed in Hi. rewrite nthZ_to_nat, list_lookup_fmap, lookup_seq_lt in Hi by lia.
  injection Hi as <-. unfold TLBHI_INVALID, TLBLO_INVALID. f_equal. rewrite Z.shiftl_mul_pow2 by lia.
  rewrite u32_id by (unfold is_u32; lia). unfold MIPS_KSEG0, PAGE_SIZE. lia.
Qed.

Lemma flushed_sound a : tlb_sound a flushed.
Proof.
  split.
  - done.
  - intros i e [_ ->]%flushed_entry Hv. by destruct Hv.
  - intros i e [Hi ->]%flushed_entry _. simpl. unfold USERTOP, PAGE_SIZE. lia.
  - intros i j e e' [Hi ->]%flushed_entry [Hj ->]%flushed_entry _. simpl. unfold USERTOP, PAGE_SIZE. lia.
Qed.

(** ** An access of the kernel to user space *)

Section access.
Context {R : Type} (mips_interrupt : Z -> M (cpu R) unit) (mips_syscall : trapframe -> M (cpu R) trapframe).

(** The processor translates an address: the physical address, or the exception. *)
Definition mmu (l : list (Z * Z)) (va : Z) (write : bool) : Z + Z :=
  let miss := if write then EX_TLBS else EX_TLBL in
  match tlb_entry l va with
  | Some elo =>
      if Z.land elo TLBLO_VALID =? 0 then inl miss
      else if write && (Z.land elo TLBLO_DIRTY =? 0) then inl EX_MOD
      else inr (Z.land elo PAGE_FRAME + va mod PAGE_SIZE)
  | None => inl miss
  end.

(** The frame of an exception in kernel mode at the instruction [epc]. *)
Definition kernel_frame (va code epc : Z) : frame :=
  mk_frame va 0 (Z.shiftl code CCA_CODESHIFT) 0 (mk_tf 0 0 0 0 0 epc).

(** The instruction at [epc] touches [va]: the physical address it gets to. After a trap
    it is taken again, unless the trap sent the thread elsewhere. *)
Fixpoint touch (fuel : nat) (tf_addr epc va : Z) (write : bool) : E (cpu R) Z :=
  let! c := get in
  match mmu (tlb (cvm c)) va write with
  | inr pa => ok pa
  | inl code =>
      let! tf := mips_trap mips_interrupt mips_syscall tf_addr (kernel_frame va code epc) in
      if tf_epc (tf_regs tf) =? epc then
        match fuel with O => out_of_fuel | S fuel => touch fuel tf_addr epc va write end
      else fail EFAULT
  end.

Definition user_load (tf_addr epc va : Z) : E (cpu R) Z :=
  try! pa := touch 1 tf_addr epc va false in
  let! c := get in
  match vmem (cvm c) !! (pa + MIPS_KSEG0) with Some b => ok b | None => panic end.

Definition user_store (tf_addr epc va b : Z) : E (cpu R) unit :=
  try! pa := touch 1 tf_addr epc va true in
  let! c := get in
  let m := vmem (cvm c) in
  match m !! (pa + MIPS_KSEG0) with
  | Some _ => do! put (set_cvm (set_vmem (<[pa + MIPS_KSEG0 := u8 b]> m) (cvm c)) c) in ok tt
  | None => panic
  end.

(** A thread on its stack, in a copy that [copyfail] at [f] ends. *)
Record in_copy (c : cpu R) (tf_addr f : Z) : Prop := {
  ic_thread : exists stack, curthread c = Some (mk_kthread (Some stack) (Some f)) /\
    stack < tf_addr /\ tf_addr < u32 (stack + STACK_SIZE);
  ic_kstack : Z.land (u32 (curkstack c - 1)) 0xffffe000 = Z.land tf_addr 0xffffe000;
}.

Lemma in_copy_vm c tf_addr f v : in_copy c tf_addr f -> in_copy (set_cvm v c) tf_addr f.
Proof. by intros []. Qed.

Lemma trap_done_run (c : cpu R) s tf_addr tf :
  Z.land (u32 (curkstack c - 1)) 0xffffe000 = Z.land tf_addr 0xffffe000 ->
  trap_done s tf_addr tf c = Done tf (set_cvm (set_vspl s (cvm c)) c).
Proof. intros Hk. unfold trap_done, check_kstack. simpl_m. rewrite (proj2 (Z.eqb_eq _ _) Hk). by destruct c as [[] ? ? ?]. Qed.

(** A TLB miss in such a copy: the translation is loaded, or the copy ends. *)
Lemma mips_trap_miss c tf_addr f epc p a va (write : bool) :
  in_copy c tf_addr f -> t_vmspace (cvm c) = Some p -> spaces (cvm c) !! p = Some a -> as_ready a ->
  lenZ (tlb (cvm c)) = NUM_TLB -> is_u32 va ->
  let tf := kernel_frame va (if write then EX_TLBS else EX_TLBL) epc in
  mips_trap mips_interrupt mips_syscall tf_addr tf c =
    match translate a (page_of va), free_slot (tlb (cvm c)) with
    | Some pa, Some i => Done tf (set_cvm (set_tlb (setZ (tlb (cvm c)) i (page_of va, entry_lo pa)) (cvm c)) c)
    | _, _ => Done (set_epc f tf) c
    end.
Proof.
  intros [(stack & Hth & Hs1 & Hs2) Hk] Hp Ha Hr Hl Hva tf. unfold mips_trap, set_curspl, on_vm.
  pose proof (vm_fault_run (cvm c) p a (if write then VM_FAULT_WRITE else VM_FAULT_READ) va Hp Ha Hr Hl Hva
    ltac:(destruct write; auto)) as Hrun.
  assert (set_cvm (set_vspl (vspl (cvm c)) (cvm (set_cvm (set_vspl SPL_HIGH (cvm c)) c))) (set_cvm (set_vspl SPL_HIGH (cvm c)) c) = c) as Hc
    by (by destruct c as [[] ? ? ?]).
  set (ft := if write then VM_FAULT_WRITE else VM_FAULT_READ) in *.
  assert ((let! r := zoom cvm set_cvm (vm_fault ft va) in
    match r with inr _ => trap_done (vspl (cvm c)) tf_addr tf | inl _ => fatal_fault (vspl (cvm c)) tf_addr (if write then EX_TLBS else EX_TLBL) tf end) c =
    match translate a (page_of va), free_slot (tlb (cvm c)) with
    | Some pa, Some i => Done tf (set_cvm (set_tlb (setZ (tlb (cvm c)) i (page_of va, entry_lo pa)) (cvm c)) c)
    | _, _ => Done (set_epc f tf) c
    end) as Hmain.
  { assert (fatal_fault (vspl (cvm c)) tf_addr (if write then EX_TLBS else EX_TLBL) tf c = Done (set_epc f tf) c) as Hff.
    { unfold fatal_fault. simpl_m. rewrite Hth. simpl. rewrite trap_done_run by done. by destruct c as [[] ? ? ?]. }
    assert (forall l, trap_done (vspl (cvm c)) tf_addr tf (set_cvm (set_tlb l (cvm c)) c) = Done tf (set_cvm (set_tlb l (cvm c)) c)) as Hdone.
    { intros l. rewrite trap_done_run by done. by destruct c as [[] ? ? ?]. }
    assert (set_cvm (cvm c) c = c) as Hid by (by destruct c).
    unfold bind, zoom. rewrite Hrun. destruct (translate a (page_of va)), (free_slot (tlb (cvm c)));
      cbv beta iota; first [apply Hdone | rewrite Hid; exact Hff]. }
  simpl_m. rewrite Hth. simpl. rewrite (proj2 (Z.ltb_lt _ _) Hs1), (proj2 (Z.ltb_lt _ _) Hs2). simpl.
  unfold ft in *. destruct write; simpl in *; (etrans; [|exact Hmain]); by rewrite Hc.
Qed.

Lemma mmu_hit a l va elo write : as_ready a -> tlb_sound a l -> 0 <= va < USERTOP -> tlb_entry l va = Some elo ->
  exists pa, mmu l va write = inr pa /\ translate a va = Some pa.
Proof.
  intros Hr Hs Hva He. destruct (tlb_entry_sound _ _ _ _ Hr Hs Hva He) as (pa & Ht & ->).
  exists (pa + va mod PAGE_SIZE). destruct (translate_range _ _ _ Hr Ht) as (Hpa & _ & Hm).
  destruct (page_of_facts va) as (_ & _ & Hpm & _); [lia|]. unfold mmu. rewrite He.
  rewrite (proj2 (Z.eqb_neq _ _) (entry_lo_valid pa)), (proj2 (Z.eqb_neq _ _) (entry_lo_dirty pa)), andb_false_r.
  rewrite entry_lo_page by (auto || (unfold is_u32, PAGE_SIZE; lia)). split; [done|]. rewrite translate_page, Ht by (done || lia). done.
Qed.

(** The translation of the page is in the TLB, or there is room for it. *)
Definition tlb_room (a : addrspace) (l : list (Z * Z)) (va : Z) : Prop :=
  is_Some (tlb_entry l va) \/ is_Some (free_slot l) \/ translate a va = None.

Lemma touch_run c tf_addr f epc p a va write :
  in_copy c tf_addr f -> f <> epc -> t_vmspace (cvm c) = Some p -> spaces (cvm c) !! p = Some a -> as_ready a ->
  tlb_sound a (tlb (cvm c)) -> 0 <= va < USERTOP -> tlb_room a (tlb (cvm c)) va ->
  exists l, tlb_sound a l /\
    touch 1 tf_addr epc va write c =
      Done (match translate a va with Some pa => inr pa | None => inl EFAULT end) (set_cvm (set_tlb l (cvm c)) c).
Proof.
  intros Hic Hf Hp Ha Hr Hs Hva Hroom. assert (set_cvm (set_tlb (tlb (cvm c)) (cvm c)) c = c) as Hid by (by destruct c as [[] ? ? ?]).
  pose proof (translate_page a va Hr ltac:(lia)) as Htp.
  destruct (tlb_entry (tlb (cvm c)) va) as [elo|] eqn:He.
  - exists (tlb (cvm c)). split; [done|]. rewrite Hid. destruct (mmu_hit _ _ _ _ write Hr Hs Hva He) as (pa & Hm & Ht).
    cbn [touch]. simpl_m. by rewrite Hm, Ht.
  - assert (mmu (tlb (cvm c)) va write = inl (if write then EX_TLBS else EX_TLBL)) as Hm by (unfold mmu; by rewrite He).
    pose proof (mips_trap_miss c tf_addr f epc p a va write Hic Hp Ha Hr (ts_len _ _ Hs)
      ltac:(unfold is_u32, USERTOP, MIPS_KSEG0 in *; lia)) as Htrap. cbv zeta in Htrap.
    cbn [touch]. unfold get. erewrite bind_done; [|reflexivity]. rewrite Hm. unfold bind at 1. rewrite Htrap.
    destruct (translate a (page_of va)) as [pa|] eqn:Ht.
    + simpl in Htp. destruct (free_slot (tlb (cvm c))) as [i|] eqn:Hfs.
      2: { exfalso. destruct Hroom as [[? ?]|[[? ?]|?]]; congruence. }
      pose proof (tlb_sound_fill _ _ _ _ _ Hr Hs Hva Ht He Hfs) as Hs'. eexists. split; [exact Hs'|].
      simpl. rewrite Z.eqb_refl. erewrite bind_done; [|reflexivity]. simpl.
      destruct (tlb_entry (setZ (tlb (cvm c)) i (page_of va, entry_lo pa)) va) as [elo|] eqn:He'.
      * destruct (mmu_hit _ _ _ _ write Hr Hs' Hva He') as (pa' & -> & Ht'). rewrite Ht'. done.
      * exfalso. destruct (free_slot_first _ _ Hfs) as [_ Hi].
        eapply (tlb_entry_none _ _ i _ He'); [by apply nthZ_setZ_eq|done].
    + simpl in Htp. exists (tlb (cvm c)). split; [done|]. rewrite Hid, Htp. simpl.
      rewrite (proj2 (Z.eqb_neq _ _) Hf). done.
Qed.

(** ** The map of bytes the copies run on *)

(** [um] is user memory: what the current space has at each user address. *)
Record sees (c : cpu R) (live owner : gmap Z Z) (p : Z) (a : addrspace) (um : mem) : Prop := {
  se_ok : vm_ok (cvm c) live owner;
  se_cur : t_vmspace (cvm c) = Some p;
  se_space : spaces (cvm c) !! p = Some a;
  se_ready : as_ready a;
  se_tlb : tlb_sound a (tlb (cvm c));
  se_bytes va : 0 <= va < USERTOP -> um !! va = user_byte (cvm c) p va;
}.

Lemma ready_has_pages a : as_ready a -> has_pages a.
Proof. intros ([_ ? _] & [_ ? _] & [_ ? _]). unfold has_pages. tauto. Qed.

(** A user address that translates has a byte, and no other has the same. *)
Lemma translate_mapped v live owner p a va pa : vm_ok v live owner -> spaces v !! p = Some a ->
  translate a va = Some pa -> is_Some (vmem v !! (pa + MIPS_KSEG0)).
Proof.
  intros Hv Ha (b & n & Hb & Hr)%translate_run. destruct (vo_runs _ _ _ Hv _ _ _ _ Ha Hb) as (_ & Hl & Htop).
  destruct (heap_has_positive _ _ _ _ (vo_heap _ _ _ Hv) Hl) as (_ & Hpos & _).
  replace (pa + MIPS_KSEG0) with (MIPS_KSEG0 + pa) by lia. apply (vo_mem _ _ _ Hv). lia.
Qed.

Lemma translate_inj v live owner p a va vb pa : vm_ok v live owner -> spaces v !! p = Some a -> as_ready a ->
  translate a va = Some pa -> translate a vb = Some pa -> va = vb.
Proof.
  intros Hv Ha Hr Hta Htb. destruct (has_pages_in _ (ready_has_pages _ Hr)) as (I1 & I2 & I3).
  assert (NoDup (as_runs a).*1) as Hnd by (by eapply NoDup_cons, vo_apart).
  rewrite (has_pages_runs _ (ready_has_pages _ Hr)) in Hnd. simpl in Hnd.
  rewrite !NoDup_cons, !not_elem_of_cons in Hnd. destruct Hnd as ((D12 & D13 & _) & (D23 & _) & _).
  pose proof (own_runs_apart _ _ _ _ _ _ _ _ _ Hv Ha I1 I2 ltac:(lia)) as A12.
  pose proof (own_runs_apart _ _ _ _ _ _ _ _ _ Hv Ha I1 I3 ltac:(lia)) as A13.
  pose proof (own_runs_apart _ _ _ _ _ _ _ _ _ Hv Ha I2 I3 ltac:(lia)) as A23.
  unfold clear_of in *. apply translate_cases in Hta as (x & y & n & [_ Hi]%in_region_iff & -> & Hc).
  apply translate_cases in Htb as (x' & y' & n' & [_ Hi']%in_region_iff & He & Hc').
  destruct Hc as [[= -> -> ->]|[[= -> -> ->]|[= -> -> ->]]], Hc' as [[= -> -> ->]|[[= -> -> ->]|[= -> -> ->]]]; lia.
Qed.

Lemma sees_tlb c live owner p a um l : sees c live owner p a um -> tlb_sound a l ->
  sees (set_cvm (set_tlb l (cvm c)) c) live owner p a um.
Proof. intros [Hv Hc Ha Hr Ht Hb] Hl. split; simpl; try done. destruct Hv. by split. Qed.

Lemma map_load8_run um va : load8 va um = Done (match um !! va with Some b => inr b | None => inl EFAULT end) um.
Proof. unfold load8. simpl_m. by destruct (um !! va). Qed.

Lemma map_store8_run um va b : store8 va b um =
  match um !! va with Some _ => Done (inr tt) (<[va := u8 b]> um) | None => Done (inl EFAULT) um end.
Proof. unfold store8. simpl_m. by destruct (um !! va). Qed.

(** What a user address of a space the copy sees holds. *)
Lemma sees_byte c live owner p a um va : sees c live owner p a um -> 0 <= va < USERTOP ->
  um !! va = (pa ← translate a va; vmem (cvm c) !! (pa + MIPS_KSEG0)).
Proof. intros Hs Hva. rewrite (se_bytes _ _ _ _ _ _ Hs) by done. unfold user_byte, user_paddr. by rewrite (se_space _ _ _ _ _ _ Hs). Qed.

Lemma sees_store c live owner p a um va pa b : sees c live owner p a um -> 0 <= va < USERTOP -> translate a va = Some pa ->
  sees (set_cvm (set_vmem (<[pa + MIPS_KSEG0 := u8 b]> (vmem (cvm c))) (cvm c)) c) live owner p a (<[va := u8 b]> um).
Proof.
  intros Hs Hva Ht. pose proof Hs as [Hv Hc Ha Hr Htl Hb].
  destruct (translate_mapped _ _ _ _ _ _ _ Hv Ha Ht) as [x Hx]. split; simpl; try done.
  - destruct Hv as [Hh Hm Hby Hst Hru Hap Ho]. split; simpl; try done.
    + intros i Hi. rewrite lookup_insert_case. case_decide; [by eexists|by apply Hm].
    + intros y z. rewrite lookup_insert_case. case_decide; [intros [= <-]; apply Z.mod_pos_bound; lia|by apply Hby].
  - intros vb Hvb. unfold user_byte, user_paddr. simpl. rewrite Ha. simpl. rewrite lookup_insert_case.
    case_decide as Heq; [subst vb; rewrite Ht; simpl; by rewrite lookup_insert_eq|].
    rewrite (sees_byte _ _ _ _ _ _ _ Hs Hvb). destruct (translate a vb) as [pb|] eqn:Htb; simpl; [|done].
    rewrite lookup_insert_ne; [done|]. intros He. apply Heq.
    assert (pa = pb) as <- by lia. by eapply translate_inj.
Qed.

(** A byte of user space read or written through the TLB, and the same on the map. *)
Lemma user_access_ok c live owner p a um tf_addr f epc va :
  sees c live owner p a um -> in_copy c tf_addr f -> f <> epc -> 0 <= va < USERTOP ->
  tlb_room a (tlb (cvm c)) va ->
  (exists r c', load8 va um = Done r um /\ user_load tf_addr epc va c = Done r c' /\
     sees c' live owner p a um /\ in_copy c' tf_addr f) /\
  (forall b, exists r um' c', store8 va b um = Done r um' /\ user_store tf_addr epc va b c = Done r c' /\
     sees c' live owner p a um' /\ in_copy c' tf_addr f).
Proof.
  intros Hs Hic Hf Hva Hroom. pose proof Hs as [Hv Hc Ha Hr Ht Hb].
  pose proof (sees_byte _ _ _ _ _ _ _ Hs Hva) as Hum.
  assert (forall write, exists l, tlb_sound a l /\ touch 1 tf_addr epc va write c =
    Done (match translate a va with Some pa => inr pa | None => inl EFAULT end) (set_cvm (set_tlb l (cvm c)) c)) as Htouch
    by (intros write; by eapply touch_run).
  assert (forall l, tlb_sound a l -> sees (set_cvm (set_tlb l (cvm c)) c) live owner p a um) as Hsees by (intros; by apply sees_tlb).
  split.
  - destruct (Htouch false) as (l & Hl & Hrun). rewrite map_load8_run, Hum. unfold user_load, tbind, bind. rewrite Hrun.
    destruct (translate a va) as [pa|] eqn:Hta; simpl.
    + destruct (translate_mapped _ _ _ _ _ _ _ Hv Ha Hta) as [x Hx]. simpl_m. rewrite Hx.
      eexists _, _. split; [done|]. split; [done|]. split; [by apply Hsees|by apply in_copy_vm].
    + eexists _, _. split; [done|]. split; [done|]. split; [by apply Hsees|by apply in_copy_vm].
  - intros b. destruct (Htouch true) as (l & Hl & Hrun). rewrite map_store8_run, Hum. unfold user_store, tbind, bind. rewrite Hrun.
    destruct (translate a va) as [pa|] eqn:Hta; simpl.
    + destruct (translate_mapped _ _ _ _ _ _ _ Hv Ha Hta) as [x Hx]. simpl_m. rewrite Hx.
      eexists _, _, _. split; [done|]. split; [done|]. split; [|by apply in_copy_vm, in_copy_vm].
      exact (sees_store _ _ _ _ _ _ _ _ b (Hsees l Hl) Hva Hta).
    + eexists _, _, _. split; [done|]. split; [done|]. split; [by apply Hsees|by apply in_copy_vm].
Qed.
End access.

(** ** Properties *)

(** C9. The memory that [CopyInOut] copies on is what the machine provides: if the map
    [um] holds the bytes that the current space has at its user addresses, then loading
    or storing a byte through the TLB - missing, trapping to [mips_trap], loading the
    translation in [vm_fault] and trying again - gives the same result as on the map, a
    fault included, and leaves machine and map in agreement, as long as the TLB has the
    page or an invalid entry. *)
Theorem user_access_refines {R : Type} (mips_interrupt : Z -> M (cpu R) unit) (mips_syscall : trapframe -> M (cpu R) trapframe)
    c live owner p a um tf_addr f epc va :
  sees c live owner p a um -> in_copy c tf_addr f -> f <> epc -> 0 <= va < USERTOP ->
  tlb_room a (tlb (cvm c)) va ->
  (exists r c', load8 va um = Done r um /\ user_load mips_interrupt mips_syscall tf_addr epc va c = Done r c' /\
     sees c' live owner p a um /\ in_copy c' tf_addr f) /\
  (forall b, exists r um' c', store8 va b um = Done r um' /\
     user_store mips_interrupt mips_syscall tf_addr epc va b c = Done r c' /\
     sees c' live owner p a um' /\ in_copy c' tf_addr f).
Proof. apply user_access_ok. Qed.

(** The map that a space stands for. *)
Lemma user_map_exists v p : exists um : mem, forall va, 0 <= va < USERTOP -> um !! va = user_byte v p va.
Proof.
  assert (forall n : nat, exists um : mem, forall va, um !! va =
    if bool_decide (0 <= va < Z.of_nat n) then user_byte v p va else None) as H.
  { induction n as [|n [um Hum]].
    - exists ∅. intros va. by rewrite bool_decide_false by lia.
    - exists (match user_byte v p (Z.of_nat n) with Some b => <[Z.of_nat n := b]> um | None => um end). intros va.
      destruct (decide (va = Z.of_nat n)) as [->|Hne].
      + rewrite bool_decide_true by lia. destruct (user_byte v p (Z.of_nat n)); [by rewrite lookup_insert_eq|].
        by rewrite Hum, bool_decide_false by lia.
      + rewrite (bool_decide_ext _ (0 <= va < Z.of_nat n)) by lia.
        destruct (user_byte v p (Z.of_nat n)); rewrite <- Hum; [by rewrite lookup_insert_ne|done]. }
  destruct (H (Z.to_nat USERTOP)) as [um Hum]. exists um. intros va Hva. rewrite Hum, bool_decide_true; [done|].
  rewrite Z2Nat.id by (unfold USERTOP, MIPS_KSEG0; lia). done.
Qed.

(** The space of [AddrSpaceSpec], after [as_activate], in a copy: a byte of the stack. *)
Lemma user_access_refines_witness :
  exists v p um c' b, make_space 0x400010 100 0x10000000 5000 small_vm = Done (inr p) v /\
    load8 0x7fffff00 um = Done (inr b) um /\
    user_load (R := unit) (fun _ => ret tt) ret 0x80011000 0x80001000 0x7fffff00
      (mk_cpu (set_t_vmspace (Some p) (set_tlb flushed v)) (Some (mk_kthread (Some 0x80010800) (Some 0x80001234))) 0x80012000 tt)
      = Done (inr b) c'.
Proof.
  destruct small_space as (p & v & live & owner & a & Hrun & Hv & Ha & Hr & Hc & Ht).
  set (v1 := set_t_vmspace (Some p) (set_tlb flushed v)).
  set (c := mk_cpu (R := unit) v1 (Some (mk_kthread (Some 0x80010800) (Some 0x80001234))) 0x80012000 tt).
  destruct (user_map_exists v1 p) as [um Hum].
  pose proof (vm_ok_cur _ _ _ (Some p) (vm_ok_tlb _ _ _ flushed Hv)) as Hv1.
  assert (sees c live owner p a um) as Hs
    by (split; [exact Hv1|reflexivity|exact Ha|exact Hr|apply flushed_sound|exact Hum]).
  assert (in_copy c 0x80011000 0x80001234) as Hic.
  { split; [|reflexivity]. exists 0x80010800. split; [reflexivity|]. split; reflexivity. }
  assert (STACKBASE <= 0x7fffff00 < Ram.USERTOP) as Hst
    by (clear; unfold STACKBASE, USERSTACK, Ram.USERTOP, MIPS_KSEG0, DUMBVM_STACKPAGES, PAGE_SIZE; lia).
  destruct (user_access_refines (R := unit) (fun _ => ret tt) ret c live owner p a um 0x80011000 0x80001234 0x80001000 0x7fffff00
    Hs Hic ltac:(discriminate) ltac:(clear; unfold Ram.USERTOP, MIPS_KSEG0; lia) ltac:(right; left; eexists; reflexivity))
    as [(r & c' & Hload & Huser & _) _].
  destruct (stack_translates a 0x7fffff00 Hr Hst) as [pa Hpa].
  destruct (translate_mapped _ _ _ _ _ _ _ Hv1 Ha Hpa) as [b Hb].
  assert (um !! 0x7fffff00 = Some b) as Hub.
  { rewrite (sees_byte _ _ _ _ _ _ _ Hs) by (clear; unfold Ram.USERTOP, MIPS_KSEG0; lia). rewrite Hpa. exact Hb. }
  rewrite map_load8_run, Hub in Hload. injection Hload as <-.
  exists v, p, um, c', b. split; [exact Hrun|]. split; [rewrite map_load8_run, Hub; reflexivity|exact Huser].
Defined.
