(* ===== verification/LoadElf.v ===== *)
(** * Running a program (kern/userprog/loadelf.c, kern/include/elf.h, and assignment 2's
    runprogram.c).

    [load_elf] reads the file through [VOP_READ] and fills the address space of dumbvm.
    While a request to user space runs, its memory is the map of the bytes that the
    current space has at its user addresses ([TrapSpec] shows that this is what accesses
    find), and the pages get the bytes back afterwards. The first touch of a space that
    is not set up stops the machine in [vm_fault]; here the request does. *)

From stdpp Require Import base numbers list gmap strings.
From Stdlib Require Import ZArith Lia.
From S2P Require Import Prelude Mem CopyInOut Uio Array Vnode Vfs VfsList VfsPath SfsDir FileTable Ram AddrSpace AddrSpaceSpec Trap.

(** ** elf.h *)

Definition EI_MAG0 : Z := 0.
Definition EI_MAG1 : Z := 1.
Definition EI_MAG2 : Z := 2.
Definition EI_MAG3 : Z := 3.
Definition EI_CLASS : Z := 4.
Definition EI_DATA : Z := 5.
Definition EI_VERSION : Z := 6.
Definition ELFMAG0 : Z := 0x7f.
Definition ELFMAG1 : Z := 69.
Definition ELFMAG2 : Z := 76.
Definition ELFMAG3 : Z := 70.
Definition ELFCLASS32 : Z := 1.
Definition ELFDATA2MSB : Z := 2.
Definition EV_CURRENT : Z := 1.
Definition ET_EXEC : Z := 2.
Definition EM_MACHINE : Z := 8.
Definition PT_NULL : Z := 0.
Definition PT_LOAD : Z := 1.
Definition PT_PHDR : Z := 6.
Definition PT_MIPS_REGINFO : Z := 0x70000000.
Definition PF_R : Z := 4.
Definition PF_W : Z := 2.
Definition PF_X : Z := 1.

(** The fields of [Elf32_Ehdr] and [Elf32_Phdr] that are used. *)
Record Elf_Ehdr : Type := mk_ehdr {
  e_ident : list Z; e_type : Z; e_machine : Z; e_version : Z; e_entry : Z;
  e_phoff : Z; e_phentsize : Z; e_phnum : Z;
}.
Record Elf_Phdr : Type := mk_phdr {
  p_type : Z; p_offset : Z; p_vaddr : Z; p_filesz : Z; p_memsz : Z; p_flags : Z;
}.

Definition sizeof_Ehdr : Z := 52.
Definition sizeof_Phdr : Z := 32.

(** The fields in the bytes of the structure. *)
Definition byte_in (bs : list Z) (i : Z) : Z := default 0 (nthZ bs i).
Definition half_in (bs : list Z) (i : Z) : Z := byte_in bs i * 256 + byte_in bs (i + 1).
Definition word_in (bs : list Z) (i : Z) : Z := half_in bs i * 65536 + half_in bs (i + 2).

Definition dec_ehdr (bs : list Z) : Elf_Ehdr :=
  mk_ehdr (slice bs 0 16) (half_in bs 16) (half_in bs 18) (word_in bs 20) (word_in bs 24)
    (word_in bs 28) (half_in bs 42) (half_in bs 44).
Definition dec_phdr (bs : list Z) : Elf_Phdr :=
  mk_phdr (word_in bs 0) (word_in bs 4) (word_in bs 8) (word_in bs 16) (word_in bs 20) (word_in bs 24).

(** ** User memory while a request runs *)

Definition user_pages (a : addrspace) : list Z :=
  seqZ (as_vbase1 a) (as_npages1 a * PAGE_SIZE) ++ seqZ (as_vbase2 a) (as_npages2 a * PAGE_SIZE) ++
  seqZ STACKBASE (DUMBVM_STACKPAGES * PAGE_SIZE).

Definition user_view (v : vmstate) (a : addrspace) : mem :=
  list_to_map (omap (fun va =>
    b ← (pa ← translate a va; vmem v !! (pa + MIPS_KSEG0)); Some (va, b)) (user_pages a)).

Definition put_byte (a : addrspace) (um : mem) (m : mem) (va : Z) : mem :=
  match translate a va, um !! va with
  | Some pa, Some b => <[pa + MIPS_KSEG0 := b]> m
  | _, _ => m
  end.

Definition put_view (a : addrspace) (um : mem) (v : vmstate) : vmstate :=
  set_vmem (foldl (put_byte a um) (vmem v) (user_pages a)) v.

Section loadelf.
Context {W V : Type} `{FileIO W V}.
Notation lstate := (vmstate * W)%type.

(** [curthread->t_vmspace], not NULL. *)
Definition cur_space : M lstate Z := let! s := get in of_option (t_vmspace (fst s)).
Definition on_as {A} (m : M vmstate A) : M lstate A := zoom fst (fun v s => (v, snd s)) m.

(** [VOP_READ] into an object of the kernel: its bytes, and what is left to read. *)
Definition read_object (v : V) (len pos : Z) : E lstate (list Z * Z) :=
  fun s =>
    match VOP_READ v (snd s, mk_uenv (mk_kuio (replicate (Z.to_nat len) 0) len pos UIO_READ) ∅ (t_vmspace (fst s))) with
    | Done (inl e) (w, _) => Done (inl e) (fst s, w)
    | Done (inr _) (w, e) =>
        match uio_iovec (xuio e) with
        | un_kbase obj _ => Done (inr (obj, uio_resid (xuio e))) (fst s, w)
        | un_ubase _ => Undef
        end
    | Panic => Panic
    | Undef => Undef
    | OutOfFuel => OutOfFuel
    end.

(** A request [u] to the memory of the current space. *)
Definition on_user {A} (u : uio) (m : M (W * uenv) A) : M lstate A :=
  let! p := cur_space in
  let! a := on_as (get_space p) in
  do! on_as (assert_set_up a) in
  fun s =>
    match m (snd s, mk_uenv u (user_view (fst s) a) (t_vmspace (fst s))) with
    | Done r (w, e) => Done r (put_view a (umem e) (fst s), w)
    | Panic => Panic
    | Undef => Undef
    | OutOfFuel => OutOfFuel
    end.

(** Reading the file part of a segment and clearing the rest. *)
Definition fill_segment (v : V) (memsize filesize : Z) : E (W * uenv) unit :=
  try! _ := VOP_READ v in
  let! (w, e) := get in
  if negb (uio_resid (xuio e) =? 0) then fail ENOEXEC
  else
    let fillamt := u32 (memsize - filesize) in
    if 0 <? fillamt then
      do! put (w, set_uio e (set_resid (xuio e) (u32 (uio_resid (xuio e) + fillamt)))) in
      zoom snd (fun e s => (fst s, e)) (uiomovezeros fillamt)
    else ok tt.

Definition load_segment (v : V) (offset vaddr memsize filesize is_executable : Z) : E lstate unit :=
  let filesize := if memsize <? filesize then memsize else filesize in
  let! s := get in
  let u := Uio.mk_uio (un_ubase vaddr) memsize offset filesize
             (if is_executable =? 0 then UIO_USERSPACE else UIO_USERISPACE) UIO_READ (t_vmspace (fst s)) in
  if memsize =? 0 then
    (* nothing of the space is touched *)
    fun s =>
      match fill_segment v memsize filesize (snd s, mk_uenv u ∅ (t_vmspace (fst s))) with
      | Done r (w, _) => Done r (fst s, w)
      | Panic => Panic
      | Undef => Undef
      | OutOfFuel => OutOfFuel
      end
  else on_user u (fill_segment v memsize filesize).

(** The header is that of a 32-bit ELF-version-1 executable for our processor. *)
Definition ehdr_ok (eh : Elf_Ehdr) : bool :=
  let id := byte_in (e_ident eh) in
  negb (negb (id EI_MAG0 =? ELFMAG0) || negb (id EI_MAG1 =? ELFMAG1) || negb (id EI_MAG2 =? ELFMAG2) ||
        negb (id EI_MAG3 =? ELFMAG3) || negb (id EI_CLASS =? ELFCLASS32) || negb (id EI_DATA =? ELFDATA2MSB) ||
        negb (id EI_VERSION =? EV_CURRENT) || negb (e_version eh =? EV_CURRENT) ||
        negb (e_type eh =? ET_EXEC) || negb (e_machine eh =? EM_MACHINE)).

(** [off_t offset = eh.e_phoff + i*eh.e_phentsize]: the product is an [int]. *)
Definition phdr_offset (eh : Elf_Ehdr) (i : Z) : M lstate Z :=
  let! d := int_of (i * e_phentsize eh) in
  ret (s32 (u32 (e_phoff eh + d))).

(** The head of both loops: reads the [i]th program header; [None] skips it. *)
Definition read_phdr (v : V) (eh : Elf_Ehdr) (i : Z) : E lstate (option Elf_Phdr) :=
  let! offset := phdr_offset eh i in
  try! (bs, resid) := read_object v sizeof_Phdr offset in
  if negb (resid =? 0) then fail ENOEXEC
  else
    let ph := dec_phdr bs in
    if (p_type ph =? PT_NULL) || (p_type ph =? PT_PHDR) || (p_type ph =? PT_MIPS_REGINFO) then ok None
    else if p_type ph =? PT_LOAD then ok (Some ph)
    else fail ENOEXEC.

(** The bodies of the two loops. *)
Definition define_phdr (v : V) (eh : Elf_Ehdr) (i : Z) : E lstate unit :=
  try! r := read_phdr v eh i in
  match r with
  | None => ok tt
  | Some ph =>
      let! p := cur_space in
      on_as (as_define_region p (p_vaddr ph) (p_memsz ph) (Z.land (p_flags ph) PF_R)
               (Z.land (p_flags ph) PF_W) (Z.land (p_flags ph) PF_X))
  end.
Definition load_phdr (v : V) (eh : Elf_Ehdr) (i : Z) : E lstate unit :=
  try! r := read_phdr v eh i in
  match r with
  | None => ok tt
  | Some ph =>
      load_segment v (s32 (p_offset ph)) (p_vaddr ph) (p_memsz ph) (p_filesz ph) (Z.land (p_flags ph) PF_X)
  end.

(** Returns [*entrypoint]. *)
Definition load_elf (v : V) : E lstate Z :=
  try! (bs, resid) := read_object v sizeof_Ehdr 0 in
  if negb (resid =? 0) then fail ENOEXEC
  else
    let eh := dec_ehdr bs in
    if negb (ehdr_ok eh) then fail ENOEXEC
    else
      try! _ := for_ (Z.to_nat (e_phnum eh)) 0 (define_phdr v eh) in
      let! p := cur_space in
      try! _ := on_as (as_prepare_load p) in
      try! _ := for_ (Z.to_nat (e_phnum eh)) 0 (load_phdr v eh) in
      let! p := cur_space in
      try! _ := on_as (as_complete_load p) in
      ok (e_entry eh).
End loadelf.

(** ** runprogram.c *)

Section runprogram.
Context {W V F : Type} `{FileLayer W V F} `{FileIO W V} `{EqDecision V} `{EqDecision F}.

(** The file systems, and assignment 2's global table of open files. *)
Definition rest : Type := vfs W V F * list (option V).
Notation kernel := (cpu rest).

Definition on_files {A} (m : M (vfs W V F) A) : M kernel A :=
  zoom (fun c => fst (crest c)) (fun s c => mk_cpu (cvm c) (Trap.curthread c) (curkstack c) (s, snd (crest c))) m.
Definition on_load {A} (m : M (vmstate * W) A) : M kernel A :=
  zoom (fun c => (cvm c, world (fst (crest c))))
       (fun s c => mk_cpu (fst s) (Trap.curthread c) (curkstack c) (set_world (snd s) (fst (crest c)), snd (crest c))) m.
Definition set_filetable (fd : Z) (v : option V) : M kernel unit :=
  let! c := get in
  put (mk_cpu (cvm c) (Trap.curthread c) (curkstack c) (fst (crest c), setZ (snd (crest c)) fd v)).
Definition get_filetable (fd : Z) : M kernel (option V) :=
  let! c := get in of_option (nthZ (snd (crest c)) fd).

(** Returns an error, or the frame of the program that now runs; [tf_addr] is where on
    the kernel stack [md_usermode] has its frame. *)
Definition runprogram (tf_addr : Z) (progname : list Z) : E kernel frame :=
  try! v := on_files (vfs_open progname O_RDONLY) in
  let! c := get in
  do! assert_ (bool_decide (t_vmspace (cvm c) = None)) in
  let! a := on_vm as_create in
  do! on_vm (let! v := get in put (set_t_vmspace a v)) in
  match a with
  | None =>
      do! on_files (vfs_close v) in
      fail ENOMEM
  | Some p =>
      do! on_vm (as_activate (Some p)) in
      let! r := on_load (load_elf v) in
      match r with
      | inl e => do! on_files (vfs_close v) in fail e
      | inr entrypoint =>
          do! on_files (vfs_close v) in
          try! stackptr := on_vm (as_define_stack p) in
          let! err := on_files (vfs_open (str "con:") O_WRONLY) in
          do! match err with inr con => set_filetable 1 (Some con) | inl _ => ret tt end in
          let! con := get_filetable 1 in
          do! set_filetable 2 con in
          let! tf := md_usermode tf_addr 0 0 stackptr entrypoint in
          ok tf
      end
  end.
End runprogram.
