(* ===== verification/LoadElfSpec.v ===== *)
(** * A program that is loaded is the image its file describes. *)

From stdpp Require Import base numbers list gmap strings.
From Stdlib Require Import ZArith Lia.
From S2P Require Import Prelude Mem CopyInOut Uio FileTable Ram Kheap KheapSpec AddrSpace AddrSpaceSpec Trap TrapSpec LoadElf.

(** ** The map of user memory and the pages behind it *)

Lemma elem_of_user_pages a va pa : translate a va = Some pa -> va ∈ user_pages a.
Proof.
  intros (vb & pb & n & (_ & Hi)%in_region_iff & _ & Hc)%translate_cases. unfold user_pages.
  assert (va ∈ seqZ vb (n * PAGE_SIZE)) as Hin by (apply elem_of_seqZ; lia).
  rewrite !elem_of_app. destruct Hc as [[= -> -> ->]|[[= -> -> ->]|[= -> -> ->]]]; auto.
Qed.

Lemma list_to_map_of (f : Z -> option Z) (l : list Z) x :
  (list_to_map (omap (fun va => b ← f va; Some (va, b)) l) : mem) !! x = (if decide (x ∈ l) then f x else None).
Proof.
  induction l as [|y l IH]; [done|]. cbn [omap list_omap].
  destruct (f y) as [b|] eqn:Hf; simpl; rewrite ?lookup_insert_case, IH; repeat case_decide;
    try congruence; subst; set_solver.
Qed.

Lemma user_view_lookup v a va : user_view v a !! va = (pa ← translate a va; vmem v !! (pa + MIPS_KSEG0)).
Proof.
  unfold user_view. rewrite list_to_map_of. case_decide as Hd; [done|].
  destruct (translate a va) as [pa|] eqn:Ht; [|done]. by apply elem_of_user_pages in Ht.
Qed.

Lemma user_view_byte v p a va : spaces v !! p = Some a -> user_view v a !! va = user_byte v p va.
Proof. intros Ha. rewrite user_view_lookup. unfold user_byte, user_paddr. by rewrite Ha. Qed.

(** Bytes go back to their places, and to no others. *)
Section put_back.
Context (a : addrspace) (um : mem).
Hypothesis Hinj : forall va vb pa, translate a va = Some pa -> translate a vb = Some pa -> va = vb.

Lemma put_bytes_other l : forall m x,
  (forall va pa, va ∈ l -> translate a va = Some pa -> is_Some (um !! va) -> x <> pa + MIPS_KSEG0) ->
  foldl (put_byte a um) m l !! x = m !! x.
Proof.
  induction l as [|y l IH]; intros m x Hx; [done|]. cbn [foldl]. rewrite IH by (intros; eapply Hx; eauto using list_elem_of_further).
  unfold put_byte. destruct (translate a y) as [pa|] eqn:Ht; [|done]. destruct (um !! y) as [b|] eqn:Hb; [|done].
  rewrite lookup_insert_ne; [done|]. apply not_eq_sym. eapply Hx; [by left|done|by eexists].
Qed.

Lemma put_bytes_at l va pa b : translate a va = Some pa -> um !! va = Some b -> va ∈ l ->
  forall m, foldl (put_byte a um) m l !! (pa + MIPS_KSEG0) = Some b.
Proof.
  intros Ht Hb. induction l as [|y l IH]; intros Hin m; [by apply elem_of_nil in Hin|]. cbn [foldl].
  destruct (decide (va ∈ l)) as [Hl|Hl]; [by apply IH|]. apply elem_of_cons in Hin as [->|]; [|done].
  rewrite put_bytes_other; [unfold put_byte; rewrite Ht, Hb; apply lookup_insert_eq|].
  intros vb pb Hvb Htb _ He. assert (pa = pb) as <- by lia. by rewrite (Hinj _ _ _ Ht Htb) in Hl.
Qed.
End put_back.

Lemma put_view_lookup v live owner p a um : vm_ok v live owner -> spaces v !! p = Some a -> as_ready a ->
  same_dom (user_view v a) um ->
  (forall va pa, translate a va = Some pa -> vmem (put_view a um v) !! (pa + MIPS_KSEG0) = um !! va) /\
  (forall x, (forall va pa, translate a va = Some pa -> x <> pa + MIPS_KSEG0) -> vmem (put_view a um v) !! x = vmem v !! x).
Proof.
  intros Hv Ha Hr Hdom. unfold put_view. cbn [vmem set_vmem].
  assert (forall va vb pa, translate a va = Some pa -> translate a vb = Some pa -> va = vb) as Hinj
    by (intros; by eapply translate_inj). split.
  - intros va pa Ht. destruct (translate_mapped _ _ _ _ _ _ _ Hv Ha Ht) as [b0 Hb0].
    assert (is_Some (um !! va)) as [b Hb].
    { apply Hdom. rewrite user_view_lookup, Ht. simpl. by eexists. }
    rewrite Hb. eapply put_bytes_at; eauto using elem_of_user_pages.
  - intros x Hx. apply put_bytes_other. intros va pa _ Ht _. by eapply Hx.
Qed.

Lemma put_view_ok v live owner p a um : vm_ok v live owner -> spaces v !! p = Some a -> as_ready a ->
  same_dom (user_view v a) um -> (forall x b, um !! x = Some b -> is_u8 b) ->
  vm_ok (put_view a um v) live owner /\ (forall va, user_byte (put_view a um v) p va = um !! va) /\
  forall q, q <> p -> forall va, user_byte (put_view a um v) q va = user_byte v q va.
Proof.
  intros Hv Ha Hr Hdom Hby. destruct (put_view_lookup _ _ _ _ _ _ Hv Ha Hr Hdom) as [Hat Hrest].
  assert (forall x, (exists va pa, translate a va = Some pa /\ x = pa + MIPS_KSEG0) \/
    (forall va pa, translate a va = Some pa -> x <> pa + MIPS_KSEG0)) as Hdec.
  { intros x. destruct (decide (Exists (fun va => translate a va = Some (x - MIPS_KSEG0)) (user_pages a))) as [He|He].
    - left. apply Exists_exists in He as (va & _ & Ht). exists va, (x - MIPS_KSEG0). split; [done|lia].
    - right. intros va pa Ht ->. apply He, Exists_exists. exists va. split; [by eapply elem_of_user_pages|].
      by replace (pa + MIPS_KSEG0 - MIPS_KSEG0) with pa by lia. }
  split; [|split].
  - pose proof Hv as [Hh Hm Hbm Hs Hru Hap Ho]. split; try done.
    + intros i Hi. destruct (Hdec (MIPS_KSEG0 + i)) as [(va & pa & Ht & ->)|Hn].
      * rewrite (Hat _ _ Ht). apply Hdom. rewrite user_view_lookup, Ht. simpl. by eapply translate_mapped.
      * rewrite Hrest by done. by apply Hm.
    + intros x b. destruct (Hdec x) as [(va & pa & Ht & ->)|Hn]; [rewrite (Hat _ _ Ht); apply Hby|rewrite Hrest by done; apply Hbm].
  - intros va. unfold user_byte, user_paddr. cbn [spaces put_view set_vmem]. rewrite Ha. simpl.
    destruct (translate a va) as [pa|] eqn:Ht; simpl; [by apply Hat|].
    destruct (um !! va) eqn:Hb; [|done]. assert (is_Some (user_view v a !! va)) as [b' Hb'] by (apply Hdom; by eexists).
    by rewrite user_view_lookup, Ht in Hb'.
  - intros q Hq va. unfold user_byte, user_paddr. cbn [spaces put_view set_vmem].
    destruct (spaces v !! q) as [c|] eqn:Hc; simpl; [|done]. destruct (translate c va) as [pc|] eqn:Ht; simpl; [|done].
    apply Hrest. intros vb pb Htb He. assert (pc = pb) as <- by lia.
    eapply (user_paddr_apart v live owner q p va vb pc pc); [done|done| | |done]; unfold user_paddr; [by rewrite Hc|by rewrite Ha].
Qed.

(** ** Zeros to user space *)

(** [um'] is [um] but for the [n] bytes from [addr], which are those of [g]. *)
Definition filled (um : mem) (addr n : Z) (g : Z -> option Z) (um' : mem) : Prop :=
  forall x, um' !! x = if bool_decide (addr <= x < addr + n) then g (x - addr) else um !! x.

Lemma filled_dom um addr n g um' : filled um addr n g um' -> mapped um addr n ->
  (forall i, 0 <= i < n -> is_Some (g i)) -> same_dom um um'.
Proof.
  intros Hf Hm Hg x. rewrite Hf. case_bool_decide as Hx; [|done].
  split; intros _; [|apply Hg; lia]. replace x with (addr + (x - addr)) by lia. apply Hm. lia.
Qed.

Lemma filled_user um addr n g um' : filled um addr n g um' -> user_mem um -> 0 <= addr -> addr + n <= CopyInOut.USERTOP ->
  (forall i b, 0 <= i < n -> g i = Some b -> is_u8 b) -> user_mem um'.
Proof.
  intros Hf Hu Ha Ht Hg x b. rewrite Hf. case_bool_decide as Hx; [|apply Hu].
  intros Hb. split; [lia|]. eapply Hg; [|done]. lia.
Qed.

Lemma uiomove_user ptr n buf e addr :
  uio_iovec (xuio e) = un_ubase addr -> uio_segflg (xuio e) <> UIO_SYSSPACE ->
  uio_space (xuio e) = curspace e -> uio_rw (xuio e) = UIO_READ -> can_move (xuio e) n -> 0 < n -> 0 <= ptr ->
  ptr + n <= lenZ buf -> bytes_ok buf -> user_mem (umem e) -> user_ok (umem e) addr n ->
  exists um', filled (umem e) addr n (fun i => nthZ buf (ptr + i)) um' /\ user_mem um' /\ same_dom (umem e) um' /\
    uiomove_on buf ptr n e = Done (inr tt, buf) (mk_uenv (advanced (xuio e) n (un_ubase (addr + n))) um' (curspace e)).
Proof.
  intros Hb Hseg Hsp Hrw Hc Hn Hp Hpn Hob Hum Hok. pose proof Hok as [(_ & Ha & Ht) Hm]. unfold CopyInOut.USERTOP in Ht.
  destruct (uiomove_to_user ptr n buf e addr Hb Hseg Hsp Hrw Hc Hn Hp Hpn Hob Hum ltac:(unfold is_u32; lia))
    as (um' & Hfr & [(_ & Hrun & Hi)|[Hno _]]); [|done].
  assert (filled (umem e) addr n (fun i => nthZ buf (ptr + i)) um') as Hf.
  { intros x. case_bool_decide as Hx; [|by apply Hfr]. rewrite <- Hi by lia. f_equal. lia. }
  assert (forall i, 0 <= i < n -> exists b, nthZ buf (ptr + i) = Some b /\ is_u8 b) as Hbuf.
  { intros i Hi'. destruct (nthZ_is_Some buf (ptr + i)) as [b Hb']; [lia|]. exists b. split; [done|].
    rewrite nthZ_to_nat in Hb' by lia. by eapply Forall_lookup_1. }
  exists um'. split; [done|]. split; [|split].
  - eapply filled_user; [done..|]. intros i b Hi' Hb'. destruct (Hbuf i Hi') as (b' & Hb'' & Hu). congruence.
  - eapply filled_dom; [done|done|]. intros i Hi'. destruct (Hbuf i Hi') as (b' & -> & _). by eexists.
  - unfold uiomove_on. rewrite Hrun, u32_id by (unfold is_u32; lia). done.
Qed.

Lemma uiomovezeros_user fuel : forall n e addr,
  uio_iovec (xuio e) = un_ubase addr -> uio_segflg (xuio e) <> UIO_SYSSPACE ->
  uio_space (xuio e) = curspace e -> uio_rw (xuio e) = UIO_READ -> can_move (xuio e) n -> 0 < n ->
  user_mem (umem e) -> user_ok (umem e) addr n -> n <= Z.of_nat fuel ->
  exists um', filled (umem e) addr n (fun _ => Some 0) um' /\ user_mem um' /\ same_dom (umem e) um' /\
    uiomovezeros_loop fuel n e = Done (inr tt) (mk_uenv (advanced (xuio e) n (un_ubase (addr + n))) um' (curspace e)).
Proof.
  induction fuel as [|fuel IH]; intros n e addr Hb Hseg Hsp Hrw Hc Hn Hum Hok Hfuel; [lia|].
  pose proof Hok as [(_ & Ha & Ht) Hm]. cbn [uiomovezeros_loop]. rewrite (proj2 (Z.ltb_lt 0 n)) by done.
  change (lenZ zeros) with 16. cbv zeta. set (amt := if n <? 16 then n else 16).
  assert (0 < amt <= 16 /\ amt <= n) as [Hamt Hle] by (unfold amt; destruct (Z.ltb_spec n 16); lia).
  destruct (uiomove_user 0 amt zeros e addr) as (um1 & Hf1 & Hu1 & Hd1 & Hrun1); try done.
  { eapply can_move_le; [exact Hc|lia]. }
  { lia. }
  { change (lenZ zeros) with 16. lia. }
  { unfold bytes_ok, zeros. apply Forall_replicate. unfold is_u8. lia. }
  { split; [split; [lia|split; [done|lia]]|]. intros i Hi. apply Hm. lia. }
  rewrite (bind_done _ _ _ _ _ Hrun1). simpl.
  assert (forall i, 0 <= i < amt -> nthZ zeros (0 + i) = Some 0) as Hz.
  { intros i Hi. apply nthZ_replicate. lia. }
  destruct (Z.eq_dec amt n) as [He|Hne].
  - rewrite He, Z.sub_diag in *. exists um1. split; [|split; [done|split; [done|]]].
    + intros x. rewrite Hf1. case_bool_decide; [|done]. apply Hz. lia.
    + by destruct fuel.
  - set (e1 := mk_uenv (advanced (xuio e) amt (un_ubase (addr + amt))) um1 (curspace e)).
    destruct (IH (n - amt) e1 (addr + amt)) as (um2 & Hf2 & Hu2 & Hd2 & Hrun2); try done; try lia.
    { apply can_move_advanced; [by replace (amt + (n - amt)) with n by lia|lia|lia]. }
    { split; [split; [lia|split; [lia|lia]]|]. intros i Hi. apply Hd1. rewrite <- Z.add_assoc. apply Hm. lia. }
    exists um2. split; [|split; [done|split]].
    + intros x. rewrite Hf2. unfold e1. cbn [umem]. rewrite Hf1. repeat case_bool_decide; try done; try lia. apply Hz. lia.
    + intros x. rewrite (Hd2 x). apply Hd1.
    + rewrite Hrun2. unfold e1. cbn [xuio curspace]. rewrite advanced_advanced. do 3 f_equal; try f_equal; lia.
Qed.

(** ** What [VOP_READ] promises (kern/include/vnode.h) *)

Section reads.
Context {W V : Type} `{FileIO W V}.

(** The bytes a read request gets: as many as it wants, and the file has. *)
Definition read_count (f : list Z) (u : uio) : Z := Z.min (uio_resid u) (Z.max 0 (lenZ f - uio_offset u)).

Definition can_read (u : uio) : Prop :=
  uio_rw u = UIO_READ /\ 0 <= uio_resid u <= iov_len u /\ is_u32 (iov_len u) /\ 0 <= uio_offset u /\
  uio_offset u + uio_resid u < 2 ^ 31.

(** The vnode [v] is a file with the bytes [f], in the states of the file system that
    [I] holds in. A read may fail, with an error that is [bad]; else it moves the bytes of the file from the offset
    of the request on and advances the request. *)
Record ReadsFile (v : V) (f : list Z) (I : W -> Prop) (bad : errno -> Prop) : Prop := {
  rf_bytes : bytes_ok f;
  rf_kernel w u obj off cur : I w -> kernel_uio u obj off -> can_read u -> lenZ obj = off + iov_len u ->
    wp (VOP_READ v) (fun r s => I s.1 /\
      match r with
      | inl e => bad e
      | inr _ => let n := read_count f u in
          s.2 = mk_uenv (advanced u n (un_kbase (splice obj off (slice f (uio_offset u) n)) (off + n))) ∅ cur
      end) (w, mk_uenv u ∅ cur);
  rf_user w u addr um cur : I w -> uio_iovec u = un_ubase addr -> uio_segflg u <> UIO_SYSSPACE -> uio_space u = cur ->
    can_read u -> 0 < uio_resid u -> user_mem um -> user_ok um addr (uio_resid u) ->
    wp (VOP_READ v) (fun r s => I s.1 /\ exists k g um', 0 <= k <= uio_resid u /\
      filled um addr k g um' /\ (forall i, 0 <= i < k -> exists b, g i = Some b /\ is_u8 b) /\ umem s.2 = um' /\
      match r with
      | inl e => bad e
      | inr _ => k = read_count f u /\ (forall i, 0 <= i < k -> g i = nthZ f (uio_offset u + i)) /\
          s.2 = mk_uenv (advanced u k (un_ubase (addr + k))) um' cur
      end) (w, mk_uenv u um cur);
  rf_nothing w u addr um cur : I w -> uio_iovec u = un_ubase addr -> uio_segflg u <> UIO_SYSSPACE -> uio_space u = cur ->
    can_read u -> uio_resid u = 0 ->
    wp (VOP_READ v) (fun r s => I s.1 /\ umem s.2 = um /\
      match r with inl e => bad e | inr _ => s.2 = mk_uenv u um cur end) (w, mk_uenv u um cur);
}.

(** The file part of a segment and the zeros after it. *)
Lemma fill_segment_ok v f I bad w u addr um cur memsize filesize :
  ReadsFile v f I bad -> I w -> uio_iovec u = un_ubase addr -> uio_segflg u <> UIO_SYSSPACE -> uio_space u = cur ->
  uio_rw u = UIO_READ -> uio_resid u = filesize -> iov_len u = memsize -> 0 <= filesize <= memsize -> 0 < memsize < 2 ^ 31 ->
  0 <= uio_offset u -> uio_offset u + memsize < 2 ^ 31 -> user_mem um -> user_ok um addr memsize ->
  wp (fill_segment v memsize filesize) (fun r s => I s.1 /\ user_mem (umem s.2) /\ same_dom um (umem s.2) /\
    (forall x, ~ (addr <= x < addr + memsize) -> umem s.2 !! x = um !! x) /\
    match r with
    | inl er => bad er \/ er = ENOEXEC /\ lenZ f < uio_offset u + filesize
    | inr _ => uio_offset u + filesize <= lenZ f \/ filesize = 0
    end /\
    (r = inr tt -> (forall i, 0 <= i < filesize -> umem s.2 !! (addr + i) = nthZ f (uio_offset u + i)) /\
                   (forall i, filesize <= i < memsize -> umem s.2 !! (addr + i) = Some 0))) (w, mk_uenv u um cur).
Proof.
  intros HR Hw Hb Hseg Hsp Hrw Hres Hlen Hfs Hms Hoff Hend Hum Hok. pose proof Hok as [(_ & Ha & Ht) Hm].
  assert (can_read u) as Hcr by (unfold can_read, is_u32; rewrite Hres, Hlen; split; [done|lia]).
  (* the state after the file part: the first [filesize] bytes are in *)
  assert (wp (VOP_READ v) (fun r s => I s.1 /\ exists k g um', 0 <= k <= filesize /\
      filled um addr k g um' /\ (forall i, 0 <= i < k -> exists b, g i = Some b /\ is_u8 b) /\ umem s.2 = um' /\
      match r with
      | inl er => bad er
      | inr _ => k = read_count f u /\ (forall i, 0 <= i < k -> g i = nthZ f (uio_offset u + i)) /\
          s.2 = mk_uenv (advanced u k (un_ubase (addr + k))) um' cur
      end) (w, mk_uenv u um cur)) as Hread.
  { destruct (Z.eq_dec filesize 0) as [H0|Hne].
    - eapply wp_mono; [eapply (rf_nothing _ _ _ _ HR); eauto; congruence|].
      intros r [w' e'] (HI & Hm' & Hr). simpl in *. split; [done|]. exists 0, (fun _ => None), um.
      split; [lia|]. split; [intros x; by rewrite bool_decide_false by lia|]. split; [intros; lia|]. split; [done|].
      destruct r as [|[]]; [done|]. split; [unfold read_count; lia|]. split; [intros; lia|]. rewrite Hr.
      rewrite Z.add_0_r, advanced_0 by done. done.
    - subst filesize. eapply (rf_user _ _ _ _ HR); eauto; [lia|]. split; [split; [lia|split; [done|lia]]|].
      intros i Hi. apply Hm. lia. }
  unfold fill_segment. wp_steps. eapply wp_mono; [exact Hread|]. clear Hread.
  intros r [w' e'] (HI & k & g & um' & Hk & Hf & Hg & He & Hr). simpl in He.
  assert (user_mem um' /\ same_dom um um') as [Hu' Hd'].
  { split.
    - eapply filled_user; [done|done|done|lia|]. intros i b Hi Hgi. destruct (Hg i Hi) as (b' & ? & ?). congruence.
    - eapply filled_dom; [done| |].
      + intros i Hi. apply Hm. lia.
      + intros i Hi. destruct (Hg i Hi) as (b' & -> & _). by eexists. }
  assert (forall x, ~ (addr <= x < addr + memsize) -> um' !! x = um !! x) as Hout.
  { intros x Hx. rewrite Hf, bool_decide_false by lia. done. }
  destruct r as [er|[]].
  { simpl. rewrite He. do 4 (split; [done|]). split; [by left|done]. }
  destruct Hr as (Hkc & Hgf & Hs2). simpl in Hs2. subst e'. simpl in HI |- *. wp_steps. cbn [xuio advanced uio_resid].
  rewrite Hres. destruct (Z.eqb_spec (filesize - k) 0) as [Hall|Hshort]; simpl.
  2: { wp_steps. simpl. do 4 (split; [done|]). split; [right|done]. split; [done|]. unfold read_count in Hkc. lia. }
  assert (k = filesize) as -> by lia.
  assert (uio_offset u + filesize <= lenZ f \/ filesize = 0) as Hin by (unfold read_count in Hkc; lia).
  assert (forall i, 0 <= i < filesize -> um' !! (addr + i) = nthZ f (uio_offset u + i)) as Hfile.
  { intros i Hi. rewrite Hf, bool_decide_true by lia. rewrite <- Hgf by lia. f_equal. lia. }
  rewrite (u32_id (memsize - filesize)) by (unfold is_u32; lia).
  destruct (Z.ltb_spec 0 (memsize - filesize)) as [Hmore|Hnone].
  2: { wp_steps. simpl. do 5 (split; [done|]). intros _. split; [done|]. intros i Hi. lia. }
  set (e1 := mk_uenv (set_resid (advanced u filesize (un_ubase (addr + filesize))) (u32 (filesize - filesize + (memsize - filesize)))) um' cur).
  assert (uio_resid (xuio e1) = memsize - filesize) as Hr1.
  { unfold e1. simpl. rewrite u32_id by (unfold is_u32; lia). lia. }
  destruct (uiomovezeros_user (Z.to_nat (memsize - filesize)) (memsize - filesize) e1 (addr + filesize)) as (um2 & Hf2 & Hu2 & Hd2 & Hrun);
    try done; try lia.
  { split; [rewrite Hr1; lia|]. unfold e1 in *. cbn [xuio set_resid advanced iov_len uio_offset uio_resid] in *. rewrite Hr1.
    unfold is_u32, is_s32. lia. }
  { split; [split; [lia|split; [lia|lia]]|]. intros i Hi. apply Hd'. rewrite <- Z.add_assoc. apply Hm. lia. }
  wp_steps. fold e1. unfold uiomovezeros. wp_steps. simpl. rewrite bool_decide_true by (by unfold e1). split; [done|].
  eapply wp_of_eq; [exact Hrun|]. simpl. split; [done|]. split; [done|]. split; [intros x; rewrite (Hd2 x); apply Hd'|].
  split; [|split; [done|]].
  - intros x Hx. rewrite Hf2, bool_decide_false by lia. by apply Hout.
  - intros _. split.
    + intros i Hi. rewrite Hf2, bool_decide_false by lia. by apply Hfile.
    + intros i Hi. rewrite Hf2, bool_decide_true by lia. done.
Qed.

(** ** A segment in the space of the current thread *)

(** The current thread has the space [a] at [p], ready to be touched. *)
Record loading (vm : vmstate) (live owner : gmap Z Z) (p : Z) (a : addrspace) : Prop := {
  lo_ok : vm_ok vm live owner;
  lo_cur : t_vmspace vm = Some p;
  lo_space : spaces vm !! p = Some a;
  lo_ready : as_ready a;
}.

Lemma user_view_user vm live owner p a : loading vm live owner p a -> user_mem (user_view vm a).
Proof.
  intros [Hv _ Ha Hr] x b. rewrite user_view_lookup. destruct (translate a x) as [pa|] eqn:Ht; simpl; [|done].
  intros Hb. split; [by apply (translate_range _ _ _ Hr Ht)|by eapply vo_bytes].
Qed.

Lemma user_view_mapped vm live owner p a va n : loading vm live owner p a ->
  (forall i, 0 <= i < n -> is_Some (translate a (va + i))) -> mapped (user_view vm a) va n.
Proof.
  intros [Hv _ Ha Hr] Ht i Hi. rewrite user_view_lookup. destruct (Ht i Hi) as [pa Hpa]. rewrite Hpa. simpl.
  by eapply translate_mapped.
Qed.

(** The bytes that a segment of the file stands for. *)
Definition image (f : list Z) (offset filesize memsize i : Z) : option Z :=
  if decide (i < Z.min filesize memsize) then nthZ f (offset + i) else Some 0.

Lemma load_segment_ok v f I bad vm w live owner p a offset vaddr memsize filesize x :
  ReadsFile v f I bad -> I w -> loading vm live owner p a -> 0 < memsize -> 0 <= filesize -> 0 <= offset ->
  offset + memsize < 2 ^ 31 -> 0 <= vaddr -> vaddr + memsize <= USERTOP ->
  (forall i, 0 <= i < memsize -> is_Some (translate a (vaddr + i))) ->
  wp (load_segment v offset vaddr memsize filesize x) (fun r s => I s.2 /\
    exists m, s.1 = set_vmem m vm /\ loading s.1 live owner p a /\
    (forall va, ~ (vaddr <= va < vaddr + memsize) -> user_byte s.1 p va = user_byte vm p va) /\
    (forall er, r = inl er -> bad er \/ er = ENOEXEC /\ lenZ f < offset + Z.min filesize memsize) /\
    (r = inr tt -> forall i, 0 <= i < memsize -> user_byte s.1 p (vaddr + i) = image f offset filesize memsize i)) (vm, w).
Proof.
  intros HR Hw Hl Hm Hf Ho Hend Hva Htop Htr. pose proof Hl as [Hv Hc Ha Hr].
  assert (vaddr + memsize <= 2 ^ 31) by (unfold USERTOP, MIPS_KSEG0 in Htop; lia).
  unfold load_segment. wp_steps. rewrite (proj2 (Z.eqb_neq memsize 0)) by lia.
  set (fs := if memsize <? filesize then memsize else filesize).
  assert (fs = Z.min filesize memsize /\ 0 <= fs <= memsize) as [Hfs Hfr] by (unfold fs; destruct (Z.ltb_spec memsize filesize); lia).
  unfold on_user, cur_space, on_as, get_space. wp_steps. simpl. exists p. split; [by rewrite Hc|]. wp_steps. simpl. exists a.
  split; [done|]. wp_steps. eapply wp_of_eq; [by apply assert_set_up_ok|]. simpl.
  set (u := Uio.mk_uio _ _ _ _ _ _ _).
  pose proof (fill_segment_ok v f I bad w u vaddr (user_view vm a) (t_vmspace vm) memsize fs HR Hw) as Hfill.
  apply wp_done in Hfill as (r & [w' e'] & Hrun & HI & Hu & Hd & Hrest & Herr & Hok);
    try done; [|by unfold u; simpl; destruct (x =? 0)|lia|by eapply user_view_user|].
  2: { split; [split; [lia|split; [done|exact Htop]]|]. by eapply user_view_mapped. }
  unfold wp. cbn [fst snd]. rewrite Hrun. simpl in HI, Hu, Hd, Hrest, Hok |- *. split; [done|].
  destruct (put_view_ok vm live owner p a (umem e') Hv Ha Hr Hd) as (Hv' & Hp & _); [intros y b Hy; by eapply Hu|].
  exists (vmem (put_view a (umem e') vm)). split; [done|]. split; [by split|]. split; [|split].
  - intros va Hout. rewrite Hp, Hrest by done. apply (user_view_byte _ _ _ _ Ha).
  - intros er ->. by rewrite <- Hfs.
  - intros ->. destruct (Hok eq_refl) as [H1 H2]. intros i Hi. rewrite Hp. unfold image. rewrite <- Hfs.
    case_decide; [apply H1; lia|apply H2; lia].
Qed.

(** ** Headers *)

Lemma read_object_ok v f I bad vm w len pos : ReadsFile v f I bad -> I w -> 0 < len -> 0 <= pos -> pos + len < 2 ^ 31 ->
  wp (read_object v len pos) (fun r s => s.1 = vm /\ I s.2 /\
    match r with
    | inl e => bad e
    | inr (bs, resid) => if resid =? 0 then pos + len <= lenZ f /\ bs = slice f pos len else lenZ f < pos + len
    end) (vm, w).
Proof.
  intros HR Hw Hlen Hpos Hend. set (u := mk_kuio (replicate (Z.to_nat len) 0) len pos UIO_READ).
  assert (lenZ (replicate (Z.to_nat len) 0) = len) as Hll by (rewrite lenZ_replicate; lia).
  pose proof (rf_kernel _ _ _ _ HR w u (replicate (Z.to_nat len) 0) 0 (t_vmspace vm) Hw) as Hk.
  apply wp_done in Hk as (r & [w' e] & Hrun & HI & Hr).
  2: { split; unfold u; simpl; done || lia. }
  2: { unfold can_read, u, is_u32. simpl. split; [done|lia]. }
  2: { unfold u. simpl. lia. }
  unfold wp, read_object. cbn [fst snd]. fold u. rewrite Hrun. simpl in HI, Hr.
  destruct r as [e0|[]]; [by split_and!|]. cbv zeta in Hr. subst e. cbn [xuio uio_iovec advanced uio_resid u mk_kuio].
  split; [done|]. split; [done|]. unfold read_count, u. cbn [uio_resid uio_offset mk_kuio].
  destruct (Z.eqb_spec (len - Z.min len (Z.max 0 (lenZ f - pos))) 0) as [He|He]; [|lia].
  assert (Z.min len (Z.max 0 (lenZ f - pos)) = len) as -> by lia. split; [lia|].
  assert (lenZ (slice f pos len) = len) as Hsl by (apply lenZ_slice; lia).
  apply splice_full. lia.
Qed.

(** The program headers of the file. *)
Definition phdr_pos (eh : Elf_Ehdr) (i : Z) : Z := e_phoff eh + i * e_phentsize eh.
Definition phdr_at (f : list Z) (eh : Elf_Ehdr) (i : Z) : Elf_Phdr := dec_phdr (slice f (phdr_pos eh i) sizeof_Phdr).

Definition skipped (t : Z) : bool := (t =? PT_NULL) || (t =? PT_PHDR) || (t =? PT_MIPS_REGINFO).

(** The table is in the file, and has segments of known types only. *)
Definition table_ok (f : list Z) (eh : Elf_Ehdr) : Prop :=
  forall i, 0 <= i < e_phnum eh ->
    0 <= e_phoff eh /\ 0 <= i * e_phentsize eh /\ phdr_pos eh i + sizeof_Phdr <= lenZ f /\
    (skipped (p_type (phdr_at f eh i)) = true \/ p_type (phdr_at f eh i) = PT_LOAD).

(** The segments to load among the first [n] headers. *)
Definition loads (f : list Z) (eh : Elf_Ehdr) (n : nat) : list Elf_Phdr :=
  filter (fun ph => skipped (p_type ph) = false) (phdr_at f eh <$> seqZ 0 (Z.of_nat n)).

Lemma loads_S f eh n : loads f eh (S n) =
  loads f eh n ++ (if skipped (p_type (phdr_at f eh (Z.of_nat n))) then [] else [phdr_at f eh (Z.of_nat n)]).
Proof.
  unfold loads. rewrite Nat2Z.inj_succ, <- Z.add_1_r, seqZ_app, fmap_app, filter_app by lia. f_equal.
  change (seqZ (0 + Z.of_nat n) 1) with [Z.of_nat 0 + Z.of_nat n]. cbn [fmap list_fmap]. rewrite filter_cons. destruct (skipped _); simpl; repeat case_decide; done.
Qed.

Lemma read_phdr_ok v f I bad vm w eh i : ReadsFile v f I bad -> I w -> lenZ f < 2 ^ 31 - sizeof_Phdr -> table_ok f eh -> 0 <= i < e_phnum eh ->
  wp (read_phdr v eh i) (fun r s => s.1 = vm /\ I s.2 /\
    match r with
    | inl e => bad e
    | inr o => o = if skipped (p_type (phdr_at f eh i)) then None else Some (phdr_at f eh i)
    end) (vm, w).
Proof.
  intros HR Hw Hlen Ht Hi. destruct (Ht i Hi) as (H0 & H1 & H2 & H3). unfold phdr_pos, sizeof_Phdr in *.
  unfold read_phdr, phdr_offset. wp_steps. split; [unfold is_s32; lia|]. wp_steps.
  rewrite u32_id, s32_id by (unfold is_s32, is_u32; lia). fold (phdr_pos eh i).
  eapply wp_mono; [eapply read_object_ok; [exact HR|exact Hw|done|unfold phdr_pos; lia|unfold phdr_pos, sizeof_Phdr; lia]|].
  intros [e|[bs resid]] [vm' w'] (Hvm & HI & Hr); cbn [fst snd] in *; cbv beta iota; [done|].
  destruct (resid =? 0); cbn [negb]; [|unfold sizeof_Phdr, phdr_pos in *; lia].
  destruct Hr as [_ ->]. cbv zeta. fold (phdr_at f eh i). fold (skipped (p_type (phdr_at f eh i))).
  destruct (skipped (p_type (phdr_at f eh i))) eqn:Hs; [wp_steps; by split_and!|].
  destruct H3 as [H3|H3]; [unfold phdr_at, phdr_pos, sizeof_Phdr in *; congruence|].
  assert (p_type (phdr_at f eh i) = PT_LOAD) as -> by done. rewrite Z.eqb_refl. wp_steps. by split_and!.
Qed.

(** ** The whole program *)

Definition seg_pages (s : Elf_Phdr) : Z := (p_memsz s + PAGE_SIZE - 1) / PAGE_SIZE.

(** A segment that dumbvm can hold: in user space, not on page 0, not empty, and in the
    pages that [as_define_region] counts for it. *)
Record segment_ok (s : Elf_Phdr) : Prop := {
  sg_size : 0 < p_memsz s < 2 ^ 31 /\ 0 <= p_filesz s;
  sg_virt : is_u32 (p_vaddr s) /\ virt_ok (page_of (p_vaddr s)) (seg_pages s);
  sg_fits : p_vaddr s mod PAGE_SIZE + p_memsz s <= seg_pages s * PAGE_SIZE;
  sg_file : 0 <= p_offset s /\ p_offset s + p_memsz s < 2 ^ 31;
}.

Definition seg_apart (s t : Elf_Phdr) : Prop :=
  p_vaddr s + p_memsz s <= p_vaddr t \/ p_vaddr t + p_memsz t <= p_vaddr s.

(** The space at [p] holds the segment as the file describes it. *)
Definition seg_loaded (f : list Z) (vm : vmstate) (p : Z) (s : Elf_Phdr) : Prop :=
  forall i, 0 <= i < p_memsz s ->
    user_byte vm p (p_vaddr s + i) = image f (p_offset s) (p_filesz s) (p_memsz s) i.

(** The space after [as_define_region] for these segments. *)
Definition space_of (l : list Elf_Phdr) : addrspace :=
  match l with
  | [] => mk_as 0 0 0 0 0 0 0
  | [s] => mk_as (page_of (p_vaddr s)) 0 (seg_pages s) 0 0 0 0
  | s :: t :: _ => mk_as (page_of (p_vaddr s)) 0 (seg_pages s) (page_of (p_vaddr t)) 0 (seg_pages t) 0
  end.

Lemma loads_prefix f eh n m : (n <= m)%nat -> loads f eh n `prefix_of` loads f eh m.
Proof.
  induction 1 as [|m _ IH]; [done|]. rewrite loads_S. etrans; [exact IH|]. by apply prefix_app_r.
Qed.

(** Going through the headers: one more, skipped or the next segment. *)
Lemma loads_next f eh s1 s2 i : loads f eh (Z.to_nat (e_phnum eh)) = [s1; s2] -> 0 <= i < e_phnum eh ->
  let ph := phdr_at f eh i in
  let l := loads f eh (Z.to_nat i) in
  let l' := loads f eh (Z.to_nat (i + 1)) in
  (skipped (p_type ph) = true /\ l' = l) \/
  (skipped (p_type ph) = false /\ ((l = [] /\ ph = s1 /\ l' = [s1]) \/ (l = [s1] /\ ph = s2 /\ l' = [s1; s2]))).
Proof.
  intros Hall Hi ph l l'. assert (l' = l ++ (if skipped (p_type ph) then [] else [ph])) as Hl'.
  { unfold l', l, ph. replace (Z.to_nat (i + 1)) with (S (Z.to_nat i)) by lia. rewrite loads_S. by rewrite Z2Nat.id by lia. }
  destruct (skipped (p_type ph)); [left; by rewrite app_nil_r in Hl'|right]. split; [done|].
  assert (l' `prefix_of` [s1; s2]) as [k Hk] by (rewrite <- Hall; apply loads_prefix; lia).
  rewrite Hl' in Hk |- *. destruct l as [|x [|y l]]; simpl in Hk; [left|right|].
  - by injection Hk as <- _.
  - by injection Hk as <- <- _.
  - injection Hk as _ _ Hk. by destruct l.
Qed.

Section load.
Context (v : V) (f : list Z) (I : W -> Prop) (bad : errno -> Prop) (p : Z) (eh : Elf_Ehdr) (s1 s2 : Elf_Phdr).
Hypothesis HR : ReadsFile v f I bad.
Hypothesis Hlen : lenZ f < 2 ^ 31 - sizeof_Phdr.
Hypothesis Htable : table_ok f eh.
Hypothesis Hnum : 0 <= e_phnum eh.
Hypothesis Hsegs : loads f eh (Z.to_nat (e_phnum eh)) = [s1; s2].
Hypothesis Hs1 : segment_ok s1.
Hypothesis Hs2 : segment_ok s2.
Hypothesis Hin : forall s, s = s1 \/ s = s2 -> p_offset s + Z.min (p_filesz s) (p_memsz s) <= lenZ f.
Hypothesis Hapart : seg_apart s1 s2.

Lemma define_all_ok vm w : I w -> t_vmspace vm = Some p -> spaces vm !! p = Some (space_of []) ->
  wp (for_ (Z.to_nat (e_phnum eh)) 0 (define_phdr v eh)) (fun r s => I s.2 /\
    match r with
    | inl e => bad e
    | inr _ => s.1 = set_spaces (<[p := space_of [s1; s2]]> (spaces vm)) vm
    end) (vm, w).
Proof.
  intros Hw Hc Hp.
  apply wp_for with (I := fun i s => I s.2 /\ s.1 = set_spaces (<[p := space_of (loads f eh (Z.to_nat i))]> (spaces vm)) vm).
  - split; [done|]. simpl. change (loads f eh (Z.to_nat 0)) with (@nil Elf_Phdr). rewrite insert_id by done. by destruct vm.
  - intros i [vm' w'] Hi [HI Hvm]. simpl in HI, Hvm. rewrite Z2Nat.id in Hi by done. unfold define_phdr. wp_steps.
    eapply wp_mono; [eapply read_phdr_ok; try done; lia|]. intros r [vm'' w''] (Hv & HI' & Hr). simpl in Hv, HI'. subst vm'' vm'.
    destruct r as [e|o]; [by split|]. subst o.
    destruct (loads_next f eh s1 s2 i Hsegs ltac:(lia)) as [[-> ->]|[-> Hcase]]; [wp_steps; by split|].
    unfold cur_space, on_as. wp_steps. cbn [fst snd t_vmspace set_spaces]. exists p. split; [by rewrite Hc|]. wp_steps. cbn [fst snd].
    destruct Hcase as [(-> & -> & ->)|(-> & -> & ->)].
    + eapply wp_of_eq; [apply define_first; [apply lookup_insert_eq|done|apply Hs1|destruct (sg_size _ Hs1); lia]|].
      simpl. rewrite insert_insert_eq. by split.
    + destruct (sg_virt _ Hs1) as [_ [Hpos _]].
      eapply wp_of_eq; [apply (define_second _ p (space_of [s1])); [apply lookup_insert_eq|simpl; lia|done|apply Hs2|destruct (sg_size _ Hs2); lia]|].
      simpl. rewrite insert_insert_eq. by split.
  - intros [vm' w'] [HI Hvm]. rewrite Z.add_0_l, Z2Nat.id in Hvm by done. rewrite Hsegs in Hvm. by split.
Qed.

Lemma seg_translates a s k : same_shape a (space_of [s1; s2]) -> has_pages a -> s = s1 \/ s = s2 -> 0 <= k < p_memsz s ->
  is_Some (translate a (p_vaddr s + k)).
Proof.
  intros (E1 & E2 & E3 & E4) ([P1 _] & [P2 _] & _) Hs Hk. simpl in *. unfold translate.
  assert (forall t, segment_ok t -> 0 <= k < p_memsz t ->
    page_of (p_vaddr t) <= p_vaddr t + k < page_of (p_vaddr t) + seg_pages t * PAGE_SIZE) as Hpg.
  { intros t Ht Hkt. pose proof (sg_fits _ Ht). destruct (sg_virt _ Ht) as [[Hu _] _].
    destruct (page_of_facts (p_vaddr t) Hu) as (? & ? & _ & Hsum & _). lia. }
  destruct Hs as [->| ->].
  - rewrite (proj2 (in_region_iff (as_vbase1 a) _ _ _)); [by eexists|]. rewrite E1, E2. split; [done|by apply Hpg].
  - rewrite (proj2 (in_region_iff (as_vbase2 a) _ _ _)); [case_match; by eexists|]. rewrite E3, E4. split; [done|by apply Hpg].
Qed.

Lemma load_all_ok vm w live owner a : I w -> loading vm live owner p a -> same_shape a (space_of [s1; s2]) ->
  wp (for_ (Z.to_nat (e_phnum eh)) 0 (load_phdr v eh)) (fun r s => I s.2 /\ loading s.1 live owner p a /\
    match r with inl e => bad e | inr _ => seg_loaded f s.1 p s1 /\ seg_loaded f s.1 p s2 end) (vm, w).
Proof.
  intros Hw Hl Hsh.
  apply wp_for with (I := fun i s => I s.2 /\ loading s.1 live owner p a /\ Forall (seg_loaded f s.1 p) (loads f eh (Z.to_nat i))).
  - split; [done|]. split; [done|]. by apply Forall_nil.
  - intros i [vm' w'] Hi (HI & Hvm & Hdone). simpl in HI, Hvm, Hdone. rewrite Z2Nat.id in Hi by done. unfold load_phdr. wp_steps.
    eapply wp_mono; [eapply read_phdr_ok; try done; lia|]. intros r [vm'' w''] (Hv & HI' & Hr). simpl in Hv, HI'. subst vm''.
    destruct r as [e|o]; [by split_and!|]. subst o.
    destruct (loads_next f eh s1 s2 i Hsegs ltac:(lia)) as [[-> ->]|[-> Hcase]]; [wp_steps; by split_and!|].
    assert (forall s, phdr_at f eh i = s -> s = s1 \/ s = s2 -> segment_ok s ->
      (forall t, t ∈ loads f eh (Z.to_nat i) -> seg_apart s t) ->
      wp (load_segment v (s32 (p_offset s)) (p_vaddr s) (p_memsz s) (p_filesz s) (Z.land (p_flags s) PF_X))
        (fun r t' => match r with
          | inl e => I t'.2 /\ loading t'.1 live owner p a /\ bad e
          | inr _ => I t'.2 /\ loading t'.1 live owner p a /\ Forall (seg_loaded f t'.1 p) (loads f eh (Z.to_nat i) ++ [s])
          end) (vm', w'')) as Hload.
    { intros s Hs Hwhich Hok Hap. destruct (sg_size _ Hok) as [[Hm0 Hm1] Hf0]. destruct (sg_file _ Hok) as [Ho0 Ho1].
      destruct (sg_virt _ Hok) as [[Hu0 Hu1] (_ & _ & _ & Htop)]. pose proof (sg_fits _ Hok) as Hfit.
      destruct (page_of_facts (p_vaddr s) Hu0) as (_ & _ & _ & Hsum & _).
      rewrite s32_id by (unfold is_s32; lia).
      eapply wp_mono; [eapply load_segment_ok; [exact HR|exact HI'|exact Hvm|lia|lia|lia|lia|lia|lia|]|].
      - intros k Hk. eapply seg_translates; try done. by eapply ready_has_pages, lo_ready.
      - intros r [vm3 w3] (HI3 & m & -> & Hl3 & Hout & Herr & Hcp). simpl in HI3, Hl3, Hout, Hcp |- *.
        destruct r as [e|[]].
        { split; [done|]. split; [done|]. destruct (Herr e eq_refl) as [?|[_ Hshort]]; [done|]. specialize (Hin s Hwhich). lia. }
        split; [done|]. split; [done|]. apply Forall_app. split; [|apply Forall_singleton; exact (Hcp eq_refl)].
        rewrite Forall_forall in Hdone |- *. intros t Ht k Hk. rewrite Hout; [by apply Hdone|].
        destruct (Hap t Ht); lia. }
    destruct Hcase as [(Hl0 & Hph & ->)|(Hl0 & Hph & ->)]; rewrite Hl0 in Hload; rewrite Hph.
    + apply (Hload s1); [done|by left|done|]. intros t Ht. by apply elem_of_nil in Ht.
    + apply (Hload s2); [done|by right|done|]. intros t ->%list_elem_of_singleton. unfold seg_apart in *. tauto.
  - intros [vm' w'] (HI & Hvm & Hdone). rewrite Z.add_0_l, Z2Nat.id, Hsegs in Hdone by done.
    rewrite Forall_cons, Forall_singleton in Hdone. done.
Qed.
End load.

Definition file_ehdr (f : list Z) : Elf_Ehdr := dec_ehdr (slice f 0 sizeof_Ehdr).

Lemma load_elf_ok v f I bad vm w live owner p s1 s2 :
  let eh := file_ehdr f in
  ReadsFile v f I bad -> I w -> sizeof_Ehdr <= lenZ f < 2 ^ 31 - sizeof_Phdr -> ehdr_ok eh = true -> table_ok f eh ->
  loads f eh (Z.to_nat (e_phnum eh)) = [s1; s2] -> segment_ok s1 -> segment_ok s2 -> seg_apart s1 s2 ->
  (forall s, s = s1 \/ s = s2 -> p_offset s + Z.min (p_filesz s) (p_memsz s) <= lenZ f) ->
  vm_ok vm live owner -> t_vmspace vm = Some p -> spaces vm !! p = Some (mk_as 0 0 0 0 0 0 0) ->
  wp (load_elf v) (fun r s => I s.2 /\
    match r with
    | inl e => bad e \/ e = ENOMEM
    | inr entry => entry = e_entry eh /\ exists a live' owner', loading s.1 live' owner' p a /\
        seg_loaded f s.1 p s1 /\ seg_loaded f s.1 p s2
    end) (vm, w).
Proof.
  intros eh HR Hw [Hlen1 Hlen2] Hok Ht Hs Hs1 Hs2 Hap Hin Hv Hc Hp.
  assert (0 <= e_phnum eh) as Hnum.
  { destruct (Z.lt_ge_cases (e_phnum eh) 0) as [Hneg|]; [|done]. by replace (Z.to_nat (e_phnum eh)) with 0%nat in Hs by lia. }
  unfold load_elf. wp_steps.
  eapply wp_mono; [eapply read_object_ok; [exact HR|exact Hw|done|lia|unfold sizeof_Ehdr, sizeof_Phdr in *; lia]|].
  intros [e|[bs resid]] [vm' w'] (Hvm & HI & Hr); cbn [fst snd] in *; cbv beta iota; [split; [done|by left]|]. subst vm'.
  destruct (resid =? 0); cbn [negb]; [|lia]. destruct Hr as [_ ->]. cbv zeta.
  fold (file_ehdr f). fold eh. rewrite Hok. cbn [negb]. wp_steps.
  eapply wp_mono; [by eapply define_all_ok|]. intros [e|[]] [vm' w1] [HI1 Hvm]; cbn [fst snd] in *; [split; [done|by left]|].
  set (a0 := space_of [s1; s2]) in *.
  assert (vm_ok vm' live owner) as Hv' by (subst vm'; by eapply move_space).
  assert (forall s, segment_ok s -> 0 < seg_pages s <= 2 ^ 19) as Hpages.
  { intros s Hsok. destruct (sg_virt _ Hsok) as [_ (H0 & _ & H1 & H2)]. unfold USERTOP, MIPS_KSEG0, PAGE_SIZE in *. lia. }
  unfold cur_space, on_as. wp_steps. exists p. split; [by subst vm'|]. wp_steps. cbn [fst].
  eapply wp_mono; [eapply (as_prepare_load_ok vm' live owner p a0); [done|subst vm'; apply lookup_insert_eq|done|done|done|by apply Hpages|by apply Hpages]|].
  intros r vm2 (h2 & a & live2 & owner2 & -> & Hv2 & Hsh & Hpg).
  destruct r as [e|[]]; [wp_steps; split; [done|by right]|]. cbv beta iota. wp_steps.
  set (vm2 := with_space vm' h2 p a) in *.
  assert (loading vm2 live2 owner2 p a) as Hl.
  { assert (spaces vm2 !! p = Some a) as Ha by apply lookup_insert_eq. pose proof Hsh as (E1 & E2 & E3 & E4).
    split; [done|subst vm'; exact Hc|done|]. eapply ready_of; [exact Hv2|done|done| |]; rewrite ?E1, ?E2, ?E3, ?E4; [apply Hs1|apply Hs2]. }
  eapply wp_mono; [by eapply (load_all_ok v f I bad p eh s1 s2)|]. intros r [vm3 w3] (HI3 & Hl3 & Hr). cbn [fst snd] in *.
  destruct r as [e|[]]; [split; [done|by left]|]. wp_steps. exists p. split; [apply Hl3|]. unfold as_complete_load. wp_steps.
  split; [done|]. split; [done|]. exists a, live2, owner2. by split.
Qed.

(** Only the header is looked at before it is accepted. *)
Lemma load_elf_header v f I bad vm w : ReadsFile v f I bad -> I w -> lenZ f < sizeof_Ehdr \/ ehdr_ok (file_ehdr f) = false ->
  wp (load_elf v) (fun r s => s.1 = vm /\ exists e, r = inl e /\ (e = ENOEXEC \/ bad e)) (vm, w).
Proof.
  intros HR Hw Hbad. unfold load_elf. wp_steps.
  eapply wp_mono; [eapply read_object_ok; [exact HR|exact Hw|done|done|done]|].
  intros [e|[bs resid]] [vm' w'] (Hvm & HI & Hr); cbn [fst snd] in *; cbv beta iota; [split; [done|]; eauto|]. subst vm'.
  destruct (resid =? 0); cbn [negb]; [|wp_steps; split; [done|]; eauto].
  destruct Hr as [Hlen ->]. cbv zeta. fold (file_ehdr f). destruct Hbad as [Hshort|Hno]; [lia|]. rewrite Hno. cbn [negb].
  wp_steps. split; [done|]; eauto.
Qed.
End reads.

(** ** A file in memory *)

(** Reads as vnode.h asks: what is left of the file from the offset on. *)
Definition memfile_read (f : list Z) : E (unit * uenv) unit :=
  let! s := get in
  let n := read_count f (xuio s.2) in
  if n <=? 0 then ok tt
  else
    zoom snd (fun e s => (fst s, e))
      (let! r := uiomove_on (slice f (uio_offset (xuio s.2)) n) 0 n in ret (fst r)).

Definition memfile_io : FileIO unit (list Z) := {|
  VOP_READ := memfile_read;
  VOP_WRITE := fun _ => fail EUNIMP;
  VOP_STAT := fun _ => fail EUNIMP;
  VOP_TRYSEEK := fun _ _ => ok tt;
|}.

Lemma memfile_reads f : bytes_ok f -> ReadsFile (H := memfile_io) f f (fun _ => True) (fun _ => False).
Proof.
  intros Hf. split.
  - done.
  - intros w u obj off cur _ Hk (Hrw & Hr & Hu & Ho & Hs) Hobj. simpl. unfold memfile_read. wp_steps. cbn [fst snd xuio].
    destruct (Z.leb_spec (read_count f u) 0) as [Hz|Hpos].
    + assert (read_count f u = 0) as -> by (unfold read_count in *; lia). wp_steps. split; [done|]. simpl.
      rewrite slice_nil, splice_nil, Z.add_0_r, advanced_0; [done|apply Hk].
    + assert (read_count f u <= uio_resid u /\ uio_offset u + read_count f u <= lenZ f) as [Hc1 Hc2] by (unfold read_count in *; lia).
      assert (lenZ (slice f (uio_offset u) (read_count f u)) = read_count f u) as Hsl by (apply lenZ_slice; lia).
      wp_steps. unfold uiomove_on, wp. cbn [snd].
      rewrite (uiomove_kernel 0 _ _ (mk_uenv u ∅ cur) obj off Hk); cbn [xuio].
      2: { unfold can_move, is_u32, is_s32 in *. lia. }
      2: { lia. }
      2: { lia. }
      simpl. split; [done|]. rewrite Hrw. unfold moved_obj, moved_buf. set (sl := slice f _ _) in *.
      assert (slice sl 0 (read_count f u) = sl) as -> by (by rewrite <- Hsl, slice_full). done.
  - intros w u addr um cur _ Hb Hseg Hsp (Hrw & Hr & Hu & Ho & Hs) Hpos Hum Hok. simpl. unfold memfile_read. wp_steps. cbn [fst snd xuio].
    destruct (Z.leb_spec (read_count f u) 0) as [Hz|Hn].
    + wp_steps. split; [done|]. exists 0, (fun _ => None), um. simpl. split; [lia|]. split; [intros x; by rewrite bool_decide_false by lia|].
      split; [intros; lia|]. split; [done|]. split; [unfold read_count in *; lia|]. split; [intros; lia|].
      by rewrite Z.add_0_r, advanced_0.
    + assert (read_count f u <= uio_resid u /\ uio_offset u + read_count f u <= lenZ f) as [Hc1 Hc2] by (unfold read_count in *; lia).
      assert (lenZ (slice f (uio_offset u) (read_count f u)) = read_count f u) as Hsl by (apply lenZ_slice; lia).
      assert (bytes_ok (slice f (uio_offset u) (read_count f u))) as Hbs by (by apply Forall_take, Forall_drop).
      destruct (uiomove_user 0 (read_count f u) (slice f (uio_offset u) (read_count f u)) (mk_uenv u um cur) addr)
        as (um' & Hf' & Hu' & Hd' & Hrun); try done; try (simpl; lia).
      { unfold can_move, is_u32, is_s32 in *. simpl. lia. }
      { destruct Hok as [(H0 & H1 & H2) Hm]. split; [split; [done|split; [done|lia]]|]. intros i Hi. apply Hm. lia. }
      wp_steps. unfold wp. cbn [snd]. rewrite Hrun. simpl. split; [done|].
      eexists _, _, um'. split; [|split; [exact Hf'|]]; [lia|]. split.
      * intros i Hi. cbn [Z.add]. destruct (nthZ_is_Some (slice f (uio_offset u) (read_count f u)) (0 + i)) as [b Hb']; [lia|].
        exists b. split; [done|]. rewrite nthZ_to_nat in Hb' by lia. by eapply Forall_lookup_1.
      * split; [done|]. split; [done|]. split; [|done]. intros i Hi. rewrite nthZ_slice by lia. by rewrite Z.add_0_l.
  - intros w u addr um cur _ Hb Hseg Hsp (Hrw & Hr & Hu & Ho & Hs) H0. simpl. unfold memfile_read. wp_steps. cbn [fst snd xuio].
    rewrite (proj2 (Z.leb_le _ _)) by (unfold read_count; lia). by wp_steps.
Qed.

(** ** Properties *)


(** A file that is too short for a header, or whose header is not that of a 32-bit
    big-endian MIPS executable, is refused with ENOEXEC before the address space is
    touched (or reading it failed). *)
Theorem load_elf_refuses {W V : Type} `{FileIO W V} (v : V) (f : list Z) (I : W -> Prop) (bad : errno -> Prop) vm w :
  ReadsFile v f I bad -> I w -> lenZ f < sizeof_Ehdr \/ ehdr_ok (file_ehdr f) = false ->
  exists e w', load_elf v (vm, w) = Done (inl e) (vm, w') /\ (e = ENOEXEC \/ bad e).
Proof.
  intros HR Hw Hb. destruct (wp_done _ _ _ (load_elf_header v f I bad vm w HR Hw Hb)) as (r & [vm' w'] & Hrun & Hvm & e & -> & He).
  simpl in Hvm. subst vm'. by exists e, w'.
Qed.

(** ** An executable: four bytes of code in a segment of ten, two of data in one of 5000 *)

(** Closing conjunctions of comparisons of constants. *)
Ltac decide_consts := vm_compute; repeat match goal with |- _ /\ _ => split end; first [reflexivity | discriminate].

Definition be16 (n : Z) : list Z := [n / 256; n mod 256].
Definition be32 (n : Z) : list Z := be16 (n / 65536) ++ be16 (n mod 65536).

Definition demo_elf : list Z :=
  [0x7f; 69; 76; 70; 1; 2; 1; 0; 0; 0; 0; 0; 0; 0; 0; 0] ++ be16 2 ++ be16 8 ++ be32 1 ++ be32 0x400010 ++
  be32 52 ++ be32 0 ++ be32 0 ++ be16 52 ++ be16 32 ++ be16 2 ++ be16 0 ++ be16 0 ++ be16 0 ++
  be32 1 ++ be32 116 ++ be32 0x400010 ++ be32 0 ++ be32 4 ++ be32 10 ++ be32 5 ++ be32 4096 ++
  be32 1 ++ be32 120 ++ be32 0x10000000 ++ be32 0 ++ be32 2 ++ be32 5000 ++ be32 6 ++ be32 4096 ++
  [1; 2; 3; 4; 8; 9].
Definition demo_seg1 : Elf_Phdr := mk_phdr 1 116 0x400010 4 10 5.
Definition demo_seg2 : Elf_Phdr := mk_phdr 1 120 0x10000000 2 5000 6.

Lemma demo_elf_bytes : bytes_ok demo_elf.
Proof. repeat (apply Forall_cons_2; [split; [by vm_compute|by vm_compute]|]). apply Forall_nil. done. Qed.

Lemma demo_segments : segment_ok demo_seg1 /\ segment_ok demo_seg2.
Proof. split; split; decide_consts. Qed.

Lemma demo_elf_table : table_ok demo_elf (file_ehdr demo_elf).
Proof.
  intros i Hi. change (e_phnum (file_ehdr demo_elf)) with 2 in Hi.
  assert (i = 0 \/ i = 1) as [->| ->] by lia; (split; [|split; [|split; [|right]]]); decide_consts.
Qed.

(** A new process on the machine of [AddrSpaceSpec]. *)
Lemma demo_process : exists p vm live owner, vm_ok vm live owner /\ t_vmspace vm = Some p /\
  spaces vm !! p = Some (mk_as 0 0 0 0 0 0 0).
Proof.
  pose proof (as_create_ok small_vm ∅ ∅ small_vm_ok) as Hw. apply wp_done in Hw as (r & vm & Hrun & h & _ & Hr).
  assert (forall m, match as_create (vm_over m) with Done (Some _) _ => true | _ => false end = true) as Hb by (intros m; vm_compute; reflexivity).
  specialize (Hb small_mem). fold small_vm in Hb. rewrite Hrun in Hb. destruct r as [p|]; [|discriminate Hb].
  destruct Hr as (-> & _ & n & Hv).
  exists p, (set_t_vmspace (Some p) (with_space small_vm h p (mk_as 0 0 0 0 0 0 0))), (<[p:=n]> ∅), (<[p:=p]> ∅).
  split; [exact (vm_ok_cur _ _ _ _ Hv)|]. split; [reflexivity|apply lookup_insert_eq].
Qed.


Lemma load_elf_refuses_witness :
  exists e w', load_elf (H := memfile_io) [0x7f; 69; 76; 70] (small_vm, tt) = Done (inl e) (small_vm, w') /\ (e = ENOEXEC \/ False).
Proof.
  apply (load_elf_refuses (H := memfile_io) [0x7f; 69; 76; 70] [0x7f; 69; 76; 70] (fun _ => True) (fun _ => False) small_vm tt).
  - apply memfile_reads. unfold bytes_ok. repeat (apply Forall_cons_2; [unfold is_u8; lia|]). apply Forall_nil. exact Logic.I.
  - exact Logic.I.
  - left. reflexivity.
Defined.
