(* ===== verification/Emu.v ===== *)
(** * The emulator pass-through file system (kern/dev/lamebus/emu.c, emu.h, emufs.h).

    The card is a parameter: [emu_op] is what it does when an operation is written to
    its register, to its registers and its buffer; [None] is a card that never reports
    completion, which leaves the driver asleep ([OutOfFuel]). Above the hardware
    operations are the vnodes of the file system, of which the table [ef_vnodes] has one
    for each handle. [e_lock] is whether the current thread holds the lock: the
    operations run one at a time. *)

From stdpp Require Import base numbers list gmap.
From Stdlib Require Import ZArith Lia.
From S2P Require Import Prelude Mem CopyInOut Uio Array Vnode.

Definition EMU_MAXIO : Z := 16384.
Definition EMU_ROOTHANDLE : Z := 0.

Definition EMU_OP_OPEN : Z := 1.
Definition EMU_OP_CREATE : Z := 2.
Definition EMU_OP_EXCLCREATE : Z := 3.
Definition EMU_OP_CLOSE : Z := 4.
Definition EMU_OP_READ : Z := 5.
Definition EMU_OP_READDIR : Z := 6.
Definition EMU_OP_WRITE : Z := 7.
Definition EMU_OP_GETSIZE : Z := 8.
Definition EMU_OP_TRUNC : Z := 9.

Definition EMU_RES_SUCCESS : Z := 1.
Definition EMU_RES_BADHANDLE : Z := 2.
Definition EMU_RES_BADOP : Z := 3.
Definition EMU_RES_BADPATH : Z := 4.
Definition EMU_RES_BADSIZE : Z := 5.
Definition EMU_RES_EXISTS : Z := 6.
Definition EMU_RES_ISDIR : Z := 7.
Definition EMU_RES_MEDIA : Z := 8.
Definition EMU_RES_NOHANDLES : Z := 9.
Definition EMU_RES_NOSPACE : Z := 10.
Definition EMU_RES_NOTDIR : Z := 11.
Definition EMU_RES_UNKNOWN : Z := 12.
Definition EMU_RES_UNSUPP : Z := 13.

(** The registers, apart from the one that starts operations. *)
Record emu_regs : Type := mk_regs { REG_HANDLE : Z; REG_OFFSET : Z; REG_IOLEN : Z; REG_RESULT : Z }.

Class EmuCard (H : Type) : Type := { emu_op : H -> Z -> emu_regs -> list Z -> option (H * emu_regs * list Z) }.

Record emu_softc (H : Type) : Type := mk_emu {
  e_card : H;
  e_regs : emu_regs;
  e_iobuf : list Z;
  e_lock : bool;
  e_sem : Z;
  e_result : Z;
}.
Arguments mk_emu {H}.
Arguments e_card {H}.
Arguments e_regs {H}.
Arguments e_iobuf {H}.
Arguments e_lock {H}.
Arguments e_sem {H}.
Arguments e_result {H}.

Section hardware.
Context {H : Type} `{EmuCard H}.
Notation emu_softc := (emu_softc H).
Notation emuio := (emu_softc * uenv)%type.

Definition set_regs (r : emu_regs) (sc : emu_softc) : emu_softc :=
  mk_emu (e_card sc) r (e_iobuf sc) (e_lock sc) (e_sem sc) (e_result sc).
Definition set_iobuf (b : list Z) (sc : emu_softc) : emu_softc :=
  mk_emu (e_card sc) (e_regs sc) b (e_lock sc) (e_sem sc) (e_result sc).
Definition set_lock (b : bool) (sc : emu_softc) : emu_softc :=
  mk_emu (e_card sc) (e_regs sc) (e_iobuf sc) b (e_sem sc) (e_result sc).
Definition set_sem (n : Z) (sc : emu_softc) : emu_softc :=
  mk_emu (e_card sc) (e_regs sc) (e_iobuf sc) (e_lock sc) n (e_result sc).

Definition emu_rreg (reg : emu_regs -> Z) : M emu_softc Z := let! sc := get in ret (reg (e_regs sc)).
Definition wreg_handle (v : Z) : M emu_softc unit :=
  let! sc := get in
  let r := e_regs sc in
  put (set_regs (mk_regs (u32 v) (REG_OFFSET r) (REG_IOLEN r) (REG_RESULT r)) sc).
Definition wreg_offset (v : Z) : M emu_softc unit :=
  let! sc := get in
  let r := e_regs sc in
  put (set_regs (mk_regs (REG_HANDLE r) (u32 v) (REG_IOLEN r) (REG_RESULT r)) sc).
Definition wreg_iolen (v : Z) : M emu_softc unit :=
  let! sc := get in
  let r := e_regs sc in
  put (set_regs (mk_regs (REG_HANDLE r) (REG_OFFSET r) (u32 v) (REG_RESULT r)) sc).
Definition wreg_result (v : Z) : M emu_softc unit :=
  let! sc := get in
  let r := e_regs sc in
  put (set_regs (mk_regs (REG_HANDLE r) (REG_OFFSET r) (REG_IOLEN r) (u32 v)) sc).

(** [V(sc->e_sem)] counts up; nobody else sleeps on it. *)
Definition emu_irq : M emu_softc unit :=
  let! v := emu_rreg REG_RESULT in
  let! sc := get in
  do! put (mk_emu (e_card sc) (e_regs sc) (e_iobuf sc) (e_lock sc) (e_sem sc) v) in
  do! wreg_result 0 in
  let! sc := get in
  put (set_sem (e_sem sc + 1) sc).

(** Writing [REG_OPER]: the card carries out the operation and interrupts. *)
Definition wreg_oper (op : Z) : M emu_softc unit :=
  let! sc := get in
  match emu_op (e_card sc) op (e_regs sc) (e_iobuf sc) with
  | Some (h, r, b) =>
      do! put (mk_emu h r b (e_lock sc) (e_sem sc) (e_result sc)) in
      emu_irq
  | None => ret tt
  end.

Definition translate_err (code : Z) : E emu_softc unit :=
  if code =? EMU_RES_SUCCESS then ok tt
  else if (code =? EMU_RES_BADHANDLE) || (code =? EMU_RES_BADOP) || (code =? EMU_RES_BADSIZE) then panic
  else if code =? EMU_RES_BADPATH then fail ENOENT
  else if code =? EMU_RES_EXISTS then fail EEXIST
  else if code =? EMU_RES_ISDIR then fail EISDIR
  else if code =? EMU_RES_MEDIA then fail EIO
  else if code =? EMU_RES_NOHANDLES then fail ENFILE
  else if code =? EMU_RES_NOSPACE then fail ENOSPC
  else if code =? EMU_RES_NOTDIR then fail ENOTDIR
  else if code =? EMU_RES_UNKNOWN then fail EIO
  else if code =? EMU_RES_UNSUPP then fail EUNIMP
  else fail EAGAIN.

Definition emu_waitdone : E emu_softc unit :=
  let! sc := get in
  if 0 <? e_sem sc then
    do! put (set_sem (e_sem sc - 1) sc) in
    translate_err (e_result sc)
  else out_of_fuel.

(** [lock_acquire] panics on a lock the thread already holds, [lock_release] on one
    it does not hold. *)
Definition acquire : M emu_softc unit := let! sc := get in do! assert_ (negb (e_lock sc)) in put (set_lock true sc).
Definition release : M emu_softc unit := let! sc := get in do! assert_ (e_lock sc) in put (set_lock false sc).

(** ** Hardware operations *)

(** A new handle, and whether it is a directory's. *)
Definition emu_open (handle : Z) (name : list Z) (create excl : bool) : E emu_softc (Z * bool) :=
  if EMU_MAXIO <? lenZ name + 1 then fail ENAMETOOLONG
  else
    let op := if create && excl then EMU_OP_EXCLCREATE else if create then EMU_OP_CREATE else EMU_OP_OPEN in
    do! acquire in
    let! sc := get in
    do! put (set_iobuf (splice (e_iobuf sc) 0 (name ++ [0])) sc) in
    do! wreg_iolen (lenZ name) in
    do! wreg_handle handle in
    do! wreg_oper op in
    let! result := emu_waitdone in
    let! result :=
      (match result with
       | inl e => fail e
       | inr _ =>
           let! newhandle := emu_rreg REG_HANDLE in
           let! n := emu_rreg REG_IOLEN in
           ok (newhandle, 0 <? n)
       end) in
    do! release in
    ret result.

(** The loop of [emu_close], with [10 - retries] to go. *)
Fixpoint close_loop (n : nat) (handle : Z) : E emu_softc unit :=
  do! wreg_handle handle in
  do! wreg_oper EMU_OP_CLOSE in
  let! result := emu_waitdone in
  match result, n with
  | inl EIO, S n => close_loop n handle
  | _, _ => ret result
  end.

Definition emu_close (handle : Z) : E emu_softc unit :=
  let! sc := get in
  let mine := e_lock sc in
  do! (if mine then ret tt else acquire) in
  let! result := close_loop 10 handle in
  do! (if mine then ret tt else release) in
  ret result.

Definition on_emu {A} (m : M emu_softc A) : M emuio A := zoom fst (fun sc s => (sc, snd s)) m.
Definition get_request : M emuio uio := let! s := get in ret (xuio (snd s)).

(** [uiomove(sc->e_iobuf, n, uio)] *)
Definition move_iobuf (n : Z) : E emuio unit :=
  let! s := get in
  let! r := zoom snd (fun e s => (fst s, e)) (uiomove_on (e_iobuf (fst s)) 0 n) in
  let! s := get in
  do! put (set_iobuf (snd r) (fst s), snd s) in
  ret (fst r).

Definition emu_doread (handle len op : Z) : E emuio unit :=
  let! u := get_request in
  do! assert_ (bool_decide (uio_rw u = UIO_READ)) in
  do! on_emu acquire in
  do! on_emu (wreg_handle handle) in
  do! on_emu (wreg_iolen len) in
  do! on_emu (wreg_offset (uio_offset u)) in
  do! on_emu (wreg_oper op) in
  let! result := on_emu emu_waitdone in
  let! result :=
    (match result with
     | inl e => fail e
     | inr _ =>
         let! n := on_emu (emu_rreg REG_IOLEN) in
         let! result := move_iobuf n in
         let! off := on_emu (emu_rreg REG_OFFSET) in
         let! s := get in
         do! put (fst s, set_uio (snd s) (set_offset (xuio (snd s)) (s32 off))) in
         ret result
     end) in
  do! on_emu release in
  ret result.

Definition emu_read (handle len : Z) : E emuio unit := emu_doread handle len EMU_OP_READ.
Definition emu_readdir (handle len : Z) : E emuio unit := emu_doread handle len EMU_OP_READDIR.

Definition emu_write (handle len : Z) : E emuio unit :=
  let! u := get_request in
  do! assert_ (bool_decide (uio_rw u = UIO_WRITE)) in
  do! on_emu acquire in
  do! on_emu (wreg_handle handle) in
  do! on_emu (wreg_iolen len) in
  do! on_emu (wreg_offset (uio_offset u)) in
  let! result := move_iobuf len in
  let! result :=
    (match result with
     | inl e => fail e
     | inr _ =>
         do! on_emu (wreg_oper EMU_OP_WRITE) in
         on_emu emu_waitdone
     end) in
  do! on_emu release in
  ret result.

Definition emu_getsize (handle : Z) : E emu_softc Z :=
  do! acquire in
  do! wreg_handle handle in
  do! wreg_oper EMU_OP_GETSIZE in
  let! result := emu_waitdone in
  let! result :=
    (match result with
     | inl e => fail e
     | inr _ => let! n := emu_rreg REG_IOLEN in ok (s32 n)
     end) in
  do! release in
  ret result.

Definition emu_trunc (handle len : Z) : E emu_softc unit :=
  do! acquire in
  do! wreg_handle handle in
  do! wreg_iolen len in
  do! wreg_oper EMU_OP_TRUNC in
  let! result := emu_waitdone in
  do! release in
  ret result.
End hardware.

(** ** Vnodes *)

Record emufs_vnode : Type := mk_ev { ev_v : vnode; ev_handle : Z }.

(** Vnode pointers are keys of [ef_heap]. *)
Record emufs_fs (H : Type) : Type := mk_ef {
  ef_emu : emu_softc H;
  ef_root : option Z;
  ef_vnodes : array Z;
  ef_heap : gmap Z emufs_vnode;
}.
Arguments mk_ef {H}.
Arguments ef_emu {H}.
Arguments ef_root {H}.
Arguments ef_vnodes {H}.
Arguments ef_heap {H}.

(** Which of the allocations of [emufs_loadvnode] succeed: the vnode structure, its
    lock, and room in the table. *)
Record emu_memory : Type := mk_ememory { em_vnode : bool; em_lock : bool; em_table : bool }.

Section emufs.
Context {H : Type} `{EmuCard H}.
Notation fs := (emufs_fs H).
Notation fsio := (emufs_fs H * uenv)%type.

Definition set_emu (sc : emu_softc H) (s : fs) : fs := mk_ef sc (ef_root s) (ef_vnodes s) (ef_heap s).
Definition set_root (p : option Z) (s : fs) : fs := mk_ef (ef_emu s) p (ef_vnodes s) (ef_heap s).
Definition set_vnodes (a : array Z) (s : fs) : fs := mk_ef (ef_emu s) (ef_root s) a (ef_heap s).
Definition set_heap (h : gmap Z emufs_vnode) (s : fs) : fs := mk_ef (ef_emu s) (ef_root s) (ef_vnodes s) h.

Definition with_emu {A} (m : M (emu_softc H) A) : M fs A := zoom ef_emu set_emu m.
Definition with_emu_io {A} (m : M (emu_softc H * uenv) A) : M fsio A :=
  zoom (fun s => (ef_emu (fst s), snd s)) (fun t s => (set_emu (fst t) (fst s), snd t)) m.
Definition on_fs {A} (m : M fs A) : M fsio A := zoom fst (fun f s => (f, snd s)) m.
Definition on_vnodes {A} (m : M (array Z) A) : M fs A := zoom ef_vnodes set_vnodes m.

Definition get_ev (p : Z) : M fs emufs_vnode := let! s := get in of_option (ef_heap s !! p).
Definition get_vnode (p : Z) (s : fs) : option vnode := ev_v <$> ef_heap s !! p.
Definition set_vnode (p : Z) (v : vnode) (s : fs) : fs :=
  set_heap (alter (fun ev => mk_ev v (ev_handle ev)) p (ef_heap s)) s.
Definition kfree_ev (p : Z) : M fs unit := let! s := get in put (set_heap (delete p (ef_heap s)) s).

Definition VOP_INCREF (p : Z) : M fs unit := vnode_incref (get_vnode p) (set_vnode p).
Definition VOP_KILL (p : Z) : M fs unit := vnode_kill (get_vnode p) (set_vnode p).
Definition VOP_INIT (m : bool) (p handle : Z) (ops : vn_optable) : E fs unit :=
  match vnode_init m ops with
  | inl e => fail e
  | inr v => let! s := get in do! put (set_heap (<[p := mk_ev v handle]> (ef_heap s)) s) in ok tt
  end.

(** The search of the table for a handle. *)
Definition find_handle (handle : Z) : M fs (option Z) :=
  let! num := on_vnodes array_getnum in
  iterate (Z.to_nat num) 0 (fun i =>
    let! p := on_vnodes (array_getguy i) in
    let! ev := get_ev p in
    if ev_handle ev =? handle then
      do! VOP_INCREF p in
      ret (Some p)
    else ret None).

Definition emufs_loadvnode (m : emu_memory) (handle : Z) (isdir : bool) : E fs Z :=
  do! with_emu acquire in
  let! loaded := find_handle handle in
  match loaded with
  | Some p => do! with_emu release in ok p
  | None =>
      if negb (em_vnode m) then do! with_emu release in fail ENOMEM
      else
        let! s := get in
        let p := base.fresh (dom (ef_heap s)) in
        let! result := VOP_INIT (em_lock m) p handle (if isdir then emufs_dirops else emufs_fileops) in
        match result with
        | inl e => do! with_emu release in fail e
        | inr _ =>
            let! result := on_vnodes (array_add (em_table m) p) in
            match result with
            | inl e =>
                do! with_emu release in
                do! VOP_KILL p in
                do! kfree_ev p in
                fail e
            | inr _ => do! with_emu release in ok p
            end
        end
  end.

(** The index of the vnode in the table. *)
Definition find_ev (p : Z) : M fs (option Z) :=
  let! num := on_vnodes array_getnum in
  iterate (Z.to_nat num) 0 (fun i =>
    let! q := on_vnodes (array_getguy i) in
    ret (if bool_decide (q = p) then Some i else None)).

Definition emufs_reclaim (p : Z) : E fs unit :=
  let! ev := get_ev p in
  do! with_emu acquire in
  if negb (vn_refcount (ev_v ev) =? 1) then do! with_emu release in fail EBUSY
  else
    let! result := with_emu (emu_close (ev_handle ev)) in
    match result with
    | inl e => do! with_emu release in fail e
    | inr _ =>
        let! ix := find_ev p in
        match ix with
        | None => panic
        | Some ix =>
            do! on_vnodes (array_remove ix) in
            do! with_emu release in
            do! VOP_KILL p in
            do! kfree_ev p in
            ok tt
        end
    end.

Definition VOP_DECREF (p : Z) : M fs unit := vnode_decref (get_vnode p) (set_vnode p) (emufs_reclaim p).

(** ** Operations on files and directories *)

Definition emufs_open (openflags : Z) : E fs unit :=
  if negb (Z.land openflags O_APPEND =? 0) then fail EUNIMP else ok tt.

Definition emufs_opendir (openflags : Z) : E fs unit :=
  if negb (Z.land openflags O_ACCMODE =? O_RDONLY) then fail EISDIR
  else if negb (Z.land openflags O_APPEND =? 0) then fail EISDIR
  else ok tt.

Definition emufs_close : E fs unit := ok tt.

Definition request : M fsio uio := let! s := get in ret (xuio (snd s)).

(** [uio_resid], at most [EMU_MAXIO] of it. *)
Definition chunk (u : uio) : Z := if EMU_MAXIO <? uio_resid u then EMU_MAXIO else uio_resid u.

(** The loops of [emufs_read] and [emufs_write], which go on as long as something is
    left and something was moved. *)
Fixpoint io_loop (fuel : nat) (io : Z -> E (emu_softc H * uenv) unit) : E fsio unit :=
  let! u := request in
  if 0 <? uio_resid u then
    match fuel with
    | O => out_of_fuel
    | S fuel =>
        try! _ := with_emu_io (io (chunk u)) in
        let! u' := request in
        if uio_resid u' =? uio_resid u then ok tt else io_loop fuel io
    end
  else ok tt.

Definition emufs_read (p : Z) : E fsio unit :=
  let! ev := on_fs (get_ev p) in
  let! u := request in
  do! assert_ (bool_decide (uio_rw u = UIO_READ)) in
  io_loop (Z.to_nat (uio_resid u)) (emu_read (ev_handle ev)).

Definition emufs_getdirentry (p : Z) : E fsio unit :=
  let! ev := on_fs (get_ev p) in
  let! u := request in
  do! assert_ (bool_decide (uio_rw u = UIO_READ)) in
  with_emu_io (emu_readdir (ev_handle ev) (chunk u)).

Definition emufs_write (p : Z) : E fsio unit :=
  let! ev := on_fs (get_ev p) in
  let! u := request in
  do! assert_ (bool_decide (uio_rw u = UIO_WRITE)) in
  io_loop (Z.to_nat (uio_resid u)) (emu_write (ev_handle ev)).

Definition emufs_ioctl : E fs unit := fail EINVAL.
Definition emufs_file_gettype : E fs Z := ok S_IFREG.
Definition emufs_dir_gettype : E fs Z := ok S_IFDIR.
Definition emufs_tryseek (pos : Z) : E fs unit := if pos <? 0 then fail EINVAL else ok tt.
Definition emufs_fsync : E fs unit := ok tt.

Definition emufs_truncate (p len : Z) : E fs unit :=
  let! ev := get_ev p in with_emu (emu_trunc (ev_handle ev) len).

(** [emufs_creat] and [emufs_lookup]. *)
Definition open_and_load (m : emu_memory) (dir : Z) (name : list Z) (create excl : bool) : E fs Z :=
  let! ev := get_ev dir in
  try! r := with_emu (emu_open (ev_handle ev) name create excl) in
  let! newguy := emufs_loadvnode m r.1 r.2 in
  match newguy with
  | inl e => do! with_emu (emu_close r.1) in fail e
  | inr q => ok q
  end.
Definition emufs_creat (m : emu_memory) (dir : Z) (name : list Z) (excl : bool) : E fs Z := open_and_load m dir name true excl.
Definition emufs_lookup (m : emu_memory) (dir : Z) (pathname : list Z) : E fs Z := open_and_load m dir pathname false false.

(** The last slash of a path, from which the rest is the last component. *)
Fixpoint last_slash (path : list Z) : option (list Z * list Z) :=
  match path with
  | [] => None
  | c :: path =>
      match last_slash path with
      | Some (d, s) => Some (c :: d, s)
      | None => if c =? 47 then Some ([], path) else None
      end
  end.

(** Yields the directory and what is written to [buf], of [len] bytes. *)
Definition emufs_lookparent (m : emu_memory) (dir : Z) (pathname : list Z) (len : Z) : E fs (Z * list Z) :=
  match last_slash pathname with
  | None =>
      if len <? lenZ pathname + 1 then fail ENAMETOOLONG
      else do! VOP_INCREF dir in ok (dir, pathname)
  | Some (d, s) =>
      if len <? lenZ s + 1 then fail ENAMETOOLONG
      else try! q := emufs_lookup m dir d in ok (q, s)
  end.

Definition emufs_namefile (p : Z) : E fs unit :=
  let! s := get in
  if bool_decide (ef_root s = Some p) then ok tt else fail EUNIMP.

(** ** The tables [emufs_fileops] and [emufs_dirops] *)

(** The checks of [__VOP], and the entry of the table they lead to. *)
Definition entry {A} (p : Z) (file dir : E fs A) : E fs A :=
  let! v := vn_read (get_vnode p) in
  do! assert_ (vnode_check v vop_other) in
  match vn_ops v with
  | Some emufs_fileops => file
  | Some emufs_dirops => dir
  | _ => undef
  end.
Definition entry_io (p : Z) (file dir : E fsio unit) : E fsio unit :=
  let! v := on_fs (vn_read (get_vnode p)) in
  do! assert_ (vnode_check v vop_other) in
  match vn_ops v with
  | Some emufs_fileops => file
  | Some emufs_dirops => dir
  | _ => undef
  end.

Definition VOP_OPEN (p flags : Z) : E fs unit := entry p (emufs_open flags) (emufs_opendir flags).
Definition VOP_CLOSE (p : Z) : E fs unit := entry p emufs_close emufs_close.
Definition VOP_READ (p : Z) : E fsio unit := entry_io p (emufs_read p) (fail EISDIR).
Definition VOP_READLINK (p : Z) : E fsio unit := entry_io p (fail ENOTDIR) (fail EISDIR).
Definition VOP_GETDIRENTRY (p : Z) : E fsio unit := entry_io p (fail ENOTDIR) (emufs_getdirentry p).
Definition VOP_WRITE (p : Z) : E fsio unit := entry_io p (emufs_write p) (fail EISDIR).
Definition VOP_IOCTL (p : Z) : E fs unit := entry p emufs_ioctl emufs_ioctl.
Definition VOP_GETTYPE (p : Z) : E fs Z := entry p emufs_file_gettype emufs_dir_gettype.
Definition VOP_TRYSEEK (p pos : Z) : E fs unit := entry p (emufs_tryseek pos) (fail EUNIMP).
Definition VOP_FSYNC (p : Z) : E fs unit := entry p emufs_fsync (fail EISDIR).
Definition VOP_MMAP (p : Z) : E fs unit := entry p (fail EUNIMP) (fail EISDIR).
Definition VOP_TRUNCATE (p len : Z) : E fs unit := entry p (emufs_truncate p len) (fail EISDIR).
Definition VOP_NAMEFILE (p : Z) : E fs unit := entry p (fail ENOTDIR) (emufs_namefile p).
Definition VOP_CREAT (m : emu_memory) (p : Z) (name : list Z) (excl : bool) : E fs Z :=
  entry p (fail ENOTDIR) (emufs_creat m p name excl).
(** [symlink], [mkdir], [link], [remove], [rmdir] and [rename]. *)
Definition VOP_CHANGE (p : Z) : E fs unit := entry p (fail ENOTDIR) (fail EUNIMP).
Definition VOP_LOOKUP (m : emu_memory) (p : Z) (pathname : list Z) : E fs Z :=
  entry p (fail ENOTDIR) (emufs_lookup m p pathname).
Definition VOP_LOOKPARENT (m : emu_memory) (p : Z) (pathname : list Z) (len : Z) : E fs (Z * list Z) :=
  entry p (fail ENOTDIR) (emufs_lookparent m p pathname len).
Definition VOP_INCOPEN (p : Z) : M fs unit := vnode_incopen (get_vnode p) (set_vnode p).
Definition VOP_DECOPEN (p : Z) : M fs unit := vnode_decopen (get_vnode p) (set_vnode p) (VOP_CLOSE p).

Definition emufs_stat (p : Z) : E fs stat :=
  try! mode := VOP_GETTYPE p in
  let! ev := get_ev p in
  try! size := with_emu (emu_getsize (ev_handle ev)) in
  ok (mk_stat mode 1 size 0).
Definition VOP_STAT (p : Z) : E fs stat := entry p (emufs_stat p) (emufs_stat p).

(** ** The file system *)

Definition emufs_sync : E fs unit := ok tt.
Definition emufs_getvolname : M fs (option (list Z)) := ret None.
Definition emufs_getroot : M fs Z :=
  let! s := get in
  match ef_root s with
  | Some p => do! VOP_INCREF p in ret p
  | None => panic
  end.
Definition emufs_unmount : E fs unit := fail EBUSY.
End emufs.

(** [emufs_addtovfs]. The arguments say which allocations succeed ([emufs_fs] itself, its
    array, those of the root's vnode), and what [vfs_addfs] does with the result. *)
Definition emufs_addtovfs {H} `{EmuCard H} (m_ef m_array : bool) (m : emu_memory)
    (vfs_addfs : errno + unit) : E (emu_softc H) (emufs_fs H) :=
  fun sc =>
    if negb m_ef then Done (inl ENOMEM) sc
    else
      match array_create (A := Z) m_array tt with
      | Done (Some a) _ =>
          match emufs_loadvnode m EMU_ROOTHANDLE true (mk_ef sc None a ∅) with
          | Done (inl e) s => Done (inl e) (ef_emu s)
          | Done (inr root) s =>
              match vfs_addfs with
              | inr _ => Done (inr (set_root (Some root) s)) (ef_emu s)
              | inl e =>
                  match VOP_DECREF root (set_root (Some root) s) with
                  | Done _ s => Done (inl e) (ef_emu s)
                  | Panic => Panic
                  | Undef => Undef
                  | OutOfFuel => OutOfFuel
                  end
              end
          | Panic => Panic
          | Undef => Undef
          | OutOfFuel => OutOfFuel
          end
      | _ => Done (inl ENOMEM) sc
      end.

(** [config_emu] up to [emufs_addtovfs]: [m1] and [m2] say whether the lock and the
    semaphore could be created; [iobuf] is the card's buffer. *)
Definition config_emu {H} `{EmuCard H} (h : H) (iobuf : list Z) (m1 m2 : bool) (m_ef m_array : bool) (m : emu_memory)
    (vfs_addfs : errno + unit) : outcome (emu_softc H) (errno + emufs_fs H) :=
  let sc := mk_emu h (mk_regs 0 0 0 0) iobuf false 0 0 in
  if negb m1 then Done (inl ENOMEM) sc
  else if negb m2 then Done (inl ENOMEM) sc
  else emufs_addtovfs m_ef m_array m vfs_addfs sc.
