(* ===== verification/EmuSpec.v ===== *)
(** * What the emulator pass-through file system promises.

    The card gives access to a host: files, and handles open on them. [HostCard] states
    what the operations of the card do to the host, whatever else they may do: an
    operation succeeds, or fails with a result code the driver can pass on. Reading and
    writing through the file system move the bytes of the host's file; and the handles
    open on the card are those of the vnodes in the table, each vnode being counted once
    for every reference its users have. *)

From stdpp Require Import base numbers list gmap.
From Stdlib Require Import ZArith Lia.
From S2P Require Import Prelude Mem CopyInOut Uio Array Vnode Emu.

(** ** The host *)

(** The file each open handle is of, and the bytes of the files. *)
Record host : Type := mk_host { hd_file : gmap Z Z; hf_data : gmap Z (list Z) }.

(** The bytes to be had at an offset. *)
Definition host_read (c : list Z) (off len : Z) : list Z := slice c off (Z.min len (Z.max 0 (lenZ c - off))).

(** A file after a write, which fills a gap with zeros. *)
Definition host_write (c : list Z) (off : Z) (xs : list Z) : list Z :=
  match xs with
  | [] => c
  | _ => splice (c ++ replicate (Z.to_nat (off + lenZ xs - lenZ c)) 0) off xs
  end.

Definition host_resize (c : list Z) (len : Z) : list Z :=
  take (Z.to_nat len) (c ++ replicate (Z.to_nat (len - lenZ c)) 0).

Definition set_data (f : Z) (c : list Z) (w : host) : host := mk_host (hd_file w) (<[f := c]> (hf_data w)).

(** Result codes of failures that are not the driver's own mistakes. *)
Definition fails (code : Z) : Prop :=
  code <> EMU_RES_SUCCESS /\ code <> EMU_RES_BADHANDLE /\ code <> EMU_RES_BADOP /\ code <> EMU_RES_BADSIZE.

Definition opens (op : Z) : Prop := op = EMU_OP_OPEN \/ op = EMU_OP_CREATE \/ op = EMU_OP_EXCLCREATE.

(** ** Bytes of a file *)

Lemma lenZ_host_read c off len : 0 <= off -> 0 <= len -> lenZ (host_read c off len) = Z.min len (Z.max 0 (lenZ c - off)).
Proof.
  intros Ho Hl. unfold host_read. pose proof (lenZ_nonneg c).
  destruct (Z.le_gt_cases off (lenZ c)); [apply lenZ_slice; lia|].
  replace (Z.min len (Z.max 0 (lenZ c - off))) with 0 by lia. by rewrite slice_nil.
Qed.

(** Reading in two steps, of which the first may have met the end. *)
Lemma host_read_split c off k n : 0 <= off -> 0 <= k <= n ->
  host_read c off n = host_read c off k ++ host_read c (off + lenZ (host_read c off k)) (n - lenZ (host_read c off k)).
Proof.
  intros Ho Hk. pose proof (lenZ_nonneg c). rewrite (lenZ_host_read c off k) by lia.
  unfold host_read. set (a := Z.min k (Z.max 0 (lenZ c - off))).
  set (b := Z.min (n - a) (Z.max 0 (lenZ c - (off + a)))).
  replace (Z.min n (Z.max 0 (lenZ c - off))) with (a + b) by lia.
  destruct (Z.le_gt_cases off (lenZ c)); [by rewrite slice_app by lia|].
  replace a with 0 by lia. replace b with 0 by lia. by rewrite !slice_nil.
Qed.

Lemma slice_splice_eq {A} (l xs : list A) off : 0 <= off -> off + lenZ xs <= lenZ l -> slice (splice l off xs) off (lenZ xs) = xs.
Proof.
  intros Ho Hl. pose proof (lenZ_nonneg xs). apply nthZ_ext; rewrite lenZ_slice; rewrite ?lenZ_splice by lia; try lia.
  intros i Hi. rewrite nthZ_slice, nthZ_splice, bool_decide_true by lia. f_equal. lia.
Qed.

(** The file with room up to [n]. *)
Definition extend (c : list Z) (n : Z) : list Z := c ++ replicate (Z.to_nat (n - lenZ c)) 0.

Lemma lenZ_extend c n : lenZ (extend c n) = Z.max (lenZ c) n.
Proof. unfold extend. rewrite lenZ_app, lenZ_replicate. lia. Qed.

Lemma nthZ_extend c n i : 0 <= i < Z.max (lenZ c) n -> nthZ (extend c n) i = Some (default 0 (nthZ c i)).
Proof.
  intros Hi. unfold extend. destruct (Z.lt_ge_cases i (lenZ c)).
  - rewrite nthZ_app_l by lia. destruct (nthZ_is_Some c i) as [x Hx]; [lia|]. by rewrite Hx.
  - rewrite (proj2 (nthZ_None c i)) by lia. simpl. rewrite nthZ_to_nat by lia. unfold lenZ in *.
    rewrite lookup_app_r by lia. apply lookup_replicate_2. lia.
Qed.

Lemma host_write_cons c off x xs : host_write c off (x :: xs) = splice (extend c (off + lenZ (x :: xs))) off (x :: xs).
Proof. done. Qed.

Lemma lenZ_host_write c off xs : 0 <= off -> xs <> [] -> lenZ (host_write c off xs) = Z.max (lenZ c) (off + lenZ xs).
Proof.
  intros Ho Hx. destruct xs as [|x xs]; [done|]. rewrite host_write_cons, lenZ_splice; rewrite ?lenZ_extend; lia.
Qed.

Lemma nthZ_host_write c off xs i : 0 <= off -> xs <> [] -> 0 <= i < Z.max (lenZ c) (off + lenZ xs) ->
  nthZ (host_write c off xs) i = Some (if bool_decide (off <= i < off + lenZ xs) then default 0 (nthZ xs (i - off)) else default 0 (nthZ c i)).
Proof.
  intros Ho Hx Hi. destruct xs as [|x xs]; [done|]. rewrite host_write_cons, nthZ_splice by (rewrite ?lenZ_extend; lia).
  case_bool_decide as Hb; [|by apply nthZ_extend].
  destruct (nthZ_is_Some (x :: xs) (i - off)) as [y Hy]; [lia|]. by rewrite Hy.
Qed.

Lemma host_write_app c off xs ys : 0 <= off -> host_write (host_write c off xs) (off + lenZ xs) ys = host_write c off (xs ++ ys).
Proof.
  intros Ho. destruct (decide (xs = [])) as [->|Hx]; [by rewrite Z.add_0_r|].
  destruct (decide (ys = [])) as [->|Hy]; [by rewrite app_nil_r|].
  assert (xs ++ ys <> []) as Hxy by (by destruct xs).
  pose proof (lenZ_nonneg xs). pose proof (lenZ_nonneg ys). apply nthZ_ext.
  - rewrite !lenZ_host_write, lenZ_app by (done || lia). lia.
  - intros i. rewrite !lenZ_host_write by (done || lia). intros Hi.
    rewrite (nthZ_host_write (host_write c off xs)) by (rewrite ?lenZ_host_write by (done || lia); done || lia).
    rewrite (nthZ_host_write c off (xs ++ ys)) by (rewrite ?lenZ_app; done || lia). rewrite lenZ_app.
    f_equal. repeat case_bool_decide; try lia.
    + f_equal. rewrite !nthZ_to_nat by lia. unfold lenZ in *. rewrite lookup_app_r by lia. f_equal. lia.
    + rewrite nthZ_host_write by (done || lia). rewrite bool_decide_true by lia. simpl. by rewrite nthZ_app_l by lia.
    + destruct (Z.lt_ge_cases i (Z.max (lenZ c) (off + lenZ xs))).
      * rewrite nthZ_host_write by (done || lia). by rewrite bool_decide_false by lia.
      * rewrite (proj2 (nthZ_None (host_write c off xs) i)), (proj2 (nthZ_None c i)); [done|lia|].
        rewrite lenZ_host_write by (done || lia). lia.
Qed.

Lemma set_data_set_data f c c' w : set_data f c (set_data f c' w) = set_data f c w.
Proof. unfold set_data. simpl. by rewrite insert_insert_eq. Qed.

Lemma set_data_id f c w : hf_data w !! f = Some c -> set_data f c w = w.
Proof. intros Hc. unfold set_data. rewrite insert_id by done. by destruct w. Qed.

(** ** The card *)

Section laws.
Context {H : Type} `{EmuCard H} (host_of : H -> host) (mishaps : H -> nat).

(** The operation completes, leaves a buffer of the same size, and has the effect [Q]. *)
Definition completes (h : H) (op : Z) (r : emu_regs) (b : list Z) (Q : H -> emu_regs -> list Z -> Prop) : Prop :=
  exists h' r' b', emu_op h op r b = Some (h', r', b') /\ lenZ b' = lenZ b /\
    (REG_RESULT r' = EMU_RES_SUCCESS /\ Q h' r' b' \/ fails (REG_RESULT r') /\ host_of h' = host_of h).

(** A handle, open on the file already if it is not new. *)
Definition opened (w w' : host) (n : Z) : Prop :=
  exists f, is_u32 n /\ (hd_file w !! n = None \/ hd_file w !! n = Some f) /\
    hd_file w' = <[n := f]> (hd_file w) /\ hf_data w ⊆ hf_data w' /\ is_Some (hf_data w' !! f) /\
    Z.of_nat (size (hd_file w')) < max_guys.

Definition did_read (h : H) (r : emu_regs) (c : list Z) (h' : H) (r' : emu_regs) (b' : list Z) : Prop :=
  let xs := host_read c (REG_OFFSET r) (REG_IOLEN r) in
  host_of h' = host_of h /\ REG_IOLEN r' = lenZ xs /\ REG_OFFSET r' = REG_OFFSET r + lenZ xs /\ slice b' 0 (lenZ xs) = xs.

(** [mishaps] counts the I/O errors the host has in store for closing. *)
Definition closes (h : H) (r : emu_regs) (b : list Z) : Prop :=
  exists h' r' b', emu_op h EMU_OP_CLOSE r b = Some (h', r', b') /\ lenZ b' = lenZ b /\
    (REG_RESULT r' = EMU_RES_SUCCESS /\ mishaps h = 0%nat /\
       host_of h' = mk_host (delete (REG_HANDLE r) (hd_file (host_of h))) (hf_data (host_of h))
     \/ REG_RESULT r' = EMU_RES_MEDIA /\ mishaps h = S (mishaps h') /\ host_of h' = host_of h).

(** Operations on an open handle. *)
Record host_laws : Prop := {
  law_open h op r b : opens op -> is_Some (hd_file (host_of h) !! REG_HANDLE r) ->
    completes h op r b (fun h' r' _ => opened (host_of h) (host_of h') (REG_HANDLE r'));
  law_close h r b : is_Some (hd_file (host_of h) !! REG_HANDLE r) -> closes h r b;
  law_read h r b f c : hd_file (host_of h) !! REG_HANDLE r = Some f -> hf_data (host_of h) !! f = Some c ->
    REG_IOLEN r <= EMU_MAXIO -> lenZ b = EMU_MAXIO ->
    completes h EMU_OP_READ r b (did_read h r c);
  law_readdir h r b : is_Some (hd_file (host_of h) !! REG_HANDLE r) -> REG_IOLEN r <= EMU_MAXIO -> lenZ b = EMU_MAXIO ->
    completes h EMU_OP_READDIR r b (fun h' r' _ => host_of h' = host_of h /\ 0 <= REG_IOLEN r' <= REG_IOLEN r);
  law_write h r b f c : hd_file (host_of h) !! REG_HANDLE r = Some f -> hf_data (host_of h) !! f = Some c ->
    REG_IOLEN r <= EMU_MAXIO -> lenZ b = EMU_MAXIO ->
    completes h EMU_OP_WRITE r b (fun h' _ _ =>
      host_of h' = set_data f (host_write c (REG_OFFSET r) (slice b 0 (REG_IOLEN r))) (host_of h));
  law_getsize h r b f c : hd_file (host_of h) !! REG_HANDLE r = Some f -> hf_data (host_of h) !! f = Some c ->
    completes h EMU_OP_GETSIZE r b (fun h' r' _ => host_of h' = host_of h /\ REG_IOLEN r' = u32 (lenZ c));
  law_trunc h r b f c : hd_file (host_of h) !! REG_HANDLE r = Some f -> hf_data (host_of h) !! f = Some c ->
    completes h EMU_OP_TRUNC r b (fun h' _ _ => host_of h' = set_data f (host_resize c (REG_IOLEN r)) (host_of h));
}.
End laws.

(** A card with a host behind it. *)
Class HostCard (H : Type) `{EmuCard H} : Type := {
  host_of : H -> host;
  mishaps : H -> nat;
  host_ok : host_laws host_of mishaps;
}.

(** ** The commands of the driver *)

Section commands.
Context {H : Type} `{HostCard H}.
Notation emu_softc := (emu_softc H).
Implicit Types (sc : emu_softc).

(** Between the calls of the driver. *)
Record ready (sc : emu_softc) : Prop := {
  rd_lock : e_lock sc = false;
  rd_sem : e_sem sc = 0;
  rd_buf : lenZ (e_iobuf sc) = EMU_MAXIO;
}.

Definition host_at (sc : emu_softc) : host := host_of (e_card sc).

(** The device once a command has completed. *)
Definition completed (sc : emu_softc) (h : H) (r : emu_regs) (b : list Z) : emu_softc :=
  mk_emu h (mk_regs (REG_HANDLE r) (REG_OFFSET r) (REG_IOLEN r) 0) b (e_lock sc) (e_sem sc + 1) (REG_RESULT r).

Lemma wreg_oper_run sc op h r b : emu_op (e_card sc) op (e_regs sc) (e_iobuf sc) = Some (h, r, b) ->
  wreg_oper op sc = Done tt (completed sc h r b).
Proof. intros Hop. unfold wreg_oper, bind, get. by rewrite Hop. Qed.

Lemma emu_waitdone_run sc : e_sem sc = 0 -> forall h r b,
  emu_waitdone (completed sc h r b) = translate_err (REG_RESULT r) (set_sem 0 (completed sc h r b)).
Proof. intros Hs h r b. unfold emu_waitdone, bind, get. simpl. by rewrite Hs. Qed.

Lemma translate_success (sc : emu_softc) code : code = EMU_RES_SUCCESS -> translate_err code sc = Done (inr tt) sc.
Proof. by intros ->. Qed.

Lemma translate_fails (sc : emu_softc) code : fails code -> exists e, translate_err code sc = Done (inl e) sc.
Proof.
  intros (? & ? & ? & ?). unfold translate_err.
  rewrite !(proj2 (Z.eqb_neq _ _)) by done. simpl.
  repeat case_match; by eexists.
Qed.

(** A command that completes, and the wait for it. *)
Lemma command_wp op sc Q (P : errno + unit -> emu_softc -> Prop) :
  e_sem sc = 0 -> completes host_of (e_card sc) op (e_regs sc) (e_iobuf sc) Q ->
  (forall h r b, lenZ b = lenZ (e_iobuf sc) -> Q h r b -> P (inr tt) (set_sem 0 (completed sc h r b))) ->
  (forall e h r b, lenZ b = lenZ (e_iobuf sc) -> host_of h = host_at sc ->
     P (inl e) (set_sem 0 (completed sc h r b))) ->
  wp (do! wreg_oper op in emu_waitdone) P sc.
Proof.
  intros Hs (h & r & b & Hop & Hb & Hres) Hok Hfail. unfold wp. rewrite (bind_done _ _ _ _ _ (wreg_oper_run _ _ _ _ _ Hop)).
  rewrite emu_waitdone_run by done. destruct Hres as [[Hr HQ]|[Hr Hh]].
  - rewrite translate_success by done. by apply Hok.
  - destruct (translate_fails (set_sem 0 (completed sc h r b)) _ Hr) as [e He]. rewrite He. by apply Hfail.
Qed.

Lemma wp_then {S A B C} (m : M S A) (n : M S B) (k : B -> M S C) Q s :
  wp (do! m in n) (fun b => wp (k b) Q) s -> wp (do! m in let! b := n in k b) Q s.
Proof. rewrite !wp_bind. intros Hw. eapply wp_mono; [exact Hw|]. intros a s'. by rewrite wp_bind. Qed.

Lemma wp_on_emu {A} (m : M emu_softc A) Q (s : emu_softc * uenv) :
  wp m (fun a sc => Q a (sc, snd s)) (fst s) -> wp (on_emu m) Q s.
Proof. unfold on_emu. by rewrite wp_zoom. Qed.

Lemma wp_on_emu_then {A B} (m : M emu_softc A) (n : M emu_softc B) Q (s : emu_softc * uenv) :
  wp (do! m in n) (fun a sc => Q a (sc, snd s)) (fst s) -> wp (do! on_emu m in on_emu n) Q s.
Proof. rewrite !wp_bind. intros Hw. apply wp_on_emu. eapply wp_mono; [exact Hw|]. intros a sc Hn. by apply wp_on_emu. Qed.

(** Steps up to the next command. *)
Ltac emu_step :=
  lazymatch goal with
  | |- wp (bind (wreg_oper _) _) _ _ => fail
  | |- wp (bind (on_emu (wreg_oper _)) _) _ _ => fail
  | |- wp (on_emu _) _ _ => apply wp_on_emu
  | |- wp (acquire) _ _ => unfold acquire
  | |- wp (release) _ _ => unfold release
  | |- wp (wreg_handle _) _ _ => unfold wreg_handle
  | |- wp (wreg_iolen _) _ _ => unfold wreg_iolen
  | |- wp (wreg_offset _) _ _ => unfold wreg_offset
  | |- wp (emu_rreg _) _ _ => unfold emu_rreg
  | |- wp get_request _ _ => unfold get_request
  | |- _ => wp_step
  end; cbv beta; simpl.
Ltac emu_steps := repeat emu_step.

(** ** Transfers *)

(** A request after the bytes [xs] were delivered to it, or taken from it. *)
Definition delivered (e : uenv) (obj : list Z) (off : Z) (xs : list Z) : uenv :=
  set_uio e (advanced (xuio e) (lenZ xs) (un_kbase (splice obj off xs) (off + lenZ xs))).
Definition taken (e : uenv) (obj : list Z) (off n : Z) : uenv :=
  set_uio e (advanced (xuio e) n (un_kbase obj (off + n))).

Lemma move_iobuf_run n sc (e : uenv) obj off :
  kernel_uio (xuio e) obj off -> can_move (xuio e) n -> n <= lenZ (e_iobuf sc) ->
  move_iobuf n (sc, e) =
  Done (inr tt) (set_iobuf (moved_buf (uio_rw (xuio e)) (e_iobuf sc) obj 0 off n) sc,
    set_uio e (advanced (xuio e) n (un_kbase (moved_obj (uio_rw (xuio e)) (e_iobuf sc) obj 0 off n) (off + n)))).
Proof.
  intros Hk Hc Hn. unfold move_iobuf, bind, get, zoom, uiomove_on. simpl.
  rewrite (uiomove_kernel 0 n (e_iobuf sc) e obj off) by (done || lia). done.
Qed.

Lemma emu_read_wp handle len sc (e : uenv) f c obj off :
  ready sc -> is_u32 handle -> hd_file (host_at sc) !! handle = Some f -> hf_data (host_at sc) !! f = Some c ->
  uio_rw (xuio e) = UIO_READ -> kernel_uio (xuio e) obj off -> can_move (xuio e) len ->
  0 <= uio_offset (xuio e) -> len <= EMU_MAXIO ->
  wp (emu_read handle len)
    (fun r s => ready (fst s) /\ host_at (fst s) = host_at sc /\
       match r with
       | inl _ => snd s = e
       | inr _ => snd s = delivered e obj off (host_read c (uio_offset (xuio e)) len)
       end) (sc, e).
Proof.
  intros [Hl Hs Hb] Hh Hf Hd Hrw Hk Hc Ho Hlen. pose proof Hc as (Hn & _ & Hr & _ & Hoff & Hoff').
  unfold is_u32, is_s32 in *.
  unfold emu_read, emu_doread. emu_steps. rewrite Hrw. split; [done|]. emu_steps. rewrite Hl. split; [done|].
  emu_steps. apply wp_then, wp_on_emu_then. rewrite !u32_id by (unfold is_u32; lia). eapply command_wp; simpl.
  - done.
  - eapply (law_read _ _ host_ok); simpl; done.
  - intros h r b Hlb (Hh1 & Hio & Hof & Hxs). simpl in *. set (xs := host_read c (uio_offset (xuio e)) len) in *.
    pose proof (lenZ_host_read c (uio_offset (xuio e)) len ltac:(lia) ltac:(lia)) as Hlx. fold xs in Hlx.
    emu_steps. eapply wp_of_eq.
    { apply (move_iobuf_run (REG_IOLEN r) _ e obj off); [done|rewrite Hio; eapply can_move_le; [done|lia]|simpl; rewrite Hio; lia]. }
    emu_steps. rewrite Hrw. simpl.
    split; [by split; simpl; [done|done|rewrite Hlb]|]. split; [done|].
    rewrite Hio, Hof, Hxs. unfold delivered, set_offset, advanced. simpl. rewrite s32_id; [done|]. unfold is_s32. lia.
  - intros er h r b Hlb Hh1. emu_steps.
    split; [by split; simpl; [done|done|rewrite Hlb]|]. split; [exact Hh1|]. done.
Qed.

Lemma emu_write_wp handle len sc (e : uenv) f c obj off :
  ready sc -> is_u32 handle -> hd_file (host_at sc) !! handle = Some f -> hf_data (host_at sc) !! f = Some c ->
  uio_rw (xuio e) = UIO_WRITE -> kernel_uio (xuio e) obj off -> can_move (xuio e) len ->
  0 <= uio_offset (xuio e) -> len <= EMU_MAXIO ->
  wp (emu_write handle len)
    (fun r s => ready (fst s) /\ snd s = taken e obj off len /\
       host_at (fst s) =
       match r with
       | inl _ => host_at sc
       | inr _ => set_data f (host_write c (uio_offset (xuio e)) (slice obj off len)) (host_at sc)
       end) (sc, e).
Proof.
  intros [Hl Hs Hb] Hh Hf Hd Hrw Hk Hc Ho Hlen. pose proof Hc as (Hn & Hi & Hr & _ & Hoff & Hoff').
  pose proof Hk as [_ _ _ Hoff0 Hfit]. unfold is_u32, is_s32 in *.
  assert (lenZ (slice obj off len) = len) as Hls by (apply lenZ_slice; lia).
  unfold emu_write. emu_steps. rewrite Hrw. split; [done|]. emu_steps. rewrite Hl. split; [done|].
  emu_steps. rewrite !u32_id by (unfold is_u32; lia). eapply wp_of_eq.
  { apply (move_iobuf_run len _ e obj off); [done|done|simpl; lia]. }
  rewrite Hrw. simpl. rewrite wp_bind. apply wp_on_emu_then. eapply command_wp; simpl.
  - done.
  - eapply (law_write _ _ host_ok); simpl; [done|done|done|]. rewrite lenZ_splice; lia.
  - intros h r b Hlb Hh1. rewrite lenZ_splice in Hlb by lia. emu_steps.
    split; [by split; simpl; [done|done|rewrite Hlb]|]. split; [done|]. simpl in Hh1.
    pose proof (slice_splice_eq (e_iobuf sc) (slice obj off len) 0 ltac:(lia) ltac:(lia)) as Heq.
    rewrite Hls in Heq. rewrite Heq in Hh1. exact Hh1.
  - intros er h r b Hlb Hh1. rewrite lenZ_splice in Hlb by lia. emu_steps.
    split; [by split; simpl; [done|done|rewrite Hlb]|]. done.
Qed.

(** ** Whole requests *)

Lemma with_emu_io_wp {A} (m : M (emu_softc * uenv) A) Q (s : emufs_fs H * uenv) :
  wp m (fun a t => Q a (set_emu (fst t) (fst s), snd t)) (ef_emu (fst s), snd s) -> wp (with_emu_io m) Q s.
Proof. unfold with_emu_io. by rewrite wp_zoom. Qed.

Lemma delivered_delivered (e : uenv) obj off xs ys : 0 <= off -> off + lenZ xs + lenZ ys <= lenZ obj ->
  delivered (delivered e obj off xs) (splice obj off xs) (off + lenZ xs) ys = delivered e obj off (xs ++ ys).
Proof.
  intros Ho Hl. unfold delivered. simpl. rewrite advanced_advanced, splice_splice, lenZ_app, Z.add_assoc by lia. done.
Qed.

Lemma delivered_nil (e : uenv) obj off : kernel_uio (xuio e) obj off -> delivered e obj off [] = e.
Proof.
  intros [Hb _ _ _ _]. unfold delivered. simpl.
  rewrite splice_nil, Z.add_0_r, advanced_0, set_uio_id by done. done.
Qed.

Lemma taken_0 (e : uenv) obj off : kernel_uio (xuio e) obj off -> taken e obj off 0 = e.
Proof. intros [Hb _ _ _ _]. unfold taken. rewrite Z.add_0_r, advanced_0, set_uio_id by done. done. Qed.

Lemma chunk_range u : 0 <= uio_resid u -> 0 <= chunk u <= uio_resid u /\ chunk u <= EMU_MAXIO /\ (0 < uio_resid u -> 0 < chunk u).
Proof. unfold chunk, EMU_MAXIO. intros. destruct (Z.ltb_spec 16384 (uio_resid u)); lia. Qed.

(** A file the handle is open on. *)
Record at_file (sc : emu_softc) (handle f : Z) (c : list Z) : Prop := {
  af_ready : ready sc;
  af_handle : is_u32 handle;
  af_file : hd_file (host_at sc) !! handle = Some f;
  af_data : hf_data (host_at sc) !! f = Some c;
}.

(** What reading does to the file system and the request. *)
Definition read_result (c : list Z) (s : emufs_fs H) (e : uenv) (obj : list Z) (off : Z)
    (r : errno + unit) (t : emufs_fs H * uenv) : Prop :=
  let all := host_read c (uio_offset (xuio e)) (uio_resid (xuio e)) in
  exists sc xs, t = (set_emu sc s, delivered e obj off xs) /\ ready sc /\ host_at sc = host_at (ef_emu s) /\
    xs `prefix_of` all /\ (r = inr tt -> xs = all).

Lemma read_result_nil c s (e : uenv) obj off sc r : ready sc -> host_at sc = host_at (ef_emu s) ->
  kernel_uio (xuio e) obj off -> (r = inr tt -> host_read c (uio_offset (xuio e)) (uio_resid (xuio e)) = []) ->
  read_result c s e obj off r (set_emu sc s, e).
Proof.
  intros Hr Hh Hk Hx. exists sc, []. rewrite delivered_nil by done.
  split; [done|]. split; [done|]. split; [done|]. split; [apply prefix_nil|]. intros Hr'. by rewrite Hx.
Qed.

Lemma set_emu_id (s : emufs_fs H) : set_emu (ef_emu s) s = s.
Proof. by destruct s. Qed.

Lemma host_read_nothing c off n : 0 <= off -> (n <= 0 \/ lenZ c <= off) -> host_read c off n = [].
Proof.
  intros Ho Hn. unfold host_read, slice. by replace (Z.to_nat (n `min` _)) with 0%nat by lia.
Qed.

Lemma read_loop_wp handle f c : forall fuel s (e : uenv) obj off,
  at_file (ef_emu s) handle f c -> uio_rw (xuio e) = UIO_READ -> kernel_uio (xuio e) obj off ->
  can_move (xuio e) (uio_resid (xuio e)) -> 0 <= uio_offset (xuio e) -> uio_resid (xuio e) <= Z.of_nat fuel ->
  wp (io_loop fuel (emu_read handle)) (read_result c s e obj off) (s, e).
Proof.
  induction fuel as [|fuel IH]; intros s e obj off [Hready Hh Hf Hd] Hrw Hk Hc Ho Hfuel;
    pose proof Hc as (Hn & Hi & _); cbn [io_loop]; unfold request; wp_steps; simpl;
    destruct (Z.ltb_spec 0 (uio_resid (xuio e))) as [Hpos|Hz]; try lia;
    try (rewrite <- (set_emu_id s) at 2; apply read_result_nil; try done; intros _; apply host_read_nothing; lia).
  wp_steps. apply with_emu_io_wp. destruct (chunk_range (xuio e)) as (Hch & Hmax & Hch0); [lia|].
  pose proof Hk as [_ _ _ Hoff Hfit].
  eapply wp_mono; [eapply (emu_read_wp handle (chunk (xuio e))); try done; eapply can_move_le; [done|lia]|].
  intros [er|[]] [sc' e'] (Hready' & Hhost & He'); simpl in *; subst e'.
  { apply read_result_nil; done. }
  set (xs := host_read c (uio_offset (xuio e)) (chunk (xuio e))) in *.
  pose proof (lenZ_host_read c (uio_offset (xuio e)) (chunk (xuio e)) ltac:(lia) ltac:(lia)) as Hlx. fold xs in Hlx.
  pose proof (host_read_split c (uio_offset (xuio e)) (chunk (xuio e)) (uio_resid (xuio e)) ltac:(lia) ltac:(lia)) as Hsplit.
  fold xs in Hsplit.
  wp_steps. simpl. destruct (Z.eqb_spec (uio_resid (xuio e) - lenZ xs) (uio_resid (xuio e))) as [Heq|Hne].
  { wp_steps. assert (xs = []) as Hxs by (destruct xs; [done|unfold lenZ in Heq; simpl in Heq; lia]).
    rewrite Hxs in *. rewrite delivered_nil by done. apply read_result_nil; [done|done|done|].
    intros _. apply host_read_nothing; [done|]. change (lenZ []) with 0 in Hlx. lia. }
  set (e1 := delivered e obj off xs).
  eapply wp_mono; [apply (IH (set_emu sc' s) e1 (splice obj off xs) (off + lenZ xs))|].
  - split; [done|done| |]; simpl; by rewrite Hhost.
  - done.
  - apply (kernel_uio_advanced _ obj); [done|lia|]. apply lenZ_splice; lia.
  - apply can_move_advanced; [|lia|simpl; lia]. simpl. by replace (lenZ xs + (uio_resid (xuio e) - lenZ xs)) with (uio_resid (xuio e)) by lia.
  - simpl. lia.
  - simpl. lia.
  - intros r t (sc & ys & -> & Hr & Hh' & Hpre & Hall). simpl in *.
    assert (lenZ ys <= uio_resid (xuio e) - lenZ xs) as Hly.
    { apply prefix_length in Hpre. pose proof (lenZ_host_read c (uio_offset (xuio e) + lenZ xs)
        (uio_resid (xuio e) - lenZ xs) ltac:(lia) ltac:(lia)). unfold lenZ in *. lia. }
    exists sc, (xs ++ ys). unfold e1. rewrite delivered_delivered by lia.
    split; [by destruct s|]. split; [done|]. split; [by rewrite Hh'|]. rewrite Hsplit. split; [by apply prefix_app|].
    intros Hr'. by rewrite Hall.
Qed.

(** What writing does: after an error the request may have advanced over up to one
    buffer of bytes that were not written. *)
Definition write_result (f : Z) (c : list Z) (s : emufs_fs H) (e : uenv) (obj : list Z) (off : Z)
    (r : errno + unit) (t : emufs_fs H * uenv) : Prop :=
  exists sc n m, t = (set_emu sc s, taken e obj off (n + m)) /\ ready sc /\
    0 <= n /\ 0 <= m <= EMU_MAXIO /\ n + m <= uio_resid (xuio e) /\
    host_at sc = set_data f (host_write c (uio_offset (xuio e)) (slice obj off n)) (host_at (ef_emu s)) /\
    (r = inr tt -> n = uio_resid (xuio e) /\ m = 0).

Lemma taken_taken (e : uenv) obj off n m : taken (taken e obj off n) obj (off + n) m = taken e obj off (n + m).
Proof. unfold taken. simpl. by rewrite advanced_advanced, Z.add_assoc. Qed.

(** Nothing was written, though [m] bytes were taken. *)
Lemma write_result_fail f c s (e : uenv) obj off sc m r : ready sc -> host_at sc = host_at (ef_emu s) ->
  hf_data (host_at (ef_emu s)) !! f = Some c -> 0 <= m <= EMU_MAXIO -> m <= uio_resid (xuio e) ->
  (r = inr tt -> uio_resid (xuio e) = 0) ->
  write_result f c s e obj off r (set_emu sc s, taken e obj off m).
Proof.
  intros Hr Hh Hd Hm Hm' Hres. exists sc, 0, m. rewrite slice_nil. simpl. rewrite set_data_id by done.
  do 5 (split; [done || lia|]). split; [done|]. intros Hr'. specialize (Hres Hr'). lia.
Qed.

Lemma write_loop_wp handle f : forall fuel c s (e : uenv) obj off,
  at_file (ef_emu s) handle f c -> uio_rw (xuio e) = UIO_WRITE -> kernel_uio (xuio e) obj off ->
  can_move (xuio e) (uio_resid (xuio e)) -> 0 <= uio_offset (xuio e) -> uio_resid (xuio e) <= Z.of_nat fuel ->
  wp (io_loop fuel (emu_write handle)) (write_result f c s e obj off) (s, e).
Proof.
  induction fuel as [|fuel IH]; intros c s e obj off [Hready Hh Hf Hd] Hrw Hk Hc Ho Hfuel;
    pose proof Hc as (Hn & Hi & _); cbn [io_loop]; unfold request; wp_steps; simpl;
    destruct (Z.ltb_spec 0 (uio_resid (xuio e))) as [Hpos|Hz]; try lia;
    try (rewrite <- (set_emu_id s) at 2; rewrite <- (taken_0 e obj off) at 2 by done;
         apply write_result_fail; unfold EMU_MAXIO; done || lia).
  wp_steps. apply with_emu_io_wp. destruct (chunk_range (xuio e)) as (Hch & Hmax & Hch0); [lia|].
  pose proof Hk as [_ _ _ Hoff Hfit]. set (k := chunk (xuio e)) in *.
  eapply wp_mono; [eapply (emu_write_wp handle k); try done; eapply can_move_le; [done|lia]|].
  intros [er|[]] [sc' e'] (Hready' & He' & Hhost); simpl in *; subst e'.
  { apply write_result_fail; done || lia. }
  wp_steps. simpl. rewrite (proj2 (Z.eqb_neq _ _)) by lia.
  set (c1 := host_write c (uio_offset (xuio e)) (slice obj off k)) in *.
  assert (lenZ (slice obj off k) = k) as Hlk by (apply lenZ_slice; lia).
  eapply wp_mono; [apply (IH c1 (set_emu sc' s) (taken e obj off k) obj (off + k))|].
  - split; [done|done| |]; simpl; rewrite Hhost; simpl; [done|]. apply lookup_insert_eq.
  - done.
  - apply (kernel_uio_advanced _ obj); [done|lia|done].
  - apply can_move_advanced; [|lia|simpl; lia]. simpl. by replace (k + (uio_resid (xuio e) - k)) with (uio_resid (xuio e)) by lia.
  - simpl. lia.
  - simpl. lia.
  - intros r t (sc & n & m & -> & Hr & Hn0 & Hm & Hnm & Hh' & Hall). simpl in *.
    exists sc, (k + n), m. rewrite taken_taken, Z.add_assoc. split; [by destruct s|].
    do 3 (split; [done || lia|]). split; [lia|]. split; [|intros Hr'; specialize (Hall Hr'); lia].
    rewrite Hh', Hhost, set_data_set_data. unfold c1. f_equal.
    rewrite <- Hlk at 2. rewrite host_write_app by done. by rewrite slice_app by lia.
Qed.

(** A live vnode of a file. *)
Record file_vnode (s : emufs_fs H) (p : Z) (ev : emufs_vnode) (f : Z) (c : list Z) : Prop := {
  fv_heap : ef_heap s !! p = Some ev;
  fv_ok : vnode_ok (ev_v ev);
  fv_ops : vn_ops (ev_v ev) = Some emufs_fileops;
  fv_file : at_file (ef_emu s) (ev_handle ev) f c;
}.

Lemma entry_io_file p (file dir : E (emufs_fs H * uenv) unit) s (e : uenv) ev f c Q :
  file_vnode s p ev f c -> wp file Q (s, e) -> wp (entry_io p file dir) Q (s, e).
Proof.
  intros [Hp Hok Hops _] Hw. unfold entry_io, on_fs, vn_read, get_vnode. wp_steps. simpl.
  exists (ev_v ev). rewrite Hp. split; [done|]. wp_steps. split; [by apply vnode_ok_check|]. by rewrite Hops.
Qed.

(** A request for all of its bytes, between kernel objects. *)
Record whole_request (e : uenv) (op : uio_op) (obj : list Z) (off : Z) : Prop := {
  wr_op : uio_rw (xuio e) = op;
  wr_kernel : kernel_uio (xuio e) obj off;
  wr_move : can_move (xuio e) (uio_resid (xuio e));
  wr_offset : 0 <= uio_offset (xuio e);
}.

Lemma transfer_wp p (io : Z -> Z -> E (emu_softc * uenv) unit) op (dir : E (emufs_fs H * uenv) unit) s (e : uenv) ev f c obj off Q :
  file_vnode s p ev f c -> whole_request e op obj off ->
  wp (io_loop (Z.to_nat (uio_resid (xuio e))) (io (ev_handle ev))) Q (s, e) ->
  wp (entry_io p (let! ev := on_fs (get_ev p) in
                  let! u := request in
                  do! assert_ (bool_decide (uio_rw u = op)) in
                  io_loop (Z.to_nat (uio_resid u)) (io (ev_handle ev))) dir) Q (s, e).
Proof.
  intros Hf [Hop _ _ _] Hw. eapply entry_io_file; [done|]. destruct Hf as [Hp _ _ _].
  unfold on_fs, get_ev, request. wp_steps. simpl. exists ev. split; [done|]. wp_steps. simpl.
  by rewrite Hop, bool_decide_true.
Qed.

Lemma vop_read_wp s (e : uenv) p ev f c obj off :
  file_vnode s p ev f c -> whole_request e UIO_READ obj off -> wp (VOP_READ p) (read_result c s e obj off) (s, e).
Proof.
  intros Hf Hw. unfold VOP_READ, emufs_read. eapply transfer_wp; [done|done|].
  destruct Hf, Hw. apply (read_loop_wp _ f); done || lia.
Qed.

Lemma vop_write_wp s (e : uenv) p ev f c obj off :
  file_vnode s p ev f c -> whole_request e UIO_WRITE obj off -> wp (VOP_WRITE p) (write_result f c s e obj off) (s, e).
Proof.
  intros Hf Hw. unfold VOP_WRITE, emufs_write. eapply transfer_wp; [done|done|].
  destruct Hf, Hw. apply write_loop_wp; done || lia.
Qed.
End commands.

(** ** A card *)

(** A small host with a list of pathnames, for which closing fails once and then
    succeeds. File 0 is the root directory. *)
Record toy : Type := mk_toy { t_host : host; t_names : list (list Z * Z); t_flaky : bool }.

Definition toy_path (r : emu_regs) (b : list Z) : list Z := take (Z.to_nat (REG_IOLEN r)) b.
Definition toy_find (t : toy) (name : list Z) : option Z :=
  snd <$> (List.find (fun x => bool_decide (fst x = name /\ is_Some (hf_data (t_host t) !! snd x))) (t_names t)).
Definition toy_handle (w : host) : option Z :=
  if bool_decide (size (hd_file w) < 64)%nat then List.find (fun i => bool_decide (hd_file w !! i = None)) (seqZ 0 64)
  else None.
Definition reply (r : emu_regs) (code : Z) : emu_regs := mk_regs (REG_HANDLE r) (REG_OFFSET r) (REG_IOLEN r) code.

Definition toy_open (t : toy) (r : emu_regs) (b : list Z) (f : Z) (w : host) (names : list (list Z * Z)) : toy * emu_regs :=
  match toy_handle w with
  | Some n => (mk_toy (mk_host (<[n := f]> (hd_file w)) (hf_data w)) names (t_flaky t),
               mk_regs n (REG_OFFSET r) (if f =? 0 then 1 else 0) EMU_RES_SUCCESS)
  | None => (t, reply r EMU_RES_NOHANDLES)
  end.

Definition toy_opens (t : toy) (op : Z) (r : emu_regs) (b : list Z) : toy * emu_regs :=
  let w := t_host t in
  let name := toy_path r b in
  match toy_find t name with
  | Some f => if op =? EMU_OP_EXCLCREATE then (t, reply r EMU_RES_EXISTS) else toy_open t r b f w (t_names t)
  | None =>
      if op =? EMU_OP_OPEN then (t, reply r EMU_RES_BADPATH)
      else let f := base.fresh (dom (hf_data w)) in
           toy_open t r b f (mk_host (hd_file w) (<[f := []]> (hf_data w))) ((name, f) :: t_names t)
  end.

Definition toy_op (t : toy) (op : Z) (r : emu_regs) (b : list Z) : toy * emu_regs * list Z :=
  let w := t_host t in
  let set w := mk_toy w (t_names t) (t_flaky t) in
  match hd_file w !! REG_HANDLE r with
  | None => (t, reply r EMU_RES_BADHANDLE, b)
  | Some f =>
      let c := default [] (hf_data w !! f) in
      if (op =? EMU_OP_OPEN) || (op =? EMU_OP_CREATE) || (op =? EMU_OP_EXCLCREATE) then (toy_opens t op r b, b)
      else if op =? EMU_OP_CLOSE then
        if t_flaky t then (mk_toy w (t_names t) false, reply r EMU_RES_MEDIA, b)
        else (mk_toy (mk_host (delete (REG_HANDLE r) (hd_file w)) (hf_data w)) (t_names t) true, reply r EMU_RES_SUCCESS, b)
      else if op =? EMU_OP_READ then
        let xs := host_read c (REG_OFFSET r) (REG_IOLEN r) in
        (t, mk_regs (REG_HANDLE r) (REG_OFFSET r + lenZ xs) (lenZ xs) EMU_RES_SUCCESS, splice b 0 xs)
      else if op =? EMU_OP_READDIR then (t, reply r EMU_RES_UNSUPP, b)
      else if op =? EMU_OP_WRITE then
        (set (set_data f (host_write c (REG_OFFSET r) (slice b 0 (REG_IOLEN r))) w), reply r EMU_RES_SUCCESS, b)
      else if op =? EMU_OP_GETSIZE then (t, mk_regs (REG_HANDLE r) (REG_OFFSET r) (u32 (lenZ c)) EMU_RES_SUCCESS, b)
      else if op =? EMU_OP_TRUNC then
        (set (set_data f (host_resize c (REG_IOLEN r)) w), reply r EMU_RES_SUCCESS, b)
      else (t, reply r EMU_RES_BADOP, b)
  end.

#[export] Instance toy_card : EmuCard toy := {| emu_op t op r b := Some (toy_op t op r b) |}.

Definition toy_mishaps (t : toy) : nat := if t_flaky t then 1 else 0.

Lemma toy_handle_spec w n : toy_handle w = Some n -> is_u32 n /\ hd_file w !! n = None /\ (size (hd_file w) < 64)%nat.
Proof.
  unfold toy_handle. case_bool_decide as Hs; [|done]. intros Hf. apply find_some in Hf as [Hin Hn].
  apply bool_decide_eq_true in Hn. split; [|done]. apply list_elem_of_In, elem_of_seqZ in Hin. unfold is_u32. lia.
Qed.

Lemma toy_find_spec t name f : toy_find t name = Some f -> is_Some (hf_data (t_host t) !! f).
Proof.
  unfold toy_find. intros (x & Hf & ->)%fmap_Some. apply find_some in Hf as [_ Hf].
  by apply bool_decide_eq_true in Hf as [_ Hf].
Qed.

Lemma toy_open_completes t r b f w names : hd_file w = hd_file (t_host t) -> hf_data (t_host t) ⊆ hf_data w ->
  is_Some (hf_data w !! f) ->
  let '(t', r') := toy_open t r b f w names in
  REG_RESULT r' = EMU_RES_SUCCESS /\ opened (t_host t) (t_host t') (REG_HANDLE r') \/ fails (REG_RESULT r') /\ t_host t' = t_host t.
Proof.
  intros Hw Hd Hf. unfold toy_open. destruct (toy_handle w) as [n|] eqn:Hn; [left|right; split; [by repeat split|done]].
  apply toy_handle_spec in Hn as (Hu & Hnone & Hsz). split; [done|]. exists f. simpl. rewrite <- Hw.
  split; [done|]. split; [by left|]. split; [done|]. split; [done|]. split; [done|].
  rewrite map_size_insert_None by done. unfold max_guys. lia.
Qed.

Lemma lenZ_host_read_le c off len : lenZ (host_read c off len) <= Z.max 0 len.
Proof. unfold host_read, slice, lenZ. rewrite length_take. lia. Qed.

Lemma toy_laws : host_laws t_host toy_mishaps.
Proof.
  split.
  - intros t op r b Hop [f Hf]. unfold completes, emu_op, toy_card, toy_op. rewrite Hf.
    assert (is_true ((op =? EMU_OP_OPEN) || (op =? EMU_OP_CREATE) || (op =? EMU_OP_EXCLCREATE))) as ->.
    { destruct Hop as [->|[->| ->]]; done. }
    exists (toy_opens t op r b).1, (toy_opens t op r b).2, b. split; [by destruct (toy_opens t op r b)|]. split; [done|].
    unfold toy_opens. destruct (toy_find t (toy_path r b)) as [g|] eqn:Hg; case_match; try (right; by repeat split).
    + pose proof (toy_open_completes t r b g (t_host t) (t_names t) eq_refl ltac:(done) (toy_find_spec _ _ _ Hg)) as Ho. by destruct (toy_open _ _ _ _ _ _).
    + set (g := base.fresh (dom (hf_data (t_host t)))).
      pose proof (toy_open_completes t r b g (mk_host (hd_file (t_host t)) (<[g:=[]]> (hf_data (t_host t))))
        ((toy_path r b, g) :: t_names t) eq_refl) as Ho.
      destruct (toy_open _ _ _ _ _ _). apply Ho; simpl; [apply insert_subseteq, not_elem_of_dom, is_fresh|].
      by rewrite lookup_insert_eq.
  - intros t r b [f Hf]. unfold closes, emu_op, toy_card, toy_op, toy_mishaps. rewrite Hf. simpl.
    destruct (t_flaky t) eqn:Hfl; do 3 eexists; (split; [done|]); (split; [done|]); [right|left]; done.
  - intros t r b f c Hf Hc Hl Hb. unfold completes, emu_op, toy_card, toy_op. rewrite Hf, Hc. simpl.
    pose proof (lenZ_host_read_le c (REG_OFFSET r) (REG_IOLEN r)). unfold EMU_MAXIO in *.
    do 3 eexists. split; [done|]. split; [apply lenZ_splice; lia|]. left. split; [done|].
    unfold did_read. simpl. do 3 (split; [done|]). apply slice_splice_eq; lia.
  - intros t r b [f Hf] Hl Hb. unfold completes, emu_op, toy_card, toy_op. rewrite Hf. simpl.
    do 3 eexists. split; [done|]. split; [done|]. right. by repeat split.
  - intros t r b f c Hf Hc Hl Hb. unfold completes, emu_op, toy_card, toy_op. rewrite Hf, Hc. simpl.
    do 3 eexists. split; [done|]. split; [done|]. by left.
  - intros t r b f c Hf Hc. unfold completes, emu_op, toy_card, toy_op. rewrite Hf, Hc. simpl.
    do 3 eexists. split; [done|]. split; [done|]. by left.
  - intros t r b f c Hf Hc. unfold completes, emu_op, toy_card, toy_op. rewrite Hf, Hc. simpl.
    do 3 eexists. split; [done|]. split; [done|]. by left.
Qed.

#[export] Instance toy_host : HostCard toy := {| host_of := t_host; mishaps := toy_mishaps; host_ok := toy_laws |}.

(** ** Properties *)



(** A file system over the toy with one file open. *)
Definition toy_softc (w : host) (names : list (list Z * Z)) : emu_softc toy :=
  mk_emu (mk_toy w names true) (mk_regs 0 0 0 0) (replicate 16384 0) false 0 0.
Definition demo_fs : emufs_fs toy :=
  mk_ef (toy_softc (mk_host {[ 0 := 0; 5 := 9 ]} {[ 0 := []; 9 := [10; 11; 12; 13] ]}) []) (Some 0)
    (mk_array 2 2 (Some [Some 0; Some 1]))
    {[ 0 := mk_ev (mk_vnode 1 0 true (Some emufs_dirops)) 0; 1 := mk_ev (mk_vnode 1 0 true (Some emufs_fileops)) 5 ]}.
Definition demo_ev : emufs_vnode := mk_ev (mk_vnode 1 0 true (Some emufs_fileops)) 5.
Definition demo_request (op : uio_op) (n pos : Z) : uenv := mk_uenv (mk_kuio (seqZ 100 n) n pos op) ∅ None.

Lemma demo_file : file_vnode demo_fs 1 demo_ev 9 [10; 11; 12; 13].
Proof.
  split; [done|split; simpl; done || lia|done|].
  split; [split; vm_compute; done|unfold is_u32; simpl; lia|done|done].
Qed.

Lemma demo_whole op n pos : 0 <= n < 1000 -> 0 <= pos < 1000 -> whole_request (demo_request op n pos) op (seqZ 100 n) 0.
Proof.
  intros Hn Hp. split; [done|split; simpl; try done; unfold lenZ; rewrite length_seqZ; lia| |simpl; lia].
  unfold can_move, is_u32, is_s32. simpl. lia.
Qed.

Definition io_outcome (o : outcome (emufs_fs toy * uenv) (errno + unit)) : option (option (list Z) * iov_un * Z) :=
  match o with
  | Done (inr _) (s, e) => Some (hf_data (host_at (ef_emu s)) !! 9, uio_iovec (xuio e), uio_resid (xuio e))
  | _ => None
  end.


