(* ===== verification/EmuTable.v ===== *)
(** * The table of vnodes of the emulator file system, and the handles of its card.

    Every handle open on the card is that of one vnode in the table, and the count of
    each vnode is the number of references its users hold. The invariant holds after
    mounting and every call of a user who gives back only what it has. The host must be
    patient: closing succeeds after at most ten I/O errors, as often as [emu_close]
    tries again. *)

From stdpp Require Import base numbers list gmap strings.
From Stdlib Require Import ZArith Lia.
From S2P Require Import Prelude Mem CopyInOut Uio Array Vnode Emu EmuSpec.

(** ** Opening and closing *)

Section open_close.
Context {H : Type} `{HostCard H}.
Notation emu_softc := (emu_softc H).
Implicit Types (sc : emu_softc).

Ltac emu_step :=
  lazymatch goal with
  | |- wp (bind (wreg_oper _) _) _ _ => fail
  | |- wp acquire _ _ => unfold acquire
  | |- wp release _ _ => unfold release
  | |- wp (wreg_handle _) _ _ => unfold wreg_handle
  | |- wp (wreg_iolen _) _ _ => unfold wreg_iolen
  | |- wp (emu_rreg _) _ _ => unfold emu_rreg
  | |- _ => wp_step
  end; cbv beta; simpl.
Ltac emu_steps := repeat emu_step.

Lemma emu_open_wp handle name create excl sc :
  ready sc -> is_u32 handle -> is_Some (hd_file (host_at sc) !! handle) ->
  wp (emu_open handle name create excl)
    (fun r sc' => ready sc' /\
       match r with inl _ => host_at sc' = host_at sc | inr (n, _) => opened (host_at sc) (host_at sc') n end) sc.
Proof.
  intros Hrd Hh Hf. pose proof Hrd as [Hl Hs Hb]. unfold emu_open.
  destruct (Z.ltb_spec EMU_MAXIO (lenZ name + 1)) as [Hlong|Hfits]; [by wp_steps|].
  assert (lenZ (name ++ [0]) = lenZ name + 1) as Hln by (rewrite lenZ_app; done).
  set (op := if create && excl then EMU_OP_EXCLCREATE else if create then EMU_OP_CREATE else EMU_OP_OPEN).
  assert (opens op) as Hop by (unfold op, opens; destruct create, excl; simpl; tauto).
  emu_steps. rewrite Hl. split; [done|]. emu_steps. apply wp_then. eapply command_wp; simpl.
  - done.
  - eapply (law_open _ _ host_ok); simpl; [done|]. by rewrite u32_id.
  - intros h r b Hlb Ho. rewrite lenZ_splice in Hlb by (pose proof (lenZ_nonneg name); lia). emu_steps.
    split; [split; simpl; [done|done|by rewrite Hlb]|]. exact Ho.
  - intros e h r b Hlb Hh1. rewrite lenZ_splice in Hlb by (pose proof (lenZ_nonneg name); lia). emu_steps.
    split; [split; simpl; [done|done|by rewrite Hlb]|]. exact Hh1.
Qed.

Definition closed (n : Z) (w : host) : host := mk_host (delete n (hd_file w)) (hf_data w).

(** With [n] tries left the loop gets past [n] mishaps. *)
Lemma close_loop_wp handle : forall n sc,
  e_sem sc = 0 -> lenZ (e_iobuf sc) = EMU_MAXIO -> is_u32 handle -> is_Some (hd_file (host_at sc) !! handle) ->
  wp (close_loop n handle)
    (fun r sc' => e_lock sc' = e_lock sc /\ e_sem sc' = 0 /\ lenZ (e_iobuf sc') = EMU_MAXIO /\
       if bool_decide (mishaps (e_card sc) <= n)%nat then r = inr tt /\ host_at sc' = closed handle (host_at sc)
       else r = inl EIO /\ host_at sc' = host_at sc /\ (mishaps (e_card sc') + S n = mishaps (e_card sc))%nat) sc.
Proof.
  induction n as [|n IH]; intros sc Hs Hb Hh Hf; cbn [close_loop]; emu_steps; rewrite wp_bind;
    (destruct (law_close _ _ host_ok (e_card sc)
       (mk_regs (u32 handle) (REG_OFFSET (e_regs sc)) (REG_IOLEN (e_regs sc)) (REG_RESULT (e_regs sc))) (e_iobuf sc))
       as (h & r & b & Hop & Hlb & Hres); [simpl; by rewrite u32_id|]);
    (eapply wp_of_eq; [apply (wreg_oper_run (set_regs _ sc)); exact Hop|]); rewrite wp_bind;
    unfold wp at 1; rewrite emu_waitdone_run by done;
    (destruct Hres as [(Hr & Hm & Hw)|(Hr & Hm & Hw)]; rewrite Hr; simpl in Hw; try rewrite u32_id in Hw by done; simpl).
  - wp_steps. rewrite Hm. split; [done|]. split; [done|]. split; [by simpl; rewrite Hlb|]. done.
  - wp_steps. rewrite Hm. split; [done|]. split; [done|]. split; [by simpl; rewrite Hlb|].
    rewrite bool_decide_false by lia. split; [done|]. split; [done|]. simpl. lia.
  - wp_steps. rewrite Hm. split; [done|]. split; [done|]. split; [by simpl; rewrite Hlb|]. done.
  - eapply wp_mono; [apply IH|].
    + done.
    + by simpl; rewrite Hlb.
    + done.
    + unfold host_at. simpl. by rewrite Hw.
    + simpl. intros r' sc' (Hl' & Hs' & Hb' & Hc'). unfold host_at in Hc' at 2 4. simpl in Hc'. rewrite Hm, Hw in *.
      split; [done|]. split; [done|]. split; [done|].
      case_bool_decide; [rewrite bool_decide_true by lia|rewrite bool_decide_false by lia]; [done|].
      split; [tauto|]. split; [tauto|]. lia.
Qed.

(** What closing leaves behind, whether or not the caller holds the lock. *)
Definition close_result (handle : Z) (sc : emu_softc) (r : errno + unit) (sc' : emu_softc) : Prop :=
  e_lock sc' = e_lock sc /\ e_sem sc' = 0 /\ lenZ (e_iobuf sc') = EMU_MAXIO /\
  if bool_decide (mishaps (e_card sc) <= 10)%nat then r = inr tt /\ host_at sc' = closed handle (host_at sc)
  else r = inl EIO /\ host_at sc' = host_at sc /\ (mishaps (e_card sc') + 11 = mishaps (e_card sc))%nat.

Lemma emu_close_wp handle sc :
  e_sem sc = 0 -> lenZ (e_iobuf sc) = EMU_MAXIO -> is_u32 handle -> is_Some (hd_file (host_at sc) !! handle) ->
  wp (emu_close handle) (close_result handle sc) sc.
Proof.
  intros Hs Hb Hh Hf. unfold emu_close. emu_steps. destruct (e_lock sc) eqn:Hl; emu_steps.
  - eapply wp_mono; [by apply (close_loop_wp handle 10)|]. intros r sc' Hr. emu_steps. exact Hr.
  - rewrite Hl. split; [done|]. emu_steps.
    eapply wp_mono; [by apply (close_loop_wp handle 10 (set_lock true sc))|].
    intros r sc' (Hl' & Hr). emu_steps. rewrite Hl'. split; [done|]. emu_steps. unfold close_result. by rewrite Hl.
Qed.

End open_close.

(** ** The invariant *)

(** References held: one more, or one less, of [p]. *)
Definition bump (own : Z -> Z) (p d : Z) : Z -> Z := fun q => if decide (q = p) then own q + d else own q.

Section invariant.
Context {H : Type} `{HostCard H}.
Notation fs := (emufs_fs H).
Implicit Types (s : fs) (own : Z -> Z).

(** The file system keeps a reference to its root. *)
Definition refs s own (p : Z) : Z := own p + (if decide (ef_root s = Some p) then 1 else 0).

Record live_vnode (n : Z) (ev : emufs_vnode) : Prop := {
  lv_count : vn_refcount (ev_v ev) = n;
  lv_open : vn_opencount (ev_v ev) = 0;
  lv_lock : vn_countlock (ev_v ev) = true;
  lv_ops : vn_ops (ev_v ev) = Some emufs_fileops \/ vn_ops (ev_v ev) = Some emufs_dirops;
  lv_handle : is_u32 (ev_handle ev);
}.

(** The handles of the vnodes. *)
Definition in_table s (n : Z) : Prop := exists p ev, ef_heap s !! p = Some ev /\ ev_handle ev = n.

(** The table has each vnode once, with its references, and vnodes have handles of
    their own. *)
Record table_ok s own : Prop := {
  tk_table : exists ps, repr (ef_vnodes s) (Some <$> ps) /\ NoDup ps /\ dom (ef_heap s) = list_to_set (C := gset Z) ps;
  tk_live p ev : ef_heap s !! p = Some ev -> live_vnode (refs s own p) ev /\ 0 < refs s own p;
  tk_inj p q ev ev' : ef_heap s !! p = Some ev -> ef_heap s !! q = Some ev' -> ev_handle ev = ev_handle ev' -> p = q;
  tk_free p : ef_heap s !! p = None -> own p = 0;
  tk_own p : 0 <= own p < 2 ^ 30;
  tk_root p : ef_root s = Some p -> is_Some (ef_heap s !! p);
}.

(** The open handles are those of the vnodes, and the files they are of are known. *)
Record emufs_ok s own : Prop := {
  ek_ready : ready (ef_emu s);
  ek_table : table_ok s own;
  ek_handles n : is_Some (hd_file (host_at (ef_emu s)) !! n) <-> in_table s n;
  ek_data n f : hd_file (host_at (ef_emu s)) !! n = Some f -> is_Some (hf_data (host_at (ef_emu s)) !! f);
}.

Lemma live_vnode_ok n ev : live_vnode n ev -> 0 < n < 2 ^ 31 -> vnode_ok (ev_v ev).
Proof. intros [Hc Ho Hl Hops _] Hn. split; [lia|lia|done|]. destruct Hops as [-> | ->]; by eexists. Qed.

Lemma refs_bound s own p : table_ok s own -> 0 <= refs s own p < 2 ^ 31 - 1.
Proof. intros Ht. pose proof (tk_own _ _ Ht p). unfold refs. case_decide; lia. Qed.

Lemma table_vnode_ok s own p ev : table_ok s own -> ef_heap s !! p = Some ev -> vnode_ok (ev_v ev).
Proof.
  intros Ht Hp. destruct (tk_live _ _ Ht _ _ Hp) as [Hl Hr]. pose proof (refs_bound _ _ p Ht).
  eapply live_vnode_ok; [done|lia].
Qed.

(** The card is not part of the table. *)
Lemma table_ok_set_emu s own sc : table_ok s own -> table_ok (set_emu sc s) own.
Proof. intros []. by split. Qed.

(** The vnodes of the table, by index. *)
Lemma table_getguy s ps i p : repr (ef_vnodes s) (Some <$> ps) -> nthZ ps i = Some p ->
  array_getguy i (ef_vnodes s) = Done p (ef_vnodes s).
Proof.
  intros Hr Hp. eapply getguy_correct; [done|]. pose proof (nthZ_Some_lt _ _ _ Hp).
  rewrite nthZ_to_nat in Hp by lia. by rewrite nthZ_to_nat, list_lookup_fmap, Hp by lia.
Qed.

Lemma emu_table_num s ps : repr (ef_vnodes s) (Some <$> ps) -> num (ef_vnodes s) = lenZ ps.
Proof. intros Hr. rewrite (repr_num _ _ Hr). unfold lenZ. by rewrite length_fmap. Qed.

Lemma table_mem s ps p : dom (ef_heap s) = list_to_set (C := gset Z) ps -> is_Some (ef_heap s !! p) <-> p ∈ ps.
Proof. intros Hd. rewrite <- elem_of_dom, Hd. apply elem_of_list_to_set. Qed.

(** The table has no more vnodes than the card has open handles. *)
Lemma table_size s own ps : emufs_ok s own -> NoDup ps -> dom (ef_heap s) = list_to_set (C := gset Z) ps ->
  lenZ ps <= Z.of_nat (size (hd_file (host_at (ef_emu s)))).
Proof.
  intros Hok Hnd Hdom. set (g p := default 0 (ev_handle <$> ef_heap s !! p)).
  assert (NoDup (g <$> ps)) as Hnd'.
  { apply NoDup_fmap_2_strong; [|done]. intros p q Hp Hq.
    apply (table_mem _ _ _ Hdom) in Hp as [ev Hp], Hq as [ev' Hq]. unfold g. rewrite Hp, Hq. simpl.
    by eapply (tk_inj _ _ (ek_table _ _ Hok)). }
  rewrite <- size_dom. unfold lenZ. apply inj_le. rewrite <- (length_fmap g ps), <- (size_list_to_set (C := gset Z)) by done.
  apply subseteq_size. intros n (p & -> & Hp)%elem_of_list_to_set%list_elem_of_fmap.
  apply (table_mem _ _ _ Hdom) in Hp as [ev Hp]. apply elem_of_dom, (ek_handles _ _ Hok).
  exists p, ev. unfold g. by rewrite Hp.
Qed.

(** ** Counting *)

Definition counted (v : vnode) (d : Z) : vnode := mk_vnode (vn_refcount v + d) (vn_opencount v) (vn_countlock v) (vn_ops v).

Lemma set_vnode_lookup s p v q ev : ef_heap s !! p = Some ev ->
  ef_heap (set_vnode p v s) !! q = if decide (q = p) then Some (mk_ev v (ev_handle ev)) else ef_heap s !! q.
Proof.
  intros Hp. unfold set_vnode. simpl. case_decide as Hq; [subst q; by rewrite lookup_alter_eq, Hp|].
  by rewrite lookup_alter_ne.
Qed.

Lemma in_table_set_vnode s p v ev n : ef_heap s !! p = Some ev -> in_table (set_vnode p v s) n <-> in_table s n.
Proof.
  intros Hp. unfold in_table. split; intros (q & ev' & Hq & Hn).
  - rewrite (set_vnode_lookup _ _ _ _ _ Hp) in Hq. case_decide; [|by exists q, ev'].
    injection Hq as <-. by exists p, ev.
  - destruct (decide (q = p)) as [->|Hne].
    + exists p, (mk_ev v (ev_handle ev)). rewrite (set_vnode_lookup _ _ _ _ _ Hp), decide_True by done. split; [done|]. simpl. congruence.
    + exists q, ev'. by rewrite (set_vnode_lookup _ _ _ _ _ Hp), decide_False by done.
Qed.

Lemma counted_ok s own p ev d :
  table_ok s own -> ef_heap s !! p = Some ev -> 0 < refs s own p + d -> 0 <= own p + d < 2 ^ 30 ->
  table_ok (set_vnode p (counted (ev_v ev) d) s) (bump own p d).
Proof.
  intros Ht Hp Hr Ho. destruct (tk_live _ _ Ht _ _ Hp) as [[Hc Hop Hl Hops Hh] Hpos].
  pose proof (fun q => set_vnode_lookup s p (counted (ev_v ev) d) q ev Hp) as Hlook. split.
  - destruct (tk_table _ _ Ht) as (ps & Hrep & Hnd & Hdom). exists ps. split; [done|]. split; [done|].
    simpl. by rewrite dom_alter_L.
  - intros q ev'. rewrite Hlook. unfold refs, bump. simpl. case_decide as Hq.
    + subst q. intros [= <-]. unfold refs in *. split; [|lia]. split; simpl; try done. lia.
    + intros Hq'. apply (tk_live _ _ Ht _ _ Hq').
  - intros q q' e1 e2. rewrite !Hlook. destruct (decide (q = p)) as [->|], (decide (q' = p)) as [->|]; try done;
      intros He1 He2 Heq; simplify_eq; eapply (tk_inj _ _ Ht); eauto.
  - intros q. rewrite Hlook. unfold bump. case_decide; [done|]. apply (tk_free _ _ Ht).
  - intros q. unfold bump. case_decide; [by subst q|]. apply (tk_own _ _ Ht).
  - intros q Hq. rewrite Hlook. case_decide; [done|]. by apply (tk_root _ _ Ht).
Qed.

Lemma incref_run s own p ev : table_ok s own -> ef_heap s !! p = Some ev ->
  VOP_INCREF p s = Done tt (set_vnode p (counted (ev_v ev) 1) s).
Proof.
  intros Ht Hp. unfold VOP_INCREF. pose proof (table_vnode_ok _ _ _ _ Ht Hp) as Hok.
  pose proof (refs_bound _ _ p Ht). destruct (tk_live _ _ Ht _ _ Hp) as [Hl _].
  rewrite (vnode_incref_run _ _ s (ev_v ev)); [done|unfold get_vnode; by rewrite Hp|done|].
  rewrite (lv_count _ _ Hl). lia.
Qed.

(** ** Loading *)

Lemma find_handle_wp s own n : table_ok s own ->
  wp (find_handle n)
    (fun r s' => match r with
                 | None => s' = s /\ ~ in_table s n
                 | Some p => exists ev, ef_heap s !! p = Some ev /\ ev_handle ev = n /\
                                        s' = set_vnode p (counted (ev_v ev) 1) s
                 end) s.
Proof.
  intros Ht. destruct (tk_table _ _ Ht) as (ps & Hrep & Hnd & Hdom). unfold find_handle, on_vnodes, array_getnum.
  wp_steps. rewrite (emu_table_num _ _ Hrep). replace (set_vnodes (ef_vnodes s) s) with s by (by destruct s).
  apply wp_iterate with (I := fun i s' => s' = s /\ forall j p ev, 0 <= j < i -> nthZ ps j = Some p ->
    ef_heap s !! p = Some ev -> ev_handle ev <> n).
  - split; [done|]. intros; lia.
  - intros i s' Hi [-> Hbefore]. unfold lenZ in Hi. destruct (nthZ_is_Some ps i) as [p Hp]; [unfold lenZ; lia|].
    wp_steps. eapply wp_of_eq; [by eapply table_getguy|].
    replace (set_vnodes (ef_vnodes s) s) with s by (by destruct s).
    assert (is_Some (ef_heap s !! p)) as [ev Hev].
    { apply (table_mem _ _ _ Hdom). rewrite nthZ_to_nat in Hp by lia. by eapply list_elem_of_lookup_2. }
    unfold get_ev. wp_steps. exists ev. split; [done|]. destruct (Z.eqb_spec (ev_handle ev) n) as [Hn|Hn].
    + wp_steps. eapply wp_of_eq; [by eapply incref_run|]. wp_steps. by exists ev.
    + wp_steps. split; [done|]. intros j q ev' Hj Hq Hev'. destruct (decide (j = i)) as [->|]; [congruence|].
      eapply Hbefore; [|done|done]. lia.
  - intros s' [-> Hall]. split; [done|]. intros (p & ev & Hp & Hn).
    assert (p ∈ ps) as (j & Hj)%list_elem_of_lookup by (apply (table_mem _ _ _ Hdom); by exists ev).
    pose proof (lookup_lt_Some _ _ _ Hj). eapply (Hall (Z.of_nat j)); [unfold lenZ in *; lia| |done|done].
    rewrite nthZ_to_nat by lia. by rewrite Nat2Z.id.
Qed.

(** The table with a new vnode. *)
Lemma added_ok s own p ev a ps :
  table_ok s own -> ef_heap s !! p = None -> ~ in_table s (ev_handle ev) -> ef_root s <> Some p -> live_vnode 1 ev ->
  repr (ef_vnodes s) (Some <$> ps) -> NoDup ps -> dom (ef_heap s) = list_to_set (C := gset Z) ps ->
  repr a ((Some <$> ps) ++ [Some p]) ->
  table_ok (set_vnodes a (set_heap (<[p := ev]> (ef_heap s)) s)) (bump own p 1).
Proof.
  intros Ht Hp Hn Hroot Hl Hrep Hnd Hdom Ha. pose proof (tk_free _ _ Ht _ Hp) as Hown.
  assert (p ∉ ps) as Hin by (intros Hin; apply (table_mem _ _ _ Hdom) in Hin as [? ?]; congruence).
  split; simpl.
  - exists (ps ++ [p]). rewrite fmap_app. split; [done|]. split.
    + apply NoDup_app. split; [done|]. split; [|apply NoDup_singleton]. intros x Hx Hx'%list_elem_of_singleton. congruence.
    + rewrite dom_insert_L, Hdom, list_to_set_app_L. set_solver.
  - intros q ev'. unfold refs, bump. simpl. destruct (decide (q = p)) as [->|Hq].
    + rewrite lookup_insert_eq. intros [= <-]. rewrite Hown, decide_False by done. done.
    + rewrite lookup_insert_ne by done. apply (tk_live _ _ Ht).
  - intros q q' e1 e2 H1' H2' Heq. rewrite lookup_insert in H1', H2'. repeat case_decide; simplify_eq; try done.
    + destruct Hn. eexists _, _. split; [eassumption|congruence].
    + destruct Hn. eexists _, _. split; [eassumption|congruence].
    + by eapply (tk_inj _ _ Ht).
  - intros q. unfold bump. rewrite lookup_insert. repeat case_decide; simplify_eq; try done. apply (tk_free _ _ Ht).
  - intros q. unfold bump. case_decide; [subst; rewrite Hown; lia|apply (tk_own _ _ Ht)].
  - intros q Hq. rewrite lookup_insert. case_decide; [done|]. by apply (tk_root _ _ Ht).
Qed.

Definition loaded s own (n : Z) (r : errno + Z) s' : Prop :=
  ef_emu s' = ef_emu s /\ ef_root s' = ef_root s /\
  match r with
  | inl _ => table_ok s' own /\ ~ in_table s n /\ forall x, in_table s' x <-> in_table s x
  | inr p => table_ok s' (bump own p 1) /\ forall x, in_table s' x <-> in_table s x \/ x = n
  end.

Lemma set_lock_back (sc : emu_softc H) : e_lock sc = false -> set_lock false (set_lock true sc) = sc.
Proof. intros Hl. destruct sc. unfold set_lock. simpl in *. by rewrite Hl. Qed.

Lemma loaded_not s own n e : table_ok s own -> ~ in_table s n -> loaded s own n (inl e) s.
Proof. intros Ht Hn. split; [done|]. split; [done|]. split; [done|]. by split. Qed.

Lemma loadvnode_wp m n isdir s own :
  ready (ef_emu s) -> table_ok s own -> is_u32 n -> num (ef_vnodes s) < max_guys -> (forall p, own p + 1 < 2 ^ 30) ->
  wp (emufs_loadvnode m n isdir) (loaded s own n) s.
Proof.
  intros [Hl Hs Hb] Ht Hn Hnum Hown. unfold emufs_loadvnode, with_emu, acquire, release. wp_steps. rewrite Hl. split; [done|].
  wp_steps. set (s1 := set_emu (set_lock true (ef_emu s)) s).
  assert (table_ok s1 own) as Ht1 by (by apply table_ok_set_emu).
  assert (set_emu (set_lock false (ef_emu s1)) s1 = s) as Hback.
  { unfold s1. simpl. rewrite set_lock_back by done. by destruct s. }
  eapply wp_mono; [by apply (find_handle_wp s1 own)|]. intros [p|] s2.
  { intros (ev & Hp & Hev & ->). wp_steps. split; [done|]. wp_steps. split; [simpl; by apply set_lock_back|]. split; [done|].
    split; [apply table_ok_set_emu, counted_ok; try done|].
    - destruct (tk_live _ _ Ht1 _ _ Hp). lia.
    - pose proof (tk_own _ _ Ht p). specialize (Hown p). lia.
    - intros x. change (in_table (set_emu ?sc ?t) x) with (in_table t x). rewrite (in_table_set_vnode _ _ _ _ _ Hp).
      split; [by left|]. intros [Hx| ->]; [done|]. by exists p, ev. }
  intros [-> Hnot]. destruct (em_vnode m); simpl; [|wp_steps; split; [done|]; wp_steps; rewrite Hback; by apply loaded_not].
  wp_step. wp_step. set (p := base.fresh (dom (ef_heap s1))). unfold VOP_INIT, vnode_init.
  destruct (em_lock m); simpl; [|wp_steps; split; [done|]; wp_steps; rewrite Hback; by apply loaded_not].
  assert (ef_heap s !! p = None) as Hp by apply not_elem_of_dom, is_fresh.
  set (ev := mk_ev (mk_vnode 1 0 true (Some (if isdir then emufs_dirops else emufs_fileops))) n).
  wp_steps. unfold on_vnodes. wp_steps. simpl.
  destruct (tk_table _ _ Ht) as (ps & Hrep & Hnd & Hdom).
  eapply wp_mono; [by eapply add_correct|]. intros [e|[]] a.
  - intros (-> & _ & _ & ->). wp_steps. split; [done|]. wp_steps. unfold VOP_KILL, vnode_kill, vn_read, vn_write, get_vnode, kfree_ev.
    wp_steps. simpl. exists (ev_v ev). rewrite lookup_insert_eq. split; [done|]. repeat (wp_steps; split; [done|]). wp_steps. simpl.
    match goal with |- loaded _ _ _ _ ?t => assert (t = s) as -> end; [|by apply loaded_not].
    unfold set_vnode, set_heap, set_vnodes. simpl. rewrite set_lock_back, delete_alter_eq, delete_insert_id by done. by destruct s.
  - intros [Ha _]. wp_steps. split; [done|]. wp_steps.
    split; [simpl; by apply set_lock_back|]. split; [done|]. split.
    + apply table_ok_set_emu. apply (added_ok s1 own p ev a ps); try done.
      * intros Hr. apply (tk_root _ _ Ht) in Hr as [? ?]. congruence.
      * split; simpl; try done. destruct isdir; tauto.
    + intros x. unfold in_table. simpl. setoid_rewrite lookup_insert. split.
      * intros (q & ev' & Hq & <-). case_decide; [simplify_eq; by right|left; by exists q, ev'].
      * intros [(q & ev' & Hq & <-)| ->]; [|exists p, ev; by rewrite decide_True].
        exists q, ev'. rewrite decide_False; [done|]. intros ->. congruence.
Qed.
(** ** Looking up *)

Lemma emufs_ok_same s own sc : emufs_ok s own -> ready sc -> host_at sc = host_at (ef_emu s) -> emufs_ok (set_emu sc s) own.
Proof.
  intros [Hr Ht Hh Hd] Hr' Hw. split; simpl; [done|by apply table_ok_set_emu| |]; rewrite Hw; [|done].
  intros n. apply Hh.
Qed.

(** A reference makes the vnode live. *)
Lemma owned_live s own p : table_ok s own -> 0 < own p -> exists ev, ef_heap s !! p = Some ev.
Proof. intros Ht Ho. destruct (ef_heap s !! p) as [ev|] eqn:Hp; [by exists ev|]. rewrite (tk_free _ _ Ht _ Hp) in Ho. lia. Qed.

Lemma open_handle s own p ev : emufs_ok s own -> ef_heap s !! p = Some ev ->
  is_u32 (ev_handle ev) /\ is_Some (hd_file (host_at (ef_emu s)) !! ev_handle ev).
Proof.
  intros Hok Hp. destruct (tk_live _ _ (ek_table _ _ Hok) _ _ Hp) as [Hl _]. split; [apply (lv_handle _ _ Hl)|].
  apply (ek_handles _ _ Hok). by exists p, ev.
Qed.

(** Every call keeps the root, and the references of the user follow the result. *)
Definition keeps s own (r : errno + option Z) s' : Prop :=
  ef_root s' = ef_root s /\
  emufs_ok s' (match r with inr (Some q) => bump own q 1 | _ => own end).

Definition gaining (r : errno + Z) : errno + option Z := match r with inl e => inl e | inr q => inr (Some q) end.

(** No vnode has more references than its count has room for. *)
Definition room own : Prop := forall p, own p + 1 < 2 ^ 30.

Lemma opened_num s own sc n : emufs_ok s own -> opened (host_at (ef_emu s)) (host_at sc) n -> num (ef_vnodes s) < max_guys.
Proof.
  intros Hok (f & _ & _ & Hins & _ & _ & Hsz). destruct (tk_table _ _ (ek_table _ _ Hok)) as (ps & Hrep & Hnd & Hdom).
  rewrite (emu_table_num _ _ Hrep). pose proof (table_size s own ps Hok Hnd Hdom). rewrite Hins in Hsz.
  rewrite map_size_insert in Hsz. destruct (hd_file (host_at (ef_emu s)) !! n); unfold id in *; lia.
Qed.

Section patient.
Hypothesis patient : forall h : H, (mishaps h <= 10)%nat.

(** A handle just opened, for which there is no vnode, is closed again. *)
Lemma close_new_wp s own s0 sc n :
  emufs_ok s0 own -> table_ok s own -> ~ in_table s0 n -> (forall x, in_table s x <-> in_table s0 x) ->
  ready sc -> opened (host_at (ef_emu s0)) (host_at sc) n -> ef_emu s = sc ->
  wp (with_emu (emu_close n)) (fun _ s' => ef_root s' = ef_root s /\ emufs_ok s' own) s.
Proof.
  intros Hok Ht Hnot Hsame [Hl Hs Hb] (f & Hu & Hold & Hins & Hsub & Hf & Hsz) <-. unfold with_emu. wp_steps.
  eapply wp_mono; [apply emu_close_wp; try done; rewrite Hins; by rewrite lookup_insert_eq|].
  intros r sc' (Hl' & Hs' & Hb' & Hc). rewrite bool_decide_true in Hc by apply patient. destruct Hc as [_ Hw].
  assert (hd_file (host_at (ef_emu s0)) !! n = None) as Hnone.
  { destruct (hd_file (host_at (ef_emu s0)) !! n) eqn:Hn; [|done]. destruct Hnot. apply (ek_handles _ _ Hok). by rewrite Hn. }
  split; [done|]. split; simpl.
  - split; [congruence|done|done].
  - by apply table_ok_set_emu.
  - intros x. rewrite Hw. unfold closed. simpl. rewrite Hins, delete_insert_id by done.
    rewrite (ek_handles _ _ Hok). symmetry. apply Hsame.
  - intros x g. rewrite Hw. unfold closed. simpl. rewrite Hins, delete_insert_id by done. intros Hx.
    apply (ek_data _ _ Hok) in Hx as [c Hc]. exists c. by eapply lookup_weaken.
Qed.

Lemma open_and_load_wp s own m dir name create excl :
  emufs_ok s own -> 0 < own dir -> room own ->
  wp (open_and_load m dir name create excl) (fun r => keeps s own (gaining r)) s.
Proof.
  intros Hok Hdir Hroom. pose proof (ek_table _ _ Hok) as Ht. destruct (owned_live _ _ _ Ht Hdir) as [ev Hev].
  destruct (open_handle _ _ _ _ Hok Hev) as [Hu Hopen].
  unfold open_and_load, get_ev, with_emu at 1. wp_steps. exists ev. split; [done|]. wp_steps.
  eapply wp_mono; [apply emu_open_wp; [apply (ek_ready _ _ Hok)|done|done]|].
  intros [e|[n isdir]] sc [Hrd Hw]; [split; [done|]; by apply emufs_ok_same|].
  pose proof Hw as (f & Hun & Hold & Hins & Hsub & Hf & Hsz).
  wp_steps. eapply wp_mono.
  { apply (loadvnode_wp _ _ _ _ own); [done|by apply table_ok_set_emu|done|exact (opened_num s own sc n Hok Hw)|done]. }
  intros [e|q] s2 (Hemu & Hroot & Hl).
  - destruct Hl as (Ht2 & Hnot & Hsame). wp_steps. eapply wp_mono; [by eapply close_new_wp|].
    intros r s3 [Hroot' Hok']. wp_steps. split; [by rewrite Hroot', Hroot|done].
  - destruct Hl as (Ht2 & Hsame). wp_steps. split; [done|]. split; [by rewrite Hemu|done| |].
    + intros x. rewrite Hemu. simpl. rewrite Hins, Hsame. change (in_table (set_emu sc s) x) with (in_table s x).
      rewrite <- (ek_handles _ _ Hok), lookup_insert_is_Some. destruct (decide (x = n)); naive_solver.
    + intros x g. rewrite Hemu. simpl. rewrite Hins, lookup_insert. case_decide; [by intros [= <-]|].
      intros Hx. apply (ek_data _ _ Hok) in Hx as [c Hc]. exists c. by eapply lookup_weaken.
Qed.

(** ** Reclaiming *)

Lemma find_ev_wp s own p : table_ok s own -> is_Some (ef_heap s !! p) -> forall ps,
  repr (ef_vnodes s) (Some <$> ps) -> dom (ef_heap s) = list_to_set (C := gset Z) ps ->
  wp (find_ev p) (fun r s' => s' = s /\ exists ix, r = Some ix /\ nthZ ps ix = Some p) s.
Proof.
  clear patient. intros Ht Hp ps Hrep Hdom. unfold find_ev, on_vnodes, array_getnum.
  wp_steps. rewrite (emu_table_num _ _ Hrep). replace (set_vnodes (ef_vnodes s) s) with s by (by destruct s).
  apply wp_iterate with (I := fun i s' => s' = s /\ forall j, 0 <= j < i -> nthZ ps j <> Some p).
  - split; [done|]. intros; lia.
  - intros i s' Hi [-> Hbefore]. unfold lenZ in Hi. destruct (nthZ_is_Some ps i) as [q Hq]; [unfold lenZ; lia|].
    wp_steps. eapply wp_of_eq; [by eapply table_getguy|]. wp_steps.
    replace (set_vnodes (ef_vnodes s) s) with s by (by destruct s). case_bool_decide as Hqp.
    + subst q. split; [done|]. by exists i.
    + split; [done|]. intros j Hj. destruct (decide (j = i)) as [->|]; [congruence|]. apply Hbefore. lia.
  - intros s' [-> Hall]. apply (table_mem _ _ _ Hdom) in Hp. apply list_elem_of_lookup in Hp as [j Hj].
    pose proof (lookup_lt_Some _ _ _ Hj). destruct (Hall (Z.of_nat j)); [unfold lenZ; lia|].
    rewrite nthZ_to_nat by lia. by rewrite Nat2Z.id.
Qed.

(** The table without a vnode of one reference. *)
Lemma removed_ok s own p ps ix a :
  table_ok s own -> own p = 1 -> ef_root s <> Some p ->
  NoDup ps -> dom (ef_heap s) = list_to_set (C := gset Z) ps -> nthZ ps ix = Some p ->
  repr a (delete (Z.to_nat ix) (Some <$> ps)) ->
  table_ok (set_vnodes a (set_heap (delete p (ef_heap s)) s)) (bump own p (-1)).
Proof.
  clear patient. intros Ht Hown Hroot Hnd Hdom Hix Ha. pose proof (nthZ_Some_lt _ _ _ Hix). rewrite nthZ_to_nat in Hix by lia.
  pose proof (delete_Permutation ps _ _ Hix) as Hperm. rewrite Hperm in Hnd. apply NoDup_cons in Hnd as [Hnot Hnd'].
  split; simpl.
  - exists (delete (Z.to_nat ix) ps). rewrite list_fmap_delete. split; [done|]. split; [done|].
    rewrite dom_delete_L, Hdom. apply set_eq. intros x. rewrite elem_of_difference, !elem_of_list_to_set, Hperm at 1.
    set_solver.
  - intros q ev. rewrite lookup_delete. case_decide as Hq; [done|]. unfold refs, bump. simpl.
    rewrite (decide_False (P := q = p)) by done. apply (tk_live _ _ Ht).
  - intros q q' e1 e2. rewrite !lookup_delete. repeat case_decide; try done. apply (tk_inj _ _ Ht).
  - intros q. unfold bump. rewrite lookup_delete. repeat case_decide; simplify_eq; try done; [lia|]. apply (tk_free _ _ Ht).
  - intros q. unfold bump. case_decide; [subst; rewrite Hown; lia|apply (tk_own _ _ Ht)].
  - intros q Hq. rewrite lookup_delete. case_decide; [congruence|]. by apply (tk_root _ _ Ht).
Qed.

(** The card without its handle. *)
Lemma removed_handles_ok s own p ev own' sc a :
  emufs_ok s own -> ef_heap s !! p = Some ev -> e_sem sc = 0 -> lenZ (e_iobuf sc) = EMU_MAXIO ->
  host_at sc = closed (ev_handle ev) (host_at (ef_emu s)) ->
  table_ok (set_vnodes a (set_heap (delete p (ef_heap s)) s)) own' ->
  emufs_ok (set_emu (set_lock false sc) (set_vnodes a (set_heap (delete p (ef_heap s)) s))) own'.
Proof.
  clear patient. intros Hok Hp Hs Hb Hw Ht. split; simpl; [done|by apply table_ok_set_emu| |];
    change (host_at (set_lock false sc)) with (host_at sc); rewrite Hw; unfold closed; simpl.
  - intros n. rewrite lookup_delete_is_Some. unfold in_table. simpl. setoid_rewrite lookup_delete.
    rewrite (ek_handles _ _ Hok). split.
    + intros (Hne & q & ev' & Hq & <-). exists q, ev'. rewrite decide_False; [done|]. intros ->. congruence.
    + intros (q & ev' & Hq & <-). case_decide as Hqp; [done|]. split; [|by exists q, ev'].
      intros Heq. apply Hqp. by eapply (tk_inj _ _ (ek_table _ _ Hok)).
  - intros n f. rewrite lookup_delete. case_decide; [done|]. apply (ek_data _ _ Hok).
Qed.

Lemma reclaim_wp s own p ev : emufs_ok s own -> ef_heap s !! p = Some ev -> own p = 1 -> refs s own p = 1 ->
  wp (emufs_reclaim p) (fun r s' => r = inr tt /\ ef_root s' = ef_root s /\ emufs_ok s' (bump own p (-1))) s.
Proof.
  intros Hok Hp Hown Hrefs. pose proof (ek_table _ _ Hok) as Ht. pose proof (ek_ready _ _ Hok) as [Hl Hs Hb].
  destruct (open_handle _ _ _ _ Hok Hp) as [Hu Hopen]. destruct (tk_live _ _ Ht _ _ Hp) as [[Hc Ho Hlock _ _] _].
  assert (ef_root s <> Some p) as Hroot by (unfold refs in Hrefs; case_decide; [lia|done]).
  destruct (tk_table _ _ Ht) as (ps & Hrep & Hnd & Hdom).
  unfold emufs_reclaim, get_ev, with_emu, acquire, release. wp_steps. exists ev. split; [done|]. wp_steps. rewrite Hl. split; [done|].
  wp_steps. rewrite Hc, Hrefs. simpl. wp_steps. eapply wp_mono; [by apply emu_close_wp|].
  intros r sc (Hl' & Hs' & Hb' & Hcl). rewrite bool_decide_true in Hcl by apply patient. destruct Hcl as [-> Hw].
  simpl in Hl', Hw. wp_steps. set (s1 := set_emu sc s).
  eapply wp_mono; [apply (find_ev_wp s1 own p) with (ps := ps); try done; by apply table_ok_set_emu|].
  intros r s' (-> & ix & -> & Hix). unfold on_vnodes. wp_steps. simpl.
  eapply wp_mono; [eapply remove_correct; [done|]|].
  { rewrite (emu_table_num _ _ Hrep). by eapply nthZ_Some_lt. }
  intros _ a [Ha _]. wp_steps. simpl. rewrite Hl'. split; [done|]. wp_steps.
  unfold VOP_KILL, vnode_kill, vn_read, vn_write, get_vnode, kfree_ev. wp_steps. simpl. exists (ev_v ev). rewrite Hp. split; [done|].
  wp_steps. rewrite Hc, Hrefs, Ho, Hlock. repeat (wp_steps; split; [done|]). wp_steps. simpl.
  match goal with |- emufs_ok ?t _ =>
    assert (t = set_emu (set_lock false sc) (set_vnodes a (set_heap (delete p (ef_heap s)) s))) as -> end.
  { unfold set_vnode, set_heap, set_vnodes. simpl. by rewrite delete_alter_eq. }
  apply (removed_handles_ok s own p ev); try done.
  by eapply removed_ok.
Qed.

Lemma emufs_ok_counted s own p ev d : emufs_ok s own -> ef_heap s !! p = Some ev -> 0 < refs s own p + d -> 0 <= own p + d < 2 ^ 30 ->
  emufs_ok (set_vnode p (counted (ev_v ev) d) s) (bump own p d).
Proof.
  clear patient. intros Hok Hp Hr Ho. pose proof Hok as [Hrd Ht Hh Hd].
  split; [done|by apply counted_ok| |done]. intros n. rewrite (in_table_set_vnode _ _ _ _ _ Hp). apply Hh.
Qed.

Lemma decref_wp s own p : emufs_ok s own -> 0 < own p ->
  wp (VOP_DECREF p) (fun _ s' => ef_root s' = ef_root s /\ emufs_ok s' (bump own p (-1))) s.
Proof.
  intros Hok Hown. pose proof (ek_table _ _ Hok) as Ht. destruct (owned_live _ _ _ Ht Hown) as [ev Hp].
  destruct (tk_live _ _ Ht _ _ Hp) as [Hl Hpos]. pose proof (lv_count _ _ Hl) as Hc. pose proof (tk_own _ _ Ht p).
  assert (get_vnode p s = Some (ev_v ev)) as Hg by (unfold get_vnode; by rewrite Hp).
  unfold VOP_DECREF. destruct (decide (refs s own p = 1)) as [H1r|H1r].
  - assert (own p = 1) as Hone by (unfold refs in H1r; case_decide; lia).
    destruct (wp_done _ _ _ (reclaim_wp s own p ev Hok Hp Hone H1r)) as (r & s' & Hrun & _ & Hs').
    eapply wp_of_eq; [eapply vnode_decref_last; [done|by eapply table_vnode_ok|by rewrite Hc|done]|done].
  - eapply wp_of_eq; [eapply vnode_decref_shared; [done|lia]|]. split; [done|].
    apply (emufs_ok_counted _ _ _ _ (-1)); [done|done|lia|lia].
Qed.

Lemma incref_wp s own p ev : emufs_ok s own -> ef_heap s !! p = Some ev -> own p + 1 < 2 ^ 30 ->
  wp (VOP_INCREF p) (fun _ s' => keeps s own (inr (Some p)) s') s.
Proof.
  clear patient. intros Hok Hp Ho. pose proof (ek_table _ _ Hok) as Ht. eapply wp_of_eq; [by eapply incref_run|].
  destruct (tk_live _ _ Ht _ _ Hp) as [_ Hpos]. pose proof (tk_own _ _ Ht p).
  split; [done|]. apply emufs_ok_counted; [done|done|lia|lia].
Qed.
End patient.

End invariant.

(** ** Users of the file system *)

Inductive emu_call : Type :=
| c_lookup (m : emu_memory) (dir : Z) (pathname : list Z)
| c_creat (m : emu_memory) (dir : Z) (name : list Z) (excl : bool)
| c_lookparent (m : emu_memory) (dir : Z) (pathname : list Z) (len : Z)
| c_getroot
| c_incref (p : Z)
| c_decref (p : Z)
| c_stat (p : Z)
| c_truncate (p len : Z)
| c_read (p : Z) (e : uenv)
| c_write (p : Z) (e : uenv).

Section calls.
Context {H : Type} `{HostCard H}.
Notation fs := (emufs_fs H).
Implicit Types (s : fs) (own : Z -> Z).

Definition gain {A} (f : A -> option Z) (m : E fs A) : E fs (option Z) :=
  let! r := m in ret (match r with inl e => inl e | inr a => inr (f a) end).

(** A call, and the vnode it gives a reference to. *)
Definition run_call (c : emu_call) : E fs (option Z) :=
  match c with
  | c_lookup m dir path => gain Some (VOP_LOOKUP m dir path)
  | c_creat m dir name excl => gain Some (VOP_CREAT m dir name excl)
  | c_lookparent m dir path len => gain (fun r => Some (fst r)) (VOP_LOOKPARENT m dir path len)
  | c_getroot => let! p := emufs_getroot in ok (Some p)
  | c_incref p => do! VOP_INCREF p in ok (Some p)
  | c_decref p => do! VOP_DECREF p in ok None
  | c_stat p => gain (fun _ => None) (VOP_STAT p)
  | c_truncate p len => gain (fun _ => None) (VOP_TRUNCATE p len)
  | c_read p e => gain (fun _ => None) (zoom (fun s => (s, e)) (fun t _ => fst t) (VOP_READ p))
  | c_write p e => gain (fun _ => None) (zoom (fun s => (s, e)) (fun t _ => fst t) (VOP_WRITE p))
  end.

(** The user works with vnodes it has references to. *)
Definition allowed own (c : emu_call) : Prop :=
  match c with
  | c_lookup _ p _ | c_creat _ p _ _ | c_lookparent _ p _ _ | c_incref p | c_decref p | c_stat p | c_truncate p _ => 0 < own p
  | c_getroot => True
  | c_read p e => 0 < own p /\ exists obj off, whole_request e UIO_READ obj off
  | c_write p e => 0 < own p /\ exists obj off, whole_request e UIO_WRITE obj off
  end.

Definition after own (c : emu_call) (r : errno + option Z) : Z -> Z :=
  match c, r with
  | c_decref p, _ => bump own p (-1)
  | _, inr (Some q) => bump own q 1
  | _, _ => own
  end.

(** Mounted over a card with nothing open but the root, and then used. *)
Inductive history : fs -> (Z -> Z) -> Prop :=
| history_mount h iobuf m1 m2 m3 m4 m r s sc :
    (forall n, is_Some (hd_file (host_of h) !! n) <-> n = EMU_ROOTHANDLE) ->
    (forall n f, hd_file (host_of h) !! n = Some f -> is_Some (hf_data (host_of h) !! f)) ->
    lenZ iobuf = EMU_MAXIO ->
    config_emu h iobuf m1 m2 m3 m4 m r = Done (inr s) sc ->
    history s (fun _ => 0)
| history_call s own c r s' :
    history s own -> allowed own c -> room own -> run_call c s = Done r s' -> history s' (after own c r).

(** ** Each call *)

Lemma entry_wp {A} s own p (file dir : E fs A) Q :
  emufs_ok s own -> 0 < own p ->
  (forall ev, ef_heap s !! p = Some ev -> vn_ops (ev_v ev) = Some emufs_fileops -> wp file Q s) ->
  (forall ev, ef_heap s !! p = Some ev -> wp dir Q s) ->
  wp (entry p file dir) Q s.
Proof.
  intros Hok Hown Hf Hd. pose proof (ek_table _ _ Hok) as Ht. destruct (owned_live _ _ _ Ht Hown) as [ev Hp].
  unfold entry, vn_read, get_vnode. wp_steps. exists (ev_v ev). rewrite Hp. split; [done|]. wp_steps.
  split; [apply vnode_ok_check; by eapply table_vnode_ok|].
  destruct (tk_live _ _ Ht _ _ Hp) as [Hl _]. destruct (lv_ops _ _ Hl) as [Ho|Ho]; rewrite Ho; eauto.
Qed.

(** A call that gains nothing but may change the device. *)
Definition quiet s own {A} (r : errno + A) s' : Prop := ef_root s' = ef_root s /\ emufs_ok s' own.

Lemma quiet_refl s own {A} (r : errno + A) : emufs_ok s own -> quiet s own r s.
Proof. by split. Qed.

Lemma gain_wp {A} (f : A -> option Z) (m : E fs A) Q s :
  wp m (fun r => Q (match r with inl e => inl e | inr a => inr (f a) end)) s -> wp (gain f m) Q s.
Proof. intros Hw. unfold gain. wp_steps. eapply wp_mono; [exact Hw|]. intros r s' Hr. by wp_steps. Qed.

(** The file of a live vnode. *)
Lemma live_file s own p ev : emufs_ok s own -> ef_heap s !! p = Some ev ->
  exists f c, at_file (ef_emu s) (ev_handle ev) f c.
Proof.
  intros Hok Hp. destruct (open_handle _ _ _ _ Hok Hp) as [Hu [f Hf]]. destruct (ek_data _ _ Hok _ _ Hf) as [c Hc].
  exists f, c. split; [apply (ek_ready _ _ Hok)|done|done|done].
Qed.

Lemma emufs_ok_data s own sc f c : emufs_ok s own -> ready sc -> host_at sc = set_data f c (host_at (ef_emu s)) ->
  emufs_ok (set_emu sc s) own.
Proof.
  intros [Hr Ht Hh Hd] Hr' Hw. split; simpl; [done|by apply table_ok_set_emu| |]; rewrite Hw; simpl; [apply Hh|].
  intros n g Hg. apply lookup_insert_is_Some'. right. by eapply Hd.
Qed.

(** A command on an open handle, under the lock. *)
Ltac emu_step :=
  lazymatch goal with
  | |- wp (bind (wreg_oper _) _) _ _ => fail
  | |- wp acquire _ _ => unfold acquire
  | |- wp release _ _ => unfold release
  | |- wp (wreg_handle _) _ _ => unfold wreg_handle
  | |- wp (wreg_iolen _) _ _ => unfold wreg_iolen
  | |- wp (emu_rreg _) _ _ => unfold emu_rreg
  | |- _ => wp_step
  end; cbv beta; simpl.
Ltac emu_steps := repeat emu_step.

Lemma emu_getsize_wp handle f c (sc : emu_softc H) : at_file sc handle f c ->
  wp (emu_getsize handle)
    (fun r sc' => ready sc' /\ host_at sc' = host_at sc /\ forall n, r = inr n -> n = s32 (lenZ c)) sc.
Proof.
  intros [[Hl Hs Hb] Hu Hf Hc]. unfold emu_getsize. emu_steps. rewrite Hl. split; [done|]. emu_steps.
  apply wp_then. rewrite u32_id by done. eapply command_wp; simpl; [done|by eapply (law_getsize _ _ host_ok)| |].
  - intros h r b Hlb [Hw Hn]. emu_steps. split; [split; simpl; [done|done|by rewrite Hlb]|]. split; [done|].
    intros n [= <-]. by rewrite Hn, s32_u32.
  - intros e h r b Hlb Hw. emu_steps. split; [split; simpl; [done|done|by rewrite Hlb]|]. split; [done|]. done.
Qed.

Lemma emu_trunc_wp handle f c len (sc : emu_softc H) : at_file sc handle f c ->
  wp (emu_trunc handle len)
    (fun r sc' => ready sc' /\
       host_at sc' = match r with inr _ => set_data f (host_resize c (u32 len)) (host_at sc) | inl _ => host_at sc end) sc.
Proof.
  intros [[Hl Hs Hb] Hu Hf Hc]. unfold emu_trunc. emu_steps. rewrite Hl. split; [done|]. emu_steps.
  apply wp_then. rewrite (u32_id handle) by done. eapply command_wp; simpl; [done|by eapply (law_trunc _ _ host_ok)| |].
  - intros h r b Hlb Hw. emu_steps. split; [split; simpl; [done|done|by rewrite Hlb]|]. exact Hw.
  - intros e h r b Hlb Hw. emu_steps. split; [split; simpl; [done|done|by rewrite Hlb]|]. exact Hw.
Qed.

Lemma stat_wp s own p : emufs_ok s own -> 0 < own p -> wp (VOP_STAT p) (quiet s own) s.
Proof.
  intros Hok Hown. assert (wp (emufs_stat p) (quiet s own) s) as Hstat; [|eapply entry_wp; eauto].
  unfold emufs_stat. wp_steps. eapply (entry_wp (A := Z) s own); [done|done| |]; intros ev Hp; intros; wp_steps;
    unfold emufs_file_gettype, emufs_dir_gettype, get_ev; wp_steps; exists ev; (split; [done|]); unfold with_emu; wp_steps;
    (destruct (live_file _ _ _ _ Hok Hp) as (f & c & Hfile));
    (eapply wp_mono; [by eapply emu_getsize_wp|]); (intros [e|n] sc (Hr & Hw & _)); wp_steps;
    (split; [done|by apply emufs_ok_same]).
Qed.

Lemma truncate_wp s own p len : emufs_ok s own -> 0 < own p -> wp (VOP_TRUNCATE p len) (quiet s own) s.
Proof.
  intros Hok Hown. eapply entry_wp; [done|done| |intros; wp_steps; by apply quiet_refl].
  intros ev Hp _. unfold emufs_truncate, get_ev, with_emu. wp_steps. exists ev. split; [done|]. wp_steps.
  destruct (live_file _ _ _ _ Hok Hp) as (f & c & Hfile). eapply wp_mono; [by eapply emu_trunc_wp|].
  intros [e|[]] sc [Hr Hw]; (split; [done|]); [by apply emufs_ok_same|by eapply emufs_ok_data].
Qed.

Lemma entry_io_wp s own p (file dir : E (emufs_fs H * uenv) unit) e Q :
  emufs_ok s own -> 0 < own p ->
  (forall ev f c, file_vnode s p ev f c -> wp (entry_io p file dir) Q (s, e)) -> wp dir Q (s, e) ->
  wp (entry_io p file dir) Q (s, e).
Proof.
  intros Hok Hown Hf Hd. pose proof (ek_table _ _ Hok) as Ht. destruct (owned_live _ _ _ Ht Hown) as [ev Hp].
  destruct (tk_live _ _ Ht _ _ Hp) as [Hl _]. pose proof (table_vnode_ok _ _ _ _ Ht Hp) as Hvok.
  destruct (lv_ops _ _ Hl) as [Ho|Ho].
  - destruct (live_file _ _ _ _ Hok Hp) as (f & c & Hfile). by apply (Hf ev f c).
  - unfold entry_io, on_fs, vn_read, get_vnode. wp_steps. simpl. exists (ev_v ev). rewrite Hp. split; [done|].
    wp_steps. split; [by apply vnode_ok_check|]. by rewrite Ho.
Qed.

Lemma read_wp s own p e obj off : emufs_ok s own -> 0 < own p -> whole_request e UIO_READ obj off ->
  wp (VOP_READ p) (fun r t => quiet s own r (fst t)) (s, e).
Proof.
  intros Hok Hown Hw. apply (entry_io_wp s own); [done|done| |wp_steps; by apply quiet_refl].
  intros ev f c Hf. eapply wp_mono; [by eapply vop_read_wp|].
  intros r t (sc & xs & -> & Hr & Hh & _). split; [done|by apply emufs_ok_same].
Qed.

Lemma write_wp s own p e obj off : emufs_ok s own -> 0 < own p -> whole_request e UIO_WRITE obj off ->
  wp (VOP_WRITE p) (fun r t => quiet s own r (fst t)) (s, e).
Proof.
  intros Hok Hown Hw. apply (entry_io_wp s own); [done|done| |wp_steps; by apply quiet_refl].
  intros ev f c Hf. eapply wp_mono; [by eapply vop_write_wp|].
  intros r t (sc & n & m & -> & Hr & _ & _ & _ & Hh & _). split; [done|by eapply emufs_ok_data].
Qed.

Section patient_calls.
Hypothesis patient : forall h : H, (mishaps h <= 10)%nat.

Lemma keeps_refl s own e : emufs_ok s own -> keeps s own (inl e) s.
Proof. by split. Qed.

Lemma lookup_wp m s own dir path : emufs_ok s own -> 0 < own dir -> room own ->
  wp (VOP_LOOKUP m dir path) (fun r => keeps s own (gaining r)) s.
Proof.
  intros Hok Hown Hroom. eapply entry_wp; [done|done| |]; intros; [wp_steps; by apply keeps_refl|].
  by apply open_and_load_wp.
Qed.

Lemma creat_wp m s own dir name excl : emufs_ok s own -> 0 < own dir -> room own ->
  wp (VOP_CREAT m dir name excl) (fun r => keeps s own (gaining r)) s.
Proof.
  intros Hok Hown Hroom. eapply entry_wp; [done|done| |]; intros; [wp_steps; by apply keeps_refl|].
  by apply open_and_load_wp.
Qed.

Lemma lookparent_wp m s own dir path len : emufs_ok s own -> 0 < own dir -> room own ->
  wp (VOP_LOOKPARENT m dir path len)
    (fun r => keeps s own (match r with inl e => inl e | inr (q, _) => inr (Some q) end)) s.
Proof.
  intros Hok Hown Hroom. eapply entry_wp; [done|done| |]; intros; [wp_steps; by apply keeps_refl|].
  unfold emufs_lookparent. destruct (last_slash path) as [[d x]|]; case_match; wp_steps; try by apply keeps_refl.
  - eapply wp_mono; [by apply open_and_load_wp|]. intros [e|q] s' Hk; wp_steps; exact Hk.
  - eapply wp_mono; [by eapply incref_wp|]. intros [] s' Hk. wp_steps. exact Hk.
Qed.

(** A call of the user returns, and the references it has are those it is given. *)
Lemma run_call_wp s own c : emufs_ok s own -> is_Some (ef_root s) -> allowed own c -> room own ->
  wp (run_call c) (fun r s' => ef_root s' = ef_root s /\ emufs_ok s' (after own c r)) s.
Proof.
  intros Hok [root Hroot] Hc Hroom.
  destruct c; simpl in Hc; cbn [run_call]; try (apply gain_wp).
  - eapply wp_mono; [by apply lookup_wp|]. by intros [e|q] s' Hk.
  - eapply wp_mono; [by apply creat_wp|]. by intros [e|q] s' Hk.
  - eapply wp_mono; [by apply lookparent_wp|]. by intros [e|[q x]] s' Hk.
  - unfold emufs_getroot. wp_steps. rewrite Hroot. destruct (tk_root _ _ (ek_table _ _ Hok) _ Hroot) as [ev Hp].
    wp_steps. eapply wp_mono; [by eapply incref_wp|]. intros [] s' Hk. wp_steps.
    destruct Hk as [-> Hk]. by split.
  - destruct (owned_live _ _ _ (ek_table _ _ Hok) Hc) as [ev Hp].
    wp_steps. eapply wp_mono; [by eapply incref_wp|]. intros [] s' Hk. by wp_steps.
  - wp_steps. eapply wp_mono; [by apply decref_wp|]. intros [] s' Hk. by wp_steps.
  - eapply wp_mono; [by apply stat_wp|]. by intros [e|q] s' Hk.
  - eapply wp_mono; [by apply truncate_wp|]. by intros [e|q] s' Hk.
  - destruct Hc as (Ho & obj & off & Hw). apply wp_zoom. eapply wp_mono; [by eapply read_wp|]. by intros [r|r] t Hk.
  - destruct Hc as (Ho & obj & off & Hw). apply wp_zoom. eapply wp_mono; [by eapply write_wp|]. by intros [r|r] t Hk.
Qed.

(** ** Mounting *)

Lemma empty_table_ok (sc : emu_softc H) : table_ok (mk_ef sc None (mk_array 0 0 None) ∅) (fun _ => 0).
Proof. clear patient. split; simpl; try done. exists []. split; [apply repr_empty|]. split; [constructor|done]. Qed.

(** The reference of the loader becomes that of the root. *)
Lemma root_ok s p : table_ok s (bump (fun _ => 0) p 1) -> ef_root s = None -> table_ok (set_root (Some p) s) (fun _ => 0).
Proof.
  clear patient. intros Ht Hnone. pose proof Ht as [Htab Hl Hinj Hfree Hown Hroot].
  assert (is_Some (ef_heap s !! p)) as Hp.
  { destruct (ef_heap s !! p) eqn:Hp; [done|]. specialize (Hfree _ Hp). unfold bump in Hfree. rewrite decide_True in Hfree by done. lia. }
  split; simpl; try done.
  - intros q ev Hq. specialize (Hl _ _ Hq). unfold refs, bump in *. rewrite Hnone in Hl. simpl.
    rewrite (decide_False (P := None = Some q)) in Hl by done.
    destruct (decide (q = p)) as [->|Hne]; [rewrite decide_True by done; exact Hl|lia].
  - by intros q [= ->].
Qed.

Lemma addtovfs_ok m1 m2 m r (sc sc' : emu_softc H) s :
  ready sc -> (forall n, is_Some (hd_file (host_at sc) !! n) <-> n = EMU_ROOTHANDLE) ->
  (forall n f, hd_file (host_at sc) !! n = Some f -> is_Some (hf_data (host_at sc) !! f)) ->
  emufs_addtovfs m1 m2 m r sc = Done (inr s) sc' -> emufs_ok s (fun _ => 0) /\ is_Some (ef_root s).
Proof.
  clear patient. intros Hr Hopen Hdata. unfold emufs_addtovfs. destruct m1; simpl; [|done]. destruct m2; simpl; [|done].
  set (s0 := mk_ef sc None (mk_array 0 0 None) ∅).
  destruct (wp_done _ _ _ (loadvnode_wp m EMU_ROOTHANDLE true s0 (fun _ => 0) Hr (empty_table_ok sc)
    ltac:(unfold is_u32, EMU_ROOTHANDLE; lia) ltac:(done) ltac:(done))) as ([e|p] & s1 & Hrun & Hemu & Hroot & Hl);
    rewrite Hrun; [done|]. destruct Hl as [Ht Hin].
  destruct r as [e|[]]; [by destruct (VOP_DECREF p _)|]. intros [= <- <-]. split; [|by eexists].
  split; simpl; rewrite ?Hemu; simpl; [done|by apply root_ok|intros n|done].
  rewrite Hopen. change (in_table (set_root (Some p) s1) n) with (in_table s1 n). rewrite Hin.
  split; [by right|]. intros [(q & ev & Hq & _)|Hn]; [done|done].
Qed.

Lemma history_ok s own : history s own -> emufs_ok s own /\ is_Some (ef_root s).
Proof.
  induction 1 as [h iobuf m1 m2 m3 m4 m r s sc Hopen Hdata Hb Hrun|s own c r s' Hh [Hok Hroot] Hc Hroom Hrun].
  - revert Hrun. unfold config_emu. destruct m1; simpl; [|done]. destruct m2; simpl; [|done]. by apply addtovfs_ok.
  - pose proof (run_call_wp s own c Hok Hroot Hc Hroom) as Hw. unfold wp in Hw. rewrite Hrun in Hw.
    destruct Hw as [Hr Hok']. by rewrite Hr.
Qed.
End patient_calls.

End calls.

(** ** Properties *)


(** [emu_close] gets past ten I/O errors of the host, and closes the handle; with
    more in store it gives up after eleven tries, and the handle stays open. *)
Theorem emu_close_tries_eleven_times {H} `{HostCard H} (sc : emu_softc H) (handle : Z) :
  e_sem sc = 0 -> lenZ (e_iobuf sc) = EMU_MAXIO -> is_u32 handle -> is_Some (hd_file (host_at sc) !! handle) ->
  exists r sc', emu_close handle sc = Done r sc' /\ close_result handle sc r sc'.
Proof. intros. apply wp_done. by apply emu_close_wp. Qed.

(** The toy, mounted, with a file in its root directory. *)
Definition demo_host : host := mk_host {[ EMU_ROOTHANDLE := 0 ]} {[ 0 := []; 9 := [10; 11; 12; 13] ]}.
Definition demo_memory : emu_memory := mk_ememory true true true.
Definition demo_mount : outcome (emu_softc toy) (errno + emufs_fs toy) :=
  config_emu (mk_toy demo_host [(str "f", 9)] true) (replicate 16384 0) true true true true demo_memory (inr tt).

Definition result_of {S A B} (d : B) (o : outcome S (A + B)) : B := match o with Done (inr b) _ => b | _ => d end.
Definition state_of {S A} (d : S) (o : outcome S A) : S := match o with Done _ s => s | _ => d end.

Definition demo_fs0 : emufs_fs toy := result_of demo_fs demo_mount.
Definition demo_fs1 : emufs_fs toy := state_of demo_fs (run_call c_getroot demo_fs0).
Definition demo_lookup : emu_call := c_lookup demo_memory 0 (str "f").
Definition demo_fs2 : emufs_fs toy := state_of demo_fs (run_call demo_lookup demo_fs1).
Definition demo_own1 : Z -> Z := bump (fun _ => 0) 0 1.
Definition demo_own2 : Z -> Z := bump demo_own1 1 1.

Definition handles (s : emufs_fs toy) : list (Z * Z) := map_to_list (hd_file (host_at (ef_emu s))).

Lemma demo_history : history demo_fs2 demo_own2.
Proof.
  apply (history_call demo_fs1 demo_own1 demo_lookup (inr (Some 1)) demo_fs2).
  - apply (history_call demo_fs0 (fun _ => 0) c_getroot (inr (Some 0)) demo_fs1); [|done|done|by vm_compute].
    eapply (history_mount (mk_toy demo_host [(str "f", 9)] true) (replicate 16384 0) true true true true demo_memory (inr tt)).
    + intros n. simpl. rewrite lookup_singleton. case_decide; [by subst|]. split; [by intros [? ?]|congruence].
    + intros n f. simpl. rewrite lookup_singleton. case_decide; [|done]. intros [= <-]. by eexists.
    + done.
    + by vm_compute.
  - done.
  - intros p. unfold demo_own1, bump. case_decide; lia.
  - by vm_compute.
Qed.


Lemma emu_close_tries_eleven_times_witness :
  exists r sc', emu_close 5 (ef_emu demo_fs) = Done r sc' /\ close_result 5 (ef_emu demo_fs) r sc'.
Proof.
  apply (emu_close_tries_eleven_times (ef_emu demo_fs) 5); [reflexivity|vm_compute; reflexivity|
    unfold is_u32; lia|vm_compute; eexists; reflexivity].
Defined.
